(* ===== verification/_CoqProject ===== *)
-Q . S2P
Prelude.v
Effects.v
Stateful.v
Rounding.v
Bytes.v
OpKinds.v
DecodeTables.v
OpcodeTable.v
InstBuffer.v
ExpVector.v
InstState.v
InstTrans.v
InstDecode.v
TransSpec.v
DecodeSpec.v
DecodeLocal.v
InstIter.v
IterSpec.v
ValState.v
AddressSet.v
ValSpec.v
Jumps.v
CheckSpec.v
JumpSpec.v
ProtectBase.v
BaseSpec.v
MemProtect.v
MemSpec.v
Illegal.v
CpuChecks.v
CpuSpec.v
ValidateIter.v
LoopSpec.v
SegmentSpec.v
Sandbox.v
Gio.v
Elf.v
MemObj.v
Vmmap.v
VmmapSpec.v
VmmapCompact.v
VmmapUpdate.v
VmmapFind.v
DynArray.v
Policy.v
App.v
HostDesc.v
GioShm.v
Memory.v
MemorySafe.v
AddrSpace.v
Validate.v
NcValidate.v
DynText.v
DynCode.v
Trampoline.v
CopyCode.v
CopySpec.v
X64Validator.v
Loader.v
LoaderSpec.v
SampleImage.v
Sysbrk.v
Mmap.v
Trap.v
MainThread.v
Md5.v
ManifestText.v
ManifestSetup.v
ManifestSpec.v
Syscalls.v
Isolation.v
Sample.v
MapProperties.v
LoadProperties.v
ManifestProperties.v
CallProperties.v
TrapProperties.v
RunProperties.v
ValidatorProperties.v
