(* ===== verification/Prelude.v ===== *)
(** * ZeroVM: a verification library for the service runtime and its validator

    ZeroVM runs one untrusted x86-64 program inside a 4 GB sandbox in its own
    process.  A text manifest gives the program its files (channels) and
    limits; the loader maps the program and has its code validated; from then
    on it reaches the outside only through a table of trampolines, a handful of
    system calls and the single ZeroVM call "trap".  This library models the C
    code of that path under src/src/service_runtime, src/src/manifest, the
    x86-64 validator under src/src/validator, and the parts of src/src/gio,
    src/src/desc and src/src/platform they use, as built for 64-bit Linux with
    assertions on and without NETWORKING and NCVAL_TESTING.

    ** Conventions

    A computation of the runtime is [Effects.M]: the list of host calls it made
    and its outcome, a value or a [fault] (LOG_FATAL, a failed CHECK,
    COND_ABORT, or undefined behaviour such as a NULL dereference or an index
    outside an array).  The decoder and the validator, which update large
    structures on every line, run in the state monad [Stateful.St] with the
    same outcomes and weakest preconditions [wp].  Structures passed by
    reference are threaded explicitly; C integers are [Z] with the wrap-around
    of their width written out ([u8], [u32], [u64], [i32], [i64]); the memory
    of the process is a function from addresses to bytes ([Bytes.memory]).
    Definitions carry the names of the C functions; the parts of a long
    function are named after it ([Mmap_part1], [LoadFile_headers],
    [Candidates_loop]).  Parameters of the model are classes: [Host] (kernel
    and allocator), [Gio] (the virtual table of gio.h), [Shm] (the virtual
    table of the shared text, which NaClDescImcShm implements), [Imc] (the C++
    library below it), [Symbols] (link addresses), [Files] (open and
    ftruncate), [Validator] (the interface of ncvalidate.h, which
    [X64Validator] implements).  The theorems hold for every host, also one
    whose allocator or kernel fails; where the code relies on more, that is a
    hypothesis of the theorem and named in its comment ([GioLaws],
    [ValidatorLaws], [shm_map_ok], [user_reservation], [honours_fixed],
    [windows_granted]).

    ** Files, in order of dependency

    - Prelude, Effects, Stateful: words, record update, tactics and hints; the
      two monads with their rules.
    - Rounding (nacl_config.h, sel_util-inl.h): page arithmetic.
    - Bytes (sel_ldr.c): memory, unaligned access, code patches.
    - The decoder.  OpKinds, DecodeTables, OpcodeTable (decoder/gen,
      ncopcode_desc.h, nacl_regs64.h): enumerations and every row of the
      validator's tables.  InstBuffer (ncinstbuffer.c), ExpVector (ncop_exps.c),
      InstState, InstTrans (nc_inst_trans.c), InstDecode
      (nc_inst_state_statics.c, nc_inst_state.c): one instruction, from its
      bytes to the tree of its operands.  TransSpec, DecodeSpec: it always
      ends, inside its arrays and the segment.  DecodeLocal: it depends only on
      the bytes of the segment.  InstIter (nc_inst_iter.c), IterSpec: the ring
      of decoded instructions, refined to the list of them.
    - The validator.  ValState, AddressSet, Jumps, ProtectBase, MemProtect,
      Illegal, CpuChecks (ncvalidate_iter.c, address_sets.c, nc_jumps.c,
      nc_protect_base.c, ncvalidate_utils.c, nc_memory_protect.c, nc_illegal.c,
      nc_cpu_checks.c, nacl_cpuid.c): the state and the checks.  ValSpec and
      CheckSpec are the rules for a check; JumpSpec, BaseSpec, MemSpec and
      CpuSpec say what each check establishes.  ValidateIter (halt_trim.c,
      ncvalidate_iter.c, nc_jumps_detailed.c), LoopSpec, SegmentSpec: the pass
      over a segment.  Sandbox: sandboxed code, without reference to the
      validator, and that accepted code is.
    - Gio (gio.h, gio_mem.c), Elf (elf_util.c): reading the program file,
      accepting its headers, loading its segments.
    - MemObj (nacl_memory_object.c), Vmmap (sel_mem.c): the memory map, an
      array of entries with lazy sorting and deferred removal.  VmmapSpec is
      its abstract view, a partial function from pages to protections;
      VmmapCompact, VmmapUpdate and VmmapFind show that compaction, update and
      the searches refine it.
    - DynArray (dyn_array.c): the growing array with its free bitmap, refined
      to a partial function from indices.
    - Policy (zvm.h, manifest_setup.h, accounting), App (sel_ldr.h,
      sel_ldr-inl.h, sel_ldr.c): the application object, address translation,
      descriptors.
    - HostDesc, Memory, MemorySafe, Sysbrk, Mmap (nacl_host_desc.c,
      nacl_desc_io.c, nacl_syscall_handlers.c): mmap, munmap and sysbrk, the
      host calls they can make and the invariant [app_inv] they keep.
    - GioShm (gio_shm.c, nacl_desc_imc_shm.c): files over shared memory,
      refined to memory files.
    - AddrSpace (sel_addrspace*.c): reserving the address space and the final
      protections, which establish [app_inv].
    - Validate (sel_validate_image.c), NcValidate (64/ncvalidate.c), DynText,
      DynCode (nacl_text.c), Trampoline (sel_ldr_x86_64.c, tramp_64.S,
      sel_memory.c), CopyCode, CopySpec (nccopycode.c), X64Validator (the
      validator behind the interface of the loader), Loader, LoaderSpec
      (sel_ldr_standard.c, elf_util.c): validation, dynamic code, trampolines,
      the copy of code over running code, and NaClAppLoadFile as a whole.
    - Trap, Syscalls, Isolation (trap.c, nacl_syscall_handlers.c,
      nacl_syscall_hook.c): the trap, the dispatch of a system call, and the
      transition system of a run.
    - MainThread (sel_ldr_standard.c, sel_rt_64.c, nacl_signal.c): the argument
      block and the first context.
    - ManifestText, ManifestSetup, ManifestSpec (manifest_parser.c,
      manifest_setup.c, mount_channel.c, preload.c, premap.c); Md5 (md5.c), the
      digest of a channel, whose only call is commented out in the source.
    - Sample, SampleImage: a concrete application and a concrete ELF file for
      the witnesses.  MapProperties, LoadProperties, ManifestProperties,
      CallProperties, TrapProperties, RunProperties and ValidatorProperties
      hold the main theorems; those of GioShm and Md5 are in these files.

    ** What the theorems show

    - Isolation: in every state reachable by system calls, whatever the
      program does between them, the invariant holds, the code pages keep
      their mapping, the limits only go down, and every host call was a
      non-executable mapping above the code inside the sandbox or a transfer
      of less than 2 GB with a buffer that starts inside ([isolation], [syscall_hook_safe]); also from the
      program file on, for a program whose layout is [separated]
      ([loaded_program_isolated]).
    - Validation: read-only code that ApplyValidator accepts is sandboxed:
      legal instructions, protected registers, memory operands of the masked
      form and jumps, and a bundle start at every multiple of 32 ([validated_code_sandboxed],
      [validated_code_bundles], [image_sandboxed]).  The pass ends on every
      input and writes nothing but halts ([validation_terminates],
      [validation_writes_halts], [decode_bounded]).  The ring of instructions
      and the bit arrays are a list and sets ([ring_refines_history],
      [address_set_correct]).
    - Replacing code: other processors see each instruction in its old or new
      form or halted, and the copy comes to its end ([code_copy_atomic],
      [copy_instruction_completes]).
    - Loading: a program for which NaClAppLoadFile returns LOAD_OK with a
      [separated] layout starts in a state that satisfies the invariant, with validated text, installed
      trampolines and segments as in the file ([load_file_correct],
      [elf_load_correct], [main_thread_started], [dyncode_create_correct]).
    - Refinement: the memory map, the descriptor table and the region table
      behave as partial functions ([vmmap_update_refines],
      [vmmap_find_map_space_above_hint], [dyn_array_set_get],
      [dynamic_region_find_complete]); reference counts balance; a file over
      shared memory is a memory file ([shm_file_refines_memory_file]); the
      digest is a fold over the padded blocks ([md5_digest_correct]).
    - Policy: transfers stay within the quota of their channel, limits can
      only be lowered, an installed handler is a bundle head of the code
      ([transfer_quota], [user_setup_lowers], [syscallback_checked]).
    - Text: manifests and reports are read back ([manifest_read_back],
      [report_read_back]).
    - Deviations: theorems about inputs on which the code aborts, overruns a
      buffer or accepts more than it should, such as
      [jump_register_unchecked], [manifest_array_overrun],
      [halt_sled_page_unprotected], [read_limit_bypass],
      [zero_hint_lifts_memory_limit], [code_copy_2gb_heads_only],
      [word_width_matters], [shm_map_failure_missed] and
      [text_map_failure_missed].

    ** Fuel

    Loops over arrays run on their length.  The loops whose bound is not
    syntactic take fuel, and the specifications show that the fault
    [OutOfFuel] does not occur: RemoveMarked_front (the number of entries), the
    binary searches ClosestLEQ_search and bsearch (the size of the table);
    ValidateSegment_loop, SegmentPair_loop and CopyCode_loop (one turn for each
    byte and one more: an instruction has a byte), Candidates_loop and
    HardCoded_loop (the length of the table, whose chains have no cycle by
    [tables_ok]), DecodeInst_loop (two lists of candidates), ExpWidth (31
    levels for 30 nodes), Summarize_blocks (one turn for each byte),
    ReadOrWrite_loop (one turn for each byte), ImcShmMap_loop and
    ImcShmUnmap_loop (one turn for each 64 KB page).  Only SegmentPair_loop has
    no such theorem.  The decimal printer has the 10 digits of an int,
    NaCl_page_alloc_randomized its four attempts.

    ** Not modelled

    - The comparison of a replacement with the code it replaces
      (NaClValidateSegmentPair) is modelled, but no theorem says that accepted
      replacements are sandboxed; the runtime has no call that modifies code.
    - Code in which the validator has overwritten instructions with halts, when
      the text is not read-only, is covered by [validation_writes_halts] only.
    - The 32-bit validator; the tables of the full decoder
      (nc_opcode_table_64.h), which serve the disassembler; the error reporter,
      the trace output and the opcode histogram, which only print.
    - Networking, sqlite and gtest: vendored, or compiled only with NETWORKING.
    - The imc sockets, which are C++ apart from descriptors that wrap them;
      gio.c, which wraps stdio, and gio_shm_unbounded.c.
    - Locks and condition variables (the runtime is single threaded here, but
      for the processors that execute code while it is copied), signals other
      than the allocation of their stack, logging, fault injection and the debug
      printers.
    - The assembly of the context switch; the command line and the main
      function, which only compose the parts above with output. *)

From stdpp Require Export prelude list strings gmap.
From Stdlib Require Export ZArith Znumtheory Sorted Lia.

#[global] Open Scope Z_scope.

(** ** Machine integers

    A w-bit unsigned C value is a [Z] in [0, 2^w); every C operation that can
    wrap is followed by the conversion of its result type. *)

Declare Scope word_scope.
Delimit Scope word_scope with word.

Definition two16 : Z := 65536.
Definition two31 : Z := 2147483648.
Definition two32 : Z := 4294967296.
Definition two63 : Z := 9223372036854775808.
Definition two64 : Z := 18446744073709551616.

(** Conversions to the fixed-width types of [stdint.h] on an LP64 host. *)
Definition u8 (z : Z) : Z := z mod 256.
Definition u16 (z : Z) : Z := z mod two16.
Definition u32 (z : Z) : Z := z mod two32.
Definition u64 (z : Z) : Z := z mod two64.
Definition i32 (z : Z) : Z := let w := u32 z in if w <? two31 then w else w - two32.
Definition i64 (z : Z) : Z := let w := u64 z in if w <? two63 then w else w - two64.

Definition is_u32 (z : Z) : Prop := 0 <= z < two32.
Definition is_u64 (z : Z) : Prop := 0 <= z < two64.
Definition is_i32 (z : Z) : Prop := - two31 <= z < two31.
Definition is_i64 (z : Z) : Prop := - two63 <= z < two63.

(** [~x] on a [size_t] / [uintptr_t] and on a [uint32_t]. *)
Definition not64 (z : Z) : Z := Z.lxor z (two64 - 1).
Definition not32 (z : Z) : Z := Z.lxor z (two32 - 1).

Infix "+w" := (fun a b => u64 (a + b)) (at level 50, left associativity) : word_scope.
Infix "-w" := (fun a b => u64 (a - b)) (at level 50, left associativity) : word_scope.

(** Integer C conditions: 0 is false, anything else is true. *)
Definition cbool (z : Z) : bool := negb (z =? 0).

(** ** Tactics and hint databases *)

Create Rewrite HintDb words.
Create HintDb vm.

(** [zlia]: [lia] after unfolding the word-size constants and reflecting the
    boolean comparisons of the code. *)
Ltac unfold_words :=
  unfold is_u32, is_u64, is_i32, is_i64, two16, two31, two32, two63, two64 in *.

Ltac zlia := unfold_words; lia.

(** Split on the innermost boolean test of a hypothesis or the goal and turn it
    into the corresponding proposition. *)
Ltac zcase :=
  match goal with
  | H : context [if ?b then _ else _] |- _ => destruct b eqn:?
  | |- context [if ?b then _ else _] => destruct b eqn:?
  end.

Ltac zbool :=
  repeat match goal with
  | H : (_ <? _) = true |- _ => apply Z.ltb_lt in H
  | H : (_ <? _) = false |- _ => apply Z.ltb_ge in H
  | H : (_ <=? _) = true |- _ => apply Z.leb_le in H
  | H : (_ <=? _) = false |- _ => apply Z.leb_gt in H
  | H : (_ =? _) = true |- _ => apply Z.eqb_eq in H
  | H : (_ =? _) = false |- _ => apply Z.eqb_neq in H
  | H : (_ && _) = true |- _ => apply andb_true_iff in H; destruct H
  | H : (_ || _) = false |- _ => apply orb_false_iff in H; destruct H
  | H : negb _ = true |- _ => apply negb_true_iff in H
  | H : negb _ = false |- _ => apply negb_false_iff in H
  end.

(** ** Facts on machine integers *)

Lemma u64_small z : 0 <= z < two64 -> u64 z = z.
Proof. intros H. unfold u64. by apply Z.mod_small. Qed.

Lemma u32_small z : 0 <= z < two32 -> u32 z = z.
Proof. intros H. unfold u32. by apply Z.mod_small. Qed.

Lemma u64_range z : 0 <= u64 z < two64.
Proof. unfold u64. apply Z.mod_pos_bound. done. Qed.

Lemma u32_range z : 0 <= u32 z < two32.
Proof. unfold u32. apply Z.mod_pos_bound. done. Qed.

Lemma i32_small z : - two31 <= z < two31 -> i32 z = z.
Proof.
  intros H. unfold i32, u32.
  destruct (decide (0 <= z)) as [Hz|Hz].
  - rewrite Z.mod_small by zlia. case_match; zbool; zlia.
  - replace (z mod two32) with (z + two32).
    + case_match; zbool; zlia.
    + symmetry. rewrite <- (Z_mod_plus_full z 1 two32).
      rewrite Z.mod_small; zlia.
Qed.

Lemma i32_range z : is_i32 (i32 z).
Proof. pose proof (u32_range z). unfold i32. case_match; zbool; zlia. Qed.

Lemma u64_u64 z : u64 (u64 z) = u64 z.
Proof. apply u64_small, u64_range. Qed.

(** A 64-bit difference read as a signed 32-bit number keeps its sign when it
    is small: what [qsort] comparators of the form [(int) (a - b)] rely on. *)
Lemma i32_u64_small z : - two31 <= z < two31 -> i32 (u64 z) = z.
Proof.
  intros H. rewrite <- (i32_small z H) at 2.
  unfold i32. replace (u32 (u64 z)) with (u32 z); [done|].
  unfold u32, u64. symmetry.
  apply Z.mod_mod_divide. by exists two32.
Qed.

(** Signed 64-bit addition is addition modulo 2^64, however it is nested. *)
Lemma i64_congr a b : u64 a = u64 b -> i64 a = i64 b.
Proof. unfold i64. by intros ->. Qed.

Lemma u64_i64 a : u64 (i64 a) = u64 a.
Proof.
  unfold i64. pose proof (u64_range a). case_match; [apply u64_u64|].
  unfold u64 at 1. replace (u64 a - two64) with (u64 a + (-1) * two64) by lia.
  rewrite Z_mod_plus_full. apply u64_u64.
Qed.

Lemma i64_add_l a b : i64 (i64 a + b) = i64 (a + b).
Proof.
  apply i64_congr. unfold u64 at 1 2.
  rewrite <- (Zplus_mod_idemp_l (i64 a)), <- (Zplus_mod_idemp_l a).
  change (i64 a mod two64) with (u64 (i64 a)). by rewrite u64_i64.
Qed.

Lemma i64_add_r a b : i64 (a + i64 b) = i64 (a + b).
Proof. by rewrite Z.add_comm, i64_add_l, Z.add_comm. Qed.

Lemma i64_u64 a : i64 (u64 a) = i64 a.
Proof. apply i64_congr, u64_u64. Qed.

#[export] Hint Rewrite u64_small u32_small i32_small using zlia : words.

(** Masking off the low [k] bits rounds down to a multiple of [2^k]. *)
Lemma land_ones_mod x k : 0 <= k -> Z.land (2 ^ k - 1) x = x mod 2 ^ k.
Proof. intros. rewrite Z.land_comm, Z.sub_1_r, <- Z.ones_equiv. by apply Z.land_ones. Qed.

Lemma land_not_mask w x k :
  0 <= k <= w -> 0 <= x < 2 ^ w ->
  Z.land x (Z.lxor (2 ^ k - 1) (2 ^ w - 1)) = x - x mod 2 ^ k.
Proof.
  intros Hk Hx.
  rewrite !Z.sub_1_r, <- !Z.ones_equiv.
  assert (Hl : Z.land x (Z.lxor (Z.ones k) (Z.ones w)) = Z.ldiff x (Z.ones k)).
  { apply Z.bits_inj'. intros n Hn.
    rewrite Z.land_spec, Z.lxor_spec, Z.ldiff_spec, !Z.testbit_ones by lia.
    destruct (decide (n < w)) as [Hnw|Hnw].
    - replace (n <? w) with true by (symmetry; apply Z.ltb_lt; lia).
      replace (0 <=? n) with true by (symmetry; apply Z.leb_le; lia).
      by destruct (n <? k), (Z.testbit x n).
    - assert (Z.testbit x n = false) as ->; [|done].
      destruct (decide (x = 0)) as [->|Hx0]; [apply Z.testbit_0_l|].
      apply Z.bits_above_log2; [lia|].
      apply Z.log2_lt_pow2; [lia|].
      apply Z.lt_le_trans with (2 ^ w); [lia|]. apply Z.pow_le_mono_r; lia. }
  rewrite Hl, Z.ldiff_ones_r, Z.shiftl_mul_pow2, Z.shiftr_div_pow2 by lia.
  pose proof (Z.div_mod x (2 ^ k)) as Hd.
  assert (0 < 2 ^ k) by (apply Z.pow_pos_nonneg; lia). lia.
Qed.

(** ** Record update

    [r <| field := v |>] replaces one field of a record whose eta expansion is
    registered as an [Updatable] instance. *)

Class Updatable (R : Type) := eta_expansion : R -> R.

Class Updates {R T : Type} (field : R -> T) := upd : (T -> T) -> R -> R.
Arguments upd {R T} field {_} _ _ /.

Ltac derive_update :=
  match goal with
  | |- @Updates ?R ?T ?field =>
      let eta := eval hnf in (_ : Updatable R) in
      let eta := eval unfold eta_expansion in eta in
      let abstracted := eval pattern field in eta in
      match abstracted with
      | ?ctx _ =>
          let body := constr:(fun (f : T -> T) => ctx (fun r : R => f (field r))) in
          let body := eval cbv beta in body in
          exact body
      end
  end.

#[export] Hint Extern 1 (Updates _) => derive_update : typeclass_instances.

Notation "r <| field := v |>" := (upd field (fun _ => v) r)
  (at level 1, left associativity, field at next level, v at level 90).
