(* ===== verification/Effects.v ===== *)
(** * Effects of the trusted runtime

    The runtime is sequential C code that (a) updates structures passed by
    reference, which the models thread explicitly, (b) aborts the process
    (NaClLog(LOG_FATAL), CHECK, assert, exit), (c) has undefined behaviour
    when it follows a NULL pointer or indexes outside an array, and (d) calls
    the host kernel and reference-counts descriptors.  A computation [M A] is
    the list of calls of kind (d) in program order with its [outcome].

    The host itself (kernel and C allocator) is the class [Host]: a parameter
    of every definition that calls it. *)

From S2P Require Import Prelude.

(** How a computation can fail to return to its caller. *)
Inductive fault : Type :=
| LogFatal (msg : string)     (* NaClLog(LOG_FATAL, ...): abort() *)
| CheckFailed (msg : string)  (* CHECK / ASSERT / assert *)
| CondAbort (msg : string)    (* COND_ABORT: exit(1) *)
| NullDeref                   (* undefined: NULL pointer followed *)
| OutOfBounds                 (* undefined: array index out of range *)
| UserExit (status : Z)       (* longjmp(user_exit): the user program is over *)
| OutOfFuel.                  (* a fuelled loop stopped early; proved unreachable *)

Inductive outcome (A : Type) : Type :=
| Ret (a : A)
| Fault (f : fault).
Arguments Ret {A} _.
Arguments Fault {A} _.

(** Calls that leave the runtime or touch a shared reference count. *)
Inductive event : Type :=
| DescRef (d : Z)                           (* NaClDescRef *)
| DescUnref (d : Z)                         (* NaClDescUnref *)
| HostMprotect (addr len prot : Z)          (* mprotect *)
| HostMadvise (addr len advice : Z)         (* madvise *)
| HostMmap (addr len prot flags : Z) (d : option Z) (off : Z) (* mmap *)
| HostMunmap (addr len : Z)                 (* munmap *)
| HaltFill (addr len : Z)                   (* memset of HLT instructions *)
| HostRead (d : Z) (addr len off : Z)       (* pread into user memory *)
| HostWrite (d : Z) (addr len off : Z).     (* pwrite from user memory *)

#[global] Instance event_eq_dec : EqDecision event.
Proof. solve_decision. Defined.

Definition M (A : Type) : Type := list event * outcome A.

#[global] Instance M_ret : MRet M := fun _ a => ([], Ret a).
#[global] Instance M_bind : MBind M := fun _ _ k m =>
  match m with
  | (l, Ret a) => let '(l', o) := k a in (l ++ l', o)
  | (l, Fault f) => (l, Fault f)
  end.

Definition fail {A} (f : fault) : M A := ([], Fault f).
Definition emit (e : event) : M unit := ([e], Ret tt).

(** A computation without events. *)
Definition of_outcome {A} (o : outcome A) : M A := ([], o).

(** [CHECK(b)] and friends. *)
Definition check (b : bool) (msg : string) : M unit :=
  if b then mret tt else fail (CheckFailed msg).
Definition cond_abort (cond : bool) (msg : string) : M unit :=
  if cond then fail (CondAbort msg) else mret tt.

(** Reading through a pointer slot of an array. *)
Definition deref {A} (arr : list (option A)) (i : nat) : M A :=
  match arr !! i with
  | Some (Some a) => mret a
  | Some None => fail NullDeref
  | None => fail OutOfBounds
  end.

(** [arr[i]] and [arr[i] = v], undefined outside the array. *)
Definition load {A} (arr : list A) (i : nat) : M A :=
  match arr !! i with
  | Some a => mret a
  | None => fail OutOfBounds
  end.
Definition store {A} (arr : list A) (i : nat) (v : A) : M (list A) :=
  if decide (i < length arr)%nat then mret (<[i := v]> arr) else fail OutOfBounds.

(** ** Reasoning about computations *)

Lemma M_bind_ret_l {A B} (a : A) (k : A -> M B) : (mret a ≫= k) = k a.
Proof. unfold mbind, M_bind, mret, M_ret. by destruct (k a). Qed.

Lemma M_bind_fail {A B} f (k : A -> M B) : (fail f ≫= k) = fail f.
Proof. done. Qed.

Lemma M_bind_assoc {A B C} (m : M A) (k : A -> M B) (h : B -> M C) :
  ((m ≫= k) ≫= h) = (m ≫= fun a => k a ≫= h).
Proof.
  unfold mbind, M_bind. destruct m as [l [a|f]]; [|done].
  destruct (k a) as [l' [b|f]]; [|done].
  destruct (h b) as [l'' o]. by rewrite app_assoc.
Qed.

Lemma M_bind_eq {A B} l a (k : A -> M B) l' o :
  k a = (l', o) -> ((l, Ret a) : M A) ≫= k = (l ++ l', o).
Proof. unfold mbind, M_bind. by intros ->. Qed.

Lemma M_bind_pure {A B} l a (k : A -> M B) o :
  k a = ([], o) -> ((l, Ret a) : M A) ≫= k = (l, o).
Proof. unfold mbind, M_bind. intros ->. by rewrite app_nil_r. Qed.

(** Inversion of a computation that returned. *)
Lemma M_bind_ret_inv {A B} (m : M A) (k : A -> M B) l b :
  (m ≫= k) = (l, Ret b) ->
  exists l1 a l2, m = (l1, Ret a) /\ k a = (l2, Ret b) /\ l = l1 ++ l2.
Proof.
  unfold mbind, M_bind. destruct m as [l1 [a|f]]; [|done].
  destruct (k a) as [l2 o] eqn:Hk. intros [= <- ->]. naive_solver.
Qed.

Lemma M_ret_inv {A} (a b : A) l : (mret a : M A) = (l, Ret b) -> l = [] /\ a = b.
Proof. unfold mret, M_ret. by intros [= <- <-]. Qed.

Lemma check_inv b msg l u : check b msg = (l, Ret u) -> l = [] /\ b = true.
Proof. unfold check, fail, mret, M_ret. destruct b; by intros [= <-]. Qed.

Lemma cond_abort_inv b msg l u : cond_abort b msg = (l, Ret u) -> l = [] /\ b = false.
Proof. unfold cond_abort, fail, mret, M_ret. destruct b; by intros [= <-]. Qed.

Lemma of_outcome_inv {A} (o : outcome A) l a : of_outcome o = (l, Ret a) -> l = [] /\ o = Ret a.
Proof. unfold of_outcome. by intros [= <- ->]. Qed.

Lemma deref_inv {A} (arr : list (option A)) i l a :
  deref arr i = (l, Ret a) -> l = [] /\ arr !! i = Some (Some a).
Proof. unfold deref, fail, mret, M_ret. repeat case_match; by intros [= <- <-]. Qed.

Lemma deref_some {A} (arr : list (option A)) i a :
  arr !! i = Some (Some a) -> deref arr i = mret a.
Proof. unfold deref. by intros ->. Qed.

Lemma store_ok {A} (arr : list A) i v :
  (i < length arr)%nat -> store arr i v = mret (<[i := v]> arr).
Proof. intros. unfold store. by rewrite decide_True. Qed.

Lemma store_inv {A} (arr : list A) i v l arr' :
  store arr i v = (l, Ret arr') -> l = [] /\ (i < length arr)%nat /\ arr' = <[i := v]> arr.
Proof. unfold store, fail, mret, M_ret. case_decide; by intros [= <- <-]. Qed.

Lemma load_ok {A} (arr : list A) i a : arr !! i = Some a -> load arr i = mret a.
Proof. unfold load. by intros ->. Qed.

Lemma load_inv {A} (arr : list A) i l a :
  load arr i = (l, Ret a) -> l = [] /\ arr !! i = Some a.
Proof. unfold load, fail, mret, M_ret. case_match; by intros [= <- <-]. Qed.

(** [minv H]: destruct a returning computation into its parts. *)
Ltac minv H :=
  lazymatch type of H with
  | (?m ≫= ?k) = (_, Ret _) =>
      let l1 := fresh "l" in let a := fresh "a" in let l2 := fresh "l" in
      let H1 := fresh H in let H2 := fresh H in let Heq := fresh "Hl" in
      apply M_bind_ret_inv in H as (l1 & a & l2 & H1 & H2 & Heq);
      cbn beta in H2; minv H1; minv H2
  | mret _ = (_, Ret _) => apply M_ret_inv in H as [? ?]; subst
  | check _ _ = (_, Ret _) => apply check_inv in H as [-> H]
  | cond_abort _ _ = (_, Ret _) => apply cond_abort_inv in H as [-> H]
  | deref _ _ = (_, Ret _) => apply deref_inv in H as [-> H]
  | store _ _ _ = (_, Ret _) => apply store_inv in H as (-> & H & ->)
  | load _ _ = (_, Ret _) => apply load_inv in H as [-> H]
  | emit _ = (_, Ret _) => unfold emit in H; injection H as <- <-
  | fail _ = (_, Ret _) => discriminate H
  | _ => idtac
  end.

(** The events of a computation, whatever its outcome. *)
Definition trace {A} (m : M A) : list event := m.1.
Definition result {A} (m : M A) : outcome A := m.2.

Lemma result_bind {A B} (m : M A) (k : A -> M B) a :
  result m = Ret a -> result (m ≫= k) = result (k a).
Proof. unfold result, mbind, M_bind. destruct m as [l [x|?]]; simpl; [|done]. intros [= ->]. by destruct (k a). Qed.

Lemma trace_bind {A B} (m : M A) (k : A -> M B) e :
  e ∈ trace (m ≫= k) ->
  e ∈ trace m \/ exists a, result m = Ret a /\ e ∈ trace (k a).
Proof.
  unfold trace, result, mbind, M_bind. destruct m as [l [a|f]]; simpl; [|by left].
  destruct (k a) as [l' o] eqn:Hk; simpl. rewrite elem_of_app.
  intros [?|?]; [by left|right; exists a; by rewrite Hk].
Qed.

(** A property of every event of a computation; it composes along [≫=]. *)
Definition all_events {A} (P : event -> Prop) (m : M A) : Prop := Forall P (trace m).

Lemma all_events_ret {A} P (a : A) : all_events P (mret a).
Proof. constructor. Qed.
Lemma all_events_fail {A} P f : all_events (A:=A) P (fail f).
Proof. constructor. Qed.
Lemma all_events_emit P e : P e -> all_events P (emit e).
Proof. intros. by repeat constructor. Qed.
Lemma all_events_check P b msg : all_events P (check b msg).
Proof. unfold check. destruct b; constructor. Qed.
Lemma all_events_cond_abort P b msg : all_events P (cond_abort b msg).
Proof. unfold cond_abort. destruct b; constructor. Qed.
Lemma all_events_deref {A} P (arr : list (option A)) i : all_events P (deref arr i).
Proof. unfold deref. repeat case_match; constructor. Qed.
Lemma all_events_load {A} P (arr : list A) i : all_events P (load arr i).
Proof. unfold load. case_match; constructor. Qed.
Lemma all_events_store {A} P (arr : list A) i v : all_events P (store arr i v).
Proof. unfold store. case_decide; constructor. Qed.
Lemma all_events_bind {A B} P (m : M A) (k : A -> M B) :
  all_events P m -> (forall l a, m = (l, Ret a) -> all_events P (k a)) ->
  all_events P (m ≫= k).
Proof.
  unfold all_events, trace, mbind, M_bind. intros Hm Hk.
  destruct m as [l [a|f]]; simpl in *; [|done].
  specialize (Hk l a eq_refl). destruct (k a) as [l' o]; simpl in *.
  by apply Forall_app.
Qed.

Lemma events_of {A} (P : event -> Prop) (m : M A) l o : all_events P m -> m = (l, o) -> Forall P l.
Proof. unfold all_events, trace. by intros Hm ->. Qed.

#[export] Hint Resolve all_events_ret all_events_fail all_events_emit all_events_check
  all_events_cond_abort all_events_deref all_events_load all_events_store all_events_bind : vm.

(** ** The host

    Results of the kernel and the allocator, by the arguments of the call. *)
Class Host := {
  malloc_ok : Z -> bool;               (* does a request of n bytes succeed *)
  host_mprotect : Z -> Z -> Z -> Z;    (* 0, or -errno *)
  host_madvise : Z -> Z -> Z -> Z;
  host_mmap : Z -> Z -> Z -> Z -> option Z -> Z -> Z;  (* address, or MAP_FAILED *)
  host_munmap : Z -> Z -> Z;
  host_errno : Z;                      (* errno after the failing call *)
  host_fstat : Z -> Z * Z;             (* fstat of a descriptor: 0 or -errno, and the size *)
  host_pread : Z -> Z -> Z -> Z -> Z;  (* descriptor, address, size, offset: ssize_t *)
  host_pwrite : Z -> Z -> Z -> Z -> Z;
}.

(** A host that never fails and honours MAP_FIXED, for concrete runs. *)
Definition good_host : Host := {|
  malloc_ok := fun _ => true;
  host_mprotect := fun _ _ _ => 0;
  host_madvise := fun _ _ _ => 0;
  host_mmap := fun addr _ _ _ _ _ => addr;
  host_munmap := fun _ _ => 0;
  host_errno := 0;
  host_fstat := fun _ => (0, 0);
  host_pread := fun _ _ n _ => n;
  host_pwrite := fun _ _ n _ => n;
|}.

(** A host with its allocator or its mprotect replaced by one that never
    fails: lemmas on code that stops at a failure are proved for these first. *)
Definition plentiful (h : Host) : Host := {|
  malloc_ok := fun _ => true;
  host_mprotect := @host_mprotect h; host_madvise := @host_madvise h; host_mmap := @host_mmap h;
  host_munmap := @host_munmap h; host_errno := @host_errno h; host_fstat := @host_fstat h;
  host_pread := @host_pread h; host_pwrite := @host_pwrite h;
|}.

Definition permissive (h : Host) : Host := {|
  malloc_ok := @malloc_ok h; host_mprotect := fun _ _ _ => 0;
  host_madvise := @host_madvise h; host_mmap := @host_mmap h; host_munmap := @host_munmap h;
  host_errno := @host_errno h; host_fstat := @host_fstat h;
  host_pread := @host_pread h; host_pwrite := @host_pwrite h;
|}.
