(* ===== verification/Stateful.v ===== *)
(** * Stateful computations of the decoder and the validator

    The instruction decoder and the validator update large structures through
    pointers on every line.  Their models run in [St S]: a computation gets the
    state and returns a value with the new state, or ends in a [fault] of
    Effects (a failed CHECK or assert, an exit, an index outside an array).

    [wp F c Q s] is the weakest precondition: from the state [s] the
    computation [c] either returns a value and a state that satisfy [Q], or
    ends in a fault that [F] allows.  The specifications take for [F] a
    predicate that excludes [OutOfFuel] and the undefined behaviours, so that
    they also say that loops end and that arrays are used within bounds. *)

From S2P Require Import Prelude Effects.

(** Computations without state: plain outcomes. *)
#[global] Instance outcome_ret : MRet outcome := fun _ a => Ret a.
#[global] Instance outcome_bind : MBind outcome := fun _ _ k o =>
  match o with Ret a => k a | Fault f => Fault f end.

Definition St (S A : Type) : Type := S -> outcome (A * S).

#[global] Instance St_ret S : MRet (St S) := fun _ a s => Ret (a, s).
#[global] Instance St_bind S : MBind (St S) := fun _ _ k c s =>
  match c s with
  | Ret (a, s') => k a s'
  | Fault f => Fault f
  end.

Section Operations.
Context {S : Type}.

Definition get : St S S := fun s => Ret (s, s).
Definition put (s : S) : St S unit := fun _ => Ret (tt, s).
Definition gets {A} (f : S -> A) : St S A := fun s => Ret (f s, s).
Definition modify (f : S -> S) : St S unit := fun s => Ret (tt, f s).
Definition abort {A} (f : fault) : St S A := fun _ => Fault f.

(** [assert] and [CHECK]. *)
Definition require (b : bool) (msg : string) : St S unit :=
  if b then mret tt else abort (CheckFailed msg).

(** A value computed without the state that may fault. *)
Definition lift {A} (o : outcome A) : St S A := fun s =>
  match o with Ret a => Ret (a, s) | Fault f => Fault f end.

(** [arr[i]], undefined outside the array. *)
Definition index {A} (arr : list A) (i : Z) : outcome A :=
  if i <? 0 then Fault OutOfBounds
  else match arr !! Z.to_nat i with Some a => Ret a | None => Fault OutOfBounds end.

(** [*p] for a pointer that may be NULL. *)
Definition follow {A} (p : option A) : outcome A :=
  match p with Some a => Ret a | None => Fault NullDeref end.

(** [for (i = lo; n times; ++i) body(i)]. *)
Fixpoint for_up (n : nat) (i : Z) (body : Z -> St S unit) : St S unit :=
  match n with
  | O => mret tt
  | Datatypes.S n' => body i ;; for_up n' (i + 1) body
  end.

End Operations.

(** Run on a part of the state. *)
Definition zoom {S T A} (part : S -> T) (set : T -> S -> S) (c : St T A) : St S A := fun s =>
  match c (part s) with
  | Ret (a, t) => Ret (a, set t s)
  | Fault f => Fault f
  end.

(** ** Weakest preconditions *)

Definition wp {S A} (F : fault -> Prop) (c : St S A) (Q : A -> S -> Prop) (s : S) : Prop :=
  match c s with
  | Ret (a, s') => Q a s'
  | Fault f => F f
  end.

(** Faults that end the process in a defined way. *)
Definition stops (f : fault) : Prop :=
  match f with
  | LogFatal _ | CheckFailed _ | CondAbort _ | UserExit _ => True
  | NullDeref | OutOfBounds | OutOfFuel => False
  end.

(** Anything but a fuelled loop that stopped early. *)
Definition terminates (f : fault) : Prop := f <> OutOfFuel.

(** The same for plain outcomes. *)
Definition wpo {A} (F : fault -> Prop) (o : outcome A) (Q : A -> Prop) : Prop :=
  match o with Ret a => Q a | Fault f => F f end.

Lemma wpo_ret {A} (F : fault -> Prop) (a : A) Q : Q a -> wpo F (mret a) Q.
Proof. done. Qed.
Lemma wpo_bind {A B} F (o : outcome A) (k : A -> outcome B) Q :
  wpo F o (fun a => wpo F (k a) Q) -> wpo F (o ≫= k) Q.
Proof. by destruct o. Qed.
Lemma wpo_mono {A} F (o : outcome A) (P Q : A -> Prop) :
  wpo F o P -> (forall a, P a -> Q a) -> wpo F o Q.
Proof. destruct o; simpl; auto. Qed.
Lemma wpo_run {A} F (o : outcome A) Q a : wpo F o Q -> o = Ret a -> Q a.
Proof. by intros H ->. Qed.

Lemma bind_Ret {A B} (o : outcome A) (k : A -> outcome B) b : o ≫= k = Ret b -> exists a, o = Ret a /\ k a = Ret b.
Proof. destruct o as [a|]; [|done]. intros Hk. by exists a. Qed.

(** [ret_inv H]: what the computation in [H] did to return the value. *)
Ltac ret_inv H :=
  repeat (cbv beta zeta in H; lazymatch type of H with
  | _ ≫= _ = Ret _ => let H' := fresh H in apply bind_Ret in H as (? & H' & H)
  | (if ?b then _ else _) = Ret _ => destruct b eqn:?; try discriminate H
  | Ret _ = Ret _ => injection H as H
  end).

Section Rules.
Context {S : Type} (F : fault -> Prop).

Lemma wp_ret {A} (a : A) (Q : A -> S -> Prop) s : Q a s -> wp F (mret a) Q s.
Proof. done. Qed.

Lemma wp_bind {A B} (c : St S A) (k : A -> St S B) Q s :
  wp F c (fun a => wp F (k a) Q) s -> wp F (c ≫= k) Q s.
Proof. unfold wp, mbind, St_bind. destruct (c s) as [[a s']|f]; done. Qed.

Lemma wp_mono {A} (c : St S A) (P Q : A -> S -> Prop) s :
  wp F c P s -> (forall a s', P a s' -> Q a s') -> wp F c Q s.
Proof. unfold wp. destruct (c s) as [[a s']|f]; auto. Qed.

Lemma wp_and {A} (c : St S A) (P Q : A -> S -> Prop) s :
  wp F c P s -> wp F c Q s -> wp F c (fun a s' => P a s' /\ Q a s') s.
Proof. unfold wp. destruct (c s) as [[a s']|f]; auto. Qed.

Lemma wp_get Q (s : S) : Q s s -> wp F get Q s.
Proof. done. Qed.
Lemma wp_put Q (s s' : S) : Q tt s' -> wp F (put s') Q s.
Proof. done. Qed.
Lemma wp_gets {A} (f : S -> A) Q s : Q (f s) s -> wp F (gets f) Q s.
Proof. done. Qed.
Lemma wp_modify (f : S -> S) Q s : Q tt (f s) -> wp F (modify f) Q s.
Proof. done. Qed.
Lemma wp_abort {A} f (Q : A -> S -> Prop) s : F f -> wp F (abort f) Q s.
Proof. done. Qed.
Lemma wp_require b msg Q (s : S) :
  F (CheckFailed msg) -> (b = true -> Q tt s) -> wp F (require b msg) Q s.
Proof. intros HF HQ. destruct b; [by apply HQ|exact HF]. Qed.
Lemma wp_lift {A} (o : outcome A) (Q : A -> S -> Prop) s :
  wpo F o (fun a => Q a s) -> wp F (lift o) Q s.
Proof. unfold wp, lift. by destruct o. Qed.
Lemma wp_if {A} (b : bool) (c d : St S A) Q s :
  (b = true -> wp F c Q s) -> (b = false -> wp F d Q s) -> wp F (if b then c else d) Q s.
Proof. destruct b; auto. Qed.

(** A loop keeps what its body keeps. *)
Lemma wp_for_up n i (body : Z -> St S unit) (I : Z -> S -> Prop) s :
  I i s ->
  (forall j s', i <= j < i + Z.of_nat n -> I j s' -> wp F (body j) (fun _ => I (j + 1)) s') ->
  wp F (for_up n i body) (fun _ => I (i + Z.of_nat n)) s.
Proof.
  revert i s. induction n as [|n IH]; intros i s Hi Hb; simpl.
  { replace (i + Z.of_nat 0) with i by lia. done. }
  apply wp_bind. eapply wp_mono; [apply (Hb i); [lia|done]|]. simpl. intros _ s' Hs'.
  replace (i + Z.of_nat (Datatypes.S n)) with (i + 1 + Z.of_nat n) by lia.
  apply IH; [done|]. intros j s'' Hj. apply Hb. lia.
Qed.

End Rules.

Lemma wp_zoom {S T A} F (part : S -> T) set (c : St T A) Q s :
  wp F c (fun a t => Q a (set t s)) (part s) -> wp F (zoom part set c) Q s.
Proof. unfold wp, zoom. by destruct (c (part s)) as [[a t]|f]. Qed.

Lemma wp_faults {S A} (F G : fault -> Prop) (c : St S A) Q s :
  wp F c Q s -> (forall f, F f -> G f) -> wp G c Q s.
Proof. unfold wp. destruct (c s) as [[a s']|f]; auto. Qed.

Lemma wp_run {S A} F (c : St S A) Q s a s' : wp F c Q s -> c s = Ret (a, s') -> Q a s'.
Proof. unfold wp. intros H Hr. by rewrite Hr in H. Qed.

(** A computation run on a state at hand. *)
Lemma wpo_wp {S A} F (c : St S A) Q s (R : A * S -> Prop) :
  wp F c Q s -> (forall a s', c s = Ret (a, s') -> Q a s' -> R (a, s')) -> wpo F (c s) R.
Proof. unfold wp, wpo. destruct (c s) as [[a s']|f]; auto. Qed.

Lemma index_Some {A} (arr : list A) i a : index arr i = Ret a <-> 0 <= i /\ arr !! Z.to_nat i = Some a.
Proof.
  unfold index. destruct (i <? 0) eqn:?; zbool; [split; [done|lia]|].
  destruct (arr !! Z.to_nat i) eqn:Hl; split; naive_solver.
Qed.

Lemma index_ok {A} (arr : list A) i : 0 <= i < Z.of_nat (length arr) -> exists a, index arr i = Ret a.
Proof.
  intros Hi. destruct (lookup_lt_is_Some_2 arr (Z.to_nat i)) as [a Ha]; [lia|].
  exists a. apply index_Some. split; [lia|done].
Qed.

(** [wp_step]: the rule for the head of the computation. *)
Ltac wp_step :=
  lazymatch goal with
  | |- wp _ (mret _) _ _ => apply wp_ret
  | |- wp _ (_ ≫= _) _ _ => apply wp_bind
  | |- wp _ get _ _ => apply wp_get
  | |- wp _ (put _) _ _ => apply wp_put
  | |- wp _ (gets _) _ _ => apply wp_gets
  | |- wp _ (modify _) _ _ => apply wp_modify
  | |- wp _ (abort _) _ _ => apply wp_abort; try exact I
  | |- wp _ (require _ _) _ _ => apply wp_require; [try exact I|intros ?]
  | |- wp _ (lift _) _ _ => apply wp_lift
  | |- wp _ (if _ then _ else _) _ _ => apply wp_if; intros ?
  end.

Ltac wp_steps := repeat (wp_step; cbn beta).
