(* ===== verification/Rounding.v ===== *)
(** * Page arithmetic

    The configuration constants of nacl_config.h and the inlined page
    arithmetic of sel_util-inl.h, on 64-bit [size_t] (and the two 32-bit
    variants), with their meaning as rounding to multiples. *)

From S2P Require Import Prelude.

(** ** nacl_config.h *)

Definition NACL_PAGESHIFT : Z := 12.
Definition NACL_PAGESIZE : Z := Z.shiftl 1 NACL_PAGESHIFT.
Definition NACL_MAP_PAGESHIFT : Z := 16.
Definition NACL_MAP_PAGESIZE : Z := Z.shiftl 1 NACL_MAP_PAGESHIFT.
Definition NACL_PAGES_PER_MAP : Z := Z.shiftl 1 (NACL_MAP_PAGESHIFT - NACL_PAGESHIFT).
Definition NACL_SYSCALL_START_ADDR : Z := Z.shiftl 16 NACL_PAGESHIFT.
Definition NACL_SYSCALL_BLOCK_SHIFT : Z := 5.
Definition NACL_SYSCALL_BLOCK_SIZE : Z := Z.shiftl 1 NACL_SYSCALL_BLOCK_SHIFT.
Definition NACL_TRAMPOLINE_START : Z := Z.shiftl 1 16.
Definition NACL_TRAMPOLINE_SIZE : Z := Z.shiftl 1 16.
Definition NACL_TRAMPOLINE_END : Z := NACL_TRAMPOLINE_START + NACL_TRAMPOLINE_SIZE.
Definition NACL_HALT_SLED_SIZE : Z := 32.
Definition NACL_INSTR_BLOCK_SIZE : Z := Z.shiftl 1 5.
Definition NACL_MAX_PROGRAM_HEADERS : Z := 128.

(** ** sel_util-inl.h *)

Definition NaClRoundPage (nbytes : Z) : Z :=
  Z.land (u64 (nbytes + NACL_PAGESIZE - 1)) (not64 (NACL_PAGESIZE - 1)).

(** The addition is done on [uint32_t], the mask on [size_t]. *)
Definition NaClRoundPage32 (nbytes : Z) : Z :=
  u32 (Z.land (u32 (nbytes + NACL_PAGESIZE - 1)) (not64 (NACL_PAGESIZE - 1))).

Definition NaClRoundAllocPage (nbytes : Z) : Z :=
  Z.land (u64 (nbytes + NACL_MAP_PAGESIZE - 1)) (not64 (NACL_MAP_PAGESIZE - 1)).

Definition NaClRoundAllocPage32 (nbytes : Z) : Z :=
  Z.land (u32 (nbytes + NACL_MAP_PAGESIZE - 1)) (not32 (NACL_MAP_PAGESIZE - 1)).

Definition NaClTruncPage (nbytes : Z) : Z :=
  Z.land nbytes (not64 (NACL_PAGESIZE - 1)).

Definition NaClTruncAllocPage (nbytes : Z) : Z :=
  Z.land nbytes (not64 (NACL_MAP_PAGESIZE - 1)).

Definition NaClBytesToPages (nbytes : Z) : Z :=
  Z.shiftr (u64 (nbytes + NACL_PAGESIZE - 1)) NACL_PAGESHIFT.

Definition NaClIsPageMultiple (addr_or_size : Z) : bool :=
  0 =? Z.land (NACL_PAGESIZE - 1) addr_or_size.

Definition NaClIsAllocPageMultiple (addr_or_size : Z) : bool :=
  0 =? Z.land (NACL_MAP_PAGESIZE - 1) addr_or_size.

Definition NaClRoundHostAllocPage (nbytes : Z) : Z := NaClRoundPage nbytes.

Definition NaClRoundPageNumUpToMapMultiple (npages : Z) : Z :=
  Z.land (u64 (npages + NACL_PAGES_PER_MAP - 1)) (not64 (NACL_PAGES_PER_MAP - 1)).

Definition NaClTruncPageNumDownToMapMultiple (npages : Z) : Z :=
  Z.land npages (not64 (NACL_PAGES_PER_MAP - 1)).

(** ** Meaning *)

(** [z] is a multiple of the 4K page, of the 64K allocation unit, of 16 pages. *)
Definition page_aligned (z : Z) : Prop := z mod 4096 = 0.
Definition alloc_aligned (z : Z) : Prop := z mod 65536 = 0.
Definition map_aligned (z : Z) : Prop := z mod 16 = 0.

Lemma land_not64_mask x k :
  0 <= k <= 64 -> is_u64 x -> Z.land x (not64 (2 ^ k - 1)) = x - x mod 2 ^ k.
Proof. intros Hk Hx. apply (land_not_mask 64); [lia|]. exact Hx. Qed.

Lemma NaClTruncAllocPage_val x : is_u64 x -> NaClTruncAllocPage x = x - x mod 65536.
Proof. intros. by apply (land_not64_mask x 16). Qed.

Lemma NaClTruncPage_val x : is_u64 x -> NaClTruncPage x = x - x mod 4096.
Proof. intros. by apply (land_not64_mask x 12). Qed.

Lemma NaClTruncPageNum_val x :
  is_u64 x -> NaClTruncPageNumDownToMapMultiple x = x - x mod 16.
Proof. intros. by apply (land_not64_mask x 4). Qed.

(** Rounding up, with the wrap-around of [size_t] written out. *)
Lemma NaClRoundAllocPage_val x :
  NaClRoundAllocPage x = u64 (x + 65535) - u64 (x + 65535) mod 65536.
Proof.
  unfold NaClRoundAllocPage. change NACL_MAP_PAGESIZE with 65536.
  replace (x + 65536 - 1) with (x + 65535) by lia.
  apply (land_not64_mask _ 16); [lia|apply u64_range].
Qed.

Lemma NaClRoundPage_val x : NaClRoundPage x = u64 (x + 4095) - u64 (x + 4095) mod 4096.
Proof.
  unfold NaClRoundPage. change NACL_PAGESIZE with 4096.
  replace (x + 4096 - 1) with (x + 4095) by lia.
  apply (land_not64_mask _ 12); [lia|apply u64_range].
Qed.

Lemma NaClRoundPageNum_val x :
  NaClRoundPageNumUpToMapMultiple x = u64 (x + 15) - u64 (x + 15) mod 16.
Proof.
  unfold NaClRoundPageNumUpToMapMultiple. change NACL_PAGES_PER_MAP with 16.
  replace (x + 16 - 1) with (x + 15) by lia.
  apply (land_not64_mask _ 4); [lia|apply u64_range].
Qed.

Lemma NaClIsAllocPageMultiple_spec x : NaClIsAllocPageMultiple x = true <-> alloc_aligned x.
Proof.
  unfold NaClIsAllocPageMultiple, alloc_aligned. rewrite Z.eqb_eq.
  change (NACL_MAP_PAGESIZE - 1) with (2 ^ 16 - 1). rewrite land_ones_mod by lia.
  change (2 ^ 16) with 65536. lia.
Qed.

(** Round-up facts in the form the clients use: the result is the least
    multiple that is not below the argument, when no wrap-around occurs. *)
Lemma NaClRoundAllocPage_spec x :
  0 <= x <= two64 - 65536 ->
  alloc_aligned (NaClRoundAllocPage x) /\ x <= NaClRoundAllocPage x < x + 65536 /\
  is_u64 (NaClRoundAllocPage x).
Proof.
  intros Hx. rewrite NaClRoundAllocPage_val, u64_small by zlia. unfold alloc_aligned.
  unfold_words. Z.div_mod_to_equations. lia.
Qed.

Lemma NaClRoundPage_spec x :
  0 <= x <= two64 - 4096 ->
  page_aligned (NaClRoundPage x) /\ x <= NaClRoundPage x < x + 4096 /\
  is_u64 (NaClRoundPage x).
Proof.
  intros Hx. rewrite NaClRoundPage_val, u64_small by zlia. unfold page_aligned.
  unfold_words. Z.div_mod_to_equations. lia.
Qed.

Lemma NaClRoundPageNum_spec x :
  0 <= x <= two64 - 16 ->
  map_aligned (NaClRoundPageNumUpToMapMultiple x) /\
  x <= NaClRoundPageNumUpToMapMultiple x < x + 16 /\
  is_u64 (NaClRoundPageNumUpToMapMultiple x).
Proof.
  intros Hx. rewrite NaClRoundPageNum_val, u64_small by zlia. unfold map_aligned.
  unfold_words. Z.div_mod_to_equations. lia.
Qed.

Lemma NaClTruncAllocPage_spec x :
  is_u64 x -> alloc_aligned (NaClTruncAllocPage x) /\
  NaClTruncAllocPage x <= x < NaClTruncAllocPage x + 65536 /\ 0 <= NaClTruncAllocPage x.
Proof.
  intros Hx. rewrite NaClTruncAllocPage_val by done. unfold alloc_aligned.
  unfold_words. Z.div_mod_to_equations. lia.
Qed.

Lemma NaClTruncPageNum_spec x :
  is_u64 x -> map_aligned (NaClTruncPageNumDownToMapMultiple x) /\
  NaClTruncPageNumDownToMapMultiple x <= x < NaClTruncPageNumDownToMapMultiple x + 16 /\
  0 <= NaClTruncPageNumDownToMapMultiple x.
Proof.
  intros Hx. rewrite NaClTruncPageNum_val by done. unfold map_aligned.
  unfold_words. Z.div_mod_to_equations. lia.
Qed.

(** Two multiples with nothing between them: least upper multiple. *)
Lemma round_least m x r y :
  0 < m -> r mod m = 0 -> x <= r < x + m -> y mod m = 0 -> x <= y -> r <= y.
Proof.
  intros Hm Hr Hx Hy Hxy.
  apply Z.mod_divide in Hr as [q ->]; [|lia]. apply Z.mod_divide in Hy as [q' ->]; [|lia].
  destruct (decide (q <= q')); [nia|]. exfalso. assert (q' * m <= (q - 1) * m) by nia. lia.
Qed.

Lemma NaClTruncAllocPage_aligned x : is_u64 x -> alloc_aligned x -> NaClTruncAllocPage x = x.
Proof. intros Hx Ha. rewrite NaClTruncAllocPage_val by done. unfold alloc_aligned in Ha. lia. Qed.

Lemma NaClRoundAllocPage_aligned x :
  0 <= x <= two64 - 65536 -> alloc_aligned x -> NaClRoundAllocPage x = x.
Proof.
  intros Hx Ha. destruct (NaClRoundAllocPage_spec x Hx) as (Hr & Hb & _).
  unfold alloc_aligned in *. Z.div_mod_to_equations. lia.
Qed.

Lemma alloc_page_aligned x : alloc_aligned x -> page_aligned x.
Proof. unfold alloc_aligned, page_aligned. intros. Z.div_mod_to_equations. lia. Qed.

(** Conversions between byte addresses and page numbers. *)
Lemma shiftr_page x : Z.shiftr x NACL_PAGESHIFT = x / 4096.
Proof. by rewrite Z.shiftr_div_pow2. Qed.

Lemma shiftl_page x : Z.shiftl x NACL_PAGESHIFT = x * 4096.
Proof. by rewrite Z.shiftl_mul_pow2. Qed.

#[export] Hint Rewrite shiftr_page shiftl_page : words.
