(* ===== verification/Bytes.v ===== *)
(** * Process memory

    The bytes of the address space as a function, with the C library's memset
    and memcpy and the unaligned little-endian access and code patching of
    sel_ldr.c. *)

From S2P Require Import Prelude Effects.

Definition memory : Type := Z -> Z.

Definition is_byte (b : Z) : Prop := 0 <= b < 256.

(** The HLT instruction. *)
Definition NACL_HALT_OPCODE : Z := 244.

(** [memset], [memcpy] inside one memory, and a copy from a buffer. *)
Definition mem_fill (m : memory) (a n v : Z) : memory :=
  fun x => if (a <=? x) && (x <? a + n) then v else m x.

Definition mem_copy (m : memory) (dst src n : Z) : memory :=
  fun x => if (dst <=? x) && (x <? dst + n) then m (src + (x - dst)) else m x.

Definition mem_write (m : memory) (a : Z) (l : list Z) : memory :=
  fun x => if (a <=? x) && (x <? a + Z.of_nat (length l)) then nth (Z.to_nat (x - a)) l 0 else m x.

Fixpoint mem_read (m : memory) (a : Z) (n : nat) : list Z :=
  match n with
  | O => []
  | S n' => m a :: mem_read m (a + 1) n'
  end.

(** Little-endian value of [n] bytes. *)
Fixpoint rd_bytes (m : memory) (n : nat) (a : Z) : Z :=
  match n with
  | O => 0
  | S n' => u8 (m a) + 256 * rd_bytes m n' (a + 1)
  end.

Definition rd32 (m : memory) (a : Z) : Z := rd_bytes m 4 a.
Definition rd64 (m : memory) (a : Z) : Z := rd_bytes m 8 a.

(** ** NaClLoadMem and NaClStoreMem *)

(** The do-while loop from the top byte down; [n] bytes are left. *)
Fixpoint NaClLoadMem_loop (m : memory) (addr : Z) (n : nat) (value : Z) : Z :=
  match n with
  | O => value
  | S n' => NaClLoadMem_loop m addr n' (Z.lor (u64 (Z.shiftl value 8)) (u8 (m (addr + Z.of_nat n'))))
  end.

Definition NaClLoadMem (m : memory) (addr : Z) (user_nbytes : nat) : M Z :=
  _ ← check (negb (user_nbytes =? 0)%nat && (user_nbytes <=? 8)%nat) "0 != user_nbytes && user_nbytes <= 8";
  mret (NaClLoadMem_loop m addr user_nbytes 0).

Fixpoint NaClStoreMem_loop (m : memory) (addr : Z) (n : nat) (value : Z) : memory :=
  match n with
  | O => m
  | S n' => NaClStoreMem_loop (mem_write m addr [u8 value]) (addr + 1) n' (Z.shiftr value 8)
  end.

Definition NaClStoreMem (m : memory) (addr : Z) (nbytes : nat) (value : Z) : M memory :=
  _ ← check (nbytes <=? 8)%nat "nbytes <= 8";
  mret (NaClStoreMem_loop m addr nbytes value).

(** ** Code patches *)

Record NaClPatch := mkPatch { patch_target : Z; patch_value : Z }.

Record NaClPatchInfo := mkPatchInfo {
  patch_dst : Z;
  patch_src : Z;
  patch_nbytes : Z;
  patch_abs16 : list NaClPatch;
  patch_abs32 : list NaClPatch;
  patch_abs64 : list NaClPatch;
  patch_rel64 : list Z;
}.

(** Store [conv value] in [n] bytes at the patched copy of each target. *)
Fixpoint Patch_abs (p : NaClPatchInfo) (n : nat) (conv : Z -> Z) (l : list NaClPatch) (m : memory) : M memory :=
  match l with
  | [] => mret m
  | a :: l' =>
      let offset := u64 (patch_target a - patch_src p) in
      m ← NaClStoreMem m (u64 (patch_dst p + offset)) n (conv (patch_value a));
      Patch_abs p n conv l' m
  end.

Fixpoint Patch_rel64 (p : NaClPatchInfo) (reloc : Z) (l : list Z) (m : memory) : M memory :=
  match l with
  | [] => mret m
  | t :: l' =>
      let target_addr := u64 (patch_dst p + u64 (t - patch_src p)) in
      v ← NaClLoadMem m target_addr 8;
      m ← NaClStoreMem m target_addr 8 (u64 (v - reloc));
      Patch_rel64 p reloc l' m
  end.

Definition NaClApplyPatchToMemory (patch : NaClPatchInfo) (m : memory) : M memory :=
  let m := mem_copy m (patch_dst patch) (patch_src patch) (patch_nbytes patch) in
  let reloc := i64 (patch_dst patch - patch_src patch) in
  m ← Patch_abs patch 8 id (patch_abs64 patch) m;
  m ← Patch_abs patch 4 u32 (patch_abs32 patch) m;
  m ← Patch_abs patch 2 u16 (patch_abs16 patch) m;
  Patch_rel64 patch reloc (patch_rel64 patch) m.

(** ** Facts *)

Lemma mem_write_out m a l x : x < a \/ a + Z.of_nat (length l) <= x -> mem_write m a l x = m x.
Proof.
  intros Hx. unfold mem_write. destruct (_ && _) eqn:Hb; [|done]. zbool. lia.
Qed.

Lemma mem_write_in m a l i b :
  l !! i = Some b -> mem_write m a l (a + Z.of_nat i) = b.
Proof.
  intros Hi. pose proof (lookup_lt_Some _ _ _ Hi). unfold mem_write.
  replace ((a <=? a + Z.of_nat i) && (a + Z.of_nat i <? a + Z.of_nat (length l))) with true.
  - replace (Z.to_nat (a + Z.of_nat i - a)) with i by lia. by apply nth_lookup_Some.
  - symmetry. apply andb_true_iff. rewrite Z.leb_le, Z.ltb_lt. lia.
Qed.

Lemma mem_fill_out m a n v x : x < a \/ a + n <= x -> mem_fill m a n v x = m x.
Proof. intros Hx. unfold mem_fill. destruct (_ && _) eqn:Hb; [|done]. zbool. lia. Qed.

Lemma mem_fill_in m a n v x : a <= x < a + n -> mem_fill m a n v x = v.
Proof.
  intros Hx. unfold mem_fill. replace (_ && _) with true; [done|].
  symmetry. apply andb_true_iff. rewrite Z.leb_le, Z.ltb_lt. lia.
Qed.

Lemma rd_bytes_range mem n : forall a, 0 <= rd_bytes mem n a < 2 ^ (8 * Z.of_nat n).
Proof.
  induction n as [|n IH]; intros a; simpl rd_bytes; [done|].
  specialize (IH (a + 1)). assert (0 <= u8 (mem a) < 256) by (apply Z.mod_pos_bound; lia).
  replace (8 * Z.of_nat (S n)) with (8 + 8 * Z.of_nat n) by lia. rewrite Z.pow_add_r by lia.
  change (2 ^ 8) with 256. lia.
Qed.

Lemma rd32_range mem a : 0 <= rd32 mem a < two32.
Proof. apply (rd_bytes_range mem 4). Qed.
Lemma rd64_range mem a : is_u64 (rd64 mem a).
Proof. apply (rd_bytes_range mem 8). Qed.

Lemma rd_bytes_ext m1 m2 n : forall a,
  (forall x, a <= x < a + Z.of_nat n -> m1 x = m2 x) -> rd_bytes m1 n a = rd_bytes m2 n a.
Proof.
  induction n as [|n IH]; intros a Hx; simpl; [done|]. rewrite Hx by lia. f_equal. f_equal.
  apply IH. intros x ?. apply Hx. lia.
Qed.

(** One more byte at the top. *)
Lemma rd_bytes_snoc m n : forall a,
  rd_bytes m (S n) a = rd_bytes m n a + 2 ^ (8 * Z.of_nat n) * u8 (m (a + Z.of_nat n)).
Proof.
  induction n as [|n IH]; intros a.
  - simpl rd_bytes. change (2 ^ (8 * Z.of_nat 0)) with 1. replace (a + Z.of_nat 0) with a by lia. lia.
  - change (rd_bytes m (S (S n)) a) with (u8 (m a) + 256 * rd_bytes m (S n) (a + 1)).
    rewrite IH. simpl rd_bytes. replace (8 * Z.of_nat (S n)) with (8 + 8 * Z.of_nat n) by lia.
    rewrite Z.pow_add_r by lia. change (2 ^ 8) with 256.
    replace (a + 1 + Z.of_nat n) with (a + Z.of_nat (S n)) by lia. ring.
Qed.

Lemma byte_high_bits b n : 0 <= b < 256 -> 8 <= n -> Z.testbit b n = false.
Proof.
  intros Hb Hn. destruct (decide (b = 0)) as [->|Hb0]; [apply Z.testbit_0_l|].
  apply Z.bits_above_log2; [lia|]. apply Z.log2_lt_pow2; [lia|].
  apply Z.lt_le_trans with (2 ^ 8); [lia|apply Z.pow_le_mono_r; lia].
Qed.

Lemma lor_shift_byte v b : 0 <= b < 256 -> Z.lor (Z.shiftl v 8) b = 256 * v + b.
Proof.
  intros Hb. assert (Hl : Z.land (Z.shiftl v 8) b = 0).
  { apply Z.bits_inj'. intros n Hn. rewrite Z.land_spec, Z.bits_0. destruct (decide (n < 8)).
    - by rewrite Z.shiftl_spec_low by lia.
    - rewrite (byte_high_bits b n) by lia. apply andb_false_r. }
  rewrite <- Z.lxor_lor, <- Z.add_nocarry_lxor by done. rewrite Z.shiftl_mul_pow2 by lia.
  change (2 ^ 8) with 256. lia.
Qed.

(** The load loop computes the little-endian value. *)
Lemma LoadMem_loop_spec m addr n : forall k value,
  (n + k <= 8)%nat -> 0 <= value < 2 ^ (8 * Z.of_nat k) ->
  NaClLoadMem_loop m addr n value = rd_bytes m n addr + 2 ^ (8 * Z.of_nat n) * value.
Proof.
  induction n as [|n IH]; intros k value Hnk Hv; simpl NaClLoadMem_loop; [change (2 ^ (8 * Z.of_nat 0)) with 1; simpl; lia|].
  assert (Hb : 0 <= u8 (m (addr + Z.of_nat n)) < 256) by (apply Z.mod_pos_bound; lia).
  assert (Hpow : 2 ^ (8 * Z.of_nat (S k)) = 256 * 2 ^ (8 * Z.of_nat k)).
  { replace (8 * Z.of_nat (S k)) with (8 + 8 * Z.of_nat k) by lia. by rewrite Z.pow_add_r by lia. }
  assert (Hle : 2 ^ (8 * Z.of_nat (S k)) <= two64).
  { change two64 with (2 ^ 64). apply Z.pow_le_mono_r; lia. }
  rewrite u64_small by (rewrite Z.shiftl_mul_pow2 by lia; change (2 ^ 8) with 256; lia).
  rewrite lor_shift_byte by done. rewrite (IH (S k)), rd_bytes_snoc by (lia || (rewrite Hpow; lia)).
  replace (8 * Z.of_nat (S n)) with (8 + 8 * Z.of_nat n) by lia. rewrite Z.pow_add_r by lia.
  change (2 ^ 8) with 256. ring.
Qed.

Lemma LoadMem_spec m addr n : (0 < n <= 8)%nat -> NaClLoadMem m addr n = mret (rd_bytes m n addr).
Proof.
  intros Hn. unfold NaClLoadMem, check.
  replace (negb (n =? 0)%nat && (n <=? 8)%nat) with true.
  - rewrite M_bind_ret_l, (LoadMem_loop_spec m addr n 0) by (lia || done). f_equal. lia.
  - symmetry. apply andb_true_iff. rewrite negb_true_iff, Nat.eqb_neq, Nat.leb_le. lia.
Qed.

Lemma StoreMem_loop_out n : forall m addr value x,
  x < addr \/ addr + Z.of_nat n <= x -> NaClStoreMem_loop m addr n value x = m x.
Proof.
  induction n as [|n IH]; intros m addr value x Hx; simpl; [done|].
  rewrite IH by lia. apply mem_write_out. simpl. lia.
Qed.

Lemma StoreMem_loop_read n : forall m addr value,
  rd_bytes (NaClStoreMem_loop m addr n value) n addr = value mod 2 ^ (8 * Z.of_nat n).
Proof.
  induction n as [|n IH]; intros m addr value; [simpl; by rewrite Z.mod_1_r|].
  simpl. rewrite IH, StoreMem_loop_out by lia.
  replace (mem_write m addr [u8 value] addr) with (u8 value).
  - unfold u8. rewrite Zmod_mod, Z.shiftr_div_pow2 by lia. change (2 ^ 8) with 256.
    replace (8 * Z.of_nat (S n)) with (8 + 8 * Z.of_nat n) by lia. rewrite Z.pow_add_r by lia.
    change (2 ^ 8) with 256. rewrite Z.rem_mul_r; [done|lia|apply Z.pow_pos_nonneg; lia].
  - symmetry. replace addr with (addr + Z.of_nat 0) at 2 by lia. by apply mem_write_in.
Qed.

Lemma StoreMem_spec m addr n value :
  (n <= 8)%nat -> exists m', NaClStoreMem m addr n value = mret m' /\
    rd_bytes m' n addr = value mod 2 ^ (8 * Z.of_nat n) /\
    forall x, x < addr \/ addr + Z.of_nat n <= x -> m' x = m x.
Proof.
  intros Hn. exists (NaClStoreMem_loop m addr n value). unfold NaClStoreMem, check.
  replace (n <=? 8)%nat with true by (symmetry; apply Nat.leb_le; lia). rewrite M_bind_ret_l.
  split_and!; [done|apply StoreMem_loop_read|]. intros x. apply StoreMem_loop_out.
Qed.

Lemma mem_read_ext m1 m2 n : forall a,
  (forall x, a <= x < a + Z.of_nat n -> m1 x = m2 x) -> mem_read m1 a n = mem_read m2 a n.
Proof.
  induction n as [|n IH]; intros a Hx; simpl; [done|]. f_equal; [apply Hx; lia|].
  apply IH. intros x ?. apply Hx. lia.
Qed.

Lemma mem_read_lookup m n : forall a i, (i < n)%nat -> mem_read m a n !! i = Some (m (a + Z.of_nat i)).
Proof.
  induction n as [|n IH]; intros a i Hi; [lia|]. destruct i as [|i]; simpl.
  - by rewrite Z.add_0_r.
  - rewrite IH by lia. do 2 f_equal. lia.
Qed.

Lemma length_mem_read m n : forall a, length (mem_read m a n) = n.
Proof. induction n; intros a; simpl; auto. Qed.

Lemma mem_read_write m a l : mem_read (mem_write m a l) a (length l) = l.
Proof.
  apply list_eq_same_length with (n := length l); [done|apply length_mem_read|].
  intros i x y Hi Hx Hy. rewrite mem_read_lookup in Hx by done. injection Hx as <-. by apply mem_write_in.
Qed.
