(* ===== verification/OpKinds.v ===== *)
(** * Enumerations of the instruction model

    The enumerators of x86_insts.h and of the headers under
    validator/x86/decoder/gen.  Kinds of operands (which include the
    registers), flags and prefixes are integers in the code: they are stored
    in 64-bit fields, added to and used as indices, so their names are
    abbreviations of the numbers.  Mnemonics and instruction types are only
    compared, and are inductive types. *)

From S2P Require Import Prelude.

(** Kinds of operands and registers. *)
Definition NaClOpKind : Type := Z.

(** Enumerators of [NaClOpKind]. *)
Abbreviation Unknown_Operand := (0)%Z (only parsing).
Abbreviation A_Operand := (1)%Z (only parsing).
Abbreviation E_Operand := (2)%Z (only parsing).
Abbreviation Eb_Operand := (3)%Z (only parsing).
Abbreviation Ew_Operand := (4)%Z (only parsing).
Abbreviation Ev_Operand := (5)%Z (only parsing).
Abbreviation Eo_Operand := (6)%Z (only parsing).
Abbreviation Edq_Operand := (7)%Z (only parsing).
Abbreviation G_Operand := (8)%Z (only parsing).
Abbreviation Gb_Operand := (9)%Z (only parsing).
Abbreviation Gw_Operand := (10)%Z (only parsing).
Abbreviation Gv_Operand := (11)%Z (only parsing).
Abbreviation Go_Operand := (12)%Z (only parsing).
Abbreviation Gdq_Operand := (13)%Z (only parsing).
Abbreviation Seg_G_Operand := (14)%Z (only parsing).
Abbreviation G_OpcodeBase := (15)%Z (only parsing).
Abbreviation I_Operand := (16)%Z (only parsing).
Abbreviation Ib_Operand := (17)%Z (only parsing).
Abbreviation Iw_Operand := (18)%Z (only parsing).
Abbreviation Iv_Operand := (19)%Z (only parsing).
Abbreviation Io_Operand := (20)%Z (only parsing).
Abbreviation I2_Operand := (21)%Z (only parsing).
Abbreviation J_Operand := (22)%Z (only parsing).
Abbreviation Jb_Operand := (23)%Z (only parsing).
Abbreviation Jw_Operand := (24)%Z (only parsing).
Abbreviation Jv_Operand := (25)%Z (only parsing).
Abbreviation M_Operand := (26)%Z (only parsing).
Abbreviation Mb_Operand := (27)%Z (only parsing).
Abbreviation Mw_Operand := (28)%Z (only parsing).
Abbreviation Mv_Operand := (29)%Z (only parsing).
Abbreviation Mo_Operand := (30)%Z (only parsing).
Abbreviation Mdq_Operand := (31)%Z (only parsing).
Abbreviation Mpw_Operand := (32)%Z (only parsing).
Abbreviation Mpv_Operand := (33)%Z (only parsing).
Abbreviation Mpo_Operand := (34)%Z (only parsing).
Abbreviation Mmx_E_Operand := (35)%Z (only parsing).
Abbreviation Mmx_N_Operand := (36)%Z (only parsing).
Abbreviation Mmx_G_Operand := (37)%Z (only parsing).
Abbreviation Mmx_Gd_Operand := (38)%Z (only parsing).
Abbreviation Xmm_E_Operand := (39)%Z (only parsing).
Abbreviation Xmm_Eo_Operand := (40)%Z (only parsing).
Abbreviation Xmm_G_Operand := (41)%Z (only parsing).
Abbreviation Xmm_Go_Operand := (42)%Z (only parsing).
Abbreviation C_Operand := (43)%Z (only parsing).
Abbreviation D_Operand := (44)%Z (only parsing).
Abbreviation O_Operand := (45)%Z (only parsing).
Abbreviation Ob_Operand := (46)%Z (only parsing).
Abbreviation Ow_Operand := (47)%Z (only parsing).
Abbreviation Ov_Operand := (48)%Z (only parsing).
Abbreviation Oo_Operand := (49)%Z (only parsing).
Abbreviation S_Operand := (50)%Z (only parsing).
Abbreviation St_Operand := (51)%Z (only parsing).
Abbreviation RegUnknown := (52)%Z (only parsing).
Abbreviation RegAL := (53)%Z (only parsing).
Abbreviation RegBL := (54)%Z (only parsing).
Abbreviation RegCL := (55)%Z (only parsing).
Abbreviation RegDL := (56)%Z (only parsing).
Abbreviation RegAH := (57)%Z (only parsing).
Abbreviation RegBH := (58)%Z (only parsing).
Abbreviation RegCH := (59)%Z (only parsing).
Abbreviation RegDH := (60)%Z (only parsing).
Abbreviation RegDIL := (61)%Z (only parsing).
Abbreviation RegSIL := (62)%Z (only parsing).
Abbreviation RegBPL := (63)%Z (only parsing).
Abbreviation RegSPL := (64)%Z (only parsing).
Abbreviation RegR8B := (65)%Z (only parsing).
Abbreviation RegR9B := (66)%Z (only parsing).
Abbreviation RegR10B := (67)%Z (only parsing).
Abbreviation RegR11B := (68)%Z (only parsing).
Abbreviation RegR12B := (69)%Z (only parsing).
Abbreviation RegR13B := (70)%Z (only parsing).
Abbreviation RegR14B := (71)%Z (only parsing).
Abbreviation RegR15B := (72)%Z (only parsing).
Abbreviation RegAX := (73)%Z (only parsing).
Abbreviation RegBX := (74)%Z (only parsing).
Abbreviation RegCX := (75)%Z (only parsing).
Abbreviation RegDX := (76)%Z (only parsing).
Abbreviation RegSI := (77)%Z (only parsing).
Abbreviation RegDI := (78)%Z (only parsing).
Abbreviation RegBP := (79)%Z (only parsing).
Abbreviation RegSP := (80)%Z (only parsing).
Abbreviation RegR8W := (81)%Z (only parsing).
Abbreviation RegR9W := (82)%Z (only parsing).
Abbreviation RegR10W := (83)%Z (only parsing).
Abbreviation RegR11W := (84)%Z (only parsing).
Abbreviation RegR12W := (85)%Z (only parsing).
Abbreviation RegR13W := (86)%Z (only parsing).
Abbreviation RegR14W := (87)%Z (only parsing).
Abbreviation RegR15W := (88)%Z (only parsing).
Abbreviation RegEAX := (89)%Z (only parsing).
Abbreviation RegEBX := (90)%Z (only parsing).
Abbreviation RegECX := (91)%Z (only parsing).
Abbreviation RegEDX := (92)%Z (only parsing).
Abbreviation RegESI := (93)%Z (only parsing).
Abbreviation RegEDI := (94)%Z (only parsing).
Abbreviation RegEBP := (95)%Z (only parsing).
Abbreviation RegESP := (96)%Z (only parsing).
Abbreviation RegR8D := (97)%Z (only parsing).
Abbreviation RegR9D := (98)%Z (only parsing).
Abbreviation RegR10D := (99)%Z (only parsing).
Abbreviation RegR11D := (100)%Z (only parsing).
Abbreviation RegR12D := (101)%Z (only parsing).
Abbreviation RegR13D := (102)%Z (only parsing).
Abbreviation RegR14D := (103)%Z (only parsing).
Abbreviation RegR15D := (104)%Z (only parsing).
Abbreviation RegCS := (105)%Z (only parsing).
Abbreviation RegDS := (106)%Z (only parsing).
Abbreviation RegSS := (107)%Z (only parsing).
Abbreviation RegES := (108)%Z (only parsing).
Abbreviation RegFS := (109)%Z (only parsing).
Abbreviation RegGS := (110)%Z (only parsing).
Abbreviation RegCR0 := (111)%Z (only parsing).
Abbreviation RegCR1 := (112)%Z (only parsing).
Abbreviation RegCR2 := (113)%Z (only parsing).
Abbreviation RegCR3 := (114)%Z (only parsing).
Abbreviation RegCR4 := (115)%Z (only parsing).
Abbreviation RegCR5 := (116)%Z (only parsing).
Abbreviation RegCR6 := (117)%Z (only parsing).
Abbreviation RegCR7 := (118)%Z (only parsing).
Abbreviation RegCR8 := (119)%Z (only parsing).
Abbreviation RegCR9 := (120)%Z (only parsing).
Abbreviation RegCR10 := (121)%Z (only parsing).
Abbreviation RegCR11 := (122)%Z (only parsing).
Abbreviation RegCR12 := (123)%Z (only parsing).
Abbreviation RegCR13 := (124)%Z (only parsing).
Abbreviation RegCR14 := (125)%Z (only parsing).
Abbreviation RegCR15 := (126)%Z (only parsing).
Abbreviation RegDR0 := (127)%Z (only parsing).
Abbreviation RegDR1 := (128)%Z (only parsing).
Abbreviation RegDR2 := (129)%Z (only parsing).
Abbreviation RegDR3 := (130)%Z (only parsing).
Abbreviation RegDR4 := (131)%Z (only parsing).
Abbreviation RegDR5 := (132)%Z (only parsing).
Abbreviation RegDR6 := (133)%Z (only parsing).
Abbreviation RegDR7 := (134)%Z (only parsing).
Abbreviation RegDR8 := (135)%Z (only parsing).
Abbreviation RegDR9 := (136)%Z (only parsing).
Abbreviation RegDR10 := (137)%Z (only parsing).
Abbreviation RegDR11 := (138)%Z (only parsing).
Abbreviation RegDR12 := (139)%Z (only parsing).
Abbreviation RegDR13 := (140)%Z (only parsing).
Abbreviation RegDR14 := (141)%Z (only parsing).
Abbreviation RegDR15 := (142)%Z (only parsing).
Abbreviation RegEFLAGS := (143)%Z (only parsing).
Abbreviation RegRFLAGS := (144)%Z (only parsing).
Abbreviation RegEIP := (145)%Z (only parsing).
Abbreviation RegRIP := (146)%Z (only parsing).
Abbreviation RegRAX := (147)%Z (only parsing).
Abbreviation RegRBX := (148)%Z (only parsing).
Abbreviation RegRCX := (149)%Z (only parsing).
Abbreviation RegRDX := (150)%Z (only parsing).
Abbreviation RegRSI := (151)%Z (only parsing).
Abbreviation RegRDI := (152)%Z (only parsing).
Abbreviation RegRBP := (153)%Z (only parsing).
Abbreviation RegRSP := (154)%Z (only parsing).
Abbreviation RegR8 := (155)%Z (only parsing).
Abbreviation RegR9 := (156)%Z (only parsing).
Abbreviation RegR10 := (157)%Z (only parsing).
Abbreviation RegR11 := (158)%Z (only parsing).
Abbreviation RegR12 := (159)%Z (only parsing).
Abbreviation RegR13 := (160)%Z (only parsing).
Abbreviation RegR14 := (161)%Z (only parsing).
Abbreviation RegR15 := (162)%Z (only parsing).
Abbreviation RegREIP := (163)%Z (only parsing).
Abbreviation RegREAX := (164)%Z (only parsing).
Abbreviation RegREBX := (165)%Z (only parsing).
Abbreviation RegRECX := (166)%Z (only parsing).
Abbreviation RegREDX := (167)%Z (only parsing).
Abbreviation RegRESP := (168)%Z (only parsing).
Abbreviation RegREBP := (169)%Z (only parsing).
Abbreviation RegRESI := (170)%Z (only parsing).
Abbreviation RegREDI := (171)%Z (only parsing).
Abbreviation RegREAXa := (172)%Z (only parsing).
Abbreviation RegDS_ESI := (173)%Z (only parsing).
Abbreviation RegDS_EDI := (174)%Z (only parsing).
Abbreviation RegES_EDI := (175)%Z (only parsing).
Abbreviation RegDS_EBX := (176)%Z (only parsing).
Abbreviation RegST0 := (177)%Z (only parsing).
Abbreviation RegST1 := (178)%Z (only parsing).
Abbreviation RegST2 := (179)%Z (only parsing).
Abbreviation RegST3 := (180)%Z (only parsing).
Abbreviation RegST4 := (181)%Z (only parsing).
Abbreviation RegST5 := (182)%Z (only parsing).
Abbreviation RegST6 := (183)%Z (only parsing).
Abbreviation RegST7 := (184)%Z (only parsing).
Abbreviation RegMMX0 := (185)%Z (only parsing).
Abbreviation RegMMX1 := (186)%Z (only parsing).
Abbreviation RegMMX2 := (187)%Z (only parsing).
Abbreviation RegMMX3 := (188)%Z (only parsing).
Abbreviation RegMMX4 := (189)%Z (only parsing).
Abbreviation RegMMX5 := (190)%Z (only parsing).
Abbreviation RegMMX6 := (191)%Z (only parsing).
Abbreviation RegMMX7 := (192)%Z (only parsing).
Abbreviation RegXMM0 := (193)%Z (only parsing).
Abbreviation RegXMM1 := (194)%Z (only parsing).
Abbreviation RegXMM2 := (195)%Z (only parsing).
Abbreviation RegXMM3 := (196)%Z (only parsing).
Abbreviation RegXMM4 := (197)%Z (only parsing).
Abbreviation RegXMM5 := (198)%Z (only parsing).
Abbreviation RegXMM6 := (199)%Z (only parsing).
Abbreviation RegXMM7 := (200)%Z (only parsing).
Abbreviation RegXMM8 := (201)%Z (only parsing).
Abbreviation RegXMM9 := (202)%Z (only parsing).
Abbreviation RegXMM10 := (203)%Z (only parsing).
Abbreviation RegXMM11 := (204)%Z (only parsing).
Abbreviation RegXMM12 := (205)%Z (only parsing).
Abbreviation RegXMM13 := (206)%Z (only parsing).
Abbreviation RegXMM14 := (207)%Z (only parsing).
Abbreviation RegXMM15 := (208)%Z (only parsing).
Abbreviation RegGP7 := (209)%Z (only parsing).
Abbreviation Const_1 := (210)%Z (only parsing).
Abbreviation NaClOpKindEnumSize := (211)%Z (only parsing).

(** Prefix bytes and the bits that record them. *)
Abbreviation kValueSEGCS := (46)%Z (only parsing).
Abbreviation kValueSEGSS := (54)%Z (only parsing).
Abbreviation kValueSEGFS := (100)%Z (only parsing).
Abbreviation kValueSEGGS := (101)%Z (only parsing).
Abbreviation kValueDATA16 := (102)%Z (only parsing).
Abbreviation kValueADDR16 := (103)%Z (only parsing).
Abbreviation kValueREPNE := (242)%Z (only parsing).
Abbreviation kValueREP := (243)%Z (only parsing).
Abbreviation kValueLOCK := (240)%Z (only parsing).
Abbreviation kValueSEGES := (38)%Z (only parsing).
Abbreviation kValueSEGDS := (62)%Z (only parsing).
Abbreviation kPrefixSEGCS := (1)%Z (only parsing).
Abbreviation kPrefixSEGSS := (2)%Z (only parsing).
Abbreviation kPrefixSEGFS := (4)%Z (only parsing).
Abbreviation kPrefixSEGGS := (8)%Z (only parsing).
Abbreviation kPrefixDATA16 := (16)%Z (only parsing).
Abbreviation kPrefixADDR16 := (32)%Z (only parsing).
Abbreviation kPrefixREPNE := (64)%Z (only parsing).
Abbreviation kPrefixREP := (128)%Z (only parsing).
Abbreviation kPrefixLOCK := (256)%Z (only parsing).
Abbreviation kPrefixSEGES := (512)%Z (only parsing).
Abbreviation kPrefixSEGDS := (1024)%Z (only parsing).
Abbreviation kPrefixREX := (4096)%Z (only parsing).

(** Selectors of the opcode tables: enumerators of NaClInstPrefix. *)
Abbreviation NoPrefix := (0)%Z (only parsing).
Abbreviation Prefix0F := (1)%Z (only parsing).
Abbreviation PrefixF20F := (2)%Z (only parsing).
Abbreviation PrefixF30F := (3)%Z (only parsing).
Abbreviation Prefix660F := (4)%Z (only parsing).
Abbreviation Prefix0F0F := (5)%Z (only parsing).
Abbreviation Prefix0F38 := (6)%Z (only parsing).
Abbreviation Prefix660F38 := (7)%Z (only parsing).
Abbreviation PrefixF20F38 := (8)%Z (only parsing).
Abbreviation Prefix0F3A := (9)%Z (only parsing).
Abbreviation Prefix660F3A := (10)%Z (only parsing).
Abbreviation PrefixD8 := (11)%Z (only parsing).
Abbreviation PrefixD9 := (12)%Z (only parsing).
Abbreviation PrefixDA := (13)%Z (only parsing).
Abbreviation PrefixDB := (14)%Z (only parsing).
Abbreviation PrefixDC := (15)%Z (only parsing).
Abbreviation PrefixDD := (16)%Z (only parsing).
Abbreviation PrefixDE := (17)%Z (only parsing).
Abbreviation PrefixDF := (18)%Z (only parsing).
Abbreviation NaClInstPrefixEnumSize := (19)%Z (only parsing).

(** Flags of instructions: enumerators of NaClIFlag. *)
Abbreviation OpcodeUsesRexW := (0)%Z (only parsing).
Abbreviation OpcodeHasRexR := (1)%Z (only parsing).
Abbreviation OpcodeInModRm := (2)%Z (only parsing).
Abbreviation Opcode0F0F := (3)%Z (only parsing).
Abbreviation OpcodeInModRmRm := (4)%Z (only parsing).
Abbreviation OpcodeLtC0InModRm := (5)%Z (only parsing).
Abbreviation ModRmModIs0x3 := (6)%Z (only parsing).
Abbreviation ModRmModIsnt0x3 := (7)%Z (only parsing).
Abbreviation ModRmRegSOperand := (8)%Z (only parsing).
Abbreviation OpcodeUsesModRm := (9)%Z (only parsing).
Abbreviation OpcodeHasImmed := (10)%Z (only parsing).
Abbreviation OpcodeHasImmed_b := (11)%Z (only parsing).
Abbreviation OpcodeHasImmed_w := (12)%Z (only parsing).
Abbreviation OpcodeHasImmed_v := (13)%Z (only parsing).
Abbreviation OpcodeHasImmed_p := (14)%Z (only parsing).
Abbreviation OpcodeHasImmed_o := (15)%Z (only parsing).
Abbreviation OpcodeHasImmed_z := (16)%Z (only parsing).
Abbreviation OpcodeHasImmed2_b := (17)%Z (only parsing).
Abbreviation OpcodeHasImmed2_w := (18)%Z (only parsing).
Abbreviation OpcodeHasImmed2_v := (19)%Z (only parsing).
Abbreviation OpcodeHasImmed_Addr := (20)%Z (only parsing).
Abbreviation OpcodePlusR := (21)%Z (only parsing).
Abbreviation OpcodePlusI := (22)%Z (only parsing).
Abbreviation OpcodeRex := (23)%Z (only parsing).
Abbreviation OpcodeLegacy := (24)%Z (only parsing).
Abbreviation OpcodeLockable := (25)%Z (only parsing).
Abbreviation OpcodeAllowsRep := (26)%Z (only parsing).
Abbreviation OpcodeAllowsRepne := (27)%Z (only parsing).
Abbreviation OpcodeAllowsData16 := (28)%Z (only parsing).
Abbreviation SizeIgnoresData16 := (29)%Z (only parsing).
Abbreviation OperandSize_b := (30)%Z (only parsing).
Abbreviation OperandSize_w := (31)%Z (only parsing).
Abbreviation OperandSize_v := (32)%Z (only parsing).
Abbreviation OperandSize_o := (33)%Z (only parsing).
Abbreviation AddressSize_w := (34)%Z (only parsing).
Abbreviation AddressSize_v := (35)%Z (only parsing).
Abbreviation AddressSize_o := (36)%Z (only parsing).
Abbreviation NaClIllegal := (37)%Z (only parsing).
Abbreviation OperandSizeDefaultIs64 := (38)%Z (only parsing).
Abbreviation OperandSizeForce64 := (39)%Z (only parsing).
Abbreviation LongMode := (40)%Z (only parsing).
Abbreviation IgnorePrefixDATA16 := (41)%Z (only parsing).
Abbreviation Opcode32Only := (42)%Z (only parsing).
Abbreviation Opcode64Only := (43)%Z (only parsing).
Abbreviation JumpInstruction := (44)%Z (only parsing).
Abbreviation ConditionalJump := (45)%Z (only parsing).
Abbreviation PartialInstruction := (46)%Z (only parsing).
Abbreviation NaClIFlagEnumSize := (47)%Z (only parsing).

(** Flags of operands: enumerators of NaClOpFlag. *)
Abbreviation OpUse := (0)%Z (only parsing).
Abbreviation OpSet := (1)%Z (only parsing).
Abbreviation OpAddress := (2)%Z (only parsing).
Abbreviation OpImplicit := (3)%Z (only parsing).
Abbreviation OperandNear := (4)%Z (only parsing).
Abbreviation OperandFar := (5)%Z (only parsing).
Abbreviation OperandRelative := (6)%Z (only parsing).
Abbreviation OperandZeroExtends_v := (7)%Z (only parsing).
Abbreviation OperandSignExtends_v := (8)%Z (only parsing).
Abbreviation AllowGOperandWithOpcodeInModRm := (9)%Z (only parsing).
Abbreviation NaClOpFlagEnumSize := (10)%Z (only parsing).

(** Flags of expression nodes: enumerators of NaClExpFlag. *)
Abbreviation ExprSet := (0)%Z (only parsing).
Abbreviation ExprUsed := (1)%Z (only parsing).
Abbreviation ExprAddress := (2)%Z (only parsing).
Abbreviation ExprSize8 := (3)%Z (only parsing).
Abbreviation ExprSize16 := (4)%Z (only parsing).
Abbreviation ExprSize32 := (5)%Z (only parsing).
Abbreviation ExprSize48 := (6)%Z (only parsing).
Abbreviation ExprSize64 := (7)%Z (only parsing).
Abbreviation ExprUnsignedHex := (8)%Z (only parsing).
Abbreviation ExprSignedHex := (9)%Z (only parsing).
Abbreviation ExprUnsignedInt := (10)%Z (only parsing).
Abbreviation ExprSignedInt := (11)%Z (only parsing).
Abbreviation ExprImplicit := (12)%Z (only parsing).
Abbreviation ExprJumpTarget := (13)%Z (only parsing).
Abbreviation ExprDSrCase := (14)%Z (only parsing).
Abbreviation ExprESrCase := (15)%Z (only parsing).
Abbreviation NaClExpFlagEnumSize := (16)%Z (only parsing).

(** Reasons to reject an instruction: enumerators of NaClDisallowsFlag. *)
Abbreviation NaClTooManyPrefixBytes := (0)%Z (only parsing).
Abbreviation NaClMarkedIllegal := (1)%Z (only parsing).
Abbreviation NaClMarkedInvalid := (2)%Z (only parsing).
Abbreviation NaClMarkedSystem := (3)%Z (only parsing).
Abbreviation NaClHasBadSegmentPrefix := (4)%Z (only parsing).
Abbreviation NaClCantUsePrefix67 := (5)%Z (only parsing).
Abbreviation NaClMultipleRexPrefix := (6)%Z (only parsing).
Abbreviation NaClRepDisallowed := (7)%Z (only parsing).
Abbreviation NaClRepneDisallowed := (8)%Z (only parsing).
Abbreviation NaClData16Disallowed := (9)%Z (only parsing).
Abbreviation NaClHasDuplicatePrefix := (10)%Z (only parsing).
Abbreviation NaClHasAmbigSegmentPrefixes := (11)%Z (only parsing).
Abbreviation NaClRexPrefixNotLast := (12)%Z (only parsing).
Abbreviation NaClDisallowsFlagEnumSize := (13)%Z (only parsing).

(** The bit of a flag, and a set of flags: NACL_IFLAG, NACL_OPFLAG, NACL_EFLAG,
    NACL_DISALLOWS_FLAG. *)
Definition FLAG (x : Z) : Z := Z.shiftl 1 x.
Definition FLAGS (l : list Z) : Z := foldr (fun x acc => Z.lor (FLAG x) acc) 0 l.

(** [NaClHasBit] and [NaClExcludesBit], as conditions. *)
Definition NaClHasBit (set bit : Z) : bool := cbool (Z.land set bit).
Definition NaClExcludesBit (set bit : Z) : bool := cbool (Z.land (Z.lnot set) bit).

(** Origins of instructions. *)
Inductive NaClInstType :=
  | NACLi_UNDEFINED | NACLi_ILLEGAL | NACLi_INVALID | NACLi_SYSTEM | NACLi_NOP | NACLi_UD2
  | NACLi_386 | NACLi_386L | NACLi_386R | NACLi_386RE | NACLi_JMP8 | NACLi_JMPZ | NACLi_INDIRECT
  | NACLi_OPINMRM | NACLi_RETURN | NACLi_SFENCE_CLFLUSH | NACLi_CMPXCHG8B | NACLi_CMPXCHG16B
  | NACLi_CMOV | NACLi_RDMSR | NACLi_RDTSC | NACLi_RDTSCP | NACLi_SYSCALL | NACLi_SYSENTER
  | NACLi_X87 | NACLi_X87_FSINCOS | NACLi_MMX | NACLi_MMXSSE2 | NACLi_3DNOW | NACLi_EMMX
  | NACLi_E3DNOW | NACLi_SSE | NACLi_SSE2 | NACLi_SSE2x | NACLi_SSE3 | NACLi_SSE4A | NACLi_SSE41
  | NACLi_SSE42 | NACLi_MOVBE | NACLi_POPCNT | NACLi_LZCNT | NACLi_LONGMODE | NACLi_SVM
  | NACLi_SSSE3 | NACLi_3BYTE | NACLi_FCMOV | NACLi_VMX | NACLi_FXSAVE.

(** Mnemonics. *)
Inductive NaClMnemonic :=
  | InstAaa | InstAad | InstAam | InstAas | InstAdc | InstAdd | InstAddpd | InstAddps | InstAddsd
  | InstAddss | InstAddsubpd | InstAddsubps | InstAnd | InstAndnpd | InstAndnps | InstAndpd
  | InstAndps | InstArpl | InstBlendpd | InstBlendps | InstBlendvpd | InstBlendvps | InstBound
  | InstBsf | InstBsr | InstBswap | InstBt | InstBtc | InstBtr | InstBts | InstCall | InstCbw
  | InstCdq | InstCdqe | InstClc | InstCld | InstClflush | InstClgi | InstCli | InstClts | InstCmc
  | InstCmovb | InstCmovbe | InstCmovl | InstCmovle | InstCmovnb | InstCmovnbe | InstCmovnl
  | InstCmovnle | InstCmovno | InstCmovnp | InstCmovns | InstCmovnz | InstCmovo | InstCmovp
  | InstCmovs | InstCmovz | InstCmp | InstCmppd | InstCmpps | InstCmpsb | InstCmpsd | InstCmpsd_xmm
  | InstCmpsq | InstCmpss | InstCmpsw | InstCmpxchg | InstCmpxchg16b | InstCmpxchg8b | InstComisd
  | InstComiss | InstCpuid | InstCqo | InstCrc32 | InstCvtdq2pd | InstCvtdq2ps | InstCvtpd2dq
  | InstCvtpd2pi | InstCvtpd2ps | InstCvtpi2pd | InstCvtpi2ps | InstCvtps2dq | InstCvtps2pd
  | InstCvtps2pi | InstCvtsd2pi | InstCvtsd2si | InstCvtsd2ss | InstCvtsi2sd | InstCvtsi2ss
  | InstCvtss2sd | InstCvtss2si | InstCvttpd2dq | InstCvttpd2pi | InstCvttps2dq | InstCvttps2pi
  | InstCvttsd2pi | InstCvttsd2si | InstCvttss2si | InstCwd | InstCwde | InstDaa | InstDas
  | InstDec | InstDiv | InstDivpd | InstDivps | InstDivsd | InstDivss | InstDontCare
  | InstDontCareCondJump | InstDontCareJump | InstDppd | InstDpps | InstEmms | InstEnter
  | InstExtractps | InstExtrq | InstF2xm1 | InstFabs | InstFadd | InstFaddp | InstFbld | InstFbstp
  | InstFchs | InstFcmovb | InstFcmovbe | InstFcmove | InstFcmovnb | InstFcmovnbe | InstFcmovne
  | InstFcmovnu | InstFcmovu | InstFcom | InstFcomi | InstFcomip | InstFcomp | InstFcompp
  | InstFcos | InstFdecstp | InstFdiv | InstFdivp | InstFdivr | InstFdivrp | InstFemms | InstFfree
  | InstFiadd | InstFicom | InstFicomp | InstFidiv | InstFidivr | InstFild | InstFimul
  | InstFincstp | InstFist | InstFistp | InstFisttp | InstFisub | InstFisubr | InstFld | InstFld1
  | InstFldcw | InstFldenv | InstFldl2e | InstFldl2t | InstFldlg2 | InstFldln2 | InstFldpi
  | InstFldz | InstFmul | InstFmulp | InstFnclex | InstFninit | InstFnop | InstFnsave | InstFnstcw
  | InstFnstenv | InstFnstsw | InstFpatan | InstFprem | InstFprem1 | InstFptan | InstFrndint
  | InstFrstor | InstFscale | InstFsin | InstFsincos | InstFsqrt | InstFst | InstFstp | InstFsub
  | InstFsubp | InstFsubr | InstFsubrp | InstFtst | InstFucom | InstFucomi | InstFucomip
  | InstFucomp | InstFucompp | InstFwait | InstFxam | InstFxch | InstFxrstor | InstFxsave
  | InstFxtract | InstFyl2x | InstFyl2xp1 | InstHaddpd | InstHaddps | InstHlt | InstHsubpd
  | InstHsubps | InstIdiv | InstImul | InstIn | InstInc | InstInsb | InstInsd | InstInsertps
  | InstInsertq | InstInsw | InstInt | InstInt1 | InstInt3 | InstInto | InstInvalid | InstInvd
  | InstInvept | InstInvlpg | InstInvlpga | InstInvvpid | InstIret | InstIretd | InstIretq | InstJb
  | InstJbe | InstJcxz | InstJecxz | InstJl | InstJle | InstJmp | InstJnb | InstJnbe | InstJnl
  | InstJnle | InstJno | InstJnp | InstJns | InstJnz | InstJo | InstJp | InstJrcxz | InstJs
  | InstJz | InstLahf | InstLar | InstLddqu | InstLdmxcsr | InstLds | InstLea | InstLeave | InstLes
  | InstLfence | InstLfs | InstLgdt | InstLgs | InstLidt | InstLldt | InstLmsw | InstLodsb
  | InstLodsd | InstLodsq | InstLodsw | InstLoop | InstLoope | InstLoopne | InstLsl | InstLss
  | InstLtr | InstLzcnt | InstMaskmovdqu | InstMaskmovq | InstMaxpd | InstMaxps | InstMaxsd
  | InstMaxss | InstMfence | InstMinpd | InstMinps | InstMinsd | InstMinss | InstMonitor | InstMov
  | InstMovapd | InstMovaps | InstMovbe | InstMovd | InstMovddup | InstMovdq | InstMovdq2q
  | InstMovdqa | InstMovdqu | InstMovhlps | InstMovhpd | InstMovhps | InstMovlhps | InstMovlpd
  | InstMovlps | InstMovmskpd | InstMovmskps | InstMovntdq | InstMovntdqa | InstMovnti
  | InstMovntpd | InstMovntps | InstMovntq | InstMovntsd | InstMovntss | InstMovq | InstMovq2dq
  | InstMovsb | InstMovsd | InstMovshdup | InstMovsldup | InstMovsq | InstMovss | InstMovsw
  | InstMovsx | InstMovsxd | InstMovupd | InstMovups | InstMovzx | InstMpsadbw | InstMul
  | InstMulpd | InstMulps | InstMulsd | InstMulss | InstMwait | InstNeg | InstNop | InstNot
  | InstOr | InstOrpd | InstOrps | InstOut | InstOutsb | InstOutsd | InstOutsw | InstPabsb
  | InstPabsd | InstPabsw | InstPackssdw | InstPacksswb | InstPackusdw | InstPackuswb | InstPaddb
  | InstPaddd | InstPaddq | InstPaddsb | InstPaddsw | InstPaddusb | InstPaddusw | InstPaddw
  | InstPalignr | InstPand | InstPandn | InstPause | InstPavgb | InstPavgusb | InstPavgw
  | InstPblendvb | InstPblendw | InstPcmpeqb | InstPcmpeqd | InstPcmpeqq | InstPcmpeqw
  | InstPcmpestri | InstPcmpestrm | InstPcmpgtb | InstPcmpgtd | InstPcmpgtq | InstPcmpgtw
  | InstPcmpistri | InstPcmpistrm | InstPextrb | InstPextrd | InstPextrq | InstPextrw | InstPf2id
  | InstPf2iw | InstPfacc | InstPfadd | InstPfcmpeq | InstPfcmpge | InstPfcmpgt | InstPfmax
  | InstPfmin | InstPfmul | InstPfnacc | InstPfpnacc | InstPfrcp | InstPfrcpit1 | InstPfrcpit2
  | InstPfrsqit1 | InstPfrsqrt | InstPfsub | InstPfsubr | InstPhaddd | InstPhaddsw | InstPhaddw
  | InstPhminposuw | InstPhsubd | InstPhsubsw | InstPhsubw | InstPi2fd | InstPi2fw | InstPinsrb
  | InstPinsrd | InstPinsrq | InstPinsrw | InstPmaddubsw | InstPmaddwd | InstPmaxsb | InstPmaxsd
  | InstPmaxsw | InstPmaxub | InstPmaxud | InstPmaxuw | InstPminsb | InstPminsd | InstPminsw
  | InstPminub | InstPminud | InstPminuw | InstPmovmskb | InstPmovsxbd | InstPmovsxbq
  | InstPmovsxbw | InstPmovsxdq | InstPmovsxwd | InstPmovsxwq | InstPmovzxbd | InstPmovzxbq
  | InstPmovzxbw | InstPmovzxdq | InstPmovzxwd | InstPmovzxwq | InstPmuldq | InstPmulhrsw
  | InstPmulhrw | InstPmulhuw | InstPmulhw | InstPmulld | InstPmullw | InstPmuludq | InstPop
  | InstPopa | InstPopad | InstPopcnt | InstPopf | InstPopfd | InstPopfq | InstPor
  | InstPrefetch_exclusive | InstPrefetch_modified | InstPrefetch_reserved | InstPrefetchnta
  | InstPrefetcht0 | InstPrefetcht1 | InstPrefetcht2 | InstPsadbw | InstPshufb | InstPshufd
  | InstPshufhw | InstPshuflw | InstPshufw | InstPsignb | InstPsignd | InstPsignw | InstPslld
  | InstPslldq | InstPsllq | InstPsllw | InstPsrad | InstPsraw | InstPsrld | InstPsrldq | InstPsrlq
  | InstPsrlw | InstPsubb | InstPsubd | InstPsubq | InstPsubsb | InstPsubsw | InstPsubusb
  | InstPsubusw | InstPsubw | InstPswapd | InstPtest | InstPunpckhbd | InstPunpckhbq
  | InstPunpckhbw | InstPunpckhdq | InstPunpckhqdq | InstPunpckhwd | InstPunpcklbw | InstPunpckldq
  | InstPunpcklqdq | InstPunpcklwd | InstPush | InstPusha | InstPushad | InstPushf | InstPushfd
  | InstPushfq | InstPxor | InstRcl | InstRcpps | InstRcpss | InstRcr | InstRdmsr | InstRdpmc
  | InstRdtsc | InstRdtscp | InstRet | InstRol | InstRor | InstRoundpd | InstRoundps | InstRoundsd
  | InstRoundss | InstRsm | InstRsqrtps | InstRsqrtss | InstSahf | InstSalc | InstSar | InstSbb
  | InstScasb | InstScasd | InstScasq | InstScasw | InstSetb | InstSetbe | InstSetl | InstSetle
  | InstSetnb | InstSetnbe | InstSetnl | InstSetnle | InstSetno | InstSetnp | InstSetns | InstSetnz
  | InstSeto | InstSetp | InstSets | InstSetz | InstSfence | InstSgdt | InstShl | InstShld
  | InstShr | InstShrd | InstShufpd | InstShufps | InstSidt | InstSkinit | InstSldt | InstSmsw
  | InstSqrtpd | InstSqrtps | InstSqrtsd | InstSqrtss | InstStc | InstStd | InstStgi | InstSti
  | InstStmxcsr | InstStosb | InstStosd | InstStosq | InstStosw | InstStr | InstSub | InstSubpd
  | InstSubps | InstSubsd | InstSubss | InstSwapgs | InstSyscall | InstSysenter | InstSysexit
  | InstSysret | InstTest | InstUcomisd | InstUcomiss | InstUd2 | InstUnpckhpd | InstUnpckhps
  | InstUnpcklpd | InstUnpcklps | InstVerr | InstVerw | InstVmload | InstVmmcall | InstVmrun
  | InstVmsave | InstWbinvd | InstWrmsr | InstXadd | InstXchg | InstXlat | InstXor | InstXorpd
  | InstXorps.

(** The number of a mnemonic decides equality. *)
Definition mnemonic_index (n : NaClMnemonic) : Z :=
  match n with
  | InstAaa => 0 | InstAad => 1 | InstAam => 2 | InstAas => 3 | InstAdc => 4 | InstAdd => 5
  | InstAddpd => 6 | InstAddps => 7 | InstAddsd => 8 | InstAddss => 9 | InstAddsubpd => 10
  | InstAddsubps => 11 | InstAnd => 12 | InstAndnpd => 13 | InstAndnps => 14 | InstAndpd => 15
  | InstAndps => 16 | InstArpl => 17 | InstBlendpd => 18 | InstBlendps => 19 | InstBlendvpd => 20
  | InstBlendvps => 21 | InstBound => 22 | InstBsf => 23 | InstBsr => 24 | InstBswap => 25
  | InstBt => 26 | InstBtc => 27 | InstBtr => 28 | InstBts => 29 | InstCall => 30 | InstCbw => 31
  | InstCdq => 32 | InstCdqe => 33 | InstClc => 34 | InstCld => 35 | InstClflush => 36
  | InstClgi => 37 | InstCli => 38 | InstClts => 39 | InstCmc => 40 | InstCmovb => 41
  | InstCmovbe => 42 | InstCmovl => 43 | InstCmovle => 44 | InstCmovnb => 45 | InstCmovnbe => 46
  | InstCmovnl => 47 | InstCmovnle => 48 | InstCmovno => 49 | InstCmovnp => 50 | InstCmovns => 51
  | InstCmovnz => 52 | InstCmovo => 53 | InstCmovp => 54 | InstCmovs => 55 | InstCmovz => 56
  | InstCmp => 57 | InstCmppd => 58 | InstCmpps => 59 | InstCmpsb => 60 | InstCmpsd => 61
  | InstCmpsd_xmm => 62 | InstCmpsq => 63 | InstCmpss => 64 | InstCmpsw => 65 | InstCmpxchg => 66
  | InstCmpxchg16b => 67 | InstCmpxchg8b => 68 | InstComisd => 69 | InstComiss => 70
  | InstCpuid => 71 | InstCqo => 72 | InstCrc32 => 73 | InstCvtdq2pd => 74 | InstCvtdq2ps => 75
  | InstCvtpd2dq => 76 | InstCvtpd2pi => 77 | InstCvtpd2ps => 78 | InstCvtpi2pd => 79
  | InstCvtpi2ps => 80 | InstCvtps2dq => 81 | InstCvtps2pd => 82 | InstCvtps2pi => 83
  | InstCvtsd2pi => 84 | InstCvtsd2si => 85 | InstCvtsd2ss => 86 | InstCvtsi2sd => 87
  | InstCvtsi2ss => 88 | InstCvtss2sd => 89 | InstCvtss2si => 90 | InstCvttpd2dq => 91
  | InstCvttpd2pi => 92 | InstCvttps2dq => 93 | InstCvttps2pi => 94 | InstCvttsd2pi => 95
  | InstCvttsd2si => 96 | InstCvttss2si => 97 | InstCwd => 98 | InstCwde => 99 | InstDaa => 100
  | InstDas => 101 | InstDec => 102 | InstDiv => 103 | InstDivpd => 104 | InstDivps => 105
  | InstDivsd => 106 | InstDivss => 107 | InstDontCare => 108 | InstDontCareCondJump => 109
  | InstDontCareJump => 110 | InstDppd => 111 | InstDpps => 112 | InstEmms => 113
  | InstEnter => 114 | InstExtractps => 115 | InstExtrq => 116 | InstF2xm1 => 117 | InstFabs => 118
  | InstFadd => 119 | InstFaddp => 120 | InstFbld => 121 | InstFbstp => 122 | InstFchs => 123
  | InstFcmovb => 124 | InstFcmovbe => 125 | InstFcmove => 126 | InstFcmovnb => 127
  | InstFcmovnbe => 128 | InstFcmovne => 129 | InstFcmovnu => 130 | InstFcmovu => 131
  | InstFcom => 132 | InstFcomi => 133 | InstFcomip => 134 | InstFcomp => 135 | InstFcompp => 136
  | InstFcos => 137 | InstFdecstp => 138 | InstFdiv => 139 | InstFdivp => 140 | InstFdivr => 141
  | InstFdivrp => 142 | InstFemms => 143 | InstFfree => 144 | InstFiadd => 145 | InstFicom => 146
  | InstFicomp => 147 | InstFidiv => 148 | InstFidivr => 149 | InstFild => 150 | InstFimul => 151
  | InstFincstp => 152 | InstFist => 153 | InstFistp => 154 | InstFisttp => 155 | InstFisub => 156
  | InstFisubr => 157 | InstFld => 158 | InstFld1 => 159 | InstFldcw => 160 | InstFldenv => 161
  | InstFldl2e => 162 | InstFldl2t => 163 | InstFldlg2 => 164 | InstFldln2 => 165
  | InstFldpi => 166 | InstFldz => 167 | InstFmul => 168 | InstFmulp => 169 | InstFnclex => 170
  | InstFninit => 171 | InstFnop => 172 | InstFnsave => 173 | InstFnstcw => 174
  | InstFnstenv => 175 | InstFnstsw => 176 | InstFpatan => 177 | InstFprem => 178
  | InstFprem1 => 179 | InstFptan => 180 | InstFrndint => 181 | InstFrstor => 182
  | InstFscale => 183 | InstFsin => 184 | InstFsincos => 185 | InstFsqrt => 186 | InstFst => 187
  | InstFstp => 188 | InstFsub => 189 | InstFsubp => 190 | InstFsubr => 191 | InstFsubrp => 192
  | InstFtst => 193 | InstFucom => 194 | InstFucomi => 195 | InstFucomip => 196 | InstFucomp => 197
  | InstFucompp => 198 | InstFwait => 199 | InstFxam => 200 | InstFxch => 201 | InstFxrstor => 202
  | InstFxsave => 203 | InstFxtract => 204 | InstFyl2x => 205 | InstFyl2xp1 => 206
  | InstHaddpd => 207 | InstHaddps => 208 | InstHlt => 209 | InstHsubpd => 210 | InstHsubps => 211
  | InstIdiv => 212 | InstImul => 213 | InstIn => 214 | InstInc => 215 | InstInsb => 216
  | InstInsd => 217 | InstInsertps => 218 | InstInsertq => 219 | InstInsw => 220 | InstInt => 221
  | InstInt1 => 222 | InstInt3 => 223 | InstInto => 224 | InstInvalid => 225 | InstInvd => 226
  | InstInvept => 227 | InstInvlpg => 228 | InstInvlpga => 229 | InstInvvpid => 230
  | InstIret => 231 | InstIretd => 232 | InstIretq => 233 | InstJb => 234 | InstJbe => 235
  | InstJcxz => 236 | InstJecxz => 237 | InstJl => 238 | InstJle => 239 | InstJmp => 240
  | InstJnb => 241 | InstJnbe => 242 | InstJnl => 243 | InstJnle => 244 | InstJno => 245
  | InstJnp => 246 | InstJns => 247 | InstJnz => 248 | InstJo => 249 | InstJp => 250
  | InstJrcxz => 251 | InstJs => 252 | InstJz => 253 | InstLahf => 254 | InstLar => 255
  | InstLddqu => 256 | InstLdmxcsr => 257 | InstLds => 258 | InstLea => 259 | InstLeave => 260
  | InstLes => 261 | InstLfence => 262 | InstLfs => 263 | InstLgdt => 264 | InstLgs => 265
  | InstLidt => 266 | InstLldt => 267 | InstLmsw => 268 | InstLodsb => 269 | InstLodsd => 270
  | InstLodsq => 271 | InstLodsw => 272 | InstLoop => 273 | InstLoope => 274 | InstLoopne => 275
  | InstLsl => 276 | InstLss => 277 | InstLtr => 278 | InstLzcnt => 279 | InstMaskmovdqu => 280
  | InstMaskmovq => 281 | InstMaxpd => 282 | InstMaxps => 283 | InstMaxsd => 284 | InstMaxss => 285
  | InstMfence => 286 | InstMinpd => 287 | InstMinps => 288 | InstMinsd => 289 | InstMinss => 290
  | InstMonitor => 291 | InstMov => 292 | InstMovapd => 293 | InstMovaps => 294 | InstMovbe => 295
  | InstMovd => 296 | InstMovddup => 297 | InstMovdq => 298 | InstMovdq2q => 299
  | InstMovdqa => 300 | InstMovdqu => 301 | InstMovhlps => 302 | InstMovhpd => 303
  | InstMovhps => 304 | InstMovlhps => 305 | InstMovlpd => 306 | InstMovlps => 307
  | InstMovmskpd => 308 | InstMovmskps => 309 | InstMovntdq => 310 | InstMovntdqa => 311
  | InstMovnti => 312 | InstMovntpd => 313 | InstMovntps => 314 | InstMovntq => 315
  | InstMovntsd => 316 | InstMovntss => 317 | InstMovq => 318 | InstMovq2dq => 319
  | InstMovsb => 320 | InstMovsd => 321 | InstMovshdup => 322 | InstMovsldup => 323
  | InstMovsq => 324 | InstMovss => 325 | InstMovsw => 326 | InstMovsx => 327 | InstMovsxd => 328
  | InstMovupd => 329 | InstMovups => 330 | InstMovzx => 331 | InstMpsadbw => 332 | InstMul => 333
  | InstMulpd => 334 | InstMulps => 335 | InstMulsd => 336 | InstMulss => 337 | InstMwait => 338
  | InstNeg => 339 | InstNop => 340 | InstNot => 341 | InstOr => 342 | InstOrpd => 343
  | InstOrps => 344 | InstOut => 345 | InstOutsb => 346 | InstOutsd => 347 | InstOutsw => 348
  | InstPabsb => 349 | InstPabsd => 350 | InstPabsw => 351 | InstPackssdw => 352
  | InstPacksswb => 353 | InstPackusdw => 354 | InstPackuswb => 355 | InstPaddb => 356
  | InstPaddd => 357 | InstPaddq => 358 | InstPaddsb => 359 | InstPaddsw => 360
  | InstPaddusb => 361 | InstPaddusw => 362 | InstPaddw => 363 | InstPalignr => 364
  | InstPand => 365 | InstPandn => 366 | InstPause => 367 | InstPavgb => 368 | InstPavgusb => 369
  | InstPavgw => 370 | InstPblendvb => 371 | InstPblendw => 372 | InstPcmpeqb => 373
  | InstPcmpeqd => 374 | InstPcmpeqq => 375 | InstPcmpeqw => 376 | InstPcmpestri => 377
  | InstPcmpestrm => 378 | InstPcmpgtb => 379 | InstPcmpgtd => 380 | InstPcmpgtq => 381
  | InstPcmpgtw => 382 | InstPcmpistri => 383 | InstPcmpistrm => 384 | InstPextrb => 385
  | InstPextrd => 386 | InstPextrq => 387 | InstPextrw => 388 | InstPf2id => 389 | InstPf2iw => 390
  | InstPfacc => 391 | InstPfadd => 392 | InstPfcmpeq => 393 | InstPfcmpge => 394
  | InstPfcmpgt => 395 | InstPfmax => 396 | InstPfmin => 397 | InstPfmul => 398 | InstPfnacc => 399
  | InstPfpnacc => 400 | InstPfrcp => 401 | InstPfrcpit1 => 402 | InstPfrcpit2 => 403
  | InstPfrsqit1 => 404 | InstPfrsqrt => 405 | InstPfsub => 406 | InstPfsubr => 407
  | InstPhaddd => 408 | InstPhaddsw => 409 | InstPhaddw => 410 | InstPhminposuw => 411
  | InstPhsubd => 412 | InstPhsubsw => 413 | InstPhsubw => 414 | InstPi2fd => 415
  | InstPi2fw => 416 | InstPinsrb => 417 | InstPinsrd => 418 | InstPinsrq => 419
  | InstPinsrw => 420 | InstPmaddubsw => 421 | InstPmaddwd => 422 | InstPmaxsb => 423
  | InstPmaxsd => 424 | InstPmaxsw => 425 | InstPmaxub => 426 | InstPmaxud => 427
  | InstPmaxuw => 428 | InstPminsb => 429 | InstPminsd => 430 | InstPminsw => 431
  | InstPminub => 432 | InstPminud => 433 | InstPminuw => 434 | InstPmovmskb => 435
  | InstPmovsxbd => 436 | InstPmovsxbq => 437 | InstPmovsxbw => 438 | InstPmovsxdq => 439
  | InstPmovsxwd => 440 | InstPmovsxwq => 441 | InstPmovzxbd => 442 | InstPmovzxbq => 443
  | InstPmovzxbw => 444 | InstPmovzxdq => 445 | InstPmovzxwd => 446 | InstPmovzxwq => 447
  | InstPmuldq => 448 | InstPmulhrsw => 449 | InstPmulhrw => 450 | InstPmulhuw => 451
  | InstPmulhw => 452 | InstPmulld => 453 | InstPmullw => 454 | InstPmuludq => 455 | InstPop => 456
  | InstPopa => 457 | InstPopad => 458 | InstPopcnt => 459 | InstPopf => 460 | InstPopfd => 461
  | InstPopfq => 462 | InstPor => 463 | InstPrefetch_exclusive => 464
  | InstPrefetch_modified => 465 | InstPrefetch_reserved => 466 | InstPrefetchnta => 467
  | InstPrefetcht0 => 468 | InstPrefetcht1 => 469 | InstPrefetcht2 => 470 | InstPsadbw => 471
  | InstPshufb => 472 | InstPshufd => 473 | InstPshufhw => 474 | InstPshuflw => 475
  | InstPshufw => 476 | InstPsignb => 477 | InstPsignd => 478 | InstPsignw => 479
  | InstPslld => 480 | InstPslldq => 481 | InstPsllq => 482 | InstPsllw => 483 | InstPsrad => 484
  | InstPsraw => 485 | InstPsrld => 486 | InstPsrldq => 487 | InstPsrlq => 488 | InstPsrlw => 489
  | InstPsubb => 490 | InstPsubd => 491 | InstPsubq => 492 | InstPsubsb => 493 | InstPsubsw => 494
  | InstPsubusb => 495 | InstPsubusw => 496 | InstPsubw => 497 | InstPswapd => 498
  | InstPtest => 499 | InstPunpckhbd => 500 | InstPunpckhbq => 501 | InstPunpckhbw => 502
  | InstPunpckhdq => 503 | InstPunpckhqdq => 504 | InstPunpckhwd => 505 | InstPunpcklbw => 506
  | InstPunpckldq => 507 | InstPunpcklqdq => 508 | InstPunpcklwd => 509 | InstPush => 510
  | InstPusha => 511 | InstPushad => 512 | InstPushf => 513 | InstPushfd => 514 | InstPushfq => 515
  | InstPxor => 516 | InstRcl => 517 | InstRcpps => 518 | InstRcpss => 519 | InstRcr => 520
  | InstRdmsr => 521 | InstRdpmc => 522 | InstRdtsc => 523 | InstRdtscp => 524 | InstRet => 525
  | InstRol => 526 | InstRor => 527 | InstRoundpd => 528 | InstRoundps => 529 | InstRoundsd => 530
  | InstRoundss => 531 | InstRsm => 532 | InstRsqrtps => 533 | InstRsqrtss => 534 | InstSahf => 535
  | InstSalc => 536 | InstSar => 537 | InstSbb => 538 | InstScasb => 539 | InstScasd => 540
  | InstScasq => 541 | InstScasw => 542 | InstSetb => 543 | InstSetbe => 544 | InstSetl => 545
  | InstSetle => 546 | InstSetnb => 547 | InstSetnbe => 548 | InstSetnl => 549 | InstSetnle => 550
  | InstSetno => 551 | InstSetnp => 552 | InstSetns => 553 | InstSetnz => 554 | InstSeto => 555
  | InstSetp => 556 | InstSets => 557 | InstSetz => 558 | InstSfence => 559 | InstSgdt => 560
  | InstShl => 561 | InstShld => 562 | InstShr => 563 | InstShrd => 564 | InstShufpd => 565
  | InstShufps => 566 | InstSidt => 567 | InstSkinit => 568 | InstSldt => 569 | InstSmsw => 570
  | InstSqrtpd => 571 | InstSqrtps => 572 | InstSqrtsd => 573 | InstSqrtss => 574 | InstStc => 575
  | InstStd => 576 | InstStgi => 577 | InstSti => 578 | InstStmxcsr => 579 | InstStosb => 580
  | InstStosd => 581 | InstStosq => 582 | InstStosw => 583 | InstStr => 584 | InstSub => 585
  | InstSubpd => 586 | InstSubps => 587 | InstSubsd => 588 | InstSubss => 589 | InstSwapgs => 590
  | InstSyscall => 591 | InstSysenter => 592 | InstSysexit => 593 | InstSysret => 594
  | InstTest => 595 | InstUcomisd => 596 | InstUcomiss => 597 | InstUd2 => 598
  | InstUnpckhpd => 599 | InstUnpckhps => 600 | InstUnpcklpd => 601 | InstUnpcklps => 602
  | InstVerr => 603 | InstVerw => 604 | InstVmload => 605 | InstVmmcall => 606 | InstVmrun => 607
  | InstVmsave => 608 | InstWbinvd => 609 | InstWrmsr => 610 | InstXadd => 611 | InstXchg => 612
  | InstXlat => 613 | InstXor => 614 | InstXorpd => 615 | InstXorps => 616
  end.

Definition all_mnemonics : list NaClMnemonic := [
  InstAaa; InstAad; InstAam; InstAas; InstAdc; InstAdd; InstAddpd; InstAddps; InstAddsd; InstAddss;
  InstAddsubpd; InstAddsubps; InstAnd; InstAndnpd; InstAndnps; InstAndpd; InstAndps; InstArpl;
  InstBlendpd; InstBlendps; InstBlendvpd; InstBlendvps; InstBound; InstBsf; InstBsr; InstBswap;
  InstBt; InstBtc; InstBtr; InstBts; InstCall; InstCbw; InstCdq; InstCdqe; InstClc; InstCld;
  InstClflush; InstClgi; InstCli; InstClts; InstCmc; InstCmovb; InstCmovbe; InstCmovl; InstCmovle;
  InstCmovnb; InstCmovnbe; InstCmovnl; InstCmovnle; InstCmovno; InstCmovnp; InstCmovns; InstCmovnz;
  InstCmovo; InstCmovp; InstCmovs; InstCmovz; InstCmp; InstCmppd; InstCmpps; InstCmpsb; InstCmpsd;
  InstCmpsd_xmm; InstCmpsq; InstCmpss; InstCmpsw; InstCmpxchg; InstCmpxchg16b; InstCmpxchg8b;
  InstComisd; InstComiss; InstCpuid; InstCqo; InstCrc32; InstCvtdq2pd; InstCvtdq2ps; InstCvtpd2dq;
  InstCvtpd2pi; InstCvtpd2ps; InstCvtpi2pd; InstCvtpi2ps; InstCvtps2dq; InstCvtps2pd; InstCvtps2pi;
  InstCvtsd2pi; InstCvtsd2si; InstCvtsd2ss; InstCvtsi2sd; InstCvtsi2ss; InstCvtss2sd; InstCvtss2si;
  InstCvttpd2dq; InstCvttpd2pi; InstCvttps2dq; InstCvttps2pi; InstCvttsd2pi; InstCvttsd2si;
  InstCvttss2si; InstCwd; InstCwde; InstDaa; InstDas; InstDec; InstDiv; InstDivpd; InstDivps;
  InstDivsd; InstDivss; InstDontCare; InstDontCareCondJump; InstDontCareJump; InstDppd; InstDpps;
  InstEmms; InstEnter; InstExtractps; InstExtrq; InstF2xm1; InstFabs; InstFadd; InstFaddp;
  InstFbld; InstFbstp; InstFchs; InstFcmovb; InstFcmovbe; InstFcmove; InstFcmovnb; InstFcmovnbe;
  InstFcmovne; InstFcmovnu; InstFcmovu; InstFcom; InstFcomi; InstFcomip; InstFcomp; InstFcompp;
  InstFcos; InstFdecstp; InstFdiv; InstFdivp; InstFdivr; InstFdivrp; InstFemms; InstFfree;
  InstFiadd; InstFicom; InstFicomp; InstFidiv; InstFidivr; InstFild; InstFimul; InstFincstp;
  InstFist; InstFistp; InstFisttp; InstFisub; InstFisubr; InstFld; InstFld1; InstFldcw; InstFldenv;
  InstFldl2e; InstFldl2t; InstFldlg2; InstFldln2; InstFldpi; InstFldz; InstFmul; InstFmulp;
  InstFnclex; InstFninit; InstFnop; InstFnsave; InstFnstcw; InstFnstenv; InstFnstsw; InstFpatan;
  InstFprem; InstFprem1; InstFptan; InstFrndint; InstFrstor; InstFscale; InstFsin; InstFsincos;
  InstFsqrt; InstFst; InstFstp; InstFsub; InstFsubp; InstFsubr; InstFsubrp; InstFtst; InstFucom;
  InstFucomi; InstFucomip; InstFucomp; InstFucompp; InstFwait; InstFxam; InstFxch; InstFxrstor;
  InstFxsave; InstFxtract; InstFyl2x; InstFyl2xp1; InstHaddpd; InstHaddps; InstHlt; InstHsubpd;
  InstHsubps; InstIdiv; InstImul; InstIn; InstInc; InstInsb; InstInsd; InstInsertps; InstInsertq;
  InstInsw; InstInt; InstInt1; InstInt3; InstInto; InstInvalid; InstInvd; InstInvept; InstInvlpg;
  InstInvlpga; InstInvvpid; InstIret; InstIretd; InstIretq; InstJb; InstJbe; InstJcxz; InstJecxz;
  InstJl; InstJle; InstJmp; InstJnb; InstJnbe; InstJnl; InstJnle; InstJno; InstJnp; InstJns;
  InstJnz; InstJo; InstJp; InstJrcxz; InstJs; InstJz; InstLahf; InstLar; InstLddqu; InstLdmxcsr;
  InstLds; InstLea; InstLeave; InstLes; InstLfence; InstLfs; InstLgdt; InstLgs; InstLidt; InstLldt;
  InstLmsw; InstLodsb; InstLodsd; InstLodsq; InstLodsw; InstLoop; InstLoope; InstLoopne; InstLsl;
  InstLss; InstLtr; InstLzcnt; InstMaskmovdqu; InstMaskmovq; InstMaxpd; InstMaxps; InstMaxsd;
  InstMaxss; InstMfence; InstMinpd; InstMinps; InstMinsd; InstMinss; InstMonitor; InstMov;
  InstMovapd; InstMovaps; InstMovbe; InstMovd; InstMovddup; InstMovdq; InstMovdq2q; InstMovdqa;
  InstMovdqu; InstMovhlps; InstMovhpd; InstMovhps; InstMovlhps; InstMovlpd; InstMovlps;
  InstMovmskpd; InstMovmskps; InstMovntdq; InstMovntdqa; InstMovnti; InstMovntpd; InstMovntps;
  InstMovntq; InstMovntsd; InstMovntss; InstMovq; InstMovq2dq; InstMovsb; InstMovsd; InstMovshdup;
  InstMovsldup; InstMovsq; InstMovss; InstMovsw; InstMovsx; InstMovsxd; InstMovupd; InstMovups;
  InstMovzx; InstMpsadbw; InstMul; InstMulpd; InstMulps; InstMulsd; InstMulss; InstMwait; InstNeg;
  InstNop; InstNot; InstOr; InstOrpd; InstOrps; InstOut; InstOutsb; InstOutsd; InstOutsw;
  InstPabsb; InstPabsd; InstPabsw; InstPackssdw; InstPacksswb; InstPackusdw; InstPackuswb;
  InstPaddb; InstPaddd; InstPaddq; InstPaddsb; InstPaddsw; InstPaddusb; InstPaddusw; InstPaddw;
  InstPalignr; InstPand; InstPandn; InstPause; InstPavgb; InstPavgusb; InstPavgw; InstPblendvb;
  InstPblendw; InstPcmpeqb; InstPcmpeqd; InstPcmpeqq; InstPcmpeqw; InstPcmpestri; InstPcmpestrm;
  InstPcmpgtb; InstPcmpgtd; InstPcmpgtq; InstPcmpgtw; InstPcmpistri; InstPcmpistrm; InstPextrb;
  InstPextrd; InstPextrq; InstPextrw; InstPf2id; InstPf2iw; InstPfacc; InstPfadd; InstPfcmpeq;
  InstPfcmpge; InstPfcmpgt; InstPfmax; InstPfmin; InstPfmul; InstPfnacc; InstPfpnacc; InstPfrcp;
  InstPfrcpit1; InstPfrcpit2; InstPfrsqit1; InstPfrsqrt; InstPfsub; InstPfsubr; InstPhaddd;
  InstPhaddsw; InstPhaddw; InstPhminposuw; InstPhsubd; InstPhsubsw; InstPhsubw; InstPi2fd;
  InstPi2fw; InstPinsrb; InstPinsrd; InstPinsrq; InstPinsrw; InstPmaddubsw; InstPmaddwd;
  InstPmaxsb; InstPmaxsd; InstPmaxsw; InstPmaxub; InstPmaxud; InstPmaxuw; InstPminsb; InstPminsd;
  InstPminsw; InstPminub; InstPminud; InstPminuw; InstPmovmskb; InstPmovsxbd; InstPmovsxbq;
  InstPmovsxbw; InstPmovsxdq; InstPmovsxwd; InstPmovsxwq; InstPmovzxbd; InstPmovzxbq; InstPmovzxbw;
  InstPmovzxdq; InstPmovzxwd; InstPmovzxwq; InstPmuldq; InstPmulhrsw; InstPmulhrw; InstPmulhuw;
  InstPmulhw; InstPmulld; InstPmullw; InstPmuludq; InstPop; InstPopa; InstPopad; InstPopcnt;
  InstPopf; InstPopfd; InstPopfq; InstPor; InstPrefetch_exclusive; InstPrefetch_modified;
  InstPrefetch_reserved; InstPrefetchnta; InstPrefetcht0; InstPrefetcht1; InstPrefetcht2;
  InstPsadbw; InstPshufb; InstPshufd; InstPshufhw; InstPshuflw; InstPshufw; InstPsignb; InstPsignd;
  InstPsignw; InstPslld; InstPslldq; InstPsllq; InstPsllw; InstPsrad; InstPsraw; InstPsrld;
  InstPsrldq; InstPsrlq; InstPsrlw; InstPsubb; InstPsubd; InstPsubq; InstPsubsb; InstPsubsw;
  InstPsubusb; InstPsubusw; InstPsubw; InstPswapd; InstPtest; InstPunpckhbd; InstPunpckhbq;
  InstPunpckhbw; InstPunpckhdq; InstPunpckhqdq; InstPunpckhwd; InstPunpcklbw; InstPunpckldq;
  InstPunpcklqdq; InstPunpcklwd; InstPush; InstPusha; InstPushad; InstPushf; InstPushfd;
  InstPushfq; InstPxor; InstRcl; InstRcpps; InstRcpss; InstRcr; InstRdmsr; InstRdpmc; InstRdtsc;
  InstRdtscp; InstRet; InstRol; InstRor; InstRoundpd; InstRoundps; InstRoundsd; InstRoundss;
  InstRsm; InstRsqrtps; InstRsqrtss; InstSahf; InstSalc; InstSar; InstSbb; InstScasb; InstScasd;
  InstScasq; InstScasw; InstSetb; InstSetbe; InstSetl; InstSetle; InstSetnb; InstSetnbe; InstSetnl;
  InstSetnle; InstSetno; InstSetnp; InstSetns; InstSetnz; InstSeto; InstSetp; InstSets; InstSetz;
  InstSfence; InstSgdt; InstShl; InstShld; InstShr; InstShrd; InstShufpd; InstShufps; InstSidt;
  InstSkinit; InstSldt; InstSmsw; InstSqrtpd; InstSqrtps; InstSqrtsd; InstSqrtss; InstStc; InstStd;
  InstStgi; InstSti; InstStmxcsr; InstStosb; InstStosd; InstStosq; InstStosw; InstStr; InstSub;
  InstSubpd; InstSubps; InstSubsd; InstSubss; InstSwapgs; InstSyscall; InstSysenter; InstSysexit;
  InstSysret; InstTest; InstUcomisd; InstUcomiss; InstUd2; InstUnpckhpd; InstUnpckhps;
  InstUnpcklpd; InstUnpcklps; InstVerr; InstVerw; InstVmload; InstVmmcall; InstVmrun; InstVmsave;
  InstWbinvd; InstWrmsr; InstXadd; InstXchg; InstXlat; InstXor; InstXorpd; InstXorps
].

Definition mnemonic_eqb (a b : NaClMnemonic) : bool := mnemonic_index a =? mnemonic_index b.

Lemma mnemonic_at n : all_mnemonics !! Z.to_nat (mnemonic_index n) = Some n.
Proof. destruct n; reflexivity. Qed.

Lemma mnemonic_eqb_eq a b : mnemonic_eqb a b = true <-> a = b.
Proof.
  unfold mnemonic_eqb. split; [|intros ->; apply Z.eqb_refl].
  intros H%Z.eqb_eq. pose proof (mnemonic_at a) as Ha. rewrite H, mnemonic_at in Ha. by injection Ha.
Qed.
