(* ===== verification/DecodeTables.v ===== *)
(** * The decoder's description of instructions

    ncopcode_desc.h, nc_decode_tables.h: operands, instruction patterns, the
    lookup by prefix and opcode byte, and the trie of hard coded sequences.
    Pointers into a table are offsets.  A pointer to a pattern, [InstPtr],
    carries the pattern it points to beside its offset: the tables are
    constant, and the code compares such pointers. *)

From S2P Require Import Prelude Effects Stateful OpKinds.

(** The format string, used for printing only, is left out. *)
Record NaClOp := mkOp { op_kind : NaClOpKind; op_flags : Z }.

Record NaClInst := mkInst {
  insttype : NaClInstType;
  inst_flags : Z;
  inst_name : NaClMnemonic;
  opcode_ext : Z;
  num_operands : Z;
  operands_offset : Z;
  next_rule : Z;
}.

Record NaClInstNode := mkNode {
  matching_byte : Z;
  matching_inst : Z;
  on_success : option Z;
  on_fail : option Z;
}.

Record NaClPrefixOpcodeSelector := mkSelector {
  table_offset : Z;
  first_opcode : Z;
  last_opcode : Z;
}.

Record NaClDecodeTables := mkTables {
  operands_table : list NaClOp;
  opcodes_table : list NaClInst;
  opcode_entries : list Z;
  opcode_selectors : list NaClPrefixOpcodeSelector;
  undefined : Z;
  prefix_mask_table : list Z;
  hard_coded : list NaClInstNode;
}.

Definition NACL_OPCODE_NULL_OFFSET : Z := 65535.
Definition NACL_MAX_BYTES_PER_X86_INSTRUCTION : Z := 15.

Record InstPtr := mkInstPtr { inst_offset : Z; inst_at : NaClInst }.

Definition opcode_ptr (tables : NaClDecodeTables) (offset : Z) : outcome InstPtr :=
  match index (opcodes_table tables) offset with
  | Ret i => Ret (mkInstPtr offset i)
  | Fault f => Fault f
  end.

(** ** Accessors: ncopcode_desc.c, x86_insts.c *)

Definition NaClGetOpcodeInModRm (opcode_ext : Z) : Z := Z.land opcode_ext 15.
Definition NaClGetOpcodeInModRmRm (opcode_ext : Z) : Z := Z.land (Z.shiftr opcode_ext 4) 15.
Definition NaClGetOpcodePlusR (opcode_ext : Z) : Z := Z.land opcode_ext 15.

Definition NaClGetInstNumberOperandsInline (i : NaClInst) : Z := num_operands i.

Definition NaClGetInstOperandInline (tables : NaClDecodeTables) (i : NaClInst) (idx : Z) : outcome NaClOp :=
  if idx <? num_operands i then index (operands_table tables) (operands_offset i + idx)
  else Fault (CheckFailed "index < inst->num_operands").

Definition modrm_modInline (modrm : Z) : Z := Z.land (Z.shiftr modrm 6) 3.
Definition modrm_rmInline (modrm : Z) : Z := Z.land modrm 7.
Definition modrm_regInline (modrm : Z) : Z := Z.land (Z.shiftr modrm 3) 7.
Definition modrm_opcodeInline (modrm : Z) : Z := modrm_regInline modrm.
Definition sib_ss (sib : Z) : Z := Z.land (Z.shiftr sib 6) 3.
Definition sib_index (sib : Z) : Z := Z.land (Z.shiftr sib 3) 7.
Definition sib_base (sib : Z) : Z := Z.land sib 7.
Definition NaClRexW (prefix : Z) : bool := NaClHasBit prefix 8.

(** ** Looking up patterns: nc_inst_state_statics.c *)

(** The pattern at an offset, NULL for the null offset. *)
Definition NaClGetOpcodeInst (tables : NaClDecodeTables) (offset : Z) : outcome (option InstPtr) :=
  if offset =? NACL_OPCODE_NULL_OFFSET then Ret None
  else match opcode_ptr tables offset with Ret p => Ret (Some p) | Fault f => Fault f end.

(** The first pattern for a prefix selector and an opcode byte. *)
Definition NaClGetPrefixOpcodeInst (tables : NaClDecodeTables) (prefix opcode : Z) : outcome (option InstPtr) :=
  match index (opcode_selectors tables) prefix with
  | Fault f => Fault f
  | Ret selector =>
      if (first_opcode selector <=? opcode) && (opcode <=? last_opcode selector) then
        match index (opcode_entries tables) (table_offset selector + (opcode - first_opcode selector)) with
        | Ret offset => NaClGetOpcodeInst tables offset
        | Fault f => Fault f
        end
      else Ret None
  end.
