(* ===== verification/OpcodeTable.v ===== *)
(** * The tables of the validator

    The constant tables of ncval_reg_sfi_opcode_table_64.h, which
    ncval_decode_tables.c makes into [kNaClValDecoderTables], and the register
    tables of nacl_regs64.h and nc_subregs_64.h.  The long arrays are given in
    parts of consecutive entries. *)

From S2P Require Import Prelude Effects Stateful OpKinds DecodeTables.

Definition g_Operands_0 : list NaClOp := [
  mkOp E_Operand (FLAGS [OpUse; OpSet]);
  mkOp G_Operand (FLAGS [OpUse]);
  mkOp E_Operand (FLAGS [OpUse; OpSet; OperandZeroExtends_v]);
  mkOp G_Operand (FLAGS [OpUse]);
  mkOp G_Operand (FLAGS [OpUse; OpSet]);
  mkOp E_Operand (FLAGS [OpUse]);
  mkOp G_Operand (FLAGS [OpUse; OpSet; OperandZeroExtends_v]);
  mkOp E_Operand (FLAGS [OpUse]);
  mkOp RegAL (FLAGS [OpUse; OpSet]);
  mkOp I_Operand (FLAGS [OpUse]);
  mkOp RegREAX (FLAGS [OpUse; OpSet; OperandZeroExtends_v]);
  mkOp I_Operand (FLAGS [OpUse]);
  mkOp E_Operand (FLAGS [OpUse; OpSet]);
  mkOp G_Operand (FLAGS [OpUse]);
  mkOp G_Operand (FLAGS [OpUse; OpSet]);
  mkOp E_Operand (FLAGS [OpUse]);
  mkOp RegREAX (FLAGS [OpUse; OpSet]);
  mkOp I_Operand (FLAGS [OpUse]);
  mkOp E_Operand (FLAGS [OpUse]);
  mkOp G_Operand (FLAGS [OpUse]);
  mkOp E_Operand (FLAGS [OpUse]);
  mkOp G_Operand (FLAGS [OpUse]);
  mkOp G_Operand (FLAGS [OpUse]);
  mkOp E_Operand (FLAGS [OpUse]);
  mkOp G_Operand (FLAGS [OpUse]);
  mkOp E_Operand (FLAGS [OpUse]);
  mkOp RegAL (FLAGS [OpUse]);
  mkOp I_Operand (FLAGS [OpUse]);
  mkOp RegREAX (FLAGS [OpUse]);
  mkOp I_Operand (FLAGS [OpUse]);
  mkOp RegRSP (FLAGS [OpUse; OpSet; OpImplicit]);
  mkOp G_OpcodeBase (FLAGS [OpUse]);
  mkOp RegRSP (FLAGS [OpUse; OpSet; OpImplicit]);
  mkOp G_OpcodeBase (FLAGS [OpSet]);
  mkOp G_Operand (FLAGS [OpSet; OperandZeroExtends_v]);
  mkOp Ev_Operand (FLAGS [OpUse]);
  mkOp RegRSP (FLAGS [OpUse; OpSet; OpImplicit]);
  mkOp I_Operand (FLAGS [OpUse]);
  mkOp G_Operand (FLAGS [OpSet; OperandZeroExtends_v]);
  mkOp E_Operand (FLAGS [OpUse]);
  mkOp I_Operand (FLAGS [OpUse]);
  mkOp RegRSP (FLAGS [OpUse; OpSet; OpImplicit]);
  mkOp I_Operand (FLAGS [OpUse]);
  mkOp G_Operand (FLAGS [OpSet; OperandZeroExtends_v]);
  mkOp E_Operand (FLAGS [OpUse]);
  mkOp I_Operand (FLAGS [OpUse]);
  mkOp RegRIP (FLAGS [OpSet]);
  mkOp J_Operand (FLAGS [OpUse; OperandNear; OperandRelative]);
  mkOp E_Operand (FLAGS [OpUse]);
  mkOp I_Operand (FLAGS [OpUse]);
  mkOp E_Operand (FLAGS [OpUse; OpSet]);
  mkOp I_Operand (FLAGS [OpUse]);
  mkOp E_Operand (FLAGS [OpUse; OpSet; OperandZeroExtends_v]);
  mkOp I_Operand (FLAGS [OpUse]);
  mkOp E_Operand (FLAGS [OpUse; OpSet]);
  mkOp I_Operand (FLAGS [OpUse]);
  mkOp E_Operand (FLAGS [OpUse; OpSet; OperandZeroExtends_v]);
  mkOp I_Operand (FLAGS [OpUse]);
  mkOp E_Operand (FLAGS [OpUse; OpSet]);
  mkOp I_Operand (FLAGS [OpUse]);
  mkOp E_Operand (FLAGS [OpUse; OpSet]);
  mkOp G_Operand (FLAGS [OpUse; OpSet]);
  mkOp E_Operand (FLAGS [OpUse; OpSet; OperandZeroExtends_v]);
  mkOp G_Operand (FLAGS [OpUse; OpSet; OperandZeroExtends_v]);
  mkOp E_Operand (FLAGS [OpSet]);
  mkOp G_Operand (FLAGS [OpUse]);
  mkOp E_Operand (FLAGS [OpSet; OperandZeroExtends_v]);
  mkOp G_Operand (FLAGS [OpUse]);
  mkOp G_Operand (FLAGS [OpSet]);
  mkOp E_Operand (FLAGS [OpUse]);
  mkOp G_Operand (FLAGS [OpSet; OperandZeroExtends_v]);
  mkOp M_Operand (FLAGS [OpAddress]);
  mkOp RegRSP (FLAGS [OpUse; OpSet; OpImplicit]);
  mkOp E_Operand (FLAGS [OpSet]);
  mkOp G_OpcodeBase (FLAGS [OpUse; OpSet; OperandZeroExtends_v]);
  mkOp RegREAX (FLAGS [OpUse; OpSet; OperandZeroExtends_v]);
  mkOp RegRAX (FLAGS [OpSet]);
  mkOp RegEAX (FLAGS [OpUse]);
  mkOp RegEAX (FLAGS [OpSet; OperandSignExtends_v]);
  mkOp RegAX (FLAGS [OpUse]);
  mkOp RegAX (FLAGS [OpSet]);
  mkOp RegAL (FLAGS [OpUse]);
  mkOp RegRDX (FLAGS [OpSet]);
  mkOp RegRAX (FLAGS [OpUse]);
  mkOp RegEDX (FLAGS [OpSet]);
  mkOp RegEAX (FLAGS [OpUse]);
  mkOp RegDX (FLAGS [OpSet]);
  mkOp RegAX (FLAGS [OpUse]);
  mkOp RegAL (FLAGS [OpSet]);
  mkOp O_Operand (FLAGS [OpUse]);
  mkOp RegREAX (FLAGS [OpSet; OperandZeroExtends_v]);
  mkOp O_Operand (FLAGS [OpUse]);
  mkOp O_Operand (FLAGS [OpSet]);
  mkOp RegAL (FLAGS [OpUse]);
  mkOp O_Operand (FLAGS [OpSet; OperandZeroExtends_v]);
  mkOp RegREAX (FLAGS [OpUse]);
  mkOp RegES_EDI (FLAGS [OpSet]);
  mkOp RegDS_ESI (FLAGS [OpUse]);
  mkOp RegES_EDI (FLAGS [OpSet]);
  mkOp RegDS_ESI (FLAGS [OpUse]);
  mkOp RegES_EDI (FLAGS [OpSet]);
  mkOp RegDS_ESI (FLAGS [OpUse]);
  mkOp RegES_EDI (FLAGS [OpSet]);
  mkOp RegDS_ESI (FLAGS [OpUse]);
  mkOp RegES_EDI (FLAGS [OpUse]);
  mkOp RegDS_ESI (FLAGS [OpUse]);
  mkOp RegES_EDI (FLAGS [OpUse]);
  mkOp RegDS_ESI (FLAGS [OpUse]);
  mkOp RegES_EDI (FLAGS [OpUse]);
  mkOp RegDS_ESI (FLAGS [OpUse]);
  mkOp RegES_EDI (FLAGS [OpUse]);
  mkOp RegDS_ESI (FLAGS [OpUse]);
  mkOp RegES_EDI (FLAGS [OpSet]);
  mkOp RegAL (FLAGS [OpUse]);
  mkOp RegES_EDI (FLAGS [OpSet]);
  mkOp RegRAX (FLAGS [OpUse]);
  mkOp RegES_EDI (FLAGS [OpSet]);
  mkOp RegEAX (FLAGS [OpUse]);
  mkOp RegES_EDI (FLAGS [OpSet]);
  mkOp RegAX (FLAGS [OpUse]);
  mkOp RegAL (FLAGS [OpSet]);
  mkOp RegDS_ESI (FLAGS [OpUse]);
  mkOp RegRAX (FLAGS [OpSet]);
  mkOp RegDS_ESI (FLAGS [OpUse]);
  mkOp RegEAX (FLAGS [OpSet]);
  mkOp RegDS_ESI (FLAGS [OpUse]);
  mkOp RegAX (FLAGS [OpSet]);
  mkOp RegDS_ESI (FLAGS [OpUse]);
  mkOp RegAL (FLAGS [OpUse]);
  mkOp RegES_EDI (FLAGS [OpUse]);
  mkOp RegRAX (FLAGS [OpUse]);
  mkOp RegES_EDI (FLAGS [OpUse]);
  mkOp RegEAX (FLAGS [OpUse]);
  mkOp RegES_EDI (FLAGS [OpUse]);
  mkOp RegAX (FLAGS [OpUse]);
  mkOp RegES_EDI (FLAGS [OpUse]);
  mkOp G_OpcodeBase (FLAGS [OpSet]);
  mkOp I_Operand (FLAGS [OpUse]);
  mkOp G_OpcodeBase (FLAGS [OpSet; OperandZeroExtends_v]);
  mkOp I_Operand (FLAGS [OpUse]);
  mkOp E_Operand (FLAGS [OpSet]);
  mkOp I_Operand (FLAGS [OpUse]);
  mkOp E_Operand (FLAGS [OpSet; OperandZeroExtends_v]);
  mkOp I_Operand (FLAGS [OpUse]);
  mkOp E_Operand (FLAGS [OpUse; OpSet]);
  mkOp Const_1 (FLAGS [OpUse]);
  mkOp E_Operand (FLAGS [OpUse; OpSet]);
  mkOp Const_1 (FLAGS [OpUse]);
  mkOp E_Operand (FLAGS [OpUse; OpSet]);
  mkOp RegCL (FLAGS [OpUse])
].

Definition g_Operands_1 : list NaClOp := [
  mkOp E_Operand (FLAGS [OpUse; OpSet]);
  mkOp RegCL (FLAGS [OpUse]);
  mkOp Mv_Operand (FLAGS [OpUse]);
  mkOp Mw_Operand (FLAGS [OpSet]);
  mkOp M_Operand (FLAGS [OpSet]);
  mkOp Mw_Operand (FLAGS [OpUse]);
  mkOp M_Operand (FLAGS [OpUse]);
  mkOp Mv_Operand (FLAGS [OpSet]);
  mkOp Mo_Operand (FLAGS [OpUse]);
  mkOp Mo_Operand (FLAGS [OpSet]);
  mkOp RegRIP (FLAGS [OpSet]);
  mkOp RegRCX (FLAGS [OpUse]);
  mkOp J_Operand (FLAGS [OpUse; OperandNear; OperandRelative]);
  mkOp RegRIP (FLAGS [OpSet]);
  mkOp RegECX (FLAGS [OpUse]);
  mkOp J_Operand (FLAGS [OpUse; OperandNear; OperandRelative]);
  mkOp RegRIP (FLAGS [OpUse; OpSet; OpImplicit]);
  mkOp RegRSP (FLAGS [OpUse; OpSet; OpImplicit]);
  mkOp J_Operand (FLAGS [OpUse; OperandNear; OperandRelative]);
  mkOp RegRIP (FLAGS [OpSet]);
  mkOp J_Operand (FLAGS [OpUse; OperandNear; OperandRelative]);
  mkOp RegAX (FLAGS [OpSet]);
  mkOp RegAL (FLAGS [OpUse]);
  mkOp E_Operand (FLAGS [OpUse]);
  mkOp RegREDX (FLAGS [OpSet]);
  mkOp RegREAX (FLAGS [OpUse; OpSet]);
  mkOp E_Operand (FLAGS [OpUse]);
  mkOp RegRSP (FLAGS [OpUse; OpSet; OpImplicit]);
  mkOp E_Operand (FLAGS [OpUse]);
  mkOp RegRIP (FLAGS [OpSet]);
  mkOp E_Operand (FLAGS [OpUse; OperandNear]);
  mkOp RegRIP (FLAGS [OpUse; OpSet; OpImplicit]);
  mkOp RegRSP (FLAGS [OpUse; OpSet; OpImplicit]);
  mkOp E_Operand (FLAGS [OpUse; OperandNear]);
  mkOp Ew_Operand (FLAGS [OpUse]);
  mkOp Mb_Operand 0;
  mkOp Mmx_G_Operand 0;
  mkOp Mmx_E_Operand 0;
  mkOp I_Operand 0;
  mkOp Xmm_E_Operand (FLAGS [OpUse]);
  mkOp Xmm_E_Operand (FLAGS [OpSet]);
  mkOp Xmm_E_Operand (FLAGS [OpUse]);
  mkOp Xmm_Eo_Operand (FLAGS [OpUse]);
  mkOp Mmx_E_Operand (FLAGS [OpUse]);
  mkOp Mdq_Operand (FLAGS [OpSet]);
  mkOp Xmm_E_Operand (FLAGS [OpUse]);
  mkOp RegEAX (FLAGS [OpSet]);
  mkOp RegEDX (FLAGS [OpSet]);
  mkOp G_Operand (FLAGS [OpSet]);
  mkOp E_Operand (FLAGS [OpUse]);
  mkOp Gv_Operand (FLAGS [OpSet]);
  mkOp Xmm_E_Operand (FLAGS [OpUse]);
  mkOp Xmm_E_Operand (FLAGS [OpUse]);
  mkOp Mmx_E_Operand (FLAGS [OpUse]);
  mkOp E_Operand (FLAGS [OpUse]);
  mkOp E_Operand (FLAGS [OpUse]);
  mkOp Mmx_E_Operand (FLAGS [OpUse]);
  mkOp I_Operand (FLAGS [OpUse]);
  mkOp Mmx_E_Operand (FLAGS [OpUse; OpSet]);
  mkOp I_Operand (FLAGS [OpUse]);
  mkOp E_Operand (FLAGS [OpSet]);
  mkOp E_Operand (FLAGS [OpSet; OperandZeroExtends_v]);
  mkOp Mmx_E_Operand (FLAGS [OpSet]);
  mkOp RegEBX (FLAGS [OpSet]);
  mkOp RegEDX (FLAGS [OpSet]);
  mkOp RegEAX (FLAGS [OpUse; OpSet]);
  mkOp RegECX (FLAGS [OpUse; OpSet]);
  mkOp E_Operand (FLAGS [OpSet]);
  mkOp G_Operand (FLAGS [OpUse]);
  mkOp I_Operand (FLAGS [OpUse]);
  mkOp E_Operand (FLAGS [OpSet]);
  mkOp G_Operand (FLAGS [OpUse]);
  mkOp RegCL (FLAGS [OpUse]);
  mkOp E_Operand (FLAGS [OpUse; OpSet]);
  mkOp G_Operand (FLAGS [OpUse]);
  mkOp I_Operand (FLAGS [OpUse]);
  mkOp E_Operand (FLAGS [OpUse; OpSet]);
  mkOp G_Operand (FLAGS [OpUse]);
  mkOp RegCL (FLAGS [OpUse]);
  mkOp Mb_Operand (FLAGS [OpUse]);
  mkOp RegAL (FLAGS [OpUse; OpSet]);
  mkOp E_Operand (FLAGS [OpUse; OpSet]);
  mkOp G_Operand (FLAGS [OpUse; OpSet]);
  mkOp RegREAX (FLAGS [OpUse; OpSet]);
  mkOp E_Operand (FLAGS [OpUse; OpSet]);
  mkOp G_Operand (FLAGS [OpUse; OpSet]);
  mkOp G_Operand (FLAGS [OpSet; OperandZeroExtends_v]);
  mkOp Eb_Operand (FLAGS [OpUse]);
  mkOp G_Operand (FLAGS [OpSet; OperandZeroExtends_v]);
  mkOp Ew_Operand (FLAGS [OpUse]);
  mkOp Xmm_E_Operand (FLAGS [OpUse]);
  mkOp I_Operand (FLAGS [OpUse]);
  mkOp M_Operand (FLAGS [OpSet]);
  mkOp G_Operand (FLAGS [OpUse]);
  mkOp E_Operand (FLAGS [OpUse]);
  mkOp I_Operand (FLAGS [OpUse]);
  mkOp Gv_Operand (FLAGS [OpSet]);
  mkOp Mmx_E_Operand (FLAGS [OpUse]);
  mkOp I_Operand (FLAGS [OpUse]);
  mkOp RegRDX (FLAGS [OpUse; OpSet]);
  mkOp RegEAX (FLAGS [OpUse; OpSet]);
  mkOp Mdq_Operand (FLAGS [OpUse; OpSet]);
  mkOp RegEDX (FLAGS [OpUse; OpSet]);
  mkOp RegEAX (FLAGS [OpUse; OpSet]);
  mkOp Mo_Operand (FLAGS [OpUse; OpSet]);
  mkOp G_OpcodeBase (FLAGS [OpUse; OpSet]);
  mkOp RegDS_EDI (FLAGS [OpSet]);
  mkOp Mmx_E_Operand (FLAGS [OpUse]);
  mkOp Xmm_E_Operand (FLAGS [OpUse]);
  mkOp Xmm_E_Operand (FLAGS [OpSet]);
  mkOp E_Operand (FLAGS [OpUse]);
  mkOp G_Operand (FLAGS [OpSet]);
  mkOp Xmm_E_Operand (FLAGS [OpUse]);
  mkOp Xmm_Eo_Operand (FLAGS [OpUse]);
  mkOp I_Operand (FLAGS [OpUse]);
  mkOp Xmm_E_Operand (FLAGS [OpUse]);
  mkOp I_Operand (FLAGS [OpUse]);
  mkOp I2_Operand (FLAGS [OpUse]);
  mkOp Xmm_E_Operand (FLAGS [OpUse]);
  mkOp Xmm_E_Operand (FLAGS [OpUse]);
  mkOp I_Operand (FLAGS [OpUse]);
  mkOp Xmm_E_Operand (FLAGS [OpUse]);
  mkOp Mdq_Operand (FLAGS [OpUse]);
  mkOp Xmm_E_Operand (FLAGS [OpSet]);
  mkOp G_Operand (FLAGS [OpSet]);
  mkOp Xmm_E_Operand (FLAGS [OpUse]);
  mkOp Xmm_E_Operand (FLAGS [OpSet]);
  mkOp Xmm_E_Operand (FLAGS [OpUse]);
  mkOp I_Operand (FLAGS [OpUse]);
  mkOp Xmm_E_Operand (FLAGS [OpSet]);
  mkOp Gv_Operand (FLAGS [OpSet]);
  mkOp Xmm_E_Operand (FLAGS [OpUse]);
  mkOp Xmm_E_Operand (FLAGS [OpUse]);
  mkOp I_Operand (FLAGS [OpUse]);
  mkOp Xmm_E_Operand (FLAGS [OpUse; OpSet]);
  mkOp I_Operand (FLAGS [OpUse]);
  mkOp Xmm_E_Operand (FLAGS [OpUse]);
  mkOp I_Operand (FLAGS [OpUse]);
  mkOp Gv_Operand (FLAGS [OpSet]);
  mkOp Xmm_E_Operand (FLAGS [OpUse]);
  mkOp I_Operand (FLAGS [OpUse]);
  mkOp Xmm_Eo_Operand (FLAGS [OpSet]);
  mkOp RegDS_EDI (FLAGS [OpSet]);
  mkOp Xmm_E_Operand (FLAGS [OpUse]);
  mkOp G_Operand (FLAGS [OpSet]);
  mkOp M_Operand (FLAGS [OpUse]);
  mkOp M_Operand (FLAGS [OpSet]);
  mkOp G_Operand (FLAGS [OpUse]);
  mkOp Xmm_E_Operand (FLAGS [OpUse]);
  mkOp Xmm_E_Operand (FLAGS [OpUse])
].

Definition g_Operands_2 : list NaClOp := [
  mkOp Xmm_E_Operand (FLAGS [OpUse]);
  mkOp Gv_Operand (FLAGS [OpUse; OpSet]);
  mkOp E_Operand (FLAGS [OpUse]);
  mkOp Gv_Operand (FLAGS [OpUse; OpSet]);
  mkOp E_Operand (FLAGS [OpUse]);
  mkOp Ev_Operand (FLAGS [OpSet]);
  mkOp I_Operand (FLAGS [OpUse]);
  mkOp Ev_Operand (FLAGS [OpSet]);
  mkOp I_Operand (FLAGS [OpUse]);
  mkOp E_Operand (FLAGS [OpSet]);
  mkOp I_Operand (FLAGS [OpUse]);
  mkOp E_Operand (FLAGS [OpSet]);
  mkOp I_Operand (FLAGS [OpUse]);
  mkOp Ev_Operand (FLAGS [OpSet]);
  mkOp I_Operand (FLAGS [OpUse]);
  mkOp E_Operand (FLAGS [OpUse]);
  mkOp I_Operand (FLAGS [OpUse]);
  mkOp Xmm_E_Operand (FLAGS [OpUse]);
  mkOp I_Operand (FLAGS [OpUse]);
  mkOp E_Operand (FLAGS [OpUse]);
  mkOp I_Operand (FLAGS [OpUse]);
  mkOp E_Operand (FLAGS [OpUse]);
  mkOp I_Operand (FLAGS [OpUse]);
  mkOp RegREAX (FLAGS [OpSet]);
  mkOp RegREDX (FLAGS [OpSet]);
  mkOp Xmm_E_Operand (FLAGS [OpUse]);
  mkOp I_Operand (FLAGS [OpUse]);
  mkOp RegRECX (FLAGS [OpSet]);
  mkOp RegREAX (FLAGS [OpSet]);
  mkOp RegREDX (FLAGS [OpSet]);
  mkOp Xmm_E_Operand (FLAGS [OpUse]);
  mkOp I_Operand (FLAGS [OpUse]);
  mkOp RegRECX (FLAGS [OpSet]);
  mkOp Xmm_E_Operand (FLAGS [OpUse]);
  mkOp I_Operand (FLAGS [OpUse])
].

Definition g_Operands : list NaClOp :=
  g_Operands_0 ++ g_Operands_1 ++ g_Operands_2.

Definition g_Opcodes_0 : list NaClInst := [
  mkInst NACLi_INVALID 0 InstInvalid 0 0 0 NACL_OPCODE_NULL_OFFSET;
  mkInst NACLi_386 (FLAGS [OpcodeUsesModRm; OpcodeLockable; OperandSize_b]) InstAdd 0 2 0 NACL_OPCODE_NULL_OFFSET;
  mkInst NACLi_386 (FLAGS [OpcodeUsesModRm; OpcodeLockable; OpcodeAllowsData16; OperandSize_w; OperandSize_v; OperandSize_o]) InstAdd 0 2 2 NACL_OPCODE_NULL_OFFSET;
  mkInst NACLi_386 (FLAGS [OpcodeUsesModRm; OpcodeLockable; OperandSize_b]) InstAdd 0 2 4 NACL_OPCODE_NULL_OFFSET;
  mkInst NACLi_386 (FLAGS [OpcodeUsesModRm; OpcodeLockable; OpcodeAllowsData16; OperandSize_w; OperandSize_v; OperandSize_o]) InstAdd 0 2 6 NACL_OPCODE_NULL_OFFSET;
  mkInst NACLi_386 (FLAGS [OpcodeHasImmed_b; OpcodeLockable]) InstAdd 0 2 8 NACL_OPCODE_NULL_OFFSET;
  mkInst NACLi_386 (FLAGS [OpcodeHasImmed_z; OpcodeLockable; OpcodeAllowsData16; OperandSize_w; OperandSize_v; OperandSize_o]) InstAdd 0 2 10 NACL_OPCODE_NULL_OFFSET;
  mkInst NACLi_INVALID (FLAGS [NaClIllegal]) InstInvalid 0 0 0 NACL_OPCODE_NULL_OFFSET;
  mkInst NACLi_386 (FLAGS [OpcodeUsesModRm; OpcodeLockable; OperandSize_b]) InstOr 0 2 0 NACL_OPCODE_NULL_OFFSET;
  mkInst NACLi_386 (FLAGS [OpcodeUsesModRm; OpcodeLockable; OpcodeAllowsData16; OperandSize_w; OperandSize_v; OperandSize_o]) InstOr 0 2 2 NACL_OPCODE_NULL_OFFSET;
  mkInst NACLi_386 (FLAGS [OpcodeUsesModRm; OpcodeLockable; OperandSize_b]) InstOr 0 2 4 NACL_OPCODE_NULL_OFFSET;
  mkInst NACLi_386 (FLAGS [OpcodeUsesModRm; OpcodeLockable; OpcodeAllowsData16; OperandSize_w; OperandSize_v; OperandSize_o]) InstOr 0 2 6 NACL_OPCODE_NULL_OFFSET;
  mkInst NACLi_386 (FLAGS [OpcodeHasImmed_b; OpcodeLockable]) InstOr 0 2 8 NACL_OPCODE_NULL_OFFSET;
  mkInst NACLi_386 (FLAGS [OpcodeHasImmed_z; OpcodeLockable; OpcodeAllowsData16; OperandSize_w; OperandSize_v; OperandSize_o]) InstOr 0 2 10 NACL_OPCODE_NULL_OFFSET;
  mkInst NACLi_386 (FLAGS [OpcodeUsesModRm; OpcodeLockable; OperandSize_b; PartialInstruction]) InstDontCare 0 2 0 NACL_OPCODE_NULL_OFFSET;
  mkInst NACLi_386 (FLAGS [OpcodeUsesModRm; OpcodeLockable; OpcodeAllowsData16; OperandSize_w; OperandSize_v; OperandSize_o; PartialInstruction]) InstDontCare 0 2 12 NACL_OPCODE_NULL_OFFSET;
  mkInst NACLi_386 (FLAGS [OpcodeUsesModRm; OpcodeLockable; OperandSize_b; PartialInstruction]) InstDontCare 0 2 4 NACL_OPCODE_NULL_OFFSET;
  mkInst NACLi_386 (FLAGS [OpcodeUsesModRm; OpcodeLockable; OpcodeAllowsData16; OperandSize_w; OperandSize_v; OperandSize_o; PartialInstruction]) InstDontCare 0 2 14 NACL_OPCODE_NULL_OFFSET;
  mkInst NACLi_386 (FLAGS [OpcodeHasImmed_b; OpcodeLockable; PartialInstruction]) InstDontCare 0 2 8 NACL_OPCODE_NULL_OFFSET;
  mkInst NACLi_386 (FLAGS [OpcodeHasImmed_z; OpcodeLockable; OpcodeAllowsData16; OperandSize_w; OperandSize_v; OperandSize_o; PartialInstruction]) InstDontCare 0 2 16 NACL_OPCODE_NULL_OFFSET;
  mkInst NACLi_386 (FLAGS [OpcodeUsesModRm; OpcodeLockable; OperandSize_b]) InstAnd 0 2 0 NACL_OPCODE_NULL_OFFSET;
  mkInst NACLi_386 (FLAGS [OpcodeUsesModRm; OpcodeLockable; OpcodeAllowsData16; OperandSize_w; OperandSize_v; OperandSize_o]) InstAnd 0 2 2 NACL_OPCODE_NULL_OFFSET;
  mkInst NACLi_386 (FLAGS [OpcodeUsesModRm; OpcodeLockable; OperandSize_b]) InstAnd 0 2 4 NACL_OPCODE_NULL_OFFSET;
  mkInst NACLi_386 (FLAGS [OpcodeUsesModRm; OpcodeLockable; OpcodeAllowsData16; OperandSize_w; OperandSize_v; OperandSize_o]) InstAnd 0 2 6 NACL_OPCODE_NULL_OFFSET;
  mkInst NACLi_386 (FLAGS [OpcodeHasImmed_b; OpcodeLockable]) InstAnd 0 2 8 NACL_OPCODE_NULL_OFFSET;
  mkInst NACLi_386 (FLAGS [OpcodeHasImmed_z; OpcodeLockable; OpcodeAllowsData16; OperandSize_w; OperandSize_v; OperandSize_o]) InstAnd 0 2 10 NACL_OPCODE_NULL_OFFSET;
  mkInst NACLi_386 (FLAGS [OpcodeUsesModRm; OpcodeLockable; OperandSize_b]) InstSub 0 2 0 NACL_OPCODE_NULL_OFFSET;
  mkInst NACLi_386 (FLAGS [OpcodeUsesModRm; OpcodeLockable; OpcodeAllowsData16; OperandSize_w; OperandSize_v; OperandSize_o]) InstSub 0 2 2 NACL_OPCODE_NULL_OFFSET;
  mkInst NACLi_386 (FLAGS [OpcodeUsesModRm; OpcodeLockable; OperandSize_b]) InstSub 0 2 4 NACL_OPCODE_NULL_OFFSET;
  mkInst NACLi_386 (FLAGS [OpcodeUsesModRm; OpcodeLockable; OpcodeAllowsData16; OperandSize_w; OperandSize_v; OperandSize_o]) InstSub 0 2 6 NACL_OPCODE_NULL_OFFSET;
  mkInst NACLi_386 (FLAGS [OpcodeHasImmed_b; OpcodeLockable]) InstSub 0 2 8 NACL_OPCODE_NULL_OFFSET;
  mkInst NACLi_386 (FLAGS [OpcodeHasImmed_z; OpcodeLockable; OpcodeAllowsData16; OperandSize_w; OperandSize_v; OperandSize_o]) InstSub 0 2 10 NACL_OPCODE_NULL_OFFSET;
  mkInst NACLi_386 (FLAGS [OpcodeUsesModRm; OpcodeLockable; OpcodeAllowsData16; OperandSize_w; OperandSize_v; OperandSize_o; PartialInstruction]) InstDontCare 0 2 2 NACL_OPCODE_NULL_OFFSET;
  mkInst NACLi_386 (FLAGS [OpcodeUsesModRm; OpcodeLockable; OpcodeAllowsData16; OperandSize_w; OperandSize_v; OperandSize_o; PartialInstruction]) InstDontCare 0 2 6 NACL_OPCODE_NULL_OFFSET;
  mkInst NACLi_386 (FLAGS [OpcodeHasImmed_z; OpcodeLockable; OpcodeAllowsData16; OperandSize_w; OperandSize_v; OperandSize_o; PartialInstruction]) InstDontCare 0 2 10 NACL_OPCODE_NULL_OFFSET;
  mkInst NACLi_386 (FLAGS [OpcodeUsesModRm; OperandSize_b; PartialInstruction]) InstDontCare 0 2 18 NACL_OPCODE_NULL_OFFSET;
  mkInst NACLi_386 (FLAGS [OpcodeUsesModRm; OpcodeAllowsData16; OperandSize_w; OperandSize_v; OperandSize_o; PartialInstruction]) InstDontCare 0 2 20 NACL_OPCODE_NULL_OFFSET
].

Definition g_Opcodes_1 : list NaClInst := [
  mkInst NACLi_386 (FLAGS [OpcodeUsesModRm; OperandSize_b; PartialInstruction]) InstDontCare 0 2 22 NACL_OPCODE_NULL_OFFSET;
  mkInst NACLi_386 (FLAGS [OpcodeUsesModRm; OpcodeAllowsData16; OperandSize_w; OperandSize_v; OperandSize_o; PartialInstruction]) InstDontCare 0 2 24 NACL_OPCODE_NULL_OFFSET;
  mkInst NACLi_386 (FLAGS [OpcodeHasImmed_b; PartialInstruction]) InstDontCare 0 2 26 NACL_OPCODE_NULL_OFFSET;
  mkInst NACLi_386 (FLAGS [OpcodeHasImmed_z; OpcodeAllowsData16; OperandSize_w; OperandSize_v; OperandSize_o; PartialInstruction]) InstDontCare 0 2 28 NACL_OPCODE_NULL_OFFSET;
  mkInst NACLi_386 (FLAGS [OpcodePlusR; OpcodeAllowsData16; OperandSize_w; OperandSize_v; OperandSize_o; OperandSizeDefaultIs64]) InstPush 0 2 30 NACL_OPCODE_NULL_OFFSET;
  mkInst NACLi_386 (FLAGS [OpcodePlusR; OpcodeAllowsData16; OperandSize_w; OperandSize_v; OperandSize_o; OperandSizeDefaultIs64]) InstPush 1 2 30 NACL_OPCODE_NULL_OFFSET;
  mkInst NACLi_386 (FLAGS [OpcodePlusR; OpcodeAllowsData16; OperandSize_w; OperandSize_v; OperandSize_o; OperandSizeDefaultIs64]) InstPush 2 2 30 NACL_OPCODE_NULL_OFFSET;
  mkInst NACLi_386 (FLAGS [OpcodePlusR; OpcodeAllowsData16; OperandSize_w; OperandSize_v; OperandSize_o; OperandSizeDefaultIs64]) InstPush 3 2 30 NACL_OPCODE_NULL_OFFSET;
  mkInst NACLi_386 (FLAGS [OpcodePlusR; OpcodeAllowsData16; OperandSize_w; OperandSize_v; OperandSize_o; OperandSizeDefaultIs64]) InstPush 4 2 30 NACL_OPCODE_NULL_OFFSET;
  mkInst NACLi_386 (FLAGS [OpcodePlusR; OpcodeAllowsData16; OperandSize_w; OperandSize_v; OperandSize_o; OperandSizeDefaultIs64]) InstPush 5 2 30 NACL_OPCODE_NULL_OFFSET;
  mkInst NACLi_386 (FLAGS [OpcodePlusR; OpcodeAllowsData16; OperandSize_w; OperandSize_v; OperandSize_o; OperandSizeDefaultIs64]) InstPush 6 2 30 NACL_OPCODE_NULL_OFFSET;
  mkInst NACLi_386 (FLAGS [OpcodePlusR; OpcodeAllowsData16; OperandSize_w; OperandSize_v; OperandSize_o; OperandSizeDefaultIs64]) InstPush 7 2 30 NACL_OPCODE_NULL_OFFSET;
  mkInst NACLi_386 (FLAGS [OpcodePlusR; OpcodeAllowsData16; OperandSize_w; OperandSize_v; OperandSize_o; OperandSizeDefaultIs64]) InstPop 0 2 32 NACL_OPCODE_NULL_OFFSET;
  mkInst NACLi_386 (FLAGS [OpcodePlusR; OpcodeAllowsData16; OperandSize_w; OperandSize_v; OperandSize_o; OperandSizeDefaultIs64]) InstPop 1 2 32 NACL_OPCODE_NULL_OFFSET;
  mkInst NACLi_386 (FLAGS [OpcodePlusR; OpcodeAllowsData16; OperandSize_w; OperandSize_v; OperandSize_o; OperandSizeDefaultIs64]) InstPop 2 2 32 NACL_OPCODE_NULL_OFFSET;
  mkInst NACLi_386 (FLAGS [OpcodePlusR; OpcodeAllowsData16; OperandSize_w; OperandSize_v; OperandSize_o; OperandSizeDefaultIs64]) InstPop 3 2 32 NACL_OPCODE_NULL_OFFSET;
  mkInst NACLi_386 (FLAGS [OpcodePlusR; OpcodeAllowsData16; OperandSize_w; OperandSize_v; OperandSize_o; OperandSizeDefaultIs64]) InstPop 4 2 32 NACL_OPCODE_NULL_OFFSET;
  mkInst NACLi_386 (FLAGS [OpcodePlusR; OpcodeAllowsData16; OperandSize_w; OperandSize_v; OperandSize_o; OperandSizeDefaultIs64]) InstPop 5 2 32 NACL_OPCODE_NULL_OFFSET;
  mkInst NACLi_386 (FLAGS [OpcodePlusR; OpcodeAllowsData16; OperandSize_w; OperandSize_v; OperandSize_o; OperandSizeDefaultIs64]) InstPop 6 2 32 NACL_OPCODE_NULL_OFFSET;
  mkInst NACLi_386 (FLAGS [OpcodePlusR; OpcodeAllowsData16; OperandSize_w; OperandSize_v; OperandSize_o; OperandSizeDefaultIs64]) InstPop 7 2 32 NACL_OPCODE_NULL_OFFSET;
  mkInst NACLi_386 (FLAGS [OpcodeUsesModRm; OpcodeAllowsData16; OperandSize_w; OperandSize_v; OperandSize_o; LongMode; PartialInstruction]) InstDontCare 0 2 34 NACL_OPCODE_NULL_OFFSET;
  mkInst NACLi_386 (FLAGS [OpcodeHasImmed_z; OpcodeAllowsData16; OperandSizeDefaultIs64]) InstPush 0 2 36 NACL_OPCODE_NULL_OFFSET;
  mkInst NACLi_386 (FLAGS [OpcodeUsesModRm; OpcodeHasImmed_z; OpcodeAllowsData16; OperandSize_w; OperandSize_v; OperandSize_o; PartialInstruction]) InstDontCare 0 3 38 NACL_OPCODE_NULL_OFFSET;
  mkInst NACLi_386 (FLAGS [OpcodeHasImmed_b; OperandSizeDefaultIs64]) InstPush 0 2 41 NACL_OPCODE_NULL_OFFSET;
  mkInst NACLi_386 (FLAGS [OpcodeUsesModRm; OpcodeHasImmed_b; OpcodeAllowsData16; OperandSize_w; OperandSize_v; OperandSize_o; PartialInstruction]) InstDontCare 0 3 43 NACL_OPCODE_NULL_OFFSET;
  mkInst NACLi_386 (FLAGS [OpcodeAllowsRep; OperandSize_b; NaClIllegal; PartialInstruction]) InstDontCare 0 0 0 NACL_OPCODE_NULL_OFFSET;
  mkInst NACLi_386 (FLAGS [OpcodeAllowsRep; OperandSize_v; OperandSize_o; NaClIllegal; PartialInstruction]) InstDontCare 0 0 0 NACL_OPCODE_NULL_OFFSET;
  mkInst NACLi_386 (FLAGS [OpcodeAllowsRep; OpcodeAllowsData16; OperandSize_w; NaClIllegal; PartialInstruction]) InstDontCare 0 0 0 63;
  mkInst NACLi_386 (FLAGS [OpcodeHasImmed; OperandSize_b; ConditionalJump; PartialInstruction]) InstDontCareCondJump 0 2 46 NACL_OPCODE_NULL_OFFSET;
  mkInst NACLi_386 (FLAGS [OpcodeInModRm; OpcodeUsesModRm; OpcodeHasImmed; OperandSize_b; PartialInstruction]) InstDontCare 7 2 48 NACL_OPCODE_NULL_OFFSET;
  mkInst NACLi_386 (FLAGS [OpcodeInModRm; OpcodeUsesModRm; OpcodeHasImmed; OpcodeLockable; OperandSize_b; PartialInstruction]) InstDontCare 6 2 50 66;
  mkInst NACLi_386 (FLAGS [OpcodeInModRm; OpcodeUsesModRm; OpcodeHasImmed; OpcodeLockable; OperandSize_b]) InstSub 5 2 50 67;
  mkInst NACLi_386 (FLAGS [OpcodeInModRm; OpcodeUsesModRm; OpcodeHasImmed; OpcodeLockable; OperandSize_b]) InstAnd 4 2 50 68;
  mkInst NACLi_386 (FLAGS [OpcodeInModRm; OpcodeUsesModRm; OpcodeHasImmed; OpcodeLockable; OperandSize_b; PartialInstruction]) InstDontCare 3 2 50 69;
  mkInst NACLi_386 (FLAGS [OpcodeInModRm; OpcodeUsesModRm; OpcodeHasImmed; OpcodeLockable; OperandSize_b; PartialInstruction]) InstDontCare 2 2 50 70;
  mkInst NACLi_386 (FLAGS [OpcodeInModRm; OpcodeUsesModRm; OpcodeHasImmed; OpcodeLockable; OperandSize_b]) InstOr 1 2 50 71;
  mkInst NACLi_386 (FLAGS [OpcodeInModRm; OpcodeUsesModRm; OpcodeHasImmed; OpcodeLockable; OperandSize_b]) InstAdd 0 2 50 72
].

Definition g_Opcodes_2 : list NaClInst := [
  mkInst NACLi_386 (FLAGS [OpcodeInModRm; OpcodeUsesModRm; OpcodeHasImmed_z; OpcodeAllowsData16; OperandSize_w; OperandSize_v; OperandSize_o; PartialInstruction]) InstDontCare 7 2 39 NACL_OPCODE_NULL_OFFSET;
  mkInst NACLi_386 (FLAGS [OpcodeInModRm; OpcodeUsesModRm; OpcodeHasImmed_z; OpcodeLockable; OpcodeAllowsData16; OperandSize_w; OperandSize_v; OperandSize_o; PartialInstruction]) InstDontCare 6 2 52 74;
  mkInst NACLi_386 (FLAGS [OpcodeInModRm; OpcodeUsesModRm; OpcodeHasImmed_z; OpcodeLockable; OpcodeAllowsData16; OperandSize_w; OperandSize_v; OperandSize_o]) InstSub 5 2 52 75;
  mkInst NACLi_386 (FLAGS [OpcodeInModRm; OpcodeUsesModRm; OpcodeHasImmed_z; OpcodeLockable; OpcodeAllowsData16; OperandSize_w; OperandSize_v; OperandSize_o]) InstAnd 4 2 52 76;
  mkInst NACLi_386 (FLAGS [OpcodeInModRm; OpcodeUsesModRm; OpcodeHasImmed_z; OpcodeLockable; OpcodeAllowsData16; OperandSize_w; OperandSize_v; OperandSize_o; PartialInstruction]) InstDontCare 3 2 54 77;
  mkInst NACLi_386 (FLAGS [OpcodeInModRm; OpcodeUsesModRm; OpcodeHasImmed_z; OpcodeLockable; OpcodeAllowsData16; OperandSize_w; OperandSize_v; OperandSize_o; PartialInstruction]) InstDontCare 2 2 54 78;
  mkInst NACLi_386 (FLAGS [OpcodeInModRm; OpcodeUsesModRm; OpcodeHasImmed_z; OpcodeLockable; OpcodeAllowsData16; OperandSize_w; OperandSize_v; OperandSize_o]) InstOr 1 2 52 79;
  mkInst NACLi_386 (FLAGS [OpcodeInModRm; OpcodeUsesModRm; OpcodeHasImmed_z; OpcodeLockable; OpcodeAllowsData16; OperandSize_w; OperandSize_v; OperandSize_o]) InstAdd 0 2 52 80;
  mkInst NACLi_INVALID (FLAGS [OpcodeInModRm; OpcodeUsesModRm; NaClIllegal]) InstInvalid 7 0 0 NACL_OPCODE_NULL_OFFSET;
  mkInst NACLi_INVALID (FLAGS [OpcodeInModRm; OpcodeUsesModRm; NaClIllegal]) InstInvalid 6 0 0 82;
  mkInst NACLi_INVALID (FLAGS [OpcodeInModRm; OpcodeUsesModRm; NaClIllegal]) InstInvalid 5 0 0 83;
  mkInst NACLi_INVALID (FLAGS [OpcodeInModRm; OpcodeUsesModRm; NaClIllegal]) InstInvalid 4 0 0 84;
  mkInst NACLi_INVALID (FLAGS [OpcodeInModRm; OpcodeUsesModRm; NaClIllegal]) InstInvalid 3 0 0 85;
  mkInst NACLi_INVALID (FLAGS [OpcodeInModRm; OpcodeUsesModRm; NaClIllegal]) InstInvalid 2 0 0 86;
  mkInst NACLi_INVALID (FLAGS [OpcodeInModRm; OpcodeUsesModRm; NaClIllegal]) InstInvalid 1 0 0 87;
  mkInst NACLi_INVALID (FLAGS [OpcodeInModRm; OpcodeUsesModRm; NaClIllegal]) InstInvalid 0 0 0 88;
  mkInst NACLi_386 (FLAGS [OpcodeInModRm; OpcodeUsesModRm; OpcodeHasImmed_b; OpcodeAllowsData16; OperandSize_w; OperandSize_v; OperandSize_o; PartialInstruction]) InstDontCare 7 2 44 NACL_OPCODE_NULL_OFFSET;
  mkInst NACLi_386 (FLAGS [OpcodeInModRm; OpcodeUsesModRm; OpcodeHasImmed_b; OpcodeLockable; OpcodeAllowsData16; OperandSize_w; OperandSize_v; OperandSize_o; PartialInstruction]) InstDontCare 6 2 56 90;
  mkInst NACLi_386 (FLAGS [OpcodeInModRm; OpcodeUsesModRm; OpcodeHasImmed_b; OpcodeLockable; OpcodeAllowsData16; OperandSize_w; OperandSize_v; OperandSize_o]) InstSub 5 2 56 91;
  mkInst NACLi_386 (FLAGS [OpcodeInModRm; OpcodeUsesModRm; OpcodeHasImmed_b; OpcodeLockable; OpcodeAllowsData16; OperandSize_w; OperandSize_v; OperandSize_o]) InstAnd 4 2 56 92;
  mkInst NACLi_386 (FLAGS [OpcodeInModRm; OpcodeUsesModRm; OpcodeHasImmed_b; OpcodeLockable; OpcodeAllowsData16; OperandSize_w; OperandSize_v; OperandSize_o; PartialInstruction]) InstDontCare 3 2 58 93;
  mkInst NACLi_386 (FLAGS [OpcodeInModRm; OpcodeUsesModRm; OpcodeHasImmed_b; OpcodeLockable; OpcodeAllowsData16; OperandSize_w; OperandSize_v; OperandSize_o; PartialInstruction]) InstDontCare 2 2 58 94;
  mkInst NACLi_386 (FLAGS [OpcodeInModRm; OpcodeUsesModRm; OpcodeHasImmed_b; OpcodeLockable; OpcodeAllowsData16; OperandSize_w; OperandSize_v; OperandSize_o]) InstOr 1 2 56 95;
  mkInst NACLi_386 (FLAGS [OpcodeInModRm; OpcodeUsesModRm; OpcodeHasImmed_b; OpcodeLockable; OpcodeAllowsData16; OperandSize_w; OperandSize_v; OperandSize_o]) InstAdd 0 2 56 96;
  mkInst NACLi_386 (FLAGS [OpcodeUsesModRm; OpcodeLockable; OperandSize_b; PartialInstruction]) InstDontCare 0 2 60 NACL_OPCODE_NULL_OFFSET;
  mkInst NACLi_386 (FLAGS [OpcodeUsesModRm; OpcodeLockable; OpcodeAllowsData16; OperandSize_w; OperandSize_v; OperandSize_o; PartialInstruction]) InstDontCare 0 2 62 NACL_OPCODE_NULL_OFFSET;
  mkInst NACLi_386 (FLAGS [OpcodeUsesModRm; OperandSize_b]) InstMov 0 2 64 NACL_OPCODE_NULL_OFFSET;
  mkInst NACLi_386 (FLAGS [OpcodeUsesModRm; OpcodeAllowsData16; OperandSize_w; OperandSize_v; OperandSize_o]) InstMov 0 2 66 NACL_OPCODE_NULL_OFFSET;
  mkInst NACLi_386 (FLAGS [OpcodeUsesModRm; OperandSize_b]) InstMov 0 2 68 NACL_OPCODE_NULL_OFFSET;
  mkInst NACLi_386 (FLAGS [OpcodeUsesModRm; OpcodeAllowsData16; OperandSize_w; OperandSize_v; OperandSize_o]) InstMov 0 2 38 NACL_OPCODE_NULL_OFFSET;
  mkInst NACLi_386 (FLAGS [ModRmRegSOperand; OpcodeUsesModRm; OpcodeAllowsData16; OperandSize_w; OperandSize_v; OperandSize_o; NaClIllegal; PartialInstruction]) InstDontCare 0 0 0 NACL_OPCODE_NULL_OFFSET;
  mkInst NACLi_386 (FLAGS [ModRmModIsnt0x3; OpcodeUsesModRm; OpcodeAllowsData16; OperandSize_w; OperandSize_v; OperandSize_o]) InstLea 0 2 70 NACL_OPCODE_NULL_OFFSET;
  mkInst NACLi_386 (FLAGS [ModRmRegSOperand; OpcodeUsesModRm; NaClIllegal; PartialInstruction]) InstDontCare 0 0 0 NACL_OPCODE_NULL_OFFSET;
  mkInst NACLi_INVALID (FLAGS [OpcodeUsesModRm; NaClIllegal]) InstInvalid 0 0 0 NACL_OPCODE_NULL_OFFSET;
  mkInst NACLi_386 (FLAGS [OpcodeInModRm; OpcodeUsesModRm; OpcodeAllowsData16; OperandSize_w; OperandSize_v; OperandSize_o; OperandSizeDefaultIs64]) InstPop 0 2 72 107;
  mkInst NACLi_386 (FLAGS [OpcodePlusR; OpcodeLockable; OpcodeAllowsData16; OperandSize_w; OperandSize_v; OperandSize_o; PartialInstruction]) InstDontCare 0 2 74 NACL_OPCODE_NULL_OFFSET;
  mkInst NACLi_386 (FLAGS [OpcodePlusR; OpcodeLockable; OpcodeAllowsData16; OperandSize_w; OperandSize_v; OperandSize_o; PartialInstruction]) InstDontCare 1 2 74 NACL_OPCODE_NULL_OFFSET
].

Definition g_Opcodes_3 : list NaClInst := [
  mkInst NACLi_386 (FLAGS [OpcodePlusR; OpcodeLockable; OpcodeAllowsData16; OperandSize_w; OperandSize_v; OperandSize_o; PartialInstruction]) InstDontCare 2 2 74 NACL_OPCODE_NULL_OFFSET;
  mkInst NACLi_386 (FLAGS [OpcodePlusR; OpcodeLockable; OpcodeAllowsData16; OperandSize_w; OperandSize_v; OperandSize_o; PartialInstruction]) InstDontCare 3 2 74 NACL_OPCODE_NULL_OFFSET;
  mkInst NACLi_386 (FLAGS [OpcodePlusR; OpcodeLockable; OpcodeAllowsData16; OperandSize_w; OperandSize_v; OperandSize_o; PartialInstruction]) InstDontCare 4 2 74 NACL_OPCODE_NULL_OFFSET;
  mkInst NACLi_386 (FLAGS [OpcodePlusR; OpcodeLockable; OpcodeAllowsData16; OperandSize_w; OperandSize_v; OperandSize_o; PartialInstruction]) InstDontCare 5 2 74 NACL_OPCODE_NULL_OFFSET;
  mkInst NACLi_386 (FLAGS [OpcodePlusR; OpcodeLockable; OpcodeAllowsData16; OperandSize_w; OperandSize_v; OperandSize_o; PartialInstruction]) InstDontCare 6 2 74 NACL_OPCODE_NULL_OFFSET;
  mkInst NACLi_386 (FLAGS [OpcodePlusR; OpcodeLockable; OpcodeAllowsData16; OperandSize_w; OperandSize_v; OperandSize_o; PartialInstruction]) InstDontCare 7 2 74 NACL_OPCODE_NULL_OFFSET;
  mkInst NACLi_386 (FLAGS [OperandSize_o; LongMode; PartialInstruction]) InstDontCare 0 2 76 NACL_OPCODE_NULL_OFFSET;
  mkInst NACLi_386 (FLAGS [OperandSize_v; PartialInstruction]) InstDontCare 0 2 78 117;
  mkInst NACLi_386 (FLAGS [OpcodeAllowsData16; OperandSize_w; PartialInstruction]) InstDontCare 0 2 80 118;
  mkInst NACLi_386 (FLAGS [OperandSize_o; LongMode; PartialInstruction]) InstDontCare 0 2 82 NACL_OPCODE_NULL_OFFSET;
  mkInst NACLi_386 (FLAGS [OperandSize_v; PartialInstruction]) InstDontCare 0 2 84 120;
  mkInst NACLi_386 (FLAGS [OpcodeAllowsData16; OperandSize_w; PartialInstruction]) InstDontCare 0 2 86 121;
  mkInst NACLi_X87 (FLAGS [PartialInstruction]) InstDontCare 0 0 0 NACL_OPCODE_NULL_OFFSET;
  mkInst NACLi_386 (FLAGS [OperandSize_o; NaClIllegal; OperandSizeDefaultIs64; LongMode; PartialInstruction]) InstDontCare 0 0 0 NACL_OPCODE_NULL_OFFSET;
  mkInst NACLi_386 (FLAGS [OpcodeAllowsData16; OperandSize_w; NaClIllegal; PartialInstruction]) InstDontCare 0 0 0 124;
  mkInst NACLi_386 (FLAGS [NaClIllegal; PartialInstruction]) InstDontCare 0 0 0 NACL_OPCODE_NULL_OFFSET;
  mkInst NACLi_386 (FLAGS [OpcodeHasImmed_Addr; OperandSize_b]) InstMov 0 2 88 NACL_OPCODE_NULL_OFFSET;
  mkInst NACLi_386 (FLAGS [OpcodeHasImmed_Addr; OpcodeAllowsData16; OperandSize_w; OperandSize_v; OperandSize_o]) InstMov 0 2 90 NACL_OPCODE_NULL_OFFSET;
  mkInst NACLi_386 (FLAGS [OpcodeHasImmed_Addr; OperandSize_b]) InstMov 0 2 92 NACL_OPCODE_NULL_OFFSET;
  mkInst NACLi_386 (FLAGS [OpcodeHasImmed_Addr; OpcodeAllowsData16; OperandSize_w; OperandSize_v; OperandSize_o]) InstMov 0 2 94 NACL_OPCODE_NULL_OFFSET;
  mkInst NACLi_386 (FLAGS [OpcodeAllowsRep; OperandSize_b; PartialInstruction]) InstDontCare 0 2 96 NACL_OPCODE_NULL_OFFSET;
  mkInst NACLi_386 (FLAGS [OpcodeAllowsRep; OperandSize_o; LongMode; PartialInstruction]) InstDontCare 0 2 98 NACL_OPCODE_NULL_OFFSET;
  mkInst NACLi_386 (FLAGS [OpcodeAllowsRep; OperandSize_v; PartialInstruction]) InstDontCare 0 2 100 132;
  mkInst NACLi_386 (FLAGS [OpcodeAllowsRep; OpcodeAllowsData16; OperandSize_w; PartialInstruction]) InstDontCare 0 2 102 133;
  mkInst NACLi_386 (FLAGS [OpcodeAllowsRep; OpcodeAllowsRepne; OperandSize_b; PartialInstruction]) InstDontCare 0 2 104 NACL_OPCODE_NULL_OFFSET;
  mkInst NACLi_386 (FLAGS [OpcodeAllowsRep; OpcodeAllowsRepne; OperandSize_o; LongMode; PartialInstruction]) InstDontCare 0 2 106 NACL_OPCODE_NULL_OFFSET;
  mkInst NACLi_386 (FLAGS [OpcodeAllowsRep; OpcodeAllowsRepne; OperandSize_v; PartialInstruction]) InstDontCare 0 2 108 136;
  mkInst NACLi_386 (FLAGS [OpcodeAllowsRep; OpcodeAllowsRepne; OpcodeAllowsData16; OperandSize_w; PartialInstruction]) InstDontCare 0 2 110 137;
  mkInst NACLi_386 (FLAGS [OpcodeAllowsRep; OperandSize_b; PartialInstruction]) InstDontCare 0 2 112 NACL_OPCODE_NULL_OFFSET;
  mkInst NACLi_386 (FLAGS [OpcodeAllowsRep; OperandSize_o; LongMode; PartialInstruction]) InstDontCare 0 2 114 NACL_OPCODE_NULL_OFFSET;
  mkInst NACLi_386 (FLAGS [OpcodeAllowsRep; OperandSize_v; PartialInstruction]) InstDontCare 0 2 116 140;
  mkInst NACLi_386 (FLAGS [OpcodeAllowsRep; OpcodeAllowsData16; OperandSize_w; PartialInstruction]) InstDontCare 0 2 118 141;
  mkInst NACLi_386 (FLAGS [OpcodeAllowsRep; OperandSize_b; PartialInstruction]) InstDontCare 0 2 120 NACL_OPCODE_NULL_OFFSET;
  mkInst NACLi_386 (FLAGS [OpcodeAllowsRep; OperandSize_o; LongMode; PartialInstruction]) InstDontCare 0 2 122 NACL_OPCODE_NULL_OFFSET;
  mkInst NACLi_386 (FLAGS [OpcodeAllowsRep; OperandSize_v; PartialInstruction]) InstDontCare 0 2 124 144;
  mkInst NACLi_386 (FLAGS [OpcodeAllowsRep; OpcodeAllowsData16; OperandSize_w; PartialInstruction]) InstDontCare 0 2 126 145;
  mkInst NACLi_386 (FLAGS [OpcodeAllowsRep; OpcodeAllowsRepne; OperandSize_b; PartialInstruction]) InstDontCare 0 2 128 NACL_OPCODE_NULL_OFFSET
].

Definition g_Opcodes_4 : list NaClInst := [
  mkInst NACLi_386 (FLAGS [OpcodeAllowsRep; OpcodeAllowsRepne; OperandSize_o; LongMode; PartialInstruction]) InstDontCare 0 2 130 NACL_OPCODE_NULL_OFFSET;
  mkInst NACLi_386 (FLAGS [OpcodeAllowsRep; OpcodeAllowsRepne; OperandSize_v; PartialInstruction]) InstDontCare 0 2 132 148;
  mkInst NACLi_386 (FLAGS [OpcodeAllowsRep; OpcodeAllowsRepne; OpcodeAllowsData16; OperandSize_w; PartialInstruction]) InstDontCare 0 2 134 149;
  mkInst NACLi_386 (FLAGS [OpcodeHasImmed; OpcodePlusR; OperandSize_b]) InstMov 0 2 136 NACL_OPCODE_NULL_OFFSET;
  mkInst NACLi_386 (FLAGS [OpcodeHasImmed; OpcodePlusR; OperandSize_b]) InstMov 1 2 136 NACL_OPCODE_NULL_OFFSET;
  mkInst NACLi_386 (FLAGS [OpcodeHasImmed; OpcodePlusR; OperandSize_b]) InstMov 2 2 136 NACL_OPCODE_NULL_OFFSET;
  mkInst NACLi_386 (FLAGS [OpcodeHasImmed; OpcodePlusR; OperandSize_b]) InstMov 3 2 136 NACL_OPCODE_NULL_OFFSET;
  mkInst NACLi_386 (FLAGS [OpcodeHasImmed; OpcodePlusR; OperandSize_b]) InstMov 4 2 136 NACL_OPCODE_NULL_OFFSET;
  mkInst NACLi_386 (FLAGS [OpcodeHasImmed; OpcodePlusR; OperandSize_b]) InstMov 5 2 136 NACL_OPCODE_NULL_OFFSET;
  mkInst NACLi_386 (FLAGS [OpcodeHasImmed; OpcodePlusR; OperandSize_b]) InstMov 6 2 136 NACL_OPCODE_NULL_OFFSET;
  mkInst NACLi_386 (FLAGS [OpcodeHasImmed; OpcodePlusR; OperandSize_b]) InstMov 7 2 136 NACL_OPCODE_NULL_OFFSET;
  mkInst NACLi_386 (FLAGS [OpcodeHasImmed; OpcodePlusR; OpcodeAllowsData16; OperandSize_w; OperandSize_v; OperandSize_o]) InstMov 0 2 138 NACL_OPCODE_NULL_OFFSET;
  mkInst NACLi_386 (FLAGS [OpcodeHasImmed; OpcodePlusR; OpcodeAllowsData16; OperandSize_w; OperandSize_v; OperandSize_o]) InstMov 1 2 138 NACL_OPCODE_NULL_OFFSET;
  mkInst NACLi_386 (FLAGS [OpcodeHasImmed; OpcodePlusR; OpcodeAllowsData16; OperandSize_w; OperandSize_v; OperandSize_o]) InstMov 2 2 138 NACL_OPCODE_NULL_OFFSET;
  mkInst NACLi_386 (FLAGS [OpcodeHasImmed; OpcodePlusR; OpcodeAllowsData16; OperandSize_w; OperandSize_v; OperandSize_o]) InstMov 3 2 138 NACL_OPCODE_NULL_OFFSET;
  mkInst NACLi_386 (FLAGS [OpcodeHasImmed; OpcodePlusR; OpcodeAllowsData16; OperandSize_w; OperandSize_v; OperandSize_o]) InstMov 4 2 138 NACL_OPCODE_NULL_OFFSET;
  mkInst NACLi_386 (FLAGS [OpcodeHasImmed; OpcodePlusR; OpcodeAllowsData16; OperandSize_w; OperandSize_v; OperandSize_o]) InstMov 5 2 138 NACL_OPCODE_NULL_OFFSET;
  mkInst NACLi_386 (FLAGS [OpcodeHasImmed; OpcodePlusR; OpcodeAllowsData16; OperandSize_w; OperandSize_v; OperandSize_o]) InstMov 6 2 138 NACL_OPCODE_NULL_OFFSET;
  mkInst NACLi_386 (FLAGS [OpcodeHasImmed; OpcodePlusR; OpcodeAllowsData16; OperandSize_w; OperandSize_v; OperandSize_o]) InstMov 7 2 138 NACL_OPCODE_NULL_OFFSET;
  mkInst NACLi_386 (FLAGS [OpcodeInModRm; OpcodeUsesModRm; OpcodeHasImmed; OperandSize_b; PartialInstruction]) InstDontCare 7 2 50 NACL_OPCODE_NULL_OFFSET;
  mkInst NACLi_ILLEGAL (FLAGS [OpcodeInModRm; OpcodeUsesModRm; OpcodeHasImmed; OperandSize_b; NaClIllegal; PartialInstruction]) InstDontCare 6 0 0 167;
  mkInst NACLi_386 (FLAGS [OpcodeInModRm; OpcodeUsesModRm; OpcodeHasImmed; OperandSize_b; PartialInstruction]) InstDontCare 5 2 50 168;
  mkInst NACLi_386 (FLAGS [OpcodeInModRm; OpcodeUsesModRm; OpcodeHasImmed; OperandSize_b; PartialInstruction]) InstDontCare 4 2 50 169;
  mkInst NACLi_386 (FLAGS [OpcodeInModRm; OpcodeUsesModRm; OpcodeHasImmed; OperandSize_b; PartialInstruction]) InstDontCare 3 2 50 170;
  mkInst NACLi_386 (FLAGS [OpcodeInModRm; OpcodeUsesModRm; OpcodeHasImmed; OperandSize_b; PartialInstruction]) InstDontCare 2 2 50 171;
  mkInst NACLi_386 (FLAGS [OpcodeInModRm; OpcodeUsesModRm; OpcodeHasImmed; OperandSize_b; PartialInstruction]) InstDontCare 1 2 50 172;
  mkInst NACLi_386 (FLAGS [OpcodeInModRm; OpcodeUsesModRm; OpcodeHasImmed; OperandSize_b; PartialInstruction]) InstDontCare 0 2 50 173;
  mkInst NACLi_386 (FLAGS [OpcodeInModRm; OpcodeUsesModRm; OpcodeHasImmed_b; OpcodeAllowsData16; OperandSize_w; OperandSize_v; OperandSize_o; PartialInstruction]) InstDontCare 7 2 58 NACL_OPCODE_NULL_OFFSET;
  mkInst NACLi_ILLEGAL (FLAGS [OpcodeInModRm; OpcodeUsesModRm; OpcodeHasImmed_b; OpcodeAllowsData16; OperandSize_w; OperandSize_v; OperandSize_o; NaClIllegal; PartialInstruction]) InstDontCare 6 0 0 175;
  mkInst NACLi_386 (FLAGS [OpcodeInModRm; OpcodeUsesModRm; OpcodeHasImmed_b; OpcodeAllowsData16; OperandSize_w; OperandSize_v; OperandSize_o; PartialInstruction]) InstDontCare 5 2 58 176;
  mkInst NACLi_386 (FLAGS [OpcodeInModRm; OpcodeUsesModRm; OpcodeHasImmed_b; OpcodeAllowsData16; OperandSize_w; OperandSize_v; OperandSize_o; PartialInstruction]) InstDontCare 4 2 58 177;
  mkInst NACLi_386 (FLAGS [OpcodeInModRm; OpcodeUsesModRm; OpcodeHasImmed_b; OpcodeAllowsData16; OperandSize_w; OperandSize_v; OperandSize_o; PartialInstruction]) InstDontCare 3 2 58 178;
  mkInst NACLi_386 (FLAGS [OpcodeInModRm; OpcodeUsesModRm; OpcodeHasImmed_b; OpcodeAllowsData16; OperandSize_w; OperandSize_v; OperandSize_o; PartialInstruction]) InstDontCare 2 2 58 179;
  mkInst NACLi_386 (FLAGS [OpcodeInModRm; OpcodeUsesModRm; OpcodeHasImmed_b; OpcodeAllowsData16; OperandSize_w; OperandSize_v; OperandSize_o; PartialInstruction]) InstDontCare 1 2 58 180;
  mkInst NACLi_386 (FLAGS [OpcodeInModRm; OpcodeUsesModRm; OpcodeHasImmed_b; OpcodeAllowsData16; OperandSize_w; OperandSize_v; OperandSize_o; PartialInstruction]) InstDontCare 0 2 58 181;
  mkInst NACLi_386 (FLAGS [OpcodeHasImmed_w; NaClIllegal; OperandSizeDefaultIs64; PartialInstruction]) InstDontCare 0 0 0 NACL_OPCODE_NULL_OFFSET;
  mkInst NACLi_386 (FLAGS [NaClIllegal; OperandSizeDefaultIs64; PartialInstruction]) InstDontCare 0 0 0 NACL_OPCODE_NULL_OFFSET
].

Definition g_Opcodes_5 : list NaClInst := [
  mkInst NACLi_386 (FLAGS [OpcodeInModRm; OpcodeUsesModRm; OpcodeHasImmed; OperandSize_b]) InstMov 0 2 140 107;
  mkInst NACLi_386 (FLAGS [OpcodeInModRm; OpcodeUsesModRm; OpcodeHasImmed_z; OpcodeAllowsData16; OperandSize_w; OperandSize_v; OperandSize_o]) InstMov 0 2 142 107;
  mkInst NACLi_386 (FLAGS [OpcodeHasImmed_w; OpcodeHasImmed2_b; NaClIllegal; OperandSizeDefaultIs64; PartialInstruction]) InstDontCare 0 0 0 NACL_OPCODE_NULL_OFFSET;
  mkInst NACLi_RETURN (FLAGS [OpcodeHasImmed_w; NaClIllegal; PartialInstruction]) InstDontCare 0 0 0 NACL_OPCODE_NULL_OFFSET;
  mkInst NACLi_RETURN (FLAGS [NaClIllegal; PartialInstruction]) InstDontCare 0 0 0 NACL_OPCODE_NULL_OFFSET;
  mkInst NACLi_SYSTEM (FLAGS [NaClIllegal; PartialInstruction]) InstDontCare 0 0 0 NACL_OPCODE_NULL_OFFSET;
  mkInst NACLi_386 (FLAGS [OpcodeHasImmed_b; NaClIllegal; PartialInstruction]) InstDontCare 0 0 0 NACL_OPCODE_NULL_OFFSET;
  mkInst NACLi_SYSTEM (FLAGS [OpcodeAllowsData16; OperandSize_w; NaClIllegal; PartialInstruction]) InstDontCare 0 0 0 NACL_OPCODE_NULL_OFFSET;
  mkInst NACLi_SYSTEM (FLAGS [OperandSize_o; NaClIllegal; LongMode; PartialInstruction]) InstDontCare 0 0 0 192;
  mkInst NACLi_SYSTEM (FLAGS [OperandSize_v; NaClIllegal; PartialInstruction]) InstDontCare 0 0 0 193;
  mkInst NACLi_386 (FLAGS [OpcodeInModRm; OpcodeUsesModRm; OperandSize_b; PartialInstruction]) InstDontCare 7 2 144 NACL_OPCODE_NULL_OFFSET;
  mkInst NACLi_ILLEGAL (FLAGS [OpcodeInModRm; OpcodeUsesModRm; OperandSize_b; NaClIllegal; PartialInstruction]) InstDontCare 6 0 0 195;
  mkInst NACLi_386 (FLAGS [OpcodeInModRm; OpcodeUsesModRm; OperandSize_b; PartialInstruction]) InstDontCare 5 2 144 196;
  mkInst NACLi_386 (FLAGS [OpcodeInModRm; OpcodeUsesModRm; OperandSize_b; PartialInstruction]) InstDontCare 4 2 144 197;
  mkInst NACLi_386 (FLAGS [OpcodeInModRm; OpcodeUsesModRm; OperandSize_b; PartialInstruction]) InstDontCare 3 2 144 198;
  mkInst NACLi_386 (FLAGS [OpcodeInModRm; OpcodeUsesModRm; OperandSize_b; PartialInstruction]) InstDontCare 2 2 144 199;
  mkInst NACLi_386 (FLAGS [OpcodeInModRm; OpcodeUsesModRm; OperandSize_b; PartialInstruction]) InstDontCare 1 2 144 200;
  mkInst NACLi_386 (FLAGS [OpcodeInModRm; OpcodeUsesModRm; OperandSize_b; PartialInstruction]) InstDontCare 0 2 144 201;
  mkInst NACLi_386 (FLAGS [OpcodeInModRm; OpcodeUsesModRm; OpcodeAllowsData16; OperandSize_w; OperandSize_v; OperandSize_o; PartialInstruction]) InstDontCare 7 2 146 NACL_OPCODE_NULL_OFFSET;
  mkInst NACLi_ILLEGAL (FLAGS [OpcodeInModRm; OpcodeUsesModRm; OpcodeAllowsData16; OperandSize_w; OperandSize_v; OperandSize_o; NaClIllegal; PartialInstruction]) InstDontCare 6 0 0 203;
  mkInst NACLi_386 (FLAGS [OpcodeInModRm; OpcodeUsesModRm; OpcodeAllowsData16; OperandSize_w; OperandSize_v; OperandSize_o; PartialInstruction]) InstDontCare 5 2 146 204;
  mkInst NACLi_386 (FLAGS [OpcodeInModRm; OpcodeUsesModRm; OpcodeAllowsData16; OperandSize_w; OperandSize_v; OperandSize_o; PartialInstruction]) InstDontCare 4 2 146 205;
  mkInst NACLi_386 (FLAGS [OpcodeInModRm; OpcodeUsesModRm; OpcodeAllowsData16; OperandSize_w; OperandSize_v; OperandSize_o; PartialInstruction]) InstDontCare 3 2 146 206;
  mkInst NACLi_386 (FLAGS [OpcodeInModRm; OpcodeUsesModRm; OpcodeAllowsData16; OperandSize_w; OperandSize_v; OperandSize_o; PartialInstruction]) InstDontCare 2 2 146 207;
  mkInst NACLi_386 (FLAGS [OpcodeInModRm; OpcodeUsesModRm; OpcodeAllowsData16; OperandSize_w; OperandSize_v; OperandSize_o; PartialInstruction]) InstDontCare 1 2 146 208;
  mkInst NACLi_386 (FLAGS [OpcodeInModRm; OpcodeUsesModRm; OpcodeAllowsData16; OperandSize_w; OperandSize_v; OperandSize_o; PartialInstruction]) InstDontCare 0 2 146 209;
  mkInst NACLi_386 (FLAGS [OpcodeInModRm; OpcodeUsesModRm; OperandSize_b; PartialInstruction]) InstDontCare 7 2 148 NACL_OPCODE_NULL_OFFSET;
  mkInst NACLi_ILLEGAL (FLAGS [OpcodeInModRm; OpcodeUsesModRm; OperandSize_b; NaClIllegal; PartialInstruction]) InstDontCare 6 0 0 211;
  mkInst NACLi_386 (FLAGS [OpcodeInModRm; OpcodeUsesModRm; OperandSize_b; PartialInstruction]) InstDontCare 5 2 148 212;
  mkInst NACLi_386 (FLAGS [OpcodeInModRm; OpcodeUsesModRm; OperandSize_b; PartialInstruction]) InstDontCare 4 2 148 213;
  mkInst NACLi_386 (FLAGS [OpcodeInModRm; OpcodeUsesModRm; OperandSize_b; PartialInstruction]) InstDontCare 3 2 148 214;
  mkInst NACLi_386 (FLAGS [OpcodeInModRm; OpcodeUsesModRm; OperandSize_b; PartialInstruction]) InstDontCare 2 2 148 215;
  mkInst NACLi_386 (FLAGS [OpcodeInModRm; OpcodeUsesModRm; OperandSize_b; PartialInstruction]) InstDontCare 1 2 148 216;
  mkInst NACLi_386 (FLAGS [OpcodeInModRm; OpcodeUsesModRm; OperandSize_b; PartialInstruction]) InstDontCare 0 2 148 217;
  mkInst NACLi_386 (FLAGS [OpcodeInModRm; OpcodeUsesModRm; OpcodeAllowsData16; OperandSize_w; OperandSize_v; OperandSize_o; PartialInstruction]) InstDontCare 7 2 150 NACL_OPCODE_NULL_OFFSET;
  mkInst NACLi_ILLEGAL (FLAGS [OpcodeInModRm; OpcodeUsesModRm; OpcodeAllowsData16; OperandSize_w; OperandSize_v; OperandSize_o; NaClIllegal; PartialInstruction]) InstDontCare 6 0 0 219;
  mkInst NACLi_386 (FLAGS [OpcodeInModRm; OpcodeUsesModRm; OpcodeAllowsData16; OperandSize_w; OperandSize_v; OperandSize_o; PartialInstruction]) InstDontCare 5 2 150 220
].

Definition g_Opcodes_6 : list NaClInst := [
  mkInst NACLi_386 (FLAGS [OpcodeInModRm; OpcodeUsesModRm; OpcodeAllowsData16; OperandSize_w; OperandSize_v; OperandSize_o; PartialInstruction]) InstDontCare 4 2 150 221;
  mkInst NACLi_386 (FLAGS [OpcodeInModRm; OpcodeUsesModRm; OpcodeAllowsData16; OperandSize_w; OperandSize_v; OperandSize_o; PartialInstruction]) InstDontCare 3 2 150 222;
  mkInst NACLi_386 (FLAGS [OpcodeInModRm; OpcodeUsesModRm; OpcodeAllowsData16; OperandSize_w; OperandSize_v; OperandSize_o; PartialInstruction]) InstDontCare 2 2 150 223;
  mkInst NACLi_386 (FLAGS [OpcodeInModRm; OpcodeUsesModRm; OpcodeAllowsData16; OperandSize_w; OperandSize_v; OperandSize_o; PartialInstruction]) InstDontCare 1 2 150 224;
  mkInst NACLi_386 (FLAGS [OpcodeInModRm; OpcodeUsesModRm; OpcodeAllowsData16; OperandSize_w; OperandSize_v; OperandSize_o; PartialInstruction]) InstDontCare 0 2 150 225;
  mkInst NACLi_X87 (FLAGS [OpcodeInModRm; ModRmModIsnt0x3; OpcodeUsesModRm; PartialInstruction]) InstDontCare 7 1 152 NACL_OPCODE_NULL_OFFSET;
  mkInst NACLi_X87 (FLAGS [OpcodeInModRm; ModRmModIsnt0x3; OpcodeUsesModRm; PartialInstruction]) InstDontCare 6 1 152 227;
  mkInst NACLi_X87 (FLAGS [OpcodeInModRm; ModRmModIsnt0x3; OpcodeUsesModRm; PartialInstruction]) InstDontCare 5 1 152 228;
  mkInst NACLi_X87 (FLAGS [OpcodeInModRm; ModRmModIsnt0x3; OpcodeUsesModRm; PartialInstruction]) InstDontCare 4 1 152 229;
  mkInst NACLi_X87 (FLAGS [OpcodeInModRm; ModRmModIsnt0x3; OpcodeUsesModRm; PartialInstruction]) InstDontCare 3 1 152 230;
  mkInst NACLi_X87 (FLAGS [OpcodeInModRm; ModRmModIsnt0x3; OpcodeUsesModRm; PartialInstruction]) InstDontCare 2 1 152 231;
  mkInst NACLi_X87 (FLAGS [OpcodeInModRm; ModRmModIsnt0x3; OpcodeUsesModRm; PartialInstruction]) InstDontCare 1 1 152 232;
  mkInst NACLi_X87 (FLAGS [OpcodeInModRm; ModRmModIsnt0x3; OpcodeUsesModRm; PartialInstruction]) InstDontCare 0 1 152 233;
  mkInst NACLi_X87 (FLAGS [OpcodeInModRm; ModRmModIsnt0x3; OpcodeUsesModRm; PartialInstruction]) InstDontCare 7 1 153 NACL_OPCODE_NULL_OFFSET;
  mkInst NACLi_X87 (FLAGS [OpcodeInModRm; ModRmModIsnt0x3; OpcodeUsesModRm; OpcodeAllowsData16; PartialInstruction]) InstDontCare 6 1 154 235;
  mkInst NACLi_X87 (FLAGS [OpcodeInModRm; ModRmModIsnt0x3; OpcodeUsesModRm; PartialInstruction]) InstDontCare 5 1 155 236;
  mkInst NACLi_X87 (FLAGS [OpcodeInModRm; ModRmModIsnt0x3; OpcodeUsesModRm; OpcodeAllowsData16; PartialInstruction]) InstDontCare 4 1 156 237;
  mkInst NACLi_X87 (FLAGS [OpcodeInModRm; ModRmModIsnt0x3; OpcodeUsesModRm; PartialInstruction]) InstDontCare 3 1 157 238;
  mkInst NACLi_X87 (FLAGS [OpcodeInModRm; ModRmModIsnt0x3; OpcodeUsesModRm; PartialInstruction]) InstDontCare 2 1 157 239;
  mkInst NACLi_INVALID (FLAGS [OpcodeInModRm; OpcodeUsesModRm; NaClIllegal]) InstInvalid 1 0 0 240;
  mkInst NACLi_X87 (FLAGS [OpcodeInModRm; ModRmModIsnt0x3; OpcodeUsesModRm; PartialInstruction]) InstDontCare 0 1 152 241;
  mkInst NACLi_X87 (FLAGS [OpcodeInModRm; ModRmModIsnt0x3; OpcodeUsesModRm; OpcodeAllowsData16; PartialInstruction]) InstDontCare 7 1 154 NACL_OPCODE_NULL_OFFSET;
  mkInst NACLi_INVALID (FLAGS [OpcodeInModRm; OpcodeUsesModRm; NaClIllegal]) InstInvalid 6 0 0 243;
  mkInst NACLi_X87 (FLAGS [OpcodeInModRm; ModRmModIsnt0x3; OpcodeUsesModRm; OpcodeAllowsData16; PartialInstruction]) InstDontCare 5 1 156 244;
  mkInst NACLi_INVALID (FLAGS [OpcodeInModRm; OpcodeUsesModRm; NaClIllegal]) InstInvalid 4 0 0 245;
  mkInst NACLi_X87 (FLAGS [OpcodeInModRm; ModRmModIsnt0x3; OpcodeUsesModRm; PartialInstruction]) InstDontCare 3 1 157 246;
  mkInst NACLi_X87 (FLAGS [OpcodeInModRm; ModRmModIsnt0x3; OpcodeUsesModRm; PartialInstruction]) InstDontCare 2 1 157 247;
  mkInst NACLi_X87 (FLAGS [OpcodeInModRm; ModRmModIsnt0x3; OpcodeUsesModRm; PartialInstruction]) InstDontCare 1 1 157 248;
  mkInst NACLi_X87 (FLAGS [OpcodeInModRm; ModRmModIsnt0x3; OpcodeUsesModRm; PartialInstruction]) InstDontCare 0 1 152 249;
  mkInst NACLi_X87 (FLAGS [OpcodeInModRm; ModRmModIsnt0x3; OpcodeUsesModRm; PartialInstruction]) InstDontCare 7 1 158 NACL_OPCODE_NULL_OFFSET;
  mkInst NACLi_X87 (FLAGS [OpcodeInModRm; ModRmModIsnt0x3; OpcodeUsesModRm; PartialInstruction]) InstDontCare 6 1 158 251;
  mkInst NACLi_X87 (FLAGS [OpcodeInModRm; ModRmModIsnt0x3; OpcodeUsesModRm; PartialInstruction]) InstDontCare 5 1 158 252;
  mkInst NACLi_X87 (FLAGS [OpcodeInModRm; ModRmModIsnt0x3; OpcodeUsesModRm; PartialInstruction]) InstDontCare 4 1 158 253;
  mkInst NACLi_X87 (FLAGS [OpcodeInModRm; ModRmModIsnt0x3; OpcodeUsesModRm; PartialInstruction]) InstDontCare 3 1 158 254;
  mkInst NACLi_X87 (FLAGS [OpcodeInModRm; ModRmModIsnt0x3; OpcodeUsesModRm; PartialInstruction]) InstDontCare 2 1 158 255;
  mkInst NACLi_X87 (FLAGS [OpcodeInModRm; ModRmModIsnt0x3; OpcodeUsesModRm; PartialInstruction]) InstDontCare 1 1 158 256;
  mkInst NACLi_X87 (FLAGS [OpcodeInModRm; ModRmModIsnt0x3; OpcodeUsesModRm; PartialInstruction]) InstDontCare 0 1 158 257
].

Definition g_Opcodes_7 : list NaClInst := [
  mkInst NACLi_INVALID (FLAGS [OpcodeInModRm; OpcodeUsesModRm; NaClIllegal]) InstInvalid 5 0 0 236;
  mkInst NACLi_X87 (FLAGS [OpcodeInModRm; ModRmModIsnt0x3; OpcodeUsesModRm; OpcodeAllowsData16; PartialInstruction]) InstDontCare 4 1 156 259;
  mkInst NACLi_X87 (FLAGS [OpcodeInModRm; ModRmModIsnt0x3; OpcodeUsesModRm; PartialInstruction]) InstDontCare 3 1 159 260;
  mkInst NACLi_X87 (FLAGS [OpcodeInModRm; ModRmModIsnt0x3; OpcodeUsesModRm; PartialInstruction]) InstDontCare 2 1 159 261;
  mkInst NACLi_X87 (FLAGS [OpcodeInModRm; ModRmModIsnt0x3; OpcodeUsesModRm; PartialInstruction]) InstDontCare 1 1 159 262;
  mkInst NACLi_X87 (FLAGS [OpcodeInModRm; ModRmModIsnt0x3; OpcodeUsesModRm; PartialInstruction]) InstDontCare 0 1 158 263;
  mkInst NACLi_X87 (FLAGS [OpcodeInModRm; ModRmModIsnt0x3; OpcodeUsesModRm; PartialInstruction]) InstDontCare 7 1 155 NACL_OPCODE_NULL_OFFSET;
  mkInst NACLi_X87 (FLAGS [OpcodeInModRm; ModRmModIsnt0x3; OpcodeUsesModRm; PartialInstruction]) InstDontCare 6 1 155 265;
  mkInst NACLi_X87 (FLAGS [OpcodeInModRm; ModRmModIsnt0x3; OpcodeUsesModRm; PartialInstruction]) InstDontCare 5 1 155 266;
  mkInst NACLi_X87 (FLAGS [OpcodeInModRm; ModRmModIsnt0x3; OpcodeUsesModRm; PartialInstruction]) InstDontCare 4 1 155 267;
  mkInst NACLi_X87 (FLAGS [OpcodeInModRm; ModRmModIsnt0x3; OpcodeUsesModRm; PartialInstruction]) InstDontCare 3 1 155 268;
  mkInst NACLi_X87 (FLAGS [OpcodeInModRm; ModRmModIsnt0x3; OpcodeUsesModRm; PartialInstruction]) InstDontCare 2 1 155 269;
  mkInst NACLi_X87 (FLAGS [OpcodeInModRm; ModRmModIsnt0x3; OpcodeUsesModRm; PartialInstruction]) InstDontCare 1 1 155 270;
  mkInst NACLi_X87 (FLAGS [OpcodeInModRm; ModRmModIsnt0x3; OpcodeUsesModRm; PartialInstruction]) InstDontCare 0 1 155 271;
  mkInst NACLi_X87 (FLAGS [OpcodeInModRm; ModRmModIsnt0x3; OpcodeUsesModRm; OpcodeAllowsData16; PartialInstruction]) InstDontCare 6 1 154 243;
  mkInst NACLi_X87 (FLAGS [OpcodeInModRm; ModRmModIsnt0x3; OpcodeUsesModRm; OpcodeAllowsData16; PartialInstruction]) InstDontCare 5 1 156 273;
  mkInst NACLi_X87 (FLAGS [OpcodeInModRm; ModRmModIsnt0x3; OpcodeUsesModRm; OpcodeAllowsData16; PartialInstruction]) InstDontCare 4 1 156 274;
  mkInst NACLi_X87 (FLAGS [OpcodeInModRm; ModRmModIsnt0x3; OpcodeUsesModRm; PartialInstruction]) InstDontCare 3 1 153 275;
  mkInst NACLi_X87 (FLAGS [OpcodeInModRm; ModRmModIsnt0x3; OpcodeUsesModRm; PartialInstruction]) InstDontCare 2 1 153 276;
  mkInst NACLi_X87 (FLAGS [OpcodeInModRm; ModRmModIsnt0x3; OpcodeUsesModRm; PartialInstruction]) InstDontCare 1 1 153 277;
  mkInst NACLi_X87 (FLAGS [OpcodeInModRm; ModRmModIsnt0x3; OpcodeUsesModRm; PartialInstruction]) InstDontCare 0 1 155 278;
  mkInst NACLi_386 (FLAGS [OpcodeHasImmed; OperandSize_b; JumpInstruction; PartialInstruction]) InstDontCareJump 0 2 46 NACL_OPCODE_NULL_OFFSET;
  mkInst NACLi_386 (FLAGS [OpcodeHasImmed; OperandSize_b; AddressSize_o; ConditionalJump; PartialInstruction]) InstDontCareCondJump 0 3 160 NACL_OPCODE_NULL_OFFSET;
  mkInst NACLi_386 (FLAGS [OpcodeHasImmed; OperandSize_b; AddressSize_v; ConditionalJump; PartialInstruction]) InstDontCareCondJump 0 3 163 281;
  mkInst NACLi_386 (FLAGS [OpcodeHasImmed_b; OpcodeAllowsData16; OperandSize_w; OperandSize_v; OperandSize_o; NaClIllegal; PartialInstruction]) InstDontCare 0 0 0 NACL_OPCODE_NULL_OFFSET;
  mkInst NACLi_386 (FLAGS [OpcodeHasImmed_v; OperandSize_v; OperandSize_o; OperandSizeDefaultIs64; JumpInstruction]) InstCall 0 3 166 NACL_OPCODE_NULL_OFFSET;
  mkInst NACLi_386 (FLAGS [OpcodeHasImmed_v; OperandSize_v; OperandSize_o; OperandSizeDefaultIs64; JumpInstruction; PartialInstruction]) InstDontCareJump 0 2 169 NACL_OPCODE_NULL_OFFSET;
  mkInst NACLi_386 (FLAGS [OpcodeAllowsData16; OperandSize_w; OperandSize_v; OperandSize_o; NaClIllegal; PartialInstruction]) InstDontCare 0 0 0 NACL_OPCODE_NULL_OFFSET;
  mkInst NACLi_386 (FLAGS [PartialInstruction]) InstDontCare 0 0 0 NACL_OPCODE_NULL_OFFSET;
  mkInst NACLi_386 (FLAGS [OpcodeInModRm; OpcodeUsesModRm; OperandSize_b; PartialInstruction]) InstDontCare 7 3 171 NACL_OPCODE_NULL_OFFSET;
  mkInst NACLi_386 (FLAGS [OpcodeInModRm; OpcodeUsesModRm; OperandSize_b; PartialInstruction]) InstDontCare 6 3 171 288;
  mkInst NACLi_386 (FLAGS [OpcodeInModRm; OpcodeUsesModRm; OperandSize_b; PartialInstruction]) InstDontCare 5 3 171 289;
  mkInst NACLi_386 (FLAGS [OpcodeInModRm; OpcodeUsesModRm; OperandSize_b; PartialInstruction]) InstDontCare 4 3 171 290;
  mkInst NACLi_386 (FLAGS [OpcodeInModRm; OpcodeUsesModRm; OpcodeLockable; OperandSize_b; PartialInstruction]) InstDontCare 3 1 0 291;
  mkInst NACLi_386 (FLAGS [OpcodeInModRm; OpcodeUsesModRm; OpcodeLockable; OperandSize_b; PartialInstruction]) InstDontCare 2 1 0 292;
  mkInst NACLi_ILLEGAL (FLAGS [OpcodeInModRm; OpcodeUsesModRm; OpcodeHasImmed; OperandSize_b; NaClIllegal; PartialInstruction]) InstDontCare 1 0 0 293;
  mkInst NACLi_386 (FLAGS [OpcodeInModRm; OpcodeUsesModRm; OpcodeHasImmed; OperandSize_b; PartialInstruction]) InstDontCare 0 2 48 294
].

Definition g_Opcodes_8 : list NaClInst := [
  mkInst NACLi_386 (FLAGS [OpcodeInModRm; OpcodeUsesModRm; OpcodeAllowsData16; OperandSize_w; OperandSize_v; OperandSize_o; PartialInstruction]) InstDontCare 7 3 174 NACL_OPCODE_NULL_OFFSET;
  mkInst NACLi_386 (FLAGS [OpcodeInModRm; OpcodeUsesModRm; OpcodeAllowsData16; OperandSize_w; OperandSize_v; OperandSize_o; PartialInstruction]) InstDontCare 6 3 174 296;
  mkInst NACLi_386 (FLAGS [OpcodeInModRm; OpcodeUsesModRm; OpcodeAllowsData16; OperandSize_w; OperandSize_v; OperandSize_o; PartialInstruction]) InstDontCare 5 3 174 297;
  mkInst NACLi_386 (FLAGS [OpcodeInModRm; OpcodeUsesModRm; OpcodeAllowsData16; OperandSize_w; OperandSize_v; OperandSize_o; PartialInstruction]) InstDontCare 4 3 174 298;
  mkInst NACLi_386 (FLAGS [OpcodeInModRm; OpcodeUsesModRm; OpcodeLockable; OpcodeAllowsData16; OperandSize_w; OperandSize_v; OperandSize_o; PartialInstruction]) InstDontCare 3 1 2 299;
  mkInst NACLi_386 (FLAGS [OpcodeInModRm; OpcodeUsesModRm; OpcodeLockable; OpcodeAllowsData16; OperandSize_w; OperandSize_v; OperandSize_o; PartialInstruction]) InstDontCare 2 1 2 300;
  mkInst NACLi_ILLEGAL (FLAGS [OpcodeInModRm; OpcodeUsesModRm; OpcodeHasImmed_z; OpcodeAllowsData16; OperandSize_w; OperandSize_v; OperandSize_o; NaClIllegal; PartialInstruction]) InstDontCare 1 0 0 301;
  mkInst NACLi_386 (FLAGS [OpcodeInModRm; OpcodeUsesModRm; OpcodeHasImmed_z; OpcodeAllowsData16; OperandSize_w; OperandSize_v; OperandSize_o; PartialInstruction]) InstDontCare 0 2 39 302;
  mkInst NACLi_386 (FLAGS [OpcodeInModRm; OpcodeUsesModRm; OpcodeLockable; OperandSize_b; PartialInstruction]) InstDontCare 1 1 0 87;
  mkInst NACLi_386 (FLAGS [OpcodeInModRm; OpcodeUsesModRm; OpcodeLockable; OperandSize_b; PartialInstruction]) InstDontCare 0 1 0 304;
  mkInst NACLi_386 (FLAGS [OpcodeInModRm; OpcodeUsesModRm; OpcodeAllowsData16; OperandSize_w; OperandSize_v; OperandSize_o; OperandSizeDefaultIs64]) InstPush 6 2 177 82;
  mkInst NACLi_386 (FLAGS [OpcodeInModRm; ModRmModIsnt0x3; OpcodeUsesModRm; NaClIllegal; JumpInstruction; PartialInstruction]) InstDontCare 5 0 0 306;
  mkInst NACLi_386 (FLAGS [OpcodeInModRm; OpcodeUsesModRm; OpcodeAllowsData16; OperandSize_w; OperandSize_v; OperandSize_o; OperandSizeDefaultIs64; JumpInstruction; PartialInstruction]) InstDontCareJump 4 2 179 307;
  mkInst NACLi_386 (FLAGS [OpcodeInModRm; ModRmModIsnt0x3; OpcodeUsesModRm; NaClIllegal; JumpInstruction; PartialInstruction]) InstDontCare 3 0 0 308;
  mkInst NACLi_386 (FLAGS [OpcodeInModRm; OpcodeUsesModRm; OpcodeAllowsData16; OperandSize_w; OperandSize_v; OperandSize_o; OperandSizeDefaultIs64; JumpInstruction]) InstCall 2 3 181 309;
  mkInst NACLi_386 (FLAGS [OpcodeInModRm; OpcodeUsesModRm; OpcodeLockable; OpcodeAllowsData16; OperandSize_w; OperandSize_v; OperandSize_o; PartialInstruction]) InstDontCare 1 1 2 310;
  mkInst NACLi_386 (FLAGS [OpcodeInModRm; OpcodeUsesModRm; OpcodeLockable; OpcodeAllowsData16; OperandSize_w; OperandSize_v; OperandSize_o; PartialInstruction]) InstDontCare 0 1 2 311;
  mkInst NACLi_SYSTEM (FLAGS [OpcodeInModRm; OpcodeUsesModRm; NaClIllegal; PartialInstruction]) InstDontCare 5 0 0 83;
  mkInst NACLi_SYSTEM (FLAGS [OpcodeInModRm; OpcodeUsesModRm; NaClIllegal; PartialInstruction]) InstDontCare 4 0 0 313;
  mkInst NACLi_SYSTEM (FLAGS [OpcodeInModRm; OpcodeUsesModRm; NaClIllegal; PartialInstruction]) InstDontCare 3 0 0 314;
  mkInst NACLi_SYSTEM (FLAGS [OpcodeInModRm; OpcodeUsesModRm; NaClIllegal; PartialInstruction]) InstDontCare 2 0 0 315;
  mkInst NACLi_SYSTEM (FLAGS [OpcodeInModRm; OpcodeUsesModRm; OpcodeAllowsData16; OperandSize_w; OperandSize_v; OperandSize_o; NaClIllegal; PartialInstruction]) InstDontCare 1 0 0 316;
  mkInst NACLi_SYSTEM (FLAGS [OpcodeInModRm; OpcodeUsesModRm; OpcodeAllowsData16; OperandSize_w; OperandSize_v; OperandSize_o; NaClIllegal; PartialInstruction]) InstDontCare 0 0 0 317;
  mkInst NACLi_RDTSCP (FLAGS [OpcodeInModRm; OpcodeInModRmRm; ModRmModIs0x3; OpcodeUsesModRm; NaClIllegal; PartialInstruction]) InstDontCare 23 0 0 82;
  mkInst NACLi_SYSTEM (FLAGS [OpcodeInModRm; OpcodeInModRmRm; ModRmModIs0x3; OpcodeUsesModRm; NaClIllegal; LongMode; PartialInstruction]) InstDontCare 7 0 0 319;
  mkInst NACLi_SYSTEM (FLAGS [OpcodeInModRm; ModRmModIsnt0x3; OpcodeUsesModRm; NaClIllegal; PartialInstruction]) InstDontCare 7 0 0 320;
  mkInst NACLi_INVALID (FLAGS [OpcodeInModRm; OpcodeUsesModRm; NaClIllegal]) InstLmsw 6 1 184 321;
  mkInst NACLi_INVALID (FLAGS [OpcodeInModRm; OpcodeUsesModRm; NaClIllegal]) InstInvalid 5 0 0 322;
  mkInst NACLi_SYSTEM (FLAGS [OpcodeInModRm; OpcodeUsesModRm; OpcodeAllowsData16; OperandSize_w; OperandSize_v; OperandSize_o; NaClIllegal; PartialInstruction]) InstDontCare 4 0 0 323;
  mkInst NACLi_SVM (FLAGS [OpcodeInModRm; OpcodeInModRmRm; ModRmModIs0x3; OpcodeUsesModRm; NaClIllegal; PartialInstruction]) InstDontCare 115 0 0 324;
  mkInst NACLi_SVM (FLAGS [OpcodeInModRm; OpcodeInModRmRm; ModRmModIs0x3; OpcodeUsesModRm; NaClIllegal; PartialInstruction]) InstDontCare 99 0 0 325;
  mkInst NACLi_SVM (FLAGS [OpcodeInModRm; OpcodeInModRmRm; ModRmModIs0x3; OpcodeUsesModRm; NaClIllegal; PartialInstruction]) InstDontCare 83 0 0 326;
  mkInst NACLi_SVM (FLAGS [OpcodeInModRm; OpcodeInModRmRm; ModRmModIs0x3; OpcodeUsesModRm; NaClIllegal; PartialInstruction]) InstDontCare 67 0 0 327;
  mkInst NACLi_SVM (FLAGS [OpcodeInModRm; OpcodeInModRmRm; ModRmModIs0x3; OpcodeUsesModRm; NaClIllegal; PartialInstruction]) InstDontCare 51 0 0 328;
  mkInst NACLi_SVM (FLAGS [OpcodeInModRm; OpcodeInModRmRm; ModRmModIs0x3; OpcodeUsesModRm; NaClIllegal; PartialInstruction]) InstDontCare 35 0 0 329;
  mkInst NACLi_SVM (FLAGS [OpcodeInModRm; OpcodeInModRmRm; ModRmModIs0x3; OpcodeUsesModRm; NaClIllegal; PartialInstruction]) InstDontCare 19 0 0 330;
  mkInst NACLi_SVM (FLAGS [OpcodeInModRm; OpcodeInModRmRm; ModRmModIs0x3; OpcodeUsesModRm; NaClIllegal; PartialInstruction]) InstDontCare 3 0 0 331
].

Definition g_Opcodes_9 : list NaClInst := [
  mkInst NACLi_SYSTEM (FLAGS [OpcodeInModRm; ModRmModIsnt0x3; OpcodeUsesModRm; NaClIllegal; PartialInstruction]) InstDontCare 3 0 0 332;
  mkInst NACLi_SYSTEM (FLAGS [OpcodeInModRm; ModRmModIsnt0x3; OpcodeUsesModRm; NaClIllegal; PartialInstruction]) InstDontCare 2 0 0 333;
  mkInst NACLi_INVALID (FLAGS [OpcodeInModRm; OpcodeUsesModRm; NaClIllegal]) InstInvalid 1 0 0 334;
  mkInst NACLi_SYSTEM (FLAGS [OpcodeInModRm; OpcodeInModRmRm; ModRmModIs0x3; OpcodeUsesModRm; NaClIllegal; PartialInstruction]) InstDontCare 17 0 0 335;
  mkInst NACLi_SYSTEM (FLAGS [OpcodeInModRm; OpcodeInModRmRm; ModRmModIs0x3; OpcodeUsesModRm; NaClIllegal; PartialInstruction]) InstDontCare 1 0 0 336;
  mkInst NACLi_SYSTEM (FLAGS [OpcodeInModRm; ModRmModIsnt0x3; OpcodeUsesModRm; NaClIllegal; PartialInstruction]) InstDontCare 1 0 0 337;
  mkInst NACLi_SYSTEM (FLAGS [OpcodeInModRm; ModRmModIsnt0x3; OpcodeUsesModRm; NaClIllegal; PartialInstruction]) InstDontCare 0 0 0 338;
  mkInst NACLi_SYSTEM (FLAGS [OpcodeUsesModRm; OpcodeAllowsData16; OperandSize_w; OperandSize_v; OperandSize_o; NaClIllegal; PartialInstruction]) InstDontCare 0 0 0 NACL_OPCODE_NULL_OFFSET;
  mkInst NACLi_SYSCALL (FLAGS [NaClIllegal; PartialInstruction]) InstDontCare 0 0 0 NACL_OPCODE_NULL_OFFSET;
  mkInst NACLi_3DNOW (FLAGS [OpcodeInModRm; ModRmModIsnt0x3; OpcodeUsesModRm; NaClIllegal; PartialInstruction]) InstDontCare 7 0 0 NACL_OPCODE_NULL_OFFSET;
  mkInst NACLi_3DNOW (FLAGS [OpcodeInModRm; ModRmModIsnt0x3; OpcodeUsesModRm; NaClIllegal; PartialInstruction]) InstDontCare 6 0 0 342;
  mkInst NACLi_3DNOW (FLAGS [OpcodeInModRm; ModRmModIsnt0x3; OpcodeUsesModRm; NaClIllegal; PartialInstruction]) InstDontCare 5 0 0 343;
  mkInst NACLi_3DNOW (FLAGS [OpcodeInModRm; ModRmModIsnt0x3; OpcodeUsesModRm; NaClIllegal; PartialInstruction]) InstDontCare 4 0 0 344;
  mkInst NACLi_3DNOW (FLAGS [OpcodeInModRm; ModRmModIsnt0x3; OpcodeUsesModRm; PartialInstruction]) InstDontCare 3 1 185 345;
  mkInst NACLi_3DNOW (FLAGS [OpcodeInModRm; ModRmModIsnt0x3; OpcodeUsesModRm; NaClIllegal; PartialInstruction]) InstDontCare 2 0 0 346;
  mkInst NACLi_3DNOW (FLAGS [OpcodeInModRm; ModRmModIsnt0x3; OpcodeUsesModRm; PartialInstruction]) InstDontCare 1 1 185 347;
  mkInst NACLi_3DNOW (FLAGS [OpcodeInModRm; ModRmModIsnt0x3; OpcodeUsesModRm; PartialInstruction]) InstDontCare 0 1 185 348;
  mkInst NACLi_3DNOW (FLAGS [PartialInstruction]) InstDontCare 0 0 0 NACL_OPCODE_NULL_OFFSET;
  mkInst NACLi_INVALID (FLAGS [Opcode0F0F; OpcodeUsesModRm; OpcodeHasImmed_b; NaClIllegal]) InstInvalid 0 3 186 NACL_OPCODE_NULL_OFFSET;
  mkInst NACLi_SSE (FLAGS [OpcodeUsesModRm; PartialInstruction]) InstDontCare 0 1 189 NACL_OPCODE_NULL_OFFSET;
  mkInst NACLi_SSE (FLAGS [OpcodeUsesModRm; PartialInstruction]) InstDontCare 0 1 190 NACL_OPCODE_NULL_OFFSET;
  mkInst NACLi_SSE (FLAGS [ModRmModIs0x3; OpcodeUsesModRm; PartialInstruction]) InstDontCare 0 1 191 NACL_OPCODE_NULL_OFFSET;
  mkInst NACLi_SSE (FLAGS [ModRmModIsnt0x3; OpcodeUsesModRm; PartialInstruction]) InstDontCare 0 1 158 354;
  mkInst NACLi_SSE (FLAGS [ModRmModIsnt0x3; OpcodeUsesModRm; PartialInstruction]) InstDontCare 0 1 159 NACL_OPCODE_NULL_OFFSET;
  mkInst NACLi_SSE (FLAGS [OpcodeUsesModRm; PartialInstruction]) InstDontCare 0 1 192 NACL_OPCODE_NULL_OFFSET;
  mkInst NACLi_386 (FLAGS [OpcodeInModRm; OpcodeUsesModRm; PartialInstruction]) InstDontCare 7 0 0 NACL_OPCODE_NULL_OFFSET;
  mkInst NACLi_386 (FLAGS [OpcodeInModRm; OpcodeUsesModRm; PartialInstruction]) InstDontCare 6 0 0 358;
  mkInst NACLi_386 (FLAGS [OpcodeInModRm; OpcodeUsesModRm; PartialInstruction]) InstDontCare 5 0 0 359;
  mkInst NACLi_386 (FLAGS [OpcodeInModRm; OpcodeUsesModRm; PartialInstruction]) InstDontCare 4 0 0 360;
  mkInst NACLi_MMX (FLAGS [OpcodeInModRm; ModRmModIsnt0x3; OpcodeUsesModRm; PartialInstruction]) InstDontCare 3 1 185 361;
  mkInst NACLi_MMX (FLAGS [OpcodeInModRm; ModRmModIsnt0x3; OpcodeUsesModRm; PartialInstruction]) InstDontCare 2 1 185 362;
  mkInst NACLi_MMX (FLAGS [OpcodeInModRm; ModRmModIsnt0x3; OpcodeUsesModRm; PartialInstruction]) InstDontCare 1 1 185 363;
  mkInst NACLi_MMX (FLAGS [OpcodeInModRm; ModRmModIsnt0x3; OpcodeUsesModRm; PartialInstruction]) InstDontCare 0 1 185 364;
  mkInst NACLi_386 (FLAGS [OpcodeUsesModRm; NaClIllegal; PartialInstruction]) InstDontCare 0 0 0 NACL_OPCODE_NULL_OFFSET;
  mkInst NACLi_386 (FLAGS [OpcodeInModRm; OpcodeUsesModRm; PartialInstruction]) InstDontCare 0 0 0 366;
  mkInst NACLi_SYSTEM (FLAGS [ModRmModIs0x3; OpcodeUsesModRm; NaClIllegal; PartialInstruction]) InstDontCare 0 0 0 NACL_OPCODE_NULL_OFFSET;
  mkInst NACLi_SSE (FLAGS [OpcodeUsesModRm; PartialInstruction]) InstDontCare 0 1 193 NACL_OPCODE_NULL_OFFSET
].

Definition g_Opcodes_10 : list NaClInst := [
  mkInst NACLi_SSE (FLAGS [ModRmModIsnt0x3; OpcodeUsesModRm; PartialInstruction]) InstDontCare 0 1 194 NACL_OPCODE_NULL_OFFSET;
  mkInst NACLi_SSE (FLAGS [OpcodeUsesModRm; PartialInstruction]) InstDontCare 0 1 195 NACL_OPCODE_NULL_OFFSET;
  mkInst NACLi_RDMSR (FLAGS [NaClIllegal; PartialInstruction]) InstDontCare 0 0 0 NACL_OPCODE_NULL_OFFSET;
  mkInst NACLi_RDTSC (FLAGS [PartialInstruction]) InstDontCare 0 2 196 NACL_OPCODE_NULL_OFFSET;
  mkInst NACLi_SYSENTER (FLAGS [NaClIllegal; PartialInstruction]) InstDontCare 0 0 0 NACL_OPCODE_NULL_OFFSET;
  mkInst NACLi_CMOV (FLAGS [OpcodeUsesModRm; OpcodeAllowsData16; OperandSize_w; OperandSize_v; OperandSize_o; PartialInstruction]) InstDontCare 0 2 198 NACL_OPCODE_NULL_OFFSET;
  mkInst NACLi_SSE (FLAGS [ModRmModIs0x3; OpcodeUsesModRm; PartialInstruction]) InstDontCare 0 2 200 NACL_OPCODE_NULL_OFFSET;
  mkInst NACLi_SSE2 (FLAGS [OpcodeUsesModRm; PartialInstruction]) InstDontCare 0 1 189 NACL_OPCODE_NULL_OFFSET;
  mkInst NACLi_SSE2 (FLAGS [OpcodeUsesModRm; PartialInstruction]) InstDontCare 0 1 202 NACL_OPCODE_NULL_OFFSET;
  mkInst NACLi_MMX (FLAGS [OpcodeUsesModRm; PartialInstruction]) InstDontCare 0 1 193 NACL_OPCODE_NULL_OFFSET;
  mkInst NACLi_MMX (FLAGS [OpcodeUsesModRm; PartialInstruction]) InstDontCare 0 1 203 NACL_OPCODE_NULL_OFFSET;
  mkInst NACLi_MMX (FLAGS [OpcodeUsesModRm; SizeIgnoresData16; OperandSize_o; PartialInstruction]) InstDontCare 0 1 204 NACL_OPCODE_NULL_OFFSET;
  mkInst NACLi_MMX (FLAGS [OpcodeUsesModRm; SizeIgnoresData16; OperandSize_v; PartialInstruction]) InstDontCare 0 1 205 381;
  mkInst NACLi_MMX (FLAGS [OpcodeUsesModRm; OpcodeHasImmed_b; PartialInstruction]) InstDontCare 0 2 206 NACL_OPCODE_NULL_OFFSET;
  mkInst NACLi_MMX (FLAGS [OpcodeInModRm; ModRmModIs0x3; OpcodeUsesModRm; OpcodeHasImmed_b; PartialInstruction]) InstDontCare 6 2 208 82;
  mkInst NACLi_INVALID (FLAGS [OpcodeInModRm; OpcodeUsesModRm; NaClIllegal]) InstInvalid 5 0 0 384;
  mkInst NACLi_MMX (FLAGS [OpcodeInModRm; ModRmModIs0x3; OpcodeUsesModRm; OpcodeHasImmed_b; PartialInstruction]) InstDontCare 4 2 208 385;
  mkInst NACLi_INVALID (FLAGS [OpcodeInModRm; OpcodeUsesModRm; NaClIllegal]) InstInvalid 3 0 0 386;
  mkInst NACLi_MMX (FLAGS [OpcodeInModRm; ModRmModIs0x3; OpcodeUsesModRm; OpcodeHasImmed_b; PartialInstruction]) InstDontCare 2 2 208 387;
  mkInst NACLi_INVALID (FLAGS [OpcodeInModRm; OpcodeUsesModRm; NaClIllegal]) InstInvalid 1 0 0 388;
  mkInst NACLi_INVALID (FLAGS [OpcodeInModRm; OpcodeUsesModRm; NaClIllegal]) InstInvalid 0 0 0 389;
  mkInst NACLi_INVALID (FLAGS [OpcodeInModRm; OpcodeUsesModRm; NaClIllegal]) InstInvalid 4 0 0 385;
  mkInst NACLi_INVALID (FLAGS [OpcodeInModRm; OpcodeUsesModRm; NaClIllegal]) InstInvalid 3 0 0 391;
  mkInst NACLi_MMX (FLAGS [OpcodeInModRm; ModRmModIs0x3; OpcodeUsesModRm; OpcodeHasImmed_b; PartialInstruction]) InstDontCare 2 2 208 392;
  mkInst NACLi_INVALID (FLAGS [OpcodeInModRm; OpcodeUsesModRm; NaClIllegal]) InstInvalid 1 0 0 393;
  mkInst NACLi_INVALID (FLAGS [OpcodeInModRm; OpcodeUsesModRm; NaClIllegal]) InstInvalid 0 0 0 394;
  mkInst NACLi_MMX (FLAGS [PartialInstruction]) InstDontCare 0 0 0 NACL_OPCODE_NULL_OFFSET;
  mkInst NACLi_MMX (FLAGS [OpcodeUsesModRm; SizeIgnoresData16; OperandSize_o; PartialInstruction]) InstDontCare 0 1 210 NACL_OPCODE_NULL_OFFSET;
  mkInst NACLi_MMX (FLAGS [OpcodeUsesModRm; SizeIgnoresData16; OperandSize_v; PartialInstruction]) InstDontCare 0 1 211 397;
  mkInst NACLi_MMX (FLAGS [OpcodeUsesModRm; PartialInstruction]) InstDontCare 0 1 212 NACL_OPCODE_NULL_OFFSET;
  mkInst NACLi_386 (FLAGS [OpcodeHasImmed_v; OperandSize_v; OperandSize_o; OperandSizeDefaultIs64; ConditionalJump; PartialInstruction]) InstDontCareCondJump 0 2 169 NACL_OPCODE_NULL_OFFSET;
  mkInst NACLi_386 (FLAGS [OpcodeUsesModRm; OperandSize_b; PartialInstruction]) InstDontCare 0 1 64 NACL_OPCODE_NULL_OFFSET;
  mkInst NACLi_386 (FLAGS [PartialInstruction]) InstDontCare 0 4 213 NACL_OPCODE_NULL_OFFSET;
  mkInst NACLi_386 (FLAGS [OpcodeUsesModRm; OpcodeAllowsData16; OperandSize_w; OperandSize_v; OperandSize_o; NaClIllegal; PartialInstruction]) InstDontCare 0 0 0 NACL_OPCODE_NULL_OFFSET;
  mkInst NACLi_386 (FLAGS [OpcodeUsesModRm; OpcodeHasImmed_b; OpcodeAllowsData16; OperandSize_w; OperandSize_v; OperandSize_o; PartialInstruction]) InstDontCare 0 3 217 NACL_OPCODE_NULL_OFFSET;
  mkInst NACLi_386 (FLAGS [OpcodeUsesModRm; OpcodeAllowsData16; OperandSize_w; OperandSize_v; OperandSize_o; PartialInstruction]) InstDontCare 0 3 220 NACL_OPCODE_NULL_OFFSET;
  mkInst NACLi_386 (FLAGS [OpcodeUsesModRm; OpcodeLockable; OpcodeAllowsData16; OperandSize_w; OperandSize_v; OperandSize_o; NaClIllegal; PartialInstruction]) InstDontCare 0 0 0 NACL_OPCODE_NULL_OFFSET
].

Definition g_Opcodes_11 : list NaClInst := [
  mkInst NACLi_386 (FLAGS [OpcodeUsesModRm; OpcodeHasImmed_b; OpcodeAllowsData16; OperandSize_w; OperandSize_v; OperandSize_o; PartialInstruction]) InstDontCare 0 3 223 NACL_OPCODE_NULL_OFFSET;
  mkInst NACLi_386 (FLAGS [OpcodeUsesModRm; OpcodeAllowsData16; OperandSize_w; OperandSize_v; OperandSize_o; PartialInstruction]) InstDontCare 0 3 226 NACL_OPCODE_NULL_OFFSET;
  mkInst NACLi_SFENCE_CLFLUSH (FLAGS [OpcodeInModRm; ModRmModIsnt0x3; OpcodeUsesModRm; PartialInstruction]) InstDontCare 7 1 229 NACL_OPCODE_NULL_OFFSET;
  mkInst NACLi_SFENCE_CLFLUSH (FLAGS [OpcodeInModRm; OpcodeInModRmRm; ModRmModIs0x3; OpcodeUsesModRm; PartialInstruction]) InstDontCare 119 0 0 409;
  mkInst NACLi_SFENCE_CLFLUSH (FLAGS [OpcodeInModRm; OpcodeInModRmRm; ModRmModIs0x3; OpcodeUsesModRm; PartialInstruction]) InstDontCare 103 0 0 410;
  mkInst NACLi_SFENCE_CLFLUSH (FLAGS [OpcodeInModRm; OpcodeInModRmRm; ModRmModIs0x3; OpcodeUsesModRm; PartialInstruction]) InstDontCare 87 0 0 411;
  mkInst NACLi_SFENCE_CLFLUSH (FLAGS [OpcodeInModRm; OpcodeInModRmRm; ModRmModIs0x3; OpcodeUsesModRm; PartialInstruction]) InstDontCare 71 0 0 412;
  mkInst NACLi_SFENCE_CLFLUSH (FLAGS [OpcodeInModRm; OpcodeInModRmRm; ModRmModIs0x3; OpcodeUsesModRm; PartialInstruction]) InstDontCare 55 0 0 413;
  mkInst NACLi_SFENCE_CLFLUSH (FLAGS [OpcodeInModRm; OpcodeInModRmRm; ModRmModIs0x3; OpcodeUsesModRm; PartialInstruction]) InstDontCare 39 0 0 414;
  mkInst NACLi_SFENCE_CLFLUSH (FLAGS [OpcodeInModRm; OpcodeInModRmRm; ModRmModIs0x3; OpcodeUsesModRm; PartialInstruction]) InstDontCare 23 0 0 415;
  mkInst NACLi_SFENCE_CLFLUSH (FLAGS [OpcodeInModRm; OpcodeInModRmRm; ModRmModIs0x3; OpcodeUsesModRm; PartialInstruction]) InstDontCare 7 0 0 416;
  mkInst NACLi_SSE2 (FLAGS [OpcodeInModRm; OpcodeInModRmRm; ModRmModIs0x3; OpcodeUsesModRm; PartialInstruction]) InstDontCare 118 0 0 417;
  mkInst NACLi_SSE2 (FLAGS [OpcodeInModRm; OpcodeInModRmRm; ModRmModIs0x3; OpcodeUsesModRm; PartialInstruction]) InstDontCare 102 0 0 418;
  mkInst NACLi_SSE2 (FLAGS [OpcodeInModRm; OpcodeInModRmRm; ModRmModIs0x3; OpcodeUsesModRm; PartialInstruction]) InstDontCare 86 0 0 419;
  mkInst NACLi_SSE2 (FLAGS [OpcodeInModRm; OpcodeInModRmRm; ModRmModIs0x3; OpcodeUsesModRm; PartialInstruction]) InstDontCare 70 0 0 420;
  mkInst NACLi_SSE2 (FLAGS [OpcodeInModRm; OpcodeInModRmRm; ModRmModIs0x3; OpcodeUsesModRm; PartialInstruction]) InstDontCare 54 0 0 421;
  mkInst NACLi_SSE2 (FLAGS [OpcodeInModRm; OpcodeInModRmRm; ModRmModIs0x3; OpcodeUsesModRm; PartialInstruction]) InstDontCare 38 0 0 422;
  mkInst NACLi_SSE2 (FLAGS [OpcodeInModRm; OpcodeInModRmRm; ModRmModIs0x3; OpcodeUsesModRm; PartialInstruction]) InstDontCare 22 0 0 423;
  mkInst NACLi_SSE2 (FLAGS [OpcodeInModRm; OpcodeInModRmRm; ModRmModIs0x3; OpcodeUsesModRm; PartialInstruction]) InstDontCare 6 0 0 424;
  mkInst NACLi_SSE2 (FLAGS [OpcodeInModRm; OpcodeInModRmRm; ModRmModIs0x3; OpcodeUsesModRm; PartialInstruction]) InstDontCare 117 0 0 425;
  mkInst NACLi_SSE2 (FLAGS [OpcodeInModRm; OpcodeInModRmRm; ModRmModIs0x3; OpcodeUsesModRm; PartialInstruction]) InstDontCare 101 0 0 426;
  mkInst NACLi_SSE2 (FLAGS [OpcodeInModRm; OpcodeInModRmRm; ModRmModIs0x3; OpcodeUsesModRm; PartialInstruction]) InstDontCare 85 0 0 427;
  mkInst NACLi_SSE2 (FLAGS [OpcodeInModRm; OpcodeInModRmRm; ModRmModIs0x3; OpcodeUsesModRm; PartialInstruction]) InstDontCare 69 0 0 428;
  mkInst NACLi_SSE2 (FLAGS [OpcodeInModRm; OpcodeInModRmRm; ModRmModIs0x3; OpcodeUsesModRm; PartialInstruction]) InstDontCare 53 0 0 429;
  mkInst NACLi_SSE2 (FLAGS [OpcodeInModRm; OpcodeInModRmRm; ModRmModIs0x3; OpcodeUsesModRm; PartialInstruction]) InstDontCare 37 0 0 430;
  mkInst NACLi_SSE2 (FLAGS [OpcodeInModRm; OpcodeInModRmRm; ModRmModIs0x3; OpcodeUsesModRm; PartialInstruction]) InstDontCare 21 0 0 431;
  mkInst NACLi_SSE2 (FLAGS [OpcodeInModRm; OpcodeInModRmRm; ModRmModIs0x3; OpcodeUsesModRm; PartialInstruction]) InstDontCare 5 0 0 432;
  mkInst NACLi_INVALID (FLAGS [OpcodeInModRm; OpcodeUsesModRm; NaClIllegal]) InstInvalid 4 0 0 433;
  mkInst NACLi_SSE (FLAGS [OpcodeInModRm; ModRmModIsnt0x3; OpcodeUsesModRm; PartialInstruction]) InstDontCare 3 1 157 434;
  mkInst NACLi_SSE (FLAGS [OpcodeInModRm; ModRmModIsnt0x3; OpcodeUsesModRm; PartialInstruction]) InstDontCare 2 1 152 435;
  mkInst NACLi_FXSAVE (FLAGS [OpcodeInModRm; ModRmModIsnt0x3; OpcodeUsesModRm; OpcodeAllowsData16; NaClIllegal; PartialInstruction]) InstDontCare 1 0 0 436;
  mkInst NACLi_FXSAVE (FLAGS [OpcodeInModRm; ModRmModIsnt0x3; OpcodeUsesModRm; OpcodeAllowsData16; NaClIllegal; PartialInstruction]) InstDontCare 0 0 0 437;
  mkInst NACLi_386 (FLAGS [OpcodeUsesModRm; OpcodeAllowsData16; OperandSize_w; OperandSize_v; OperandSize_o; PartialInstruction]) InstDontCare 0 2 6 NACL_OPCODE_NULL_OFFSET;
  mkInst NACLi_386 (FLAGS [OpcodeUsesModRm; OpcodeLockable; OperandSize_b; PartialInstruction]) InstDontCare 0 3 230 NACL_OPCODE_NULL_OFFSET;
  mkInst NACLi_386 (FLAGS [OpcodeUsesModRm; OpcodeLockable; OpcodeAllowsData16; OperandSize_w; OperandSize_v; OperandSize_o; PartialInstruction]) InstDontCare 0 3 233 NACL_OPCODE_NULL_OFFSET;
  mkInst NACLi_386 (FLAGS [ModRmModIsnt0x3; OpcodeUsesModRm; OpcodeAllowsData16; OperandSize_w; OperandSize_v; OperandSize_o; NaClIllegal; PartialInstruction]) InstDontCare 0 0 0 NACL_OPCODE_NULL_OFFSET;
  mkInst NACLi_386 (FLAGS [OpcodeUsesModRm; OpcodeAllowsData16; OperandSize_w; OperandSize_v; OperandSize_o; PartialInstruction]) InstDontCare 0 2 236 NACL_OPCODE_NULL_OFFSET
].

Definition g_Opcodes_12 : list NaClInst := [
  mkInst NACLi_386 (FLAGS [OpcodeUsesModRm; OpcodeAllowsData16; OperandSize_w; OperandSize_v; OperandSize_o; PartialInstruction]) InstDontCare 0 2 238 NACL_OPCODE_NULL_OFFSET;
  mkInst NACLi_386 (FLAGS [OpcodeInModRm; OpcodeUsesModRm; OpcodeHasImmed_b; OpcodeLockable; OpcodeAllowsData16; OperandSize_w; OperandSize_v; OperandSize_o; PartialInstruction]) InstDontCare 7 2 58 107;
  mkInst NACLi_386 (FLAGS [OpcodeInModRm; OpcodeUsesModRm; OpcodeHasImmed_b; OpcodeLockable; OpcodeAllowsData16; OperandSize_w; OperandSize_v; OperandSize_o; PartialInstruction]) InstDontCare 6 2 58 445;
  mkInst NACLi_386 (FLAGS [OpcodeInModRm; OpcodeUsesModRm; OpcodeHasImmed_b; OpcodeLockable; OpcodeAllowsData16; OperandSize_w; OperandSize_v; OperandSize_o; PartialInstruction]) InstDontCare 5 2 58 446;
  mkInst NACLi_386 (FLAGS [OpcodeInModRm; OpcodeUsesModRm; OpcodeHasImmed_b; OpcodeAllowsData16; OperandSize_w; OperandSize_v; OperandSize_o; PartialInstruction]) InstDontCare 4 2 44 447;
  mkInst NACLi_386 (FLAGS [OpcodeUsesModRm; OpcodeAllowsData16; OperandSize_w; OperandSize_v; OperandSize_o; PartialInstruction]) InstDontCare 0 2 198 NACL_OPCODE_NULL_OFFSET;
  mkInst NACLi_SSE (FLAGS [OpcodeUsesModRm; OpcodeHasImmed_b; PartialInstruction]) InstDontCare 0 2 240 NACL_OPCODE_NULL_OFFSET;
  mkInst NACLi_SSE2 (FLAGS [ModRmModIsnt0x3; OpcodeUsesModRm; SizeIgnoresData16; OperandSize_v; OperandSize_o; PartialInstruction]) InstDontCare 0 2 242 NACL_OPCODE_NULL_OFFSET;
  mkInst NACLi_SSE (FLAGS [OpcodeUsesModRm; OpcodeHasImmed_b; SizeIgnoresData16; OperandSize_v; OperandSize_o; PartialInstruction]) InstDontCare 0 2 244 NACL_OPCODE_NULL_OFFSET;
  mkInst NACLi_SSE41 (FLAGS [ModRmModIs0x3; OpcodeUsesModRm; OpcodeHasImmed_b; PartialInstruction]) InstDontCare 0 3 246 NACL_OPCODE_NULL_OFFSET;
  mkInst NACLi_CMPXCHG16B (FLAGS [OpcodeInModRm; ModRmModIsnt0x3; OpcodeUsesModRm; OpcodeLockable; OperandSize_o; PartialInstruction]) InstDontCare 1 3 249 107;
  mkInst NACLi_CMPXCHG8B (FLAGS [OpcodeInModRm; ModRmModIsnt0x3; OpcodeUsesModRm; OpcodeLockable; OperandSize_v; PartialInstruction]) InstDontCare 1 3 252 454;
  mkInst NACLi_386 (FLAGS [OpcodePlusR; OpcodeAllowsData16; OperandSize_w; OperandSize_v; OperandSize_o; PartialInstruction]) InstDontCare 0 1 255 NACL_OPCODE_NULL_OFFSET;
  mkInst NACLi_386 (FLAGS [OpcodePlusR; OpcodeAllowsData16; OperandSize_w; OperandSize_v; OperandSize_o; PartialInstruction]) InstDontCare 1 1 255 NACL_OPCODE_NULL_OFFSET;
  mkInst NACLi_386 (FLAGS [OpcodePlusR; OpcodeAllowsData16; OperandSize_w; OperandSize_v; OperandSize_o; PartialInstruction]) InstDontCare 2 1 255 NACL_OPCODE_NULL_OFFSET;
  mkInst NACLi_386 (FLAGS [OpcodePlusR; OpcodeAllowsData16; OperandSize_w; OperandSize_v; OperandSize_o; PartialInstruction]) InstDontCare 3 1 255 NACL_OPCODE_NULL_OFFSET;
  mkInst NACLi_386 (FLAGS [OpcodePlusR; OpcodeAllowsData16; OperandSize_w; OperandSize_v; OperandSize_o; PartialInstruction]) InstDontCare 4 1 255 NACL_OPCODE_NULL_OFFSET;
  mkInst NACLi_386 (FLAGS [OpcodePlusR; OpcodeAllowsData16; OperandSize_w; OperandSize_v; OperandSize_o; PartialInstruction]) InstDontCare 5 1 255 NACL_OPCODE_NULL_OFFSET;
  mkInst NACLi_386 (FLAGS [OpcodePlusR; OpcodeAllowsData16; OperandSize_w; OperandSize_v; OperandSize_o; PartialInstruction]) InstDontCare 6 1 255 NACL_OPCODE_NULL_OFFSET;
  mkInst NACLi_386 (FLAGS [OpcodePlusR; OpcodeAllowsData16; OperandSize_w; OperandSize_v; OperandSize_o; PartialInstruction]) InstDontCare 7 1 255 NACL_OPCODE_NULL_OFFSET;
  mkInst NACLi_MMX (FLAGS [ModRmModIs0x3; OpcodeUsesModRm; PartialInstruction]) InstDontCare 0 2 246 NACL_OPCODE_NULL_OFFSET;
  mkInst NACLi_MMX (FLAGS [ModRmModIsnt0x3; OpcodeUsesModRm; PartialInstruction]) InstDontCare 0 1 159 NACL_OPCODE_NULL_OFFSET;
  mkInst NACLi_MMX (FLAGS [ModRmModIs0x3; OpcodeUsesModRm; OperandSize_v; PartialInstruction]) InstDontCare 0 2 256 NACL_OPCODE_NULL_OFFSET;
  mkInst NACLi_SSE2 (FLAGS [OpcodeUsesModRm; OpcodeAllowsRepne; PartialInstruction]) InstDontCare 0 1 258 NACL_OPCODE_NULL_OFFSET;
  mkInst NACLi_SSE2 (FLAGS [OpcodeUsesModRm; OpcodeAllowsRepne; PartialInstruction]) InstDontCare 0 1 259 NACL_OPCODE_NULL_OFFSET;
  mkInst NACLi_SSE3 (FLAGS [OpcodeUsesModRm; OpcodeAllowsRepne; PartialInstruction]) InstDontCare 0 1 258 NACL_OPCODE_NULL_OFFSET;
  mkInst NACLi_INVALID (FLAGS [OpcodeAllowsRepne; NaClIllegal]) InstInvalid 0 0 0 NACL_OPCODE_NULL_OFFSET;
  mkInst NACLi_SSE2 (FLAGS [OpcodeUsesModRm; OpcodeAllowsRepne; SizeIgnoresData16; OperandSize_v; OperandSize_o; PartialInstruction]) InstDontCare 0 1 260 NACL_OPCODE_NULL_OFFSET;
  mkInst NACLi_SSE4A (FLAGS [ModRmModIsnt0x3; OpcodeUsesModRm; OpcodeAllowsRepne; PartialInstruction]) InstDontCare 0 1 159 NACL_OPCODE_NULL_OFFSET;
  mkInst NACLi_SSE2 (FLAGS [OpcodeUsesModRm; OpcodeAllowsRepne; SizeIgnoresData16; OperandSize_v; OperandSize_o; PartialInstruction]) InstDontCare 0 2 261 NACL_OPCODE_NULL_OFFSET;
  mkInst NACLi_SSE2 (FLAGS [OpcodeUsesModRm; OpcodeHasImmed_b; OpcodeAllowsRepne; PartialInstruction]) InstDontCare 0 2 263 NACL_OPCODE_NULL_OFFSET;
  mkInst NACLi_SSE4A (FLAGS [ModRmModIs0x3; OpcodeUsesModRm; OpcodeHasImmed_b; OpcodeHasImmed2_b; OpcodeAllowsRepne; PartialInstruction]) InstDontCare 0 3 265 NACL_OPCODE_NULL_OFFSET;
  mkInst NACLi_SSE4A (FLAGS [ModRmModIs0x3; OpcodeUsesModRm; OpcodeAllowsRepne; PartialInstruction]) InstDontCare 0 1 268 NACL_OPCODE_NULL_OFFSET;
  mkInst NACLi_SSE3 (FLAGS [OpcodeUsesModRm; OpcodeAllowsRepne; PartialInstruction]) InstDontCare 0 1 189 NACL_OPCODE_NULL_OFFSET;
  mkInst NACLi_SSE2 (FLAGS [OpcodeUsesModRm; OpcodeHasImmed_b; OpcodeAllowsRepne; PartialInstruction]) InstDontCare 0 2 269 NACL_OPCODE_NULL_OFFSET;
  mkInst NACLi_SSE3 (FLAGS [OpcodeUsesModRm; OpcodeAllowsRepne; PartialInstruction]) InstDontCare 0 1 271 NACL_OPCODE_NULL_OFFSET;
  mkInst NACLi_SSE2 (FLAGS [ModRmModIs0x3; OpcodeUsesModRm; OpcodeAllowsRepne; PartialInstruction]) InstDontCare 0 1 191 NACL_OPCODE_NULL_OFFSET
].

Definition g_Opcodes_13 : list NaClInst := [
  mkInst NACLi_SSE2 (FLAGS [OpcodeUsesModRm; OpcodeAllowsRepne; PartialInstruction]) InstDontCare 0 1 271 NACL_OPCODE_NULL_OFFSET;
  mkInst NACLi_SSE3 (FLAGS [ModRmModIsnt0x3; OpcodeUsesModRm; OpcodeAllowsRepne; PartialInstruction]) InstDontCare 0 1 272 NACL_OPCODE_NULL_OFFSET;
  mkInst NACLi_SSE (FLAGS [OpcodeUsesModRm; OpcodeAllowsRep; PartialInstruction]) InstDontCare 0 1 195 NACL_OPCODE_NULL_OFFSET;
  mkInst NACLi_SSE (FLAGS [OpcodeUsesModRm; OpcodeAllowsRep; PartialInstruction]) InstDontCare 0 1 273 NACL_OPCODE_NULL_OFFSET;
  mkInst NACLi_SSE3 (FLAGS [OpcodeUsesModRm; OpcodeAllowsRep; PartialInstruction]) InstDontCare 0 1 189 NACL_OPCODE_NULL_OFFSET;
  mkInst NACLi_INVALID (FLAGS [OpcodeAllowsRep; NaClIllegal]) InstInvalid 0 0 0 NACL_OPCODE_NULL_OFFSET;
  mkInst NACLi_SSE (FLAGS [OpcodeUsesModRm; OpcodeAllowsRep; SizeIgnoresData16; OperandSize_v; OperandSize_o; PartialInstruction]) InstDontCare 0 1 260 NACL_OPCODE_NULL_OFFSET;
  mkInst NACLi_SSE4A (FLAGS [ModRmModIsnt0x3; OpcodeUsesModRm; OpcodeAllowsRep; PartialInstruction]) InstDontCare 0 1 157 NACL_OPCODE_NULL_OFFSET;
  mkInst NACLi_SSE (FLAGS [OpcodeUsesModRm; OpcodeAllowsRep; SizeIgnoresData16; OperandSize_v; OperandSize_o; PartialInstruction]) InstDontCare 0 2 274 NACL_OPCODE_NULL_OFFSET;
  mkInst NACLi_SSE (FLAGS [OpcodeUsesModRm; OpcodeAllowsRep; PartialInstruction]) InstDontCare 0 1 189 NACL_OPCODE_NULL_OFFSET;
  mkInst NACLi_SSE2 (FLAGS [OpcodeUsesModRm; OpcodeAllowsRep; PartialInstruction]) InstDontCare 0 1 195 NACL_OPCODE_NULL_OFFSET;
  mkInst NACLi_SSE2 (FLAGS [OpcodeUsesModRm; OpcodeAllowsRep; PartialInstruction]) InstDontCare 0 1 189 NACL_OPCODE_NULL_OFFSET;
  mkInst NACLi_SSE2 (FLAGS [OpcodeUsesModRm; OpcodeAllowsRep; PartialInstruction]) InstDontCare 0 1 202 NACL_OPCODE_NULL_OFFSET;
  mkInst NACLi_SSE2 (FLAGS [OpcodeUsesModRm; OpcodeHasImmed_b; OpcodeAllowsRep; PartialInstruction]) InstDontCare 0 2 263 NACL_OPCODE_NULL_OFFSET;
  mkInst NACLi_SSE2 (FLAGS [OpcodeUsesModRm; OpcodeAllowsRep; PartialInstruction]) InstDontCare 0 1 192 NACL_OPCODE_NULL_OFFSET;
  mkInst NACLi_SSE2 (FLAGS [OpcodeUsesModRm; OpcodeAllowsRep; PartialInstruction]) InstDontCare 0 1 276 NACL_OPCODE_NULL_OFFSET;
  mkInst NACLi_POPCNT (FLAGS [OpcodeUsesModRm; OpcodeAllowsRep; OpcodeAllowsData16; OperandSize_w; OperandSize_v; OperandSize_o; PartialInstruction]) InstDontCare 0 2 198 NACL_OPCODE_NULL_OFFSET;
  mkInst NACLi_LZCNT (FLAGS [OpcodeUsesModRm; OpcodeAllowsRep; OpcodeAllowsData16; OperandSize_w; OperandSize_v; OperandSize_o; PartialInstruction]) InstDontCare 0 2 198 NACL_OPCODE_NULL_OFFSET;
  mkInst NACLi_SSE (FLAGS [OpcodeUsesModRm; OpcodeHasImmed_b; OpcodeAllowsRep; PartialInstruction]) InstDontCare 0 2 277 NACL_OPCODE_NULL_OFFSET;
  mkInst NACLi_SSE2 (FLAGS [ModRmModIs0x3; OpcodeUsesModRm; OpcodeAllowsRep; PartialInstruction]) InstDontCare 0 1 247 NACL_OPCODE_NULL_OFFSET;
  mkInst NACLi_SSE2 (FLAGS [OpcodeUsesModRm; OpcodeAllowsData16; SizeIgnoresData16; PartialInstruction]) InstDontCare 0 1 271 NACL_OPCODE_NULL_OFFSET;
  mkInst NACLi_SSE2 (FLAGS [OpcodeUsesModRm; OpcodeAllowsData16; SizeIgnoresData16; PartialInstruction]) InstDontCare 0 1 279 NACL_OPCODE_NULL_OFFSET;
  mkInst NACLi_SSE2 (FLAGS [ModRmModIsnt0x3; OpcodeUsesModRm; OpcodeAllowsData16; SizeIgnoresData16; PartialInstruction]) InstDontCare 0 1 158 NACL_OPCODE_NULL_OFFSET;
  mkInst NACLi_SSE2 (FLAGS [ModRmModIsnt0x3; OpcodeUsesModRm; OpcodeAllowsData16; SizeIgnoresData16; PartialInstruction]) InstDontCare 0 1 159 NACL_OPCODE_NULL_OFFSET;
  mkInst NACLi_SSE2 (FLAGS [OpcodeUsesModRm; OpcodeAllowsData16; SizeIgnoresData16; PartialInstruction]) InstDontCare 0 1 192 NACL_OPCODE_NULL_OFFSET;
  mkInst NACLi_SSE2 (FLAGS [OpcodeUsesModRm; OpcodeAllowsData16; SizeIgnoresData16; PartialInstruction]) InstDontCare 0 1 193 NACL_OPCODE_NULL_OFFSET;
  mkInst NACLi_SSE2 (FLAGS [ModRmModIsnt0x3; OpcodeUsesModRm; OpcodeAllowsData16; SizeIgnoresData16; PartialInstruction]) InstDontCare 0 1 194 NACL_OPCODE_NULL_OFFSET;
  mkInst NACLi_SSE2 (FLAGS [OpcodeUsesModRm; OpcodeAllowsData16; SizeIgnoresData16; PartialInstruction]) InstDontCare 0 1 258 NACL_OPCODE_NULL_OFFSET;
  mkInst NACLi_SSE2 (FLAGS [ModRmModIs0x3; OpcodeUsesModRm; OpcodeAllowsData16; SizeIgnoresData16; PartialInstruction]) InstDontCare 0 2 280 NACL_OPCODE_NULL_OFFSET;
  mkInst NACLi_INVALID (FLAGS [OpcodeAllowsData16; SizeIgnoresData16; NaClIllegal]) InstInvalid 0 0 0 NACL_OPCODE_NULL_OFFSET;
  mkInst NACLi_SSE2 (FLAGS [OpcodeUsesModRm; OpcodeAllowsData16; SizeIgnoresData16; PartialInstruction]) InstDontCare 0 1 189 NACL_OPCODE_NULL_OFFSET;
  mkInst NACLi_SSE2 (FLAGS [OpcodeUsesModRm; OpcodeAllowsData16; SizeIgnoresData16; PartialInstruction]) InstDontCare 0 1 202 NACL_OPCODE_NULL_OFFSET;
  mkInst NACLi_SSE2 (FLAGS [OpcodeUsesModRm; OpcodeAllowsData16; SizeIgnoresData16; OperandSize_o; PartialInstruction]) InstDontCare 0 1 204 NACL_OPCODE_NULL_OFFSET;
  mkInst NACLi_SSE2 (FLAGS [OpcodeUsesModRm; OpcodeAllowsData16; SizeIgnoresData16; OperandSize_v; PartialInstruction]) InstDontCare 0 1 205 513;
  mkInst NACLi_SSE2 (FLAGS [OpcodeUsesModRm; OpcodeHasImmed_b; OpcodeAllowsData16; SizeIgnoresData16; PartialInstruction]) InstDontCare 0 2 282 NACL_OPCODE_NULL_OFFSET;
  mkInst NACLi_INVALID (FLAGS [OpcodeInModRm; OpcodeUsesModRm; OpcodeAllowsData16; SizeIgnoresData16; NaClIllegal]) InstInvalid 7 0 0 NACL_OPCODE_NULL_OFFSET;
  mkInst NACLi_SSE2 (FLAGS [OpcodeInModRm; ModRmModIs0x3; OpcodeUsesModRm; OpcodeHasImmed_b; OpcodeAllowsData16; SizeIgnoresData16; PartialInstruction]) InstDontCare 6 2 284 516
].

Definition g_Opcodes_14 : list NaClInst := [
  mkInst NACLi_INVALID (FLAGS [OpcodeInModRm; OpcodeUsesModRm; OpcodeAllowsData16; SizeIgnoresData16; NaClIllegal]) InstInvalid 5 0 0 517;
  mkInst NACLi_SSE2 (FLAGS [OpcodeInModRm; ModRmModIs0x3; OpcodeUsesModRm; OpcodeHasImmed_b; OpcodeAllowsData16; SizeIgnoresData16; PartialInstruction]) InstDontCare 4 2 284 518;
  mkInst NACLi_INVALID (FLAGS [OpcodeInModRm; OpcodeUsesModRm; OpcodeAllowsData16; SizeIgnoresData16; NaClIllegal]) InstInvalid 3 0 0 519;
  mkInst NACLi_SSE2 (FLAGS [OpcodeInModRm; ModRmModIs0x3; OpcodeUsesModRm; OpcodeHasImmed_b; OpcodeAllowsData16; SizeIgnoresData16; PartialInstruction]) InstDontCare 2 2 284 520;
  mkInst NACLi_INVALID (FLAGS [OpcodeInModRm; OpcodeUsesModRm; OpcodeAllowsData16; SizeIgnoresData16; NaClIllegal]) InstInvalid 1 0 0 521;
  mkInst NACLi_INVALID (FLAGS [OpcodeInModRm; OpcodeUsesModRm; OpcodeAllowsData16; SizeIgnoresData16; NaClIllegal]) InstInvalid 0 0 0 522;
  mkInst NACLi_SSE2 (FLAGS [OpcodeInModRm; ModRmModIs0x3; OpcodeUsesModRm; OpcodeHasImmed_b; OpcodeAllowsData16; SizeIgnoresData16; PartialInstruction]) InstDontCare 7 2 284 NACL_OPCODE_NULL_OFFSET;
  mkInst NACLi_SSE2 (FLAGS [OpcodeInModRm; ModRmModIs0x3; OpcodeUsesModRm; OpcodeHasImmed_b; OpcodeAllowsData16; SizeIgnoresData16; PartialInstruction]) InstDontCare 6 2 284 524;
  mkInst NACLi_INVALID (FLAGS [OpcodeInModRm; OpcodeUsesModRm; OpcodeAllowsData16; SizeIgnoresData16; NaClIllegal]) InstInvalid 5 0 0 525;
  mkInst NACLi_INVALID (FLAGS [OpcodeInModRm; OpcodeUsesModRm; OpcodeAllowsData16; SizeIgnoresData16; NaClIllegal]) InstInvalid 4 0 0 526;
  mkInst NACLi_SSE2 (FLAGS [OpcodeInModRm; ModRmModIs0x3; OpcodeUsesModRm; OpcodeHasImmed_b; OpcodeAllowsData16; SizeIgnoresData16; PartialInstruction]) InstDontCare 3 2 284 527;
  mkInst NACLi_SSE2 (FLAGS [OpcodeInModRm; ModRmModIs0x3; OpcodeUsesModRm; OpcodeHasImmed_b; OpcodeAllowsData16; SizeIgnoresData16; PartialInstruction]) InstDontCare 2 2 284 528;
  mkInst NACLi_INVALID (FLAGS [OpcodeInModRm; OpcodeUsesModRm; OpcodeAllowsData16; SizeIgnoresData16; NaClIllegal]) InstInvalid 1 0 0 529;
  mkInst NACLi_INVALID (FLAGS [OpcodeInModRm; OpcodeUsesModRm; OpcodeAllowsData16; SizeIgnoresData16; NaClIllegal]) InstInvalid 0 0 0 530;
  mkInst NACLi_INVALID (FLAGS [OpcodeUsesModRm; OpcodeAllowsData16; SizeIgnoresData16; NaClIllegal]) InstInvalid 0 0 0 NACL_OPCODE_NULL_OFFSET;
  mkInst NACLi_SSE4A (FLAGS [OpcodeInModRm; OpcodeUsesModRm; OpcodeHasImmed_b; OpcodeHasImmed2_b; OpcodeAllowsData16; SizeIgnoresData16; NaClIllegal; PartialInstruction]) InstDontCare 0 0 0 532;
  mkInst NACLi_SSE4A (FLAGS [ModRmModIs0x3; OpcodeUsesModRm; OpcodeAllowsData16; SizeIgnoresData16; PartialInstruction]) InstDontCare 0 1 268 NACL_OPCODE_NULL_OFFSET;
  mkInst NACLi_SSE2 (FLAGS [OpcodeUsesModRm; OpcodeAllowsData16; SizeIgnoresData16; OperandSize_o; PartialInstruction]) InstDontCare 0 1 210 NACL_OPCODE_NULL_OFFSET;
  mkInst NACLi_SSE2 (FLAGS [OpcodeUsesModRm; OpcodeAllowsData16; SizeIgnoresData16; OperandSize_v; PartialInstruction]) InstDontCare 0 1 211 535;
  mkInst NACLi_SSE2 (FLAGS [OpcodeUsesModRm; OpcodeAllowsData16; SizeIgnoresData16; PartialInstruction]) InstDontCare 0 1 276 NACL_OPCODE_NULL_OFFSET;
  mkInst NACLi_SSE2 (FLAGS [OpcodeUsesModRm; OpcodeHasImmed_b; OpcodeAllowsData16; SizeIgnoresData16; PartialInstruction]) InstDontCare 0 2 286 NACL_OPCODE_NULL_OFFSET;
  mkInst NACLi_SSE (FLAGS [OpcodeUsesModRm; OpcodeHasImmed_b; OpcodeAllowsData16; SizeIgnoresData16; OperandSize_v; OperandSize_o; PartialInstruction]) InstDontCare 0 2 244 NACL_OPCODE_NULL_OFFSET;
  mkInst NACLi_SSE41 (FLAGS [ModRmModIs0x3; OpcodeUsesModRm; OpcodeHasImmed_b; OpcodeAllowsData16; SizeIgnoresData16; PartialInstruction]) InstDontCare 0 3 288 NACL_OPCODE_NULL_OFFSET;
  mkInst NACLi_SSE3 (FLAGS [OpcodeUsesModRm; OpcodeAllowsData16; SizeIgnoresData16; PartialInstruction]) InstDontCare 0 1 271 NACL_OPCODE_NULL_OFFSET;
  mkInst NACLi_SSE2 (FLAGS [OpcodeUsesModRm; OpcodeAllowsData16; SizeIgnoresData16; PartialInstruction]) InstDontCare 0 1 291 NACL_OPCODE_NULL_OFFSET;
  mkInst NACLi_SSE2 (FLAGS [ModRmModIs0x3; OpcodeUsesModRm; OpcodeAllowsData16; SizeIgnoresData16; PartialInstruction]) InstDontCare 0 2 288 NACL_OPCODE_NULL_OFFSET;
  mkInst NACLi_SSE2 (FLAGS [ModRmModIs0x3; OpcodeUsesModRm; OpcodeAllowsData16; SizeIgnoresData16; OperandSize_v; PartialInstruction]) InstDontCare 0 2 292 NACL_OPCODE_NULL_OFFSET;
  mkInst NACLi_E3DNOW (FLAGS [OpcodeUsesModRm; PartialInstruction]) InstDontCare 0 1 193 NACL_OPCODE_NULL_OFFSET;
  mkInst NACLi_3DNOW (FLAGS [OpcodeUsesModRm; PartialInstruction]) InstDontCare 0 1 193 NACL_OPCODE_NULL_OFFSET;
  mkInst NACLi_SSSE3 (FLAGS [OpcodeUsesModRm; PartialInstruction]) InstDontCare 0 1 193 NACL_OPCODE_NULL_OFFSET;
  mkInst NACLi_MOVBE (FLAGS [ModRmModIsnt0x3; OpcodeUsesModRm; OpcodeAllowsData16; OperandSize_w; OperandSize_v; OperandSize_o; PartialInstruction]) InstDontCare 0 2 294 NACL_OPCODE_NULL_OFFSET;
  mkInst NACLi_MOVBE (FLAGS [ModRmModIsnt0x3; OpcodeUsesModRm; OpcodeAllowsData16; OperandSize_w; OperandSize_v; OperandSize_o; PartialInstruction]) InstDontCare 0 2 296 NACL_OPCODE_NULL_OFFSET;
  mkInst NACLi_SSSE3 (FLAGS [OpcodeUsesModRm; OpcodeAllowsData16; SizeIgnoresData16; PartialInstruction]) InstDontCare 0 1 202 NACL_OPCODE_NULL_OFFSET;
  mkInst NACLi_SSE41 (FLAGS [OpcodeUsesModRm; OpcodeAllowsData16; SizeIgnoresData16; PartialInstruction]) InstDontCare 0 1 202 NACL_OPCODE_NULL_OFFSET;
  mkInst NACLi_SSE41 (FLAGS [OpcodeUsesModRm; OpcodeAllowsData16; SizeIgnoresData16; PartialInstruction]) InstDontCare 0 1 298 NACL_OPCODE_NULL_OFFSET;
  mkInst NACLi_SSE41 (FLAGS [OpcodeUsesModRm; OpcodeAllowsData16; SizeIgnoresData16; PartialInstruction]) InstDontCare 0 1 299 NACL_OPCODE_NULL_OFFSET;
  mkInst NACLi_SSE41 (FLAGS [OpcodeUsesModRm; OpcodeAllowsData16; SizeIgnoresData16; PartialInstruction]) InstDontCare 0 1 300 NACL_OPCODE_NULL_OFFSET
].

Definition g_Opcodes_15 : list NaClInst := [
  mkInst NACLi_SSE41 (FLAGS [ModRmModIsnt0x3; OpcodeUsesModRm; OpcodeAllowsData16; SizeIgnoresData16; PartialInstruction]) InstDontCare 0 1 272 NACL_OPCODE_NULL_OFFSET;
  mkInst NACLi_SSE42 (FLAGS [OpcodeUsesModRm; OpcodeAllowsData16; SizeIgnoresData16; PartialInstruction]) InstDontCare 0 1 202 NACL_OPCODE_NULL_OFFSET;
  mkInst NACLi_VMX (FLAGS [ModRmModIsnt0x3; OpcodeUsesModRm; OpcodeAllowsData16; SizeIgnoresData16; NaClIllegal; PartialInstruction]) InstDontCare 0 0 0 NACL_OPCODE_NULL_OFFSET;
  mkInst NACLi_SSE42 (FLAGS [OpcodeUsesModRm; OpcodeAllowsRepne; OperandSize_b; PartialInstruction]) InstDontCare 0 2 301 NACL_OPCODE_NULL_OFFSET;
  mkInst NACLi_SSE42 (FLAGS [OpcodeUsesModRm; OpcodeAllowsRepne; OpcodeAllowsData16; OperandSize_w; OperandSize_v; OperandSize_o; PartialInstruction]) InstDontCare 0 2 303 NACL_OPCODE_NULL_OFFSET;
  mkInst NACLi_SSSE3 (FLAGS [OpcodeUsesModRm; OpcodeHasImmed_b; PartialInstruction]) InstDontCare 0 2 206 NACL_OPCODE_NULL_OFFSET;
  mkInst NACLi_SSE41 (FLAGS [OpcodeUsesModRm; OpcodeHasImmed_b; OpcodeAllowsData16; SizeIgnoresData16; PartialInstruction]) InstDontCare 0 2 282 NACL_OPCODE_NULL_OFFSET;
  mkInst NACLi_SSE41 (FLAGS [OpcodeUsesModRm; OpcodeHasImmed_b; OpcodeAllowsData16; SizeIgnoresData16; PartialInstruction]) InstDontCare 0 2 277 NACL_OPCODE_NULL_OFFSET;
  mkInst NACLi_SSE41 (FLAGS [OpcodeUsesModRm; OpcodeHasImmed_b; OpcodeAllowsData16; SizeIgnoresData16; PartialInstruction]) InstDontCare 0 2 269 NACL_OPCODE_NULL_OFFSET;
  mkInst NACLi_SSSE3 (FLAGS [OpcodeUsesModRm; OpcodeHasImmed_b; OpcodeAllowsData16; SizeIgnoresData16; PartialInstruction]) InstDontCare 0 2 282 NACL_OPCODE_NULL_OFFSET;
  mkInst NACLi_SSE41 (FLAGS [OpcodeUsesModRm; OpcodeHasImmed_b; OpcodeAllowsData16; SizeIgnoresData16; PartialInstruction]) InstDontCare 0 2 305 NACL_OPCODE_NULL_OFFSET;
  mkInst NACLi_SSE41 (FLAGS [OpcodeUsesModRm; OpcodeHasImmed_b; OpcodeAllowsData16; SizeIgnoresData16; PartialInstruction]) InstDontCare 0 2 307 NACL_OPCODE_NULL_OFFSET;
  mkInst NACLi_SSE41 (FLAGS [OpcodeUsesModRm; OpcodeHasImmed_b; OpcodeAllowsData16; SizeIgnoresData16; OperandSize_o; PartialInstruction]) InstDontCare 0 2 309 NACL_OPCODE_NULL_OFFSET;
  mkInst NACLi_SSE41 (FLAGS [OpcodeUsesModRm; OpcodeHasImmed_b; OpcodeAllowsData16; SizeIgnoresData16; OperandSize_v; PartialInstruction]) InstDontCare 0 2 311 567;
  mkInst NACLi_SSE41 (FLAGS [OpcodeUsesModRm; OpcodeHasImmed_b; OpcodeAllowsData16; SizeIgnoresData16; PartialInstruction]) InstDontCare 0 2 313 NACL_OPCODE_NULL_OFFSET;
  mkInst NACLi_SSE41 (FLAGS [OpcodeUsesModRm; OpcodeHasImmed_b; OpcodeAllowsData16; SizeIgnoresData16; OperandSize_v; OperandSize_o; PartialInstruction]) InstDontCare 0 2 315 NACL_OPCODE_NULL_OFFSET;
  mkInst NACLi_SSE41 (FLAGS [OpcodeUsesModRm; OpcodeHasImmed_b; OpcodeAllowsData16; SizeIgnoresData16; PartialInstruction]) InstDontCare 0 2 317 NACL_OPCODE_NULL_OFFSET;
  mkInst NACLi_SSE41 (FLAGS [OpcodeUsesModRm; OpcodeHasImmed_b; OpcodeAllowsData16; SizeIgnoresData16; OperandSize_o; PartialInstruction]) InstDontCare 0 2 319 NACL_OPCODE_NULL_OFFSET;
  mkInst NACLi_SSE41 (FLAGS [OpcodeUsesModRm; OpcodeHasImmed_b; OpcodeAllowsData16; SizeIgnoresData16; OperandSize_v; PartialInstruction]) InstDontCare 0 2 321 572;
  mkInst NACLi_SSE42 (FLAGS [OpcodeUsesModRm; OpcodeHasImmed_b; OpcodeAllowsData16; SizeIgnoresData16; OperandSize_v; OperandSize_o; PartialInstruction]) InstDontCare 0 4 323 NACL_OPCODE_NULL_OFFSET;
  mkInst NACLi_SSE42 (FLAGS [OpcodeUsesModRm; OpcodeHasImmed_b; OpcodeAllowsData16; SizeIgnoresData16; OperandSize_v; OperandSize_o; PartialInstruction]) InstDontCare 0 5 327 NACL_OPCODE_NULL_OFFSET;
  mkInst NACLi_SSE42 (FLAGS [OpcodeUsesModRm; OpcodeHasImmed_b; OpcodeAllowsData16; SizeIgnoresData16; PartialInstruction]) InstDontCare 0 2 282 NACL_OPCODE_NULL_OFFSET;
  mkInst NACLi_SSE42 (FLAGS [OpcodeUsesModRm; OpcodeHasImmed_b; OpcodeAllowsData16; SizeIgnoresData16; OperandSize_v; OperandSize_o; PartialInstruction]) InstDontCare 0 3 332 NACL_OPCODE_NULL_OFFSET;
  mkInst NACLi_X87_FSINCOS (FLAGS [PartialInstruction]) InstDontCare 0 0 0 NACL_OPCODE_NULL_OFFSET;
  mkInst NACLi_X87 0 InstInvalid 0 0 0 NACL_OPCODE_NULL_OFFSET;
  mkInst NACLi_X87 (FLAGS [PartialInstruction]) InstDontCare 0 1 80 NACL_OPCODE_NULL_OFFSET
].

Definition g_Opcodes : list NaClInst :=
  g_Opcodes_0 ++ g_Opcodes_1 ++ g_Opcodes_2 ++ g_Opcodes_3 ++ g_Opcodes_4 ++ g_Opcodes_5 ++ g_Opcodes_6 ++ g_Opcodes_7 ++ g_Opcodes_8 ++ g_Opcodes_9 ++ g_Opcodes_10 ++ g_Opcodes_11 ++ g_Opcodes_12 ++ g_Opcodes_13 ++ g_Opcodes_14 ++ g_Opcodes_15.

Definition g_LookupTable_0 : list Z := [
  1; 2; 3; 4; 5; 6; 7; 7; 8; 9; 10; 11; 12; 13; 7; 7; 14; 15; 16; 17; 18; 19; 7; 7; 14; 15; 16; 17;
  18; 19; 7; 7; 20; 21; 22; 23; 24; 25; 7; 7; 26; 27; 28; 29; 30; 31; 7; 7; 14; 32; 16; 33; 18; 34;
  7; 7; 35; 36; 37; 38; 39; 40; 7; 7; NACL_OPCODE_NULL_OFFSET; NACL_OPCODE_NULL_OFFSET;
  NACL_OPCODE_NULL_OFFSET; NACL_OPCODE_NULL_OFFSET; NACL_OPCODE_NULL_OFFSET;
  NACL_OPCODE_NULL_OFFSET; NACL_OPCODE_NULL_OFFSET; NACL_OPCODE_NULL_OFFSET;
  NACL_OPCODE_NULL_OFFSET; NACL_OPCODE_NULL_OFFSET; NACL_OPCODE_NULL_OFFSET;
  NACL_OPCODE_NULL_OFFSET; NACL_OPCODE_NULL_OFFSET; NACL_OPCODE_NULL_OFFSET;
  NACL_OPCODE_NULL_OFFSET; NACL_OPCODE_NULL_OFFSET; 41; 42; 43; 44; 45; 46; 47; 48; 49; 50; 51; 52;
  53; 54; 55; 56; 7; 7; 7; 57; 7; 7; 7; 7; 58; 59; 60; 61; 62; 64; 62; 64; 65; 65; 65; 65; 65; 65;
  65; 65; 65; 65; 65; 65; 65; 65; 65; 65; 73; 81; 89; 97; 35; 36; 98; 99; 100; 101; 102; 103; 104;
  105; 106; 108; 109; 110; 111; 112; 113; 114; 115; 116; 119; 122; 7; 123; 125; 125; 126; 126; 127;
  128; 129; 130; 131; 134; 135; 138; 39; 40; 139; 142; 143; 146; 147; 150; 151; 152; 153; 154; 155;
  156; 157; 158; 159; 160; 161; 162; 163; 164; 165; 166; 174; 182; 183; 184; 7; 7; 185; 186; 187;
  184; 188; 189; 190; 191; 126; 194; 202; 210; 218; 226; 7; 7; 7; 126; 234; 242; 234; 250; 258;
  264; 272; 279; 65; 65; 280; 282; 191; 283; 191; 283; 284; 285; 7; 280; 126; 286; 126; 286; 7;
  126; 7; 7; 287; 287; 295; 303; 287; 287; 190; 190; 287; 287; 305; 312; 318; 339; 340; 340; 7;
  341; 190; 190; 190; 190; 7; 126; 7; 349; 350; 351; 352; 353; 355; 356; 357; 357; 355; 356; 365;
  366; 366; 366; 366; 366; 366; 367; 368; 368; 368; 368; 7; 7; 7; 7; 352; 353; 369; 370; 352; 352;
  371; 352; 372; 373; 372; 190; 374; 374; 7; 7; 7; 7; 7; 7; 7; 7; 7; 7; 375; 375; 375; 375; 375;
  375; 375; 375; 375; 375; 375; 375; 375; 375; 375; 375; 376; 352; 352; 352; 352; 352; 352; 352;
  352; 352; 377; 378; 352; 352; 352; 352; 379; 379; 379; 379; 379; 379; 379; 379; 380; 380; 380;
  379; 7; 7; 382; 379; 383; 390; 390; 395; 379; 379; 379; 396; 7; 7; 7; 7; 7; 7; 398; 399; 400;
  400; 400; 400; 400; 400; 400; 400; 400; 400; 400; 400; 400; 400; 400; 400; 401; 401; 401; 401;
  401; 401; 401; 401; 401; 401; 401; 401; 401; 401; 401; 401; 184; 184; 402; 403; 404; 405; 7; 7;
  184; 184; 190; 406; 407; 408; 438; 439; 440; 441; 442; 406; 442; 442; 443; 444; 7; 107; 448; 406;
  449; 449; 443; 444; 98; 99; 450; 451; 452; 453; 450; 455; 456; 457; 458; 459; 460; 461; 462; 463;
  7; 379; 379; 379; 379; 379; 7; 464; 379; 379; 379; 379; 379; 379; 379; 379; 379; 379; 379; 379;
  379; 379; 7; 465; 379; 379; 379; 379; 379; 379; 379; 379; 7; 379; 379; 379; 379; 379; 379; 466;
  379; 379; 379; 379; 379; 379; 379; 7; NACL_OPCODE_NULL_OFFSET; 467; 468; 469; 470; 470; 470; 470;
  470; NACL_OPCODE_NULL_OFFSET; NACL_OPCODE_NULL_OFFSET; NACL_OPCODE_NULL_OFFSET;
  NACL_OPCODE_NULL_OFFSET; NACL_OPCODE_NULL_OFFSET; NACL_OPCODE_NULL_OFFSET;
  NACL_OPCODE_NULL_OFFSET; NACL_OPCODE_NULL_OFFSET; NACL_OPCODE_NULL_OFFSET;
  NACL_OPCODE_NULL_OFFSET; NACL_OPCODE_NULL_OFFSET; NACL_OPCODE_NULL_OFFSET;
  NACL_OPCODE_NULL_OFFSET; NACL_OPCODE_NULL_OFFSET; NACL_OPCODE_NULL_OFFSET;
  NACL_OPCODE_NULL_OFFSET; 470; 470; 471; 472; 473; 473; 470; 470; NACL_OPCODE_NULL_OFFSET;
  NACL_OPCODE_NULL_OFFSET; NACL_OPCODE_NULL_OFFSET; NACL_OPCODE_NULL_OFFSET;
  NACL_OPCODE_NULL_OFFSET; NACL_OPCODE_NULL_OFFSET; NACL_OPCODE_NULL_OFFSET;
  NACL_OPCODE_NULL_OFFSET; NACL_OPCODE_NULL_OFFSET; NACL_OPCODE_NULL_OFFSET;
  NACL_OPCODE_NULL_OFFSET; NACL_OPCODE_NULL_OFFSET; NACL_OPCODE_NULL_OFFSET;
  NACL_OPCODE_NULL_OFFSET; NACL_OPCODE_NULL_OFFSET; NACL_OPCODE_NULL_OFFSET;
  NACL_OPCODE_NULL_OFFSET; NACL_OPCODE_NULL_OFFSET; NACL_OPCODE_NULL_OFFSET;
  NACL_OPCODE_NULL_OFFSET; NACL_OPCODE_NULL_OFFSET; NACL_OPCODE_NULL_OFFSET;
  NACL_OPCODE_NULL_OFFSET; NACL_OPCODE_NULL_OFFSET; NACL_OPCODE_NULL_OFFSET;
  NACL_OPCODE_NULL_OFFSET; NACL_OPCODE_NULL_OFFSET; NACL_OPCODE_NULL_OFFSET;
  NACL_OPCODE_NULL_OFFSET; NACL_OPCODE_NULL_OFFSET; NACL_OPCODE_NULL_OFFSET;
  NACL_OPCODE_NULL_OFFSET; 470; 467; 470; 470; 470; 470; 470; 470; 467; 467; 467; 470; 467; 467;
  467; 467; 470; 470; 470; 470; 470; 470; 470; 470; 470; 470; 470; 470; 470; 470; 470; 470; 474;
  470; 470; 470; 470; 470; 470; 470; 475; 476; 470; 470; 477; 477; 470; 470;
  NACL_OPCODE_NULL_OFFSET; NACL_OPCODE_NULL_OFFSET; NACL_OPCODE_NULL_OFFSET;
  NACL_OPCODE_NULL_OFFSET; NACL_OPCODE_NULL_OFFSET; NACL_OPCODE_NULL_OFFSET;
  NACL_OPCODE_NULL_OFFSET; NACL_OPCODE_NULL_OFFSET; NACL_OPCODE_NULL_OFFSET;
  NACL_OPCODE_NULL_OFFSET; NACL_OPCODE_NULL_OFFSET; NACL_OPCODE_NULL_OFFSET;
  NACL_OPCODE_NULL_OFFSET; NACL_OPCODE_NULL_OFFSET; NACL_OPCODE_NULL_OFFSET;
  NACL_OPCODE_NULL_OFFSET; NACL_OPCODE_NULL_OFFSET; NACL_OPCODE_NULL_OFFSET;
  NACL_OPCODE_NULL_OFFSET; NACL_OPCODE_NULL_OFFSET; NACL_OPCODE_NULL_OFFSET;
  NACL_OPCODE_NULL_OFFSET; NACL_OPCODE_NULL_OFFSET; NACL_OPCODE_NULL_OFFSET;
  NACL_OPCODE_NULL_OFFSET; NACL_OPCODE_NULL_OFFSET; NACL_OPCODE_NULL_OFFSET;
  NACL_OPCODE_NULL_OFFSET; NACL_OPCODE_NULL_OFFSET; NACL_OPCODE_NULL_OFFSET;
  NACL_OPCODE_NULL_OFFSET; NACL_OPCODE_NULL_OFFSET; NACL_OPCODE_NULL_OFFSET;
  NACL_OPCODE_NULL_OFFSET; NACL_OPCODE_NULL_OFFSET; NACL_OPCODE_NULL_OFFSET;
  NACL_OPCODE_NULL_OFFSET; NACL_OPCODE_NULL_OFFSET; NACL_OPCODE_NULL_OFFSET;
  NACL_OPCODE_NULL_OFFSET; NACL_OPCODE_NULL_OFFSET; NACL_OPCODE_NULL_OFFSET;
  NACL_OPCODE_NULL_OFFSET; NACL_OPCODE_NULL_OFFSET; NACL_OPCODE_NULL_OFFSET;
  NACL_OPCODE_NULL_OFFSET; 470; NACL_OPCODE_NULL_OFFSET; NACL_OPCODE_NULL_OFFSET;
  NACL_OPCODE_NULL_OFFSET; NACL_OPCODE_NULL_OFFSET; NACL_OPCODE_NULL_OFFSET;
  NACL_OPCODE_NULL_OFFSET; NACL_OPCODE_NULL_OFFSET; NACL_OPCODE_NULL_OFFSET;
  NACL_OPCODE_NULL_OFFSET; 470; 470; 470; 470; 470; 470; 470; 470; NACL_OPCODE_NULL_OFFSET;
  NACL_OPCODE_NULL_OFFSET; 478; 470; 470; 470; 470; NACL_OPCODE_NULL_OFFSET;
  NACL_OPCODE_NULL_OFFSET; NACL_OPCODE_NULL_OFFSET; NACL_OPCODE_NULL_OFFSET;
  NACL_OPCODE_NULL_OFFSET; NACL_OPCODE_NULL_OFFSET; NACL_OPCODE_NULL_OFFSET;
  NACL_OPCODE_NULL_OFFSET; NACL_OPCODE_NULL_OFFSET; 479; 470; 470; 470; 470; 470; 480; 470; 470;
  470; 470; 470; 470; 470; 470; 470; 470; 470; 470; 470; 470; 470; 481; 470; 470; 470; 470; 470;
  470; 470; 470; 470; 482; 470; 470; 470; 470; 470; 470; 470; 470; 470; 470; 470; 470; 470; 470;
  470; NACL_OPCODE_NULL_OFFSET; 483; 484; 485; 486; 486; 486; 485; 486; NACL_OPCODE_NULL_OFFSET;
  NACL_OPCODE_NULL_OFFSET; NACL_OPCODE_NULL_OFFSET; NACL_OPCODE_NULL_OFFSET;
  NACL_OPCODE_NULL_OFFSET; NACL_OPCODE_NULL_OFFSET; NACL_OPCODE_NULL_OFFSET;
  NACL_OPCODE_NULL_OFFSET; NACL_OPCODE_NULL_OFFSET; NACL_OPCODE_NULL_OFFSET;
  NACL_OPCODE_NULL_OFFSET; NACL_OPCODE_NULL_OFFSET; NACL_OPCODE_NULL_OFFSET;
  NACL_OPCODE_NULL_OFFSET; NACL_OPCODE_NULL_OFFSET; NACL_OPCODE_NULL_OFFSET; 486; 486; 487; 488;
  489; 489; 486; 486; NACL_OPCODE_NULL_OFFSET; NACL_OPCODE_NULL_OFFSET; NACL_OPCODE_NULL_OFFSET;
  NACL_OPCODE_NULL_OFFSET; NACL_OPCODE_NULL_OFFSET; NACL_OPCODE_NULL_OFFSET;
  NACL_OPCODE_NULL_OFFSET; NACL_OPCODE_NULL_OFFSET; NACL_OPCODE_NULL_OFFSET;
  NACL_OPCODE_NULL_OFFSET; NACL_OPCODE_NULL_OFFSET; NACL_OPCODE_NULL_OFFSET;
  NACL_OPCODE_NULL_OFFSET; NACL_OPCODE_NULL_OFFSET; NACL_OPCODE_NULL_OFFSET;
  NACL_OPCODE_NULL_OFFSET; NACL_OPCODE_NULL_OFFSET; NACL_OPCODE_NULL_OFFSET;
  NACL_OPCODE_NULL_OFFSET; NACL_OPCODE_NULL_OFFSET; NACL_OPCODE_NULL_OFFSET;
  NACL_OPCODE_NULL_OFFSET; NACL_OPCODE_NULL_OFFSET; NACL_OPCODE_NULL_OFFSET;
  NACL_OPCODE_NULL_OFFSET; NACL_OPCODE_NULL_OFFSET; NACL_OPCODE_NULL_OFFSET;
  NACL_OPCODE_NULL_OFFSET; NACL_OPCODE_NULL_OFFSET; NACL_OPCODE_NULL_OFFSET;
  NACL_OPCODE_NULL_OFFSET; NACL_OPCODE_NULL_OFFSET; 486; 490; 483; 483; 486; 486; 486; 486; 483;
  483; 491; 492; 483; 483; 483; 483; 486; 486; 486; 486; 486; 486; 486; 486; 486; 486; 486; 486;
  486; 486; 486; 493; 494; 486; 486; 486; 486; 486; 486; 486; 486; 486; 486; 486; 486; 486; 495;
  496; NACL_OPCODE_NULL_OFFSET; NACL_OPCODE_NULL_OFFSET; NACL_OPCODE_NULL_OFFSET;
  NACL_OPCODE_NULL_OFFSET; NACL_OPCODE_NULL_OFFSET; NACL_OPCODE_NULL_OFFSET;
  NACL_OPCODE_NULL_OFFSET; NACL_OPCODE_NULL_OFFSET; NACL_OPCODE_NULL_OFFSET;
  NACL_OPCODE_NULL_OFFSET; NACL_OPCODE_NULL_OFFSET; NACL_OPCODE_NULL_OFFSET;
  NACL_OPCODE_NULL_OFFSET; NACL_OPCODE_NULL_OFFSET; NACL_OPCODE_NULL_OFFSET;
  NACL_OPCODE_NULL_OFFSET; NACL_OPCODE_NULL_OFFSET; NACL_OPCODE_NULL_OFFSET;
  NACL_OPCODE_NULL_OFFSET; NACL_OPCODE_NULL_OFFSET; NACL_OPCODE_NULL_OFFSET;
  NACL_OPCODE_NULL_OFFSET; NACL_OPCODE_NULL_OFFSET; NACL_OPCODE_NULL_OFFSET;
  NACL_OPCODE_NULL_OFFSET; NACL_OPCODE_NULL_OFFSET; NACL_OPCODE_NULL_OFFSET;
  NACL_OPCODE_NULL_OFFSET; NACL_OPCODE_NULL_OFFSET; NACL_OPCODE_NULL_OFFSET;
  NACL_OPCODE_NULL_OFFSET; NACL_OPCODE_NULL_OFFSET; NACL_OPCODE_NULL_OFFSET;
  NACL_OPCODE_NULL_OFFSET; NACL_OPCODE_NULL_OFFSET; NACL_OPCODE_NULL_OFFSET;
  NACL_OPCODE_NULL_OFFSET; NACL_OPCODE_NULL_OFFSET; NACL_OPCODE_NULL_OFFSET;
  NACL_OPCODE_NULL_OFFSET; NACL_OPCODE_NULL_OFFSET; NACL_OPCODE_NULL_OFFSET;
  NACL_OPCODE_NULL_OFFSET; NACL_OPCODE_NULL_OFFSET; NACL_OPCODE_NULL_OFFSET;
  NACL_OPCODE_NULL_OFFSET; NACL_OPCODE_NULL_OFFSET; NACL_OPCODE_NULL_OFFSET;
  NACL_OPCODE_NULL_OFFSET; NACL_OPCODE_NULL_OFFSET; NACL_OPCODE_NULL_OFFSET;
  NACL_OPCODE_NULL_OFFSET; NACL_OPCODE_NULL_OFFSET; NACL_OPCODE_NULL_OFFSET;
  NACL_OPCODE_NULL_OFFSET; NACL_OPCODE_NULL_OFFSET; 497; 486; 486; 486; 486; 498; 486; 486;
  NACL_OPCODE_NULL_OFFSET; NACL_OPCODE_NULL_OFFSET; 499; 486; 486; 486; 486;
  NACL_OPCODE_NULL_OFFSET; NACL_OPCODE_NULL_OFFSET; NACL_OPCODE_NULL_OFFSET;
  NACL_OPCODE_NULL_OFFSET; NACL_OPCODE_NULL_OFFSET; NACL_OPCODE_NULL_OFFSET;
  NACL_OPCODE_NULL_OFFSET; NACL_OPCODE_NULL_OFFSET; NACL_OPCODE_NULL_OFFSET; 486; 486; 486; 486;
  486; 486; 500; 486; 486; 486; 486; 486; 486; 486; 486; 486; 486; 486; 486; 486; 486; 486; 495;
  486; 486; 486; 486; 486; 486; 486; 486; 486; 486; 486; 486; 486; 486; 486; 486; 486; 486; 486;
  486; 486; 486; 486; 486; 486; NACL_OPCODE_NULL_OFFSET; 501; 502; 503; 504; 505; 505; 503; 504;
  NACL_OPCODE_NULL_OFFSET; NACL_OPCODE_NULL_OFFSET; NACL_OPCODE_NULL_OFFSET;
  NACL_OPCODE_NULL_OFFSET; NACL_OPCODE_NULL_OFFSET; NACL_OPCODE_NULL_OFFSET;
  NACL_OPCODE_NULL_OFFSET; NACL_OPCODE_NULL_OFFSET; NACL_OPCODE_NULL_OFFSET;
  NACL_OPCODE_NULL_OFFSET; NACL_OPCODE_NULL_OFFSET; NACL_OPCODE_NULL_OFFSET;
  NACL_OPCODE_NULL_OFFSET; NACL_OPCODE_NULL_OFFSET; NACL_OPCODE_NULL_OFFSET;
  NACL_OPCODE_NULL_OFFSET; 501; 502; 506; 507; 501; 501; 508; 508; NACL_OPCODE_NULL_OFFSET;
  NACL_OPCODE_NULL_OFFSET; NACL_OPCODE_NULL_OFFSET; NACL_OPCODE_NULL_OFFSET;
  NACL_OPCODE_NULL_OFFSET; NACL_OPCODE_NULL_OFFSET; NACL_OPCODE_NULL_OFFSET;
  NACL_OPCODE_NULL_OFFSET; NACL_OPCODE_NULL_OFFSET; NACL_OPCODE_NULL_OFFSET;
  NACL_OPCODE_NULL_OFFSET; NACL_OPCODE_NULL_OFFSET; NACL_OPCODE_NULL_OFFSET;
  NACL_OPCODE_NULL_OFFSET; NACL_OPCODE_NULL_OFFSET; NACL_OPCODE_NULL_OFFSET;
  NACL_OPCODE_NULL_OFFSET; NACL_OPCODE_NULL_OFFSET; NACL_OPCODE_NULL_OFFSET;
  NACL_OPCODE_NULL_OFFSET; NACL_OPCODE_NULL_OFFSET; NACL_OPCODE_NULL_OFFSET;
  NACL_OPCODE_NULL_OFFSET; NACL_OPCODE_NULL_OFFSET; NACL_OPCODE_NULL_OFFSET;
  NACL_OPCODE_NULL_OFFSET; NACL_OPCODE_NULL_OFFSET; NACL_OPCODE_NULL_OFFSET;
  NACL_OPCODE_NULL_OFFSET; NACL_OPCODE_NULL_OFFSET; NACL_OPCODE_NULL_OFFSET;
  NACL_OPCODE_NULL_OFFSET; 509; 501; 510; 510; 501; 501; 501; 501; 501; 501; 501; 511; 501; 501;
  501; 501; 505; 505; 505; 512; 512; 512; 512; 512; 505; 505; 505; 512; 505; 505; 514; 512; 515;
  523; 523; 531; 512; 512; 512; 510; 533; 534; 510; 510; 501; 501; 536; 537;
  NACL_OPCODE_NULL_OFFSET; NACL_OPCODE_NULL_OFFSET; NACL_OPCODE_NULL_OFFSET;
  NACL_OPCODE_NULL_OFFSET; NACL_OPCODE_NULL_OFFSET; NACL_OPCODE_NULL_OFFSET;
  NACL_OPCODE_NULL_OFFSET; NACL_OPCODE_NULL_OFFSET; NACL_OPCODE_NULL_OFFSET;
  NACL_OPCODE_NULL_OFFSET; NACL_OPCODE_NULL_OFFSET; NACL_OPCODE_NULL_OFFSET;
  NACL_OPCODE_NULL_OFFSET; NACL_OPCODE_NULL_OFFSET; NACL_OPCODE_NULL_OFFSET;
  NACL_OPCODE_NULL_OFFSET; NACL_OPCODE_NULL_OFFSET; NACL_OPCODE_NULL_OFFSET;
  NACL_OPCODE_NULL_OFFSET; NACL_OPCODE_NULL_OFFSET; NACL_OPCODE_NULL_OFFSET;
  NACL_OPCODE_NULL_OFFSET; NACL_OPCODE_NULL_OFFSET; NACL_OPCODE_NULL_OFFSET;
  NACL_OPCODE_NULL_OFFSET; NACL_OPCODE_NULL_OFFSET; NACL_OPCODE_NULL_OFFSET;
  NACL_OPCODE_NULL_OFFSET; NACL_OPCODE_NULL_OFFSET; NACL_OPCODE_NULL_OFFSET;
  NACL_OPCODE_NULL_OFFSET; NACL_OPCODE_NULL_OFFSET; NACL_OPCODE_NULL_OFFSET;
  NACL_OPCODE_NULL_OFFSET; NACL_OPCODE_NULL_OFFSET; NACL_OPCODE_NULL_OFFSET;
  NACL_OPCODE_NULL_OFFSET; NACL_OPCODE_NULL_OFFSET; NACL_OPCODE_NULL_OFFSET;
  NACL_OPCODE_NULL_OFFSET; NACL_OPCODE_NULL_OFFSET; NACL_OPCODE_NULL_OFFSET;
  NACL_OPCODE_NULL_OFFSET; NACL_OPCODE_NULL_OFFSET; NACL_OPCODE_NULL_OFFSET;
  NACL_OPCODE_NULL_OFFSET; 510; NACL_OPCODE_NULL_OFFSET; NACL_OPCODE_NULL_OFFSET;
  NACL_OPCODE_NULL_OFFSET; NACL_OPCODE_NULL_OFFSET; NACL_OPCODE_NULL_OFFSET;
  NACL_OPCODE_NULL_OFFSET; NACL_OPCODE_NULL_OFFSET; NACL_OPCODE_NULL_OFFSET;
  NACL_OPCODE_NULL_OFFSET; NACL_OPCODE_NULL_OFFSET; NACL_OPCODE_NULL_OFFSET;
  NACL_OPCODE_NULL_OFFSET; NACL_OPCODE_NULL_OFFSET; NACL_OPCODE_NULL_OFFSET;
  NACL_OPCODE_NULL_OFFSET; NACL_OPCODE_NULL_OFFSET; NACL_OPCODE_NULL_OFFSET;
  NACL_OPCODE_NULL_OFFSET; NACL_OPCODE_NULL_OFFSET; 538; 510; 539; 540; 538;
  NACL_OPCODE_NULL_OFFSET; NACL_OPCODE_NULL_OFFSET; NACL_OPCODE_NULL_OFFSET;
  NACL_OPCODE_NULL_OFFSET; NACL_OPCODE_NULL_OFFSET; NACL_OPCODE_NULL_OFFSET;
  NACL_OPCODE_NULL_OFFSET; NACL_OPCODE_NULL_OFFSET; NACL_OPCODE_NULL_OFFSET; 541; 512; 512; 512;
  512; 512; 542; 543; 512; 512; 512; 512; 512; 512; 512; 512; 512; 512; 512; 512; 512; 512; 512;
  507; 512; 512; 512; 512; 512; 512; 512; 512; 510; 512; 512; 512; 512; 512; 512; 544; 512; 512;
  512; 512; 512; 512; 512; 510; NACL_OPCODE_NULL_OFFSET; 545; 546; NACL_OPCODE_NULL_OFFSET;
  NACL_OPCODE_NULL_OFFSET; NACL_OPCODE_NULL_OFFSET; NACL_OPCODE_NULL_OFFSET;
  NACL_OPCODE_NULL_OFFSET; NACL_OPCODE_NULL_OFFSET; NACL_OPCODE_NULL_OFFSET;
  NACL_OPCODE_NULL_OFFSET; NACL_OPCODE_NULL_OFFSET; NACL_OPCODE_NULL_OFFSET;
  NACL_OPCODE_NULL_OFFSET; NACL_OPCODE_NULL_OFFSET; NACL_OPCODE_NULL_OFFSET;
  NACL_OPCODE_NULL_OFFSET; 545; 546; NACL_OPCODE_NULL_OFFSET; NACL_OPCODE_NULL_OFFSET;
  NACL_OPCODE_NULL_OFFSET; NACL_OPCODE_NULL_OFFSET; NACL_OPCODE_NULL_OFFSET;
  NACL_OPCODE_NULL_OFFSET; NACL_OPCODE_NULL_OFFSET; NACL_OPCODE_NULL_OFFSET;
  NACL_OPCODE_NULL_OFFSET; NACL_OPCODE_NULL_OFFSET; NACL_OPCODE_NULL_OFFSET;
  NACL_OPCODE_NULL_OFFSET; NACL_OPCODE_NULL_OFFSET; NACL_OPCODE_NULL_OFFSET;
  NACL_OPCODE_NULL_OFFSET; NACL_OPCODE_NULL_OFFSET; NACL_OPCODE_NULL_OFFSET;
  NACL_OPCODE_NULL_OFFSET; NACL_OPCODE_NULL_OFFSET; NACL_OPCODE_NULL_OFFSET;
  NACL_OPCODE_NULL_OFFSET; NACL_OPCODE_NULL_OFFSET; NACL_OPCODE_NULL_OFFSET;
  NACL_OPCODE_NULL_OFFSET; NACL_OPCODE_NULL_OFFSET; NACL_OPCODE_NULL_OFFSET;
  NACL_OPCODE_NULL_OFFSET; NACL_OPCODE_NULL_OFFSET; NACL_OPCODE_NULL_OFFSET;
  NACL_OPCODE_NULL_OFFSET; NACL_OPCODE_NULL_OFFSET; NACL_OPCODE_NULL_OFFSET;
  NACL_OPCODE_NULL_OFFSET; NACL_OPCODE_NULL_OFFSET; NACL_OPCODE_NULL_OFFSET;
  NACL_OPCODE_NULL_OFFSET; NACL_OPCODE_NULL_OFFSET; NACL_OPCODE_NULL_OFFSET;
  NACL_OPCODE_NULL_OFFSET; NACL_OPCODE_NULL_OFFSET; NACL_OPCODE_NULL_OFFSET;
  NACL_OPCODE_NULL_OFFSET; NACL_OPCODE_NULL_OFFSET; NACL_OPCODE_NULL_OFFSET;
  NACL_OPCODE_NULL_OFFSET; NACL_OPCODE_NULL_OFFSET; NACL_OPCODE_NULL_OFFSET;
  NACL_OPCODE_NULL_OFFSET; NACL_OPCODE_NULL_OFFSET; NACL_OPCODE_NULL_OFFSET;
  NACL_OPCODE_NULL_OFFSET; NACL_OPCODE_NULL_OFFSET; NACL_OPCODE_NULL_OFFSET;
  NACL_OPCODE_NULL_OFFSET; NACL_OPCODE_NULL_OFFSET; NACL_OPCODE_NULL_OFFSET;
  NACL_OPCODE_NULL_OFFSET; NACL_OPCODE_NULL_OFFSET; NACL_OPCODE_NULL_OFFSET;
  NACL_OPCODE_NULL_OFFSET; NACL_OPCODE_NULL_OFFSET; NACL_OPCODE_NULL_OFFSET;
  NACL_OPCODE_NULL_OFFSET; NACL_OPCODE_NULL_OFFSET; NACL_OPCODE_NULL_OFFSET;
  NACL_OPCODE_NULL_OFFSET; NACL_OPCODE_NULL_OFFSET; NACL_OPCODE_NULL_OFFSET;
  NACL_OPCODE_NULL_OFFSET; NACL_OPCODE_NULL_OFFSET; NACL_OPCODE_NULL_OFFSET;
  NACL_OPCODE_NULL_OFFSET; NACL_OPCODE_NULL_OFFSET; NACL_OPCODE_NULL_OFFSET;
  NACL_OPCODE_NULL_OFFSET; NACL_OPCODE_NULL_OFFSET; NACL_OPCODE_NULL_OFFSET;
  NACL_OPCODE_NULL_OFFSET; NACL_OPCODE_NULL_OFFSET; NACL_OPCODE_NULL_OFFSET;
  NACL_OPCODE_NULL_OFFSET; NACL_OPCODE_NULL_OFFSET; NACL_OPCODE_NULL_OFFSET;
  NACL_OPCODE_NULL_OFFSET; NACL_OPCODE_NULL_OFFSET; NACL_OPCODE_NULL_OFFSET;
  NACL_OPCODE_NULL_OFFSET; NACL_OPCODE_NULL_OFFSET; NACL_OPCODE_NULL_OFFSET;
  NACL_OPCODE_NULL_OFFSET; NACL_OPCODE_NULL_OFFSET; NACL_OPCODE_NULL_OFFSET;
  NACL_OPCODE_NULL_OFFSET; NACL_OPCODE_NULL_OFFSET; NACL_OPCODE_NULL_OFFSET;
  NACL_OPCODE_NULL_OFFSET; NACL_OPCODE_NULL_OFFSET; NACL_OPCODE_NULL_OFFSET;
  NACL_OPCODE_NULL_OFFSET; NACL_OPCODE_NULL_OFFSET; NACL_OPCODE_NULL_OFFSET;
  NACL_OPCODE_NULL_OFFSET; NACL_OPCODE_NULL_OFFSET; NACL_OPCODE_NULL_OFFSET;
  NACL_OPCODE_NULL_OFFSET; NACL_OPCODE_NULL_OFFSET; NACL_OPCODE_NULL_OFFSET;
  NACL_OPCODE_NULL_OFFSET; 545; NACL_OPCODE_NULL_OFFSET; NACL_OPCODE_NULL_OFFSET;
  NACL_OPCODE_NULL_OFFSET; 545; NACL_OPCODE_NULL_OFFSET; 546; NACL_OPCODE_NULL_OFFSET;
  NACL_OPCODE_NULL_OFFSET; NACL_OPCODE_NULL_OFFSET; 546; NACL_OPCODE_NULL_OFFSET; 546; 546;
  NACL_OPCODE_NULL_OFFSET; NACL_OPCODE_NULL_OFFSET; 546; NACL_OPCODE_NULL_OFFSET;
  NACL_OPCODE_NULL_OFFSET; NACL_OPCODE_NULL_OFFSET; 546; NACL_OPCODE_NULL_OFFSET; 546;
  NACL_OPCODE_NULL_OFFSET; NACL_OPCODE_NULL_OFFSET; NACL_OPCODE_NULL_OFFSET; 546;
  NACL_OPCODE_NULL_OFFSET; 546; 546; NACL_OPCODE_NULL_OFFSET; NACL_OPCODE_NULL_OFFSET; 546;
  NACL_OPCODE_NULL_OFFSET; NACL_OPCODE_NULL_OFFSET; NACL_OPCODE_NULL_OFFSET; 546;
  NACL_OPCODE_NULL_OFFSET; 546; NACL_OPCODE_NULL_OFFSET; NACL_OPCODE_NULL_OFFSET;
  NACL_OPCODE_NULL_OFFSET; 546; NACL_OPCODE_NULL_OFFSET; 546; 546; NACL_OPCODE_NULL_OFFSET;
  NACL_OPCODE_NULL_OFFSET; NACL_OPCODE_NULL_OFFSET; 545; NACL_OPCODE_NULL_OFFSET;
  NACL_OPCODE_NULL_OFFSET; NACL_OPCODE_NULL_OFFSET; 546; NACL_OPCODE_NULL_OFFSET; 547; 547; 547;
  547; 547; 547; 547; 547; 547; 547; 547; 547; 7; 7; 7; 7; 7; 7; 7; 7; 7; 7; 7; 7; 7; 7; 7; 7; 547;
  547; 547; 7; 7; 7; 7; 7; 7; 7; 7; 7; 7; 7; 7; 7; 7; 7; 7; 7; 7; 7; 7; 7; 7; 7; 7; 7; 7; 7; 7; 7;
  7; 7; 7; 7; 7; 7; 7; 7; 7; 7; 7; 7; 7; 7; 7; 7; 7; 7; 7; 7; 7; 7; 7
].

Definition g_LookupTable_1 : list Z := [
  7; 7; 7; 7; 7; 7; 7; 7; 7; 7; 7; 7; 7; 7; 7; 7; 7; 7; 7; 7; 7; 7; 7; 7; 7; 7; 7; 7; 7; 7; 7; 7;
  7; 7; 7; 7; 7; 7; 7; 7; 7; 7; 7; 7; 7; 7; 7; 7; 7; 7; 7; 7; 7; 7; 7; 7; 7; 7; 7; 7; 7; 7; 7; 7;
  7; 7; 7; 7; 7; 7; 7; 7; 7; 7; 7; 7; 7; 7; 7; 7; 7; 7; 7; 7; 7; 7; 7; 7; 7; 7; 7; 7; 7; 7; 7; 7;
  7; 7; 7; 7; 7; 7; 7; 7; 7; 7; 7; 7; 7; 7; 7; 7; 7; 7; 7; 7; 7; 7; 7; 7; 7; 7; 7; 7; 7; 7; 7; 7;
  7; 7; 7; 7; 7; 7; 7; 7; 7; 7; 7; 7; 7; 7; 7; 7; 7; 7; 7; 7; 7; 7; 7; 7; 7; 7; 7; 7; 7; 548; 549;
  7; 7; 7; 7; 7; 7; 7; 7; 7; 7; 7; 7; 7; 7; 550; 550; 550; 550; 550; 550; 550; 550; 550; 550; 550;
  550; 510; 510; 510; 510; 551; 510; 510; 510; 551; 551; 510; 551; 510; 510; 510; 510; 550; 550;
  550; 510; 552; 553; 554; 552; 553; 552; 510; 510; 551; 551; 555; 551; 510; 510; 510; 510; 552;
  553; 554; 552; 553; 552; 510; 556; 551; 551; 551; 551; 551; 551; 551; 551; 551; 551; 510; 510;
  510; 510; 510; 510; 510; 510; 510; 510; 510; 510; 510; 510; 510; 510; 510; 510; 510; 510; 510;
  510; 510; 510; 510; 510; 510; 510; 510; 510; 510; 510; 510; 510; 510; 510; 510; 510; 510; 510;
  510; 510; 510; 510; 510; 510; 510; 510; 510; 510; 510; 510; 510; 510; 510; 510; 510; 510; 510;
  510; 510; 510; 557; 557; 510; 510; 510; 510; 510; 510; 510; 510; 510; 510; 510; 510; 510; 510;
  510; 510; 510; 510; 510; 510; 510; 510; 510; 510; 510; 510; 510; 510; 510; 510; 510; 510; 510;
  510; 510; 510; 510; 510; 510; 510; 510; 510; 510; 510; 510; 510; 510; 510; 510; 510; 510; 510;
  510; 510; 510; 510; 510; 510; 510; 510; 510; 510; 510; 510; 510; 510; 510; 510; 510; 510; 510;
  510; 510; 510; 510; 510; 510; 510; 510; 510; 510; 510; 510; 510; 510; 510; 510; 510; 510; 510;
  510; 510; 510; 510; 510; 510; 510; 510; 510; 510; 510; 510; 510; 510; 510; 510; 510; 510; 510;
  510; NACL_OPCODE_NULL_OFFSET; NACL_OPCODE_NULL_OFFSET; 510; 510; 510; 510; 510; 510; 510; 510;
  510; 510; 510; 510; 510; 510; NACL_OPCODE_NULL_OFFSET; 558; 559; NACL_OPCODE_NULL_OFFSET;
  NACL_OPCODE_NULL_OFFSET; 560; NACL_OPCODE_NULL_OFFSET; NACL_OPCODE_NULL_OFFSET; 561; 561; 562;
  563; 561; 561; 561; 564; NACL_OPCODE_NULL_OFFSET; NACL_OPCODE_NULL_OFFSET;
  NACL_OPCODE_NULL_OFFSET; NACL_OPCODE_NULL_OFFSET; 565; 566; 568; 569; NACL_OPCODE_NULL_OFFSET;
  NACL_OPCODE_NULL_OFFSET; NACL_OPCODE_NULL_OFFSET; NACL_OPCODE_NULL_OFFSET;
  NACL_OPCODE_NULL_OFFSET; NACL_OPCODE_NULL_OFFSET; NACL_OPCODE_NULL_OFFSET;
  NACL_OPCODE_NULL_OFFSET; 570; 571; 573; NACL_OPCODE_NULL_OFFSET; NACL_OPCODE_NULL_OFFSET;
  NACL_OPCODE_NULL_OFFSET; NACL_OPCODE_NULL_OFFSET; NACL_OPCODE_NULL_OFFSET;
  NACL_OPCODE_NULL_OFFSET; NACL_OPCODE_NULL_OFFSET; NACL_OPCODE_NULL_OFFSET;
  NACL_OPCODE_NULL_OFFSET; NACL_OPCODE_NULL_OFFSET; NACL_OPCODE_NULL_OFFSET;
  NACL_OPCODE_NULL_OFFSET; NACL_OPCODE_NULL_OFFSET; NACL_OPCODE_NULL_OFFSET;
  NACL_OPCODE_NULL_OFFSET; NACL_OPCODE_NULL_OFFSET; NACL_OPCODE_NULL_OFFSET;
  NACL_OPCODE_NULL_OFFSET; NACL_OPCODE_NULL_OFFSET; NACL_OPCODE_NULL_OFFSET;
  NACL_OPCODE_NULL_OFFSET; NACL_OPCODE_NULL_OFFSET; NACL_OPCODE_NULL_OFFSET;
  NACL_OPCODE_NULL_OFFSET; NACL_OPCODE_NULL_OFFSET; NACL_OPCODE_NULL_OFFSET;
  NACL_OPCODE_NULL_OFFSET; NACL_OPCODE_NULL_OFFSET; NACL_OPCODE_NULL_OFFSET; 561; 561; 561;
  NACL_OPCODE_NULL_OFFSET; NACL_OPCODE_NULL_OFFSET; NACL_OPCODE_NULL_OFFSET;
  NACL_OPCODE_NULL_OFFSET; NACL_OPCODE_NULL_OFFSET; NACL_OPCODE_NULL_OFFSET;
  NACL_OPCODE_NULL_OFFSET; NACL_OPCODE_NULL_OFFSET; NACL_OPCODE_NULL_OFFSET;
  NACL_OPCODE_NULL_OFFSET; NACL_OPCODE_NULL_OFFSET; NACL_OPCODE_NULL_OFFSET;
  NACL_OPCODE_NULL_OFFSET; NACL_OPCODE_NULL_OFFSET; NACL_OPCODE_NULL_OFFSET;
  NACL_OPCODE_NULL_OFFSET; NACL_OPCODE_NULL_OFFSET; NACL_OPCODE_NULL_OFFSET;
  NACL_OPCODE_NULL_OFFSET; NACL_OPCODE_NULL_OFFSET; NACL_OPCODE_NULL_OFFSET;
  NACL_OPCODE_NULL_OFFSET; NACL_OPCODE_NULL_OFFSET; NACL_OPCODE_NULL_OFFSET;
  NACL_OPCODE_NULL_OFFSET; NACL_OPCODE_NULL_OFFSET; NACL_OPCODE_NULL_OFFSET;
  NACL_OPCODE_NULL_OFFSET; NACL_OPCODE_NULL_OFFSET; 574; 575; 576; 577; NACL_OPCODE_NULL_OFFSET;
  NACL_OPCODE_NULL_OFFSET; 123; 123; 123; 123; 123; 123; 123; 123; 123; 123; 123; 123; 123; 123;
  123; 123; 123; 123; 123; 123; 123; 123; 123; 123; 123; 123; 123; 123; 123; 123; 123; 123; 123;
  123; 123; 123; 123; 123; 123; 123; 123; 123; 123; 123; 123; 123; 123; 123; 123; 123; 123; 123;
  123; 123; 123; 123; 123; 123; 123; 123; 123; 123; 123; 123; NACL_OPCODE_NULL_OFFSET; 123; 123;
  123; 123; 123; 123; 123; 123; 123; 123; 123; 123; 123; 123; 123; 123; 123; 7; 7; 7; 7; 7; 7; 7;
  7; 7; 7; 7; 7; 7; 7; 7; 123; 123; 7; 7; 123; 123; 7; 7; 123; 123; 123; 123; 123; 123; 123; 7;
  123; 123; 123; 123; 123; 123; 123; 123; 123; 123; 123; 578; 123; 123; 123; 123;
  NACL_OPCODE_NULL_OFFSET; 123; 123; 123; 123; 123; 123; 123; 123; 123; 123; 123; 123; 123; 123;
  123; 123; 123; 123; 123; 123; 123; 123; 123; 123; 123; 123; 123; 123; 123; 123; 123; 123; 7; 7;
  7; 7; 7; 7; 7; 7; 7; 123; 7; 7; 7; 7; 7; 7; 7; 7; 7; 7; 7; 7; 7; 7; 7; 7; 7; 7; 7; 7; 7; 7;
  NACL_OPCODE_NULL_OFFSET; 123; 123; 123; 123; 123; 123; 123; 123; 123; 123; 123; 123; 123; 123;
  123; 123; 123; 123; 123; 123; 123; 123; 123; 123; 123; 123; 123; 123; 123; 123; 123; 123; 7; 7;
  123; 123; 7; 7; 7; 7; 123; 123; 123; 123; 123; 123; 123; 123; 123; 123; 123; 123; 123; 123; 123;
  123; NACL_OPCODE_NULL_OFFSET; NACL_OPCODE_NULL_OFFSET; 123; 123; 123; 123; 123; 123; 123; 123;
  123; 123; 123; 123; 123; 123; 123; 123; 7; 7; 7; 7; 7; 7; 7; 7; 7; 7; 7; 7; 7; 7; 7; 7; 123; 123;
  123; 123; 123; 123; 123; 123; 123; 123; 123; 123; 123; 123; 123; 123; 123; 123; 123; 123; 123;
  123; 123; 123; 123; 123; 123; 123; 123; 123; 123; 123; NACL_OPCODE_NULL_OFFSET; 123; 123; 123;
  123; 123; 123; 123; 123; 7; 7; 7; 7; 7; 7; 7; 7; 123; 123; 123; 123; 123; 123; 123; 123; 123;
  123; 123; 123; 123; 123; 123; 123; 123; 123; 123; 123; 123; 123; 123; 123; 123; 123; 123; 123;
  123; 123; 123; 123; 7; 7; 7; 7; 7; 7; 7; 7; 7; 7; 7; 7; 7; 7; 7; 7; NACL_OPCODE_NULL_OFFSET; 123;
  123; 123; 123; 123; 123; 123; 123; 123; 123; 123; 123; 123; 123; 123; 123; 7; 7; 7; 7; 7; 7; 7;
  7; 7; 123; 7; 7; 7; 7; 7; 7; 123; 123; 123; 123; 123; 123; 123; 123; 123; 123; 123; 123; 123;
  123; 123; 123; 123; 123; 123; 123; 123; 123; 123; 123; 123; 123; 123; 123; 123; 123; 123; 123;
  NACL_OPCODE_NULL_OFFSET; 579; 579; 579; 579; 579; 579; 579; 579; 579; 579; 579; 579; 579; 579;
  579; 579; 579; 579; 579; 579; 579; 579; 579; 579; 579; 579; 579; 579; 579; 579; 579; 579; 580; 7;
  7; 7; 7; 7; 7; 7; 123; 123; 123; 123; 123; 123; 123; 123; 123; 123; 123; 123; 123; 123; 123; 123;
  7; 7; 7; 7; 7; 7; 7; 7
].

Definition g_LookupTable : list Z :=
  g_LookupTable_0 ++ g_LookupTable_1.

Definition g_PrefixOpcode : list NaClPrefixOpcodeSelector := [
  mkSelector 0 0 255;
  mkSelector 256 0 255;
  mkSelector 512 15 255;
  mkSelector 753 15 255;
  mkSelector 994 15 255;
  mkSelector 1235 11 192;
  mkSelector 1417 0 255;
  mkSelector 1673 0 255;
  mkSelector 1929 239 242;
  mkSelector 1933 14 16;
  mkSelector 1936 7 100;
  mkSelector 2030 191 255;
  mkSelector 2095 191 255;
  mkSelector 2160 191 255;
  mkSelector 2225 191 248;
  mkSelector 2283 191 255;
  mkSelector 2348 191 255;
  mkSelector 2413 191 255;
  mkSelector 2478 191 255
].

Definition kNaClPrefixTable : list Z := [
  0; 0; 0; 0; 0; 0; 0; 0; 0; 0; 0; 0; 0; 0; 0; 0; 0; 0; 0; 0; 0; 0; 0; 0; 0; 0; 0; 0; 0; 0; 0; 0;
  0; 0; 0; 0; 0; 0; kPrefixSEGES; 0; 0; 0; 0; 0; 0; 0; kPrefixSEGCS; 0; 0; 0; 0; 0; 0; 0;
  kPrefixSEGSS; 0; 0; 0; 0; 0; 0; 0; kPrefixSEGDS; 0; kPrefixREX; kPrefixREX; kPrefixREX;
  kPrefixREX; kPrefixREX; kPrefixREX; kPrefixREX; kPrefixREX; kPrefixREX; kPrefixREX; kPrefixREX;
  kPrefixREX; kPrefixREX; kPrefixREX; kPrefixREX; kPrefixREX; 0; 0; 0; 0; 0; 0; 0; 0; 0; 0; 0; 0;
  0; 0; 0; 0; 0; 0; 0; 0; kPrefixSEGFS; kPrefixSEGGS; kPrefixDATA16; kPrefixADDR16; 0; 0; 0; 0; 0;
  0; 0; 0; 0; 0; 0; 0; 0; 0; 0; 0; 0; 0; 0; 0; 0; 0; 0; 0; 0; 0; 0; 0; 0; 0; 0; 0; 0; 0; 0; 0; 0;
  0; 0; 0; 0; 0; 0; 0; 0; 0; 0; 0; 0; 0; 0; 0; 0; 0; 0; 0; 0; 0; 0; 0; 0; 0; 0; 0; 0; 0; 0; 0; 0;
  0; 0; 0; 0; 0; 0; 0; 0; 0; 0; 0; 0; 0; 0; 0; 0; 0; 0; 0; 0; 0; 0; 0; 0; 0; 0; 0; 0; 0; 0; 0; 0;
  0; 0; 0; 0; 0; 0; 0; 0; 0; 0; 0; 0; 0; 0; 0; 0; 0; 0; 0; 0; 0; 0; 0; 0; 0; 0; 0; 0; 0; 0; 0; 0;
  0; 0; 0; kPrefixLOCK; 0; kPrefixREPNE; kPrefixREP; 0; 0; 0; 0; 0; 0; 0; 0; 0; 0; 0; 0
].

Definition g_OpcodeSeq_0 : list NaClInstNode := [
  mkNode 15 NACL_OPCODE_NULL_OFFSET (Some 1) (Some 20);
  mkNode 11 287 None (Some 2);
  mkNode 31 NACL_OPCODE_NULL_OFFSET (Some 3) None;
  mkNode 0 287 None (Some 4);
  mkNode 64 NACL_OPCODE_NULL_OFFSET (Some 5) (Some 6);
  mkNode 0 287 None None;
  mkNode 68 NACL_OPCODE_NULL_OFFSET (Some 7) (Some 9);
  mkNode 0 NACL_OPCODE_NULL_OFFSET (Some 8) None;
  mkNode 0 287 None None;
  mkNode 128 NACL_OPCODE_NULL_OFFSET (Some 10) (Some 14);
  mkNode 0 NACL_OPCODE_NULL_OFFSET (Some 11) None;
  mkNode 0 NACL_OPCODE_NULL_OFFSET (Some 12) None;
  mkNode 0 NACL_OPCODE_NULL_OFFSET (Some 13) None;
  mkNode 0 287 None None;
  mkNode 132 NACL_OPCODE_NULL_OFFSET (Some 15) None;
  mkNode 0 NACL_OPCODE_NULL_OFFSET (Some 16) None;
  mkNode 0 NACL_OPCODE_NULL_OFFSET (Some 17) None;
  mkNode 0 NACL_OPCODE_NULL_OFFSET (Some 18) None;
  mkNode 0 NACL_OPCODE_NULL_OFFSET (Some 19) None;
  mkNode 0 287 None None;
  mkNode 102 NACL_OPCODE_NULL_OFFSET (Some 21) (Some 92);
  mkNode 15 NACL_OPCODE_NULL_OFFSET (Some 22) (Some 32);
  mkNode 31 NACL_OPCODE_NULL_OFFSET (Some 23) None;
  mkNode 68 NACL_OPCODE_NULL_OFFSET (Some 24) (Some 26);
  mkNode 0 NACL_OPCODE_NULL_OFFSET (Some 25) None
].

Definition g_OpcodeSeq_1 : list NaClInstNode := [
  mkNode 0 287 None None;
  mkNode 132 NACL_OPCODE_NULL_OFFSET (Some 27) None;
  mkNode 0 NACL_OPCODE_NULL_OFFSET (Some 28) None;
  mkNode 0 NACL_OPCODE_NULL_OFFSET (Some 29) None;
  mkNode 0 NACL_OPCODE_NULL_OFFSET (Some 30) None;
  mkNode 0 NACL_OPCODE_NULL_OFFSET (Some 31) None;
  mkNode 0 287 None None;
  mkNode 46 NACL_OPCODE_NULL_OFFSET (Some 33) (Some 41);
  mkNode 15 NACL_OPCODE_NULL_OFFSET (Some 34) None;
  mkNode 31 NACL_OPCODE_NULL_OFFSET (Some 35) None;
  mkNode 132 NACL_OPCODE_NULL_OFFSET (Some 36) None;
  mkNode 0 NACL_OPCODE_NULL_OFFSET (Some 37) None;
  mkNode 0 NACL_OPCODE_NULL_OFFSET (Some 38) None;
  mkNode 0 NACL_OPCODE_NULL_OFFSET (Some 39) None;
  mkNode 0 NACL_OPCODE_NULL_OFFSET (Some 40) None;
  mkNode 0 287 None None;
  mkNode 102 NACL_OPCODE_NULL_OFFSET (Some 42) (Some 91);
  mkNode 46 NACL_OPCODE_NULL_OFFSET (Some 43) (Some 51);
  mkNode 15 NACL_OPCODE_NULL_OFFSET (Some 44) None;
  mkNode 31 NACL_OPCODE_NULL_OFFSET (Some 45) None;
  mkNode 132 NACL_OPCODE_NULL_OFFSET (Some 46) None;
  mkNode 0 NACL_OPCODE_NULL_OFFSET (Some 47) None;
  mkNode 0 NACL_OPCODE_NULL_OFFSET (Some 48) None;
  mkNode 0 NACL_OPCODE_NULL_OFFSET (Some 49) None;
  mkNode 0 NACL_OPCODE_NULL_OFFSET (Some 50) None
].

Definition g_OpcodeSeq_2 : list NaClInstNode := [
  mkNode 0 287 None None;
  mkNode 102 NACL_OPCODE_NULL_OFFSET (Some 52) None;
  mkNode 46 NACL_OPCODE_NULL_OFFSET (Some 53) (Some 61);
  mkNode 15 NACL_OPCODE_NULL_OFFSET (Some 54) None;
  mkNode 31 NACL_OPCODE_NULL_OFFSET (Some 55) None;
  mkNode 132 NACL_OPCODE_NULL_OFFSET (Some 56) None;
  mkNode 0 NACL_OPCODE_NULL_OFFSET (Some 57) None;
  mkNode 0 NACL_OPCODE_NULL_OFFSET (Some 58) None;
  mkNode 0 NACL_OPCODE_NULL_OFFSET (Some 59) None;
  mkNode 0 NACL_OPCODE_NULL_OFFSET (Some 60) None;
  mkNode 0 287 None None;
  mkNode 102 NACL_OPCODE_NULL_OFFSET (Some 62) None;
  mkNode 46 NACL_OPCODE_NULL_OFFSET (Some 63) (Some 71);
  mkNode 15 NACL_OPCODE_NULL_OFFSET (Some 64) None;
  mkNode 31 NACL_OPCODE_NULL_OFFSET (Some 65) None;
  mkNode 132 NACL_OPCODE_NULL_OFFSET (Some 66) None;
  mkNode 0 NACL_OPCODE_NULL_OFFSET (Some 67) None;
  mkNode 0 NACL_OPCODE_NULL_OFFSET (Some 68) None;
  mkNode 0 NACL_OPCODE_NULL_OFFSET (Some 69) None;
  mkNode 0 NACL_OPCODE_NULL_OFFSET (Some 70) None;
  mkNode 0 287 None None;
  mkNode 102 NACL_OPCODE_NULL_OFFSET (Some 72) None;
  mkNode 46 NACL_OPCODE_NULL_OFFSET (Some 73) (Some 81);
  mkNode 15 NACL_OPCODE_NULL_OFFSET (Some 74) None;
  mkNode 31 NACL_OPCODE_NULL_OFFSET (Some 75) None
].

Definition g_OpcodeSeq_3 : list NaClInstNode := [
  mkNode 132 NACL_OPCODE_NULL_OFFSET (Some 76) None;
  mkNode 0 NACL_OPCODE_NULL_OFFSET (Some 77) None;
  mkNode 0 NACL_OPCODE_NULL_OFFSET (Some 78) None;
  mkNode 0 NACL_OPCODE_NULL_OFFSET (Some 79) None;
  mkNode 0 NACL_OPCODE_NULL_OFFSET (Some 80) None;
  mkNode 0 287 None None;
  mkNode 102 NACL_OPCODE_NULL_OFFSET (Some 82) None;
  mkNode 46 NACL_OPCODE_NULL_OFFSET (Some 83) None;
  mkNode 15 NACL_OPCODE_NULL_OFFSET (Some 84) None;
  mkNode 31 NACL_OPCODE_NULL_OFFSET (Some 85) None;
  mkNode 132 NACL_OPCODE_NULL_OFFSET (Some 86) None;
  mkNode 0 NACL_OPCODE_NULL_OFFSET (Some 87) None;
  mkNode 0 NACL_OPCODE_NULL_OFFSET (Some 88) None;
  mkNode 0 NACL_OPCODE_NULL_OFFSET (Some 89) None;
  mkNode 0 NACL_OPCODE_NULL_OFFSET (Some 90) None;
  mkNode 0 287 None None;
  mkNode 144 287 None None;
  mkNode 144 287 None (Some 93);
  mkNode 243 NACL_OPCODE_NULL_OFFSET (Some 94) None;
  mkNode 144 287 None None
].

Definition g_OpcodeSeq : list NaClInstNode :=
  g_OpcodeSeq_0 ++ g_OpcodeSeq_1 ++ g_OpcodeSeq_2 ++ g_OpcodeSeq_3.

Definition kNaClValDecoderTables : NaClDecodeTables := {|
  operands_table := g_Operands;
  opcodes_table := g_Opcodes;
  opcode_entries := g_LookupTable;
  opcode_selectors := g_PrefixOpcode;
  undefined := 0;
  prefix_mask_table := kNaClPrefixTable;
  hard_coded := g_OpcodeSeq;
|}.

(** ** Registers *)

Definition NACL_REG_TABLE_SIZE : Z := 16.
Definition NACL_REGISTER_UNDEFINED : Z := -1.

Definition NaClRegTable8NoRex : list NaClOpKind :=
  [RegAL; RegCL; RegDL; RegBL; RegAH; RegCH; RegDH; RegBH; RegUnknown; RegUnknown; RegUnknown; RegUnknown; RegUnknown; RegUnknown; RegUnknown; RegUnknown].
Definition NaClRegTable8Rex : list NaClOpKind :=
  [RegAL; RegCL; RegDL; RegBL; RegSPL; RegBPL; RegSIL; RegDIL; RegR8B; RegR9B; RegR10B; RegR11B; RegR12B; RegR13B; RegR14B; RegR15B].
Definition NaClRegTable16 : list NaClOpKind :=
  [RegAX; RegCX; RegDX; RegBX; RegSP; RegBP; RegSI; RegDI; RegR8W; RegR9W; RegR10W; RegR11W; RegR12W; RegR13W; RegR14W; RegR15W].
Definition NaClRegTable32 : list NaClOpKind :=
  [RegEAX; RegECX; RegEDX; RegEBX; RegESP; RegEBP; RegESI; RegEDI; RegR8D; RegR9D; RegR10D; RegR11D; RegR12D; RegR13D; RegR14D; RegR15D].
Definition NaClRegTable64 : list NaClOpKind :=
  [RegRAX; RegRCX; RegRDX; RegRBX; RegRSP; RegRBP; RegRSI; RegRDI; RegR8; RegR9; RegR10; RegR11; RegR12; RegR13; RegR14; RegR15].
Definition NaClRegTableMmx : list NaClOpKind :=
  [RegMMX0; RegMMX1; RegMMX2; RegMMX3; RegMMX4; RegMMX5; RegMMX6; RegMMX7; RegMMX0; RegMMX1; RegMMX2; RegMMX3; RegMMX4; RegMMX5; RegMMX6; RegMMX7].
Definition NaClRegTableXmm : list NaClOpKind :=
  [RegXMM0; RegXMM1; RegXMM2; RegXMM3; RegXMM4; RegXMM5; RegXMM6; RegXMM7; RegXMM8; RegXMM9; RegXMM10; RegXMM11; RegXMM12; RegXMM13; RegXMM14; RegXMM15].
Definition NaClRegTableC : list NaClOpKind :=
  [RegCR0; RegCR1; RegCR2; RegCR3; RegCR4; RegCR5; RegCR6; RegCR7; RegCR8; RegCR9; RegCR10; RegCR11; RegCR12; RegCR13; RegCR14; RegCR15].
Definition NaClRegTableD : list NaClOpKind :=
  [RegDR0; RegDR1; RegDR2; RegDR3; RegDR4; RegDR5; RegDR6; RegDR7; RegDR8; RegDR9; RegDR10; RegDR11; RegDR12; RegDR13; RegDR14; RegDR15].

(** Entries are indices of the register tables, -1 is NACL_REGISTER_UNDEFINED. *)
Definition NaClGpSubregIndex : list Z := [
  -1; -1; -1; -1; -1; -1; -1; -1; -1; -1; -1; -1; -1; -1; -1; -1; -1; -1; -1; -1; -1; -1; -1; -1;
  -1; -1; -1; -1; -1; -1; -1; -1; -1; -1; -1; -1; -1; -1; -1; -1; -1; -1; -1; -1; -1; -1; -1; -1;
  -1; -1; -1; -1; -1; 0; 3; 1; 2; 0; 3; 1; 2; 7; 6; 5; 4; 8; 9; 10; 11; 12; 13; 14; 15; 0; 3; 1; 2;
  6; 7; 5; 4; 8; 9; 10; 11; 12; 13; 14; 15; 0; 3; 1; 2; 6; 7; 5; 4; 8; 9; 10; 11; 12; 13; 14; 15;
  -1; -1; -1; -1; -1; -1; -1; -1; -1; -1; -1; -1; -1; -1; -1; -1; -1; -1; -1; -1; -1; -1; -1; -1;
  -1; -1; -1; -1; -1; -1; -1; -1; -1; -1; -1; -1; -1; -1; -1; -1; -1; -1; -1; -1; -1; -1; -1; -1;
  -1; -1; -1; -1; -1; -1; -1; -1; -1; -1; -1; -1; -1; -1; -1; -1; -1; -1; -1; -1; -1; -1; -1; -1;
  -1; -1; -1; -1; -1; -1; -1; -1; -1; -1; -1; -1; -1; -1; -1; -1; -1; -1; -1; -1; -1; -1; -1; -1;
  -1; -1; -1; -1; -1; -1; -1; -1; -1; -1
].

(** Entries are indices of the register tables, -1 is NACL_REGISTER_UNDEFINED. *)
Definition NaClGpReg64Index : list Z := [
  -1; -1; -1; -1; -1; -1; -1; -1; -1; -1; -1; -1; -1; -1; -1; -1; -1; -1; -1; -1; -1; -1; -1; -1;
  -1; -1; -1; -1; -1; -1; -1; -1; -1; -1; -1; -1; -1; -1; -1; -1; -1; -1; -1; -1; -1; -1; -1; -1;
  -1; -1; -1; -1; -1; -1; -1; -1; -1; -1; -1; -1; -1; -1; -1; -1; -1; -1; -1; -1; -1; -1; -1; -1;
  -1; -1; -1; -1; -1; -1; -1; -1; -1; -1; -1; -1; -1; -1; -1; -1; -1; -1; -1; -1; -1; -1; -1; -1;
  -1; -1; -1; -1; -1; -1; -1; -1; -1; -1; -1; -1; -1; -1; -1; -1; -1; -1; -1; -1; -1; -1; -1; -1;
  -1; -1; -1; -1; -1; -1; -1; -1; -1; -1; -1; -1; -1; -1; -1; -1; -1; -1; -1; -1; -1; -1; -1; -1;
  -1; -1; -1; 0; 3; 1; 2; 6; 7; 5; 4; 8; 9; 10; 11; 12; 13; 14; 15; -1; -1; -1; -1; -1; -1; -1; -1;
  -1; -1; -1; -1; -1; -1; -1; -1; -1; -1; -1; -1; -1; -1; -1; -1; -1; -1; -1; -1; -1; -1; -1; -1;
  -1; -1; -1; -1; -1; -1; -1; -1; -1; -1; -1; -1; -1; -1; -1; -1
].
