(* ===== verification/InstBuffer.v ===== *)
(** * Reading instruction bytes: ncinstbuffer.c, ncinstbuffer_inl.c

    [NCRemainingMemory] walks over the code segment; [NCInstBytes] buffers the
    bytes of the instruction being parsed.  Reading past the end of the
    segment yields 0 and is counted, it is not an error of the process: the
    error function only logs.  The buffer is built with NCBUF_CLEAR_CACHE. *)

From S2P Require Import Prelude Effects Stateful Bytes.

Definition MAX_INST_LENGTH : Z := 15.
Definition NC_MEMORY_OVERFLOW : Z := 0.

Record NCRemainingMemory := mkRemaining {
  next_byte : Z;
  cur_pos : Z;
  mlimit : Z;
  mpc : Z;
  read_length : Z;
  overflow_count : Z;
}.

#[global] Instance updatable_remaining : Updatable NCRemainingMemory := fun r =>
  mkRemaining (next_byte r) (cur_pos r) (mlimit r) (mpc r) (read_length r) (overflow_count r).

Record NCInstBytes := mkInstBytes {
  byte : list Z;       (* uint8_t byte[MAX_INST_LENGTH] *)
  blength : Z;         (* length *)
}.

#[global] Instance updatable_bytes : Updatable NCInstBytes := fun r => mkInstBytes (byte r) (blength r).

Definition cleared_bytes : list Z := replicate (Z.to_nat MAX_INST_LENGTH) 0.

Section Buffer.
Variable ram : memory.

Definition NCRemainingMemoryPeekInline (memory : NCRemainingMemory) : Z :=
  if mlimit memory <=? cur_pos memory then NC_MEMORY_OVERFLOW else ram (cur_pos memory).

Definition NCRemainingMemoryAdvanceInline (memory : NCRemainingMemory) : NCRemainingMemory :=
  memory <| mpc := cur_pos memory |> <| read_length := 0 |> <| overflow_count := 0 |>.

Definition NCRemainingMemoryResetInline (memory : NCRemainingMemory) : NCRemainingMemory :=
  let memory := memory <| cur_pos := mpc memory |> in
  memory <| next_byte := NCRemainingMemoryPeekInline memory |>
         <| read_length := 0 |> <| overflow_count := 0 |>.

Definition NCRemainingMemoryLookaheadInline (memory : NCRemainingMemory) (n : Z) : Z :=
  if cur_pos memory + n <? mlimit memory then ram (cur_pos memory + n) else NC_MEMORY_OVERFLOW.

Definition NCRemainingMemoryReadInline (memory : NCRemainingMemory) : Z * NCRemainingMemory :=
  let b := next_byte memory in
  if cur_pos memory =? mlimit memory then
    (b, memory <| overflow_count := u8 (overflow_count memory + 1) |>)
  else
    let memory := memory <| read_length := u8 (read_length memory + 1) |>
                         <| cur_pos := cur_pos memory + 1 |> in
    (b, memory <| next_byte := NCRemainingMemoryPeekInline memory |>).

Definition NCRemainingMemoryInit (memory_base size : Z) : NCRemainingMemory :=
  let memory := mkRemaining 0 memory_base (memory_base + size) memory_base 0 0 in
  NCRemainingMemoryAdvanceInline (memory <| next_byte := NCRemainingMemoryPeekInline memory |>).

(** ** The buffered instruction

    The memory that a buffer points to is passed beside it. *)

Definition NCInstBytesInitMemory : NCInstBytes := mkInstBytes cleared_bytes 0.

Definition NCInstBytesPeekInline (memory : NCRemainingMemory) (n : Z) : Z :=
  NCRemainingMemoryLookaheadInline memory n.

Definition NCInstByteInline (bytes : NCInstBytes) (memory : NCRemainingMemory) (n : Z) : outcome Z :=
  if n <? blength bytes then index (byte bytes) n
  else Ret (NCRemainingMemoryLookaheadInline memory (n - blength bytes)).

Definition NCInstBytesReadInline (bytes : NCInstBytes) (memory : NCRemainingMemory)
  : Z * NCInstBytes * NCRemainingMemory :=
  let '(b, memory) := NCRemainingMemoryReadInline memory in
  let bytes :=
    if blength bytes <? MAX_INST_LENGTH then
      mkInstBytes (<[Z.to_nat (blength bytes) := b]> (byte bytes)) (blength bytes + 1)
    else bytes in
  (b, bytes, memory).

Fixpoint ReadBytes_loop (n : nat) (bytes : NCInstBytes) (memory : NCRemainingMemory)
  : NCInstBytes * NCRemainingMemory :=
  match n with
  | O => (bytes, memory)
  | S n' => let '(_, bytes, memory) := NCInstBytesReadInline bytes memory in ReadBytes_loop n' bytes memory
  end.

Definition NCInstBytesReadBytesInline (n : Z) (bytes : NCInstBytes) (memory : NCRemainingMemory)
  : NCInstBytes * NCRemainingMemory :=
  ReadBytes_loop (Z.to_nat n) bytes memory.

Definition NCInstBytesResetInline (memory : NCRemainingMemory) : NCInstBytes * NCRemainingMemory :=
  (mkInstBytes cleared_bytes 0, NCRemainingMemoryResetInline memory).

Definition NCInstBytesInitInline (memory : NCRemainingMemory) : NCInstBytes * NCRemainingMemory :=
  (mkInstBytes cleared_bytes 0, NCRemainingMemoryAdvanceInline memory).

(** ** The state of a read

    [reading base len]: an instruction that starts at [base] has [len] bytes
    buffered, all of them from the segment. *)
Record reading (lim base len : Z) (bytes : NCInstBytes) (memory : NCRemainingMemory) : Prop := {
  rd_mpc : mpc memory = base;
  rd_pos : cur_pos memory = base + len;
  rd_lim : mlimit memory = lim;
  rd_len : blength bytes = len;
  rd_read : read_length memory = len;
  rd_next : next_byte memory = NCRemainingMemoryPeekInline memory;
  rd_size : length (byte bytes) = 15%nat;
  rd_range : 0 <= len <= MAX_INST_LENGTH /\ base + len <= lim;
  rd_bytes : forall i, 0 <= i < len -> byte bytes !! Z.to_nat i = Some (ram (base + i));
}.

Lemma reading_read lim base len bytes memory :
  reading lim base len bytes memory -> len < MAX_INST_LENGTH -> base + len < lim ->
  exists bytes' memory', NCInstBytesReadInline bytes memory = (ram (base + len), bytes', memory') /\
    reading lim base (len + 1) bytes' memory'.
Proof.
  intros [Hpc Hpos Hlim Hlen Hrl Hnext Hsz Hr Hb] Hmax Hend.
  unfold NCInstBytesReadInline, NCRemainingMemoryReadInline, MAX_INST_LENGTH in *.
  destruct (_ =? _) eqn:E; zbool; [lia|]. rewrite Hlen.
  destruct (len <? 15) eqn:E2; zbool; [|lia]. eexists _, _. split.
  - rewrite Hnext. unfold NCRemainingMemoryPeekInline.
    destruct (_ <=? _) eqn:E3; zbool; [lia|]. rewrite Hpos. reflexivity.
  - split; simpl; try done; try lia.
    + rewrite Hrl. unfold u8. rewrite Z.mod_small; lia.
    + by rewrite length_insert.
    + unfold MAX_INST_LENGTH. lia.
    + intros i Hi. destruct (decide (i = len)) as [->|Hne].
      * by rewrite list_lookup_insert_eq by lia.
      * rewrite list_lookup_insert_ne by lia. apply Hb. lia.
Qed.

Lemma reading_read_bytes lim base n len bytes memory :
  reading lim base len bytes memory -> len + Z.of_nat n <= MAX_INST_LENGTH -> base + len + Z.of_nat n <= lim ->
  exists bytes' memory', ReadBytes_loop n bytes memory = (bytes', memory') /\
    reading lim base (len + Z.of_nat n) bytes' memory'.
Proof.
  revert len bytes memory. induction n as [|n IH]; intros len bytes memory Hr Hmax Hend.
  - exists bytes, memory. split; [done|]. by replace (len + Z.of_nat 0) with len by lia.
  - destruct (reading_read _ _ _ _ _ Hr) as (b1 & m1 & Heq & Hr1); [lia..|].
    destruct (IH _ _ _ Hr1) as (b2 & m2 & Heq2 & Hr2); [lia..|].
    exists b2, m2. simpl. rewrite Heq. split; [done|].
    by replace (len + Z.of_nat (S n)) with (len + 1 + Z.of_nat n) by lia.
Qed.

(** Starting over: the buffer is empty and the position is back. *)
Lemma reading_reset lim base len bytes memory :
  reading lim base len bytes memory ->
  reading lim base 0 (NCInstBytesResetInline memory).1 (NCInstBytesResetInline memory).2.
Proof.
  intros [Hpc Hpos Hlim Hlen Hrl Hnext Hsz Hr Hb].
  split; simpl; try done; unfold MAX_INST_LENGTH in *; lia.
Qed.

Lemma reading_reset_to lim base len k bytes memory :
  reading lim base len bytes memory -> 0 <= k <= len ->
  exists bytes' memory',
    NCInstBytesReadBytesInline k (NCInstBytesResetInline memory).1 (NCInstBytesResetInline memory).2 = (bytes', memory') /\
    reading lim base k bytes' memory'.
Proof.
  intros Hr Hk. pose proof (rd_range _ _ _ _ _ Hr) as [Hl1 Hl2].
  destruct (reading_read_bytes lim base (Z.to_nat k) 0 _ _ (reading_reset _ _ _ _ _ Hr)) as (b & m & Heq & Hr');
    [unfold MAX_INST_LENGTH in *; lia..|].
  exists b, m. split; [done|]. by replace (0 + Z.of_nat (Z.to_nat k)) with k in Hr' by lia.
Qed.

(** The next instruction starts where this one ended. *)
Lemma reading_init lim base len bytes memory :
  reading lim base len bytes memory ->
  reading lim (base + len) 0 (NCInstBytesInitInline memory).1 (NCInstBytesInitInline memory).2.
Proof.
  intros [Hpc Hpos Hlim Hlen Hrl Hnext Hsz Hr Hb].
  split; simpl; try done; unfold MAX_INST_LENGTH in *; lia.
Qed.

Lemma reading_start base size : 0 <= size ->
  reading (base + size) base 0 NCInstBytesInitMemory (NCRemainingMemoryInit base size).
Proof. intros. split; simpl; try done; unfold MAX_INST_LENGTH in *; lia. Qed.

End Buffer.
