(* ===== verification/ExpVector.v ===== *)
(** * Expression vectors: ncop_exps.c, ncop_exps_inl.c

    The operands of a decoded instruction as a forest, flattened in preorder
    into an array of at most 30 nodes. *)

From S2P Require Import Prelude Effects Stateful OpKinds.

Inductive NaClExpKind :=
| UndefinedExp | ExprRegister | OperandReference | ExprConstant
| ExprSegmentAddress | ExprMemOffset | ExprNaClIllegal.

#[global] Instance NaClExpKind_eq_dec : EqDecision NaClExpKind.
Proof. solve_decision. Defined.

Record NaClExp := mkExp { exp_value : Z; exp_kind : NaClExpKind; exp_flags : Z }.

#[global] Instance NaClExp_eq_dec : EqDecision NaClExp.
Proof. solve_decision. Defined.

#[global] Instance updatable_exp : Updatable NaClExp := fun r => mkExp (exp_value r) (exp_kind r) (exp_flags r).

Definition NACL_MAX_EXPS : Z := 30.

Record NaClExpVector := mkVector {
  is_defined : bool;
  number_expr_nodes : Z;
  node : list NaClExp;   (* NaClExp node[NACL_MAX_EXPS] *)
}.

#[global] Instance updatable_vector : Updatable NaClExpVector := fun r =>
  mkVector (is_defined r) (number_expr_nodes r) (node r).

(** The kind of a node, its flags as a condition. *)
Definition is_kind (k : NaClExpKind) (n : NaClExp) : bool := bool_decide (exp_kind n = k).
Definition has_eflag (n : NaClExp) (flag : Z) : bool := NaClHasBit (exp_flags n) (FLAG flag).

(** The number of children of a node, from g_NaClExpKindDesc. *)
Definition NaClExpKindRank (kind : NaClExpKind) : Z :=
  match kind with
  | UndefinedExp => 0
  | ExprRegister => 0
  | OperandReference => 1
  | ExprConstant => 0
  | ExprSegmentAddress => 2
  | ExprMemOffset => 4
  | ExprNaClIllegal => 0
  end.

Definition NaClGetExpRegisterInline (n : NaClExp) : outcome NaClOpKind :=
  if is_kind ExprRegister n then Ret (exp_value n)
  else Fault (CheckFailed "node->kind == ExprRegister").

Definition NaClGetExpVectorRegister (vector : NaClExpVector) (i : Z) : outcome NaClOpKind :=
  n ← index (node vector) i; NaClGetExpRegisterInline n.

(** Sign extension of the low [w] bits. *)
Definition sext (w z : Z) : Z := (z + 2 ^ (w - 1)) mod 2 ^ w - 2 ^ (w - 1).

Definition NaClGetExprSignedValue (n : NaClExp) : Z :=
  if has_eflag n ExprSize8 then sext 8 (exp_value n)
  else if has_eflag n ExprSize16 then sext 16 (exp_value n)
  else if has_eflag n ExprSize32 then sext 32 (exp_value n)
  else sext 64 (exp_value n).

Definition NaClGetExprUnsignedValue (n : NaClExp) : Z :=
  if has_eflag n ExprSize8 then exp_value n mod 2 ^ 8
  else if has_eflag n ExprSize16 then exp_value n mod 2 ^ 16
  else if has_eflag n ExprSize32 then exp_value n mod 2 ^ 32
  else exp_value n mod 2 ^ 64.

(** The number of nodes of the subtree at [i].  The recursion is on increasing
    indices of an array of 30 nodes, so 31 levels are enough; the inner loop
    runs over the children. *)
Fixpoint ExpWidth (fuel : nat) (vector : NaClExpVector) (i : Z) : outcome Z :=
  match fuel with
  | O => Fault OutOfFuel
  | S fuel' =>
      n ← index (node vector) i;
      (fix kids (k : nat) (count : Z) : outcome Z :=
         match k with
         | O => Ret count
         | S k' => w ← ExpWidth fuel' vector (i + count); kids k' (count + w)
         end) (Z.to_nat (NaClExpKindRank (exp_kind n))) 1
  end.

Definition NaClExpWidth (vector : NaClExpVector) (i : Z) : outcome Z := ExpWidth 31 vector i.

Fixpoint KidIndex_loop (kid : nat) (vector : NaClExpVector) (i : Z) : outcome Z :=
  match kid with
  | O => Ret i
  | S k => w ← NaClExpWidth vector i; KidIndex_loop k vector (i + w)
  end.

Definition NaClGetExpKidIndex (vector : NaClExpVector) (i kid : Z) : outcome Z :=
  KidIndex_loop (Z.to_nat kid) vector (i + 1).

(** The loop runs down from [i]. *)
Fixpoint ParentIndex_loop (i : nat) (vector : NaClExpVector) (num_kids : Z) : outcome Z :=
  match i with
  | O => Ret (-1)
  | S i' =>
      n ← index (node vector) (Z.of_nat i');
      let node_rank := NaClExpKindRank (exp_kind n) in
      if num_kids <=? node_rank then Ret (Z.of_nat i')
      else ParentIndex_loop i' vector (num_kids - (node_rank - 1))
  end.

Definition NaClGetExpParentIndex (vector : NaClExpVector) (i : Z) : outcome Z :=
  ParentIndex_loop (Z.to_nat i) vector 1.

(** The index of the [n]-th node of a kind, -1 if there is none; [k] nodes are
    left from [i] on. *)
Fixpoint NthExpKind_loop (k : nat) (i : Z) (vector : NaClExpVector) (kind : NaClExpKind) (n : Z) : outcome Z :=
  match k with
  | O => Ret (-1)
  | S k' =>
      nd ← index (node vector) i;
      if is_kind kind nd then
        if n - 1 =? 0 then Ret i else NthExpKind_loop k' (i + 1) vector kind (n - 1)
      else NthExpKind_loop k' (i + 1) vector kind n
  end.

Definition NaClGetNthExpKind (vector : NaClExpVector) (kind : NaClExpKind) (n : Z) : outcome Z :=
  if 0 <? n then NthExpKind_loop (Z.to_nat (number_expr_nodes vector)) 0 vector kind n else Ret (-1).
