(* ===== verification/InstState.v ===== *)
(** * The state of a decoded instruction: nc_inst_state_internal.h

    The pointer to the iterator serves printing only.  The memory that
    [bytes] points to is shared by all instructions of an iterator and is
    passed beside the state. *)

From S2P Require Import Prelude Effects Stateful OpKinds DecodeTables InstBuffer ExpVector.

Record NaClInstState := mkInstState {
  bytes : NCInstBytes;
  inst_addr : Z;
  length_limit : Z;
  num_prefix_bytes : Z;
  opcode_prefix : Z;
  num_opcode_bytes : Z;
  rexprefix : Z;
  num_rex_prefixes : Z;
  modrm : Z;
  has_prefix_duplicates : bool;
  has_ambig_segment_prefixes : bool;
  has_sib : bool;
  sib : Z;
  num_disp_bytes : Z;
  first_disp_byte : Z;
  num_imm_bytes : Z;
  first_imm_byte : Z;
  num_imm2_bytes : Z;
  operand_size : Z;
  address_size : Z;
  prefix_mask : Z;
  inst : option InstPtr;
  nodes : NaClExpVector;
  unchanged : bool;
}.

#[global] Instance updatable_inst_state : Updatable NaClInstState := fun r =>
  mkInstState (bytes r) (inst_addr r) (length_limit r) (num_prefix_bytes r) (opcode_prefix r)
    (num_opcode_bytes r) (rexprefix r) (num_rex_prefixes r) (modrm r) (has_prefix_duplicates r)
    (has_ambig_segment_prefixes r) (has_sib r) (sib r) (num_disp_bytes r) (first_disp_byte r)
    (num_imm_bytes r) (first_imm_byte r) (num_imm2_bytes r) (operand_size r) (address_size r)
    (prefix_mask r) (inst r) (nodes r) (unchanged r).

(** A slot of the iterator's buffer as [calloc] and NCInstBytesInitMemory leave
    it. *)
Definition empty_vector : NaClExpVector :=
  mkVector false 0 (replicate (Z.to_nat NACL_MAX_EXPS) (mkExp 0 UndefinedExp 0)).

Definition empty_state : NaClInstState :=
  mkInstState NCInstBytesInitMemory 0 0 0 0 0 0 0 0 false false false 0 0 0 0 0 0 0 0 0 None empty_vector false.

(** [state->inst->...] and the accessors of nc_inst_state.c. *)
Definition NaClInstStateInst (state : NaClInstState) : outcome NaClInst :=
  p ← follow (inst state); Ret (inst_at p).

Definition NaClInstStateLength (state : NaClInstState) : Z := blength (bytes state).

Definition NaClInstStateByte (state : NaClInstState) (i : Z) : outcome Z :=
  if i <? blength (bytes state) then index (byte (bytes state)) i
  else Fault (CheckFailed "index < state->bytes.length").

Definition NaClInstStateIsValid (state : NaClInstState) : outcome bool :=
  i ← NaClInstStateInst state; Ret (negb (mnemonic_eqb (inst_name i) InstInvalid)).

Definition NaClInstStateOperandSize (state : NaClInstState) : Z := operand_size state.
Definition NaClInstStateAddressSize (state : NaClInstState) : Z := address_size state.

Definition has_iflag (i : NaClInst) (flag : Z) : bool := NaClHasBit (inst_flags i) (FLAG flag).
Definition has_opflag (op : NaClOp) (flag : Z) : bool := NaClHasBit (op_flags op) (FLAG flag).
