(* ===== verification/InstTrans.v ===== *)
(** * From a decoded instruction to expressions: nc_inst_trans.c

    [NaClBuildExpVector] translates the operands of the matched pattern into
    the expression vector of the instruction.  A pointer to a node is its
    index; NaClFatal and NaClLost, which call exit, are [CondAbort].  The code
    is the one for NACL_TARGET_SUBARCH == 64. *)

From S2P Require Import Prelude Effects Stateful OpKinds DecodeTables OpcodeTable InstBuffer.
From S2P Require Import ExpVector InstState.

Definition Trans (A : Type) : Type := St NaClInstState A.

Definition one_of (k : Z) (l : list Z) : bool := existsb (Z.eqb k) l.

(** ** Registers *)

(** The search through the prefix bytes, last first; [i] is the number left. *)
Fixpoint SegmentPrefix_loop (i : nat) (state : NaClInstState) (reg_default : NaClOpKind) : outcome NaClOpKind :=
  match i with
  | O => Ret reg_default
  | S i' =>
      b ← index (byte (bytes state)) (Z.of_nat i');
      if b =? kValueSEGFS then Ret RegFS
      else if b =? kValueSEGGS then Ret RegGS
      else SegmentPrefix_loop i' state reg_default
  end.

Definition NaClGetSegmentPrefixReg (reg_default : NaClOpKind) : Trans NaClOpKind :=
  state ← get;
  if NaClHasBit (prefix_mask state) (Z.lor kPrefixSEGGS kPrefixSEGFS) then
    lift (SegmentPrefix_loop (Z.to_nat (num_prefix_bytes state)) state reg_default)
  else mret reg_default.

Definition NaClGetDsSegmentReg : Trans NaClOpKind := NaClGetSegmentPrefixReg RegDS.
Definition NaClGetEsSegmentReg : Trans NaClOpKind := NaClGetSegmentPrefixReg RegES.

Fixpoint For32_loop (t32 t64 : list NaClOpKind) (reg32 : NaClOpKind) : NaClOpKind :=
  match t32, t64 with
  | r32 :: t32, r64 :: t64 => if reg32 =? r32 then r64 else For32_loop t32 t64 reg32
  | _, _ => RegUnknown
  end.

Definition NaClGet64For32BitReg (reg32 : NaClOpKind) : NaClOpKind :=
  For32_loop NaClRegTable32 NaClRegTable64 reg32.

Definition NaClGet32For64BitReg (reg64 : NaClOpKind) : outcome NaClOpKind :=
  i ← index NaClGpReg64Index reg64;
  if i =? NACL_REGISTER_UNDEFINED then Ret RegUnknown else index NaClRegTable32 i.

Definition NaClIs64Subreg (subreg reg64 : NaClOpKind) : outcome bool :=
  i ← index NaClGpSubregIndex subreg;
  if i =? NACL_REGISTER_UNDEFINED then Ret false
  else
    index64 ← index NaClGpReg64Index reg64;
    if index64 =? NACL_REGISTER_UNDEFINED then Ret false else Ret (i =? index64).

Inductive NaClRegKind :=
| RegSize8 | RegSize16 | RegSize32 | RegSize64 | RegMMX | RegXMM | RegC | RegD
| RegSize128 | RegSizeZ | RegUndefined.

Inductive NaClModRmRegKind :=
| ModRmGeneral | ModRmMmx | ModRmXmm | ModRmCreg | ModRmDreg | ModRmNoTopLevelRegisters.

Definition NaClGetOpKindRegKind (kind : NaClOpKind) : NaClRegKind :=
  if one_of kind [Eb_Operand; Gb_Operand; Ib_Operand; Jb_Operand; Mb_Operand; Ob_Operand] then RegSize8
  else if one_of kind [Ew_Operand; Gw_Operand; Iw_Operand; Jw_Operand; Mw_Operand; Mpw_Operand; Ow_Operand]
  then RegSize16
  else if one_of kind [Ev_Operand; Gv_Operand; Iv_Operand; Jv_Operand; Mv_Operand; Mpv_Operand; Ov_Operand;
                       Mmx_Gd_Operand] then RegSize32
  else if one_of kind [Eo_Operand; Go_Operand; Io_Operand; Mo_Operand; Mpo_Operand; Oo_Operand;
                       Xmm_Eo_Operand; Xmm_Go_Operand; Mmx_E_Operand; Mmx_G_Operand] then RegSize64
  else if one_of kind [Edq_Operand; Gdq_Operand; Mdq_Operand; Xmm_E_Operand; Xmm_G_Operand] then RegSize128
  else if kind =? Seg_G_Operand then RegSizeZ
  else RegUndefined.

(** NaClRegTable, indexed by the kind of register. *)
Definition NaClRegTable (kind : NaClRegKind) : list NaClOpKind :=
  match kind with
  | RegSize8 => NaClRegTable8NoRex
  | RegSize16 => NaClRegTable16
  | RegSize32 => NaClRegTable32
  | RegSize64 => NaClRegTable64
  | RegMMX => NaClRegTableMmx
  | RegXMM => NaClRegTableXmm
  | RegC => NaClRegTableC
  | RegD => NaClRegTableD
  | RegSize128 | RegSizeZ | RegUndefined => []
  end.

Definition NaClLookupReg (kind : NaClRegKind) (reg_index : Z) : Trans NaClOpKind :=
  state ← get;
  match kind with
  | RegSize128 | RegSizeZ | RegUndefined => mret RegUnknown
  | RegSize8 => if cbool (rexprefix state) then lift (index NaClRegTable8Rex reg_index)
                else lift (index (NaClRegTable kind) reg_index)
  | _ => lift (index (NaClRegTable kind) reg_index)
  end.

(** The size flag of a register. *)
Definition NaClGetRegSize (register_name : NaClOpKind) : Z :=
  if one_of register_name
       [RegAL; RegBL; RegCL; RegDL; RegAH; RegBH; RegCH; RegDH; RegDIL; RegSIL; RegBPL; RegSPL; RegR8B; RegR9B;
        RegR10B; RegR11B; RegR12B; RegR13B; RegR14B; RegR15B] then FLAG ExprSize8
  else if one_of register_name
       [RegAX; RegBX; RegCX; RegDX; RegSI; RegDI; RegBP; RegSP; RegR8W; RegR9W; RegR10W; RegR11W; RegR12W;
        RegR13W; RegR14W; RegR15W] then FLAG ExprSize16
  else if one_of register_name
       [RegEAX; RegEBX; RegECX; RegEDX; RegESI; RegEDI; RegEBP; RegESP; RegR8D; RegR9D; RegR10D; RegR11D;
        RegR12D; RegR13D; RegR14D; RegR15D] then FLAG ExprSize32
  else if one_of register_name [RegCS; RegDS; RegSS; RegES; RegFS; RegGS] then FLAG ExprSize16
  else if register_name =? RegEIP then FLAG ExprSize32
  else if register_name =? RegRIP then FLAG ExprSize64
  else if one_of register_name
       [RegRAX; RegRBX; RegRCX; RegRDX; RegRSI; RegRDI; RegRBP; RegRSP; RegR8; RegR9; RegR10; RegR11; RegR12;
        RegR13; RegR14; RegR15] then FLAG ExprSize64
  else 0.

(** ** Appending nodes *)

Definition NaClAppendExp (kind : NaClExpKind) (value flags : Z) : Trans Z :=
  state ← get;
  let vector := nodes state in
  require (number_expr_nodes vector <? NACL_MAX_EXPS) "vector->number_expr_nodes < NACL_MAX_EXPS" ;;
  require (bool_decide (kind = ExprRegister) ||
           NaClHasBit flags (FLAGS [ExprSize8; ExprSize16; ExprSize32; ExprSize48; ExprSize64]))
          "ExprRegister == kind || flags & ExprSize..." ;;
  let i := number_expr_nodes vector in
  put (state <| nodes := mkVector (is_defined vector) (i + 1)
                           (<[Z.to_nat i := mkExp (u64 value) kind flags]> (node vector)) |>) ;;
  mret i.

(** [n->flags |= bits]. *)
Definition AddFlags (n : Z) (bits : Z) : Trans unit :=
  modify (fun state =>
    let vector := nodes state in
    state <| nodes := vector <| node :=
      alter (fun e => e <| exp_flags := Z.lor (exp_flags e) bits |>) (Z.to_nat n) (node vector) |> |>).

Definition NaClFatal {A} (message : string) : Trans A := abort (CondAbort message).

Definition NaClGetMnemonicSegmentRegister : Trans NaClOpKind :=
  state ← get;
  i ← lift (NaClInstStateInst state);
  match inst_name i with
  | InstLds => mret RegDS
  | InstLes => mret RegES
  | InstLfs => mret RegFS
  | InstLgs => mret RegGS
  | InstLss => mret RegSS
  | _ => NaClFatal "Unable to determine segment regsiter from instruction name"
  end.

Definition NaClAppendConst (value flags : Z) : Trans Z := NaClAppendExp ExprConstant value flags.

Definition NaClAppendReg (r : NaClOpKind) : Trans Z := NaClAppendExp ExprRegister r (NaClGetRegSize r).

Definition NaClAppendRegKind (kind : NaClRegKind) (reg_index : Z) : Trans Z :=
  r ← NaClLookupReg kind reg_index; NaClAppendReg r.

Definition NaClExtractOpRegKind (operand : NaClOp) : Trans NaClRegKind :=
  state ← get;
  i ← lift (NaClInstStateInst state);
  let by_size :=
    if has_iflag i OperandSize_b then RegSize8
    else if operand_size state =? 1 then RegSize8
    else if operand_size state =? 4 then RegSize32
    else if operand_size state =? 2 then RegSize16
    else if operand_size state =? 8 then RegSize64
    else RegSize32 in
  mret match NaClGetOpKindRegKind (op_kind operand) with
       | RegSize8 => RegSize8
       | RegSize16 => RegSize16
       | RegSize32 => RegSize32
       | RegSize64 => RegSize64
       | RegSizeZ => if operand_size state =? 2 then RegSize16 else RegSize32
       | _ => by_size
       end.

Definition NaClExtractAddressRegKind : Trans NaClRegKind :=
  gets (fun state =>
    if address_size state =? 16 then RegSize16
    else if address_size state =? 64 then RegSize64
    else RegSize32).

Definition NaClAppendOperandReg (operand : NaClOp) (reg_index : Z) (modrm_reg_kind : NaClModRmRegKind) : Trans Z :=
  reg_kind ←
    match modrm_reg_kind with
    | ModRmGeneral => NaClExtractOpRegKind operand
    | ModRmMmx => mret RegMMX
    | ModRmXmm => mret RegXMM
    | ModRmCreg => mret RegC
    | ModRmDreg => mret RegD
    | ModRmNoTopLevelRegisters => mret RegUndefined
    end;
  NaClAppendRegKind reg_kind reg_index.

Definition NaClGetExprSizeFlagForBytes (num_bytes : Z) : Trans Z :=
  if (num_bytes =? 0) || (num_bytes =? 1) then mret (FLAG ExprSize8)
  else if num_bytes =? 2 then mret (FLAG ExprSize16)
  else if num_bytes =? 4 then mret (FLAG ExprSize32)
  else if num_bytes =? 6 then mret (FLAG ExprSize48)
  else if num_bytes =? 8 then mret (FLAG ExprSize64)
  else abort (CheckFailed "NaClGetExprSizeFlagForBytes").

Definition NaClGetAddressExprSizeFlagsForState : Trans Z :=
  size ← gets NaClInstStateAddressSize; NaClGetExprSizeFlagForBytes (size / 8).

Definition NaClAppendSegmentAddress : Trans Z :=
  flags ← NaClGetAddressExprSizeFlagsForState; NaClAppendExp ExprSegmentAddress 0 flags.

Definition NaClAppendSegmentOpReg (operand : NaClOp) (seg_register : NaClOpKind) (reg_index : Z)
  (modrm_reg_kind : NaClModRmRegKind) : Trans Z :=
  results ← NaClAppendSegmentAddress;
  _ ← NaClAppendReg seg_register;
  _ ← NaClAppendOperandReg operand reg_index modrm_reg_kind;
  mret results.

Definition NaClAppendModRmSegmentReg : Trans Z :=
  state ← get;
  r ← lift (index [RegES; RegCS; RegSS; RegDS; RegFS; RegGS; RegUnknown; RegUnknown]
                  (modrm_regInline (modrm state)));
  NaClAppendReg r.

(** The extension of a register field by a bit of the REX prefix. *)
Definition NaClGetRexRReg (reg : Z) : Trans Z :=
  gets (fun state => if NaClHasBit (rexprefix state) 4 then reg + 8 else reg).
Definition NaClGetRexXReg (reg : Z) : Trans Z :=
  gets (fun state => if NaClHasBit (rexprefix state) 2 then reg + 8 else reg).
Definition NaClGetRexBReg (reg : Z) : Trans Z :=
  gets (fun state => if NaClHasBit (rexprefix state) 1 then reg + 8 else reg).

Definition NaClGetGenRegRegister : Trans Z :=
  state ← get; NaClGetRexRReg (modrm_regInline (modrm state)).
Definition NaClGetGenRmRegister : Trans Z :=
  state ← get; NaClGetRexBReg (modrm_rmInline (modrm state)).

Definition NaClAppendOpcodeBaseReg (operand : NaClOp) : Trans Z :=
  state ← get;
  i ← lift (NaClInstStateInst state);
  let reg_index := NaClGetOpcodePlusR (opcode_ext i) in
  require ((0 <=? reg_index) && (reg_index <? 8)) "reg_index >= 0 && reg_index < 8" ;;
  kind ← NaClExtractOpRegKind operand;
  r ← NaClGetRexBReg reg_index;
  NaClAppendRegKind kind r.

Definition NaClAppendStOpcodeBaseReg : Trans Z :=
  state ← get;
  i ← lift (NaClInstStateInst state);
  let reg_index := NaClGetOpcodePlusR (opcode_ext i) in
  require ((0 <=? reg_index) && (reg_index <? 8)) "reg_index >= 0 && reg_index < 8" ;;
  NaClAppendReg (RegST0 + reg_index).

(** ** Constants and displacements *)

(** Bytes [i], [i+1], ... of the value from [start_byte]; [n] are left. *)
Fixpoint UnsignedBinary_loop (n : nat) (i : Z) (state : NaClInstState) (start_byte value : Z) : outcome Z :=
  match n with
  | O => Ret value
  | S n' =>
      b ← index (byte (bytes state)) (start_byte + i);
      UnsignedBinary_loop n' (i + 1) state start_byte (u64 (value + Z.shiftl b (i * 8)))
  end.

Definition NaClExtractUnsignedBinaryValue (start_byte num_bytes : Z) : Trans Z :=
  state ← get; lift (UnsignedBinary_loop (Z.to_nat num_bytes) 0 state start_byte 0).

(** The signed value is read from the buffer through a pointer to a 1-, 2- or
    4-byte integer. *)
Definition NaClExtractSignedBinaryValue (start_byte num_bytes : Z) : Trans Z :=
  if (num_bytes =? 1) || (num_bytes =? 2) || (num_bytes =? 4) then
    v ← NaClExtractUnsignedBinaryValue start_byte num_bytes;
    mret (sext (8 * num_bytes) v)
  else abort (CheckFailed "NaClExtractSignedBinaryValue").

Record NaClDisplacement := mkDisp { disp_value : Z; disp_flags : Z }.

Definition NaClExtractDisplacement (flags : Z) : Trans NaClDisplacement :=
  state ← get;
  value ← NaClExtractUnsignedBinaryValue (first_disp_byte state) (num_disp_bytes state);
  size ← NaClGetExprSizeFlagForBytes (num_disp_bytes state);
  mret (mkDisp value (Z.lor flags size)).

Definition NaClExtractUnsignedImmediate : Trans Z :=
  state ← get; NaClExtractUnsignedBinaryValue (first_imm_byte state) (num_imm_bytes state).

Definition NaClExtractUnsignedImmediate2 : Trans Z :=
  state ← get;
  NaClExtractUnsignedBinaryValue (first_imm_byte state + num_imm_bytes state) (num_imm2_bytes state).

Definition NaClExtractSignedImmediate : Trans Z :=
  state ← get; NaClExtractSignedBinaryValue (first_imm_byte state) (num_imm_bytes state).

Definition NaClAppendImmed : Trans Z :=
  state ← get;
  value ← NaClExtractUnsignedImmediate;
  size ← NaClGetExprSizeFlagForBytes (num_imm_bytes state);
  NaClAppendConst value (Z.lor (FLAG ExprUnsignedHex) size).

Definition NaClAppendImmed2 : Trans Z :=
  state ← get;
  value ← NaClExtractUnsignedImmediate2;
  size ← NaClGetExprSizeFlagForBytes (num_imm2_bytes state);
  NaClAppendConst value (Z.lor (FLAG ExprUnsignedHex) size).

Definition NaClAppendRelativeImmed : Trans Z :=
  state ← get;
  jump_offset ← NaClExtractSignedImmediate;
  size ← NaClGetExprSizeFlagForBytes (num_imm_bytes state);
  NaClAppendConst jump_offset (Z.lor (Z.lor (FLAG ExprSignedHex) size) (FLAG ExprJumpTarget)).

(** ** Memory references *)

Definition NaClAppendMemOffsetNode : Trans Z :=
  flags ← NaClGetAddressExprSizeFlagsForState; NaClAppendExp ExprMemOffset 0 flags.

Definition NaClAppendSegmentAddressNode (reg_default : NaClOpKind) : Trans (option Z) :=
  seg_reg ← NaClGetSegmentPrefixReg reg_default;
  if seg_reg =? RegUnknown then mret None
  else
    root ← NaClAppendSegmentAddress;
    n ← NaClAppendReg seg_reg;
    AddFlags n (FLAG ExprUsed) ;;
    mret (Some root).

(** The root of a memory reference: the segment node if there is one. *)
Definition AppendMemRoot : Trans Z :=
  seg ← NaClAppendSegmentAddressNode RegUnknown;
  n ← NaClAppendMemOffsetNode;
  mret (default n seg).

Definition NaClAppendMemoryOffsetImmed : Trans Z :=
  root ← AppendMemRoot;
  _ ← NaClAppendReg RegUnknown;
  _ ← NaClAppendReg RegUnknown;
  _ ← NaClAppendConst 1 (FLAG ExprSize8);
  value ← NaClExtractUnsignedImmediate;
  state ← get;
  size ← NaClGetExprSizeFlagForBytes (num_imm_bytes state);
  _ ← NaClAppendConst value (Z.lor (FLAG ExprUnsignedHex) size);
  mret root.

Definition NaClAppendMemoryOffset (base idx : NaClOpKind) (scale : Z) (displacement : NaClDisplacement) : Trans Z :=
  root ← AppendMemRoot;
  n ← NaClAppendReg base;
  (if base =? RegUnknown then mret tt else AddFlags n (FLAG ExprUsed)) ;;
  n ← NaClAppendReg idx;
  (if idx =? RegUnknown then require (scale =? 1) "scale == 1" else AddFlags n (FLAG ExprUsed)) ;;
  _ ← NaClAppendConst scale (FLAG ExprSize8);
  _ ← NaClAppendConst (disp_value displacement) (disp_flags displacement);
  mret root.

Definition NaClGetSibBase : Trans NaClOpKind :=
  state ← get;
  let base := sib_base (sib state) in
  if base =? 5 then
    let mod_ := modrm_modInline (modrm state) in
    if mod_ =? 0 then mret RegUnknown
    else if (mod_ =? 1) || (mod_ =? 2) then
      mret (if NaClHasBit (rexprefix state) 1 then RegR13 else RegRBP)
    else NaClFatal "SIB value"
  else
    kind ← NaClExtractAddressRegKind;
    r ← NaClGetRexBReg base;
    NaClLookupReg kind r.

Definition nacl_sib_scale : list Z := [1; 2; 4; 8].

Definition NaClAppendSib : Trans Z :=
  state ← get;
  let idx := sib_index (sib state) in
  kind ← NaClExtractAddressRegKind;
  base_reg ← NaClGetSibBase;
  '(index_reg, scale) ←
    (if negb (idx =? 4) || NaClHasBit (rexprefix state) 2 then
       r ← NaClGetRexXReg idx;
       index_reg ← NaClLookupReg kind r;
       scale ← lift (index nacl_sib_scale (sib_ss (sib state)));
       mret (index_reg, scale)
     else mret (RegUnknown, 1));
  displacement ←
    (if 0 <? num_disp_bytes state then NaClExtractDisplacement (FLAG ExprSignedHex)
     else mret (mkDisp 0 (FLAG ExprSize8)));
  NaClAppendMemoryOffset base_reg index_reg scale displacement.

(** One of three registers by the address size; NaClAppendEDI and the like. *)
Definition AppendByAddressSize (r16 r32 r64 : NaClOpKind) (message : string) : Trans Z :=
  size ← gets address_size;
  if size =? 16 then NaClAppendReg r16
  else if size =? 32 then NaClAppendReg r32
  else if size =? 64 then NaClAppendReg r64
  else NaClFatal message.

Definition NaClAppendEDI : Trans Z :=
  AppendByAddressSize RegDI RegEDI RegRDI "Address size for %EDI not correctly defined".
Definition NaClAppendESI : Trans Z :=
  AppendByAddressSize RegSI RegESI RegRSI "Address size for %ESI not correctly defined".
Definition NaClAppendEBX : Trans Z :=
  AppendByAddressSize RegBX RegEBX RegRBX "Address size for %EBX not correctly defined".

(** A segment address of a string instruction: segment register, then the
    address register. *)
Definition AppendSegReg (case_flag : Z) (seg : Trans NaClOpKind) (addr : Trans Z) : Trans Z :=
  results ← NaClAppendSegmentAddress;
  AddFlags results (FLAG case_flag) ;;
  r ← seg;
  _ ← NaClAppendReg r;
  _ ← addr;
  mret results.

Definition NaClAppendDS_EDI : Trans Z := AppendSegReg ExprDSrCase NaClGetDsSegmentReg NaClAppendEDI.
Definition NaClAppendDS_ESI : Trans Z := AppendSegReg ExprDSrCase NaClGetDsSegmentReg NaClAppendESI.
Definition NaClAppendDS_EBX : Trans Z := AppendSegReg ExprDSrCase NaClGetDsSegmentReg NaClAppendEBX.
Definition NaClAppendES_EDI : Trans Z := AppendSegReg ExprESrCase NaClGetEsSegmentReg NaClAppendEDI.

(** The base register of the mod/rm byte. *)
Definition ModRmBase : Trans NaClOpKind :=
  kind ← NaClExtractAddressRegKind;
  r ← NaClGetGenRmRegister;
  NaClLookupReg kind r.

Definition NaClAppendMod00EffectiveAddress : Trans Z :=
  state ← get;
  let rm := modrm_rmInline (modrm state) in
  if rm =? 4 then NaClAppendSib
  else if rm =? 5 then
    displacement ← NaClExtractDisplacement (FLAG ExprSignedHex);
    NaClAppendMemoryOffset RegRIP RegUnknown 1 displacement
  else
    base ← ModRmBase;
    NaClAppendMemoryOffset base RegUnknown 1 (mkDisp 0 (FLAG ExprSize8)).

Definition NaClAppendMod01EffectiveAddress : Trans Z :=
  state ← get;
  if modrm_rmInline (modrm state) =? 4 then NaClAppendSib
  else
    displacement ← NaClExtractDisplacement (FLAG ExprSignedHex);
    base ← ModRmBase;
    NaClAppendMemoryOffset base RegUnknown 1 displacement.

Definition NaClAppendMod10EffectiveAddress : Trans Z :=
  state ← get;
  if modrm_rmInline (modrm state) =? 4 then NaClAppendSib
  else
    base ← ModRmBase;
    displacement ← NaClExtractDisplacement (FLAG ExprSignedHex);
    NaClAppendMemoryOffset base RegUnknown 1 displacement.

Definition NaClAppendMod11EffectiveAddress (operand : NaClOp) (modrm_reg_kind : NaClModRmRegKind) : Trans Z :=
  r ← NaClGetGenRmRegister; NaClAppendOperandReg operand r modrm_reg_kind.

Definition NaClAppendBasedOnSize (reg_2b reg_4b reg_8b : NaClOpKind) : Trans Z :=
  size ← gets operand_size;
  if size =? 2 then NaClAppendReg reg_2b
  else if size =? 4 then NaClAppendReg reg_4b
  else if size =? 8 then NaClAppendReg reg_8b
  else NaClFatal "can't translate register group: operand size not valid".

Definition NaClAppendBasedOnAddressSize (reg_2b reg_4b reg_8b : NaClOpKind) : Trans Z :=
  AppendByAddressSize reg_2b reg_4b reg_8b "can't translate register group: address size not valid".

Definition NaClAppendEffectiveAddress (operand : NaClOp) (modrm_reg_kind : NaClModRmRegKind) : Trans Z :=
  state ← get;
  let mod_ := modrm_modInline (modrm state) in
  if mod_ =? 0 then NaClAppendMod00EffectiveAddress
  else if mod_ =? 1 then NaClAppendMod01EffectiveAddress
  else if mod_ =? 2 then NaClAppendMod10EffectiveAddress
  else if mod_ =? 3 then NaClAppendMod11EffectiveAddress operand modrm_reg_kind
  else NaClFatal "Operand".

(** ** Operands *)

(** The registers that stand for themselves.  RegMMX0 is not among them. *)
Definition plain_registers : list Z :=
  [RegUnknown; RegAL; RegBL; RegCL; RegDL; RegAH; RegBH; RegCH; RegDH; RegDIL; RegSIL; RegBPL; RegSPL; RegR8B;
   RegR9B; RegR10B; RegR11B; RegR12B; RegR13B; RegR14B; RegR15B; RegAX; RegBX; RegCX; RegDX; RegSI; RegDI; RegBP;
   RegSP; RegR8W; RegR9W; RegR10W; RegR11W; RegR12W; RegR13W; RegR14W; RegR15W; RegEAX; RegEBX; RegECX; RegEDX;
   RegESI; RegEDI; RegEBP; RegESP; RegR8D; RegR9D; RegR10D; RegR11D; RegR12D; RegR13D; RegR14D; RegR15D; RegCS;
   RegDS; RegSS; RegES; RegFS; RegGS; RegCR0; RegCR1; RegCR2; RegCR3; RegCR4; RegCR5; RegCR6; RegCR7; RegCR8;
   RegCR9; RegCR10; RegCR11; RegCR12; RegCR13; RegCR14; RegCR15; RegDR0; RegDR1; RegDR2; RegDR3; RegDR4; RegDR5;
   RegDR6; RegDR7; RegDR8; RegDR9; RegDR10; RegDR11; RegDR12; RegDR13; RegDR14; RegDR15; RegEFLAGS; RegRFLAGS;
   RegEIP; RegRIP; RegRAX; RegRBX; RegRCX; RegRDX; RegRSI; RegRDI; RegRBP; RegRSP; RegR8; RegR9; RegR10; RegR11;
   RegR12; RegR13; RegR14; RegR15; RegST0; RegST1; RegST2; RegST3; RegST4; RegST5; RegST6; RegST7; RegMMX1;
   RegMMX2; RegMMX3; RegMMX4; RegMMX5; RegMMX6; RegMMX7; RegXMM0; RegXMM1; RegXMM2; RegXMM3; RegXMM4; RegXMM5;
   RegXMM6; RegXMM7; RegXMM8; RegXMM9; RegXMM10; RegXMM11; RegXMM12; RegXMM13; RegXMM14; RegXMM15].

(** Registers whose width is that of the operand. *)
Definition AppendSizedRegister (kind : NaClOpKind) : Trans Z :=
  if kind =? RegREIP then
    size ← gets address_size; NaClAppendReg (if size =? 64 then RegRIP else RegEIP)
  else if kind =? RegREAX then NaClAppendBasedOnSize RegAX RegEAX RegRAX
  else if kind =? RegREBX then NaClAppendBasedOnSize RegBX RegEBX RegRBX
  else if kind =? RegRECX then NaClAppendBasedOnSize RegCX RegECX RegRCX
  else if kind =? RegREDX then NaClAppendBasedOnSize RegDX RegEDX RegRDX
  else if kind =? RegRESP then NaClAppendBasedOnSize RegSP RegESP RegRSP
  else if kind =? RegREBP then NaClAppendBasedOnSize RegBP RegEBP RegRBP
  else if kind =? RegRESI then NaClAppendBasedOnSize RegSI RegESI RegRSI
  else if kind =? RegREDI then NaClAppendBasedOnSize RegDI RegEDI RegRSI
  else if kind =? RegREAXa then NaClAppendBasedOnAddressSize RegAX RegEAX RegRAX
  else if kind =? RegDS_ESI then NaClAppendDS_ESI
  else if kind =? RegDS_EDI then NaClAppendDS_EDI
  else if kind =? RegDS_EBX then NaClAppendDS_EBX
  else if kind =? RegES_EDI then NaClAppendES_EDI
  else if kind =? S_Operand then NaClAppendModRmSegmentReg
  else if kind =? Const_1 then NaClAppendConst 1 (FLAGS [ExprSize8; ExprUnsignedHex])
  else NaClFatal "Operand".

Definition NaClAppendOperand (operand : NaClOp) : Trans Z :=
  let kind := op_kind operand in
  let general_reg modrm_reg_kind :=
    r ← NaClGetGenRegRegister; NaClAppendOperandReg operand r modrm_reg_kind in
  if kind =? A_Operand then NaClAppendImmed
  else if one_of kind [E_Operand; Eb_Operand; Ew_Operand; Ev_Operand; Eo_Operand; Edq_Operand; M_Operand;
                       Mb_Operand; Mw_Operand; Mv_Operand; Mo_Operand; Mdq_Operand] then
    address ← NaClAppendEffectiveAddress operand ModRmGeneral;
    (if has_opflag operand OperandNear then AddFlags address (FLAG ExprJumpTarget) else mret tt) ;;
    mret address
  else if one_of kind [G_Operand; Gb_Operand; Gw_Operand; Gv_Operand; Go_Operand; Gdq_Operand] then
    general_reg ModRmGeneral
  else if kind =? Seg_G_Operand then
    seg ← NaClGetMnemonicSegmentRegister;
    r ← NaClGetGenRegRegister;
    NaClAppendSegmentOpReg operand seg r ModRmGeneral
  else if kind =? G_OpcodeBase then NaClAppendOpcodeBaseReg operand
  else if one_of kind [I_Operand; Ib_Operand; Iw_Operand; Iv_Operand; Io_Operand] then NaClAppendImmed
  else if kind =? I2_Operand then NaClAppendImmed2
  else if one_of kind [J_Operand; Jb_Operand; Jw_Operand; Jv_Operand] then NaClAppendRelativeImmed
  else if one_of kind [Mmx_Gd_Operand; Mmx_G_Operand] then general_reg ModRmMmx
  else if kind =? Mmx_E_Operand then NaClAppendEffectiveAddress operand ModRmMmx
  else if one_of kind [Xmm_G_Operand; Xmm_Go_Operand] then general_reg ModRmXmm
  else if one_of kind [Xmm_E_Operand; Xmm_Eo_Operand] then NaClAppendEffectiveAddress operand ModRmXmm
  else if kind =? C_Operand then NaClAppendEffectiveAddress operand ModRmCreg
  else if kind =? D_Operand then NaClAppendEffectiveAddress operand ModRmDreg
  else if one_of kind [O_Operand; Ob_Operand; Ow_Operand; Ov_Operand; Oo_Operand] then NaClAppendMemoryOffsetImmed
  else if kind =? St_Operand then NaClAppendStOpcodeBaseReg
  else if one_of kind plain_registers then NaClAppendReg kind
  else AppendSizedRegister kind.

Definition NaClAddOpSetUse (n : Z) (operand : NaClOp) : Trans unit :=
  (if has_opflag operand OpSet then AddFlags n (FLAG ExprSet) else mret tt) ;;
  (if has_opflag operand OpUse then AddFlags n (FLAG ExprUsed) else mret tt) ;;
  (if has_opflag operand OpAddress then AddFlags n (FLAG ExprAddress) else mret tt).

Definition BuildExpVector_operand (tables : NaClDecodeTables) (i : Z) : Trans unit :=
  state ← get;
  pattern ← lift (NaClInstStateInst state);
  op ← lift (NaClGetInstOperandInline tables pattern i);
  n ← NaClAppendExp OperandReference i (FLAGS [ExprSize8; ExprUnsignedInt]);
  (if has_opflag op OpImplicit then AddFlags n (FLAG ExprImplicit) else mret tt) ;;
  root ← NaClAppendOperand op;
  NaClAddOpSetUse root op.

Definition NaClBuildExpVector (tables : NaClDecodeTables) : Trans unit :=
  state ← get;
  pattern ← lift (NaClInstStateInst state);
  for_up (Z.to_nat (NaClGetInstNumberOperandsInline pattern)) 0 (BuildExpVector_operand tables).

(** The vector of an instruction, built when it is asked for the first time. *)
Definition NaClInstStateExpVector (tables : NaClDecodeTables) : Trans NaClExpVector :=
  state ← get;
  (if is_defined (nodes state) then mret tt
   else put (state <| nodes := (nodes state) <| is_defined := true |> |>) ;; NaClBuildExpVector tables) ;;
  gets nodes.
