(* ===== verification/InstDecode.v ===== *)
(** * Decoding one instruction: nc_inst_state_statics.c, nc_inst_state.c

    Prefix bytes and opcode bytes are consumed first; they select a list of
    candidate patterns, which are tried in order; the first whose sizes,
    mod/rm, SIB, displacement, immediate and prefix requirements are met is
    the match.  An instruction that nothing matches becomes the undefined
    instruction.

    The list of candidates is a chain of offsets in the table, followed with
    fuel: the size of the table and one more.  The tables of the validator are
    chains without a cycle ([DecodeSpec.tables_ok]). *)

From S2P Require Import Prelude Effects Stateful Bytes OpKinds DecodeTables OpcodeTable InstBuffer.
From S2P Require Import ExpVector InstState InstTrans.

(** The instruction with the memory its bytes come from. *)
Record Decoding := mkDecoding { memory_of : NCRemainingMemory; state_of : NaClInstState }.

#[global] Instance updatable_decoding : Updatable Decoding := fun r => mkDecoding (memory_of r) (state_of r).

Definition Dec (A : Type) : Type := St Decoding A.

(** A computation on the instruction alone. *)
Definition on_state {A} (c : Trans A) : Dec A := zoom state_of (fun s d => d <| state_of := s |>) c.
Definition set_state (f : NaClInstState -> NaClInstState) : Dec unit := on_state (modify f).
Definition the_state : Dec NaClInstState := gets state_of.
Definition the_inst : Dec NaClInst := state ← the_state; lift (NaClInstStateInst state).

Section Decoder.
Variable ram : memory.
Variable tables : NaClDecodeTables.

Definition ReadByte : Dec Z :=
  d ← get;
  let '(b, bytes', memory') := NCInstBytesReadInline ram (bytes (state_of d)) (memory_of d) in
  put (mkDecoding memory' ((state_of d) <| bytes := bytes' |>)) ;; mret b.

Definition ReadBytes (n : Z) : Dec unit :=
  modify (fun d =>
    let '(bytes', memory') := NCInstBytesReadBytesInline ram n (bytes (state_of d)) (memory_of d) in
    mkDecoding memory' ((state_of d) <| bytes := bytes' |>)).

Definition ResetBytes : Dec unit :=
  modify (fun d =>
    let '(bytes', memory') := NCInstBytesResetInline ram (memory_of d) in
    mkDecoding memory' ((state_of d) <| bytes := bytes' |>)).

(** More bytes can be read. *)
Definition more_bytes (state : NaClInstState) : bool := blength (bytes state) <? length_limit state.

(** ** Initialisation *)

(** [addr] and [size] are the iterator's index and the size of its segment. *)
Definition NaClInstStateInit (addr size : Z) : Dec unit :=
  modify (fun d =>
    let '(bytes', memory') := NCInstBytesInitInline (memory_of d) in
    let limit := u64 (size - addr) in
    let limit := if NACL_MAX_BYTES_PER_X86_INSTRUCTION <? limit then NACL_MAX_BYTES_PER_X86_INSTRUCTION else limit in
    let s := state_of d in
    mkDecoding memory'
      (s <| bytes := bytes' |> <| inst_addr := addr |> <| length_limit := u8 limit |>
         <| num_prefix_bytes := 0 |> <| opcode_prefix := 0 |> <| num_opcode_bytes := 0 |>
         <| rexprefix := 0 |> <| num_rex_prefixes := 0 |> <| modrm := 0 |>
         <| has_prefix_duplicates := false |> <| has_ambig_segment_prefixes := false |>
         <| has_sib := false |> <| sib := 0 |> <| num_disp_bytes := 0 |> <| first_disp_byte := 0 |>
         <| num_imm_bytes := 0 |> <| first_imm_byte := 0 |> <| num_imm2_bytes := 0 |>
         <| prefix_mask := 0 |> <| inst := None |>
         <| nodes := (nodes s) <| is_defined := false |> <| number_expr_nodes := 0 |> |>
         <| unchanged := false |>)).

(** ** Sizes *)

Definition NaClExtractOpSize (state : NaClInstState) (i : NaClInst) : Z :=
  if has_iflag i OperandSize_b then 1
  else if (cbool (rexprefix state) && NaClRexW (rexprefix state)) || has_iflag i OperandSizeForce64 then 8
  else if NaClHasBit (prefix_mask state) kPrefixDATA16 && negb (has_iflag i SizeIgnoresData16) then 2
  else if has_iflag i OperandSizeDefaultIs64 then 8
  else 4.

Definition NaClExtractAddressSize (state : NaClInstState) : Z :=
  if NaClHasBit (prefix_mask state) kPrefixADDR16 then 32 else 64.

(** ** Prefix and opcode bytes *)

Definition segment_prefix_forms : Z :=
  foldr Z.lor 0 [kPrefixSEGCS; kPrefixSEGSS; kPrefixSEGFS; kPrefixSEGGS; kPrefixSEGES; kPrefixSEGDS].

(** The prefix byte [b] of a form is recorded. *)
Definition note_prefix (prefix_form b : Z) (s : NaClInstState) : NaClInstState :=
  let s :=
    if NaClHasBit (prefix_mask s) prefix_form then s <| has_prefix_duplicates := true |>
    else if NaClHasBit prefix_form segment_prefix_forms && NaClHasBit (prefix_mask s) segment_prefix_forms
    then s <| has_ambig_segment_prefixes := true |>
    else s in
  let s := s <| prefix_mask := Z.lor (prefix_mask s) prefix_form |>
             <| num_prefix_bytes := num_prefix_bytes s + 1 |> in
  if prefix_form =? kPrefixREX then s <| rexprefix := b |> <| num_rex_prefixes := num_rex_prefixes s + 1 |>
  else s.

(** One turn for each of the 14 possible prefix bytes. *)
Fixpoint ConsumePrefix_loop (n : nat) : Dec unit :=
  match n with
  | O => mret tt
  | S n' =>
      d ← get;
      let state := state_of d in
      if negb (more_bytes state) then mret tt
      else
        prefix_form ← lift (index (prefix_mask_table tables)
                                  (NCRemainingMemoryLookaheadInline ram (memory_of d) 0));
        if prefix_form =? 0 then mret tt
        else
          b ← ReadByte;
          set_state (note_prefix prefix_form b) ;;
          ConsumePrefix_loop n'
  end.

Definition kNaClMaximumPrefixBytes : Z := NACL_MAX_BYTES_PER_X86_INSTRUCTION - 1.

Definition NaClConsumePrefixBytes : Dec bool :=
  ConsumePrefix_loop (Z.to_nat kNaClMaximumPrefixBytes) ;; mret true.

Record NaClInstPrefixDescriptor := mkDesc {
  desc_opcode_prefix : Z;
  opcode_byte : Z;
  matched_prefix : Z;
  next_length_adjustment : Z;
}.

#[local] Instance updatable_desc : Updatable NaClInstPrefixDescriptor := fun r =>
  mkDesc (desc_opcode_prefix r) (opcode_byte r) (matched_prefix r) (next_length_adjustment r).

Definition NaClConsume0F38XXNaClInstBytes (desc : NaClInstPrefixDescriptor) : Dec NaClInstPrefixDescriptor :=
  state ← the_state;
  if negb (more_bytes state) then mret (desc <| matched_prefix := NaClInstPrefixEnumSize |>)
  else
    b ← ReadByte;
    let desc := desc <| opcode_byte := b |> in
    let mask := prefix_mask state in
    mret (if NaClExcludesBit mask kPrefixREP then
            if NaClHasBit mask kPrefixREPNE then
              desc <| matched_prefix := PrefixF20F38 |> <| desc_opcode_prefix := kValueREPNE |>
            else if NaClHasBit mask kPrefixDATA16 then
              desc <| matched_prefix := Prefix660F38 |> <| desc_opcode_prefix := kValueDATA16 |>
            else desc <| matched_prefix := Prefix0F38 |>
          else desc <| matched_prefix := NaClInstPrefixEnumSize |>).

Definition NaClConsume0F3AXXNaClInstBytes (desc : NaClInstPrefixDescriptor) : Dec NaClInstPrefixDescriptor :=
  state ← the_state;
  if negb (more_bytes state) then mret (desc <| matched_prefix := NaClInstPrefixEnumSize |>)
  else
    b ← ReadByte;
    let desc := desc <| opcode_byte := b |> in
    let mask := prefix_mask state in
    mret (if NaClExcludesBit mask kPrefixREP && NaClExcludesBit mask kPrefixREPNE then
            if NaClHasBit mask kPrefixDATA16 then
              desc <| matched_prefix := Prefix660F3A |> <| desc_opcode_prefix := kValueDATA16 |>
            else desc <| matched_prefix := Prefix0F3A |>
          else desc <| matched_prefix := NaClInstPrefixEnumSize |>).

Definition NaClConsume0FXXNaClInstBytes (state : NaClInstState) (desc : NaClInstPrefixDescriptor)
  : NaClInstPrefixDescriptor :=
  let mask := prefix_mask state in
  if NaClHasBit mask kPrefixREPNE then
    if NaClExcludesBit mask kPrefixREP then
      desc <| matched_prefix := PrefixF20F |> <| desc_opcode_prefix := kValueREPNE |>
    else desc <| matched_prefix := NaClInstPrefixEnumSize |>
  else if NaClHasBit mask kPrefixREP then
    desc <| matched_prefix := PrefixF30F |> <| desc_opcode_prefix := kValueREP |>
  else if NaClHasBit mask kPrefixDATA16 then
    desc <| matched_prefix := Prefix660F |> <| desc_opcode_prefix := kValueDATA16 |>
  else desc <| matched_prefix := Prefix0F |>.

Definition NaClConsumeX87NaClInstBytes (desc : NaClInstPrefixDescriptor) : Dec NaClInstPrefixDescriptor :=
  state ← the_state;
  if more_bytes state then
    b ← ReadByte;
    mret (desc <| matched_prefix := PrefixD8 + (opcode_byte desc - 216) |> <| opcode_byte := b |>)
  else mret (desc <| matched_prefix := NoPrefix |>).

Definition NaClConsumeInstBytes : Dec NaClInstPrefixDescriptor :=
  let desc := mkDesc 0 0 NaClInstPrefixEnumSize 0 in
  state ← the_state;
  if negb (more_bytes state) then mret desc
  else
    b ← ReadByte;
    let desc := desc <| opcode_byte := b |> in
    if b =? 15 then
      state ← the_state;
      if negb (more_bytes state) then mret desc
      else
        b ← ReadByte;
        let desc := desc <| opcode_byte := b |> in
        if b =? 56 then NaClConsume0F38XXNaClInstBytes desc
        else if b =? 58 then NaClConsume0F3AXXNaClInstBytes desc
        else state ← the_state; mret (NaClConsume0FXXNaClInstBytes state desc)
    else if (216 <=? b) && (b <=? 223) then NaClConsumeX87NaClInstBytes desc
    else mret (desc <| matched_prefix := NoPrefix |>).

(** ** The rest of the instruction, by the pattern *)

Definition NaClConsumeAndCheckOperandSize : Dec bool :=
  i ← the_inst;
  set_state (fun s => s <| operand_size := NaClExtractOpSize s i |>) ;;
  state ← the_state;
  if NaClHasBit (inst_flags i) (FLAGS [OperandSize_w; OperandSize_v; OperandSize_o]) then
    let size := operand_size state in
    mret (if size =? 2 then has_iflag i OperandSize_w
          else if size =? 4 then has_iflag i OperandSize_v
          else if size =? 8 then has_iflag i OperandSize_o
          else false)
  else mret true.

Definition NaClConsumeAndCheckAddressSize : Dec bool :=
  i ← the_inst;
  set_state (fun s => s <| address_size := NaClExtractAddressSize s |>) ;;
  state ← the_state;
  if NaClHasBit (inst_flags i) (FLAGS [AddressSize_w; AddressSize_v; AddressSize_o]) then
    let size := address_size state in
    mret (if size =? 16 then has_iflag i AddressSize_w
          else if size =? 32 then has_iflag i AddressSize_v
          else if size =? 64 then has_iflag i AddressSize_o
          else false)
  else mret true.

Definition NaClInstRequiresModRm (i : NaClInst) : bool := has_iflag i OpcodeUsesModRm.

Definition NaClConsumeModRm : Dec bool :=
  i ← the_inst;
  if negb (NaClInstRequiresModRm i) then mret true
  else
    d ← get;
    if negb (more_bytes (state_of d)) then mret false
    else
      let b := NCInstBytesPeekInline ram (memory_of d) 0 in
      if (if modrm_modInline b =? 3 then has_iflag i ModRmModIsnt0x3 else has_iflag i ModRmModIs0x3)
      then mret false
      else if has_iflag i ModRmRegSOperand && (5 <? modrm_regInline b) then mret false
      else
        m ← ReadByte;
        set_state (fun s => s <| modrm := m |> <| num_disp_bytes := 0 |> <| first_disp_byte := 0 |>
                              <| sib := 0 |> <| has_sib := false |>) ;;
        if has_iflag i OpcodeInModRm then
          if negb (modrm_opcodeInline m =? NaClGetOpcodeInModRm (opcode_ext i)) then mret false
          else if has_iflag i OpcodeInModRmRm then
            mret (modrm_rmInline m =? NaClGetOpcodeInModRmRm (opcode_ext i))
          else mret true
        else mret true.

Definition NaClInstRequiresSib (state : NaClInstState) (i : NaClInst) : bool :=
  NaClInstRequiresModRm i && negb (address_size state =? 16) &&
  ((modrm_rmInline (modrm state) =? 4) && negb (modrm_modInline (modrm state) =? 3)).

Definition NaClConsumeSib : Dec bool :=
  i ← the_inst;
  set_state (fun s => let s := s <| sib := 0 |> in s <| has_sib := NaClInstRequiresSib s i |>) ;;
  state ← the_state;
  if has_sib state then
    if negb (more_bytes state) then mret false
    else
      b ← ReadByte;
      set_state (fun s => s <| sib := b |>) ;;
      mret (negb ((sib_base b =? 5) && (2 <? modrm_modInline (modrm state))))
  else mret true.

Definition NaClGetNumDispBytes (state : NaClInstState) (i : NaClInst) : Z :=
  let mod_ := modrm_modInline (modrm state) in
  if negb (NaClInstRequiresModRm i) then 0
  else if address_size state =? 16 then
    if mod_ =? 0 then (if modrm_rmInline (modrm state) =? 6 then 4 else 0)
    else if mod_ =? 1 then 1
    else if mod_ =? 2 then 2
    else 0
  else
    if mod_ =? 0 then
      if modrm_rmInline (modrm state) =? 5 then 4
      else if has_sib state && (sib_base (sib state) =? 5) then 4
      else 0
    else if mod_ =? 1 then 1
    else if mod_ =? 2 then 4
    else 0.

Definition NaClConsumeDispBytes : Dec bool :=
  i ← the_inst;
  set_state (fun s => let s := s <| num_disp_bytes := NaClGetNumDispBytes s i |> in
                      s <| first_disp_byte := blength (bytes s) |>) ;;
  state ← the_state;
  if 0 <? num_disp_bytes state then
    if length_limit state <? blength (bytes state) + num_disp_bytes state then mret false
    else
      set_state (fun s => s <| first_disp_byte := blength (bytes s) |>) ;;
      ReadBytes (num_disp_bytes state) ;; mret true
  else mret true.

Definition NaClGetNumImmedBytes (state : NaClInstState) (i : NaClInst) : Z :=
  if has_iflag i OpcodeHasImmed then operand_size state
  else if has_iflag i OpcodeHasImmed_v then 4
  else if has_iflag i OpcodeHasImmed_b then 1
  else if has_iflag i OpcodeHasImmed_w then 2
  else if has_iflag i OpcodeHasImmed_p then 6
  else if has_iflag i OpcodeHasImmed_o then 8
  else if has_iflag i OpcodeHasImmed_Addr then NaClExtractAddressSize state / 8
  else if has_iflag i OpcodeHasImmed_z then (if operand_size state =? 2 then 2 else 4)
  else 0.

Definition NaClGetNumImmed2Bytes (i : NaClInst) : Z :=
  if has_iflag i OpcodeHasImmed2_b then 1
  else if has_iflag i OpcodeHasImmed2_w then 2
  else if has_iflag i OpcodeHasImmed2_v then 4
  else 0.

Definition ConsumeImmediate2 : Dec bool :=
  i ← the_inst;
  set_state (fun s => s <| num_imm2_bytes := NaClGetNumImmed2Bytes i |>) ;;
  state ← the_state;
  if 0 <? num_imm2_bytes state then
    if length_limit state <? blength (bytes state) + num_imm2_bytes state then mret false
    else ReadBytes (num_imm2_bytes state) ;; mret true
  else mret true.

Definition NaClConsumeImmediateBytes : Dec bool :=
  i ← the_inst;
  set_state (fun s => s <| num_imm_bytes := NaClGetNumImmedBytes s i |> <| first_imm_byte := 0 |>) ;;
  state ← the_state;
  if 0 <? num_imm_bytes state then
    if length_limit state <? blength (bytes state) + num_imm_bytes state then mret false
    else
      set_state (fun s => s <| first_imm_byte := blength (bytes s) |>) ;;
      ReadBytes (num_imm_bytes state) ;; ConsumeImmediate2
  else ConsumeImmediate2.

(** Some node is a memory reference that is set. *)
Definition has_lockable_dest (vector : NaClExpVector) : bool :=
  existsb (fun n => has_eflag n ExprSet && is_kind ExprMemOffset n)
    (take (Z.to_nat (number_expr_nodes vector)) (node vector)).

Definition NaClValidatePrefixFlags : Dec bool :=
  i ← the_inst;
  state ← the_state;
  lock_ok ←
    (if NaClHasBit (prefix_mask state) kPrefixLOCK then
       if has_iflag i OpcodeLockable then
         vector ← on_state (NaClInstStateExpVector tables);
         mret (has_lockable_dest vector)
       else mret false
     else mret true);
  if negb lock_ok then mret false
  else if NaClHasBit (prefix_mask state) kPrefixREX then
    mret (negb ((has_iflag i OpcodeUsesRexW && negb (NaClHasBit (rexprefix state) 8)) ||
                (has_iflag i OpcodeHasRexR && negb (NaClHasBit (rexprefix state) 4))))
  else mret true.

(** ** Going back *)

(** Back to just after the opcode bytes. *)
Definition NaClClearInstState (inst_length : Z) : Dec unit :=
  state ← the_state;
  (if blength (bytes state) =? inst_length then mret tt else ResetBytes ;; ReadBytes inst_length) ;;
  set_state (fun s =>
    s <| modrm := 0 |> <| has_sib := false |> <| sib := 0 |> <| num_disp_bytes := 0 |> <| first_disp_byte := 0 |>
      <| num_imm_bytes := 0 |> <| first_imm_byte := 0 |> <| num_imm2_bytes := 0 |>
      <| operand_size := 32 |> <| address_size := 32 |>
      <| nodes := (nodes s) <| is_defined := false |> <| number_expr_nodes := 0 |> |>).

(** Back to the beginning of the instruction. *)
Definition NaClResetInstState : Dec unit :=
  state ← the_state;
  (if 0 <? blength (bytes state) then ResetBytes else mret tt) ;;
  set_state (fun s =>
    s <| num_prefix_bytes := 0 |> <| opcode_prefix := 0 |> <| num_opcode_bytes := 0 |>
      <| rexprefix := 0 |> <| num_rex_prefixes := 0 |> <| modrm := 0 |>
      <| has_prefix_duplicates := false |> <| has_ambig_segment_prefixes := false |>
      <| has_sib := false |> <| sib := 0 |> <| num_disp_bytes := 0 |> <| first_disp_byte := 0 |>
      <| num_imm_bytes := 0 |> <| first_imm_byte := 0 |> <| num_imm2_bytes := 0 |>
      <| prefix_mask := 0 |> <| inst := None |>
      <| nodes := (nodes s) <| is_defined := false |> <| number_expr_nodes := 0 |> |>).

(** ** Candidates *)

(** The descriptor of the list to try after this one.  The length adjustment is
    a uint8_t, 255 for -1. *)
Definition next_descriptor (desc : NaClInstPrefixDescriptor) : NaClInstPrefixDescriptor :=
  let p := matched_prefix desc in
  if p =? Prefix660F then desc <| matched_prefix := Prefix0F |> <| desc_opcode_prefix := 0 |>
  else if p =? Prefix660F38 then desc <| matched_prefix := Prefix0F38 |> <| desc_opcode_prefix := 0 |>
  else if p =? Prefix660F3A then desc <| matched_prefix := Prefix0F3A |> <| desc_opcode_prefix := 0 |>
  else if (PrefixD8 <=? p) && (p <=? PrefixDF) then
    desc <| matched_prefix := NoPrefix |> <| next_length_adjustment := 255 |>
  else desc <| matched_prefix := NaClInstPrefixEnumSize |>.

Definition NaClGetNextInstCandidates (desc : NaClInstPrefixDescriptor) (inst_length : Z)
  : Dec (option InstPtr * NaClInstPrefixDescriptor * Z) :=
  state ← the_state;
  '(desc, inst_length) ←
    (if cbool (next_length_adjustment desc) then
       let inst_length := u8 (inst_length + next_length_adjustment desc) in
       b ← lift (index (byte (bytes state)) (inst_length - 1));
       mret (desc <| opcode_byte := b |>, inst_length)
     else mret (desc, inst_length));
  cand_insts ← lift (NaClGetPrefixOpcodeInst tables (matched_prefix desc) (opcode_byte desc));
  mret (cand_insts, next_descriptor desc, inst_length).

(** The walk through the trie of hard coded sequences: the longest match so
    far and its length.  A step goes to a later node of the array. *)
Fixpoint HardCoded_loop (fuel : nat) (next : option Z) (b next_length : Z) (matching : option InstPtr * Z)
  : Dec (option InstPtr * Z) :=
  match next with
  | None => mret matching
  | Some k =>
      match fuel with
      | O => abort OutOfFuel
      | S fuel' =>
          d ← get;
          nd ← lift (index (hard_coded tables) k);
          if b =? matching_byte nd then
            let next_length := next_length + 1 in
            matching ←
              (if matching_inst nd =? NACL_OPCODE_NULL_OFFSET then mret matching
               else p ← lift (NaClGetOpcodeInst tables (matching_inst nd)); mret (p, next_length));
            if next_length <? length_limit (state_of d) then
              match on_success nd with
              | None => mret matching
              | Some k' =>
                  b' ← lift (NCInstByteInline ram (bytes (state_of d)) (memory_of d) next_length);
                  HardCoded_loop fuel' (Some k') b' next_length matching
              end
            else mret matching
          else if matching_byte nd <? b then HardCoded_loop fuel' (on_fail nd) b next_length matching
          else mret matching
      end
  end.

Definition NaClConsumeHardCodedNop : Dec bool :=
  d ← get;
  b ← lift (NCInstByteInline ram (bytes (state_of d)) (memory_of d) 0);
  '(matching_inst, matching_length) ← HardCoded_loop (S (length (hard_coded tables))) (Some 0) b 0 (None, 0);
  match matching_inst with
  | None => mret false
  | Some p =>
      NaClResetInstState ;;
      set_state (fun s => s <| inst := Some p |>) ;;
      ReadBytes matching_length ;; mret true
  end.

Definition NaClMaybeHardCodedNop (state : NaClInstState) : outcome bool :=
  b ← index (byte (bytes state)) (num_prefix_bytes state);
  if b =? 144 then Ret (num_opcode_bytes state =? 1)
  else if b =? 15 then
    if num_opcode_bytes state =? 2 then
      opcode_2 ← index (byte (bytes state)) (num_prefix_bytes state + 1);
      Ret ((opcode_2 =? 31) || (opcode_2 =? 11))
    else Ret false
  else Ret false.

(** The requirements of the current pattern, in order, as the && of the code. *)
Definition MatchPattern : Dec bool :=
  ok ← NaClConsumeAndCheckOperandSize;
  if negb ok then mret false
  else ok ← NaClConsumeAndCheckAddressSize;
  if negb ok then mret false
  else ok ← NaClConsumeModRm;
  if negb ok then mret false
  else ok ← NaClConsumeSib;
  if negb ok then mret false
  else ok ← NaClConsumeDispBytes;
  if negb ok then mret false
  else ok ← NaClConsumeImmediateBytes;
  if negb ok then mret false
  else NaClValidatePrefixFlags.

(** What follows a match: 3DNow! patterns are looked up by the immediate byte,
    and hard coded sequences are preferred. *)
Definition FinishMatch (inst_length cur_opcode_prefix : Z) : Dec unit :=
  i ← the_inst;
  state ← the_state;
  (if has_iflag i Opcode0F0F && (num_imm_bytes state =? 1) then
     b ← lift (index (byte (bytes state)) (first_imm_byte state));
     cand ← lift (NaClGetPrefixOpcodeInst tables Prefix0F0F b);
     match cand with
     | Some p => set_state (fun s => s <| inst := Some p |>)
     | None => mret tt
     end
   else mret tt) ;;
  set_state (fun s => s <| num_opcode_bytes := u8 (inst_length - num_prefix_bytes s) |>
                        <| opcode_prefix := cur_opcode_prefix |>) ;;
  state ← the_state;
  nop ← lift (NaClMaybeHardCodedNop state);
  if (nop : bool) then _ ← NaClConsumeHardCodedNop; mret tt else mret tt.

(** The candidates of one list; true when one matched. *)
Fixpoint Candidates_loop (fuel : nat) (cand : option InstPtr) (inst_length cur_opcode_prefix : Z) : Dec bool :=
  match cand with
  | None => mret false
  | Some p =>
      match fuel with
      | O => abort OutOfFuel
      | S fuel' =>
          NaClClearInstState inst_length ;;
          set_state (fun s => s <| inst := Some p |>) ;;
          ok ← MatchPattern;
          if (ok : bool) then FinishMatch inst_length cur_opcode_prefix ;; mret true
          else
            next ← lift (NaClGetOpcodeInst tables (next_rule (inst_at p)));
            Candidates_loop fuel' next inst_length cur_opcode_prefix
      end
  end.

(** The lists of candidates, from the most specific prefix on; there are at
    most two. *)
Fixpoint DecodeInst_loop (fuel : nat) (desc : NaClInstPrefixDescriptor) (inst_length : Z) : Dec bool :=
  if matched_prefix desc =? NaClInstPrefixEnumSize then mret false
  else
    match fuel with
    | O => abort OutOfFuel
    | S fuel' =>
        let cur_opcode_prefix := desc_opcode_prefix desc in
        '(cand_insts, desc, inst_length) ← NaClGetNextInstCandidates desc inst_length;
        found ← Candidates_loop (S (length (opcodes_table tables))) cand_insts inst_length cur_opcode_prefix;
        if (found : bool) then mret true else DecodeInst_loop fuel' desc inst_length
    end.

Definition NaClDecodeInst (addr size : Z) : Dec unit :=
  NaClInstStateInit addr size ;;
  _ ← NaClConsumePrefixBytes;
  desc ← NaClConsumeInstBytes;
  state ← the_state;
  found_match ← DecodeInst_loop 2 desc (blength (bytes state));
  if (found_match : bool) then mret tt
  else
    nop ← NaClConsumeHardCodedNop;
    if (nop : bool) then mret tt
    else
      p ← lift (opcode_ptr tables (undefined tables));
      set_state (fun s => s <| inst := Some p |>) ;;
      state ← the_state;
      if (blength (bytes state) =? 0) && (blength (bytes state) <? length_limit state) then
        _ ← ReadByte; mret tt
      else mret tt.

End Decoder.
