(* ===== verification/TransSpec.v ===== *)
(** * Translating operands: the expression vector and its accessors *)

From S2P Require Import Prelude Effects Stateful Bytes OpKinds DecodeTables OpcodeTable InstBuffer.
From S2P Require Import ExpVector InstState InstTrans.

(** ** The expression vector is always built

    [NaClBuildExpVector] reads only bytes of the instruction and entries of
    its tables, and changes nothing but the vector.  It ends with the vector
    or with one of its own checks (an assert, NaClFatal): never with an index
    outside an array. *)

(** The operands of a pattern are entries of the table. *)
Definition pattern_ok (tables : NaClDecodeTables) (i : NaClInst) : Prop :=
  0 <= operands_offset i /\ 0 <= num_operands i /\
  operands_offset i + num_operands i <= Z.of_nat (length (operands_table tables)).

Record vector_ok (v : NaClExpVector) : Prop := {
  vo_size : length (node v) = 30%nat;
  vo_count : 0 <= number_expr_nodes v <= NACL_MAX_EXPS;
}.

(** The parts of a decoded instruction that its translation reads. *)
Record operands_ok (tables : NaClDecodeTables) (s : NaClInstState) : Prop := {
  oo_bytes : length (byte (bytes s)) = 15%nat;
  oo_prefix : 0 <= num_prefix_bytes s <= 15;
  oo_disp : 0 <= first_disp_byte s /\ 0 <= num_disp_bytes s /\ first_disp_byte s + num_disp_bytes s <= 15;
  oo_imm : 0 <= first_imm_byte s /\ 0 <= num_imm_bytes s /\ 0 <= num_imm2_bytes s /\
           first_imm_byte s + num_imm_bytes s + num_imm2_bytes s <= 15;
  oo_nodes : vector_ok (nodes s);
  oo_inst : exists p, inst s = Some p /\ pattern_ok tables (inst_at p);
}.

(** Everything but the vector is the same; nodes are added or flagged. *)
Definition same_but_nodes (s s' : NaClInstState) : Prop := s' = s <| nodes := nodes s' |>.
Definition extends (s s' : NaClInstState) : Prop :=
  same_but_nodes s s' /\ is_defined (nodes s') = is_defined (nodes s).

Lemma same_but_nodes_refl s : same_but_nodes s s.
Proof. by destruct s. Qed.

Lemma extends_refl s : extends s s.
Proof. split; [apply same_but_nodes_refl|done]. Qed.

Lemma same_but_nodes_trans s1 s2 s3 : same_but_nodes s1 s2 -> same_but_nodes s2 s3 -> same_but_nodes s1 s3.
Proof. unfold same_but_nodes. intros -> ->. done. Qed.

Lemma extends_trans s1 s2 s3 : extends s1 s2 -> extends s2 s3 -> extends s1 s3.
Proof. intros [? ?] [? ?]. split; [by eapply same_but_nodes_trans|congruence]. Qed.

Section Keeps.
Variable tables : NaClDecodeTables.

(** From a state that is fine the computation ends in one that is fine and
    differs only in the vector, with a value that satisfies [Q]. *)
Definition keeps {A} (c : Trans A) (Q : A -> Prop) : Prop :=
  forall s, operands_ok tables s ->
    wp stops c (fun a s' => operands_ok tables s' /\ extends s s' /\ Q a) s.

Lemma built_ret {A} (a : A) (Q : A -> Prop) : Q a -> keeps (mret a) Q.
Proof. intros HQ s Hs. apply wp_ret. eauto using extends_refl. Qed.

Lemma built_bind {A B} (c : Trans A) (k : A -> Trans B) Q R :
  keeps c Q -> (forall a, Q a -> keeps (k a) R) -> keeps (c ≫= k) R.
Proof.
  intros Hc Hk s Hs. apply wp_bind. eapply wp_mono; [by apply Hc|]. simpl. intros a s' (Hs' & He & Ha).
  eapply wp_mono; [by apply Hk|]. simpl. intros b s'' (Hs'' & He' & Hb).
  eauto using extends_trans.
Qed.

Lemma keeps_mono {A} (c : Trans A) (Q R : A -> Prop) : keeps c Q -> (forall a, Q a -> R a) -> keeps c R.
Proof. intros Hc HQ s Hs. eapply wp_mono; [by apply Hc|]. naive_solver. Qed.

Lemma built_get : keeps get (operands_ok tables).
Proof. intros s Hs. apply wp_get. eauto using extends_refl. Qed.

Lemma keeps_gets {A} (f : NaClInstState -> A) (Q : A -> Prop) :
  (forall s, operands_ok tables s -> Q (f s)) -> keeps (gets f) Q.
Proof. intros HQ s Hs. apply wp_gets. eauto using extends_refl. Qed.

Lemma built_lift {A} (o : outcome A) (Q : A -> Prop) : wpo stops o Q -> keeps (lift o) Q.
Proof.
  intros Ho s Hs. apply wp_lift. eapply wpo_mono; [exact Ho|]. eauto using extends_refl.
Qed.

Lemma keeps_abort {A} f (Q : A -> Prop) : stops f -> keeps (abort f) Q.
Proof. intros Hf s _. by apply wp_abort. Qed.

Lemma built_require b msg : keeps (require b msg) (fun _ => b = true).
Proof. intros s Hs. apply wp_require; [done|]. eauto using extends_refl. Qed.

Lemma built_modify f (Q : unit -> Prop) :
  (forall s, operands_ok tables s -> operands_ok tables (f s) /\ extends s (f s)) -> Q tt ->
  keeps (modify f) Q.
Proof. intros Hf HQ s Hs. apply wp_modify. destruct (Hf s Hs). eauto. Qed.

(** Changing the vector. *)
Lemma operands_ok_nodes s v : operands_ok tables s -> vector_ok v -> operands_ok tables (s <| nodes := v |>).
Proof. intros [] Hv. by split. Qed.

Lemma keeps_append kind value flags : keeps (NaClAppendExp kind value flags) (fun _ => True).
Proof.
  intros s Hs. unfold NaClAppendExp. wp_steps. zbool.
  pose proof (oo_nodes _ _ Hs) as [Hsz Hc]. split_and!; [|by split; [destruct s|]|done].
  apply operands_ok_nodes; [done|]. split; simpl; [by rewrite length_insert|lia].
Qed.

Lemma keeps_add_flags n bits : keeps (AddFlags n bits) (fun _ => True).
Proof.
  apply built_modify; [|done]. intros s Hs. pose proof (oo_nodes _ _ Hs) as [Hsz Hc].
  split; [|by split; [destruct s|]]. apply operands_ok_nodes; [done|]. split; simpl; [by rewrite length_alter|done].
Qed.

(** ** Values without state *)

Lemma wpo_index {A} (arr : list A) i (Q : A -> Prop) :
  0 <= i < Z.of_nat (length arr) -> (forall a, Q a) -> wpo stops (index arr i) Q.
Proof. intros Hi HQ. destruct (index_ok arr i Hi) as [a Ha]. rewrite Ha. apply HQ. Qed.

Lemma wpo_inst s : operands_ok tables s -> wpo stops (NaClInstStateInst s) (pattern_ok tables).
Proof. intros Hs. destruct (oo_inst _ _ Hs) as (p & Hp & Hok). unfold NaClInstStateInst. by rewrite Hp. Qed.

Lemma segment_prefix_ok s n r : operands_ok tables s -> (n <= 15)%nat -> wpo stops (SegmentPrefix_loop n s r) (fun _ => True).
Proof.
  intros Hs. induction n as [|n IH]; intros Hn; simpl; [done|]. apply wpo_bind.
  apply wpo_index; [rewrite (oo_bytes _ _ Hs); lia|]. intros b. repeat case_match; try done. apply IH. lia.
Qed.

Lemma unsigned_ok n i s start v :
  operands_ok tables s -> 0 <= start + i -> start + i + Z.of_nat n <= 15 ->
  wpo stops (UnsignedBinary_loop n i s start v) (fun _ => True).
Proof.
  intros Hs. revert i v. induction n as [|n IH]; intros i v H0 Hn; simpl; [done|]. apply wpo_bind.
  apply wpo_index; [rewrite (oo_bytes _ _ Hs); lia|]. intros b. apply IH; lia.
Qed.

(** ** The functions, from the leaves to the operands *)

Lemma keeps_unsigned start num :
  0 <= start -> 0 <= num -> start + num <= 15 -> keeps (NaClExtractUnsignedBinaryValue start num) (fun _ => True).
Proof.
  intros. eapply built_bind; [apply built_get|]. intros s Hs. apply built_lift. apply unsigned_ok; [done|lia..].
Qed.

Lemma keeps_signed start num :
  0 <= start -> 0 <= num -> start + num <= 15 -> keeps (NaClExtractSignedBinaryValue start num) (fun _ => True).
Proof.
  intros. unfold NaClExtractSignedBinaryValue. case_match; [|by apply keeps_abort].
  eapply built_bind; [by apply keeps_unsigned|]. intros. by apply built_ret.
Qed.

Lemma keeps_segment_prefix r : keeps (NaClGetSegmentPrefixReg r) (fun _ => True).
Proof.
  eapply built_bind; [apply built_get|]. intros s Hs. case_match; [|by apply built_ret].
  apply built_lift, segment_prefix_ok; [done|]. pose proof (oo_prefix _ _ Hs). lia.
Qed.

Lemma register_tables kind : (length (NaClRegTable kind) = 16%nat) \/ NaClRegTable kind = [].
Proof. destruct kind; auto. Qed.

Lemma keeps_lookup_reg kind r : 0 <= r < 16 -> keeps (NaClLookupReg kind r) (fun _ => True).
Proof.
  intros Hr. eapply built_bind; [apply built_get|]. intros s Hs.
  destruct kind; repeat case_match; try (by apply built_ret);
    (apply built_lift, wpo_index; [change (0 <= r < 16); lia|done]).
Qed.

Lemma modrm_reg_bound m : 0 <= modrm_regInline m < 8.
Proof. unfold modrm_regInline. change 7 with (Z.ones 3). rewrite Z.land_ones by lia. by apply Z.mod_pos_bound. Qed.
Lemma modrm_rm_bound m : 0 <= modrm_rmInline m < 8.
Proof. unfold modrm_rmInline. change 7 with (Z.ones 3). rewrite Z.land_ones by lia. by apply Z.mod_pos_bound. Qed.
Lemma sib_base_bound m : 0 <= sib_base m < 8.
Proof. unfold sib_base. change 7 with (Z.ones 3). rewrite Z.land_ones by lia. by apply Z.mod_pos_bound. Qed.
Lemma sib_index_bound m : 0 <= sib_index m < 8.
Proof. unfold sib_index. change 7 with (Z.ones 3). rewrite Z.land_ones by lia. by apply Z.mod_pos_bound. Qed.
Lemma sib_ss_bound m : 0 <= sib_ss m < 4.
Proof. unfold sib_ss. change 3 with (Z.ones 2). rewrite Z.land_ones by lia. apply (Z.mod_pos_bound _ 4). lia. Qed.

Lemma keeps_rex (bit r : Z) : 0 <= r < 8 ->
  keeps (gets (fun s => if NaClHasBit (rexprefix s) bit then r + 8 else r)) (fun x => 0 <= x < 16).
Proof. intros Hr. apply keeps_gets. intros s _. case_match; lia. Qed.

End Keeps.

Create HintDb keeps.
#[export] Hint Resolve keeps_append keeps_add_flags keeps_segment_prefix keeps_lookup_reg keeps_rex built_get
  modrm_reg_bound modrm_rm_bound sib_base_bound sib_index_bound : keeps.
#[export] Hint Extern 5 (_ <= _ < _) => lia : keeps.

(** [keeps]: follow the computation. *)
Ltac keeps_step :=
  lazymatch goal with
  | |- keeps _ (mret _) _ => apply built_ret; try done
  | |- keeps _ (get ≫= _) _ => eapply built_bind; [apply built_get|intros ? ?]
  | |- keeps _ (require _ _ ≫= _) _ => eapply built_bind; [apply built_require|intros ? ?; cbn beta in *; zbool]
  | |- keeps _ (lift (NaClInstStateInst _) ≫= _) _ =>
      eapply built_bind; [apply built_lift, wpo_inst; eassumption|intros ? ?]
  | |- keeps _ (_ ≫= _) _ =>
      (eapply built_bind; [solve [eauto with keeps]|intros ? ?]) ||
      (eapply (built_bind _ _ _ (fun _ => True)); [|intros ? ?])
  | |- keeps _ (abort _) _ => apply keeps_abort; exact I
  | |- keeps _ (NaClFatal _) _ => apply keeps_abort; exact I
  | |- keeps _ (require _ _) _ => eapply keeps_mono; [apply built_require|done]
  | |- keeps _ (gets _) _ => apply keeps_gets; done
  | |- keeps _ (if _ then _ else _) _ => case_match
  | |- keeps _ (match _ with _ => _ end) _ => case_match
  | |- keeps _ _ _ => solve [eauto with keeps] || (eapply keeps_mono; [solve [eauto with keeps]|done])
  end.
Ltac keeps := repeat (cbv zeta; keeps_step).

Section Translation.
Variable tables : NaClDecodeTables.
Abbreviation runs c := (keeps tables c (fun _ => True)).

Lemma keeps_rexr r : 0 <= r < 8 -> keeps tables (NaClGetRexRReg r) (fun x => 0 <= x < 16).
Proof. apply keeps_rex. Qed.
Lemma keeps_rexx r : 0 <= r < 8 -> keeps tables (NaClGetRexXReg r) (fun x => 0 <= x < 16).
Proof. apply keeps_rex. Qed.
Lemma keeps_rexb r : 0 <= r < 8 -> keeps tables (NaClGetRexBReg r) (fun x => 0 <= x < 16).
Proof. apply keeps_rex. Qed.
Hint Resolve keeps_rexr keeps_rexx keeps_rexb : keeps.

Lemma keeps_gen_reg : keeps tables NaClGetGenRegRegister (fun x => 0 <= x < 16).
Proof. unfold NaClGetGenRegRegister. keeps. Qed.
Lemma keeps_gen_rm : keeps tables NaClGetGenRmRegister (fun x => 0 <= x < 16).
Proof. unfold NaClGetGenRmRegister. keeps. Qed.
Hint Resolve keeps_gen_reg keeps_gen_rm : keeps.

Lemma keeps_mnemonic_segment : runs NaClGetMnemonicSegmentRegister.
Proof. unfold NaClGetMnemonicSegmentRegister. keeps. Qed.
Lemma keeps_append_const v f : runs (NaClAppendConst v f).
Proof. apply keeps_append. Qed.
Lemma keeps_append_reg r : runs (NaClAppendReg r).
Proof. apply keeps_append. Qed.
Hint Resolve keeps_mnemonic_segment keeps_append_const keeps_append_reg : keeps.

Lemma keeps_append_reg_kind k r : 0 <= r < 16 -> runs (NaClAppendRegKind k r).
Proof. intros. unfold NaClAppendRegKind. keeps. Qed.
Lemma keeps_op_reg_kind op : runs (NaClExtractOpRegKind op).
Proof. unfold NaClExtractOpRegKind. keeps. Qed.
Lemma keeps_address_reg_kind : runs NaClExtractAddressRegKind.
Proof. unfold NaClExtractAddressRegKind. keeps. Qed.
Hint Resolve keeps_append_reg_kind keeps_op_reg_kind keeps_address_reg_kind : keeps.

Lemma keeps_append_operand_reg op r k : 0 <= r < 16 -> runs (NaClAppendOperandReg op r k).
Proof. intros. unfold NaClAppendOperandReg. keeps. Qed.
Lemma keeps_size_flag n : runs (NaClGetExprSizeFlagForBytes n).
Proof. unfold NaClGetExprSizeFlagForBytes. keeps. Qed.
Hint Resolve keeps_append_operand_reg keeps_size_flag : keeps.
Lemma keeps_address_flags : runs NaClGetAddressExprSizeFlagsForState.
Proof. unfold NaClGetAddressExprSizeFlagsForState. keeps. Qed.
Hint Resolve keeps_address_flags : keeps.
Lemma keeps_segment_address : runs NaClAppendSegmentAddress.
Proof. unfold NaClAppendSegmentAddress. keeps. Qed.
Hint Resolve keeps_segment_address : keeps.
Lemma keeps_segment_op op seg r k : 0 <= r < 16 -> runs (NaClAppendSegmentOpReg op seg r k).
Proof. intros. unfold NaClAppendSegmentOpReg. keeps. Qed.
Lemma keeps_modrm_segment : runs NaClAppendModRmSegmentReg.
Proof.
  unfold NaClAppendModRmSegmentReg. keeps. apply built_lift, wpo_index; [|done].
  change (0 <= modrm_regInline (modrm a) < 8). apply modrm_reg_bound.
Qed.
Hint Resolve keeps_segment_op keeps_modrm_segment : keeps.

Lemma keeps_opcode_base op : runs (NaClAppendOpcodeBaseReg op).
Proof. unfold NaClAppendOpcodeBaseReg. keeps. Qed.
Lemma keeps_st_opcode_base : runs NaClAppendStOpcodeBaseReg.
Proof. unfold NaClAppendStOpcodeBaseReg. keeps. Qed.
Hint Resolve keeps_opcode_base keeps_st_opcode_base : keeps.

(** ** Constants, displacements, memory references *)

Lemma keeps_displacement f : runs (NaClExtractDisplacement f).
Proof.
  unfold NaClExtractDisplacement. keeps. pose proof (oo_disp _ _ H) as (? & ? & ?). by apply keeps_unsigned.
Qed.
Lemma keeps_unsigned_imm : runs NaClExtractUnsignedImmediate.
Proof.
  unfold NaClExtractUnsignedImmediate. keeps. pose proof (oo_imm _ _ H) as (? & ? & ? & ?). apply keeps_unsigned; lia.
Qed.
Lemma keeps_unsigned_imm2 : runs NaClExtractUnsignedImmediate2.
Proof.
  unfold NaClExtractUnsignedImmediate2. keeps. pose proof (oo_imm _ _ H) as (? & ? & ? & ?). apply keeps_unsigned; lia.
Qed.
Lemma keeps_signed_imm : runs NaClExtractSignedImmediate.
Proof.
  unfold NaClExtractSignedImmediate. keeps. pose proof (oo_imm _ _ H) as (? & ? & ? & ?). apply keeps_signed; lia.
Qed.
Hint Resolve keeps_displacement keeps_unsigned_imm keeps_unsigned_imm2 keeps_signed_imm : keeps.

Lemma keeps_immed : runs NaClAppendImmed.
Proof. unfold NaClAppendImmed. keeps. Qed.
Lemma keeps_immed2 : runs NaClAppendImmed2.
Proof. unfold NaClAppendImmed2. keeps. Qed.
Lemma keeps_relative : runs NaClAppendRelativeImmed.
Proof. unfold NaClAppendRelativeImmed. keeps. Qed.
Lemma keeps_mem_offset_node : runs NaClAppendMemOffsetNode.
Proof. unfold NaClAppendMemOffsetNode. keeps. Qed.
Lemma keeps_segment_node r : runs (NaClAppendSegmentAddressNode r).
Proof. unfold NaClAppendSegmentAddressNode. keeps. Qed.
Hint Resolve keeps_immed keeps_immed2 keeps_relative keeps_mem_offset_node keeps_segment_node : keeps.
Lemma keeps_mem_root : runs AppendMemRoot.
Proof. unfold AppendMemRoot. keeps. Qed.
Hint Resolve keeps_mem_root : keeps.
Lemma keeps_mem_immed : runs NaClAppendMemoryOffsetImmed.
Proof. unfold NaClAppendMemoryOffsetImmed. keeps. Qed.
Lemma keeps_mem_offset b i sc d : runs (NaClAppendMemoryOffset b i sc d).
Proof. unfold NaClAppendMemoryOffset. keeps. Qed.
Lemma keeps_sib_base : runs NaClGetSibBase.
Proof. unfold NaClGetSibBase. keeps. Qed.
Hint Resolve keeps_mem_immed keeps_mem_offset keeps_sib_base : keeps.
Lemma keeps_sib_scale n : runs (lift (index nacl_sib_scale (sib_ss n))).
Proof. apply built_lift, wpo_index; [apply sib_ss_bound|done]. Qed.
Hint Resolve keeps_sib_scale : keeps.
Lemma keeps_sib : runs NaClAppendSib.
Proof. unfold NaClAppendSib. keeps. Qed.
Lemma keeps_by_address r1 r2 r3 m : runs (AppendByAddressSize r1 r2 r3 m).
Proof. unfold AppendByAddressSize. keeps. Qed.
Hint Resolve keeps_sib keeps_by_address : keeps.
Lemma keeps_seg_reg c seg addr : runs seg -> runs addr -> runs (AppendSegReg c seg addr).
Proof. intros. unfold AppendSegReg. keeps. Qed.
Lemma keeps_modrm_base : runs ModRmBase.
Proof. unfold ModRmBase. keeps. Qed.
Hint Resolve keeps_modrm_base : keeps.
Lemma keeps_mod00 : runs NaClAppendMod00EffectiveAddress.
Proof. unfold NaClAppendMod00EffectiveAddress. keeps. Qed.
Lemma keeps_mod01 : runs NaClAppendMod01EffectiveAddress.
Proof. unfold NaClAppendMod01EffectiveAddress. keeps. Qed.
Lemma keeps_mod10 : runs NaClAppendMod10EffectiveAddress.
Proof. unfold NaClAppendMod10EffectiveAddress. keeps. Qed.
Lemma keeps_mod11 op k : runs (NaClAppendMod11EffectiveAddress op k).
Proof. unfold NaClAppendMod11EffectiveAddress. keeps. Qed.
Hint Resolve keeps_mod00 keeps_mod01 keeps_mod10 keeps_mod11 : keeps.
Lemma keeps_effective op k : runs (NaClAppendEffectiveAddress op k).
Proof. unfold NaClAppendEffectiveAddress. keeps. Qed.
Lemma keeps_based_on_size r1 r2 r3 : runs (NaClAppendBasedOnSize r1 r2 r3).
Proof. unfold NaClAppendBasedOnSize. keeps. Qed.
Lemma keeps_based_on_address r1 r2 r3 : runs (NaClAppendBasedOnAddressSize r1 r2 r3).
Proof. unfold NaClAppendBasedOnAddressSize. apply keeps_by_address. Qed.
Hint Resolve keeps_effective keeps_based_on_size keeps_based_on_address : keeps.
Lemma keeps_string :
  runs NaClAppendDS_EDI /\ runs NaClAppendDS_ESI /\ runs NaClAppendDS_EBX /\ runs NaClAppendES_EDI.
Proof.
  split_and!; apply keeps_seg_reg; try apply keeps_segment_prefix;
    unfold NaClAppendEDI, NaClAppendESI, NaClAppendEBX; apply keeps_by_address.
Qed.

Lemma keeps_sized k : runs (AppendSizedRegister k).
Proof. destruct keeps_string as (? & ? & ? & ?). unfold AppendSizedRegister. keeps. Qed.
Hint Resolve keeps_sized : keeps.

Lemma keeps_operand op : runs (NaClAppendOperand op).
Proof. unfold NaClAppendOperand. keeps. Qed.
Lemma keeps_set_use n op : runs (NaClAddOpSetUse n op).
Proof. unfold NaClAddOpSetUse. keeps. Qed.
Hint Resolve keeps_operand keeps_set_use : keeps.

(** ** The vector *)

Lemma wpo_operand i k : pattern_ok tables i -> 0 <= k -> wpo stops (NaClGetInstOperandInline tables i k) (fun _ => True).
Proof.
  intros (? & ? & ?) Hk. unfold NaClGetInstOperandInline. case_match; zbool; [|done]. apply wpo_index; [lia|done].
Qed.

Lemma keeps_build_operand k : 0 <= k -> runs (BuildExpVector_operand tables k).
Proof. intros Hk. unfold BuildExpVector_operand. keeps. by apply built_lift, wpo_operand. Qed.

Lemma built_for_up n i (body : Z -> Trans unit) :
  (forall j, i <= j < i + Z.of_nat n -> runs (body j)) -> runs (for_up n i body).
Proof.
  revert i. induction n as [|n IH]; intros i Hb; simpl; [by apply built_ret|].
  eapply built_bind; [apply Hb; lia|]. intros _ _. apply IH. intros j Hj. apply Hb. lia.
Qed.

Lemma keeps_build : runs (NaClBuildExpVector tables).
Proof. unfold NaClBuildExpVector. keeps. apply built_for_up. intros j Hj. apply keeps_build_operand. lia. Qed.

(** The instruction with its vector. *)
Definition with_vector (s : NaClInstState) (v : NaClExpVector) (s' : NaClInstState) : Prop :=
  same_but_nodes s s' /\ v = nodes s' /\ is_defined (nodes s') = true /\ vector_ok (nodes s').

Lemma exp_vector_ok s :
  operands_ok tables s ->
  wp stops (NaClInstStateExpVector tables) (fun v s' => with_vector s v s' /\ operands_ok tables s') s.
Proof.
  intros Hs. unfold NaClInstStateExpVector. wp_steps.
  - split; [|done]. split_and!; [apply same_but_nodes_refl|done|done|apply Hs].
  - set (s' := s <| nodes := (nodes s) <| is_defined := true |> |>).
    assert (Hs' : operands_ok tables s') by (apply operands_ok_nodes; [done|by destruct (oo_nodes _ _ Hs)]).
    eapply wp_mono; [apply (keeps_build s' Hs')|]. simpl. intros _ s'' (Hs'' & [He Hdef] & _).
    apply wp_gets. split; [|done]. split_and!; [by unfold same_but_nodes in *|done|done|apply Hs''].
Qed.

(** A pattern without operands has an empty vector, whatever the other fields
    are. *)
Lemma exp_vector_none s p :
  inst s = Some p -> num_operands (inst_at p) = 0 -> vector_ok (nodes s) ->
  wp stops (NaClInstStateExpVector tables) (with_vector s) s.
Proof.
  intros Hp Hn [Hv1 Hv2]. unfold NaClInstStateExpVector. wp_steps.
  - split_and!; [apply same_but_nodes_refl|done|done|done].
  - unfold NaClBuildExpVector. wp_steps. unfold NaClInstStateInst. simpl. rewrite Hp. simpl. wp_steps.
    unfold NaClGetInstNumberOperandsInline. rewrite Hn. simpl. wp_steps. split_and!; try done; try by split.
    unfold same_but_nodes. destruct s. simpl in Hp. by rewrite Hp.
Qed.

End Translation.

(** ** Walking over an expression vector ends

    The recursion of NaClExpWidth goes to larger indices, so the 31 levels it
    is given are enough for a vector of 30 nodes. *)

(** The computation does not run out of fuel. *)
Definition ends {A} (o : outcome A) : Prop := o <> Fault OutOfFuel.

Lemma ends_ret {A} (a : A) : ends (Ret a).
Proof. done. Qed.
Lemma ends_mret {A} (a : A) : ends (mret a).
Proof. done. Qed.
Lemma ends_bind {A B} (o : outcome A) (k : A -> outcome B) : ends o -> (forall a, o = Ret a -> ends (k a)) -> ends (o ≫= k).
Proof. unfold ends, mbind, outcome_bind. destruct o; intros Ho Hk; [by apply Hk|]. congruence. Qed.
Lemma ends_index {A} (l : list A) i : ends (index l i).
Proof. unfold ends, index. repeat case_match; congruence. Qed.
Lemma ends_fault {A} f : f <> OutOfFuel -> ends (Fault f : outcome A).
Proof. unfold ends. congruence. Qed.

Create HintDb ends.
#[export] Hint Resolve ends_ret ends_mret ends_index : ends.

(** [ends]: follow the computation. *)
Ltac ends_step :=
  lazymatch goal with
  | |- ends (_ ≫= _) => apply ends_bind; [|intros ? ?]
  | |- ends (Fault _) => apply ends_fault; done
  | |- ends (if _ then _ else _) => case_match
  | |- ends (match _ with _ => _ end) => case_match
  | |- ends _ => solve [eauto with ends]
  end.
Ltac ends := repeat (cbv zeta; ends_step).

Lemma ends_get_register n : ends (NaClGetExpRegisterInline n).
Proof. unfold NaClGetExpRegisterInline. ends. Qed.
#[export] Hint Resolve ends_get_register : ends.

Lemma ends_vector_register v i : ends (NaClGetExpVectorRegister v i).
Proof. unfold NaClGetExpVectorRegister. ends. Qed.
#[export] Hint Resolve ends_vector_register : ends.

Lemma ends_get_inst s : ends (NaClInstStateInst s).
Proof. unfold NaClInstStateInst, follow. destruct (inst s); done. Qed.
Lemma ends_state_byte s i : ends (NaClInstStateByte s i).
Proof. unfold NaClInstStateByte. ends. Qed.
Lemma ends_operand tables i k : ends (NaClGetInstOperandInline tables i k).
Proof. unfold NaClGetInstOperandInline. ends. Qed.
Lemma ends_get32 r : ends (NaClGet32For64BitReg r).
Proof. unfold NaClGet32For64BitReg. ends. Qed.
Lemma ends_subreg r q : ends (NaClIs64Subreg r q).
Proof. unfold NaClIs64Subreg. ends. Qed.
Lemma ends_is_valid s : ends (NaClInstStateIsValid s).
Proof. unfold NaClInstStateIsValid. apply ends_bind; [apply ends_get_inst|done]. Qed.
#[export] Hint Resolve ends_get_inst ends_state_byte ends_operand ends_get32 ends_subreg ends_is_valid : ends.

Section Width.
Variable v : NaClExpVector.
Context (Hv : vector_ok v).

(** The loop over the children of a node. *)
Definition kids_width (width : Z -> outcome Z) (i : Z) : nat -> Z -> outcome Z :=
  fix kids (k : nat) (count : Z) : outcome Z :=
    match k with
    | O => Ret count
    | S k' => w ← width (i + count); kids k' (count + w)
    end.

Lemma ExpWidth_unfold fuel i :
  ExpWidth (S fuel) v i = (n ← index (node v) i; kids_width (ExpWidth fuel v) i (Z.to_nat (NaClExpKindRank (exp_kind n))) 1).
Proof using. reflexivity. Qed.

Lemma kids_width_ok width i k count :
  1 <= count -> (forall j, i < j -> ends (width j) /\ forall w, width j = Ret w -> 1 <= w) ->
  ends (kids_width width i k count) /\ forall w, kids_width width i k count = Ret w -> 1 <= w.
Proof using.
  revert count. induction k as [|k IH]; intros count Hc Hw; simpl; [split; [done|by intros w [= <-]]|].
  destruct (Hw (i + count)) as [He Hpos]; [lia|]. destruct (width (i + count)) as [w|f] eqn:Hwd.
  - simpl. apply IH; [specialize (Hpos w eq_refl); lia|done].
  - simpl. split; [|done]. unfold ends in *. congruence.
Qed.

Lemma width_ok fuel i :
  (1 <= fuel)%nat -> (0 <= i -> 31 <= i + Z.of_nat fuel) ->
  ends (ExpWidth fuel v i) /\ forall w, ExpWidth fuel v i = Ret w -> 1 <= w.
Proof using Hv.
  revert i. induction fuel as [|fuel IH]; intros i H1 Hf; [lia|]. rewrite ExpWidth_unfold.
  pose proof (ends_index (node v) i) as He. destruct (index (node v) i) as [n|f] eqn:Hn.
  - apply index_Some in Hn as [? Hn%lookup_lt_Some]. rewrite (vo_size _ Hv) in Hn.
    apply kids_width_ok; [lia|]. intros j Hj. apply IH; lia.
  - simpl. split; [|done]. unfold ends in *. congruence.
Qed.

Lemma ends_width i : ends (NaClExpWidth v i).
Proof using Hv. apply width_ok; lia. Qed.

Lemma kid_index_ok k i : ends (KidIndex_loop k v i).
Proof using Hv.
  revert i. induction k as [|k IH]; intros i; simpl; [done|]. apply ends_bind; [apply ends_width|]. auto.
Qed.

Lemma ends_kid_index i k : ends (NaClGetExpKidIndex v i k).
Proof using Hv. apply kid_index_ok. Qed.

Lemma ends_parent i : ends (NaClGetExpParentIndex v i).
Proof using.
  unfold NaClGetExpParentIndex. generalize 1. induction (Z.to_nat i) as [|n IH]; intros k; simpl; [done|]. apply ends_bind; [ends|].
  intros nd _. case_match; [done|apply IH].
Qed.

Lemma ends_nth_loop k i kind n : ends (NthExpKind_loop k i v kind n).
Proof using.
  revert i n. induction k as [|k IH]; intros i n; simpl; [done|]. ends; apply IH.
Qed.

Lemma ends_nth kind n : ends (NaClGetNthExpKind v kind n).
Proof using. unfold NaClGetNthExpKind. case_match; [apply ends_nth_loop|done]. Qed.

End Width.

#[export] Hint Resolve ends_parent ends_nth ends_width ends_kid_index : ends.
