(* ===== verification/DecodeSpec.v ===== *)
(** * Decoding always ends

    For decoder tables that pass [tables_ok], [NaClDecodeInst] at a position of
    a segment reads at least one byte when there is one, at most 15, and none
    outside the segment, and leaves the memory positioned after the
    instruction.  It ends with a decoded instruction or in a check of its own:
    no loop runs out of fuel, no array is indexed out of range. *)

From S2P Require Import Prelude Effects Stateful Bytes OpKinds DecodeTables OpcodeTable InstBuffer.
From S2P Require Import ExpVector InstState InstTrans InstDecode TransSpec.

(** ** Conditions on the tables *)

Fixpoint all_indexed {A} (f : Z -> A -> bool) (i : Z) (l : list A) : bool :=
  match l with
  | [] => true
  | a :: l' => f i a && all_indexed f (i + 1) l'
  end.

Lemma all_indexed_lookup {A} (f : Z -> A -> bool) i l k a :
  all_indexed f i l = true -> l !! k = Some a -> f (i + Z.of_nat k) a = true.
Proof.
  revert i k. induction l as [|b l IH]; intros i k Hall Hk; [done|]. simpl in Hall. zbool.
  destruct k as [|k]; simpl in Hk; [injection Hk as <-; by replace (i + Z.of_nat 0) with i by lia|].
  replace (i + Z.of_nat (S k)) with (i + 1 + Z.of_nat k) by lia. by apply IH.
Qed.

Lemma forallb_lookup {A} (f : A -> bool) l k a : forallb f l = true -> l !! k = Some a -> f a = true.
Proof.
  revert k. induction l as [|b l IH]; intros k Hall Hk; [done|]. simpl in Hall. zbool.
  destruct k as [|k]; simpl in Hk; [by injection Hk as <-|by eapply IH].
Qed.

Section Tables.
Variable tables : NaClDecodeTables.

Definition in_table {A} (l : list A) (o : Z) : bool := (0 <=? o) && (o <? Z.of_nat (length l)).
Definition offset_ok (o : Z) : bool := (o =? NACL_OPCODE_NULL_OFFSET) || in_table (opcodes_table tables) o.

Definition pattern_okb (i : NaClInst) : bool :=
  (0 <=? operands_offset i) && (0 <=? num_operands i) &&
  (operands_offset i + num_operands i <=? Z.of_nat (length (operands_table tables))).

(** A chain of patterns goes down in the table. *)
Definition rule_ok (o : Z) (i : NaClInst) : bool :=
  pattern_okb i && ((next_rule i =? NACL_OPCODE_NULL_OFFSET) || ((0 <=? next_rule i) && (next_rule i <? o))).

Definition link_ok (o : Z) (next : option Z) : bool :=
  match next with Some k => (o <? k) && (k <? Z.of_nat (length (hard_coded tables))) | None => true end.

(** The trie goes up. *)
Definition node_ok (o : Z) (n : NaClInstNode) : bool :=
  offset_ok (matching_inst n) && link_ok o (on_success n) && link_ok o (on_fail n).

Definition selector_ok (s : NaClPrefixOpcodeSelector) : bool :=
  (0 <=? table_offset s) &&
  (table_offset s + (last_opcode s - first_opcode s) <? Z.of_nat (length (opcode_entries tables))).

Definition tables_ok : bool :=
  (length (prefix_mask_table tables) =? 256)%nat &&
  (Z.of_nat (length (opcode_selectors tables)) =? NaClInstPrefixEnumSize) &&
  forallb selector_ok (opcode_selectors tables) && forallb offset_ok (opcode_entries tables) &&
  all_indexed rule_ok 0 (opcodes_table tables) && all_indexed node_ok 0 (hard_coded tables) &&
  (* no hard coded sequence begins with a zero byte *)
  match hard_coded tables with n :: _ => 0 <? matching_byte n | [] => false end && in_table (opcodes_table tables) (undefined tables) &&
  match opcodes_table tables !! Z.to_nat (undefined tables) with
  | Some i => num_operands i =? 0
  | None => false
  end.

Context (Hok : tables_ok = true).

Lemma in_table_lookup {A} (l : list A) o : in_table l o = true -> exists a, index l o = Ret a.
Proof. unfold in_table. intros. zbool. by apply index_ok. Qed.

Lemma pattern_okb_ok i : pattern_okb i = true -> pattern_ok tables i.
Proof. unfold pattern_okb, pattern_ok. intros. zbool. lia. Qed.

(** The conditions one by one. *)
Ltac tables H := pose proof Hok as H; unfold tables_ok in H; zbool.

Lemma opcode_rule o i : index (opcodes_table tables) o = Ret i -> rule_ok o i = true.
Proof using Hok.
  intros [Ho Hi]%index_Some. tables H.
  match goal with H : all_indexed rule_ok _ _ = true |- _ => eapply all_indexed_lookup in H; [|exact Hi] end.
  by replace o with (0 + Z.of_nat (Z.to_nat o)) by lia.
Qed.

Lemma hard_coded_node k n : index (hard_coded tables) k = Ret n -> node_ok k n = true.
Proof using Hok.
  intros [Ho Hi]%index_Some. tables H.
  match goal with H : all_indexed node_ok _ _ = true |- _ => eapply all_indexed_lookup in H; [|exact Hi] end.
  by replace k with (0 + Z.of_nat (Z.to_nat k)) by lia.
Qed.

(** A pointer found in the table. *)
Definition ptr_ok (p : InstPtr) : Prop :=
  index (opcodes_table tables) (inst_offset p) = Ret (inst_at p) /\ 0 <= inst_offset p /\ pattern_ok tables (inst_at p).

Lemma get_opcode_ok o :
  offset_ok o = true ->
  wpo stops (NaClGetOpcodeInst tables o) (fun c => match c with Some p => ptr_ok p /\ inst_offset p = o | None => True end).
Proof using Hok.
  unfold offset_ok, NaClGetOpcodeInst. intros Ho. destruct (o =? _); [done|]. simpl in Ho.
  destruct (in_table_lookup _ _ Ho) as [i Hi]. unfold opcode_ptr. rewrite Hi. split; [|done]. split; [done|].
  pose proof (opcode_rule _ _ Hi) as Hr. unfold rule_ok, in_table in *. zbool. split; [simpl; lia|]. by apply pattern_okb_ok.
Qed.

Lemma get_prefix_opcode_ok prefix opcode :
  0 <= prefix < NaClInstPrefixEnumSize ->
  wpo stops (NaClGetPrefixOpcodeInst tables prefix opcode)
    (fun c => match c with Some p => ptr_ok p | None => True end).
Proof using Hok.
  intros Hp. tables H. unfold NaClGetPrefixOpcodeInst.
  destruct (index_ok (opcode_selectors tables) prefix) as [s Hs]; [lia|]. rewrite Hs.
  apply index_Some in Hs as [_ Hs].
  assert (Hsel : selector_ok s = true).
  { match goal with H : forallb selector_ok _ = true |- _ => by eapply forallb_lookup in H end. }
  unfold selector_ok in Hsel. zbool. destruct (_ && _) eqn:Hr; [zbool|done].
  destruct (index_ok (opcode_entries tables) (table_offset s + (opcode - first_opcode s))) as [o Ho]; [lia|].
  rewrite Ho. apply index_Some in Ho as [_ Ho].
  eapply wpo_mono; [apply get_opcode_ok|intros [p|]; [by intros [? _]|done]].
  match goal with H : forallb offset_ok _ = true |- _ => by eapply forallb_lookup in H end.
Qed.

Lemma next_rule_ok p : ptr_ok p ->
  wpo stops (NaClGetOpcodeInst tables (next_rule (inst_at p)))
    (fun c => match c with Some q => ptr_ok q /\ inst_offset q < inst_offset p | None => True end).
Proof using Hok.
  intros (Hi & H0 & _). pose proof (opcode_rule _ _ Hi) as Hr. unfold rule_ok in Hr. zbool.
  match goal with H : (_ || _) = true |- _ => apply orb_true_iff in H as [He|He] end; zbool.
  - unfold NaClGetOpcodeInst. rewrite He. done.
  - apply index_Some in Hi as [_ Hi%lookup_lt_Some].
    eapply wpo_mono; [apply get_opcode_ok|intros [q|]; [|done]; intros [Hq ->]; split; [done|lia]].
    unfold offset_ok, in_table. apply orb_true_iff. right. apply andb_true_iff. split; [by apply Z.leb_le|apply Z.ltb_lt; lia].
Qed.

Lemma ptr_offset_bound p : ptr_ok p -> inst_offset p < Z.of_nat (length (opcodes_table tables)).
Proof. intros ([_ Hi%lookup_lt_Some]%index_Some & ? & _). lia. Qed.

End Tables.

(** ** The state while decoding *)

Section Decoding.
Variable ram : memory.
Variable tables : NaClDecodeTables.
Context (Hbytes : forall x, is_byte (ram x)) (Hok : tables_ok tables = true).
(** An instruction at [base], [L] bytes of which may be read, in a segment
    that ends at [lim]; its address is [addr]. *)
Context (lim base L addr : Z) (HLdef : L = Z.min 15 (lim - base)) (HL : 0 <= L <= 15) (Hlim : base + L <= lim).

Record decoding (len : Z) (d : Decoding) : Prop := {
  dg_read : reading ram lim base len (bytes (state_of d)) (memory_of d);
  dg_limit : length_limit (state_of d) = L;
  dg_len : len <= L;
  dg_prefix : 0 <= num_prefix_bytes (state_of d) <= 14;
  dg_addr : inst_addr (state_of d) = addr;
  dg_unchanged : unchanged (state_of d) = false;
  dg_nodes : vector_ok (nodes (state_of d));
}.

(** The displacement and the immediates lie in the buffer. *)
Definition positions_ok (s : NaClInstState) : Prop :=
  (0 <= first_disp_byte s /\ 0 <= num_disp_bytes s /\ first_disp_byte s + num_disp_bytes s <= 15) /\
  (0 <= first_imm_byte s /\ 0 <= num_imm_bytes s /\ 0 <= num_imm2_bytes s /\
   first_imm_byte s + num_imm_bytes s + num_imm2_bytes s <= 15).

Definition fields_ok (s : NaClInstState) : Prop := positions_ok s /\ 0 <= operand_size s.

Definition has_pattern (s : NaClInstState) : Prop := exists p, inst s = Some p /\ pattern_ok tables (inst_at p).

Ltac fields := unfold fields_ok, positions_ok in *; simpl in *; lia.

Lemma decoding_bounds len d : decoding len d -> 0 <= len /\ blength (bytes (state_of d)) = len.
Proof using. intros [Hr]. split; apply Hr. Qed.

Lemma operands_ok_intro len d :
  decoding len d -> positions_ok (state_of d) -> has_pattern (state_of d) -> operands_ok tables (state_of d).
Proof using. intros [Hr ? ? ? ? ? ?] (? & ?) Hp. split; try done; [apply Hr|lia]. Qed.

(** A change of other parts of the instruction. *)
Lemma decoding_set len d (f : NaClInstState -> NaClInstState) :
  decoding len d -> bytes (f (state_of d)) = bytes (state_of d) ->
  length_limit (f (state_of d)) = length_limit (state_of d) ->
  0 <= num_prefix_bytes (f (state_of d)) <= 14 -> inst_addr (f (state_of d)) = inst_addr (state_of d) ->
  unchanged (f (state_of d)) = unchanged (state_of d) -> vector_ok (nodes (f (state_of d))) ->
  decoding len (d <| state_of := f (state_of d) |>).
Proof using. intros [] H1 H2 H3 H4 H5 H6. split; simpl; rewrite ?H1, ?H2, ?H4, ?H5; done. Qed.

Lemma wp_set_state f Q d : Q tt (d <| state_of := f (state_of d) |>) -> wp stops (set_state f) Q d.
Proof using. done. Qed.

Lemma wp_the_state Q d : Q (state_of d) d -> wp stops the_state Q d.
Proof using. done. Qed.

Lemma wp_the_inst Q d :
  has_pattern (state_of d) -> (forall i, pattern_ok tables i -> Q i d) -> wp stops the_inst Q d.
Proof using.
  intros (p & Hp & Hpo) HQ. unfold the_inst. apply wp_bind, wp_the_state, wp_lift.
  unfold NaClInstStateInst. rewrite Hp. by apply HQ.
Qed.

(** Only the buffered bytes and the position change. *)
Definition only_read (d d' : Decoding) : Prop := state_of d' = (state_of d) <| bytes := bytes (state_of d') |>.

Lemma decoding_read len len' d bytes' memory' :
  decoding len d -> reading ram lim base len' bytes' memory' -> len' <= L ->
  decoding len' (mkDecoding memory' ((state_of d) <| bytes := bytes' |>)).
Proof using. intros [] Hr Hl. by split. Qed.

Lemma wp_ReadByte len d Q :
  decoding len d -> len < L ->
  (forall d', decoding (len + 1) d' -> only_read d d' -> Q (ram (base + len)) d') -> wp stops (ReadByte ram) Q d.
Proof using HLdef HL Hlim.
  intros Hd Hlt HQ. unfold ReadByte. apply wp_bind, wp_get.
  destruct (reading_read _ _ _ _ _ _ (dg_read _ _ Hd)) as (b' & m' & Heq & Hr); [unfold MAX_INST_LENGTH; lia|lia|].
  rewrite Heq. apply wp_bind, wp_put, wp_ret. apply HQ; [|done]. eapply decoding_read; [done..|lia].
Qed.

Lemma wp_ReadBytes len n d Q :
  decoding len d -> 0 <= n -> len + n <= L ->
  (forall d', decoding (len + n) d' -> only_read d d' -> Q tt d') -> wp stops (ReadBytes ram n) Q d.
Proof using HLdef HL Hlim.
  intros Hd Hn Hle HQ. unfold ReadBytes, NCInstBytesReadBytesInline. apply wp_modify.
  destruct (reading_read_bytes ram lim base (Z.to_nat n) len (bytes (state_of d)) (memory_of d))
    as (b' & m' & Heq & Hr); [apply Hd|unfold MAX_INST_LENGTH; lia|lia|].
  rewrite Heq. replace (len + Z.of_nat (Z.to_nat n)) with (len + n) in Hr by lia.
  apply HQ; [|done]. by eapply decoding_read.
Qed.

Lemma wp_ResetBytes len d Q :
  decoding len d -> (forall d', decoding 0 d' -> only_read d d' -> Q tt d') -> wp stops (ResetBytes ram) Q d.
Proof using HLdef HL Hlim.
  intros Hd HQ. unfold ResetBytes. apply wp_modify.
  pose proof (reading_reset _ _ _ _ _ _ (dg_read _ _ Hd)) as Hr.
  destruct (NCInstBytesResetInline ram (memory_of d)) as [b' m']. apply HQ; [|done].
  eapply decoding_read; [done..|lia].
Qed.

Lemma more_bytes_true len d : decoding len d -> more_bytes (state_of d) = true -> len < L.
Proof using. intros Hd. unfold more_bytes. rewrite (dg_limit _ _ Hd), (proj2 (decoding_bounds _ _ Hd)). intros. by zbool. Qed.

Lemma more_bytes_false len d : decoding len d -> more_bytes (state_of d) = false -> len = L.
Proof using.
  intros Hd. unfold more_bytes. rewrite (dg_limit _ _ Hd), (proj2 (decoding_bounds _ _ Hd)). intros.
  zbool. pose proof (dg_len _ _ Hd). lia.
Qed.

Lemma only_read_bytes d d' : only_read d d' ->
  prefix_mask (state_of d') = prefix_mask (state_of d) /\ num_prefix_bytes (state_of d') = num_prefix_bytes (state_of d).
Proof using. unfold only_read. by intros ->. Qed.

(** ** Prefix bytes and opcode bytes *)

Lemma peek_byte len d : decoding len d -> 0 <= NCRemainingMemoryLookaheadInline ram (memory_of d) 0 < 256.
Proof using Hbytes. intros _. unfold NCRemainingMemoryLookaheadInline, NC_MEMORY_OVERFLOW. case_match; [apply Hbytes|lia]. Qed.

Lemma note_prefix_other form b s :
  bytes (note_prefix form b s) = bytes s /\ length_limit (note_prefix form b s) = length_limit s /\
  num_prefix_bytes (note_prefix form b s) = num_prefix_bytes s + 1 /\
  inst_addr (note_prefix form b s) = inst_addr s /\ unchanged (note_prefix form b s) = unchanged s /\
  nodes (note_prefix form b s) = nodes s.
Proof using. unfold note_prefix. repeat case_match; done. Qed.

Lemma prefix_loop_ok n len d :
  decoding len d -> num_prefix_bytes (state_of d) = len -> len + Z.of_nat n <= 14 ->
  wp stops (ConsumePrefix_loop ram tables n) (fun _ d' => exists len', decoding len' d') d.
Proof using All.
  revert len d. induction n as [|n IH]; intros len d Hd Hnp Hn; simpl; [apply wp_ret; eauto|].
  apply wp_bind, wp_get. apply wp_if; intros Hm; [apply wp_ret; eauto|]. zbool.
  apply (more_bytes_true len) in Hm; [|done]. apply wp_bind, wp_lift.
  apply (wpo_index (prefix_mask_table tables)).
  { pose proof Hok as Ht. unfold tables_ok in Ht. zbool.
    match goal with H : (length _ =? 256)%nat = true |- _ => apply Nat.eqb_eq in H; rewrite H end.
    by eapply peek_byte. }
  intros form. apply wp_if; intros _; [apply wp_ret; eauto|].
  apply wp_bind, (wp_ReadByte len); [done..|]. intros d' Hd' Hor. apply wp_bind, wp_set_state.
  destruct (only_read_bytes _ _ Hor) as [_ Hnp'].
  destruct (note_prefix_other form (ram (base + len)) (state_of d')) as (? & ? & Hn' & ? & ? & Hv).
  apply (IH (len + 1)); [|simpl; lia|lia].
  pose proof (decoding_bounds _ _ Hd) as [? _]. apply decoding_set; try done; [lia|]. rewrite Hv. apply Hd'.
Qed.

(** A descriptor of the opcode bytes that were read. *)
Definition desc_ok (desc : NaClInstPrefixDescriptor) : Prop :=
  0 <= matched_prefix desc <= NaClInstPrefixEnumSize /\ next_length_adjustment desc = 0.

(** How many lists of candidates are left. *)
Definition lists_left (desc : NaClInstPrefixDescriptor) : nat :=
  let p := matched_prefix desc in
  if p =? NaClInstPrefixEnumSize then 0
  else if (p =? Prefix660F) || (p =? Prefix660F38) || (p =? Prefix660F3A) || ((PrefixD8 <=? p) && (p <=? PrefixDF))
  then 2 else 1.

(** What is known when a list of candidates is looked up. *)
Definition opcode_read (desc : NaClInstPrefixDescriptor) (len : Z) : Prop :=
  desc_ok desc /\ (matched_prefix desc <> NaClInstPrefixEnumSize -> 1 <= len) /\
  (PrefixD8 <= matched_prefix desc <= PrefixDF -> 2 <= len).

Definition after_opcode (desc : NaClInstPrefixDescriptor) (d : Decoding) : Prop :=
  exists len, decoding len d /\ opcode_read desc len.

(** Solves [opcode_read] of an updated descriptor. *)
Ltac opcode_read := unfold opcode_read, desc_ok in *; repeat case_match; simpl in *; lia.

Lemma wp_more len d (A : Type) (c1 c2 : Dec A) Q :
  decoding len d -> (len = L -> wp stops c1 Q d) -> (len < L -> wp stops c2 Q d) ->
  wp stops (if negb (more_bytes (state_of d)) then c1 else c2) Q d.
Proof using.
  intros Hd H1 H2. apply wp_if; intros Hm; zbool.
  - by apply H1, (more_bytes_false _ _ Hd).
  - by apply H2, (more_bytes_true _ _ Hd).
Qed.

Lemma consume_0f38_ok len d desc :
  decoding len d -> 1 <= len -> desc_ok desc -> wp stops (NaClConsume0F38XXNaClInstBytes ram desc) after_opcode d.
Proof using All.
  intros Hd Hl Hdesc. unfold NaClConsume0F38XXNaClInstBytes. apply wp_bind, wp_the_state.
  apply (wp_more len); [done|intros _|intros Hlt].
  - apply wp_ret. exists len. split; [done|]. opcode_read.
  - apply wp_bind, (wp_ReadByte len); [done..|]. intros d' Hd' _. apply wp_ret. exists (len + 1). split; [done|]. opcode_read.
Qed.

Lemma consume_0f3a_ok len d desc :
  decoding len d -> 1 <= len -> desc_ok desc -> wp stops (NaClConsume0F3AXXNaClInstBytes ram desc) after_opcode d.
Proof using All.
  intros Hd Hl Hdesc. unfold NaClConsume0F3AXXNaClInstBytes. apply wp_bind, wp_the_state.
  apply (wp_more len); [done|intros _|intros Hlt].
  - apply wp_ret. exists len. split; [done|]. opcode_read.
  - apply wp_bind, (wp_ReadByte len); [done..|]. intros d' Hd' _. apply wp_ret. exists (len + 1). split; [done|]. opcode_read.
Qed.

Lemma consume_0f_ok len s desc :
  1 <= len -> desc_ok desc -> opcode_read (NaClConsume0FXXNaClInstBytes s desc) len.
Proof using HLdef HL Hlim. intros. unfold NaClConsume0FXXNaClInstBytes. opcode_read. Qed.

Lemma consume_x87_ok len d desc :
  decoding len d -> 1 <= len -> desc_ok desc -> 216 <= opcode_byte desc <= 223 ->
  wp stops (NaClConsumeX87NaClInstBytes ram desc) after_opcode d.
Proof using All.
  intros Hd Hl Hdesc Hb. unfold NaClConsumeX87NaClInstBytes. apply wp_bind, wp_the_state.
  apply wp_if; intros Hm.
  - apply wp_bind, (wp_ReadByte len); [done|by apply (more_bytes_true _ _ Hd)|]. intros d' Hd' _. apply wp_ret.
    exists (len + 1). split; [done|]. opcode_read.
  - apply wp_ret. exists len. split; [done|]. opcode_read.
Qed.

Lemma inst_bytes_ok len d : decoding len d -> wp stops (NaClConsumeInstBytes ram) after_opcode d.
Proof using All.
  intros Hd. pose proof (decoding_bounds _ _ Hd) as [H0 _]. unfold NaClConsumeInstBytes. cbv zeta.
  apply wp_bind, wp_the_state. apply (wp_more len); [done|intros _|intros Hlt].
  { apply wp_ret. exists len. split; [done|]. opcode_read. }
  apply wp_bind, (wp_ReadByte len); [done..|]. intros d1 Hd1 _. apply wp_if; intros Hb; zbool.
  - apply wp_bind, wp_the_state. apply (wp_more (len + 1)); [done|intros _|intros Hlt1].
    { apply wp_ret. exists (len + 1). split; [done|]. opcode_read. }
    apply wp_bind, (wp_ReadByte (len + 1)); [done..|]. intros d2 Hd2 _.
    apply wp_if; intros _; [|apply wp_if; intros _].
    + apply (consume_0f38_ok (len + 1 + 1)); [done|lia|done].
    + apply (consume_0f3a_ok (len + 1 + 1)); [done|lia|done].
    + apply wp_bind, wp_the_state, wp_ret. exists (len + 1 + 1). split; [done|]. apply consume_0f_ok; [lia|done].
  - apply wp_if; intros Hx; zbool.
    + apply (consume_x87_ok (len + 1)); simpl; [done|lia|done|lia].
    + apply wp_ret. exists (len + 1). split; [done|]. opcode_read.
Qed.

(** ** Trying a pattern *)

(** The result of a requirement: the fields are fine when it is met. *)
Definition tried (len : Z) (b : bool) (d : Decoding) : Prop :=
  exists len', decoding len' d /\ len <= len' /\ has_pattern (state_of d) /\ (b = true -> fields_ok (state_of d)).

Definition requirement (c : Dec bool) : Prop :=
  forall len d, decoding len d -> fields_ok (state_of d) -> has_pattern (state_of d) -> wp stops c (tried len) d.

Lemma tried_intro len b d :
  decoding len d -> has_pattern (state_of d) -> (b = true -> fields_ok (state_of d)) -> tried len b d.
Proof using. intros. exists len. split_and!; [done|lia|done|done]. Qed.

Lemma tried_more len len' b d : tried len' b d -> len <= len' -> tried len b d.
Proof using. intros (k & ? & ? & ? & ?) Hl. exists k. split_and!; [done|lia|done|done]. Qed.

Lemma decoding_fields len d (f : NaClInstState -> NaClInstState) :
  decoding len d -> bytes (f (state_of d)) = bytes (state_of d) ->
  length_limit (f (state_of d)) = length_limit (state_of d) ->
  num_prefix_bytes (f (state_of d)) = num_prefix_bytes (state_of d) ->
  inst_addr (f (state_of d)) = inst_addr (state_of d) ->
  unchanged (f (state_of d)) = unchanged (state_of d) -> nodes (f (state_of d)) = nodes (state_of d) ->
  decoding len (d <| state_of := f (state_of d) |>).
Proof using. intros Hd ? ? Hp ? ? Hn. apply decoding_set; try done; [rewrite Hp|rewrite Hn]; apply Hd. Qed.

Lemma op_size_nonneg s i : 0 <= NaClExtractOpSize s i.
Proof using HLdef HL Hlim. unfold NaClExtractOpSize. repeat case_match; lia. Qed.

Lemma operand_size_ok : requirement NaClConsumeAndCheckOperandSize.
Proof using HLdef HL Hlim.
  intros len d Hd ((Hf1 & Hf2) & _) Hp. unfold NaClConsumeAndCheckOperandSize.
  apply wp_bind, wp_the_inst; [done|]. intros i _. apply wp_bind, wp_set_state, wp_bind, wp_the_state.
  assert (Ht : forall b, tried len b (d <| state_of := (state_of d) <| operand_size := NaClExtractOpSize (state_of d) i |> |>)).
  { intros b. apply tried_intro; [by apply (decoding_fields _ _ (fun s => s <| operand_size := NaClExtractOpSize s i |>))|done|].
    intros _. pose proof (op_size_nonneg (state_of d) i). fields. }
  apply wp_if; intros _; apply wp_ret; apply Ht.
Qed.

Lemma address_size_ok : requirement NaClConsumeAndCheckAddressSize.
Proof using.
  intros len d Hd Hf Hp. unfold NaClConsumeAndCheckAddressSize.
  apply wp_bind, wp_the_inst; [done|]. intros i _. apply wp_bind, wp_set_state, wp_bind, wp_the_state.
  assert (Ht : forall b, tried len b (d <| state_of := (state_of d) <| address_size := NaClExtractAddressSize (state_of d) |> |>)).
  { intros b. apply tried_intro; [by apply (decoding_fields _ _ (fun s => s <| address_size := NaClExtractAddressSize s |>))|done|].
    intros _. apply Hf. }
  apply wp_if; intros _; apply wp_ret; apply Ht.
Qed.

Lemma only_read_ok d d' : only_read d d' ->
  (fields_ok (state_of d) -> fields_ok (state_of d')) /\ (has_pattern (state_of d) -> has_pattern (state_of d')).
Proof using. unfold only_read, fields_ok, positions_ok, has_pattern. intros ->. done. Qed.

Lemma modrm_ok : requirement (NaClConsumeModRm ram).
Proof using HLdef HL Hlim.
  intros len d Hd Hf Hp. unfold NaClConsumeModRm. apply wp_bind, wp_the_inst; [done|]. intros i _.
  assert (Hstay : forall b, tried len b d) by (intros; by apply tried_intro).
  apply wp_if; intros _; [by apply wp_ret|]. apply wp_bind, wp_get.
  apply (wp_more len); [done|intros _; by apply wp_ret|intros Hlt]. cbv zeta.
  apply wp_if; intros _; [by apply wp_ret|]. apply wp_if; intros _; [by apply wp_ret|].
  apply wp_bind, (wp_ReadByte len); [done..|]. intros d' Hd' [Hf' Hp']%only_read_ok.
  apply wp_bind, wp_set_state. set (f := fun s : NaClInstState => _).
  assert (Ht : forall b, tried len b (d' <| state_of := f (state_of d') |>)).
  { intros b. apply (tried_more _ (len + 1)); [|lia]. apply tried_intro; [by apply decoding_fields|by apply Hp'|].
    intros _. specialize (Hf' Hf). subst f. fields. }
  repeat (apply wp_if; intros _); apply wp_ret; apply Ht.
Qed.

Lemma sib_ok : requirement (NaClConsumeSib ram).
Proof using HLdef HL Hlim.
  intros len d Hd Hf Hp. unfold NaClConsumeSib. apply wp_bind, wp_the_inst; [done|]. intros i _.
  apply wp_bind, wp_set_state, wp_bind, wp_the_state.
  match goal with |- wp _ _ _ ?x => set (d1 := x) end.
  assert (Hd1 : decoding len d1) by (destruct Hd; by split).
  apply wp_if; intros _; [|apply wp_ret; by apply tried_intro].
  apply (wp_more len); [done|intros _; apply wp_ret; by apply tried_intro|intros Hlt].
  apply wp_bind, (wp_ReadByte len); [done..|]. intros d' Hd' [Hf' Hp']%only_read_ok.
  apply wp_bind, wp_set_state, wp_ret. apply (tried_more _ (len + 1)); [|lia].
  apply tried_intro; [by apply (decoding_fields _ _ (fun s => s <| sib := ram (base + len) |>))|by apply Hp'|].
  intros _. by apply Hf'.
Qed.

Lemma num_disp_nonneg s i : 0 <= NaClGetNumDispBytes s i.
Proof using HLdef HL Hlim. unfold NaClGetNumDispBytes. repeat case_match; lia. Qed.

Lemma disp_ok : requirement (NaClConsumeDispBytes ram).
Proof using HLdef HL Hlim.
  intros len d Hd Hf Hp. pose proof (decoding_bounds _ _ Hd) as [H0 Hb]. pose proof (dg_limit _ _ Hd) as HLd.
  pose proof (dg_len _ _ Hd).
  unfold NaClConsumeDispBytes. apply wp_bind, wp_the_inst; [done|]. intros i _.
  apply wp_bind, wp_set_state, wp_bind, wp_the_state.
  match goal with |- wp _ _ _ ?x => set (d1 := x) end.
  assert (Hd1 : decoding len d1) by (destruct Hd; by split).
  assert (Hn : 0 <= num_disp_bytes (state_of d1)) by apply num_disp_nonneg.
  assert (Hfirst : first_disp_byte (state_of d1) = len) by done.
  apply wp_if; intros Hpos; zbool.
  2: { apply wp_ret, tried_intro; [done|done|]. intros _. fields. }
  apply wp_if; intros Hfit; zbool; [by apply wp_ret, tried_intro|].
  change (blength (bytes (state_of d)) + num_disp_bytes (state_of d1) <= length_limit (state_of d)) in Hfit.
  apply wp_bind, wp_set_state.
  match goal with |- wp _ _ _ ?x => set (d2 := x) end.
  assert (Hd2 : decoding len d2) by (destruct Hd1; by split).
  apply wp_bind, (wp_ReadBytes len); [done|done|lia|]. intros d' Hd' [Hf' Hp']%only_read_ok. apply wp_ret.
  apply (tried_more _ (len + num_disp_bytes (state_of d1))); [|lia].
  apply tried_intro; [done|by apply Hp'|]. intros _. apply Hf'. fields.
Qed.

Lemma num_imm_nonneg s i : 0 <= operand_size s -> 0 <= NaClGetNumImmedBytes s i.
Proof using. intros. unfold NaClGetNumImmedBytes, NaClExtractAddressSize. repeat case_match; try done; lia. Qed.

Lemma num_imm2_nonneg i : 0 <= NaClGetNumImmed2Bytes i.
Proof using HLdef HL Hlim. unfold NaClGetNumImmed2Bytes. repeat case_match; lia. Qed.

(** The second immediate follows the first. *)
Lemma immediate2_ok len d :
  decoding len d -> has_pattern (state_of d) ->
  (forall n, 0 <= n -> len + n <= L -> fields_ok ((state_of d) <| num_imm2_bytes := n |>)) ->
  wp stops (ConsumeImmediate2 ram) (tried len) d.
Proof using HLdef HL Hlim.
  intros Hd Hp Hf. pose proof (decoding_bounds _ _ Hd) as [H0 Hb]. pose proof (dg_limit _ _ Hd) as HLd.
  pose proof (dg_len _ _ Hd).
  unfold ConsumeImmediate2. apply wp_bind, wp_the_inst; [done|]. intros i _.
  apply wp_bind, wp_set_state, wp_bind, wp_the_state.
  match goal with |- wp _ _ _ ?x => set (d1 := x) end.
  assert (Hd1 : decoding len d1) by (destruct Hd; by split). pose proof (num_imm2_nonneg i) as Hn.
  change (num_imm2_bytes (state_of d1)) with (NaClGetNumImmed2Bytes i).
  apply wp_if; intros Hpos; zbool.
  2: { apply wp_ret, tried_intro; [done|done|]. intros _. apply Hf; lia. }
  apply wp_if; intros Hfit; zbool; [by apply wp_ret, tried_intro|].
  change (blength (bytes (state_of d)) + NaClGetNumImmed2Bytes i <= length_limit (state_of d)) in Hfit.
  apply wp_bind, (wp_ReadBytes len); [done|done|lia|]. intros d' Hd' [Hf' Hp']%only_read_ok. apply wp_ret.
  apply (tried_more _ (len + NaClGetNumImmed2Bytes i)); [|lia].
  apply tried_intro; [done|by apply Hp'|]. intros _. apply Hf', Hf; lia.
Qed.

Lemma immediate_ok : requirement (NaClConsumeImmediateBytes ram).
Proof using HLdef HL Hlim.
  intros len d Hd ((Hfd & Hfi) & Hfo) Hp. pose proof (decoding_bounds _ _ Hd) as [H0 Hb]. pose proof (dg_limit _ _ Hd) as HLd.
  pose proof (dg_len _ _ Hd).
  unfold NaClConsumeImmediateBytes. apply wp_bind, wp_the_inst; [done|]. intros i _.
  apply wp_bind, wp_set_state, wp_bind, wp_the_state.
  match goal with |- wp _ _ _ ?x => set (d1 := x) end.
  assert (Hd1 : decoding len d1) by (destruct Hd; by split). pose proof (num_imm_nonneg (state_of d) i Hfo) as Hn.
  change (num_imm_bytes (state_of d1)) with (NaClGetNumImmedBytes (state_of d) i).
  apply wp_if; intros Hpos; zbool.
  2: { apply immediate2_ok; [done|done|]. intros n Hn0 Hn1. fields. }
  apply wp_if; intros Hfit; zbool; [by apply wp_ret, tried_intro|].
  change (blength (bytes (state_of d)) + NaClGetNumImmedBytes (state_of d) i <= length_limit (state_of d)) in Hfit.
  apply wp_bind, wp_set_state.
  match goal with |- wp _ _ _ ?x => set (d2 := x) end.
  assert (Hd2 : decoding len d2) by (destruct Hd1; by split).
  apply wp_bind, (wp_ReadBytes len); [done|done|lia|]. intros d' Hd' Hor.
  eapply wp_mono; [apply (immediate2_ok (len + NaClGetNumImmedBytes (state_of d) i)); [done|by apply (only_read_ok _ _ Hor)|]|].
  - intros n Hn0 Hn1. unfold only_read in Hor. rewrite Hor. fields.
  - intros b d'' Ht. apply (tried_more _ _ _ _ Ht). lia.
Qed.

Lemma wp_exp_vector len d Q :
  decoding len d -> fields_ok (state_of d) -> has_pattern (state_of d) ->
  (forall v d', decoding len d' -> fields_ok (state_of d') -> has_pattern (state_of d') -> Q v d') ->
  wp stops (on_state (NaClInstStateExpVector tables)) Q d.
Proof using.
  intros Hd Hf Hp HQ. apply wp_zoom. eapply wp_mono; [apply (exp_vector_ok tables), (operands_ok_intro len); [done|apply Hf|done]|].
  simpl. intros v s ((He & _) & Hs). apply HQ; unfold same_but_nodes in He; rewrite He; try done.
  apply (decoding_set _ _ (fun x => x <| nodes := nodes s |>)); try done; [apply Hd|apply Hs].
Qed.

Lemma prefix_flags_ok : requirement (NaClValidatePrefixFlags tables).
Proof using.
  intros len d Hd Hf Hp. unfold NaClValidatePrefixFlags. apply wp_bind, wp_the_inst; [done|]. intros i _.
  apply wp_bind, wp_the_state. apply wp_bind.
  assert (Hrest : forall b d', decoding len d' -> fields_ok (state_of d') -> has_pattern (state_of d') ->
    wp stops (if negb b then mret false else
      if NaClHasBit (prefix_mask (state_of d)) kPrefixREX then
        mret (negb ((has_iflag i OpcodeUsesRexW && negb (NaClHasBit (rexprefix (state_of d)) 8)) ||
                (has_iflag i OpcodeHasRexR && negb (NaClHasBit (rexprefix (state_of d)) 4))))
      else mret true) (tried len) d').
  { intros b d' ? ? ?. repeat (apply wp_if; intros _); by apply wp_ret, tried_intro. }
  apply wp_if; intros _; [|by apply wp_ret, Hrest]. apply wp_if; intros _; [|by apply wp_ret, Hrest].
  apply wp_bind, (wp_exp_vector len); [done..|]. intros v d' ? ? ?. by apply wp_ret, Hrest.
Qed.

Lemma requirement_and c1 c2 :
  requirement c1 -> requirement c2 -> requirement (ok ← c1; if negb ok then mret false else c2).
Proof using.
  intros H1 H2 len d Hd Hf Hp. apply wp_bind. eapply wp_mono; [by apply H1|]. simpl.
  intros b d' (len' & Hd' & Hl & Hp' & Hf'). destruct b; simpl.
  - eapply wp_mono; [apply (H2 len'); auto|]. intros b' d'' Ht. by apply (tried_more _ _ _ _ Ht).
  - apply wp_ret. exists len'. done.
Qed.

Lemma match_ok : requirement (MatchPattern ram tables).
Proof using HLdef HL Hlim.
  unfold MatchPattern. repeat apply requirement_and; auto using operand_size_ok, address_size_ok, modrm_ok, sib_ok,
    disp_ok, immediate_ok, prefix_flags_ok.
Qed.

(** ** Going back *)

Lemma clear_ok len d n Q :
  decoding len d -> 0 <= n <= L ->
  (forall d', decoding n d' -> fields_ok (state_of d') -> Q tt d') -> wp stops (NaClClearInstState ram n) Q d.
Proof using HLdef HL Hlim.
  intros Hd Hn HQ. unfold NaClClearInstState. apply wp_bind, wp_the_state, wp_bind.
  assert (Hrest : forall d', decoding n d' -> wp stops (set_state (fun s =>
    s <| modrm := 0 |> <| has_sib := false |> <| sib := 0 |> <| num_disp_bytes := 0 |> <| first_disp_byte := 0 |>
      <| num_imm_bytes := 0 |> <| first_imm_byte := 0 |> <| num_imm2_bytes := 0 |>
      <| operand_size := 32 |> <| address_size := 32 |>
      <| nodes := (nodes s) <| is_defined := false |> <| number_expr_nodes := 0 |> |>)) Q d').
  { intros d' Hd'. apply wp_set_state. apply HQ.
    - destruct Hd' as [? ? ? ? ? ? [? ?]]. by split.
    - fields. }
  apply wp_if; intros Hb; zbool.
  - apply wp_ret, Hrest. rewrite (proj2 (decoding_bounds _ _ Hd)) in Hb. by rewrite <- Hb.
  - apply wp_bind, (wp_ResetBytes len); [done|]. intros d1 Hd1 _.
    apply (wp_ReadBytes 0); [done|lia|lia|]. intros d2 Hd2 _. by apply Hrest.
Qed.

Lemma reset_ok len d Q :
  decoding len d ->
  (forall d', decoding 0 d' -> positions_ok (state_of d') -> Q tt d') ->
  wp stops (NaClResetInstState ram) Q d.
Proof using HLdef HL Hlim.
  intros Hd HQ. unfold NaClResetInstState. apply wp_bind, wp_the_state, wp_bind.
  match goal with |- wp _ _ (fun _ => wp _ ?c _) _ =>
    assert (Hrest : forall d', decoding 0 d' -> wp stops c Q d') end.
  { intros d' Hd'. apply wp_set_state. apply HQ.
    - destruct Hd' as [? ? ? ? ? ? [? ?]]. by split.
    - fields. }
  apply wp_if; intros Hb; zbool.
  - apply (wp_ResetBytes len); [done|]. intros d1 Hd1 _. by apply Hrest.
  - apply wp_ret, Hrest. pose proof (decoding_bounds _ _ Hd) as [H0 Hbl]. rewrite Hbl in Hb.
    by replace 0 with len by lia.
Qed.

(** ** Hard coded sequences *)

(** The decoded instruction can be translated. *)
Definition translatable (s : NaClInstState) : Prop :=
  exists p, inst s = Some p /\ pattern_ok tables (inst_at p) /\ (positions_ok s \/ num_operands (inst_at p) = 0).

Definition decoded (d : Decoding) : Prop :=
  exists len, decoding len d /\ translatable (state_of d) /\ (0 < L -> 0 < len).

Lemma inst_byte_ok len d n (Q : Z -> Prop) :
  decoding len d -> 0 <= n -> (forall b, (n = 0 -> 0 < L \/ b = 0) -> Q b) ->
  wpo stops (NCInstByteInline ram (bytes (state_of d)) (memory_of d) n) Q.
Proof using HLdef HL Hlim.
  intros Hd Hn HQ. pose proof (dg_read _ _ Hd) as [Hpc Hpos Hl Hlen _ _ Hsz [Hr1 Hr2] _]. pose proof (dg_len _ _ Hd).
  unfold NCInstByteInline. unfold MAX_INST_LENGTH in *. rewrite Hlen. case_match; zbool.
  - destruct (index_ok (byte (bytes (state_of d))) n) as [b Hb]; [rewrite Hsz; lia|]. rewrite Hb. apply HQ. lia.
  - simpl. apply HQ. unfold NCRemainingMemoryLookaheadInline, NC_MEMORY_OVERFLOW. rewrite Hpos, Hl.
    case_match; zbool; lia.
Qed.

(** The longest sequence found so far. *)
Definition found_ok (r : option InstPtr * Z) : Prop :=
  match r.1 with Some p => ptr_ok tables p /\ 1 <= r.2 <= L | None => True end.

(** A link of the trie leads to a later node. *)
Definition link_at (fuel : nat) (next : option Z) : Prop :=
  match next with
  | Some k => 0 <= k < Z.of_nat (length (hard_coded tables)) /\ Z.of_nat (length (hard_coded tables)) <= k + Z.of_nat fuel
  | None => True
  end.

Lemma link_ok_at fuel k next :
  0 <= k -> Z.of_nat (length (hard_coded tables)) <= k + Z.of_nat (S fuel) -> link_ok tables k next = true ->
  link_at fuel next.
Proof using HLdef HL Hlim. unfold link_ok, link_at. destruct next; [|done]. intros. zbool. lia. Qed.

Lemma hard_coded_loop_ok fuel next b n r len d :
  decoding len d -> 0 <= n < L -> link_at fuel next -> found_ok r ->
  wp stops (HardCoded_loop ram tables fuel next b n r) (fun r' d' => d' = d /\ found_ok r') d.
Proof using All.
  intros Hd. pose proof (dg_limit _ _ Hd) as HLd. revert next b n r.
  induction fuel as [|fuel IH]; intros next b n r Hn Hlink Hr; destruct next as [k|]; simpl; try (by apply wp_ret).
  { destruct Hlink. lia. }
  destruct Hlink as [Hk Hf]. apply wp_bind, wp_get, wp_bind, wp_lift.
  destruct (index_ok (hard_coded tables) k) as [nd Hnd]; [lia|]. rewrite Hnd. simpl.
  pose proof (hard_coded_node tables Hok _ _ Hnd) as Hno. unfold node_ok in Hno. zbool.
  apply wp_if; intros Hmatch; zbool.
  - apply wp_bind.
    assert (Hnext : forall r', found_ok r' ->
      wp stops (if n + 1 <? length_limit (state_of d) then
        match on_success nd with
        | Some k' => b' ← lift (NCInstByteInline ram (bytes (state_of d)) (memory_of d) (n + 1));
                     HardCoded_loop ram tables fuel (Some k') b' (n + 1) r'
        | None => mret r' end else mret r') (fun r' d' => d' = d /\ found_ok r') d).
    { intros r' Hr'. apply wp_if; intros Hlt; zbool; [|by apply wp_ret].
      destruct (on_success nd) as [k'|] eqn:Hs; [|by apply wp_ret]. apply wp_bind, wp_lift.
      eapply inst_byte_ok; [done|lia|]. intros b' _. apply IH; [lia| |done].
      eapply link_ok_at; [| |done]; lia. }
    apply wp_if; intros Hnull; [by apply wp_ret, Hnext|]. apply wp_bind, wp_lift.
    eapply wpo_mono; [by apply get_opcode_ok|]. intros [p|] Hp; apply wp_ret, Hnext; [|done].
    split; [by apply Hp|simpl; lia].
  - apply wp_if; intros Hlt; zbool; [|by apply wp_ret]. apply IH; [done| |done].
    eapply link_ok_at; [| |done]; lia.
Qed.

Lemma hard_coded_start_ok len d b :
  decoding len d -> 0 < L \/ b = 0 ->
  wp stops (HardCoded_loop ram tables (S (length (hard_coded tables))) (Some 0) b 0 (None, 0))
    (fun r d' => d' = d /\ found_ok r) d.
Proof using All.
  intros Hd Hb. pose proof Hok as Ht. unfold tables_ok in Ht. zbool.
  destruct (hard_coded tables) as [|n0 l] eqn:Hh; [done|]. destruct Hb as [Hb| ->].
  - rewrite <- Hh. apply (hard_coded_loop_ok _ _ _ _ _ len); [done|lia| |done]. simpl. rewrite Hh. simpl length. lia.
  - cbn [HardCoded_loop]. apply wp_bind, wp_get, wp_bind, wp_lift. rewrite Hh. simpl. zbool.
    destruct (matching_byte n0) eqn:Hm; [lia| |lia]. by apply wp_ret.
Qed.

Lemma hard_coded_nop_ok len d :
  decoding len d ->
  wp stops (NaClConsumeHardCodedNop ram tables) (fun b d' => if (b : bool) then decoded d' else d' = d) d.
Proof using All.
  intros Hd. unfold NaClConsumeHardCodedNop. apply wp_bind, wp_get, wp_bind, wp_lift.
  eapply inst_byte_ok; [done|lia|]. intros b Hb. specialize (Hb eq_refl). apply wp_bind.
  eapply wp_mono; [apply (hard_coded_start_ok len); done|].
  intros [[p|] n] d' [-> Hf]; simpl; [|by apply wp_ret]. destruct Hf as [Hp Hn]. simpl in Hn.
  apply wp_bind, (reset_ok len); [done|]. intros d1 Hd1 Hpos. apply wp_bind, wp_set_state.
  match goal with |- wp _ _ _ ?x => set (d2 := x) end.
  assert (Hd2 : decoding 0 d2) by (destruct Hd1; by split).
  apply wp_bind, (wp_ReadBytes 0); [done|lia|lia|]. intros d3 Hd3 Hor. apply wp_ret.
  exists (0 + n). split; [done|]. split; [|lia]. unfold only_read in Hor. rewrite Hor.
  exists p. split_and!; [done|apply Hp|by left].
Qed.

(** ** Candidates *)

Lemma maybe_nop_ok len d :
  decoding len d -> (num_opcode_bytes (state_of d) = 2 -> num_prefix_bytes (state_of d) + 2 <= 15) ->
  wpo stops (NaClMaybeHardCodedNop (state_of d)) (fun _ => True).
Proof using HLdef HL Hlim.
  intros Hd H2. pose proof (dg_prefix _ _ Hd). pose proof (rd_size _ _ _ _ _ _ (dg_read _ _ Hd)) as Hsz.
  unfold NaClMaybeHardCodedNop. apply wpo_bind, wpo_index; [rewrite Hsz; lia|]. intros b.
  repeat case_match; zbool; try done. apply wpo_bind, wpo_index; [rewrite Hsz; lia|done].
Qed.

Lemma finish_ok len d n prefix :
  decoding len d -> fields_ok (state_of d) -> has_pattern (state_of d) -> 1 <= n <= len ->
  wp stops (FinishMatch ram tables n prefix) (fun _ => decoded) d.
Proof using All.
  intros Hd [Hpos _] Hp Hn. pose proof (dg_len _ _ Hd) as Hlen. unfold FinishMatch.
  apply wp_bind, wp_the_inst; [done|]. intros i _. apply wp_bind, wp_the_state, wp_bind.
  match goal with |- wp _ _ (fun _ => wp _ ?c _) _ => assert (Hrest : forall d', decoding len d' ->
    positions_ok (state_of d') -> has_pattern (state_of d') -> wp stops c (fun _ => decoded) d') end.
  { clear d Hd Hpos Hp. intros d Hd Hpos Hp. apply wp_bind, wp_set_state, wp_bind, wp_the_state.
    match goal with |- wp _ _ _ ?x => set (d1 := x) end.
    assert (Hd1 : decoding len d1) by (destruct Hd; by split).
    assert (Hdone : decoded d1).
    { exists len. split; [done|]. split; [|lia]. destruct Hp as (p & ? & ?). exists p. split_and!; [done|done|by left]. }
    apply wp_bind, wp_lift. eapply wpo_mono; [apply (maybe_nop_ok len); [done|]|].
    { change (u8 (n - num_prefix_bytes (state_of d)) = 2 -> num_prefix_bytes (state_of d) + 2 <= 15).
      pose proof (dg_prefix _ _ Hd). unfold u8. intros Hu.
      pose proof (Z.div_mod (n - num_prefix_bytes (state_of d)) 256). lia. }
    intros nop _. apply wp_if; intros _; [|by apply wp_ret]. apply wp_bind.
    eapply wp_mono; [by apply (hard_coded_nop_ok len)|]. intros [] d' Hd'; apply wp_ret; [done|by rewrite Hd']. }
  apply wp_if; intros Hc; zbool; [|by apply wp_ret, Hrest]. apply wp_bind, wp_lift.
  apply wpo_index; [rewrite (rd_size _ _ _ _ _ _ (dg_read _ _ Hd)); fields|]. intros b. apply wp_bind, wp_lift.
  eapply wpo_mono; [apply (get_prefix_opcode_ok tables Hok); lia|]. intros [q|] Hq; [|by apply wp_ret, Hrest].
  apply wp_set_state, Hrest; [destruct Hd; by split|done|]. exists q. split; [done|apply Hq].
Qed.

Lemma candidates_ok fuel cand n prefix len d :
  decoding len d -> 1 <= n <= L ->
  match cand with Some p => ptr_ok tables p /\ inst_offset p < Z.of_nat fuel | None => True end ->
  wp stops (Candidates_loop ram tables fuel cand n prefix)
    (fun b d' => if (b : bool) then decoded d' else exists len', decoding len' d') d.
Proof using All.
  revert cand len d. induction fuel as [|fuel IH]; intros cand len d Hd Hn Hc; destruct cand as [p|]; simpl;
    try (apply wp_ret; by exists len).
  { destruct Hc as [(_ & ? & _) ?]. lia. }
  destruct Hc as [Hp Hf]. apply wp_bind, (clear_ok len); [done|lia|]. intros d1 Hd1 Hf1. apply wp_bind, wp_set_state.
  match goal with |- wp _ _ _ ?x => set (d2 := x) end.
  assert (Hd2 : decoding n d2) by (destruct Hd1; by split). apply wp_bind.
  eapply wp_mono; [apply (match_ok n); [done|done|exists p; split; [done|apply Hp]]|].
  intros b d3 (len3 & Hd3 & Hl3 & Hp3 & Hf3). apply wp_if; intros Hb.
  - apply wp_bind. eapply wp_mono; [apply (finish_ok len3); [done|auto|done|lia]|]. intros u d4 Hd4. by apply wp_ret.
  - apply wp_bind, wp_lift. eapply wpo_mono; [by apply (next_rule_ok tables Hok)|]. intros q Hq.
    apply (IH q len3); [done|done|]. destruct q as [q|]; [|done]. split; [apply Hq|]. destruct Hq. lia.
Qed.

(** A list that is about to be tried: an x87 instruction is tried once more as
    a plain one, with one byte less. *)
Definition list_ok (desc : NaClInstPrefixDescriptor) (n : Z) : Prop :=
  0 <= matched_prefix desc <= NaClInstPrefixEnumSize /\
  (matched_prefix desc <> NaClInstPrefixEnumSize -> 1 <= n <= L) /\
  (PrefixD8 <= matched_prefix desc <= PrefixDF -> 2 <= n) /\
  (next_length_adjustment desc = 0 \/
   next_length_adjustment desc = 255 /\
     (matched_prefix desc = NoPrefix /\ 2 <= n \/ matched_prefix desc = NaClInstPrefixEnumSize)).

Lemma next_descriptor_ok desc n :
  matched_prefix desc <> NaClInstPrefixEnumSize -> 1 <= n <= L ->
  list_ok desc n -> next_length_adjustment desc = 0 ->
  list_ok (next_descriptor desc) n /\ (lists_left (next_descriptor desc) < lists_left desc)%nat.
Proof using HLdef HL Hlim.
  intros Hne Hn (Hp & _ & Hx & _) H0. unfold list_ok, next_descriptor, lists_left.
  destruct (matched_prefix desc =? Prefix660F) eqn:E1; zbool; [rewrite E1; simpl; lia|].
  destruct (matched_prefix desc =? Prefix660F38) eqn:E2; zbool; [rewrite E2; simpl; lia|].
  destruct (matched_prefix desc =? Prefix660F3A) eqn:E3; zbool; [rewrite E3; simpl; lia|].
  destruct ((PrefixD8 <=? matched_prefix desc) && (matched_prefix desc <=? PrefixDF)) eqn:E4; zbool; simpl.
  - destruct (_ =? NaClInstPrefixEnumSize) eqn:E5; zbool; [lia|]. lia.
  - destruct (_ =? NaClInstPrefixEnumSize) eqn:E5; zbool; lia.
Qed.

Lemma next_candidates_ok desc n len d :
  decoding len d -> list_ok desc n -> matched_prefix desc <> NaClInstPrefixEnumSize ->
  wp stops (NaClGetNextInstCandidates tables desc n)
    (fun r d' => d' = d /\ 1 <= r.2 <= L /\ match r.1.1 with Some p => ptr_ok tables p | None => True end /\
       list_ok r.1.2 r.2 /\ (lists_left r.1.2 < lists_left desc)%nat) d.
Proof using All.
  intros Hd Hlist Hne. pose proof Hlist as (Hp & Hn & Hx & Hadj). specialize (Hn Hne).
  pose proof (rd_size _ _ _ _ _ _ (dg_read _ _ Hd)) as Hsz.
  unfold NaClGetNextInstCandidates. apply wp_bind, wp_the_state, wp_bind.
  assert (Hlook : forall b Q, (forall c, match c with Some p => ptr_ok tables p | None => True end -> Q c d) ->
    wp stops (lift (NaClGetPrefixOpcodeInst tables (matched_prefix desc) b)) Q d).
  { intros b Q HQ. apply wp_lift. eapply wpo_mono; [apply (get_prefix_opcode_ok tables Hok); lia|]. exact HQ. }
  destruct Hadj as [H0|(H255 & [[Hno H2]|He])]; [| |done].
  - rewrite H0. simpl. apply wp_ret, wp_bind, Hlook. intros c Hc. apply wp_ret. simpl.
    destruct (next_descriptor_ok desc n) as [? ?]; done.
  - rewrite H255. simpl. assert (Hu : u8 (n + 255) = n - 1).
    { unfold u8. replace (n + 255) with (n - 1 + 1 * 256) by lia. rewrite Z_mod_plus_full, Z.mod_small; lia. }
    rewrite Hu. apply wp_bind, wp_lift, wpo_index; [rewrite Hsz; lia|]. intros b.
    apply wp_ret, wp_bind. simpl matched_prefix. apply Hlook. intros c Hc. apply wp_ret. simpl.
    unfold list_ok, next_descriptor, lists_left. simpl. rewrite Hno. simpl. split_and!; try done; try lia.
Qed.

Lemma decode_loop_ok fuel desc n len d :
  decoding len d -> list_ok desc n -> (lists_left desc <= fuel)%nat ->
  wp stops (DecodeInst_loop ram tables fuel desc n)
    (fun b d' => if (b : bool) then decoded d' else exists len', decoding len' d') d.
Proof using All.
  revert desc n len d. induction fuel as [|fuel IH]; intros desc n len d Hd Hlist Hf; cbn [DecodeInst_loop].
  - destruct (_ =? _) eqn:He; zbool; [apply wp_ret; by exists len|].
    exfalso. unfold lists_left in Hf. destruct (_ =? _) eqn:He'; zbool; [done|]. case_match; lia.
  - apply wp_if; intros He; zbool; [apply wp_ret; by exists len|].
    apply wp_bind. eapply wp_mono; [by apply (next_candidates_ok desc n len)|].
    intros [[c desc'] n'] d' (-> & Hn' & Hc & Hlist' & Hlt). cbn [fst snd] in *. apply wp_bind.
    eapply wp_mono; [apply (candidates_ok _ c n' _ len); [done|done|]|].
    { destruct c as [p|]; [|done]. split; [done|]. pose proof (ptr_offset_bound tables p Hc). lia. }
    intros [] d' Hd'; cbn iota; [by apply wp_ret|]. destruct Hd' as [len' Hd']. apply (IH _ _ len'); [done|done|lia].
Qed.

Lemma lists_left_two desc : (lists_left desc <= 2)%nat.
Proof using. unfold lists_left. repeat case_match; clear; lia. Qed.

Lemma inst_at_end len d :
  decoding len d ->
  wp stops (if (blength (bytes (state_of d)) =? 0) && (blength (bytes (state_of d)) <? length_limit (state_of d))
            then _ ← ReadByte ram; mret tt else mret tt)
    (fun _ d' => exists len', decoding len' d' /\ inst (state_of d') = inst (state_of d) /\ (0 < L -> 0 < len')) d.
Proof using HLdef HL Hlim.
  intros Hd. pose proof (decoding_bounds _ _ Hd) as [H0 Hb]. rewrite Hb, (dg_limit _ _ Hd). apply wp_if; intros Hc; zbool.
  - apply wp_bind, (wp_ReadByte len); [done..|]. intros d' Hd' Hor. apply wp_ret. exists (len + 1).
    unfold only_read in Hor. rewrite Hor. split_and!; [done|done|lia].
  - apply wp_ret. exists len. split_and!; [done|done|]. apply andb_false_iff in Hc as [Hc|Hc]; zbool; lia.
Qed.

End Decoding.

(** ** The whole decoder *)

Section Decode.
Variable ram : memory.
Variable tables : NaClDecodeTables.
Context (Hbytes : forall x, is_byte (ram x)) (Hok : tables_ok tables = true).

(** The instruction at [addr] of a segment of [size] bytes; the memory is at
    the end of the instruction before. *)
Record at_position (lim base addr size : Z) (memory : NCRemainingMemory) : Prop := {
  ap_pos : cur_pos memory = base;
  ap_lim : mlimit memory = lim;
  ap_next : next_byte memory = NCRemainingMemoryPeekInline ram memory;
  ap_size : 0 <= addr <= size /\ size < two64 /\ base - addr = lim - size;
}.

Lemma init_ok lim base addr size d :
  at_position lim base addr size (memory_of d) -> vector_ok (nodes (state_of d)) ->
  wp stops (NaClInstStateInit addr size)
    (fun _ d' => decoding ram lim base (Z.min 15 (lim - base)) addr 0 d' /\ num_prefix_bytes (state_of d') = 0) d.
Proof using.
  intros [Hp Hl Hn (Ha & Hs & Hb)] [Hv1 Hv2]. apply wp_modify. simpl.
  assert (Hlimit : u8 (if NACL_MAX_BYTES_PER_X86_INSTRUCTION <? u64 (size - addr) then NACL_MAX_BYTES_PER_X86_INSTRUCTION
    else u64 (size - addr)) = Z.min 15 (lim - base)).
  { rewrite u64_small by zlia. change NACL_MAX_BYTES_PER_X86_INSTRUCTION with 15. unfold u8.
    case_match; zbool; rewrite Z.mod_small; lia. }
  split; [|done]. split; simpl; try done.
  - split; simpl; try done; unfold MAX_INST_LENGTH; try lia.
  - lia.
Qed.

(** The instruction that was decoded: [len] bytes at [base]. *)
Record decoded_at (lim base addr : Z) (len : Z) (s : NaClInstState) (memory : NCRemainingMemory) : Prop := {
  da_read : reading ram lim base len (bytes s) memory;
  da_len : len <= Z.min 15 (lim - base) /\ (base < lim -> 0 < len);
  da_addr : inst_addr s = addr;
  da_unchanged : unchanged s = false;
  da_nodes : vector_ok (nodes s);
  da_prefix : 0 <= num_prefix_bytes s <= 14;
  da_inst : translatable tables s;
}.

Lemma decode_ok lim base addr size d :
  at_position lim base addr size (memory_of d) -> vector_ok (nodes (state_of d)) ->
  wp stops (NaClDecodeInst ram tables addr size)
    (fun _ d' => exists len, decoded_at lim base addr len (state_of d') (memory_of d')) d.
Proof using All.
  intros Hat Hv. unfold NaClDecodeInst. apply wp_bind. eapply wp_mono; [by apply (init_ok lim base)|].
  intros _ d1 (Hd1 & Hnp). pose proof (ap_size _ _ _ _ _ Hat) as (? & ? & ?).
  set (L := Z.min 15 (lim - base)) in *. assert (HL : 0 <= L <= 15) by lia. assert (Hlim : base + L <= lim) by lia.
  assert (Hdone : forall d', decoded ram tables lim base L addr d' ->
    exists len, decoded_at lim base addr len (state_of d') (memory_of d')).
  { intros d' (len & [] & Ht & Hpos). exists len. split; try done. split; [done|]. intros. apply Hpos. lia. }
  apply wp_bind. unfold NaClConsumePrefixBytes. apply wp_bind.
  eapply wp_mono; [apply (prefix_loop_ok ram tables Hbytes Hok lim base L addr eq_refl HL Hlim _ 0); [done|done|by vm_compute]|].
  intros _ d2 [len2 Hd2]. apply wp_ret, wp_bind.
  eapply wp_mono; [by eapply (inst_bytes_ok ram tables Hbytes Hok lim base L addr eq_refl HL Hlim)|].
  intros desc d3 (len3 & Hd3 & Hread). apply wp_bind, wp_the_state, wp_bind.
  rewrite (proj2 (decoding_bounds _ _ _ _ _ _ _ Hd3)). pose proof (dg_len _ _ _ _ _ _ _ Hd3).
  eapply wp_mono; [eapply (decode_loop_ok ram tables Hbytes Hok lim base L addr eq_refl HL Hlim 2);
    [done| |apply lists_left_two]|].
  { destruct Hread as ((? & ?) & Hm & Hx). split_and!; try lia; auto. }
  intros [] d4 Hd4; simpl; [by apply wp_ret, Hdone|]. destruct Hd4 as [len4 Hd4]. apply wp_bind.
  eapply wp_mono; [by eapply (hard_coded_nop_ok ram tables Hbytes Hok lim base L addr eq_refl HL Hlim)|].
  intros [] d5 Hd5; simpl; [by apply wp_ret, Hdone|]. subst d5. apply wp_bind, wp_lift.
  pose proof Hok as Ht. unfold tables_ok in Ht. zbool.
  destruct (in_table_lookup (opcodes_table tables) (undefined tables)) as [i Hi]; [done|]. unfold opcode_ptr. rewrite Hi.
  simpl. apply wp_bind, wp_set_state, wp_bind, wp_the_state.
  match goal with |- wp _ _ _ ?x => set (d5 := x) end.
  assert (Hd5 : decoding ram lim base L addr len4 d5) by (destruct Hd4; by split).
  eapply wp_mono; [by apply (inst_at_end ram lim base L addr eq_refl HL Hlim len4)|].
  intros _ d6 (len6 & Hd6 & Hinst & Hpos). apply Hdone. exists len6. split; [done|]. split; [|done].
  exists (mkInstPtr (undefined tables) i). split; [done|]. split.
  - pose proof (opcode_rule tables Hok _ _ Hi) as Hr. unfold rule_ok in Hr. zbool. by apply pattern_okb_ok.
  - right. apply index_Some in Hi as [_ Hi]. rewrite Hi in *. by zbool.
Qed.

End Decode.

(** The tables of the validator. *)
Lemma validator_tables_ok : tables_ok kNaClValDecoderTables = true.
Proof. vm_compute. reflexivity. Qed.
