(* ===== verification/DecodeLocal.v ===== *)
(** * Decoding depends on the bytes of the segment only

    Two memories that agree from the position of an instruction to the end of
    the segment decode it alike: code that is overwritten elsewhere, as while
    [CopyCode] runs, does not disturb the iterators. *)

From S2P Require Import Prelude Effects Stateful Bytes OpKinds DecodeTables OpcodeTable InstBuffer.
From S2P Require Import ExpVector InstState InstTrans InstDecode TransSpec DecodeSpec.

Create HintDb same.

Section Local.
Variable m m' : memory.
Variable lo lim : Z.
Context (Hm : forall x, lo <= x < lim -> m x = m' x).

(** The position of a reader in the part where the memories agree. *)
Definition within (memory : NCRemainingMemory) : Prop :=
  lo <= mpc memory /\ lo <= cur_pos memory /\ mlimit memory = lim.

(** The same run, which stays there. *)
Definition same {A} (c c' : Dec A) : Prop := forall d, within (memory_of d) ->
  c d = c' d /\ forall a d', c d = Ret (a, d') -> within (memory_of d').

(** ** Rules *)

Lemma same_ret {A} (a : A) : same (mret a) (mret a).
Proof using. intros d Hd. split; [done|]. by intros ? ? [= _ <-]. Qed.

Lemma same_abort {A} f : same (A := A) (abort f) (abort f).
Proof using. by intros d Hd. Qed.

Lemma same_lift {A} (o : outcome A) : same (lift o) (lift o).
Proof using. intros d Hd. split; [done|]. unfold lift. destruct o; [|done]. by intros ? ? [= _ <-]. Qed.

Lemma same_gets {A} (f : Decoding -> A) : same (gets f) (gets f).
Proof using. intros d Hd. split; [done|]. by intros ? ? [= _ <-]. Qed.

Lemma same_on_state {A} (c : Trans A) : same (on_state c) (on_state c).
Proof using.
  intros d Hd. split; [done|]. unfold on_state, zoom. destruct (c (state_of d)) as [[a s]|f]; [|done]. by intros ? ? [= _ <-].
Qed.

Lemma same_modify f f' : (forall d, within (memory_of d) -> f d = f' d /\ within (memory_of (f d))) -> same (modify f) (modify f').
Proof using. intros Hf d Hd. destruct (Hf d Hd) as [E ?]. unfold modify. rewrite <- E. split; [done|]. by intros ? ? [= _ <-]. Qed.

Lemma same_bind {A B} (c c' : Dec A) (k k' : A -> Dec B) :
  same c c' -> (forall a, same (k a) (k' a)) -> same (c ≫= k) (c' ≫= k').
Proof using.
  intros Hc Hk d Hd. destruct (Hc d Hd) as [E Hw]. unfold mbind, St_bind. rewrite <- E.
  destruct (c d) as [[a d1]|f]; [|done]. by apply Hk, (Hw a).
Qed.

Lemma same_get {B} (k k' : Decoding -> Dec B) :
  (forall d, within (memory_of d) -> same (k d) (k' d)) -> same (get ≫= k) (get ≫= k').
Proof using. intros Hk d Hd. by apply (Hk d). Qed.

(** ** Reading bytes *)

Lemma peek_same r : within r -> NCRemainingMemoryPeekInline m r = NCRemainingMemoryPeekInline m' r.
Proof using Hm. intros (H1 & H2 & H3). unfold NCRemainingMemoryPeekInline. case_match; zbool; [done|]. apply Hm. lia. Qed.

Lemma lookahead_same r n : within r -> 0 <= n -> NCRemainingMemoryLookaheadInline m r n = NCRemainingMemoryLookaheadInline m' r n.
Proof using Hm. intros (H1 & H2 & H3) Hn. unfold NCRemainingMemoryLookaheadInline. case_match; zbool; [|done]. apply Hm. lia. Qed.

Lemma inst_byte_same b r n : within r -> NCInstByteInline m b r n = NCInstByteInline m' b r n.
Proof using Hm. intros Hr. unfold NCInstByteInline. case_match; zbool; [done|]. by rewrite lookahead_same by (done || lia). Qed.

Lemma read_same b r : within r ->
  NCInstBytesReadInline m b r = NCInstBytesReadInline m' b r /\ within (NCInstBytesReadInline m b r).2.
Proof using Hm.
  intros Hr. unfold NCInstBytesReadInline, NCRemainingMemoryReadInline. destruct (cur_pos r =? mlimit r); [by split|]. destruct Hr as (H1 & H2 & H3).
  cbv zeta. rewrite <- peek_same by (split_and!; simpl; [done|lia|done]). split; [done|]. split_and!; simpl; [done|lia|done].
Qed.

Lemma read_bytes_same n b r : within r ->
  ReadBytes_loop m n b r = ReadBytes_loop m' n b r /\ within (ReadBytes_loop m n b r).2.
Proof using Hm.
  revert b r. induction n as [|n IH]; intros b r Hr; [by split|]. cbn [ReadBytes_loop].
  destruct (read_same b r Hr) as [<- Hw]. destruct (NCInstBytesReadInline m b r) as [[x b1] r1]. by apply IH.
Qed.

Lemma same_ReadByte : same (ReadByte m) (ReadByte m').
Proof using Hm.
  apply same_get. intros d Hd. destruct (read_same (bytes (state_of d)) (memory_of d) Hd) as [<- Hw].
  destruct (NCInstBytesReadInline m _ _) as [[x b1] r1]. apply same_bind; [|intros; apply same_ret].
  intros d1 _. split; [done|]. by intros ? ? [= _ <-].
Qed.

Lemma same_ReadBytes n : same (ReadBytes m n) (ReadBytes m' n).
Proof using Hm.
  apply same_modify. intros d Hd. unfold NCInstBytesReadBytesInline.
  destruct (read_bytes_same (Z.to_nat n) (bytes (state_of d)) (memory_of d) Hd) as [<- Hw].
  by destruct (ReadBytes_loop m _ _ _) as [b1 r1].
Qed.

Lemma same_ResetBytes : same (ResetBytes m) (ResetBytes m').
Proof using Hm.
  apply same_modify. intros d (H1 & H2 & H3). unfold NCInstBytesResetInline, NCRemainingMemoryResetInline. cbv zeta.
  rewrite <- peek_same by (by split_and!). split; [done|]. by split_and!.
Qed.

Lemma same_Init addr size : same (NaClInstStateInit addr size) (NaClInstStateInit addr size).
Proof using. apply same_modify. intros d (H1 & H2 & H3). split; [done|]. by split_and!. Qed.

#[local] Hint Resolve same_ret same_abort same_lift same_gets same_on_state same_ReadByte same_ReadBytes same_ResetBytes same_Init : same.

(** [same]: the rule for the head of both computations. *)
Ltac same_step :=
  cbv zeta;
  lazymatch goal with
  | |- same (get ≫= _) (get ≫= _) => apply same_get; intros ? ?
  | |- same (_ ≫= _) (_ ≫= _) => apply same_bind; [|intros ?]
  | |- same (if ?b then _ else _) (if ?b then _ else _) => destruct b
  | |- same (let '(_, _) := ?x in _) _ => destruct x
  | |- same (match ?x with Some _ => _ | None => _ end) _ => destruct x
  | |- same _ _ => solve [eauto with same nocore]
  end.
Ltac same := repeat same_step.

(** ** The decoder *)

Variable tables : NaClDecodeTables.

Lemma same_Prefix_loop n : same (ConsumePrefix_loop m tables n) (ConsumePrefix_loop m' tables n).
Proof using Hm.
  induction n as [|n IH]; cbn [ConsumePrefix_loop]; [same|]. apply same_get. intros d Hd. rewrite (lookahead_same _ 0 Hd) by lia.
  unfold set_state. same.
Qed.

Lemma same_InstBytes : same (NaClConsumeInstBytes m) (NaClConsumeInstBytes m').
Proof using Hm.
  unfold NaClConsumeInstBytes, NaClConsume0F38XXNaClInstBytes, NaClConsume0F3AXXNaClInstBytes, NaClConsumeX87NaClInstBytes, the_state. same.
Qed.

Lemma same_the_inst : same the_inst the_inst.
Proof using. unfold the_inst, the_state. same. Qed.
#[local] Hint Resolve same_the_inst same_Prefix_loop same_InstBytes : same.

Lemma same_ModRm : same (NaClConsumeModRm m) (NaClConsumeModRm m').
Proof using Hm.
  unfold NaClConsumeModRm, set_state, NCInstBytesPeekInline. apply same_bind; [same|intros i]. destruct (negb _); [same|].
  apply same_get. intros d Hd. rewrite (lookahead_same _ 0 Hd) by lia. same.
Qed.
#[local] Hint Resolve same_ModRm : same.

Lemma same_MatchPattern : same (MatchPattern m tables) (MatchPattern m' tables).
Proof using Hm.
  unfold MatchPattern, NaClConsumeAndCheckOperandSize, NaClConsumeAndCheckAddressSize, NaClConsumeSib, NaClConsumeDispBytes,
    NaClConsumeImmediateBytes, ConsumeImmediate2, NaClValidatePrefixFlags, set_state, the_state. same.
Qed.

Lemma same_HardCoded fuel next b n mt :
  same (HardCoded_loop m tables fuel next b n mt) (HardCoded_loop m' tables fuel next b n mt).
Proof using Hm.
  revert next b n mt. induction fuel as [|fuel IH]; intros [k|] b n mt; cbn [HardCoded_loop]; same.
  rewrite inst_byte_same by done. same.
Qed.
#[local] Hint Resolve same_MatchPattern same_HardCoded : same.

Lemma same_HardCodedNop : same (NaClConsumeHardCodedNop m tables) (NaClConsumeHardCodedNop m' tables).
Proof using Hm.
  unfold NaClConsumeHardCodedNop, NaClResetInstState, set_state, the_state. apply same_get. intros d Hd.
  rewrite inst_byte_same by done. same.
Qed.
#[local] Hint Resolve same_HardCodedNop : same.

Lemma same_Candidates fuel cand n p :
  same (Candidates_loop m tables fuel cand n p) (Candidates_loop m' tables fuel cand n p).
Proof using Hm.
  revert cand. induction fuel as [|fuel IH]; intros [c|]; cbn [Candidates_loop]; [same..| |same].
  unfold NaClClearInstState, FinishMatch, set_state, the_state. same.
Qed.
#[local] Hint Resolve same_Candidates : same.

Lemma same_DecodeInst_loop fuel desc n : same (DecodeInst_loop m tables fuel desc n) (DecodeInst_loop m' tables fuel desc n).
Proof using Hm.
  revert desc n. induction fuel as [|fuel IH]; intros desc n; cbn [DecodeInst_loop]; [same|].
  unfold NaClGetNextInstCandidates, the_state. same.
Qed.
#[local] Hint Resolve same_DecodeInst_loop : same.

(** The same instruction is decoded. *)
Lemma decode_local addr size : same (NaClDecodeInst m tables addr size) (NaClDecodeInst m' tables addr size).
Proof using Hm. unfold NaClDecodeInst, NaClConsumePrefixBytes, set_state, the_state. same. Qed.

Lemma bind_start {A B} (c : Dec A) (k : A -> Dec B) d d1 : c d = c d1 -> (c ≫= k) d = (c ≫= k) d1.
Proof using. intros E. unfold mbind, St_bind. by rewrite E. Qed.

(** The old start of the reader plays no part. *)
Lemma decode_at addr size d :
  lo <= cur_pos (memory_of d) -> mlimit (memory_of d) = lim -> NaClDecodeInst m tables addr size d = NaClDecodeInst m' tables addr size d.
Proof using Hm.
  intros H1 H2. set (d1 := d <| memory_of := (memory_of d) <| mpc := cur_pos (memory_of d) |> |>).
  assert (Hd : forall ram, NaClDecodeInst ram tables addr size d = NaClDecodeInst ram tables addr size d1).
  { intros ram. unfold NaClDecodeInst. by apply bind_start. }
  rewrite !Hd. apply decode_local. by split_and!.
Qed.

End Local.
