(* ===== verification/InstIter.v ===== *)
(** * The instruction iterator: nc_inst_iter.c, nc_inst_iter_inl.c, nc_segment.c

    The iterator decodes one instruction after another and keeps the last
    [buffer_size] of them in a ring buffer.  A pointer to an instruction is
    the index of its slot.  Instructions are decoded on demand: a slot whose
    [inst] is NULL has not been decoded. *)

From S2P Require Import Prelude Effects Stateful Bytes OpKinds DecodeTables InstBuffer ExpVector.
From S2P Require Import InstState InstTrans InstDecode.

Record NaClSegment := NaClSegmentInitialize { mbase : Z; seg_vbase : Z; seg_size : Z }.

Record NaClInstIter := mkIter {
  segment : NaClSegment;
  iter_memory : NCRemainingMemory;
  iter_index : Z;
  inst_count : Z;
  buffer_size : Z;
  buffer_index : Z;
  buffer : list NaClInstState;
}.

#[global] Instance updatable_iter : Updatable NaClInstIter := fun r =>
  mkIter (segment r) (iter_memory r) (iter_index r) (inst_count r) (buffer_size r) (buffer_index r) (buffer r).

Definition sizeof_NaClInstIter : Z := 112.
Definition sizeof_NaClInstState : Z := 584.

Section Iterator.
Context `{Host}.
Variable ram : memory.
Variable tables : NaClDecodeTables.

(** When an allocation fails, the last assignment of the function stores the
    tables through the NULL pointer it is about to return. *)
Definition NaClInstIterCreateWithLookback (seg : NaClSegment) (lookback_size : Z) : outcome NaClInstIter :=
  if negb (malloc_ok sizeof_NaClInstIter) then Fault NullDeref
  else if negb (malloc_ok ((lookback_size + 1) * sizeof_NaClInstState)) then Fault NullDeref
  else Ret (mkIter seg (NCRemainingMemoryInit ram (mbase seg) (seg_size seg)) 0 0 (lookback_size + 1) 0
               (replicate (Z.to_nat (lookback_size + 1)) empty_state)).

(** Decode the instruction at the current position into the slot, unless the
    slot is decoded. *)
Definition decode_slot (slot : Z) : St NaClInstIter unit :=
  iter ← get;
  state ← lift (Stateful.index (buffer iter) slot);
  match inst state with
  | Some _ => mret tt
  | None =>
      d ← lift (NaClDecodeInst ram tables (iter_index iter) (seg_size (segment iter))
                  (mkDecoding (iter_memory iter) state));
      put (iter <| iter_memory := memory_of d.2 |>
                <| buffer := <[Z.to_nat slot := state_of d.2]> (buffer iter) |>)
  end.

Definition NaClInstIterGetUndecodedStateInline (iter : NaClInstIter) : Z := buffer_index iter.

Definition NaClInstIterGetStateInline : St NaClInstIter Z :=
  iter ← get;
  let slot := NaClInstIterGetUndecodedStateInline iter in
  decode_slot slot ;; mret slot.

Definition NaClInstIterGetLookbackStateInline (distance : Z) : St NaClInstIter Z :=
  iter ← get;
  require (distance <? buffer_size iter) "distance < iter->buffer_size" ;;
  require (distance <=? inst_count iter) "distance <= iter->inst_count" ;;
  let slot := ((buffer_index iter + buffer_size iter) - distance) mod buffer_size iter in
  decode_slot slot ;; mret slot.

Definition NaClInstIterHasLookbackStateInline (iter : NaClInstIter) (distance : Z) : bool :=
  (distance <? buffer_size iter) && (distance <=? inst_count iter).

Definition NaClInstIterHasNextInline (iter : NaClInstIter) : bool :=
  iter_index iter <? seg_size (segment iter).

Definition NaClInstIterAdvanceInline : St NaClInstIter unit :=
  iter ← get;
  (if seg_size (segment iter) <=? iter_index iter
   then abort (CondAbort "NaClInstIterAdvance with no next element.") else mret tt) ;;
  _ ← NaClInstIterGetStateInline;
  iter ← get;
  let next := (buffer_index iter + 1) mod buffer_size iter in
  put (iter <| iter_index := u64 (iter_index iter + read_length (iter_memory iter)) |>
            <| inst_count := u64 (inst_count iter + 1) |>
            <| buffer_index := next |>
            <| buffer := alter (fun s => s <| inst := None |>) (Z.to_nat next) (buffer iter) |>).

Definition NaClInstIterGetInstMemoryInline (iter : NaClInstIter) : outcome Z :=
  if seg_size (segment iter) <=? iter_index iter then
    Fault (CondAbort "NaClInstIterGetInstMemory with no next element.")
  else Ret (mbase (segment iter) + iter_index iter).

End Iterator.
