(* ===== verification/IterSpec.v ===== *)
(** * The iterator is a walk over the segment

    The ring buffer of the iterator refines the list of the instructions
    decoded so far, newest first: looking back [d] instructions finds the
    [d]-th element of the list, as long as the buffer is longer than [d].  The
    list is a [sweep]: each instruction was decoded from the bytes that follow
    the one before. *)

From S2P Require Import Prelude Effects Stateful Bytes OpKinds DecodeTables OpcodeTable InstBuffer.
From S2P Require Import ExpVector InstState InstTrans InstDecode TransSpec DecodeSpec InstIter.

(** An instruction with its expression vector. *)
Record shown (tables : NaClDecodeTables) (s : NaClInstState) : Prop := {
  sh_vector : is_defined (nodes s) = true;
  sh_nodes : vector_ok (nodes s);
  sh_inst : exists p, inst s = Some p /\ pattern_ok tables (inst_at p);
}.

(** [s] is the instruction of [len] bytes at [addr] of the segment of [size]
    bytes at [base]. *)
Definition visits (m : memory) (tables : NaClDecodeTables) (base size addr len : Z) (s : NaClInstState) : Prop :=
  exists d0 d v,
    at_position m (base + size) (base + addr) addr size (memory_of d0) /\
    NaClDecodeInst m tables addr size d0 = Ret (tt, d) /\
    decoded_at m tables (base + size) (base + addr) addr len (state_of d) (memory_of d) /\
    NaClInstStateExpVector tables (state_of d) = Ret (v, s) /\ same_but_nodes (state_of d) s /\ shown tables s.

(** The instructions from the start of the segment up to an address. *)
Inductive sweep (m : memory) (tables : NaClDecodeTables) (base size : Z) : Z -> list NaClInstState -> Prop :=
| sweep_nil : sweep m tables base size 0 []
| sweep_cons addr len s h :
    sweep m tables base size addr h -> addr < size -> visits m tables base size addr len s ->
    sweep m tables base size (addr + len) (s :: h).

Lemma visits_facts m tables base size addr len s :
  visits m tables base size addr len s -> 
  inst_addr s = addr /\ blength (bytes s) = len /\ 0 <= len <= 15 /\ addr + len <= size /\ (addr < size -> 0 < len) /\
  (forall i, 0 <= i < len -> byte (bytes s) !! Z.to_nat i = Some (m (base + addr + i))) /\ shown tables s.
Proof.
  intros (d0 & d & v & _ & _ & [Hr [Hl1 Hl2] Ha Hu Hn Hp Hi] & _ & Hsame & Hsh).
  unfold same_but_nodes in Hsame. rewrite Hsame in Hsh |- *. simpl. pose proof (rd_range _ _ _ _ _ _ Hr) as [? ?].
  unfold MAX_INST_LENGTH in *. split_and!; try done; try lia; [apply Hr|apply Hr].
Qed.

Lemma sweep_nonneg m tables base size a h : sweep m tables base size a h -> 0 <= a.
Proof. induction 1 as [|a len s h Hsw IH Hlt Hv]; [lia|]. apply visits_facts in Hv. lia. Qed.

Lemma sweep_range m tables base size a h : 0 <= size -> sweep m tables base size a h -> 0 <= a <= size.
Proof.
  intros Hs. induction 1 as [|a len s h Hsw IH Hlt Hv]; [lia|]. apply visits_facts in Hv. lia.
Qed.

(** The instructions lie one behind the other. *)
Lemma sweep_lookup m tables base size a h k s :
  sweep m tables base size a h -> h !! k = Some s ->
  exists b len h', sweep m tables base size b h' /\ visits m tables base size b len s /\ b < size /\
    drop k h = s :: h' /\ b + len <= a.
Proof.
  intros Hsw. revert k. induction Hsw as [|a len s' h Hsw IH Hlt Hv]; intros k Hk; [done|].
  pose proof (visits_facts _ _ _ _ _ _ _ Hv). destruct k as [|k]; simpl in Hk.
  - injection Hk as <-. exists a, len, h. split_and!; [done|done|done|done|lia].
  - destruct (IH k Hk) as (b & l & h' & ? & ? & ? & ? & ?). exists b, l, h'. split_and!; [done|done|done|done|lia].
Qed.

(** Every address is inside exactly one instruction. *)
Lemma sweep_covers m tables base size a h x :
  sweep m tables base size a h -> 0 <= x < a ->
  exists s, s ∈ h /\ inst_addr s <= x < inst_addr s + blength (bytes s).
Proof.
  intros Hsw. induction Hsw as [|a len s h Hsw IH Hlt Hv]; intros Hx; [lia|].
  pose proof (visits_facts _ _ _ _ _ _ _ Hv) as (Ha & Hb & ? & _). destruct (decide (x < a)).
  - destruct IH as (s' & ? & ?); [lia|]. exists s'. split; [by right|done].
  - exists s. split; [by left|]. rewrite Ha, Hb. lia.
Qed.

Lemma sweep_elem m tables base size a h s :
  sweep m tables base size a h -> s ∈ h ->
  0 <= inst_addr s /\ inst_addr s + blength (bytes s) <= a /\ shown tables s.
Proof.
  intros Hsw (k & Hk)%list_elem_of_lookup_1. destruct (sweep_lookup _ _ _ _ _ _ _ _ Hsw Hk) as (b & len & h' & Hs' & Hv & ? & _ & ?).
  pose proof (visits_facts _ _ _ _ _ _ _ Hv) as (-> & -> & ? & ? & ? & _ & ?).
  pose proof (sweep_nonneg _ _ _ _ _ _ Hs'). split_and!; [lia|done|done].
Qed.

(** ** The ring buffer *)

Section Ring.
Variable tables : NaClDecodeTables.
Context (Hok : tables_ok tables = true).

(** The slot of the instruction [d] back. *)
Definition slot_of (it : NaClInstIter) (d : Z) : Z := ((buffer_index it + buffer_size it) - d) mod buffer_size it.

(** The iterator over the segment of [size] bytes at [base] after the
    instructions [h], at the address [a]. *)
Record walking (base size : Z) (a : Z) (h : list NaClInstState) (it : NaClInstIter) : Prop := {
  wk_segment : mbase (segment it) = base /\ seg_size (segment it) = size;
  wk_size : 0 <= a <= size /\ size < two64;
  wk_index : iter_index it = a;
  wk_count : inst_count it = Z.of_nat (length h);
  wk_buffer : 1 < buffer_size it < two32 /\ length (buffer it) = Z.to_nat (buffer_size it);
  wk_current : 0 <= buffer_index it < buffer_size it;
  wk_slots : Forall (fun s => vector_ok (nodes s)) (buffer it);
  wk_window : forall d s, h !! d = Some s -> Z.of_nat d + 1 < buffer_size it ->
    buffer it !! Z.to_nat (slot_of it (Z.of_nat d + 1)) = Some s;
  wk_shown : Forall (shown tables) h;
}.

(** Before the instruction at [a] is decoded. *)
Record waiting (m : memory) (base size a : Z) (h : list NaClInstState) (it : NaClInstIter) : Prop := {
  wt_walking : walking base size a h it;
  wt_slot : inst <$> buffer it !! Z.to_nat (buffer_index it) = Some None;
  wt_memory : at_position m (base + size) (base + a) a size (iter_memory it);
}.

(** The position of the memory when [s] is the current instruction. *)
Record reached (m : memory) (base size a len : Z) (mem : NCRemainingMemory) : Prop := {
  rc_mpc : mpc mem = base + a;
  rc_pos : cur_pos mem = base + a + len;
  rc_len : read_length mem = len;
  rc_lim : mlimit mem = base + size;
  rc_next : next_byte mem = NCRemainingMemoryPeekInline m mem;
  rc_range : 0 <= len <= 15 /\ a + len <= size /\ (a < size -> 0 < len);
}.

(** The instruction [s] at [a] is decoded. *)
Record standing (m : memory) (base size a : Z) (s : NaClInstState) (h : list NaClInstState) (it : NaClInstIter) : Prop := {
  sd_walking : walking base size a h it;
  sd_slot : buffer it !! Z.to_nat (buffer_index it) = Some s;
  sd_shown : shown tables s;
  sd_memory : reached m base size a (blength (bytes s)) (iter_memory it);
  sd_inst : inst_addr s = a /\ unchanged s = false;
}.

Lemma slot_zero it : 0 <= buffer_index it < buffer_size it -> slot_of it 0 = buffer_index it.
Proof.
  intros. unfold slot_of. replace (buffer_index it + buffer_size it - 0) with (buffer_index it + 1 * buffer_size it) by lia.
  rewrite Z_mod_plus_full. apply Z.mod_small. lia.
Qed.

Lemma slot_range it d : 0 < buffer_size it -> 0 <= slot_of it d < buffer_size it.
Proof. intros. by apply Z.mod_pos_bound. Qed.

(** Looking back from the current instruction. *)
Lemma standing_lookup m base size a s h it d s' :
  standing m base size a s h it -> (s :: h) !! d = Some s' -> Z.of_nat d < buffer_size it ->
  buffer it !! Z.to_nat (slot_of it (Z.of_nat d)) = Some s' /\ shown tables s'.
Proof.
  intros [Hw Hs Hsh _ _] Hd Hb. destruct d as [|d]; simpl in Hd.
  - injection Hd as <-. rewrite slot_zero by apply Hw. done.
  - split; [|by eapply Forall_lookup_1; [apply (wk_shown _ _ _ _ _ Hw)|]].
    replace (Z.of_nat (S d)) with (Z.of_nat d + 1) by lia. apply (wk_window _ _ _ _ _ Hw); [done|lia].
Qed.

(** ** The operations *)

(** A decoded slot is left alone. *)
Lemma decode_slot_done m it slot s p :
  0 <= slot -> buffer it !! Z.to_nat slot = Some s -> inst s = Some p -> decode_slot m tables slot it = Ret (tt, it).
Proof.
  intros H0 Hs Hp. unfold decode_slot, mbind, St_bind, get, lift.
  rewrite (proj2 (index_Some (buffer it) slot s) (conj H0 Hs)). by rewrite Hp.
Qed.

Lemma standing_state m base size a s h it :
  standing m base size a s h it ->
  NaClInstIterGetStateInline m tables it = Ret (buffer_index it, it).
Proof.
  intros [Hw Hs [_ _ (p & Hp & _)] _ _]. unfold NaClInstIterGetStateInline, mbind, St_bind, get.
  rewrite (decode_slot_done m it _ s p); [done|apply Hw|done|done].
Qed.

(** What decoding leaves in the slot. *)
Definition decodes (m : memory) (base size a len : Z) (s0 : NaClInstState) (mem : NCRemainingMemory) : Prop :=
  (exists d0, at_position m (base + size) (base + a) a size (memory_of d0) /\
     NaClDecodeInst m tables a size d0 = Ret (tt, mkDecoding mem s0)) /\
  decoded_at m tables (base + size) (base + a) a len s0 mem.

Lemma decode_current m base size a h it :
  (forall x, is_byte (m x)) -> waiting m base size a h it ->
  wp stops (NaClInstIterGetStateInline m tables) (fun slot it' => exists s0 len mem,
    slot = buffer_index it /\ it' = it <| iter_memory := mem |> <| buffer := <[Z.to_nat (buffer_index it) := s0]> (buffer it) |> /\
    decodes m base size a len s0 mem) it.
Proof using Hok.
  intros Hb [Hw Hs Hmem]. unfold NaClInstIterGetStateInline. apply wp_bind, wp_get.
  destruct (buffer it !! Z.to_nat (buffer_index it)) as [s1|] eqn:Hs1; [|done]. simpl in Hs. injection Hs as Hs.
  apply wp_bind. unfold decode_slot. apply wp_bind, wp_get, wp_bind, wp_lift.
  unfold NaClInstIterGetUndecodedStateInline.
  rewrite (proj2 (index_Some (buffer it) _ s1) (conj (proj1 (wk_current _ _ _ _ _ Hw)) Hs1)). simpl. rewrite Hs.
  apply wp_bind, wp_lift. rewrite (wk_index _ _ _ _ _ Hw), (proj2 (wk_segment _ _ _ _ _ Hw)).
  assert (Hv : vector_ok (nodes s1)) by (exact (Forall_lookup_1 _ _ _ _ (wk_slots _ _ _ _ _ Hw) Hs1)).
  pose proof (decode_ok m tables Hb Hok (base + size) (base + a) a size (mkDecoding (iter_memory it) s1) Hmem Hv) as Hd.
  eapply wpo_wp; [exact Hd|]. intros [] d Hdec [len Hlen]. apply wp_put, wp_ret.
  exists (state_of d), len, (memory_of d). split_and!; [done|done|]. split; [|done].
  exists (mkDecoding (iter_memory it) s1). split; [exact Hmem|]. by destruct d.
Qed.

Lemma decoded_vector m base size a len s0 mem :
  decoded_at m tables (base + size) (base + a) a len s0 mem ->
  wp stops (NaClInstStateExpVector tables) (with_vector s0) s0.
Proof.
  intros [Hr Hl Ha Hu Hn Hp (p & Hinst & Hpat & [Hpos|H0])].
  - eapply wp_mono; [apply (exp_vector_ok tables)|by intros v s' [? _]]. destruct Hpos as [? ?].
    split; try done; [apply Hr|lia|by exists p].
  - by eapply exp_vector_none.
Qed.

(** The slot is decoded and shows its vector. *)
Lemma standing_intro m base size a h it len s0 mem v s :
  waiting m base size a h it -> decodes m base size a len s0 mem -> NaClInstStateExpVector tables s0 = Ret (v, s) ->
  with_vector s0 v s ->
  standing m base size a s h (it <| iter_memory := mem |> <| buffer := <[Z.to_nat (buffer_index it) := s]> (buffer it) |>) /\
  visits m tables base size a len s.
Proof.
  intros [Hw Hslot Hm] [(d0 & Hat & Hdec) Hd] Hvec (Hsame & -> & Hdef & Hvo).
  pose proof Hd as [Hr [Hl1 Hl2] Ha Hu Hn Hp (p & Hinst & Hpat & _)].
  assert (Hsh : shown tables s).
  { split; [done|done|]. unfold same_but_nodes in Hsame. rewrite Hsame. by exists p. }
  split.
  2: { exists d0, (mkDecoding mem s0), (nodes s). done. }
  assert (Hlt : (Z.to_nat (buffer_index it) < length (buffer it))%nat).
  { rewrite (proj2 (wk_buffer _ _ _ _ _ Hw)). pose proof (wk_current _ _ _ _ _ Hw). lia. }
  pose proof (rd_range _ _ _ _ _ _ Hr) as [? ?]. unfold MAX_INST_LENGTH in *.
  destruct Hw as [W1 W2 W3 W4 [W5 W5'] W6 W7 W8 W9]. split.
  - split; try done.
    + simpl. by rewrite length_insert.
    + apply Forall_insert; done.
    + intros d s' Hd' Hb. simpl. rewrite list_lookup_insert_ne; [by apply W8|].
      change (slot_of _ ?x) with (slot_of it x). simpl in Hb.
      intros Heq. pose proof (slot_range it (Z.of_nat d + 1)). apply (f_equal Z.of_nat) in Heq. unfold slot_of in *.
      rewrite !Z2Nat.id in Heq by lia.
      destruct (decide (Z.of_nat d + 1 <= buffer_index it)).
      * replace (buffer_index it + buffer_size it - (Z.of_nat d + 1))
          with (buffer_index it - (Z.of_nat d + 1) + 1 * buffer_size it) in Heq by lia.
        rewrite Z_mod_plus_full, Z.mod_small in Heq by lia. lia.
      * rewrite Z.mod_small in Heq by lia. lia.
  - simpl. by rewrite list_lookup_insert_eq.
  - done.
  - unfold same_but_nodes in Hsame. rewrite Hsame. simpl. destruct Hr. split; simpl; try done; try lia; congruence.
  - unfold same_but_nodes in Hsame. by rewrite Hsame.
Qed.

(** Writes to the current instruction do not disturb the iterator. *)
Lemma standing_write m m' base size a s h it :
  (forall x, ~ base + a <= x < base + a + blength (bytes s) -> m' x = m x) ->
  standing m base size a s h it -> standing m' base size a s h it.
Proof.
  intros Hm [Hw Hs Hsh [R1 R2 R3 R4 R5 R6] Hi]. split; try done. split; try done.
  rewrite R5. unfold NCRemainingMemoryPeekInline. case_match; [done|]. symmetry. apply Hm. lia.
Qed.

Lemma slot_next it it' d :
  0 <= buffer_index it < buffer_size it -> buffer_size it' = buffer_size it ->
  buffer_index it' = (buffer_index it + 1) mod buffer_size it -> slot_of it' (d + 1) = slot_of it d.
Proof.
  intros Hb Hs Hi. unfold slot_of. rewrite Hs, Hi.
  replace ((buffer_index it + 1) mod buffer_size it + buffer_size it - (d + 1))
    with ((buffer_index it + 1) mod buffer_size it + (buffer_size it - (d + 1))) by lia.
  rewrite Zplus_mod_idemp_l. f_equal. lia.
Qed.

(** The step to the next instruction. *)
Lemma advance_ok m base size a s h it :
  standing m base size a s h it -> a < size -> Z.of_nat (length h) + 1 < two64 ->
  exists it', NaClInstIterAdvanceInline m tables it = Ret (tt, it') /\
    waiting m base size (a + blength (bytes s)) (s :: h) it' /\ buffer_size it' = buffer_size it.
Proof.
  intros Hst Hlt Hcount. pose proof Hst as [Hw Hs Hsh Hr Hi].
  pose proof (standing_state _ _ _ _ _ _ _ Hst) as Hget. destruct Hr as [R1 R2 R3 R4 R5 (R6 & R7 & R8)].
  pose proof Hw as [[W1 W1'] [W2 W2'] W3 W4 [W5 W5'] W6 W7 W8 W9].
  unfold NaClInstIterAdvanceInline. unfold mbind, St_bind, get. rewrite W3, W1'.
  destruct (size <=? a) eqn:Hsz; zbool; [lia|]. unfold mret, St_ret. rewrite Hget. unfold put.
  eexists. split; [reflexivity|]. rewrite W3, W4, R3, !u64_small by lia.
  set (next := (buffer_index it + 1) mod buffer_size it).
  assert (Hnext : 0 <= next < buffer_size it) by (apply Z.mod_pos_bound; lia).
  set (it' := it <| iter_index := _ |> <| inst_count := _ |> <| buffer_index := _ |> <| buffer := _ |>).
  assert (Hslot : forall d, slot_of it' (d + 1) = slot_of it d) by (intros d; by apply slot_next).
  assert (Hne : forall d, 0 <= d < buffer_size it - 1 -> slot_of it d <> next).
  { intros d Hd Heq. unfold slot_of in Heq. destruct (decide (d <= buffer_index it)).
    - replace (buffer_index it + buffer_size it - d) with (buffer_index it - d + 1 * buffer_size it) in Heq by lia.
      rewrite Z_mod_plus_full, Z.mod_small in Heq by lia. unfold next in *.
      destruct (decide (buffer_index it + 1 = buffer_size it)) as [Hl|Hl].
      + rewrite Hl, Z.mod_same in Heq by lia. lia.
      + rewrite Z.mod_small in Heq by lia. lia.
    - rewrite Z.mod_small in Heq by lia. unfold next in *.
      destruct (decide (buffer_index it + 1 = buffer_size it)) as [Hl|Hl]; [lia|].
      rewrite Z.mod_small in Heq by lia. lia. }
  split; [|done]. split.
  - split; simpl; try done; try lia.
    + by rewrite length_alter.
    + apply Forall_alter; [done|]. intros x Hx _. exact (Forall_lookup_1 _ _ _ _ W7 Hx).
    + intros d s' Hd Hb. rewrite Hslot. rewrite list_lookup_alter_ne.
      * destruct (standing_lookup m base size a s h it d s' Hst Hd) as [? _]; [lia|done].
      * pose proof (slot_range it (Z.of_nat d)). intros Heq. apply (Hne (Z.of_nat d)); [lia|]. lia.
    + by constructor.
  - simpl. rewrite list_lookup_alter_eq. 
    destruct (lookup_lt_is_Some_2 (buffer it) (Z.to_nat next)) as [x Hx]; [rewrite W5'; lia|]. by rewrite Hx.
  - simpl. split; [rewrite R2; lia|done|done|lia].
Qed.

(** A new iterator. *)
Lemma create_ok `{Host} m base vb size n it :
  0 <= size < two64 -> 0 < n < two32 - 1 ->
  NaClInstIterCreateWithLookback m (NaClSegmentInitialize base vb size) n = Ret it ->
  waiting m base size 0 [] it /\ buffer_size it = n + 1.
Proof.
  intros Hs Hn. unfold NaClInstIterCreateWithLookback. do 2 (case_match; [done|]). intros [= <-]. split; [|done]. split.
  - split; simpl; try done; try lia.
    + rewrite length_replicate. lia.
    + apply Forall_replicate. split; simpl; [done|unfold NACL_MAX_EXPS; lia].
  - simpl. rewrite lookup_replicate_2 by lia. done.
  - split; simpl; [lia|done|done|lia].
Qed.

(** Whether there is an instruction to look back at. *)
Lemma has_lookback_ok m base size a s h it d :
  standing m base size a s h it -> 0 <= d ->
  NaClInstIterHasLookbackStateInline it d = true -> exists s', (s :: h) !! Z.to_nat d = Some s'.
Proof.
  intros [Hw _ _ _ _] Hd. unfold NaClInstIterHasLookbackStateInline. rewrite (wk_count _ _ _ _ _ Hw). intros. zbool.
  apply lookup_lt_is_Some_2. simpl. lia.
Qed.

(** Looking back changes nothing and finds the instruction. *)
Lemma lookback_ok m base size a s h it d s' :
  standing m base size a s h it -> 0 <= d < buffer_size it -> (s :: h) !! Z.to_nat d = Some s' ->
  NaClInstIterGetLookbackStateInline m tables d it = Ret (slot_of it d, it) /\
  buffer it !! Z.to_nat (slot_of it d) = Some s' /\ 0 <= slot_of it d.
Proof.
  intros Hst Hd Hs'. pose proof Hst as [Hw _ _ _ _]. pose proof (wk_buffer _ _ _ _ _ Hw) as [? _].
  destruct (standing_lookup m base size a s h it (Z.to_nat d) s' Hst Hs') as [Hb [_ _ (p & Hp & _)]]; [lia|].
  rewrite Z2Nat.id in Hb by lia. pose proof (slot_range it d ltac:(lia)) as [? ?]. split_and!; [|done|done].
  unfold NaClInstIterGetLookbackStateInline, mbind, St_bind, get, require.
  apply lookup_lt_Some in Hs'. simpl in Hs'.
  destruct (d <? buffer_size it) eqn:E1; zbool; [|lia].
  rewrite (wk_count _ _ _ _ _ Hw). destruct (d <=? _) eqn:E2; zbool; [|lia].
  unfold mret, St_ret. change (((buffer_index it + buffer_size it) - d) mod buffer_size it) with (slot_of it d).
  by rewrite (decode_slot_done m it _ s' p).
Qed.

(** ** A walk

    One turn of a client: decode the current instruction, build its vector in
    the slot, advance. *)
Definition walk_step (m : memory) (it : NaClInstIter) : outcome (NaClInstState * NaClInstIter) :=
  '(slot, it) ← NaClInstIterGetStateInline m tables it;
  s0 ← index (buffer it) slot;
  '(_, s) ← NaClInstStateExpVector tables s0;
  '(_, it) ← NaClInstIterAdvanceInline m tables (it <| buffer := <[Z.to_nat slot := s]> (buffer it) |>);
  Ret (s, it).

(** The iterators that a client reaches, with the instructions it has seen,
    newest first. *)
Inductive walks `{Host} (m : memory) (base vb size n : Z) : NaClInstIter -> list NaClInstState -> Prop :=
| walks_start it :
    NaClInstIterCreateWithLookback m (NaClSegmentInitialize base vb size) n = Ret it -> walks m base vb size n it []
| walks_step it h s it' :
    walks m base vb size n it h -> NaClInstIterHasNextInline it = true -> walk_step m it = Ret (s, it') ->
    walks m base vb size n it' (s :: h).

Lemma walk_step_ok m base size a h it :
  (forall x, is_byte (m x)) -> waiting m base size a h it -> a < size -> Z.of_nat (length h) + 1 < two64 ->
  wpo stops (walk_step m it) (fun r => exists len, visits m tables base size a len r.1 /\
    waiting m base size (a + len) (r.1 :: h) r.2 /\ buffer_size r.2 = buffer_size it).
Proof using Hok.
  intros Hm Hw Hlt Hc. unfold walk_step. apply wpo_bind.
  pose proof (decode_current m base size a h it Hm Hw) as Hd. unfold wp in Hd.
  destruct (NaClInstIterGetStateInline m tables it) as [[slot it1]|f]; [|exact Hd].
  destruct Hd as (s0 & len & mem & -> & -> & Hdec). unfold wpo at 1. pose proof Hw as [Hwk _ _].
  assert (Hb : (Z.to_nat (buffer_index it) < length (buffer it))%nat).
  { rewrite (proj2 (wk_buffer _ _ _ _ _ Hwk)). pose proof (wk_current _ _ _ _ _ Hwk). lia. }
  apply wpo_bind. simpl. rewrite (proj2 (index_Some _ _ s0)).
  2: { split; [apply Hwk|]. by rewrite list_lookup_insert_eq. }
  unfold wpo at 1. apply wpo_bind. pose proof (decoded_vector _ _ _ _ _ _ _ (proj2 Hdec)) as Hv. unfold wp in Hv.
  destruct (NaClInstStateExpVector tables s0) as [[v s]|f] eqn:Hvec; [|exact Hv]. unfold wpo at 1.
  destruct (standing_intro _ _ _ _ _ _ _ _ _ _ _ Hw Hdec Hvec Hv) as [Hst Hvis].
  rewrite list_insert_insert_eq. destruct (advance_ok _ _ _ _ _ _ _ Hst Hlt Hc) as (it' & Hadv & Hw' & Hbs).
  apply wpo_bind. simpl in Hadv. rewrite Hadv. unfold wpo. simpl. exists len. split_and!; [done| |done].
  pose proof (visits_facts _ _ _ _ _ _ _ Hvis) as (_ & <- & _). exact Hw'.
Qed.

(** Every instruction has a byte. *)
Lemma sweep_length m base size a h : sweep m tables base size a h -> Z.of_nat (length h) <= a.
Proof using.
  induction 1 as [|a len s h Hsw IH Hlt Hv]; [done|]. pose proof (visits_facts _ _ _ _ _ _ _ Hv). simpl. lia.
Qed.

(** The invariant of a walk. *)
Lemma walks_inv `{Host} m base vb size n it h :
  (forall x, is_byte (m x)) -> 0 <= size < two64 -> 0 < n < two32 - 1 -> walks m base vb size n it h ->
  exists a, waiting m base size a h it /\ sweep m tables base size a h /\ buffer_size it = n + 1.
Proof using Hok.
  intros Hm Hs Hn. induction 1 as [it Hit|it h s it' Hw (a & Hwait & Hsw & Hb) Hnext Hstep].
  - destruct (create_ok m base vb size n it Hs Hn Hit) as [Hw Hb]. exists 0. split_and!; [done|constructor|done].
  - assert (Hlt : a < size).
    { unfold NaClInstIterHasNextInline in Hnext. pose proof Hwait as [Hwk _ _]. rewrite (wk_index _ _ _ _ _ Hwk), (proj2 (wk_segment _ _ _ _ _ Hwk)) in Hnext.
      by zbool. }
    pose proof (sweep_length _ _ _ _ _ Hsw).
    destruct (wpo_run _ _ _ _ (walk_step_ok m base size a h it Hm Hwait Hlt ltac:(lia)) Hstep) as (len & Hvis & Hw' & Hb').
    exists (a + len). split_and!; [done|by constructor|]. simpl in Hb'. congruence.
Qed.

(** Looking back before the current instruction is decoded. *)
Lemma waiting_lookback m base size a h it d s :
  waiting m base size a h it -> 0 < d < buffer_size it -> h !! Z.to_nat (d - 1) = Some s ->
  NaClInstIterGetLookbackStateInline m tables d it = Ret (slot_of it d, it) /\ index (buffer it) (slot_of it d) = Ret s.
Proof using.
  intros [Hw _ _] Hd Hs. pose proof (wk_window _ _ _ _ _ Hw _ _ Hs ltac:(lia)) as Hb.
  replace (Z.of_nat (Z.to_nat (d - 1)) + 1) with d in Hb by lia. pose proof (slot_range it d ltac:(lia)) as [? ?].
  pose proof (Forall_lookup_1 _ _ _ _ (wk_shown _ _ _ _ _ Hw) Hs) as [_ _ (p & Hp & _)].
  split; [|by apply index_Some]. unfold NaClInstIterGetLookbackStateInline, mbind, St_bind, get, require.
  apply lookup_lt_Some in Hs. rewrite (wk_count _ _ _ _ _ Hw).
  replace (d <? buffer_size it) with true by (symmetry; apply Z.ltb_lt; lia).
  replace (d <=? Z.of_nat (length h)) with true by (symmetry; apply Z.leb_le; lia).
  unfold mret, St_ret. change (((buffer_index it + buffer_size it) - d) mod buffer_size it) with (slot_of it d).
  by rewrite (decode_slot_done m it _ s p).
Qed.

End Ring.
