(* ===== verification/ValState.v ===== *)
(** * The validator state: ncvalidate_iter_internal.h, ncvalidate_iter.c

    The structure shared by the checks, its caches, the error messages and
    stubbing out.  Messages are printed by an error reporter that prints
    nothing; what they change is [validates_ok], the number of errors left and
    [quit].  The process memory, in which instructions may be overwritten, is
    the field [ram].  Left out are the error reporter, tracing and the opcode
    histogram, which only print. *)

From S2P Require Import Prelude Effects Stateful Bytes OpKinds DecodeTables InstBuffer ExpVector.
From S2P Require Import InstState InstTrans InstDecode InstIter.

Definition LOG_INFO : Z := -1.
Definition LOG_WARNING : Z := -2.
Definition LOG_ERROR : Z := -3.
Definition LOG_FATAL : Z := -4.

(** The features of the processor: f_cpuid_supported, f_cpu_supported and one
    flag per feature. *)
Record NaClCPUFeaturesX86 := mkFeatures {
  f_cpuid_supported : bool;
  f_cpu_supported : bool;
  feature_data : list bool;
}.

#[global] Instance updatable_features : Updatable NaClCPUFeaturesX86 := fun r =>
  mkFeatures (f_cpuid_supported r) (f_cpu_supported r) (feature_data r).

Record NaClJumpSets := mkJumpSets {
  actual_targets : list Z;
  possible_targets : list Z;
  removed_targets : list Z;
  set_array_size : Z;
}.

#[global] Instance updatable_jump_sets : Updatable NaClJumpSets := fun r =>
  mkJumpSets (actual_targets r) (possible_targets r) (removed_targets r) (set_array_size r).

(** Pointers to the instructions that set ESP and EBP. *)
Record NaClRegisterLocals := mkLocals { esp_set_inst : option Z; ebp_set_inst : option Z }.

#[global] Instance updatable_locals : Updatable NaClRegisterLocals := fun r =>
  mkLocals (esp_set_inst r) (ebp_set_inst r).

Record NaClBaseRegisterLocals := mkBaseLocals {
  locals_buffer : list NaClRegisterLocals;
  previous_index : Z;
  current_index : Z;
}.

#[global] Instance updatable_base_locals : Updatable NaClBaseRegisterLocals := fun r =>
  mkBaseLocals (locals_buffer r) (previous_index r) (current_index r).

Record NaClCpuCheckState := mkCpuChecks {
  checked_features : NaClCPUFeaturesX86;
  f_CMOV_and_x87 : bool;
  f_MMX_or_SSE2 : bool;
}.

#[global] Instance updatable_cpu_checks : Updatable NaClCpuCheckState := fun r =>
  mkCpuChecks (checked_features r) (f_CMOV_and_x87 r) (f_MMX_or_SSE2 r).

Record NaClValidatorState := mkVState {
  vbase : Z;
  codesize : Z;
  vbundle_size : Z;
  bundle_mask : Z;
  base_register : NaClOpKind;
  validates_ok : bool;
  did_stub_out : bool;
  quit_after_error_count : Z;
  cpu_features : NaClCPUFeaturesX86;
  log_verbosity : Z;
  cur_inst_state : option Z;
  cur_iter : option NaClInstIter;
  cur_inst : option NaClInst;
  cur_inst_vector : option Z;
  quit : bool;
  do_stub_out : bool;
  readonly_text : bool;
  do_detailed : bool;
  jump_sets : NaClJumpSets;
  set_base_registers : NaClBaseRegisterLocals;
  cpu_checks : NaClCpuCheckState;
  ram : memory;
}.

#[global] Instance updatable_vstate : Updatable NaClValidatorState := fun r =>
  mkVState (vbase r) (codesize r) (vbundle_size r) (bundle_mask r) (base_register r) (validates_ok r)
    (did_stub_out r) (quit_after_error_count r) (cpu_features r) (log_verbosity r) (cur_inst_state r)
    (cur_iter r) (cur_inst r) (cur_inst_vector r) (quit r) (do_stub_out r) (readonly_text r) (do_detailed r)
    (jump_sets r) (set_base_registers r) (cpu_checks r) (ram r).

Definition Val (A : Type) : Type := St NaClValidatorState A.

(** Verbosity of the process log, and the decoder tables in use. *)
Section State.
Variable NaClLogGetVerbosity : Z.
Variable tables : NaClDecodeTables.

(** ** Reading through the pointers *)

Definition the_iter : Val NaClInstIter := v ← get; lift (follow (cur_iter v)).

(** Run on the iterator, in the current memory. *)
Definition on_iter {A} (c : memory -> St NaClInstIter A) : Val A :=
  v ← get;
  iter ← the_iter;
  r ← lift (c (ram v) iter);
  modify (fun v => v <| cur_iter := Some r.2 |>) ;; mret r.1.

(** The instruction in a slot of the ring buffer. *)
Definition inst_in (slot : Z) : Val NaClInstState :=
  iter ← the_iter; lift (index (buffer iter) slot).

(** [state->cur_inst_state], [state->cur_inst] and [state->cur_inst_vector]. *)
Definition the_slot : Val Z := v ← get; lift (follow (cur_inst_state v)).
Definition current : Val NaClInstState := slot ← the_slot; inst_in slot.
Definition the_cur_inst : Val NaClInst := v ← get; lift (follow (cur_inst v)).
Definition current_vector : Val NaClExpVector :=
  v ← get; slot ← lift (follow (cur_inst_vector v)); s ← inst_in slot; mret (nodes s).

(** The expression vector of a decoded instruction: the cached one, or the one
    that is built now, which is the same at every call. *)
Definition vector_of (state : NaClInstState) : Val NaClExpVector :=
  r ← lift (NaClInstStateExpVector tables state); mret r.1.

(** ** Errors *)

Definition NaClValidatorQuit (v : NaClValidatorState) : bool :=
  negb (validates_ok v) && (quit_after_error_count v =? 0).

Definition NaClPrintValidatorMessages (v : NaClValidatorState) (level : Z) : bool :=
  negb (quit_after_error_count v =? 0) && (level <=? log_verbosity v) && (level <=? NaClLogGetVerbosity).

Definition is_error (level : Z) : bool := (level =? LOG_ERROR) || (level =? LOG_FATAL).

Definition NaClRecordErrorReported (level : Z) : Val unit :=
  modify (fun v =>
    if is_error level && (0 <? quit_after_error_count v) && negb (do_stub_out v) then
      let v := v <| quit_after_error_count := quit_after_error_count v - 1 |> in
      v <| quit := NaClValidatorQuit v |>
    else v).

Definition NaClRecordIfValidatorError (level : Z) : Val unit :=
  modify (fun v =>
    if is_error level && negb (do_stub_out v) then
      let v := v <| validates_ok := false |> in
      v <| quit := NaClValidatorQuit v |>
    else v).

Definition NaClValidatorMessage (level : Z) : Val unit :=
  NaClRecordIfValidatorError level ;;
  v ← get;
  if NaClPrintValidatorMessages v level then NaClRecordErrorReported level else mret tt.

(** Messages about an address: the effect is that of a plain message. *)
Definition NaClValidatorPcAddressMessage (level : Z) : Val unit := NaClValidatorMessage level.

(** ** Stubbing out *)

Definition kNaClFullStop : Z := 244.

Definition NCStubOutMem (ptr num : Z) : Val unit :=
  modify (fun v => v <| did_stub_out := true |> <| ram := mem_fill (ram v) ptr num kNaClFullStop |>).

(** The instruction is found through the memory shared by all instructions of
    the iterator: what is overwritten is the instruction decoded last. *)
Definition NaClStubOutInst (slot : Z) : Val unit :=
  iter ← the_iter;
  NCStubOutMem (mpc (iter_memory iter)) (read_length (iter_memory iter)).

Definition NaClValidatorInstMessage (level : Z) (slot : Z) : Val unit :=
  NaClValidatorMessage level ;;
  v ← get;
  if do_stub_out v && (level <=? LOG_ERROR) then NaClStubOutInst slot else mret tt.

(** A message about an instruction and its replacement stubs out the second. *)
Definition NaClValidatorTwoInstMessage (level : Z) (slot2 : Z) : Val unit := NaClValidatorInstMessage level slot2.

(** ** The iterator of the state *)

Definition NaClUpdateCaches : Val unit :=
  slot ← on_iter (fun ram => NaClInstIterGetStateInline ram tables);
  modify (fun v => v <| cur_inst_state := Some slot |>) ;;
  state ← inst_in slot;
  i ← lift (NaClInstStateInst state);
  modify (fun v => v <| cur_inst := Some i |>) ;;
  r ← lift (NaClInstStateExpVector tables state);
  on_iter (fun _ => modify (fun iter => iter <| buffer := <[Z.to_nat slot := r.2]> (buffer iter) |>)) ;;
  modify (fun v => v <| cur_inst_vector := Some slot |>).

Definition NaClValidatorStateIterHasNextInline : Val bool :=
  v ← get;
  match cur_iter v with
  | None => mret false
  | Some iter =>
      let result := NaClInstIterHasNextInline iter in
      (if result && bool_decide (cur_inst_state v = None) then NaClUpdateCaches else mret tt) ;;
      mret result
  end.

Definition NaClValidatorStateIterAdvanceInline : Val unit :=
  on_iter (fun ram => NaClInstIterAdvanceInline ram tables) ;; NaClUpdateCaches.

Definition NaClValidatorStateIterFinishInline : Val unit :=
  modify (fun v => v <| cur_inst_state := None |> <| cur_inst := None |> <| cur_inst_vector := None |>).

(** The slot of an earlier instruction. *)
Definition lookback (distance : Z) : Val Z :=
  on_iter (fun ram => NaClInstIterGetLookbackStateInline ram tables distance).

Definition has_lookback (distance : Z) : Val bool :=
  iter ← the_iter; mret (NaClInstIterHasLookbackStateInline iter distance).

End State.
