(* ===== verification/AddressSet.v ===== *)
(** * Sets of addresses: address_sets.c, address_sets_inl.c

    A set of addresses of the code segment as an array of bytes, one bit per
    address. *)

From S2P Require Import Prelude Effects Stateful Bytes OpKinds DecodeTables InstBuffer ExpVector.
From S2P Require Import InstState InstTrans InstDecode InstIter ValState.

Definition NaClAddressSet : Type := list Z.

Definition nacl_pc_address_masks : list Z := [1; 2; 4; 8; 16; 32; 64; 128].

Definition NaClPcAddressToMask (address : Z) : Z :=
  nth (Z.to_nat (Z.land address 7)) nacl_pc_address_masks 0.

Definition NaClPcAddressToOffset (address : Z) : Z := Z.shiftr address 3.

Definition NaClAddressSetArraySize (size : Z) : Z := NaClPcAddressToOffset size + 1.

Definition NaClAddressSetCreate `{Host} (size : Z) : option NaClAddressSet :=
  if malloc_ok (NaClAddressSetArraySize size)
  then Some (replicate (Z.to_nat (NaClAddressSetArraySize size)) 0) else None.

Section Sets.
Variable NaClLogGetVerbosity : Z.

Definition NaClCheckAddressRange (address : Z) : Val bool :=
  v ← get;
  if codesize v <=? address then NaClValidatorPcAddressMessage NaClLogGetVerbosity LOG_ERROR ;; mret false
  else mret true.

Definition NaClAddressSetContains (set : NaClAddressSet) (address : Z) : Val bool :=
  ok ← NaClCheckAddressRange address;
  if (ok : bool) then
    b ← lift (index set (NaClPcAddressToOffset address));
    mret (cbool (Z.land b (NaClPcAddressToMask address)))
  else mret false.

(** The set is a field of the jump sets, given by its projection and update. *)
Definition NaClAddressSetAddInline (field : NaClJumpSets -> NaClAddressSet)
  (set_field : NaClAddressSet -> NaClJumpSets -> NaClJumpSets) (address : Z) : Val unit :=
  ok ← NaClCheckAddressRange address;
  if (ok : bool) then
    v ← get;
    let set := field (jump_sets v) in
    let offset := NaClPcAddressToOffset address in
    b ← lift (index set offset);
    put (v <| jump_sets := set_field (<[Z.to_nat offset := Z.lor b (NaClPcAddressToMask address)]> set) (jump_sets v) |>)
  else mret tt.

End Sets.

(** ** The set of an array

    [member set a]: the bit of the address [a] is set. *)

Definition member (set : list Z) (a : Z) : Prop :=
  0 <= a /\ exists b, set !! Z.to_nat (a / 8) = Some b /\ Z.testbit b (a mod 8) = true.

Lemma mask_bit a k : 0 <= a -> 0 <= k -> Z.testbit (NaClPcAddressToMask a) k = bool_decide (k = a mod 8).
Proof.
  intros Ha Hk. unfold NaClPcAddressToMask. change 7 with (Z.ones 3). rewrite Z.land_ones by lia.
  change (2 ^ 3) with 8. pose proof (Z.mod_pos_bound a 8 ltac:(lia)) as Hm.
  assert (a mod 8 = 0 \/ a mod 8 = 1 \/ a mod 8 = 2 \/ a mod 8 = 3 \/ a mod 8 = 4 \/ a mod 8 = 5 \/ a mod 8 = 6 \/ a mod 8 = 7) as Hc by lia.
  assert (forall j, 0 <= j < 8 -> nth (Z.to_nat j) nacl_pc_address_masks 0 = 2 ^ j) as Hn.
  { intros j Hj. assert (j = 0 \/ j = 1 \/ j = 2 \/ j = 3 \/ j = 4 \/ j = 5 \/ j = 6 \/ j = 7) as Hj' by lia.
    by destruct Hj' as [->|[->|[->|[->|[->|[->|[->| ->]]]]]]]. }
  rewrite Hn by lia. rewrite Z.pow2_bits_eqb by lia.
  case_bool_decide; [by apply Z.eqb_eq|apply Z.eqb_neq; lia].
Qed.

Lemma offset_div a : NaClPcAddressToOffset a = a / 8.
Proof. unfold NaClPcAddressToOffset. by rewrite Z.shiftr_div_pow2 by lia. Qed.

Lemma land_mask b a : 0 <= a -> cbool (Z.land b (NaClPcAddressToMask a)) = Z.testbit b (a mod 8).
Proof.
  intros Ha. pose proof (Z.mod_pos_bound a 8 ltac:(lia)) as Hm. unfold cbool.
  destruct (Z.testbit b (a mod 8)) eqn:Hb.
  - apply negb_true_iff, Z.eqb_neq. intros H0. apply (f_equal (fun z => Z.testbit z (a mod 8))) in H0.
    rewrite Z.land_spec, Hb, mask_bit, Z.bits_0 in H0 by lia. by rewrite bool_decide_true in H0.
  - apply negb_false_iff, Z.eqb_eq. apply Z.bits_inj'. intros k Hk. rewrite Z.land_spec, mask_bit, Z.bits_0 by lia.
    case_bool_decide as Hx; [subst; by rewrite Hb|apply andb_false_r].
Qed.

(** An array for a segment of [size] bytes holds every address of it. *)
Lemma array_size_ok size a : 0 <= a < size -> 0 <= a / 8 < NaClAddressSetArraySize size.
Proof.
  intros Ha. unfold NaClAddressSetArraySize. rewrite offset_div.
  assert (a / 8 <= size / 8) by (apply Z.div_le_mono; lia). assert (0 <= a / 8) by (apply Z.div_pos; lia). lia.
Qed.

Lemma member_insert (set : list Z) a b x :
  0 <= a -> set !! Z.to_nat (a / 8) = Some b ->
  member (<[Z.to_nat (a / 8) := Z.lor b (NaClPcAddressToMask a)]> set) x <-> member set x \/ x = a.
Proof.
  intros Ha Hb. assert (Hl : (Z.to_nat (a / 8) < length set)%nat) by (by eapply lookup_lt_Some).
  assert (Hapos : 0 <= a / 8) by (apply Z.div_pos; lia).
  unfold member. destruct (decide (0 <= x)) as [Hx|]; [|naive_solver lia].
  assert (Hxpos : 0 <= x / 8) by (apply Z.div_pos; lia).
  pose proof (Z.mod_pos_bound x 8 ltac:(lia)) as Hm.
  assert (Heq : x = a <-> x / 8 = a / 8 /\ x mod 8 = a mod 8).
  { split; [naive_solver|]. intros [Hd Hr]. rewrite (Z.div_mod x 8), (Z.div_mod a 8) by lia. lia. }
  destruct (decide (x / 8 = a / 8)) as [Hd|Hd].
  - rewrite Hd, list_lookup_insert_eq by done. split.
    + intros (_ & b' & [= <-] & Ht). rewrite Z.lor_spec, mask_bit in Ht by lia.
      apply orb_true_iff in Ht as [Ht|Ht%bool_decide_eq_true]; [left; eauto|right; tauto].
    + intros [(_ & b' & Hb' & Ht)|He].
      * rewrite Hb in Hb'. injection Hb' as <-. split; [done|]. eexists. split; [done|].
        by rewrite Z.lor_spec, Ht.
      * split; [done|]. eexists. split; [done|]. rewrite Z.lor_spec, mask_bit by lia.
        apply orb_true_iff. right. apply bool_decide_eq_true. tauto.
  - rewrite list_lookup_insert_ne by lia. naive_solver.
Qed.

Lemma member_empty n a : ~ member (replicate n 0) a.
Proof.
  intros (_ & b & Hb & Ht). apply lookup_replicate in Hb as [-> _]. by rewrite Z.bits_0 in Ht.
Qed.
