(* ===== verification/ValSpec.v ===== *)
(** * How a check may change the validator's state

    Every check on an instruction leaves the iterator where it is, only adds
    to the sets of addresses, never takes back an error, and writes nothing but
    halts over the current instruction: [grows].  [steps c Q v] says that from
    [v] the check [c] ends (it never runs out of fuel), that the state has
    grown, and that the result and the new state satisfy [Q]. *)

From S2P Require Import Prelude Effects Stateful Bytes OpKinds DecodeTables OpcodeTable InstBuffer.
From S2P Require Import ExpVector InstState InstTrans InstDecode TransSpec DecodeSpec InstIter.
From S2P Require Import IterSpec ValState AddressSet.

(** The fields no check changes. *)
Definition fixed (v : NaClValidatorState) :=
  (vbase v, codesize v, vbundle_size v, bundle_mask v, base_register v, cpu_features v, log_verbosity v,
   (cur_inst_state v, cur_iter v, cur_inst v, cur_inst_vector v), (do_stub_out v, readonly_text v, do_detailed v),
   set_array_size (jump_sets v)).

(** The bytes of the current instruction. *)
Definition in_current (v : NaClValidatorState) (x : Z) : Prop :=
  exists it, cur_iter v = Some it /\
    mpc (iter_memory it) <= x < mpc (iter_memory it) + read_length (iter_memory it).

Definition subset (s s' : list Z) : Prop := length s' = length s /\ forall x, member s x -> member s' x.

Record grows (v v' : NaClValidatorState) : Prop := {
  gr_fixed : fixed v' = fixed v;
  gr_ok : validates_ok v' = true -> validates_ok v = true;
  gr_quit : (quit v = true -> validates_ok v = false) -> quit v' = true -> validates_ok v' = false;
  gr_stub : did_stub_out v' = false -> did_stub_out v = false /\ ram v' = ram v;
  gr_readonly : readonly_text v = true -> do_stub_out v = false -> did_stub_out v' = did_stub_out v;
  gr_ram : forall x, ram v' x = ram v x \/ (ram v' x = kNaClFullStop /\ in_current v x);
  gr_actual : subset (actual_targets (jump_sets v)) (actual_targets (jump_sets v'));
  gr_possible : subset (possible_targets (jump_sets v)) (possible_targets (jump_sets v'));
  gr_removed : subset (removed_targets (jump_sets v)) (removed_targets (jump_sets v'));
  gr_starts : forall x, member (possible_targets (jump_sets v')) x ->
    member (possible_targets (jump_sets v)) x \/ exists it, cur_iter v = Some it /\ x = iter_index it;
}.

#[global] Instance subset_preorder : PreOrder subset.
Proof.
  split; [by split|]. intros s1 s2 s3 [Hl1 H1] [Hl2 H2]. split; [congruence|auto].
Qed.

Lemma fixed_iter v v' : fixed v' = fixed v -> cur_iter v' = cur_iter v.
Proof. unfold fixed. congruence. Qed.
Lemma fixed_stub v v' : fixed v' = fixed v -> do_stub_out v' = do_stub_out v.
Proof. unfold fixed. congruence. Qed.
Lemma fixed_readonly v v' : fixed v' = fixed v -> readonly_text v' = readonly_text v.
Proof. unfold fixed. congruence. Qed.

#[global] Instance grows_preorder : PreOrder grows.
Proof.
  split.
  - intros v. split; try done; auto.
  - intros v1 v2 v3 [F1 O1 Q1 S1 RO1 R1 A1 P1 M1 T1] [F2 O2 Q2 S2 RO2 R2 A2 P2 M2 T2]. split.
    + congruence.
    + auto.
    + auto.
    + intros H. destruct (S2 H) as [H2 ->]. auto.
    + intros Hr Hs. rewrite RO2, RO1; [done|done|done| |]; [by rewrite (fixed_readonly _ _ F1)|by rewrite (fixed_stub _ _ F1)].
    + intros x. destruct (R2 x) as [->|[? (it & Hit & ?)]]; [auto|]. right. split; [done|].
      exists it. by rewrite <- (fixed_iter _ _ F1).
    + by transitivity (actual_targets (jump_sets v2)).
    + by transitivity (possible_targets (jump_sets v2)).
    + by transitivity (removed_targets (jump_sets v2)).
    + intros x Hx. destruct (T2 x Hx) as [?|(it & Hit & ?)]; [auto|]. right. exists it. by rewrite <- (fixed_iter _ _ F1).
Qed.

(** ** Checks *)

Definition steps {A} (c : Val A) (Q : A -> NaClValidatorState -> Prop) (v : NaClValidatorState) : Prop :=
  wp terminates c (fun a v' => grows v v' /\ Q a v') v.

Section Rules.
Context {A B : Type}.
Implicit Types (c : Val A) (v : NaClValidatorState).

Lemma steps_ret (a : A) (Q : A -> NaClValidatorState -> Prop) v : Q a v -> steps (mret a) Q v.
Proof. intros HQ. by apply wp_ret. Qed.

Lemma steps_bind c (k : A -> Val B) P Q v :
  steps c P v -> (forall a v1, grows v v1 -> P a v1 -> steps (k a) Q v1) -> steps (c ≫= k) Q v.
Proof.
  intros Hc Hk. apply wp_bind. eapply wp_mono; [exact Hc|]. simpl. intros a v1 [Hg HP].
  eapply wp_mono; [by apply Hk|]. simpl. intros b v2 [Hg2 HQ]. split; [by transitivity v1|done].
Qed.

Lemma steps_mono c (P Q : A -> NaClValidatorState -> Prop) v :
  steps c P v -> (forall a v', grows v v' -> P a v' -> Q a v') -> steps c Q v.
Proof. intros Hc HQ. eapply wp_mono; [exact Hc|]. naive_solver. Qed.

Lemma steps_if (b : bool) c1 c2 Q v :
  (b = true -> steps c1 Q v) -> (b = false -> steps c2 Q v) -> steps (if b then c1 else c2) Q v.
Proof. destruct b; auto. Qed.

Lemma steps_lift (o : outcome A) (Q : A -> NaClValidatorState -> Prop) v :
  o <> Fault OutOfFuel -> (forall a, o = Ret a -> Q a v) -> steps (lift o) Q v.
Proof.
  intros Ho HQ. apply wp_lift. unfold wpo. destruct o as [a|f]; [split; [done|by apply HQ]|].
  unfold terminates. congruence.
Qed.

Lemma steps_abort f (Q : A -> NaClValidatorState -> Prop) v : f <> OutOfFuel -> steps (abort f) Q v.
Proof. intros Hf. by apply wp_abort. Qed.

(** A computation whose value is known and that leaves the state alone. *)
Lemma steps_eq c a (Q : A -> NaClValidatorState -> Prop) v : c v = Ret (a, v) -> Q a v -> steps c Q v.
Proof. intros Hc HQ. unfold steps, wp. rewrite Hc. done. Qed.

Lemma steps_bind_eq c (k : A -> Val B) a Q v : c v = Ret (a, v) -> steps (k a) Q v -> steps (c ≫= k) Q v.
Proof. intros Hc Hk. unfold steps. apply wp_bind. unfold wp at 1. by rewrite Hc. Qed.

Lemma steps_bind_lift (o : outcome A) (k : A -> Val B) Q v :
  o <> Fault OutOfFuel -> (forall a, o = Ret a -> steps (k a) Q v) -> steps (lift o ≫= k) Q v.
Proof.
  intros Ho Hk. eapply (steps_bind _ _ (fun a v' => v' = v /\ o = Ret a)); [by apply steps_lift|].
  intros a v1 _ [-> Ha]. by apply Hk.
Qed.

End Rules.

Lemma steps_bind_get {B} (k : NaClValidatorState -> Val B) Q v : steps (k v) Q v -> steps (get ≫= k) Q v.
Proof. by apply steps_bind_eq. Qed.

Lemma steps_get (Q : NaClValidatorState -> NaClValidatorState -> Prop) v : Q v v -> steps get Q v.
Proof. intros. by apply wp_get. Qed.

Lemma steps_modify f (Q : unit -> NaClValidatorState -> Prop) v : grows v (f v) -> Q tt (f v) -> steps (modify f) Q v.
Proof. intros. by apply wp_modify. Qed.

Lemma steps_put v' (Q : unit -> NaClValidatorState -> Prop) v : grows v v' -> Q tt v' -> steps (put v') Q v.
Proof. intros. by apply wp_put. Qed.

Lemma steps_require b msg (Q : unit -> NaClValidatorState -> Prop) v :
  (b = true -> Q tt v) -> steps (require b msg) Q v.
Proof. intros HQ. apply wp_require; [done|]. intros Hb. split; [reflexivity|auto]. Qed.

(** A property that stays true when the state grows. *)
Definition stable (P : NaClValidatorState -> Prop) : Prop := forall v v', grows v v' -> P v -> P v'.

Lemma steps_for_up n i (body : Z -> Val unit) (P : Z -> NaClValidatorState -> Prop) v :
  (forall j, stable (P j)) ->
  (forall j v1, grows v v1 -> i <= j < i + Z.of_nat n -> steps (body j) (fun _ v' => P j v') v1) ->
  steps (for_up n i body) (fun _ v' => forall j, i <= j < i + Z.of_nat n -> P j v') v.
Proof.
  intros Hst. revert i v. induction n as [|n IH]; intros i v Hb; simpl.
  - apply steps_ret. intros j Hj. lia.
  - eapply steps_bind; [apply (Hb i); [reflexivity|lia]|]. intros u v1 Hg Hi.
    eapply steps_mono.
    + apply IH. intros j v2 Hg2 Hj. apply Hb; [by transitivity v1|lia].
    + simpl. intros u2 v2 Hg2 Hall j Hj. destruct (decide (j = i)) as [->|]; [by eapply Hst|]. apply Hall. lia.
Qed.

(** ** Acceptance: no error so far, and errors count *)

Definition accepting (v : NaClValidatorState) : Prop := validates_ok v = true /\ do_stub_out v = false.

Lemma accepting_back v v' : grows v v' -> accepting v' -> accepting v.
Proof. intros Hg [H1 H2]. split; [by apply (gr_ok _ _ Hg)|]. by rewrite <- (fixed_stub _ _ (gr_fixed _ _ Hg)). Qed.

(** A fact that holds if the code is accepted in the end. *)
Definition if_accepted (P : NaClValidatorState -> Prop) (v : NaClValidatorState) : Prop := accepting v -> P v.

Lemma stable_if P : stable P -> stable (if_accepted P).
Proof. intros HP v v' Hg H Ha. eapply HP; [exact Hg|]. apply H. by eapply accepting_back. Qed.

Lemma stable_const (P : Prop) : stable (fun _ => P).
Proof. by intros v v'. Qed.

Lemma stable_actual x : stable (fun v => member (actual_targets (jump_sets v)) x).
Proof. intros v v' Hg. apply Hg. Qed.
Lemma stable_possible x : stable (fun v => member (possible_targets (jump_sets v)) x).
Proof. intros v v' Hg. apply Hg. Qed.
Lemma stable_removed x : stable (fun v => member (removed_targets (jump_sets v)) x).
Proof. intros v v' Hg. apply Hg. Qed.

(** ** At an instruction *)

Section Visit.
Variable tables : NaClDecodeTables.
Variable NaClLogGetVerbosity : Z.

(** The state while the instruction [s] at [a], after the instructions [h], is
    checked; [base] and [size] are the segment. *)
Record visiting (base size a : Z) (s : NaClInstState) (h : list NaClInstState) (v : NaClValidatorState) : Prop := {
  vi_iter : exists it, cur_iter v = Some it /\ standing tables (ram v) base size a s h it /\
    buffer_size it = 9 /\ cur_inst_state v = Some (buffer_index it) /\
    cur_inst_vector v = Some (buffer_index it) /\ cur_inst v = inst_at <$> inst s;
  vi_size : codesize v = size /\ a < size;
  vi_bundle : bundle_mask v = 31 /\ vbundle_size v = 32 /\ base_register v = RegR15;
  vi_sets : (forall x, 0 <= x < size -> x / 8 < Z.of_nat (length (actual_targets (jump_sets v)))) /\
    length (possible_targets (jump_sets v)) = length (actual_targets (jump_sets v)) /\
    length (removed_targets (jump_sets v)) = length (actual_targets (jump_sets v));
  vi_quit : quit v = true -> validates_ok v = false;
}.

Lemma visiting_grows base size a s h : stable (visiting base size a s h).
Proof.
  intros v v' Hg [(it & Hit & Hst & Hb & Hs & Hv & Hi) [Hsz Hlt] (Hm & Hb32 & Hr15) (Hx & Hl1 & Hl2) Hq].
  pose proof (gr_fixed _ _ Hg) as Hf. unfold fixed in Hf. injection Hf as E1 E2 E3 E4 E5 E6 E7 E8 E9 E10 E11 E12 E13 E14 E15.
  split; try congruence.
  - exists it. rewrite E8, E9, E10, E11. split_and!; try done.
    eapply standing_write; [|exact Hst]. intros x Hx'. destruct (gr_ram _ _ Hg x) as [->|[_ (it' & Hit' & Hin)]]; [done|].
    exfalso. apply Hx'. rewrite Hit in Hit'. injection Hit' as <-.
    pose proof (sd_memory _ _ _ _ _ _ _ _ Hst) as [R1 R2 R3 R4 R5 R6]. rewrite R1, R3 in Hin. exact Hin.
  - split; congruence.
  - split_and!; congruence.
  - rewrite (proj1 (gr_actual _ _ Hg)), (proj1 (gr_possible _ _ Hg)), (proj1 (gr_removed _ _ Hg)). done.
  - by apply (gr_quit _ _ Hg).
Qed.

(** Reading the state. *)
Section Reads.
Context (base size a : Z) (s : NaClInstState) (h : list NaClInstState) (v : NaClValidatorState).
Context (Hv : visiting base size a s h v).

Lemma shown_current : shown tables s.
Proof using Hv. destruct (vi_iter _ _ _ _ _ _ Hv) as (it & _ & Hst & _). apply Hst. Qed.

Lemma shown_lookback d s' : (s :: h) !! d = Some s' -> shown tables s'.
Proof using Hv.
  destruct (vi_iter _ _ _ _ _ _ Hv) as (it & _ & [Hw _ Hsh _ _] & _). destruct d as [|d]; simpl; [by intros [= <-]|].
  intros Hd. exact (Forall_lookup_1 _ _ _ _ (wk_shown _ _ _ _ _ _ Hw) Hd).
Qed.

Lemma eq_iter it : cur_iter v = Some it -> the_iter v = Ret (it, v).
Proof using. intros Hit. unfold the_iter, mbind, St_bind, get, lift, follow. by rewrite Hit. Qed.

(** A slot that holds the instruction [x]. *)
Definition holds (slot : Z) (x : NaClInstState) : Prop :=
  exists it, cur_iter v = Some it /\ 0 <= slot /\ buffer it !! Z.to_nat slot = Some x.

Lemma eq_inst_in slot x : holds slot x -> inst_in slot v = Ret (x, v).
Proof using.
  intros (it & Hit & H0 & Hx). unfold inst_in, mbind, St_bind. rewrite (eq_iter it Hit). unfold lift.
  by rewrite (proj2 (index_Some (buffer it) slot x)).
Qed.

Lemma eq_slot : exists slot, the_slot v = Ret (slot, v) /\ holds slot s /\ cur_inst_state v = Some slot.
Proof using Hv.
  destruct (vi_iter _ _ _ _ _ _ Hv) as (it & Hit & Hst & _ & Hs & _). exists (buffer_index it). split_and!; [|exists it|done].
  - unfold the_slot, mbind, St_bind, get, lift, follow. by rewrite Hs.
  - split_and!; [done| |apply Hst]. apply (wk_current _ _ _ _ _ _ (sd_walking _ _ _ _ _ _ _ _ Hst)).
Qed.

Lemma eq_current : current v = Ret (s, v).
Proof using Hv.
  destruct eq_slot as (slot & Hslot & Hh & _). unfold current, mbind, St_bind. rewrite Hslot. by apply eq_inst_in.
Qed.

(** The pattern of the current instruction. *)
Definition pattern (s' : NaClInstState) (i : NaClInst) : Prop :=
  NaClInstStateInst s' = Ret i /\ pattern_ok tables i.

Lemma shown_pattern s' : shown tables s' -> exists i, pattern s' i.
Proof using. intros [_ _ (p & Hp & Hpo)]. exists (inst_at p). split; [|done]. unfold NaClInstStateInst. by rewrite Hp. Qed.

Lemma eq_cur_inst i : pattern s i -> the_cur_inst v = Ret (i, v).
Proof using Hv.
  destruct (vi_iter _ _ _ _ _ _ Hv) as (it & _ & _ & _ & _ & _ & Hi). intros [Hp _]. unfold NaClInstStateInst in Hp.
  unfold the_cur_inst, mbind, St_bind, get, lift, follow. rewrite Hi.
  destruct (inst s) as [p|]; [|done]. simpl in *. congruence.
Qed.

Lemma eq_current_vector : current_vector v = Ret (nodes s, v).
Proof using Hv.
  destruct (vi_iter _ _ _ _ _ _ Hv) as (it & Hit & Hst & _ & _ & Hvec & _).
  unfold current_vector, mbind, St_bind, get, lift, follow. rewrite Hvec. rewrite (eq_inst_in _ s); [done|].
  exists it. split_and!; [done| |apply Hst]. apply (wk_current _ _ _ _ _ _ (sd_walking _ _ _ _ _ _ _ _ Hst)).
Qed.

Lemma eq_vector s' : shown tables s' -> vector_of tables s' v = Ret (nodes s', v).
Proof using.
  intros [Hd _ _]. unfold vector_of, NaClInstStateExpVector, mbind, St_bind, get, gets, lift. by rewrite Hd.
Qed.

Lemma eq_has_lookback d : 0 <= d -> exists b, has_lookback d v = Ret (b, v) /\
  (b = true -> exists s', (s :: h) !! Z.to_nat d = Some s' /\ d < 9).
Proof using Hv.
  intros Hd. destruct (vi_iter _ _ _ _ _ _ Hv) as (it & Hit & Hst & Hb & _).
  exists (NaClInstIterHasLookbackStateInline it d). split.
  - unfold has_lookback, mbind, St_bind. by rewrite (eq_iter it Hit).
  - intros Hl. destruct (has_lookback_ok _ _ _ _ _ _ _ _ _ Hst Hd Hl) as [s' Hs']. exists s'. split; [done|].
    unfold NaClInstIterHasLookbackStateInline in Hl. zbool. lia.
Qed.

(** The instruction [d] back. *)
Lemma eq_lookback d s' : 0 <= d < 9 -> (s :: h) !! Z.to_nat d = Some s' ->
  exists slot, lookback tables d v = Ret (slot, v) /\ holds slot s'.
Proof using Hv.
  intros Hd Hs'. destruct (vi_iter _ _ _ _ _ _ Hv) as (it & Hit & Hst & Hb & _).
  destruct (lookback_ok tables _ _ _ _ _ _ _ d s' Hst) as (Hl & Hbuf & H0); [lia|done|].
  exists (slot_of it d). split; [|by exists it].
  unfold lookback, on_iter, mbind, St_bind, get. rewrite (eq_iter it Hit). unfold lift. rewrite Hl. simpl.
  unfold modify, mret, St_ret. f_equal. f_equal. destruct v. simpl in Hit. by rewrite Hit.
Qed.

End Reads.

(** Looking back finds the instruction or fails an assertion. *)
Lemma steps_lookback {B} base size a s h v d (k : Z -> Val B) Q :
  visiting base size a s h v -> 0 <= d ->
  (forall slot s', (s :: h) !! Z.to_nat d = Some s' -> holds v slot s' -> shown tables s' -> steps (k slot) Q v) ->
  steps (lookback tables d ≫= k) Q v.
Proof using.
  intros Hv Hd HQ. destruct (vi_iter _ _ _ _ _ _ Hv) as (it & Hit & Hst & Hb & _).
  pose proof (wk_count _ _ _ _ _ _ (sd_walking _ _ _ _ _ _ _ _ Hst)) as Hc.
  destruct (decide (d < 9 /\ d <= Z.of_nat (length h))) as [[H1 H2]|Hn].
  - destruct (lookup_lt_is_Some_2 (s :: h) (Z.to_nat d)) as [s' Hs']; [simpl; lia|].
    destruct (eq_lookback _ _ _ _ _ _ Hv d s') as (slot & Hl & Hh); [lia|done|].
    eapply steps_bind_eq; [exact Hl|]. eapply HQ; [done|done|by eapply shown_lookback].
  - assert (Hf : exists msg, lookback tables d v = Fault (CheckFailed msg)).
    { unfold lookback, on_iter, mbind, St_bind, get. rewrite (eq_iter v it Hit). unfold lift.
      unfold NaClInstIterGetLookbackStateInline, mbind, St_bind, get, require. rewrite Hb, Hc.
      destruct (d <? 9) eqn:E1; zbool; [|by eexists]. unfold mret, St_ret.
      destruct (d <=? Z.of_nat (length h)) eqn:E2; zbool; [lia|]. by eexists. }
    destruct Hf as [msg Hf]. unfold steps, wp, mbind, St_bind. by rewrite Hf.
Qed.

(** A slot keeps its instruction. *)
Lemma holds_grows slot x : stable (fun v => holds v slot x).
Proof using. intros v v' Hg (it & Hit & ?). exists it. by rewrite (fixed_iter _ _ (gr_fixed _ _ Hg)). Qed.

End Visit.

(** ** Messages *)

Section Messages.
Variable NaClLogGetVerbosity : Z.

(** The sets, the memory and the stub-out flag stay; errors are recorded. *)
Lemma grows_flags v (f : NaClValidatorState -> NaClValidatorState) :
  fixed (f v) = fixed v -> jump_sets (f v) = jump_sets v -> ram (f v) = ram v -> did_stub_out (f v) = did_stub_out v ->
  (validates_ok (f v) = true -> validates_ok v = true) ->
  ((quit v = true -> validates_ok v = false) -> quit (f v) = true -> validates_ok (f v) = false) -> grows v (f v).
Proof using.
  intros Hf Hj Hr Hd Ho Hq. split; try done; rewrite ?Hj; try reflexivity; rewrite ?Hr, ?Hd; auto.
Qed.

Lemma quit_not_ok v : NaClValidatorQuit v = true -> validates_ok v = false.
Proof using. unfold NaClValidatorQuit. intros H. apply andb_true_iff in H as [H _]. by apply negb_true_iff. Qed.

Lemma step_message level v :
  steps (NaClValidatorMessage NaClLogGetVerbosity level) (fun _ v' => is_error level = true -> ~ accepting v') v.
Proof using.
  unfold NaClValidatorMessage. eapply (steps_bind _ _ (fun _ v' => is_error level = true -> ~ accepting v')).
  - apply steps_modify.
    + destruct (is_error level && negb (do_stub_out v)); [|reflexivity]. apply (grows_flags v (fun v =>
        let v := v <| validates_ok := false |> in v <| quit := NaClValidatorQuit v |>)); try done.
    + intros ->. simpl. destruct (do_stub_out v) eqn:Hd; simpl; intros [H1 H2]; simpl in *; congruence.
  - intros [] v1 Hg Hv1. apply steps_bind_get. apply steps_if; intros _; [|by apply steps_ret].
    assert (Hg1 : grows v1 (if is_error level && (0 <? quit_after_error_count v1) && negb (do_stub_out v1) then
      let v := v1 <| quit_after_error_count := quit_after_error_count v1 - 1 |> in
      v <| quit := NaClValidatorQuit v |> else v1)).
    { destruct (_ && _); [|reflexivity]. apply (grows_flags v1 (fun v =>
        let v := v <| quit_after_error_count := quit_after_error_count v - 1 |> in v <| quit := NaClValidatorQuit v |>));
        try done. intros _ Hq. by apply quit_not_ok in Hq. }
    apply steps_modify; [exact Hg1|]. intros He Ha. apply (Hv1 He). by eapply accepting_back.
Qed.

Lemma step_info v : steps (NaClValidatorMessage NaClLogGetVerbosity LOG_INFO) (fun _ _ => True) v.
Proof using. eapply steps_mono; [apply step_message|done]. Qed.

(** Halts over a part of the current instruction. *)
Lemma step_stub_mem ptr num v Q :
  (do_stub_out v = true \/ readonly_text v = false) ->
  (forall x, ptr <= x < ptr + num -> in_current v x) ->
  (forall v', grows v v' -> did_stub_out v' = true -> validates_ok v' = validates_ok v -> Q tt v') ->
  steps (NCStubOutMem ptr num) Q v.
Proof using.
  intros Hro Hin HQ. set (v' := v <| did_stub_out := true |> <| ram := mem_fill (ram v) ptr num kNaClFullStop |>).
  assert (Hg : grows v v').
  { split; try done; try reflexivity; auto. { intros ??. destruct Hro; congruence. }
    intros x. simpl. destruct (decide (ptr <= x < ptr + num)) as [Hx|Hx].
    - right. split; [by apply mem_fill_in|by apply Hin].
    - left. apply mem_fill_out. lia. }
  apply steps_modify; [exact Hg|]. by apply HQ.
Qed.

Lemma step_stub_inst slot v : do_stub_out v = true -> steps (NaClStubOutInst slot) (fun _ v' => validates_ok v' = validates_ok v) v.
Proof using.
  intros Hs. unfold NaClStubOutInst. destruct (cur_iter v) as [it|] eqn:Hit.
  - eapply steps_bind_eq; [by apply eq_iter|]. apply step_stub_mem; [by left| |done]. intros x Hx. by exists it.
  - assert (Hn : the_iter v = Fault NullDeref) by (unfold the_iter, mbind, St_bind, get, lift, follow; by rewrite Hit).
    unfold steps, wp, mbind, St_bind. by rewrite Hn.
Qed.

Lemma step_inst_message level slot v :
  steps (NaClValidatorInstMessage NaClLogGetVerbosity level slot) (fun _ v' => is_error level = true -> ~ accepting v') v.
Proof using.
  unfold NaClValidatorInstMessage. eapply steps_bind; [apply step_message|]. intros [] v1 Hg Hm.
  apply steps_bind_get. apply steps_if; intros Hs; [|by apply steps_ret]. apply andb_true_iff in Hs as [Hs _].
  eapply steps_mono; [by apply step_stub_inst|]. intros [] v2 Hg2 _ He Ha. apply (Hm He). by eapply accepting_back.
Qed.

(** An error message. *)
Lemma step_error slot (P : NaClValidatorState -> Prop) v :
  steps (NaClValidatorInstMessage NaClLogGetVerbosity LOG_ERROR slot) (fun _ => if_accepted P) v.
Proof using. eapply steps_mono; [apply step_inst_message|]. intros [] v' _ He Ha. by destruct (He eq_refl). Qed.

Lemma step_plain_error (P : NaClValidatorState -> Prop) v :
  steps (NaClValidatorMessage NaClLogGetVerbosity LOG_ERROR) (fun _ => if_accepted P) v.
Proof using. eapply steps_mono; [apply step_message|]. intros [] v' _ He Ha. by destruct (He eq_refl). Qed.

(** ** Sets of addresses *)

Lemma step_range address v :
  steps (NaClCheckAddressRange NaClLogGetVerbosity address)
    (fun b => if_accepted (fun v' => b = true /\ address < codesize v)) v.
Proof using.
  unfold NaClCheckAddressRange. apply steps_bind_get. apply steps_if; intros Hc; zbool.
  - eapply steps_bind; [apply (step_plain_error (fun _ => False))|]. intros [] v1 _ H. apply steps_ret.
    intros Ha. by destruct (H Ha).
  - apply steps_ret. by intros _.
Qed.

Lemma fixed_codesize v v' : grows v v' -> codesize v' = codesize v.
Proof using. intros Hg. pose proof (gr_fixed _ _ Hg) as Hf. unfold fixed in Hf. congruence. Qed.

Lemma index_not_fuel {A} (l : list A) i : Stateful.index l i <> Fault OutOfFuel.
Proof using. unfold Stateful.index. repeat case_match; congruence. Qed.

Lemma step_contains set address v :
  0 <= address ->
  steps (NaClAddressSetContains NaClLogGetVerbosity set address)
    (fun b => if_accepted (fun v' => (b = true <-> member set address) /\ address < codesize v)) v.
Proof using.
  intros H0. unfold NaClAddressSetContains. eapply steps_bind; [apply step_range|]. intros b v1 Hg Hb.
  apply steps_if; intros Eb.
  - apply steps_bind_lift; [apply index_not_fuel|]. intros x Hx. apply steps_ret. intros Ha.
    split; [|by apply Hb]. rewrite land_mask by done. apply index_Some in Hx as [_ Hx]. rewrite offset_div in Hx.
    unfold member. split; [intros Ht; split; [done|]; by exists x|]. intros (_ & y & Hy & Ht). congruence.
  - apply steps_ret. intros Ha. destruct (Hb Ha) as [Hb' _]. congruence.
Qed.

(** Adding an address to one of the sets. *)
Lemma step_add (field : NaClJumpSets -> NaClAddressSet) set_field address v :
  0 <= address ->
  (forall s v1, grows v v1 -> length s = length (field (jump_sets v1)) ->
     (forall x, member s x <-> member (field (jump_sets v1)) x \/ x = address) ->
     grows v1 (v1 <| jump_sets := set_field s (jump_sets v1) |>)) ->
  (forall s j, field (set_field s j) = s) ->
  steps (NaClAddressSetAddInline NaClLogGetVerbosity field set_field address)
    (fun _ => if_accepted (fun v' => member (field (jump_sets v')) address /\ address < codesize v')) v.
Proof using.
  intros H0 Hgrow Hfield. unfold NaClAddressSetAddInline. eapply steps_bind; [apply step_range|]. intros b v1 Hg Hb.
  apply steps_if; intros Eb.
  - apply steps_bind_get. cbv zeta. apply steps_bind_lift; [apply index_not_fuel|]. intros x Hx.
    apply index_Some in Hx as [_ Hx]. rewrite offset_div in *.
    pose proof (fun y => member_insert (field (jump_sets v1)) address x y H0 Hx) as Hmem.
    assert (Hg2 := Hgrow (<[Z.to_nat (address / 8) := Z.lor x (NaClPcAddressToMask address)]> (field (jump_sets v1))) v1 Hg
      (length_insert _ _ _) Hmem).
    apply steps_put; [exact Hg2|]. intros Ha. simpl. rewrite Hfield. split; [apply Hmem; by right|].
    destruct (Hb (accepting_back _ _ Hg2 Ha)) as [_ Hlt]. by rewrite (fixed_codesize _ _ Hg).
  - apply steps_ret. intros Ha. destruct (Hb Ha) as [Hb' _]. congruence.
Qed.

End Messages.
