(* ===== verification/Jumps.v ===== *)
(** * Jump targets: nc_jumps.c

    While the instructions are visited, three sets are collected: the starts
    of instructions, the targets of direct jumps, and the starts that lie
    inside a sequence that must not be entered.  [NaClJumpValidatorSummarize]
    compares them at the end.  NACL_FLAGS_identity_mask is FALSE. *)

From S2P Require Import Prelude Effects Stateful Bytes OpKinds DecodeTables InstBuffer ExpVector.
From S2P Require Import InstState InstTrans InstDecode InstIter ValState AddressSet.

Section Jumps.
Variable NaClLogGetVerbosity : Z.
Variable tables : NaClDecodeTables.

Abbreviation message := (NaClValidatorMessage NaClLogGetVerbosity).
Abbreviation inst_message := (NaClValidatorInstMessage NaClLogGetVerbosity).
Abbreviation vector_of := (vector_of tables).
Abbreviation lookback := (lookback tables).

Definition add_actual (address : Z) : Val unit :=
  NaClAddressSetAddInline NaClLogGetVerbosity actual_targets (fun s j => j <| actual_targets := s |>) address.
Definition add_possible (address : Z) : Val unit :=
  NaClAddressSetAddInline NaClLogGetVerbosity possible_targets (fun s j => j <| possible_targets := s |>) address.
Definition add_removed (address : Z) : Val unit :=
  NaClAddressSetAddInline NaClLogGetVerbosity removed_targets (fun s j => j <| removed_targets := s |>) address.

Definition NaClGetJumpMask (v : NaClValidatorState) : Z := u8 (Z.lnot (bundle_mask v)).

Definition NaClJumpValidatorInitialize `{Host} (size : Z) : option NaClJumpSets :=
  match NaClAddressSetCreate size, NaClAddressSetCreate size, NaClAddressSetCreate size with
  | Some a, Some p, Some r => Some (mkJumpSets a p r (NaClAddressSetArraySize size))
  | _, _, _ => None
  end.

(** ** Direct jumps *)

Definition jump_target (state : NaClInstState) (jump_offset : Z) : Z :=
  u64 (inst_addr state + blength (bytes state) + jump_offset).

Definition NaClAddJumpToJumpSets (slot : Z) (jump_offset : Z) : Val unit :=
  state ← inst_in slot;
  v ← get;
  let to_address := jump_target state jump_offset in
  if to_address <? codesize v then add_actual to_address
  else if Z.land to_address (bundle_mask v) =? 0 then mret tt
  else if unchanged state then mret tt
  else inst_message LOG_ERROR slot.

(** ** Marking *)

Definition NaClInstructionInCodeSegment (v : NaClValidatorState) (state : NaClInstState) : bool :=
  inst_addr state <? codesize v.

Definition NaClMarkInstructionJumpIllegal (slot : Z) : Val unit :=
  state ← inst_in slot;
  v ← get;
  if NaClInstructionInCodeSegment v state then add_removed (inst_addr state) else mret tt.

Definition NaClMarkInstructionsJumpRangeIllegal (distance : Z) : Val unit :=
  for_up (Z.to_nat distance) 0 (fun i => slot ← lookback i; NaClMarkInstructionJumpIllegal slot).

(** ** Indirect jumps *)

(** The nodes after the first two operand references, if there are two. *)
Fixpoint BinaryOperands_loop (k : nat) (i : Z) (vector : NaClExpVector) (op_1 : Z) : outcome (option (Z * Z)) :=
  match k with
  | O => Ret None
  | S k' =>
      n ← Stateful.index (node vector) i;
      if is_kind OperandReference n then
        if op_1 =? -1 then BinaryOperands_loop k' (i + 1) vector (i + 1)
        else Ret (Some (op_1, i + 1))
      else BinaryOperands_loop k' (i + 1) vector op_1
  end.

Definition NaClExtractBinaryOperandIndices (vector : NaClExpVector) : outcome (option (Z * Z)) :=
  BinaryOperands_loop (Z.to_nat (number_expr_nodes vector)) 0 vector (-1).

Definition NaClMemOffsetMatchesBasePlusIndex (vector : NaClExpVector) (memoffset_index : Z)
  (base_register : NaClOpKind) : outcome NaClOpKind :=
  let r1_index := memoffset_index + 1 in
  w1 ← NaClExpWidth vector r1_index;
  let r2_index := r1_index + w1 in
  w2 ← NaClExpWidth vector r2_index;
  let scale_index := r2_index + w2 in
  w3 ← NaClExpWidth vector scale_index;
  let disp_index := scale_index + w3 in
  r1 ← NaClGetExpVectorRegister vector r1_index;
  r2 ← NaClGetExpVectorRegister vector r2_index;
  scale_node ← Stateful.index (node vector) scale_index;
  disp_node ← Stateful.index (node vector) disp_index;
  offset_node ← Stateful.index (node vector) memoffset_index;
  if is_kind ExprMemOffset offset_node then
    Ret (if (r1 =? base_register) && (1 =? NaClGetExprUnsignedValue scale_node) &&
            (0 =? NaClGetExprSignedValue disp_node) then r2 else RegUnknown)
  else Fault (CheckFailed "ExprMemOffset == vector->node[memoffset_index].kind").

Definition NaClGetAndMaskReg32 (distance : Z) : Val NaClOpKind :=
  has ← has_lookback distance;
  if negb has then mret RegUnknown
  else
    slot ← lookback distance;
    state ← inst_in slot;
    i ← lift (NaClInstStateInst state);
    if negb (mnemonic_eqb (inst_name i) InstAnd) || (num_opcode_bytes state =? 0) then mret RegUnknown
    else
      b ← lift (Stateful.index (byte (bytes state)) (num_prefix_bytes state));
      if negb (b =? 131) then mret RegUnknown
      else
        vector ← vector_of state;
        ops ← lift (NaClExtractBinaryOperandIndices vector);
        match ops with
        | None => mret RegUnknown
        | Some (op_1, op_2) =>
            n1 ← lift (Stateful.index (node vector) op_1);
            if negb (is_kind ExprRegister n1) then mret RegUnknown
            else
              reg32 ← lift (NaClGetExpRegisterInline n1);
              v ← get;
              let mask := NaClGetJumpMask v in
              require ((mask =? 240) || (mask =? 224)) "0xf0 == mask || 0xe0 == mask" ;;
              n2 ← lift (Stateful.index (node vector) op_2);
              if negb (is_kind ExprConstant n2) || negb (mask =? NaClGetExprUnsignedValue n2)
              then mret RegUnknown else mret reg32
        end.

Definition NaClGetLeaMask64 (distance : Z) (reg_b : NaClOpKind) : Val NaClOpKind :=
  has ← has_lookback distance;
  if negb has then mret RegUnknown
  else
    slot ← lookback distance;
    state ← inst_in slot;
    i ← lift (NaClInstStateInst state);
    if negb (mnemonic_eqb (inst_name i) InstLea) then mret RegUnknown
    else
      vector ← vector_of state;
      ops ← lift (NaClExtractBinaryOperandIndices vector);
      match ops with
      | None => mret RegUnknown
      | Some (op_1, op_2) =>
          n1 ← lift (Stateful.index (node vector) op_1);
          if negb (is_kind ExprRegister n1) then mret RegUnknown
          else
            r ← lift (NaClGetExpRegisterInline n1);
            if negb (reg_b =? r) then mret RegUnknown
            else
              n2 ← lift (Stateful.index (node vector) op_2);
              if negb (is_kind ExprMemOffset n2) then mret RegUnknown
              else v ← get; lift (NaClMemOffsetMatchesBasePlusIndex vector op_2 (base_register v))
      end.

Definition NaClIsAddRbaseToReg64 (distance : Z) (reg64 : NaClOpKind) : Val bool :=
  has ← has_lookback distance;
  if negb has then mret false
  else
    slot ← lookback distance;
    state ← inst_in slot;
    i ← lift (NaClInstStateInst state);
    if negb (mnemonic_eqb (inst_name i) InstAdd) then mret false
    else
      vector ← vector_of state;
      ops ← lift (NaClExtractBinaryOperandIndices vector);
      match ops with
      | None => mret false
      | Some (op_1, op_2) =>
          n1 ← lift (Stateful.index (node vector) op_1);
          if negb (is_kind ExprRegister n1) then mret false
          else
            reg ← lift (NaClGetExpRegisterInline n1);
            if negb (reg =? reg64) then mret false
            else
              r2 ← lift (NaClGetExpVectorRegister vector op_2);
              v ← get; mret (r2 =? base_register v)
      end.

(** The two instructions before the jump mask the register and rebase it. *)
Definition IsMaskedJump (reg : NaClExp) : Val bool :=
  if negb (has_eflag reg ExprSize64) then mret false
  else
    jump_reg ← lift (NaClGetExpRegisterInline reg);
    if jump_reg =? RegUnknown then mret false
    else
      and_reg32 ← NaClGetAndMaskReg32 2;
      if and_reg32 =? RegUnknown then mret false
      else
        let and_reg64 := NaClGet64For32BitReg and_reg32 in
        if and_reg64 =? RegUnknown then mret false
        else
          lea_reg ← NaClGetLeaMask64 1 jump_reg;
          if and_reg64 =? lea_reg then mret true
          else NaClIsAddRbaseToReg64 1 and_reg64.

Definition NaClAddRegisterJumpIndirect64 (reg : NaClExp) : Val unit :=
  ok ← IsMaskedJump reg;
  cur ← the_slot;
  if (ok : bool) then
    slot ← lookback 1;
    NaClMarkInstructionJumpIllegal slot ;;
    NaClMarkInstructionJumpIllegal cur
  else inst_message LOG_ERROR cur.

(** ** The checks of one instruction *)

Definition AddExprJumpTarget_node (i : Z) : Val unit :=
  vector ← current_vector;
  n ← lift (Stateful.index (node vector) i);
  if negb (has_eflag n ExprJumpTarget) then mret tt
  else
    slot ← the_slot;
    match exp_kind n with
    | ExprRegister => NaClAddRegisterJumpIndirect64 n
    | ExprConstant => NaClAddJumpToJumpSets slot (NaClGetExprSignedValue n)
    | _ => inst_message LOG_ERROR slot
    end.

Definition NaClAddExprJumpTarget : Val unit :=
  vector ← current_vector;
  for_up (Z.to_nat (number_expr_nodes vector)) 0 AddExprJumpTarget_node.

Definition NaClValidateCallAlignment : Val unit :=
  slot ← the_slot;
  state ← current;
  v ← get;
  let next_addr := u64 (inst_addr state + NaClInstStateLength state) in
  if negb (Z.land next_addr (bundle_mask v) =? 0) then inst_message LOG_ERROR slot else mret tt.

Definition NaClRememberInstructionBoundary : Val unit :=
  slot ← the_slot;
  state ← current;
  v ← get;
  if negb (NaClInstructionInCodeSegment v state) then inst_message LOG_ERROR slot
  else add_possible (inst_addr state).

Definition is_jump (i : NaClInst) : bool :=
  NaClHasBit (inst_flags i) (Z.lor (FLAG JumpInstruction) (FLAG ConditionalJump)).

Definition NaClJumpValidator : Val unit :=
  NaClRememberInstructionBoundary ;;
  i ← the_cur_inst;
  if is_jump i then
    NaClAddExprJumpTarget ;;
    if mnemonic_eqb (inst_name i) InstCall then NaClValidateCallAlignment else mret tt
  else mret tt.

(** ** The summary *)

Definition IsNaClReachableAddress (addr : Z) : Val bool :=
  v ← get;
  possible ← NaClAddressSetContains NaClLogGetVerbosity (possible_targets (jump_sets v)) addr;
  if negb possible then mret false
  else
    v ← get;
    removed ← NaClAddressSetContains NaClLogGetVerbosity (removed_targets (jump_sets v)) addr;
    mret (negb removed).

(** The address [i * 8 + j] of a byte that has a problem. *)
Definition Summarize_address (addr : Z) : Val unit :=
  v ← get;
  if addr <? codesize v then
    actual ← NaClAddressSetContains NaClLogGetVerbosity (actual_targets (jump_sets v)) addr;
    if (actual : bool) then
      ok ← IsNaClReachableAddress addr;
      if (ok : bool) then mret tt else message LOG_ERROR
    else mret tt
  else mret tt.

Definition Summarize_byte (i : Z) : Val unit :=
  v ← get;
  let sets := jump_sets v in
  actual ← lift (Stateful.index (actual_targets sets) i);
  possible ← lift (Stateful.index (possible_targets sets) i);
  removed ← lift (Stateful.index (removed_targets sets) i);
  let problem := u8 (Z.land actual (Z.lor (Z.lnot possible) removed)) in
  if problem =? 0 then mret tt
  else for_up 8 0 (fun j => Summarize_address (Z.shiftl i 3 + j)).

(** The block addresses below the code size, [n] of them from [addr] on. *)
Fixpoint Summarize_blocks (n : nat) (addr : Z) : Val unit :=
  match n with
  | O => abort OutOfFuel
  | S n' =>
      v ← get;
      if addr <? codesize v then
        ok ← IsNaClReachableAddress addr;
        (if (ok : bool) then mret tt else message LOG_ERROR) ;;
        Summarize_blocks n' (addr + vbundle_size v)
      else mret tt
  end.

Definition NaClJumpValidatorSummarize : Val unit :=
  v ← get;
  if quit v then mret tt
  else
    message LOG_INFO ;;
    v ← get;
    for_up (Z.to_nat (set_array_size (jump_sets v))) 0 Summarize_byte ;;
    message LOG_INFO ;;
    v ← get;
    if negb (Z.land (vbase v) (bundle_mask v) =? 0) then message LOG_ERROR
    else Summarize_blocks (S (Z.to_nat (codesize v))) 0.

End Jumps.
