(* ===== verification/CheckSpec.v ===== *)
(** * Following a check on the current instruction

    The reading of the state while an instruction is checked, as rules for
    [steps], and the tactic [check] that applies them.  [reads c P v] says that
    [c] leaves the state alone and returns a value with the property [P]. *)

From S2P Require Import Prelude Effects Stateful Bytes OpKinds DecodeTables OpcodeTable InstBuffer.
From S2P Require Import ExpVector InstState InstTrans InstDecode TransSpec DecodeSpec InstIter.
From S2P Require Import IterSpec ValState AddressSet ValSpec Jumps.

Definition reads {A} (c : Val A) (P : A -> Prop) (v : NaClValidatorState) : Prop :=
  steps c (fun a v' => v' = v /\ P a) v.

Lemma reads_ret {A} (a : A) (P : A -> Prop) v : P a -> reads (mret a) P v.
Proof. intros HP. by apply steps_ret. Qed.

Lemma reads_mono {A} (c : Val A) (P Q : A -> Prop) v : reads c P v -> (forall a, P a -> Q a) -> reads c Q v.
Proof. intros Hc HQ. eapply steps_mono; [exact Hc|]. intros a v' _ [-> HP]. auto. Qed.

Lemma steps_bind_reads {A B} (c : Val A) (k : A -> Val B) P Q v :
  reads c P v -> (forall a, P a -> steps (k a) Q v) -> steps (c ≫= k) Q v.
Proof. intros Hc Hk. eapply steps_bind; [exact Hc|]. intros a v1 _ [-> HP]. by apply Hk. Qed.

Lemma steps_True {A} (c : Val A) Q v : steps c Q v -> steps c (fun _ _ => True) v.
Proof. intros Hc. by eapply steps_mono. Qed.

(** A check whose result does not matter for what follows. *)
Lemma steps_seq {A B} (c : Val A) (k : A -> Val B) P Q v :
  steps c P v -> (forall a v1, grows v v1 -> P a v1 -> steps (k a) Q v1) -> steps (c ≫= k) Q v.
Proof. apply steps_bind. Qed.

Section Reading.
Variable tables : NaClDecodeTables.
Context (base size a : Z) (s : NaClInstState) (h : list NaClInstState) (v : NaClValidatorState).
Context (Hv : visiting tables base size a s h v).
Context {B : Type} (Q : B -> NaClValidatorState -> Prop).

Lemma at_current (k : NaClInstState -> Val B) : steps (k s) Q v -> steps (current ≫= k) Q v.
Proof using Hv. apply steps_bind_eq. by eapply eq_current. Qed.

Lemma at_slot (k : Z -> Val B) :
  (forall slot, holds v slot s -> cur_inst_state v = Some slot -> steps (k slot) Q v) -> steps (the_slot ≫= k) Q v.
Proof using Hv.
  intros Hk. destruct (eq_slot _ _ _ _ _ _ _ Hv) as (slot & Hs & Hh & Hc). eapply steps_bind_eq; [exact Hs|]. by apply Hk.
Qed.

Lemma at_inst (k : NaClInst -> Val B) :
  (forall i, pattern tables s i -> steps (k i) Q v) -> steps (the_cur_inst ≫= k) Q v.
Proof using Hv.
  intros Hk. destruct (shown_pattern tables s (shown_current _ _ _ _ _ _ _ Hv)) as [i Hi].
  eapply steps_bind_eq; [by eapply eq_cur_inst|]. by apply Hk.
Qed.

Lemma at_vector (k : NaClExpVector -> Val B) : vector_ok (nodes s) -> steps (k (nodes s)) Q v -> steps (current_vector ≫= k) Q v.
Proof using Hv. intros _. apply steps_bind_eq. by eapply eq_current_vector. Qed.

Lemma at_inst_in slot x (k : NaClInstState -> Val B) : holds v slot x -> steps (k x) Q v -> steps (inst_in slot ≫= k) Q v.
Proof using. intros Hh. apply steps_bind_eq. by apply eq_inst_in. Qed.

Lemma at_vector_of x (k : NaClExpVector -> Val B) :
  shown tables x -> steps (k (nodes x)) Q v -> steps (vector_of tables x ≫= k) Q v.
Proof using. intros Hx. apply steps_bind_eq. by apply eq_vector. Qed.

Lemma at_require b msg (k : unit -> Val B) : (b = true -> steps (k tt) Q v) -> steps (require b msg ≫= k) Q v.
Proof using.
  intros Hk. eapply (steps_bind_reads _ _ (fun _ => b = true)); [by apply steps_require|]. intros []. exact Hk.
Qed.

(** Looking back [d] instructions when there are as many. *)
Lemma at_lookback d (k : bool -> Val B) :
  0 <= d -> (forall b : bool, (b = true -> exists x, (s :: h) !! Z.to_nat d = Some x /\ d < 9) -> steps (k b) Q v) ->
  steps (has_lookback d ≫= k) Q v.
Proof using Hv.
  intros Hd Hk. destruct (eq_has_lookback _ _ _ _ _ _ _ Hv d Hd) as (b & Hb & Hx).
  eapply steps_bind_eq; [exact Hb|]. by apply Hk.
Qed.

End Reading.

Lemma shown_vector tables s : shown tables s -> vector_ok (nodes s).
Proof. apply sh_nodes. Qed.

#[export] Hint Resolve shown_vector : ends.

(** [check]: follow the computation up to a call that has no rule. *)
Ltac use_visiting rule :=
  match goal with H : visiting _ _ _ _ _ _ ?v |- steps _ _ ?v => eapply (rule _ _ _ _ _ _ _ H) end.

Ltac check_step :=
  cbv beta zeta;
  lazymatch goal with
  | |- reads _ _ _ => unfold reads
  | |- steps (mret _) _ _ => apply steps_ret
  | |- steps (mret _ ≫= _) _ _ => eapply steps_bind_eq; [reflexivity|]
  | |- steps (lift ?o ≫= _) _ _ => apply steps_bind_lift; [change (ends o); solve [ends]|intros ? ?]
  | |- steps (lift ?o) _ _ => apply steps_lift; [change (ends o); solve [ends]|intros ? ?]
  | |- steps (require _ _ ≫= _) _ _ => apply at_require; intros ?
  | |- steps (get ≫= _) _ _ => apply steps_bind_get
  | |- steps (current ≫= _) _ _ => use_visiting at_current
  | |- steps (the_slot ≫= _) _ _ => use_visiting at_slot; intros ? ? ?
  | |- steps (the_cur_inst ≫= _) _ _ => use_visiting at_inst; intros ? ?
  | |- steps (current_vector ≫= _) _ _ => use_visiting at_vector; [by eapply shown_vector, shown_current|]
  | |- steps (inst_in _ ≫= _) _ _ => eapply at_inst_in; [eassumption|]
  | |- steps (vector_of _ _ ≫= _) _ _ => eapply at_vector_of; [first [eassumption|by eapply shown_current]|]
  | |- steps (has_lookback _ ≫= _) _ _ => use_visiting at_lookback; [lia|intros ? ?]
  | |- steps (lookback _ _ ≫= _) _ _ => eapply steps_lookback; [eassumption|lia|intros ? ? ? ? ?]
  | |- steps (if _ then _ else _) _ _ => apply steps_if; intros ?
  | |- steps (match ?o with _ => _ end) _ _ => destruct o eqn:?
  end.
Ltac check := repeat check_step.

(** ** Parts of the state that a check leaves alone *)

Definition keeps {X A} (f : NaClValidatorState -> X) (c : Val A) : Prop :=
  forall v a v', c v = Ret (a, v') -> f v' = f v.

Section Keeps.
Context {X : Type} (f : NaClValidatorState -> X).

Lemma keeps_steps {A} (c : Val A) Q v :
  keeps f c -> steps c Q v -> steps c (fun a v' => f v' = f v /\ Q a v') v.
Proof using.
  unfold steps, wp. intros Hk. destruct (c v) as [[a v']|e] eqn:Hc; [|done]. intros [Hg HQ].
  split_and!; [done|by eapply Hk|done].
Qed.

Lemma keeps_bind {A B} (c : Val A) (k : A -> Val B) : keeps f c -> (forall a, keeps f (k a)) -> keeps f (c ≫= k).
Proof using.
  intros Hc Hk v b v' H. unfold mbind, St_bind in H. destruct (c v) as [[a v1]|e] eqn:E; [|done].
  rewrite (Hk _ _ _ _ H). by eapply Hc.
Qed.

Lemma keeps_ret {A} (a : A) : keeps f (mret a).
Proof using. by intros v a' v' [= _ <-]. Qed.
Lemma keeps_get : keeps f get.
Proof using. by intros v a' v' [= _ <-]. Qed.
Lemma keeps_require b msg : keeps f (require b msg).
Proof using. intros v a v'. unfold require. destruct b; [by intros [= _ <-]|done]. Qed.
Lemma keeps_lift {A} (o : outcome A) : keeps f (lift o).
Proof using. intros v a v'. unfold lift. destruct o; [by intros [= _ <-]|done]. Qed.
Lemma keeps_modify g : (forall v, f (g v) = f v) -> keeps f (modify g).
Proof using. intros Hg v [] v' [= <-]. apply Hg. Qed.

Lemma keeps_for_up n i (body : Z -> Val unit) : (forall j, keeps f (body j)) -> keeps f (for_up n i body).
Proof using.
  intros Hb. revert i. induction n as [|n IH]; intros i; simpl; [apply keeps_ret|]. apply keeps_bind; [apply Hb|]. intros _. apply IH.
Qed.

End Keeps.

Create HintDb keeps.
#[export] Hint Resolve keeps_ret keeps_get keeps_lift keeps_require : keeps.

(** [keeps]: follow the computation. *)
Ltac keeps_step :=
  cbv zeta;
  lazymatch goal with
  | |- keeps _ (_ ≫= _) => apply keeps_bind; [|intros ?]
  | |- keeps _ (modify _) => apply keeps_modify; intros ?; repeat case_match; reflexivity
  | |- keeps _ (for_up _ _ _) => apply keeps_for_up; intros ?
  | |- keeps _ (if ?b then _ else _) => destruct b
  | |- keeps _ (match ?x with _ => _ end) => destruct x
  | |- keeps _ _ => solve [eauto with keeps]
  end.
Ltac keeps := repeat keeps_step.

(** Reading, and messages outside the fields that messages change. *)
Section KeepsReads.
Context {X : Type} (f : NaClValidatorState -> X).

Lemma keeps_the_iter : keeps f the_iter.
Proof using. unfold the_iter. keeps. Qed.
Lemma keeps_the_slot : keeps f the_slot.
Proof using. unfold the_slot. keeps. Qed.
Lemma keeps_the_cur_inst : keeps f the_cur_inst.
Proof using. unfold the_cur_inst. keeps. Qed.
#[local] Hint Resolve keeps_the_iter keeps_the_slot : keeps.
Lemma keeps_inst_in slot : keeps f (inst_in slot).
Proof using. unfold inst_in. keeps. Qed.
#[local] Hint Resolve keeps_inst_in : keeps.
Lemma keeps_current : keeps f current.
Proof using. unfold current. keeps. Qed.
Lemma keeps_current_vector : keeps f current_vector.
Proof using. unfold current_vector. keeps. Qed.
Lemma keeps_vector_of tables s : keeps f (vector_of tables s).
Proof using. unfold vector_of. keeps. Qed.
Lemma keeps_has_lookback d : keeps f (has_lookback d).
Proof using. unfold has_lookback. keeps. Qed.

End KeepsReads.
#[export] Hint Resolve keeps_the_iter keeps_the_slot keeps_the_cur_inst keeps_inst_in keeps_current keeps_current_vector
  keeps_vector_of keeps_has_lookback : keeps.

Section KeepsMessages.
Variable NaClLogGetVerbosity : Z.

Lemma keeps_message level : keeps jump_sets (NaClValidatorMessage NaClLogGetVerbosity level).
Proof using.
  unfold NaClValidatorMessage, NaClRecordIfValidatorError, NaClRecordErrorReported. keeps.
Qed.

(** The recorded writes to ESP and EBP are changed by the check of the
    registers only. *)
Lemma keeps_locals_message level : keeps set_base_registers (NaClValidatorMessage NaClLogGetVerbosity level).
Proof using.
  unfold NaClValidatorMessage, NaClRecordIfValidatorError, NaClRecordErrorReported. keeps.
Qed.
#[local] Hint Resolve keeps_locals_message : keeps.

Lemma keeps_locals_inst_message level slot :
  keeps set_base_registers (NaClValidatorInstMessage NaClLogGetVerbosity level slot).
Proof using. unfold NaClValidatorInstMessage, NaClStubOutInst, NCStubOutMem. keeps. Qed.

Lemma keeps_lookback tables d : keeps set_base_registers (lookback tables d).
Proof using. unfold lookback, on_iter. keeps. Qed.

End KeepsMessages.
#[export] Hint Resolve keeps_message keeps_locals_message keeps_locals_inst_message keeps_lookback : keeps.
