(* ===== verification/JumpSpec.v ===== *)
(** * Jumps: what the checks of nc_jumps.c establish *)

From S2P Require Import Prelude Effects Stateful Bytes OpKinds DecodeTables OpcodeTable InstBuffer.
From S2P Require Import ExpVector InstState InstTrans InstDecode TransSpec DecodeSpec InstIter.
From S2P Require Import IterSpec ValState AddressSet ValSpec Jumps CheckSpec.

(** ** What the jump checks establish

    For an instruction that passes [NaClJumpValidator]: its address is recorded
    as an instruction boundary, the target of a direct jump is recorded or is a
    bundle boundary outside the segment, an indirect jump follows a masking
    sequence that cannot be entered in the middle, and a call ends at the end
    of a bundle. *)

Section JumpSpec.
Variable NaClLogGetVerbosity : Z.
Variable tables : NaClDecodeTables.
Abbreviation visiting := (visiting tables).
Abbreviation shown := (shown tables).

(** ** The three sets *)

Lemma step_add_actual x v : 0 <= x ->
  steps (add_actual NaClLogGetVerbosity x)
    (fun _ => if_accepted (fun v' => member (actual_targets (jump_sets v')) x /\ x < codesize v')) v.
Proof using.
  intros Hx. apply step_add; [done| |done]. intros s v1 _ Hl Hs.
  split; simpl; try done; try reflexivity; auto. split; [done|]. intros y Hy. apply Hs. by left.
Qed.

Lemma step_add_removed x v : 0 <= x ->
  steps (add_removed NaClLogGetVerbosity x)
    (fun _ => if_accepted (fun v' => member (removed_targets (jump_sets v')) x /\ x < codesize v')) v.
Proof using.
  intros Hx. apply step_add; [done| |done]. intros s v1 _ Hl Hs.
  split; simpl; try done; try reflexivity; auto. split; [done|]. intros y Hy. apply Hs. by left.
Qed.

(** Only the address of the current instruction is added to the boundaries. *)
Lemma step_add_possible x v : 0 <= x -> (exists it, cur_iter v = Some it /\ x = iter_index it) ->
  steps (add_possible NaClLogGetVerbosity x)
    (fun _ => if_accepted (fun v' => member (possible_targets (jump_sets v')) x /\ x < codesize v')) v.
Proof using.
  intros Hx (it & Hit & Hxi). apply step_add; [done| |done]. intros s v1 Hg Hl Hs.
  split; simpl; try done; try reflexivity; auto.
  - split; [done|]. intros y Hy. apply Hs. by left.
  - intros y Hy. apply Hs in Hy as [?| ->]; [by left|]. right. exists it. split; [|done].
    by rewrite (fixed_iter _ _ (gr_fixed _ _ Hg)).
Qed.

(** ** Direct jumps *)

Definition direct_ok (s : NaClInstState) (offset : Z) (v : NaClValidatorState) : Prop :=
  let t := jump_target s offset in
  (t < codesize v -> member (actual_targets (jump_sets v)) t) /\
  (codesize v <= t -> Z.land t (bundle_mask v) = 0 \/ unchanged s = true).

Lemma fixed_bundle v v' : grows v v' -> bundle_mask v' = bundle_mask v /\ vbundle_size v' = vbundle_size v /\ base_register v' = base_register v.
Proof using. intros Hg. pose proof (gr_fixed _ _ Hg) as Hf. unfold fixed in Hf. split_and!; congruence. Qed.

Lemma direct_ok_stable s offset : stable (direct_ok s offset).
Proof using.
  intros v v' Hg [H1 H2]. unfold direct_ok. rewrite (fixed_codesize _ _ Hg). destruct (fixed_bundle _ _ Hg) as (-> & _).
  split; [|done]. intros Hlt. by eapply stable_actual; [|apply H1].
Qed.

Lemma jump_target_nonneg s offset : 0 <= jump_target s offset.
Proof using. unfold jump_target, u64. apply Z.mod_pos_bound. done. Qed.

Lemma step_direct slot s offset v :
  holds v slot s ->
  steps (NaClAddJumpToJumpSets NaClLogGetVerbosity slot offset) (fun _ => if_accepted (direct_ok s offset)) v.
Proof using.
  intros Hh. unfold NaClAddJumpToJumpSets. eapply steps_bind_eq; [by apply eq_inst_in|]. apply steps_bind_get. cbv zeta.
  apply steps_if; intros H1; zbool.
  - eapply steps_mono; [apply step_add_actual, jump_target_nonneg|]. intros [] v' Hg Hadd Ha.
    destruct (Hadd Ha) as [Hm Hlt]. split; [done|]. intros. lia.
  - apply steps_if; intros H2; zbool.
    + apply steps_ret. intros Ha. split; [lia|auto].
    + apply steps_if; intros H3; [|apply step_error]. apply steps_ret. intros Ha. split; [lia|auto].
Qed.

(** ** Marking *)

Definition removed (s : NaClInstState) (v : NaClValidatorState) : Prop :=
  inst_addr s < codesize v -> member (removed_targets (jump_sets v)) (inst_addr s).

Lemma removed_stable s : stable (removed s).
Proof using. intros v v' Hg H Hlt. rewrite (fixed_codesize _ _ Hg) in Hlt. by eapply stable_removed; [|apply H]. Qed.

Lemma step_mark slot s v :
  holds v slot s -> 0 <= inst_addr s ->
  steps (NaClMarkInstructionJumpIllegal NaClLogGetVerbosity slot) (fun _ => if_accepted (removed s)) v.
Proof using.
  intros Hh H0. unfold NaClMarkInstructionJumpIllegal. eapply steps_bind_eq; [by apply eq_inst_in|].
  apply steps_bind_get. unfold NaClInstructionInCodeSegment. apply steps_if; intros Hc; zbool.
  - eapply steps_mono; [by apply step_add_removed|]. intros [] v' _ Hadd Ha _. by apply Hadd.
  - apply steps_ret. intros _ Hlt. lia.
Qed.

(** The addresses of the instructions looked back at. *)
Definition addresses_ok (s : NaClInstState) (h : list NaClInstState) : Prop :=
  forall d s', (s :: h) !! d = Some s' -> 0 <= inst_addr s'.

Lemma step_mark_range base size a s h n v :
  visiting base size a s h v -> addresses_ok s h ->
  steps (NaClMarkInstructionsJumpRangeIllegal NaClLogGetVerbosity tables n)
    (fun _ => if_accepted (fun v' => forall d s', Z.of_nat d < n -> (s :: h) !! d = Some s' -> removed s' v')) v.
Proof using.
  intros Hv Hadd. unfold NaClMarkInstructionsJumpRangeIllegal.
  eapply steps_mono; [apply (steps_for_up _ _ _ (fun j => if_accepted (fun v' => forall s',
    (s :: h) !! Z.to_nat j = Some s' -> removed s' v')))|].
  - intros j. apply stable_if. intros v1 v2 Hg H s' Hs'. by eapply removed_stable; [|apply H].
  - intros j v1 Hg Hj. pose proof (visiting_grows _ _ _ _ _ _ _ _ Hg Hv) as Hv1.
    eapply steps_lookback; [done|lia|]. intros slot s' Hs' Hh _.
    eapply steps_mono; [apply (step_mark _ s'); [done|by eapply Hadd]|]. intros [] v2 _ Hm Ha s'' Hs''.
    rewrite Hs' in Hs''. injection Hs'' as <-. by apply Hm.
  - intros [] v1 _ Hall Ha d s' Hd Hs'. apply (Hall (Z.of_nat d)); [lia|done|]. by rewrite Nat2Z.id.
Qed.

(** ** Indirect jumps *)

(** Node [k] of the instruction. *)
Definition node_at (x : NaClInstState) (k : Z) (n : NaClExp) : Prop := index (node (nodes x)) k = Ret n.

Definition named (x : NaClInstState) (name : NaClMnemonic) : Prop :=
  exists i, NaClInstStateInst x = Ret i /\ inst_name i = name.

Lemma named_intro x i name : NaClInstStateInst x = Ret i -> mnemonic_eqb (inst_name i) name = true -> named x name.
Proof using. intros Hi Hn%mnemonic_eqb_eq. by exists i. Qed.

(** The instruction is a [name] with operands at the nodes [op_1] and [op_2]. *)
Definition binary (x : NaClInstState) (name : NaClMnemonic) (op_1 op_2 : Z) : Prop :=
  named x name /\
  NaClExtractBinaryOperandIndices (nodes x) = Ret (Some (op_1, op_2)).

Lemma binary_intro x i name op_1 op_2 :
  NaClInstStateInst x = Ret i -> mnemonic_eqb (inst_name i) name = true ->
  NaClExtractBinaryOperandIndices (nodes x) = Ret (Some (op_1, op_2)) -> binary x name op_1 op_2.
Proof using. intros Hi Hn Ho. split; [by eapply named_intro|done]. Qed.

Definition is_register (n : NaClExp) (r : NaClOpKind) : Prop :=
  is_kind ExprRegister n = true /\ NaClGetExpRegisterInline n = Ret r.

(** [and $-32, %reg] with the one-byte immediate 0xe0, which is sign extended. *)
Definition and_mask (x : NaClInstState) (reg : NaClOpKind) : Prop :=
  exists op_1 op_2 n1 n2, binary x InstAnd op_1 op_2 /\ node_at x op_1 n1 /\ node_at x op_2 n2 /\
    index (byte (bytes x)) (num_prefix_bytes x) = Ret 131 /\
    is_register n1 reg /\ is_kind ExprConstant n2 = true /\ NaClGetExprUnsignedValue n2 = 224.

(** [lea jump_reg, [%r15 + reg * 1 + 0]]. *)
Definition lea_base (x : NaClInstState) (jump_reg reg : NaClOpKind) : Prop :=
  exists op_1 op_2 n1 n2, binary x InstLea op_1 op_2 /\ node_at x op_1 n1 /\ node_at x op_2 n2 /\
    is_register n1 jump_reg /\ is_kind ExprMemOffset n2 = true /\
    NaClMemOffsetMatchesBasePlusIndex (nodes x) op_2 RegR15 = Ret reg.

(** [add reg, %r15]. *)
Definition add_base (x : NaClInstState) (reg : NaClOpKind) : Prop :=
  exists op_1 op_2 n1, binary x InstAdd op_1 op_2 /\ node_at x op_1 n1 /\
    is_register n1 reg /\ NaClGetExpVectorRegister (nodes x) op_2 = Ret RegR15.

(** The register [n] is jumped to after it was masked and rebased: [x2] and
    [x1] are the two instructions before.  For the [add] the code does not
    compare the register with the one that is jumped to. *)
Definition masked (n : NaClExp) (x1 x2 : NaClInstState) : Prop :=
  exists jump_reg reg32, NaClGetExpRegisterInline n = Ret jump_reg /\ and_mask x2 reg32 /\
    NaClGet64For32BitReg reg32 <> RegUnknown /\
    (lea_base x1 jump_reg (NaClGet64For32BitReg reg32) \/ add_base x1 (NaClGet64For32BitReg reg32)).

Lemma ends_operands_loop k i vec op : ends (BinaryOperands_loop k i vec op).
Proof using. revert i op. induction k as [|k IH]; intros i op; simpl; [done|]. ends; apply IH. Qed.

Lemma ends_binary vec : ends (NaClExtractBinaryOperandIndices vec).
Proof using. apply ends_operands_loop. Qed.

Lemma ends_base_index vec k r : vector_ok vec -> ends (NaClMemOffsetMatchesBasePlusIndex vec k r).
Proof using. intros Hv. unfold NaClMemOffsetMatchesBasePlusIndex. ends. Qed.
#[local] Hint Resolve ends_binary ends_base_index shown_vector : ends.

Section Indirect.
Context (base size a : Z) (s : NaClInstState) (h : list NaClInstState) (v : NaClValidatorState).
Context (Hv : visiting base size a s h v).

Lemma and_mask_read d : 0 <= d ->
  reads (NaClGetAndMaskReg32 tables d) (fun r => r <> RegUnknown ->
    exists x, (s :: h) !! Z.to_nat d = Some x /\ and_mask x r) v.
Proof using Hv.
  intros Hd. unfold NaClGetAndMaskReg32. check; try by split. zbool. subst. split; [done|]. intros _.
  eexists. split; [done|]. eexists _, _, _, _. split; [by eapply binary_intro|]. split_and!; try eassumption; try done.
  destruct (vi_bundle _ _ _ _ _ _ _ Hv) as [Hm _].
  unfold NaClGetJumpMask in *. by rewrite Hm in *.
Qed.

Lemma lea_read d r : 0 <= d ->
  reads (NaClGetLeaMask64 tables d r) (fun r' => r' <> RegUnknown ->
    exists x, (s :: h) !! Z.to_nat d = Some x /\ lea_base x r r') v.
Proof using Hv.
  intros Hd. unfold NaClGetLeaMask64. check; try by split. zbool. subst. split; [done|]. intros _.
  eexists. split; [done|]. destruct (vi_bundle _ _ _ _ _ _ _ Hv) as (_ & _ & Hr). rewrite Hr in *.
  eexists _, _, _, _. split; [by eapply binary_intro|]. split_and!; try eassumption; done.
Qed.

Lemma add_read d r : 0 <= d ->
  reads (NaClIsAddRbaseToReg64 tables d r) (fun b => b = true ->
    exists x, (s :: h) !! Z.to_nat d = Some x /\ add_base x r) v.
Proof using Hv.
  intros Hd. unfold NaClIsAddRbaseToReg64. check; try by split. split; [done|]. intros Hb. zbool. subst.
  eexists. split; [done|]. destruct (vi_bundle _ _ _ _ _ _ _ Hv) as (_ & _ & Hr). rewrite Hr in *.
  eexists _, _, _. split; [by eapply binary_intro|]. split_and!; try eassumption; done.
Qed.

Lemma masked_read n :
  reads (IsMaskedJump tables n) (fun b => b = true ->
    exists x1 x2, h !! 0%nat = Some x1 /\ h !! 1%nat = Some x2 /\ masked n x1 x2) v.
Proof using Hv.
  unfold IsMaskedJump. check; try by split.
  eapply steps_bind_reads; [by apply and_mask_read|]. intros r32 Hand. check; try by split.
  eapply steps_bind_reads; [by apply lea_read|]. intros r Hlea. zbool.
  destruct Hand as (x2 & Hx2 & Hand); [done|]. check.
  - split; [done|]. intros _. zbool. subst r. destruct Hlea as (x1 & Hx1 & Hlea); [done|].
    exists x1, x2. split_and!; [done|done|]. eexists _, r32. split_and!; eauto.
  - eapply reads_mono; [by apply add_read|]. intros b Hadd Hb. destruct (Hadd Hb) as (x1 & Hx1 & Ha1).
    exists x1, x2. split_and!; [done|done|]. eexists _, r32. split_and!; eauto.
Qed.

End Indirect.

(** The jump and the instruction before it are not entered. *)
Definition indirect_ok (n : NaClExp) (s : NaClInstState) (h : list NaClInstState) (v : NaClValidatorState) : Prop :=
  exists x1 x2, h !! 0%nat = Some x1 /\ h !! 1%nat = Some x2 /\ masked n x1 x2 /\ removed x1 v /\ removed s v.

Lemma step_indirect base size a s h v n :
  visiting base size a s h v -> addresses_ok s h ->
  steps (NaClAddRegisterJumpIndirect64 NaClLogGetVerbosity tables n) (fun _ => if_accepted (indirect_ok n s h)) v.
Proof using.
  intros Hv Hadd. unfold NaClAddRegisterJumpIndirect64. eapply steps_bind_reads; [by eapply masked_read|].
  intros b Hb. check; [|apply step_error]. destruct Hb as (x1 & x2 & Hx1 & Hx2 & Hm); [done|].
  match goal with H : (s :: h) !! Z.to_nat 1 = Some ?y |- _ => assert (y = x1) as -> by (simpl in H; congruence) end.
  eapply steps_bind; [apply step_mark; [done|by apply (Hadd 1%nat)]|]. intros [] v1 Hg Hr1.
  eapply steps_mono; [apply (step_mark _ s); [by eapply holds_grows|by apply (Hadd 0%nat)]|].
  intros [] v2 Hg2 Hr2 Ha. exists x1, x2. split_and!; try done; [|by apply Hr2].
  eapply removed_stable; [exact Hg2|]. apply Hr1. by eapply accepting_back.
Qed.

(** ** The checks of one instruction *)

(** The jump expressed by a node. *)
Definition target_ok (s : NaClInstState) (h : list NaClInstState) (n : NaClExp) (v : NaClValidatorState) : Prop :=
  has_eflag n ExprJumpTarget = true ->
  match exp_kind n with
  | ExprRegister => indirect_ok n s h v
  | ExprConstant => direct_ok s (NaClGetExprSignedValue n) v
  | _ => False
  end.

Lemma indirect_ok_stable n s h : stable (indirect_ok n s h).
Proof using.
  intros v v' Hg (x1 & x2 & ? & ? & ? & ? & ?). exists x1, x2. split_and!; try done; by eapply removed_stable.
Qed.

Lemma target_ok_stable s h n : stable (target_ok s h n).
Proof using.
  intros v v' Hg H Hn. specialize (H Hn). destruct (exp_kind n); try done;
    first [by eapply direct_ok_stable|by eapply indirect_ok_stable].
Qed.

(** Every jump target among the nodes. *)
Definition targets_ok (s : NaClInstState) (h : list NaClInstState) (v : NaClValidatorState) : Prop :=
  forall k n, 0 <= k < number_expr_nodes (nodes s) -> node_at s k n -> target_ok s h n v.

Lemma step_target base size a s h k v :
  visiting base size a s h v -> addresses_ok s h ->
  steps (AddExprJumpTarget_node NaClLogGetVerbosity tables k)
    (fun _ => if_accepted (fun v' => forall n, node_at s k n -> target_ok s h n v')) v.
Proof using.
  intros Hv Hadd. unfold AddExprJumpTarget_node, node_at. check; try apply step_error.
  { intros Ha n Hn Hj. zbool. congruence. }
  all: eapply steps_mono; [first [by eapply step_indirect|by apply step_direct]|].
  all: intros [] v2 _ Hd Ha n Hn; unfold target_ok; intros _.
  all: match goal with Hx : index _ _ = Ret ?x, Hy : index _ _ = Ret ?y, Hk : exp_kind ?x = _ |- context [exp_kind ?y] =>
    replace y with x by congruence; rewrite Hk; by apply Hd end.
Qed.

Lemma step_targets base size a s h v :
  visiting base size a s h v -> addresses_ok s h ->
  steps (NaClAddExprJumpTarget NaClLogGetVerbosity tables) (fun _ => if_accepted (targets_ok s h)) v.
Proof using.
  intros Hv Hadd. unfold NaClAddExprJumpTarget. check.
  eapply steps_mono; [apply (steps_for_up _ _ _ (fun k => if_accepted (fun v' => forall n, node_at s k n -> target_ok s h n v')))|].
  - intros k. apply stable_if. intros v1 v2 Hg H n Hn. by eapply target_ok_stable; [|apply H].
  - intros k v1 Hg Hk. pose proof (visiting_grows _ _ _ _ _ _ _ _ Hg Hv) as Hv1. by eapply step_target.
  - intros [] v1 _ Hall Ha k n Hk Hn. apply (Hall k); [lia|done|done].
Qed.

(** The next instruction starts a bundle. *)
Definition call_ok (s : NaClInstState) : Prop := Z.land (u64 (inst_addr s + blength (bytes s))) 31 = 0.

Lemma step_call base size a s h v :
  visiting base size a s h v ->
  steps (NaClValidateCallAlignment NaClLogGetVerbosity) (fun _ => if_accepted (fun _ => call_ok s)) v.
Proof using.
  intros Hv. unfold NaClValidateCallAlignment. check; [apply step_error|]. intros _. zbool.
  destruct (vi_bundle _ _ _ _ _ _ _ Hv) as [Hm _]. by rewrite Hm in *.
Qed.

Lemma step_boundary base size a s h v :
  visiting base size a s h v -> 0 <= inst_addr s ->
  steps (NaClRememberInstructionBoundary NaClLogGetVerbosity)
    (fun _ => if_accepted (fun v' => member (possible_targets (jump_sets v')) (inst_addr s))) v.
Proof using.
  intros Hv H0. unfold NaClRememberInstructionBoundary. check; [apply step_error|].
  destruct (vi_iter _ _ _ _ _ _ _ Hv) as (it & Hit & [Hw _ _ _ [Hi _]] & _).
  eapply steps_mono; [apply step_add_possible; [done|]|].
  - exists it. split; [done|]. by rewrite (wk_index _ _ _ _ _ _ Hw).
  - intros [] v' _ Hadd Ha. by apply Hadd.
Qed.

(** What is known of an instruction that passed. *)
Definition jumps_ok (s : NaClInstState) (h : list NaClInstState) (v : NaClValidatorState) : Prop :=
  member (possible_targets (jump_sets v)) (inst_addr s) /\
  forall i, NaClInstStateInst s = Ret i -> is_jump i = true ->
    targets_ok s h v /\ (inst_name i = InstCall -> call_ok s).

Lemma jumps_ok_stable s h : stable (jumps_ok s h).
Proof using.
  intros v v' Hg [H1 H2]. split; [by eapply stable_possible|]. intros i Hi Hj. destruct (H2 i Hi Hj) as [H3 H4].
  split; [|done]. intros k n Hk Hn. eapply target_ok_stable; [exact Hg|]. by apply (H3 k).
Qed.

Lemma step_jumps base size a s h v :
  visiting base size a s h v -> addresses_ok s h ->
  steps (NaClJumpValidator NaClLogGetVerbosity tables) (fun _ => if_accepted (jumps_ok s h)) v.
Proof using.
  intros Hv Hadd. unfold NaClJumpValidator.
  eapply steps_bind; [eapply step_boundary; [done|by apply (Hadd 0%nat)]|]. intros [] v1 Hg Hb.
  pose proof (visiting_grows _ _ _ _ _ _ _ _ Hg Hv) as Hv1. check.
  - match goal with H : pattern _ _ ?x |- _ => destruct H as [Hi _]; rename x into i end.
    eapply steps_bind; [by eapply step_targets|]. intros [] v2 Hg2 Ht.
    pose proof (visiting_grows _ _ _ _ _ _ _ _ Hg2 Hv1) as Hv2. check.
    + eapply steps_mono; [by eapply step_call|]. intros [] v3 Hg3 Hc Ha.
      pose proof (accepting_back _ _ Hg3 Ha) as Ha2. pose proof (accepting_back _ _ Hg2 Ha2) as Ha1.
      eapply jumps_ok_stable; [exact Hg3|]. split.
      * eapply stable_possible; [exact Hg2|]. by apply Hb.
      * intros i' Hi' _. split; [by apply Ht|]. intros _. by apply Hc.
    + intros Ha. split; [eapply stable_possible; [exact Hg2|]; apply Hb; by eapply accepting_back|].
      intros i' Hi' _. split; [by apply Ht|]. intros Hc%mnemonic_eqb_eq. congruence.
  - intros Ha. split; [by apply Hb|]. intros i' Hi' Hj.
    match goal with H : pattern _ _ _ |- _ => destruct H as [Hi _] end. congruence.
Qed.

End JumpSpec.

(** ** What the jump summary establishes

    When [NaClJumpValidatorSummarize] reports no error, every recorded target
    of a direct jump and every start of a bundle is the start of an instruction
    and not inside a sequence that must not be entered. *)

(** An address where execution may start. *)
Definition enterable (sets : NaClJumpSets) (x : Z) : Prop :=
  member (possible_targets sets) x /\ ~ member (removed_targets sets) x.

Section Summary.
Variable NaClLogGetVerbosity : Z.

Lemma keeps_contains set x : keeps jump_sets (NaClAddressSetContains NaClLogGetVerbosity set x).
Proof using. unfold NaClAddressSetContains, NaClCheckAddressRange. keeps. Qed.
#[local] Hint Resolve keeps_contains : keeps.

Lemma step_reachable x v : 0 <= x ->
  steps (IsNaClReachableAddress NaClLogGetVerbosity x) (fun b v' => jump_sets v' = jump_sets v /\
    if_accepted (fun v' => b = true -> enterable (jump_sets v') x) v') v.
Proof using.
  intros Hx. unfold IsNaClReachableAddress. check.
  eapply steps_bind; [apply (keeps_steps jump_sets); [keeps|by apply step_contains]|].
  intros p v1 Hg1 [Hs1 Hp]. check; [by split|].
  eapply steps_bind; [apply (keeps_steps jump_sets); [keeps|by apply step_contains]|].
  intros r v2 Hg2 [Hs2 Hr]. check. split; [congruence|]. intros Ha Hb. zbool.
  pose proof (accepting_back _ _ Hg2 Ha) as Ha1. destruct (Hp Ha1) as [[Hp1 _] _]. destruct (Hr Ha) as [[_ Hr1] _].
  unfold enterable. rewrite Hs2, Hs1. split; [by apply Hp1|]. intros Hm. rewrite Hs1 in Hr1. specialize (Hr1 Hm). congruence.
Qed.

(** A direct jump target is fine. *)
Definition entered (x : Z) (v : NaClValidatorState) : Prop :=
  x < codesize v -> member (actual_targets (jump_sets v)) x -> enterable (jump_sets v) x.

Lemma entered_same x v v' : grows v v' -> jump_sets v' = jump_sets v -> entered x v -> entered x v'.
Proof using. intros Hg Hs. unfold entered. rewrite Hs, (fixed_codesize _ _ Hg). done. Qed.

Lemma step_error_kept (P : NaClValidatorState -> Prop) v :
  steps (NaClValidatorMessage NaClLogGetVerbosity LOG_ERROR)
    (fun _ v' => jump_sets v' = jump_sets v /\ if_accepted P v') v.
Proof using. apply (keeps_steps jump_sets); [keeps|apply step_plain_error]. Qed.

Lemma step_summarize_address x v : 0 <= x ->
  steps (Summarize_address NaClLogGetVerbosity x) (fun _ v' => jump_sets v' = jump_sets v /\ if_accepted (entered x) v') v.
Proof using.
  intros Hx. unfold Summarize_address. check; [|split; [done|]; intros _ Hlt; zbool; lia].
  eapply steps_bind; [apply (keeps_steps jump_sets); [keeps|by apply step_contains]|].
  intros b v1 Hg1 [Hs1 Hb]. check.
  - eapply steps_bind; [by apply step_reachable|]. intros ok v2 Hg2 [Hs2 Hok]. check.
    + split; [congruence|]. intros Ha _ _. by apply Hok.
    + eapply steps_mono; [apply step_error_kept|]. simpl. intros [] v3 _ [Hs3 He]. split; [congruence|exact He].
  - split; [done|]. intros Ha _ Hm. destruct (Hb Ha) as [[_ Hb1] _]. rewrite Hs1 in Hm. specialize (Hb1 Hm). congruence.
Qed.

(** A loop whose body keeps the sets. *)
Lemma steps_for_up_kept n i (body : Z -> Val unit) (P : Z -> NaClValidatorState -> Prop) v :
  (forall j v1 v2, grows v1 v2 -> jump_sets v2 = jump_sets v1 -> P j v1 -> P j v2) ->
  (forall j v1, grows v v1 -> jump_sets v1 = jump_sets v -> i <= j < i + Z.of_nat n ->
     steps (body j) (fun _ v' => jump_sets v' = jump_sets v1 /\ P j v') v1) ->
  steps (for_up n i body) (fun _ v' => jump_sets v' = jump_sets v /\ forall j, i <= j < i + Z.of_nat n -> P j v') v.
Proof using.
  intros Hst. revert i v. induction n as [|n IH]; intros i v Hb; simpl.
  - apply steps_ret. split; [done|]. intros j Hj. lia.
  - eapply steps_bind; [apply (Hb i); [reflexivity|done|lia]|]. intros u v1 Hg [Hs Hi].
    eapply steps_mono.
    + apply IH. intros j v2 Hg2 Hs2 Hj. apply Hb; [by transitivity v1|congruence|lia].
    + simpl. intros u2 v2 Hg2 [Hs2 Hall]. split; [congruence|]. intros j Hj.
      destruct (decide (j = i)) as [->|]; [by eapply Hst|]. apply Hall. lia.
Qed.

Lemma if_entered x v1 v2 : grows v1 v2 -> jump_sets v2 = jump_sets v1 -> if_accepted (entered x) v1 -> if_accepted (entered x) v2.
Proof using. intros Hg Hs H Ha. eapply entered_same; [done|done|]. apply H. by eapply accepting_back. Qed.

Lemma byte_problem actual possible removed k :
  u8 (Z.land actual (Z.lor (Z.lnot possible) removed)) = 0 -> 0 <= k < 8 ->
  Z.testbit actual k = true -> Z.testbit possible k = true /\ Z.testbit removed k = false.
Proof using.
  intros Hp Hk Ha. apply (f_equal (fun z => Z.testbit z k)) in Hp. unfold u8 in Hp.
  change 256 with (2 ^ 8) in Hp. rewrite Z.mod_pow2_bits_low, Z.land_spec, Z.lor_spec, Z.lnot_spec, Z.bits_0, Ha in Hp by lia.
  simpl in Hp. apply orb_false_iff in Hp as [Hn Hr]. by apply negb_false_iff in Hn.
Qed.

Lemma step_summarize_byte i v : 0 <= i ->
  steps (Summarize_byte NaClLogGetVerbosity i) (fun _ v' => jump_sets v' = jump_sets v /\
    if_accepted (fun v' => forall x, 0 <= x -> x / 8 = i -> entered x v') v') v.
Proof using.
  intros Hi. unfold Summarize_byte. check.
  - split; [done|]. intros _ x Hx Hd _ (_ & b & Hb & Ht). zbool. pose proof (Z.mod_pos_bound x 8 ltac:(lia)) as Hm.
    subst i. repeat match goal with H : index _ _ = Ret _ |- _ => apply index_Some in H as [_ H] end.
    rewrite Hb in *. simplify_eq. edestruct byte_problem as [Hp Hr]; [done|exact Hm|exact Ht|]. split.
    + split; [done|]. eauto.
    + intros (_ & r & Hr' & Htr). congruence.
  - eapply steps_mono; [apply (steps_for_up_kept _ _ _ (fun j => if_accepted (entered (Z.shiftl i 3 + j))))|].
    + intros j v1 v2. apply if_entered.
    + intros j v1 _ _ Hj. apply step_summarize_address. rewrite Z.shiftl_mul_pow2 by lia. lia.
    + simpl. intros [] v' _ [Hs Hall]. split; [done|]. intros Ha x Hx Hd.
      pose proof (Z.mod_pos_bound x 8 ltac:(lia)) as Hm.
      replace x with (Z.shiftl i 3 + x mod 8) by (rewrite Z.shiftl_mul_pow2 by lia; rewrite (Z.div_mod x 8) at 2; lia).
      apply Hall; [lia|done].
Qed.

(** Every block address from [x] on. *)
Definition blocks_ok (x : Z) (v : NaClValidatorState) : Prop :=
  forall k, 0 <= k -> x + 32 * k < codesize v -> enterable (jump_sets v) (x + 32 * k).

Lemma step_blocks n x v : 0 <= x -> vbundle_size v = 32 -> (0 < n)%nat -> codesize v - x < Z.of_nat n ->
  steps (Summarize_blocks NaClLogGetVerbosity n x) (fun _ v' => jump_sets v' = jump_sets v /\ if_accepted (blocks_ok x) v') v.
Proof using.
  revert x v. induction n as [|n IH]; intros x v Hx Hb Hn Hc; [lia|]. simpl. check.
  2: { split; [done|]. intros _ k Hk Hlt. zbool. lia. }
  zbool. eapply steps_bind; [by apply step_reachable|]. intros ok v1 Hg1 [Hs1 Hok].
  eapply (steps_bind _ _ (fun _ v' => jump_sets v' = jump_sets v1 /\ if_accepted (fun v' => enterable (jump_sets v') x) v')).
  { check; [|apply step_error_kept]. split; [done|]. intros Ha. by apply Hok. }
  intros [] v2 Hg2 [Hs2 He]. assert (Hg : grows v v2) by (by transitivity v1).
  eapply steps_mono; [apply IH|].
  - rewrite Hb. lia.
  - pose proof (gr_fixed _ _ Hg) as Hf. unfold fixed in Hf. congruence.
  - lia.
  - rewrite Hb, (fixed_codesize _ _ Hg). lia.
  - simpl. intros [] v3 Hg3 [Hs3 Hbl]. split; [congruence|]. intros Ha k Hk Hlt.
    destruct (decide (k = 0)) as [->|].
    + rewrite Z.mul_0_r, Z.add_0_r in *. rewrite Hs3. apply He. by eapply accepting_back.
    + specialize (Hbl Ha (k - 1)). rewrite Hb in Hbl. replace (x + 32 + 32 * (k - 1)) with (x + 32 * k) in Hbl by lia.
      apply Hbl; [lia|done].
Qed.

(** All of the summary. *)
Definition summary_ok (v : NaClValidatorState) : Prop :=
  (forall x, 0 <= x -> x / 8 < set_array_size (jump_sets v) -> entered x v) /\ blocks_ok 0 v /\ Z.land (vbase v) (bundle_mask v) = 0.

Lemma step_summary v :
  vbundle_size v = 32 -> 0 <= codesize v -> (quit v = true -> validates_ok v = false) ->
  steps (NaClJumpValidatorSummarize NaClLogGetVerbosity) (fun _ v' => jump_sets v' = jump_sets v /\ if_accepted summary_ok v') v.
Proof using.
  intros Hb Hc Hq. unfold NaClJumpValidatorSummarize. check.
  { split; [done|]. intros [Ha _]. rewrite Hq in Ha; done. }
  eapply steps_bind; [apply (keeps_steps jump_sets); [keeps|apply step_info]|]. intros [] v1 Hg1 [Hs1 _]. check.
  eapply steps_bind.
  { apply (steps_for_up_kept _ _ _ (fun i => if_accepted (fun v' => forall x, 0 <= x -> x / 8 = i -> entered x v'))).
    - intros i va vb Hg Hs Hi Ha x Hx Hd. eapply entered_same; [done|done|]. apply Hi; [by eapply accepting_back|done|done].
    - intros i va _ _ Hi. apply step_summarize_byte. lia. }
  intros [] v2 Hg2 [Hs2 Hall].
  eapply steps_bind; [apply (keeps_steps jump_sets); [keeps|apply step_info]|]. intros [] v3 Hg3 [Hs3 _]. check.
  { eapply steps_mono; [apply step_error_kept|]. simpl. intros [] v4 _ [Hs4 He]. split; [congruence|exact He]. }
  assert (Hg : grows v v3) by (transitivity v1; [done|by transitivity v2]). pose proof (gr_fixed _ _ Hg) as Hf.
  eapply steps_mono; [apply step_blocks; [lia| |lia|lia]|].
  - unfold fixed in Hf. congruence.
  - simpl. intros [] v4 Hg4 [Hs4 Hbl]. split; [congruence|]. intros Ha.
    pose proof (accepting_back _ _ Hg4 Ha) as Ha3. pose proof (accepting_back _ _ Hg3 Ha3) as Ha2. split_and!.
    + intros x Hx Hd. eapply entered_same; [exact Hg4|done|]. eapply entered_same; [exact Hg3|done|].
      assert (Hp : 0 <= x / 8) by (apply Z.div_pos; lia). apply (Hall (x / 8)); [|done|done|done].
      rewrite Hs4, Hs3, Hs2 in Hd. lia.
    + by apply Hbl.
    + zbool. pose proof (gr_fixed _ _ Hg4) as Hf4. unfold fixed in Hf4. congruence.
Qed.

End Summary.
