(* ===== verification/ProtectBase.v ===== *)
(** * Registers that keep the sandbox: ncvalidate_utils.c, nc_protect_base.c

    R15 holds the base of the sandbox; RSP and RBP point into it.  No
    instruction may change R15, and RSP and RBP may be changed only in a few
    ways.  A 32-bit write to ESP or EBP is recorded in a buffer of two entries
    and is an error unless the next instruction rebases the register. *)

From S2P Require Import Prelude Effects Stateful Bytes OpKinds DecodeTables InstBuffer ExpVector.
From S2P Require Import InstState InstTrans InstDecode InstIter ValState AddressSet Jumps.

Section ProtectBase.
Variable NaClLogGetVerbosity : Z.
Variable tables : NaClDecodeTables.

Abbreviation inst_message := (NaClValidatorInstMessage NaClLogGetVerbosity).
Abbreviation mark_illegal := (NaClMarkInstructionJumpIllegal NaClLogGetVerbosity).

(** ** Patterns *)

Definition NaClOpSetOrUse : Z := FLAGS [OpSet; OpUse].

Definition NaClIsBinaryUsingRegisters (i : NaClInst) (name : NaClMnemonic) (vector : NaClExpVector)
  (reg_1 reg_2 : NaClOpKind) : outcome bool :=
  if negb (mnemonic_eqb name (inst_name i)) then Ret false
  else if negb (NaClGetInstNumberOperandsInline i =? 2) then Ret false
  else
    n1 ← index (node vector) 1;
    if negb (is_kind ExprRegister n1) then Ret false
    else
      r1 ← NaClGetExpRegisterInline n1;
      if negb (reg_1 =? r1) then Ret false
      else
        n3 ← index (node vector) 3;
        if negb (is_kind ExprRegister n3) then Ret false
        else r3 ← NaClGetExpRegisterInline n3; Ret (reg_2 =? r3).

(** The set and use flags of the two operands. *)
Definition operand_flags (i : NaClInst) (flags0 flags1 : Z) : outcome bool :=
  op0 ← NaClGetInstOperandInline tables i 0;
  if negb (flags0 =? Z.land (op_flags op0) NaClOpSetOrUse) then Ret false
  else
    op1 ← NaClGetInstOperandInline tables i 1;
    Ret (flags1 =? Z.land (op_flags op1) NaClOpSetOrUse).

Definition NaClIsMovUsingRegisters (i : NaClInst) (vector : NaClExpVector) (reg_set reg_use : NaClOpKind)
  : outcome bool :=
  b ← NaClIsBinaryUsingRegisters i InstMov vector reg_set reg_use;
  if (b : bool) then operand_flags i (FLAG OpSet) (FLAG OpUse) else Ret false.

Definition NaClIsBinarySetUsingRegisters (i : NaClInst) (name : NaClMnemonic) (vector : NaClExpVector)
  (reg_1 reg_2 : NaClOpKind) : outcome bool :=
  b ← NaClIsBinaryUsingRegisters i name vector reg_1 reg_2;
  if (b : bool) then operand_flags i NaClOpSetOrUse (FLAG OpUse) else Ret false.

Definition NaClOperandOneIsRegisterSet (state : NaClInstState) (reg_name : NaClOpKind) : Val bool :=
  vector ← vector_of tables state;
  if 2 <=? number_expr_nodes vector then
    op_reg ← lift (index (node vector) 1);
    if negb (is_kind ExprRegister op_reg) then mret false
    else
      r ← lift (NaClGetExpRegisterInline op_reg);
      mret ((reg_name =? r) && has_eflag op_reg ExprSet)
  else mret false.

Definition NaClOperandOneZeroExtends (state : NaClInstState) : outcome bool :=
  i ← NaClInstStateInst state;
  if negb (1 <=? NaClGetInstNumberOperandsInline i) then Ret false
  else
    op ← NaClGetInstOperandInline tables i 0;
    Ret (has_opflag op OperandZeroExtends_v && (NaClInstStateOperandSize state =? 4)).

Definition NaClAssignsRegisterWithZeroExtends (state : NaClInstState) (reg_name : NaClOpKind) : Val bool :=
  b ← NaClOperandOneIsRegisterSet state reg_name;
  if (b : bool) then lift (NaClOperandOneZeroExtends state) else mret false.

Definition NaClAssignsRegisterWithZeroExtends32 (distance : Z) (reg32 : NaClOpKind) : Val bool :=
  has ← has_lookback distance;
  if (has : bool) then
    slot ← lookback tables distance;
    state ← inst_in slot;
    NaClAssignsRegisterWithZeroExtends state reg32
  else mret false.

Definition NaClAssignsRegisterWithZeroExtends64 (distance : Z) (reg64 : NaClOpKind) : Val bool :=
  reg32 ← lift (NaClGet32For64BitReg reg64);
  if reg32 =? RegUnknown then mret false else NaClAssignsRegisterWithZeroExtends32 distance reg32.

(** [lea _, [%reg+%rbase*1]] *)
Definition NaClIsLeaAddressRegPlusRbase (state : NaClInstState) (reg : NaClOpKind) : Val bool :=
  i ← lift (NaClInstStateInst state);
  if negb (mnemonic_eqb (inst_name i) InstLea && (NaClGetInstNumberOperandsInline i =? 2)) then mret false
  else
    vector ← vector_of tables state;
    v ← get;
    lift (
      nth ← NaClGetNthExpKind vector OperandReference 2;
      op2_index ← NaClGetExpKidIndex vector nth 0;
      op2 ← index (node vector) op2_index;
      if negb (is_kind ExprMemOffset op2 && has_eflag op2 ExprSize64) then Ret false
      else
        let base_reg_index := op2_index + 1 in
        base_reg ← NaClGetExpVectorRegister vector base_reg_index;
        if negb (base_reg =? reg) then Ret false
        else
          w1 ← NaClExpWidth vector base_reg_index;
          let index_reg_index := base_reg_index + w1 in
          index_reg ← NaClGetExpVectorRegister vector index_reg_index;
          if negb (index_reg =? base_register v) then Ret false
          else
            w2 ← NaClExpWidth vector index_reg_index;
            let scale_index := index_reg_index + w2 in
            scale ← index (node vector) scale_index;
            if negb (is_kind ExprConstant scale && (NaClGetExprUnsignedValue scale =? 1)) then Ret false
            else
              w3 ← NaClExpWidth vector scale_index;
              disp ← index (node vector) (scale_index + w3);
              Ret (is_kind ExprConstant disp && (NaClGetExprSignedValue disp =? 0))).

Definition NaClAcceptLeaWithMoveLea32To64 (reg : NaClOpKind) : Val bool :=
  state ← current;
  b ← NaClOperandOneIsRegisterSet state reg;
  if negb b then mret false
  else
    b ← NaClIsLeaAddressRegPlusRbase state reg;
    if negb b then mret false else NaClAssignsRegisterWithZeroExtends64 1 reg.

(** ** The recorded writes *)

Definition NACL_REGISTER_LOCALS_BUFFER_SIZE : Z := 2.

Definition NaClBaseRegisterMemoryInitialize : NaClBaseRegisterLocals :=
  mkBaseLocals (replicate 2 (mkLocals None None)) 0 1.

Definition alter_locals (idx : Z) (f : NaClRegisterLocals -> NaClRegisterLocals) : Val unit :=
  modify (fun v =>
    let l := set_base_registers v in
    v <| set_base_registers := l <| locals_buffer := alter f (Z.to_nat idx) (locals_buffer l) |> |>).

Definition NaClMaybeReportPreviousBad : Val unit :=
  v ← get;
  let prev := previous_index (set_base_registers v) in
  l ← lift (index (locals_buffer (set_base_registers v)) prev);
  (match esp_set_inst l with
   | Some slot => inst_message LOG_ERROR slot ;; alter_locals prev (fun l => l <| esp_set_inst := None |>)
   | None => mret tt
   end) ;;
  (match ebp_set_inst l with
   | Some slot => inst_message LOG_ERROR slot ;; alter_locals prev (fun l => l <| ebp_set_inst := None |>)
   | None => mret tt
   end) ;;
  modify (fun v =>
    let l := set_base_registers v in
    v <| set_base_registers := l <| previous_index := current_index l |>
           <| current_index := (current_index l + 1) mod NACL_REGISTER_LOCALS_BUFFER_SIZE |> |>).

(** The fix-up was found: the previous write is fine, and the instruction must
    not be a jump target. *)
Definition accept_rebase (f : NaClRegisterLocals -> NaClRegisterLocals) : Val unit :=
  slot ← the_slot;
  mark_illegal slot ;;
  v ← get;
  alter_locals (previous_index (set_base_registers v)) f.

Definition forget_esp (l : NaClRegisterLocals) : NaClRegisterLocals := l <| esp_set_inst := None |>.
Definition forget_ebp (l : NaClRegisterLocals) : NaClRegisterLocals := l <| ebp_set_inst := None |>.

(** ** Writes to RSP and RBP *)

(** Case 5: and $rsp, 0xXX with a negative byte. *)
Definition is_and_rsp_imm8 (state : NaClInstState) : outcome bool :=
  if negb (NaClInstStateLength state =? 4) then Ret false
  else
    b0 ← NaClInstStateByte state 0;
    if negb (b0 =? 72) then Ret false
    else
      b1 ← NaClInstStateByte state 1;
      if negb (b1 =? 131) then Ret false
      else
        b2 ← NaClInstStateByte state 2;
        if negb (b2 =? 228) then Ret false
        else b3 ← NaClInstStateByte state 3; Ret (cbool (Z.land b3 128)).

(** The forms that make an assignment to RSP at node [i] legal: [Some true]
    for the ones that also fix the previous write to ESP. *)
Definition RspAssignment_ok (i : Z) : Val (option bool) :=
  state ← current;
  pattern ← the_cur_inst;
  vector ← current_vector;
  let if_mov_rbp :=
    b ← lift (NaClIsMovUsingRegisters pattern vector RegRSP RegRBP);
    mret (if (b : bool) then Some false else None) in
  match inst_name pattern with
  | InstPush | InstPop => mret (if i =? 1 then Some false else None)
  | InstCall => mret (if i =? 3 then Some false else None)
  | InstOr | InstAdd =>
      v ← get;
      b ← lift (NaClIsBinarySetUsingRegisters pattern (inst_name pattern) vector RegRSP (base_register v));
      if (b : bool) then
        z ← NaClAssignsRegisterWithZeroExtends32 1 RegESP;
        mret (if (z : bool) then Some true else None)
      else mret None
  | InstLea =>
      b ← NaClAcceptLeaWithMoveLea32To64 RegRSP;
      mret (if (b : bool) then Some true else None)
  | InstAnd =>
      b ← lift (is_and_rsp_imm8 state);
      if (b : bool) then mret (Some false) else if_mov_rbp
  | _ => if_mov_rbp
  end.

Definition NaClCheckRspAssignments (i : Z) : Val unit :=
  ok ← RspAssignment_ok i;
  match ok with
  | Some true => accept_rebase forget_esp
  | Some false => mret tt
  | None => slot ← the_slot; inst_message LOG_ERROR slot
  end.

Definition RbpAssignment_ok : Val (option bool) :=
  pattern ← the_cur_inst;
  vector ← current_vector;
  match inst_name pattern with
  | InstAdd =>
      v ← get;
      b ← lift (NaClIsBinarySetUsingRegisters pattern InstAdd vector RegRBP (base_register v));
      if (b : bool) then
        z ← NaClAssignsRegisterWithZeroExtends32 1 RegEBP;
        mret (if (z : bool) then Some true else None)
      else mret None
  | InstLea =>
      b ← NaClAcceptLeaWithMoveLea32To64 RegRBP;
      mret (if (b : bool) then Some true else None)
  | _ =>
      b ← lift (NaClIsMovUsingRegisters pattern vector RegRBP RegRSP);
      mret (if (b : bool) then Some false else None)
  end.

Definition NaClCheckRbpAssignments : Val unit :=
  ok ← RbpAssignment_ok;
  match ok with
  | Some true => accept_rebase forget_ebp
  | Some false => mret tt
  | None => slot ← the_slot; inst_message LOG_ERROR slot
  end.

Definition NaClCheckSubregChangeOfRspRbpOrBase (reg_name : NaClOpKind) : Val unit :=
  slot ← the_slot;
  v ← get;
  b ← lift (NaClIs64Subreg reg_name (base_register v));
  if (b : bool) then inst_message LOG_ERROR slot
  else
    b ← lift (NaClIs64Subreg reg_name RegRSP);
    if (b : bool) then inst_message LOG_ERROR slot
    else
      b ← lift (NaClIs64Subreg reg_name RegRBP);
      if (b : bool) then inst_message LOG_ERROR slot else mret tt.

(** ** The check of one instruction *)

Definition BaseRegister_node (i : Z) : Val unit :=
  vector ← current_vector;
  n ← lift (index (node vector) i);
  if is_kind ExprRegister n && has_eflag n ExprSet then
    reg_name ← lift (NaClGetExpRegisterInline n);
    slot ← the_slot;
    v ← get;
    let cur := current_index (set_base_registers v) in
    if reg_name =? base_register v then inst_message LOG_ERROR slot
    else if reg_name =? RegRSP then NaClCheckRspAssignments i
    else if reg_name =? RegRBP then NaClCheckRbpAssignments
    else if reg_name =? RegESP then alter_locals cur (fun l => l <| esp_set_inst := Some slot |>)
    else if reg_name =? RegEBP then alter_locals cur (fun l => l <| ebp_set_inst := Some slot |>)
    else if one_of reg_name [RegCS; RegDS; RegSS; RegES; RegFS; RegGS] then inst_message LOG_ERROR slot
    else NaClCheckSubregChangeOfRspRbpOrBase reg_name
  else mret tt.

Definition NaClBaseRegisterValidator : Val unit :=
  vector ← current_vector;
  for_up (Z.to_nat (number_expr_nodes vector)) 0 BaseRegister_node ;;
  NaClMaybeReportPreviousBad.

Definition NaClBaseRegisterSummarize : Val unit := NaClMaybeReportPreviousBad.

End ProtectBase.
