(* ===== verification/BaseSpec.v ===== *)
(** * What the check of the registers establishes

    No instruction sets R15, a segment register or a part of R15, RSP or RBP;
    RSP and RBP are set in a few ways only; and a 32-bit write to ESP or EBP is
    followed at once by the instruction that rebases the register. *)

From S2P Require Import Prelude Effects Stateful Bytes OpKinds DecodeTables OpcodeTable InstBuffer.
From S2P Require Import ExpVector InstState InstTrans InstDecode TransSpec DecodeSpec InstIter.
From S2P Require Import IterSpec ValState AddressSet ValSpec Jumps CheckSpec JumpSpec ProtectBase.

(** ** Patterns *)

Section Patterns.
Variable tables : NaClDecodeTables.

(** [x] assigns the register [r], its first operand, and clears the upper half
    of the 64-bit register. *)
Definition zero_extends (x : NaClInstState) (r : NaClOpKind) : Prop :=
  exists n, node_at x 1 n /\ is_register n r /\ has_eflag n ExprSet = true /\ NaClOperandOneZeroExtends tables x = Ret true.

(** [x] is [name r1, r2]. *)
Definition two_registers (x : NaClInstState) (name : NaClMnemonic) (r1 r2 : NaClOpKind) : Prop :=
  named x name /\ exists n1 n3, node_at x 1 n1 /\ is_register n1 r1 /\ node_at x 3 n3 /\ is_register n3 r2.

(** The parts of the memory operand at node [k]: base register, and the nodes
    of the index, the scale and the displacement. *)
Definition mem_parts (x : NaClInstState) (k : Z) (b : NaClOpKind) (ji js jd : Z) : Prop :=
  NaClGetExpVectorRegister (nodes x) (k + 1) = Ret b /\
  exists w1 w2 w3, NaClExpWidth (nodes x) (k + 1) = Ret w1 /\ ji = k + 1 + w1 /\
    NaClExpWidth (nodes x) ji = Ret w2 /\ js = ji + w2 /\ NaClExpWidth (nodes x) js = Ret w3 /\ jd = js + w3.

(** [x] is [lea _, [r + %r15 * 1 + 0]]. *)
Definition lea_plus_base (x : NaClInstState) (r : NaClOpKind) : Prop :=
  named x InstLea /\ exists k n ji js jd scale disp, is_kind ExprMemOffset n = true /\
    has_eflag n ExprSize64 = true /\ node_at x k n /\ mem_parts x k r ji js jd /\
    NaClGetExpVectorRegister (nodes x) ji = Ret RegR15 /\
    node_at x js scale /\ is_kind ExprConstant scale = true /\ NaClGetExprUnsignedValue scale = 1 /\
    node_at x jd disp /\ is_kind ExprConstant disp = true /\ NaClGetExprSignedValue disp = 0.

(** [s] adds R15 to the register that the instruction before zero extended. *)
Definition rebases (s : NaClInstState) (h : list NaClInstState) (r64 r32 : NaClOpKind) : Prop :=
  exists x, h !! 0%nat = Some x /\ zero_extends x r32 /\
    (two_registers s InstAdd r64 RegR15 \/ two_registers s InstOr r64 RegR15 \/ lea_plus_base s r64).

(** ** The computations end *)

Lemma ends_binary_regs i name vec r1 r2 : ends (NaClIsBinaryUsingRegisters i name vec r1 r2).
Proof using. unfold NaClIsBinaryUsingRegisters. ends. Qed.
Lemma ends_operand_flags i f0 f1 : ends (operand_flags tables i f0 f1).
Proof using. unfold operand_flags. ends. Qed.
#[local] Hint Resolve ends_binary_regs ends_operand_flags : ends.
Lemma ends_mov i vec r1 r2 : ends (NaClIsMovUsingRegisters tables i vec r1 r2).
Proof using. unfold NaClIsMovUsingRegisters. ends. Qed.
Lemma ends_binary_set i name vec r1 r2 : ends (NaClIsBinarySetUsingRegisters tables i name vec r1 r2).
Proof using. unfold NaClIsBinarySetUsingRegisters. ends. Qed.
Lemma ends_zero s : ends (NaClOperandOneZeroExtends tables s).
Proof using. unfold NaClOperandOneZeroExtends. ends. Qed.
Lemma ends_and_rsp s : ends (is_and_rsp_imm8 s).
Proof using. unfold is_and_rsp_imm8. ends. Qed.

#[local] Hint Resolve ends_mov ends_binary_set ends_zero ends_and_rsp : ends.

Lemma binary_regs_inv x i name r1 r2 :
  NaClInstStateInst x = Ret i -> NaClIsBinaryUsingRegisters i name (nodes x) r1 r2 = Ret true -> two_registers x name r1 r2.
Proof using.
  intros Hi H. unfold NaClIsBinaryUsingRegisters in H. ret_inv H. zbool. subst. split; [|by eexists _, _].
  exists i. split; [done|]. symmetry. by apply mnemonic_eqb_eq.
Qed.

Lemma binary_set_inv x i name r1 r2 :
  NaClInstStateInst x = Ret i -> NaClIsBinarySetUsingRegisters tables i name (nodes x) r1 r2 = Ret true ->
  two_registers x name r1 r2.
Proof using.
  intros Hi. unfold NaClIsBinarySetUsingRegisters. intros ([] & Hb & Hf)%bind_Ret; [by eapply binary_regs_inv|done].
Qed.

Lemma mov_inv x i r1 r2 :
  NaClInstStateInst x = Ret i -> NaClIsMovUsingRegisters tables i (nodes x) r1 r2 = Ret true -> two_registers x InstMov r1 r2.
Proof using.
  intros Hi. unfold NaClIsMovUsingRegisters. intros ([] & Hb & Hf)%bind_Ret; [by eapply binary_regs_inv|done].
Qed.

Lemma one_set_read x r v : shown tables x ->
  reads (NaClOperandOneIsRegisterSet tables x r) (fun b => b = true ->
    exists n, node_at x 1 n /\ is_register n r /\ has_eflag n ExprSet = true) v.
Proof using.
  intros Hx. unfold NaClOperandOneIsRegisterSet. check; try by split. split; [done|]. intros Hb. zbool. subst. by eexists.
Qed.

Lemma zero_extends_read x r v : shown tables x ->
  reads (NaClAssignsRegisterWithZeroExtends tables x r) (fun b => b = true -> zero_extends x r) v.
Proof using.
  intros Hx. unfold NaClAssignsRegisterWithZeroExtends. eapply steps_bind_reads; [by apply one_set_read|].
  intros b Hb. check; [|by split]. split; [done|]. intros ->. destruct Hb as (n & ? & ? & ?); [done|]. by exists n.
Qed.

Section Visiting.
Context (base size a : Z) (s : NaClInstState) (h : list NaClInstState) (v : NaClValidatorState).
Context (Hv : visiting tables base size a s h v).

Lemma zero_extends32_read d r : 0 <= d ->
  reads (NaClAssignsRegisterWithZeroExtends32 tables d r) (fun b => b = true ->
    exists x, (s :: h) !! Z.to_nat d = Some x /\ zero_extends x r) v.
Proof using Hv.
  intros Hd. unfold NaClAssignsRegisterWithZeroExtends32. check; [|by split].
  eapply reads_mono; [by apply zero_extends_read|]. intros z Hz E. eauto.
Qed.

Lemma zero_extends64_read d r : 0 <= d ->
  reads (NaClAssignsRegisterWithZeroExtends64 tables d r) (fun b => b = true ->
    exists x r32, (s :: h) !! Z.to_nat d = Some x /\ NaClGet32For64BitReg r = Ret r32 /\ r32 <> RegUnknown /\
      zero_extends x r32) v.
Proof using Hv.
  intros Hd. unfold NaClAssignsRegisterWithZeroExtends64. check; [by split|].
  eapply reads_mono; [by apply zero_extends32_read|]. intros b Hb E. zbool. destruct (Hb E) as (x & ? & ?). eauto 10.
Qed.

Lemma lea_rbase_read x r : shown tables x ->
  reads (NaClIsLeaAddressRegPlusRbase tables x r) (fun b => b = true -> lea_plus_base x r) v.
Proof using Hv.
  intros Hx. pose proof (shown_vector _ _ Hx). unfold NaClIsLeaAddressRegPlusRbase. check; [by split|]. split; [done|].
  intros ->. destruct (vi_bundle _ _ _ _ _ _ _ Hv) as (_ & _ & Hr). rewrite Hr in *.
  match goal with H : _ ≫= _ = Ret true |- _ => ret_inv H end. zbool. subst. split; [by eapply named_intro|].
  eexists _, _, _, _, _, _, _. do 3 (split; [eassumption|]).
  split; [split; [eassumption|]; eexists _, _, _; split_and!; done|]. split_and!; eassumption.
Qed.

Lemma accept_lea_read r :
  reads (NaClAcceptLeaWithMoveLea32To64 tables r) (fun b => b = true ->
    exists r32, NaClGet32For64BitReg r = Ret r32 /\ rebases s h r r32) v.
Proof using Hv.
  unfold NaClAcceptLeaWithMoveLea32To64. check.
  eapply steps_bind_reads; [apply one_set_read; by eapply shown_current|]. intros b1 _. check; [by split|].
  eapply steps_bind_reads; [apply lea_rbase_read; by eapply shown_current|]. intros b2 Hlea. check; [by split|].
  eapply reads_mono; [by apply zero_extends64_read|]. intros b Hb E. destruct (Hb E) as (x & r32 & Hx & Hr & Hn & Hz).
  zbool. exists r32. split; [done|]. exists x. split_and!; [done|done|]. right. right. by apply Hlea.
Qed.

(** ** Writes to RSP and RBP *)

(** The ways RSP may be set, at node [k]. *)
Inductive rsp_form (k : Z) : Prop :=
| rsp_push : named s InstPush -> k = 1 -> rsp_form k
| rsp_pop : named s InstPop -> k = 1 -> rsp_form k
| rsp_call : named s InstCall -> k = 3 -> rsp_form k
| rsp_and : named s InstAnd -> is_and_rsp_imm8 s = Ret true -> rsp_form k
| rsp_mov : two_registers s InstMov RegRSP RegRBP -> rsp_form k.

Lemma rsp_read k :
  reads (RspAssignment_ok tables k) (fun o =>
    (o = Some true -> rebases s h RegRSP RegESP) /\ (o = Some false -> rsp_form k)) v.
Proof using Hv.
  assert (Hmov : forall i, NaClInstStateInst s = Ret i -> steps (b ← lift (NaClIsMovUsingRegisters tables i (nodes s) RegRSP RegRBP);
    mret (if (b : bool) then Some false else None)) (fun o v' => v' = v /\
    (o = Some true -> rebases s h RegRSP RegESP) /\ (o = Some false -> rsp_form k)) v).
  { intros i Hi. check. split; [done|]. case_match; [|done]. subst. split; [done|]. intros _. apply rsp_mov. by eapply mov_inv. }
  assert (Hor : forall i, NaClInstStateInst s = Ret i -> inst_name i = InstOr \/ inst_name i = InstAdd ->
    steps (b ← lift (NaClIsBinarySetUsingRegisters tables i (inst_name i) (nodes s) RegRSP RegR15);
      if (b : bool) then z ← NaClAssignsRegisterWithZeroExtends32 tables 1 RegESP; mret (if (z : bool) then Some true else None)
      else mret None) (fun o v' => v' = v /\
    (o = Some true -> rebases s h RegRSP RegESP) /\ (o = Some false -> rsp_form k)) v).
  { intros i Hi Hn. check; [|done]. eapply steps_bind_reads; [by apply zero_extends32_read|]. intros z Hz. check.
    split; [done|]. case_match; [|done]. split; [|done]. intros _. destruct Hz as (x & Hx & Hz); [done|]. subst.
    exists x. split_and!; [done|done|].
    match goal with H : NaClIsBinarySetUsingRegisters _ _ _ _ _ _ = _ |- _ => apply (binary_set_inv s) in H; [|done] end.
    destruct Hn as [Hn|Hn]; rewrite Hn in *; auto. }
  unfold RspAssignment_ok. do 4 check_step. match goal with H : pattern _ _ ?x |- _ => destruct H as [Hi _]; rename x into i end.
  cbv zeta. destruct (vi_bundle _ _ _ _ _ _ _ Hv) as (_ & _ & Hr).
  destruct (inst_name i) eqn:Hn; try (by apply Hmov);
    try (check; split; [done|]; case_match; [|done]; zbool; split; [done|]; intros _;
         first [apply rsp_push; [by exists i|done]|apply rsp_pop; [by exists i|done]|apply rsp_call; [by exists i|done]]);
    try (apply steps_bind_get; rewrite Hr, <- Hn; apply Hor; auto).
  - do 2 check_step; [|by apply Hmov]. check. subst. split; [done|]. split; [done|]. intros _. apply rsp_and; [by exists i|done].
  - eapply steps_bind_reads; [apply accept_lea_read|]. intros b Hb. check. split; [done|]. case_match; [|done].
    split; [|done]. intros _. destruct Hb as (r32 & Hr32 & Hreb); [done|]. injection Hr32 as <-. done.
Qed.

(** The ways RBP may be set. *)
Lemma rbp_read :
  reads (RbpAssignment_ok tables) (fun o =>
    (o = Some true -> rebases s h RegRBP RegEBP) /\ (o = Some false -> two_registers s InstMov RegRBP RegRSP)) v.
Proof using Hv.
  assert (Hmov : forall i, NaClInstStateInst s = Ret i -> steps (b ← lift (NaClIsMovUsingRegisters tables i (nodes s) RegRBP RegRSP);
    mret (if (b : bool) then Some false else None)) (fun o v' => v' = v /\
    (o = Some true -> rebases s h RegRBP RegEBP) /\ (o = Some false -> two_registers s InstMov RegRBP RegRSP)) v).
  { intros i Hi. check. split; [done|]. case_match; [|done]. subst. split; [done|]. intros _. by eapply mov_inv. }
  unfold RbpAssignment_ok. do 3 check_step. match goal with H : pattern _ _ ?x |- _ => destruct H as [Hi _]; rename x into i end.
  destruct (vi_bundle _ _ _ _ _ _ _ Hv) as (_ & _ & Hr). destruct (inst_name i) eqn:Hn; try (by apply Hmov).
  - check; [|done]. rewrite Hr in *. eapply steps_bind_reads; [by apply zero_extends32_read|]. intros z Hz. check.
    split; [done|]. case_match; [|done]. split; [|done]. intros _. destruct Hz as (x & Hx & Hz); [done|]. subst.
    exists x. split_and!; [done|done|]. left. by eapply binary_set_inv.
  - eapply steps_bind_reads; [apply accept_lea_read|]. intros b Hb. check. split; [done|]. case_match; [|done].
    split; [|done]. intros _. destruct Hb as (r32 & Hr32 & Hreb); [done|]. injection Hr32 as <-. done.
Qed.

End Visiting.
End Patterns.
#[export] Hint Resolve ends_mov ends_binary_set ends_zero ends_and_rsp : ends.

(** ** The recorded writes *)

Definition esp_at (l : NaClBaseRegisterLocals) (idx : Z) : option Z := locals_buffer l !! Z.to_nat idx ≫= esp_set_inst.
Definition ebp_at (l : NaClBaseRegisterLocals) (idx : Z) : option Z := locals_buffer l !! Z.to_nat idx ≫= ebp_set_inst.

(** Node [k] of the instruction sets the register [r]. *)
Definition sets_at (s : NaClInstState) (k : Z) (r : NaClOpKind) : Prop :=
  exists n, 0 <= k < number_expr_nodes (nodes s) /\ node_at s k n /\ is_register n r /\ has_eflag n ExprSet = true.

Definition assigns (s : NaClInstState) (r : NaClOpKind) : Prop := exists k, sets_at s k r.

(** The two entries, of the previous and the current instruction; the write to
    ESP of the previous one is recorded if [e], unless [e'] holds, and the
    writes of the current one are recorded by [e2]. *)
Record tracked (e e' b b' e2 b2 : Prop) (l : NaClBaseRegisterLocals) : Prop := {
  tr_index : (previous_index l = 0 /\ current_index l = 1) \/ (previous_index l = 1 /\ current_index l = 0);
  tr_size : length (locals_buffer l) = 2%nat;
  tr_esp : e -> e' \/ esp_at l (previous_index l) <> None;
  tr_ebp : b -> b' \/ ebp_at l (previous_index l) <> None;
  tr_esp2 : e2 -> esp_at l (current_index l) <> None;
  tr_ebp2 : b2 -> ebp_at l (current_index l) <> None;
}.

(** Before an instruction that follows one that set ESP if [e] and EBP if [b]. *)
Definition ready (e b : Prop) : NaClBaseRegisterLocals -> Prop := tracked e False b False False False.

Definition altered (idx : Z) (f : NaClRegisterLocals -> NaClRegisterLocals) (l : NaClBaseRegisterLocals) :=
  l <| locals_buffer := alter f (Z.to_nat idx) (locals_buffer l) |>.

Lemma lookup_altered idx j f l :
  locals_buffer (altered idx f l) !! Z.to_nat j =
  (if decide (Z.to_nat idx = Z.to_nat j) then f else id) <$> locals_buffer l !! Z.to_nat j.
Proof.
  simpl. case_decide as Hd.
  - rewrite <- Hd. apply list_lookup_alter_eq.
  - rewrite list_lookup_alter_ne by done. by destruct (_ !! _).
Qed.

Section Steps.
Variable NaClLogGetVerbosity : Z.
Variable tables : NaClDecodeTables.
Abbreviation rebases := (rebases tables).

Lemma grows_locals l v : grows v (v <| set_base_registers := l |>).
Proof using. split; try done; try reflexivity; auto. Qed.

Lemma step_alter idx f (Q : unit -> NaClValidatorState -> Prop) v :
  (forall v', grows v v' -> set_base_registers v' = altered idx f (set_base_registers v) ->
     validates_ok v' = validates_ok v -> jump_sets v' = jump_sets v -> Q tt v') ->
  steps (alter_locals idx f) Q v.
Proof using.
  intros HQ. apply steps_modify; [apply grows_locals|]. apply HQ; [apply grows_locals|done|done|done].
Qed.

(** What is established for a node that sets the register [r]. *)
Record register_ok (s : NaClInstState) (h : list NaClInstState) (k : Z) (r : NaClOpKind) (v : NaClValidatorState) : Prop := {
  ro_base : r <> RegR15;
  ro_segment : one_of r [RegCS; RegDS; RegSS; RegES; RegFS; RegGS] = false;
  ro_rsp : r = RegRSP -> rsp_form s k \/ (rebases s h RegRSP RegESP /\ removed s v);
  ro_rbp : r = RegRBP -> two_registers s InstMov RegRBP RegRSP \/ (rebases s h RegRBP RegEBP /\ removed s v);
  ro_parts : one_of r [RegRSP; RegRBP; RegESP; RegEBP] = false ->
    NaClIs64Subreg r RegR15 = Ret false /\ NaClIs64Subreg r RegRSP = Ret false /\ NaClIs64Subreg r RegRBP = Ret false;
}.

Lemma register_ok_stable s h k r : stable (register_ok s h k r).
Proof using.
  intros v v' Hg [R1 R2 R3 R4 R5]. split; try done.
  - intros Hr. destruct (R3 Hr) as [?|[? ?]]; [by left|]. right. split; [done|]. by eapply removed_stable.
  - intros Hr. destruct (R4 Hr) as [?|[? ?]]; [by left|]. right. split; [done|]. by eapply removed_stable.
Qed.

Lemma keeps_add field set_field x : keeps set_base_registers (NaClAddressSetAddInline NaClLogGetVerbosity field set_field x).
Proof using.
  unfold NaClAddressSetAddInline, NaClCheckAddressRange. apply keeps_bind; [keeps|]. intros [|]; [|keeps].
  intros v a v' H. unfold mbind, St_bind, get, lift in H. destruct (index _ _) as [b|]; [|done].
  unfold put in H. injection H as _ <-. reflexivity.
Qed.
#[local] Hint Resolve keeps_add : keeps.

Lemma keeps_mark slot : keeps set_base_registers (NaClMarkInstructionJumpIllegal NaClLogGetVerbosity slot).
Proof using. unfold NaClMarkInstructionJumpIllegal, add_removed. keeps. Qed.

(** The rebase is accepted: the write of the previous instruction is dropped
    from the record. *)
Lemma step_accept base size a s h f v :
  visiting tables base size a s h v -> addresses_ok s h ->
  steps (accept_rebase NaClLogGetVerbosity f) (fun _ v' =>
    set_base_registers v' = altered (previous_index (set_base_registers v)) f (set_base_registers v) /\
    if_accepted (removed s) v') v.
Proof using.
  intros Hv Hadd. unfold accept_rebase. check.
  eapply steps_bind; [apply (keeps_steps set_base_registers); [apply keeps_mark|apply (step_mark _ _ s); [done|by apply (Hadd 0%nat)]]|].
  intros [] v1 Hg [Hs Hr]. check. apply step_alter. intros v2 Hg2 Hl Hok Hj. rewrite Hl, Hs. split; [done|].
  intros Ha. eapply removed_stable; [exact Hg2|]. apply Hr. by eapply accepting_back.
Qed.

(** ** One node *)

(** The effect of a node on the record: nothing, an accepted rebase, or a
    recorded write. *)
Inductive moves (s : NaClInstState) (h : list NaClInstState) (k : Z) (l : NaClBaseRegisterLocals) : NaClBaseRegisterLocals -> Prop :=
| mv_none : ~ sets_at s k RegESP -> ~ sets_at s k RegEBP -> moves s h k l l
| mv_rsp : rebases s h RegRSP RegESP -> ~ sets_at s k RegESP -> ~ sets_at s k RegEBP ->
    moves s h k l (altered (previous_index l) forget_esp l)
| mv_rbp : rebases s h RegRBP RegEBP -> ~ sets_at s k RegESP -> ~ sets_at s k RegEBP ->
    moves s h k l (altered (previous_index l) forget_ebp l)
| mv_esp slot : ~ sets_at s k RegEBP ->
    moves s h k l (altered (current_index l) (fun l => l <| esp_set_inst := Some slot |>) l)
| mv_ebp slot : ~ sets_at s k RegESP ->
    moves s h k l (altered (current_index l) (fun l => l <| ebp_set_inst := Some slot |>) l).

Lemma sets_unique s k n r r' : node_at s k n -> NaClGetExpRegisterInline n = Ret r -> sets_at s k r' -> r' = r.
Proof using. intros Hn Hr (n' & _ & Hn' & [_ Hr'] & _). unfold node_at in *. congruence. Qed.

Lemma keeps_subreg r : keeps set_base_registers (NaClCheckSubregChangeOfRspRbpOrBase NaClLogGetVerbosity r).
Proof using. unfold NaClCheckSubregChangeOfRspRbpOrBase. keeps. Qed.

Lemma step_subreg base size a s h r v :
  visiting tables base size a s h v ->
  steps (NaClCheckSubregChangeOfRspRbpOrBase NaClLogGetVerbosity r) (fun _ => if_accepted (fun _ =>
    NaClIs64Subreg r RegR15 = Ret false /\ NaClIs64Subreg r RegRSP = Ret false /\ NaClIs64Subreg r RegRBP = Ret false)) v.
Proof using.
  intros Hv. unfold NaClCheckSubregChangeOfRspRbpOrBase. check; try apply step_error. intros _.
  destruct (vi_bundle _ _ _ _ _ _ _ Hv) as (_ & _ & Hr). rewrite Hr in *. subst. done.
Qed.

Definition node_facts (s : NaClInstState) (h : list NaClInstState) (k : Z) (v : NaClValidatorState) : Prop :=
  forall r, sets_at s k r -> register_ok s h k r v.

Definition node_spec (s : NaClInstState) (h : list NaClInstState) (k : Z) (v : NaClValidatorState) (c : Val unit) : Prop :=
  steps c (fun _ v' => moves s h k (set_base_registers v) (set_base_registers v') /\ if_accepted (node_facts s h k) v') v.

Section Node.
Context (base size a : Z) (s : NaClInstState) (h : list NaClInstState) (k : Z) (v : NaClValidatorState).
Context (Hv : visiting tables base size a s h v) (Hadd : addresses_ok s h).
Abbreviation l := (set_base_registers v).

(** An error leaves the record alone. *)
Lemma node_error slot : moves s h k l l -> node_spec s h k v (NaClValidatorInstMessage NaClLogGetVerbosity LOG_ERROR slot).
Proof using.
  intros Hm. eapply steps_mono; [apply (keeps_steps set_base_registers); [keeps|apply step_error]|].
  simpl. intros [] v' _ [-> He]. split; [done|exact He].
Qed.

(** The verdict on a write to RSP or RBP. *)
Lemma node_verdict f (o : option bool) :
  (o = Some true -> moves s h k l (altered (previous_index l) f l)) -> moves s h k l l ->
  (forall v', (o = Some true -> removed s v') -> o <> None -> node_facts s h k v') ->
  node_spec s h k v (match o with
    | Some true => accept_rebase NaClLogGetVerbosity f
    | Some false => mret tt
    | None => slot ← the_slot; NaClValidatorInstMessage NaClLogGetVerbosity LOG_ERROR slot
    end).
Proof using Hv Hadd.
  intros H1 H2 Hf. unfold node_spec. destruct o as [[|]|].
  - eapply steps_mono; [by eapply step_accept|]. simpl. intros [] v' _ [-> Hr]. split; [by apply H1|].
    intros Ha. apply Hf; [|done]. intros _. by apply Hr.
  - check. split; [done|]. intros _. by apply Hf.
  - check. by apply node_error.
Qed.

Context (n : NaClExp) (r : NaClOpKind) (Hn : node_at s k n) (Hr : NaClGetExpRegisterInline n = Ret r).

(** The node sets [r] and no other register. *)
Lemma only r' : sets_at s k r' -> r' = r.
Proof using Hn Hr. by eapply sets_unique. Qed.

Lemma other r' : r' <> r -> ~ sets_at s k r'.
Proof using Hn Hr. intros Hne Hs. by apply only in Hs. Qed.

Lemma facts_intro v' : register_ok s h k r v' -> node_facts s h k v'.
Proof using Hn Hr. intros H r' Hs. by rewrite (only _ Hs). Qed.

Lemma node_rsp : r = RegRSP -> node_spec s h k v (NaClCheckRspAssignments NaClLogGetVerbosity tables k).
Proof using Hv Hadd Hn Hr.
  intros E. eapply steps_bind_reads; [by eapply rsp_read|]. intros o [H1 H2].
  apply node_verdict; [intros Ho; apply mv_rsp|apply mv_none|]; auto; try (apply other; by rewrite E).
  intros v' Hrm Ho. apply facts_intro. rewrite E. split; try done. intros _. destruct o as [[|]|]; [right|left|]; naive_solver.
Qed.

Lemma node_rbp : r = RegRBP -> node_spec s h k v (NaClCheckRbpAssignments NaClLogGetVerbosity tables).
Proof using Hv Hadd Hn Hr.
  intros E. eapply steps_bind_reads; [by eapply rbp_read|]. intros o [H1 H2].
  apply node_verdict; [intros Ho; apply mv_rbp|apply mv_none|]; auto; try (apply other; by rewrite E).
  intros v' Hrm Ho. apply facts_intro. rewrite E. split; try done. intros _. destruct o as [[|]|]; [right|left|]; naive_solver.
Qed.

(** A write to ESP or EBP is recorded. *)
Lemma node_record f : moves s h k l (altered (current_index l) f l) -> r = RegESP \/ r = RegEBP ->
  node_spec s h k v (alter_locals (current_index l) f).
Proof using Hn Hr.
  intros Hm E. apply step_alter. intros v' _ -> _ _. split; [done|]. intros _. apply facts_intro.
  destruct E as [-> | ->]; by split.
Qed.

End Node.

Lemma step_register base size a s h k v :
  visiting tables base size a s h v -> addresses_ok s h ->
  node_spec s h k v (BaseRegister_node NaClLogGetVerbosity tables k).
Proof using.
  intros Hv Hadd. unfold node_spec, BaseRegister_node. do 3 check_step.
  all: match goal with H : index _ _ = Ret ?x |- _ => rename x into n; rename H into Hn end.
  2: { check. split; [apply mv_none|intros _ r]; intros (n' & _ & Hn' & [Hk _] & Hf); unfold node_at in *;
         rewrite Hn in Hn'; injection Hn' as <-; rewrite Hk, Hf in *; done. }
  check_step. match goal with H : NaClGetExpRegisterInline _ = Ret ?x |- _ => rename x into r; rename H into Hr end.
  destruct (vi_bundle _ _ _ _ _ _ _ Hv) as (_ & _ & Hb). do 2 check_step. rewrite Hb.
  assert (Hother : forall r', r' <> r -> ~ sets_at s k r') by (intros; by eapply other).
  assert (Hnone : r <> RegESP -> r <> RegEBP -> moves s h k (set_base_registers v) (set_base_registers v)).
  { intros. apply mv_none; apply Hother; auto. }
  check_step; zbool; [subst; apply node_error; by apply Hnone|]. 
  check_step; zbool; [by eapply node_rsp|]. check_step; zbool; [by eapply node_rbp|].
  check_step; zbool; [subst; eapply node_record; [done|done|apply mv_esp; by apply Hother|by left]|].
  check_step; zbool; [subst; eapply node_record; [done|done|apply mv_ebp; by apply Hother|by right]|].
  check_step; [apply node_error; by apply Hnone|].
  eapply steps_mono; [apply (keeps_steps set_base_registers); [apply keeps_subreg|by eapply step_subreg]|].
  simpl. intros [] v' _ [-> Hs]. split; [by apply Hnone|]. intros Ha. eapply facts_intro; [done|done|].
  destruct (Hs Ha) as (? & ? & ?). split; try done.
Qed.

(** ** The loop over the nodes *)

(** The record after the nodes below [j]. *)
Definition tracks (e b : Prop) (s : NaClInstState) (h : list NaClInstState) (j : Z) : NaClBaseRegisterLocals -> Prop :=
  tracked e (rebases s h RegRSP RegESP) b (rebases s h RegRBP RegEBP)
    (exists k, k < j /\ sets_at s k RegESP) (exists k, k < j /\ sets_at s k RegEBP).

Lemma esp_altered idx j f l : esp_at (altered idx f l) j =
  (if decide (Z.to_nat idx = Z.to_nat j) then f <$> locals_buffer l !! Z.to_nat j else locals_buffer l !! Z.to_nat j) ≫= esp_set_inst.
Proof using. unfold esp_at. rewrite lookup_altered. case_decide; [done|]. by destruct (_ !! _). Qed.
Lemma ebp_altered idx j f l : ebp_at (altered idx f l) j =
  (if decide (Z.to_nat idx = Z.to_nat j) then f <$> locals_buffer l !! Z.to_nat j else locals_buffer l !! Z.to_nat j) ≫= ebp_set_inst.
Proof using. unfold ebp_at. rewrite lookup_altered. case_decide; [done|]. by destruct (_ !! _). Qed.

Lemma tracks_moves e b s h j l l' : tracks e b s h j l -> moves s h j l l' -> tracks e b s h (j + 1) l'.
Proof using.
  intros [Hi Hl He Hb He2 Hb2] Hm.
  assert (Hlt : forall r, ~ sets_at s j r -> (exists k, k < j + 1 /\ sets_at s k r) -> exists k, k < j /\ sets_at s k r).
  { intros r Hn (k & Hk & Hs). exists k. split; [|done]. destruct (decide (k = j)) as [->|]; [done|lia]. }
  assert (Hx : forall idx, idx = 0 \/ idx = 1 -> exists x, locals_buffer l !! Z.to_nat idx = Some x).
  { intros idx Hidx. apply lookup_lt_is_Some_2. destruct Hidx as [-> | ->]; rewrite Hl; simpl; lia. }
  assert (Hne : Z.to_nat (previous_index l) <> Z.to_nat (current_index l)) by lia.
  destruct (Hx (previous_index l)) as [xp Hp]; [lia|]. destruct (Hx (current_index l)) as [xc Hc]; [lia|].
  unfold esp_at, ebp_at in *. rewrite Hp in He, Hb. rewrite Hc in He2, Hb2.
  destruct Hm as [H1 H2|Hr H1 H2|Hr H1 H2|slot H2|slot H1]; (split; [done|simpl; by rewrite ?length_alter|..]);
    try change (previous_index (altered _ _ _)) with (previous_index l);
    try change (current_index (altered _ _ _)) with (current_index l);
    rewrite ?esp_altered, ?ebp_altered; unfold esp_at, ebp_at;
    try (case_decide; [try congruence|try congruence]); rewrite ?Hp, ?Hc; simpl; auto.
Qed.

(** The record agrees but for the entry of the previous instruction. *)
Definition agrees (l l' : NaClBaseRegisterLocals) : Prop :=
  current_index l' = current_index l /\ previous_index l' = previous_index l /\
  length (locals_buffer l') = length (locals_buffer l) /\
  locals_buffer l' !! Z.to_nat (current_index l) = locals_buffer l !! Z.to_nat (current_index l).

Lemma agrees_altered f l :
  Z.to_nat (previous_index l) <> Z.to_nat (current_index l) -> agrees l (altered (previous_index l) f l).
Proof using.
  intros Hne. split_and!; try done; [simpl; by rewrite length_alter|].
  rewrite lookup_altered. case_decide; [done|]. by destruct (_ !! _).
Qed.

(** A recorded write is reported and forgotten. *)
Lemma step_report_one (o : option Z) idx f v :
  idx = previous_index (set_base_registers v) -> Z.to_nat idx <> Z.to_nat (current_index (set_base_registers v)) ->
  steps (match o with
    | Some slot => NaClValidatorInstMessage NaClLogGetVerbosity LOG_ERROR slot ;; alter_locals idx f
    | None => mret tt
    end) (fun _ v' => agrees (set_base_registers v) (set_base_registers v') /\ if_accepted (fun _ => o = None) v') v.
Proof using.
  intros -> Hne. destruct o as [slot|]; [|check; by split].
  eapply steps_bind; [apply (keeps_steps set_base_registers); [keeps|apply (step_error _ slot (fun _ => False))]|].
  intros [] v1 Hg [Hs He]. apply step_alter. intros v2 Hg2 -> Hok _. rewrite Hs. split; [by apply agrees_altered|].
  intros Ha. destruct (He (accepting_back _ _ Hg2 Ha)).
Qed.

(** The record of the instruction just checked becomes the previous one. *)
Lemma step_report_previous e e' b b' e2 b2 v :
  tracked e e' b b' e2 b2 (set_base_registers v) ->
  steps (NaClMaybeReportPreviousBad NaClLogGetVerbosity) (fun _ v' =>
    ready e2 b2 (set_base_registers v') /\ if_accepted (fun _ => (e -> e') /\ (b -> b')) v') v.
Proof using.
  intros [Hi Hl He Hb He2 Hb2]. unfold NaClMaybeReportPreviousBad. check.
  match goal with H : index _ _ = Ret ?x |- _ => rename x into xp; apply index_Some in H as [_ Hxp] end.
  unfold esp_at, ebp_at in *. rewrite Hxp in He, Hb. simpl in He, Hb.
  eapply steps_bind; [apply step_report_one; [done|lia]|]. intros [] v1 Hg1 [(Hc1 & Hp1 & Hl1 & Hx1) He1].
  eapply steps_bind; [apply step_report_one; [done|lia]|]. intros [] v2 Hg2 [(Hc2 & Hp2 & Hl2 & Hx2) Hb1].
  apply steps_modify; [apply grows_locals|]. rewrite Hc1 in Hx2. split.
  - split; simpl; rewrite ?Hc2, ?Hc1, ?Hl2, ?Hl1; try done.
    + destruct Hi as [[_ ->]|[_ ->]]; [right|left]; done.
    + unfold esp_at. simpl. rewrite Hx2, Hx1. auto.
    + unfold ebp_at. simpl. rewrite Hx2, Hx1. auto.
  - intros Ha. pose proof (accepting_back _ _ (grows_locals _ _) Ha) as Ha2. pose proof (accepting_back _ _ Hg2 Ha2) as Ha1.
    specialize (He1 Ha1). specialize (Hb1 Ha2). simpl in He1, Hb1. split; [intros ?; destruct (He)|intros ?; destruct Hb]; done.
Qed.

(** ** The check of one instruction *)

Definition registers_ok (s : NaClInstState) (h : list NaClInstState) (v : NaClValidatorState) : Prop :=
  forall k r, sets_at s k r -> register_ok s h k r v.

Lemma step_registers_loop base size a s h e b n j v :
  visiting tables base size a s h v -> addresses_ok s h -> tracks e b s h j (set_base_registers v) ->
  steps (for_up n j (BaseRegister_node NaClLogGetVerbosity tables)) (fun _ v' =>
    tracks e b s h (j + Z.of_nat n) (set_base_registers v') /\
    if_accepted (fun v' => forall k, j <= k < j + Z.of_nat n -> node_facts s h k v') v') v.
Proof using.
  revert j v. induction n as [|n IH]; intros j v Hv Hadd Ht; simpl.
  { check. rewrite Z.add_0_r. split; [done|]. intros _ k Hk. lia. }
  eapply steps_bind; [by eapply step_register|]. intros [] v1 Hg1 [Hm Hf]. eapply steps_mono.
  - apply (IH (j + 1)); [by eapply visiting_grows|done|by eapply tracks_moves].
  - simpl. intros [] v2 Hg2 [Ht2 Hall]. replace (j + 1 + Z.of_nat n) with (j + Z.of_nat (S n)) in * by lia.
    split; [done|]. intros Ha k Hk. destruct (decide (k = j)) as [->|]; [|apply Hall; [done|lia]].
    intros r Hr. eapply register_ok_stable; [exact Hg2|]. apply Hf; [by eapply accepting_back|done].
Qed.

Lemma step_registers base size a s h e b v :
  visiting tables base size a s h v -> addresses_ok s h -> ready e b (set_base_registers v) ->
  steps (NaClBaseRegisterValidator NaClLogGetVerbosity tables) (fun _ v' =>
    ready (assigns s RegESP) (assigns s RegEBP) (set_base_registers v') /\
    if_accepted (fun v' => registers_ok s h v' /\ (e -> rebases s h RegRSP RegESP) /\ (b -> rebases s h RegRBP RegEBP)) v') v.
Proof using.
  intros Hv Hadd [Hi Hl He Hb _ _]. unfold NaClBaseRegisterValidator. check.
  pose proof (vo_count _ (shown_vector _ _ (shown_current _ _ _ _ _ _ _ Hv))) as Hc.
  assert (Hz : forall r, ~ exists k, k < 0 /\ sets_at s k r) by (intros r (k & Hk & n & ? & _); lia).
  eapply steps_bind.
  { eapply (step_registers_loop _ _ _ s h e b); [done|done|]. split; try done.
    - intros H. destruct (He H); [done|by right].
    - intros H. destruct (Hb H); [done|by right].
    - intros H. by destruct (Hz RegESP).
    - intros H. by destruct (Hz RegEBP). }
  intros [] v1 Hg1 [Ht Hf]. eapply steps_mono; [by eapply step_report_previous|]. simpl. intros [] v2 Hg2 [Hr Ha2]. split.
  - destruct Hr as [R1 R2 R3 R4 R5 R6]. split; try done.
    + intros (k & Hk). destruct R3 as [?|?]; [|done|by right]. exists k. split; [|done]. destruct Hk as (n & ? & _). lia.
    + intros (k & Hk). destruct R4 as [?|?]; [|done|by right]. exists k. split; [|done]. destruct Hk as (n & ? & _). lia.
  - intros Ha. destruct (Ha2 Ha) as [H1 H2]. split_and!; [|done|done]. intros k r Hs.
    eapply register_ok_stable; [exact Hg2|]. apply (Hf (accepting_back _ _ Hg2 Ha) k); [|done]. destruct Hs as (n & ? & _). lia.
Qed.

Lemma registers_ok_stable s h : stable (registers_ok s h).
Proof using. intros v v' Hg H k r Hs. eapply register_ok_stable; [exact Hg|]. by apply H. Qed.

(** At the end the last instruction must not have set ESP or EBP. *)
Lemma step_registers_end e b v :
  ready e b (set_base_registers v) ->
  steps (NaClBaseRegisterSummarize NaClLogGetVerbosity) (fun _ => if_accepted (fun _ => ~ e /\ ~ b)) v.
Proof using.
  intros Hr. eapply steps_mono; [by eapply step_report_previous|]. simpl. intros [] v' _ [_ H]. exact H.
Qed.

End Steps.
