(* ===== verification/MemProtect.v ===== *)
(** * Memory references: nc_memory_protect.c

    Every memory operand that is read or written must be [base + disp] or
    [base + index * scale + disp], where the base is RIP, RSP, RBP or R15 and
    the index was zero extended by the instruction before.  String operands
    must be computed by an lea of that form, two instructions before.  The
    instructions of such a sequence, except the first, must not be jump
    targets.  NACL_FLAGS_read_sandbox is TRUE. *)

From S2P Require Import Prelude Effects Stateful Bytes OpKinds DecodeTables InstBuffer ExpVector.
From S2P Require Import InstState InstTrans InstDecode InstIter ValState AddressSet Jumps.
From S2P Require Import ProtectBase.

Section MemProtect.
Variable NaClLogGetVerbosity : Z.
Variable tables : NaClDecodeTables.

Abbreviation inst_message := (NaClValidatorInstMessage NaClLogGetVerbosity).

Definition kNaClPatternMatchFailed : Z := -1.

Definition NaClGetValInstStateAt (distance : Z) : Val (option Z) :=
  if distance =? 0 then v ← get; mret (cur_inst_state v)
  else
    has ← has_lookback distance;
    if (has : bool) then slot ← lookback tables distance; mret (Some slot) else mret None.

Definition NaClIsValidBaseRegister (v : NaClValidatorState) (reg : NaClOpKind) : bool :=
  (reg =? base_register v) || (reg =? RegRSP) || (reg =? RegRBP) || (reg =? RegRIP).

Definition IsPossibleSandboxingNode (n : NaClExp) : bool := has_eflag n ExprUsed || has_eflag n ExprSet.

Definition NaClIsMov32UsingReg (distance : Z) (reg : NaClOpKind) : Val bool :=
  at_ ← NaClGetValInstStateAt distance;
  match at_ with
  | None => mret false
  | Some slot =>
      state ← inst_in slot;
      vector ← vector_of tables state;
      i ← lift (NaClInstStateInst state);
      b ← lift (NaClIsMovUsingRegisters tables i vector reg reg);
      if negb b then mret false
      else n ← lift (index (node vector) 1); mret (has_eflag n ExprSize32)
  end.

(** The index register is fine: it has 64 bits, the base is not RIP, and the
    instruction before zero extends it. *)
Definition index_reg_is_good (distance : Z) (base_reg : NaClOpKind) (index_reg_node : NaClExp)
  (index_reg : NaClOpKind) (use_mov_for_zero_ext : bool) : Val bool :=
  if negb (base_reg =? RegRIP) && has_eflag index_reg_node ExprSize64 then
    if use_mov_for_zero_ext then
      reg32 ← lift (NaClGet32For64BitReg index_reg);
      NaClIsMov32UsingReg (distance + 1) reg32
    else NaClAssignsRegisterWithZeroExtends64 tables (distance + 1) index_reg
  else mret false.

(** The displacement is a constant: the last test, with the length of the
    pattern as result. *)
Definition check_displacement (slot : Z) (vector : NaClExpVector) (index_reg_index pattern_length : Z)
  (print_messages : bool) : Val Z :=
  w2 ← lift (NaClExpWidth vector index_reg_index);
  let scale_index := index_reg_index + w2 in
  w3 ← lift (NaClExpWidth vector scale_index);
  disp ← lift (index (node vector) (scale_index + w3));
  if is_kind ExprConstant disp then mret pattern_length
  else
    (if print_messages then inst_message LOG_ERROR slot else mret tt) ;;
    mret kNaClPatternMatchFailed.

Definition NaClMatchValidMemOffset (distance node_index : Z) (use_mov_for_zero_ext print_messages : bool) : Val Z :=
  at_ ← NaClGetValInstStateAt distance;
  match at_ with
  | None => mret kNaClPatternMatchFailed
  | Some slot =>
      state ← inst_in slot;
      vector ← vector_of tables state;
      let failed :=
        (if print_messages then inst_message LOG_ERROR slot else mret tt) ;; mret kNaClPatternMatchFailed in
      n ← lift (index (node vector) node_index);
      if negb (is_kind ExprMemOffset n) then mret kNaClPatternMatchFailed
      else if negb (has_eflag n ExprSize64) then failed
      else
        let base_reg_index := node_index + 1 in
        base_reg ← lift (NaClGetExpVectorRegister vector base_reg_index);
        v ← get;
        if negb (NaClIsValidBaseRegister v base_reg) then failed
        else
          w1 ← lift (NaClExpWidth vector base_reg_index);
          let index_reg_index := base_reg_index + w1 in
          index_reg_node ← lift (index (node vector) index_reg_index);
          index_reg ← lift (NaClGetExpRegisterInline index_reg_node);
          if negb (index_reg =? RegUnknown) then
            good ← index_reg_is_good distance base_reg index_reg_node index_reg use_mov_for_zero_ext;
            if (good : bool) then check_displacement slot vector index_reg_index 1 print_messages
            else failed
          else if use_mov_for_zero_ext && print_messages then failed
          else check_displacement slot vector index_reg_index 0 print_messages
  end.

(** [mov %r32, %r32; lea %r64, [%r15+%r64*1]], the lea [distance] back. *)
Definition NaClMatchLeaSafeAddress (distance : Z) (reg64 : NaClOpKind) : Val bool :=
  at_ ← NaClGetValInstStateAt distance;
  match at_ with
  | None => mret false
  | Some slot =>
      state ← inst_in slot;
      i ← lift (NaClInstStateInst state);
      if negb (mnemonic_eqb (inst_name i) InstLea) then mret false
      else
        vector ← vector_of tables state;
        lea_reg ← lift (NaClGetExpVectorRegister vector 1);
        if negb (lea_reg =? reg64) then mret false
        else
          nth ← lift (NaClGetNthExpKind vector OperandReference 2);
          if nth =? -1 then mret false
          else
            memoff_index ← lift (NaClGetExpKidIndex vector nth 0);
            if number_expr_nodes vector <=? memoff_index then mret false
            else
              pattern_length ← NaClMatchValidMemOffset distance memoff_index true false;
              mret (negb (pattern_length =? kNaClPatternMatchFailed))
  end.

(** ** The nodes of one instruction *)

(** Counters of the loop: length of the patterns, memory references, segment
    addresses, and the first segment address register. *)
Record MemRefs := mkRefs {
  pattern_length : Z;
  number_memory_refs : Z;
  number_segment_addresses : Z;
  previous_seg_addr : NaClOpKind;
}.

#[local] Instance updatable_refs : Updatable MemRefs := fun r =>
  mkRefs (pattern_length r) (number_memory_refs r) (number_segment_addresses r) (previous_seg_addr r).

(** A segment address [i] with an accepted segment register: [None] when it is
    not allowed. *)
Definition segment_register_ok (i : Z) (vector : NaClExpVector) (refs : MemRefs) : Val (option MemRefs * MemRefs) :=
  addr_reg_index ← lift (NaClGetExpKidIndex vector i 1);
  if addr_reg_index =? -1 then mret (None, refs)
  else
    addr_reg ← lift (NaClGetExpVectorRegister vector addr_reg_index);
    if addr_reg =? RegUnknown then mret (None, refs)
    else
      let known := negb (previous_seg_addr refs =? RegUnknown) in
      if known && (addr_reg =? previous_seg_addr refs) then mret (Some refs, refs)
      else
        let refs := if known then refs else refs <| previous_seg_addr := addr_reg |> in
        b ← NaClMatchLeaSafeAddress (pattern_length refs + 1) addr_reg;
        if negb b then mret (None, refs)
        else mret (Some (refs <| number_memory_refs := number_memory_refs refs + 1 |>
                              <| number_segment_addresses := number_segment_addresses refs + 1 |>
                              <| pattern_length := pattern_length refs + 2 |>), refs).

Definition MemRef_segment (i : Z) (n : NaClExp) (vector : NaClExpVector) (refs : MemRefs) : Val MemRefs :=
  slot ← the_slot;
  if negb (has_eflag n ExprSize64) then inst_message LOG_ERROR slot ;; mret refs
  else
    seg_prefix_reg_index ← lift (NaClGetExpKidIndex vector i 0);
    seg_prefix_reg ← lift (NaClGetExpVectorRegister vector seg_prefix_reg_index);
    '(ok, refs) ←
      (if one_of seg_prefix_reg [RegCS; RegDS; RegES; RegSS] then segment_register_ok i vector refs
       else mret (None, refs));
    match ok with
    | Some refs' => mret refs'
    | None => inst_message LOG_ERROR slot ;; mret refs
    end.

(** An operand that is no understood reference: only an absent index register
    is let through. *)
Definition MemRef_other (i : Z) (n : NaClExp) (vector : NaClExpVector) : Val unit :=
  let unknown := is_kind UndefinedExp n || (is_kind ExprRegister n && (exp_value n =? RegUnknown)) in
  if unknown then
    parent_index ← lift (NaClGetExpParentIndex vector i);
    index_kid ← (if 0 <=? parent_index
                 then k ← lift (NaClGetExpKidIndex vector parent_index 1); mret (i =? k)
                 else mret false);
    if (index_kid : bool) then mret tt
    else slot ← the_slot; inst_message LOG_ERROR slot
  else mret tt.

Definition MemRef_node (i : Z) (refs : MemRefs) : Val MemRefs :=
  vector ← current_vector;
  n ← lift (index (node vector) i);
  if negb (IsPossibleSandboxingNode n) then mret refs
  else
    memoffset_length ← NaClMatchValidMemOffset 0 i false true;
    if negb (memoffset_length =? kNaClPatternMatchFailed) then
      mret (refs <| number_memory_refs := number_memory_refs refs + 1 |>
                 <| pattern_length := pattern_length refs + memoffset_length |>)
    else if is_kind ExprSegmentAddress n then MemRef_segment i n vector refs
    else MemRef_other i n vector ;; mret refs.

(** The loop over the nodes, which stops when the validator quits. *)
Fixpoint MemRef_loop (n : nat) (i : Z) (refs : MemRefs) : Val MemRefs :=
  match n with
  | O => mret refs
  | S n' =>
      v ← get;
      if quit v then mret refs
      else refs ← MemRef_node i refs; MemRef_loop n' (i + 1) refs
  end.

Definition NaClMemoryReferenceValidator : Val unit :=
  vector ← current_vector;
  refs ← MemRef_loop (Z.to_nat (number_expr_nodes vector)) 0 (mkRefs 0 0 0 RegUnknown);
  slot ← the_slot;
  (if (1 <? number_memory_refs refs) && negb (number_segment_addresses refs =? number_memory_refs refs)
   then inst_message LOG_ERROR slot else mret tt) ;;
  if 0 <? pattern_length refs
  then NaClMarkInstructionsJumpRangeIllegal NaClLogGetVerbosity tables (pattern_length refs)
  else mret tt.

End MemProtect.
