(* ===== verification/MemSpec.v ===== *)
(** * What the check of memory references establishes

    Every memory operand that is read or written is relative to R15, RSP, RBP
    or RIP, with no index register or with one that the instruction before
    zero extended; a string operand is computed by such a lea.  The
    instructions of these sequences, except the first, are not entered. *)

From S2P Require Import Prelude Effects Stateful Bytes OpKinds DecodeTables OpcodeTable InstBuffer.
From S2P Require Import ExpVector InstState InstTrans InstDecode TransSpec DecodeSpec InstIter.
From S2P Require Import IterSpec ValState AddressSet ValSpec Jumps CheckSpec JumpSpec ProtectBase.
From S2P Require Import BaseSpec MemProtect.

Section MemSpec.
Variable NaClLogGetVerbosity : Z.
Variable tables : NaClDecodeTables.

(** [mov r, r] on 32 bits. *)
Definition mov32 (y : NaClInstState) (r : NaClOpKind) : Prop :=
  two_registers y InstMov r r /\ exists n, node_at y 1 n /\ has_eflag n ExprSize32 = true.

(** The register is zero extended by the instruction [y]: by a mov if [mov]. *)
Definition extended (y : NaClInstState) (reg : NaClOpKind) (mov : bool) : Prop :=
  exists r32, NaClGet32For64BitReg reg = Ret r32 /\ if mov then mov32 y r32 else zero_extends tables y r32.

(** The memory operand at node [k] of [x] is safe; [len] is 1 if it depends on
    the instruction [before] and 0 if not. *)
Definition safe_operand (x : NaClInstState) (before : option NaClInstState) (k : Z) (mov : bool) (len : Z) : Prop :=
  exists n b ji js jd ni ri disp, is_kind ExprMemOffset n = true /\ has_eflag n ExprSize64 = true /\ node_at x k n /\
    mem_parts x k b ji js jd /\ (b = RegR15 \/ b = RegRSP \/ b = RegRBP \/ b = RegRIP) /\
    node_at x ji ni /\ NaClGetExpRegisterInline ni = Ret ri /\ node_at x jd disp /\ is_kind ExprConstant disp = true /\
    ((ri = RegUnknown /\ len = 0) \/
     (len = 1 /\ b <> RegRIP /\ has_eflag ni ExprSize64 = true /\ exists y, before = Some y /\ extended y ri mov)).

(** The result of a match is a length or -1; the recorded writes are kept. *)
Definition calm (v v' : NaClValidatorState) (r : Z) : Prop := set_base_registers v' = set_base_registers v /\ -1 <= r.

(** A failed match: an error if messages are printed. *)
Lemma step_failed slot (print : bool) (P : Z -> NaClValidatorState -> Prop) v :
  (print = false -> P kNaClPatternMatchFailed v) ->
  steps ((if print then NaClValidatorInstMessage NaClLogGetVerbosity LOG_ERROR slot else mret tt) ;;
         mret kNaClPatternMatchFailed) (fun r v' => calm v v' r /\ if_accepted (P r) v') v.
Proof using.
  intros HP. destruct print.
  - eapply steps_bind; [apply (keeps_steps set_base_registers); [keeps|apply (step_error _ slot (fun _ => False))]|].
    intros [] v1 _ [Hs He]. check. split; [done|]. intros Ha. destruct (He Ha).
  - check. split; [done|]. intros _. by apply HP.
Qed.

Lemma steps_error_seq {A} slot (x : A) (P : A -> NaClValidatorState -> Prop) v :
  steps (NaClValidatorInstMessage NaClLogGetVerbosity LOG_ERROR slot ;; mret x) (fun x' v' =>
    set_base_registers v' = set_base_registers v /\ x' = x /\ if_accepted (P x') v') v.
Proof using.
  eapply steps_bind; [apply (keeps_steps set_base_registers); [keeps|apply (step_error _ slot (fun _ => False))]|].
  intros [] v1 _ [Hs He]. check. split_and!; [done|done|]. intros Ha. destruct (He Ha).
Qed.

Section At.
Context (base size a : Z) (s : NaClInstState) (h : list NaClInstState) (v : NaClValidatorState).
Context (Hv : visiting tables base size a s h v).

Lemma inst_at_read d : 0 <= d ->
  reads (NaClGetValInstStateAt tables d) (fun o => (d = 0 -> o <> None) /\ forall slot, o = Some slot ->
    exists x, (s :: h) !! Z.to_nat d = Some x /\ holds v slot x /\ shown tables x) v.
Proof using Hv.
  intros Hd. destruct (eq_slot _ _ _ _ _ _ _ Hv) as (slot & _ & Hh & Hc).
  unfold NaClGetValInstStateAt. check; zbool; subst; (split; [done|]); (split; [congruence|]); intros slot' Hs.
  - exists s. rewrite Hc in Hs. injection Hs as <-. split_and!; [done|done|by eapply shown_current].
  - injection Hs as <-. eauto.
  - done.
Qed.

Lemma mov32_read d r : 0 <= d ->
  reads (NaClIsMov32UsingReg tables d r) (fun b => b = true -> exists y, (s :: h) !! Z.to_nat d = Some y /\ mov32 y r) v.
Proof using Hv.
  intros Hd. unfold NaClIsMov32UsingReg. eapply steps_bind_reads; [by apply inst_at_read|]. intros o [_ Ho].
  destruct o as [slot|]; [|check; by split]. destruct (Ho slot eq_refl) as (y & Hy & Hh & Hs). check; [by split|].
  split; [done|]. intros Hf. exists y. split; [done|]. zbool. subst. split; [by eapply mov_inv|]. by eexists.
Qed.

Lemma index_read d b ni ri mov : 0 <= d ->
  reads (index_reg_is_good tables d b ni ri mov) (fun good => good = true ->
    b <> RegRIP /\ has_eflag ni ExprSize64 = true /\
    exists y, (s :: h) !! Z.to_nat (d + 1) = Some y /\ extended y ri mov) v.
Proof using Hv.
  intros Hd. unfold index_reg_is_good. check; [| |by split].
  - eapply reads_mono; [apply mov32_read; lia|]. intros g Hg E. zbool. destruct (Hg E) as (y & Hy & Hm).
    split_and!; [done|done|]. exists y. split; [done|]. subst. by eexists.
  - eapply reads_mono; [eapply zero_extends64_read; [done|lia]|]. intros g Hg E. zbool.
    destruct (Hg E) as (y & r32 & Hy & Hr & _ & Hz). split_and!; [done|done|]. exists y. split; [done|]. subst. by eexists.
Qed.

(** The result of a match: the operand is safe, or it is no memory operand, or
    the failure was not printed. *)
Definition matched (x : NaClInstState) (d k : Z) (mov print : bool) (r : Z) : Prop :=
  (r <> kNaClPatternMatchFailed -> safe_operand x ((s :: h) !! Z.to_nat (d + 1)) k mov r) /\
  (r = kNaClPatternMatchFailed -> print = false \/ exists n, node_at x k n /\ is_kind ExprMemOffset n = false).

Lemma step_displacement slot vec ji len print x n d k mov b w1 ni ri :
  vec = nodes x -> shown tables x -> 0 <= len ->
  is_kind ExprMemOffset n = true -> has_eflag n ExprSize64 = true -> node_at x k n ->
  NaClGetExpVectorRegister (nodes x) (k + 1) = Ret b -> NaClExpWidth (nodes x) (k + 1) = Ret w1 -> ji = k + 1 + w1 ->
  (b = RegR15 \/ b = RegRSP \/ b = RegRBP \/ b = RegRIP) -> node_at x ji ni -> NaClGetExpRegisterInline ni = Ret ri ->
  ((ri = RegUnknown /\ len = 0) \/
   (len = 1 /\ b <> RegRIP /\ has_eflag ni ExprSize64 = true /\
    exists y, (s :: h) !! Z.to_nat (d + 1) = Some y /\ extended y ri mov)) ->
  steps (check_displacement NaClLogGetVerbosity slot vec ji len print) (fun r v' =>
    calm v v' r /\ if_accepted (fun _ => matched x d k mov print r) v') v.
Proof using.
  intros -> Hx Hlen Hk H64 Hn Hb Hw Hji Hbase Hni Hri Hidx. unfold check_displacement. check.
  - split; [split; [done|lia]|]. intros _. split; [|unfold kNaClPatternMatchFailed; lia]. intros _.
    eexists n, b, ji, _, _, ni, ri, _. split_and!; try done. split; [done|]. by eexists _, _, _.
  - apply (step_failed slot print (fun r _ => matched x d k mov print r)). intros ->. split; [done|]. by left.
Qed.

Lemma step_match d k mov print : 0 <= d -> (print = true -> d = 0) ->
  steps (NaClMatchValidMemOffset NaClLogGetVerbosity tables d k mov print) (fun r v' =>
    calm v v' r /\
    if_accepted (fun _ => (r <> kNaClPatternMatchFailed \/ print = true -> exists x, (s :: h) !! Z.to_nat d = Some x /\
      matched x d k mov print r)) v') v.
Proof using Hv.
  intros Hd Hp. unfold NaClMatchValidMemOffset. eapply steps_bind_reads; [by apply inst_at_read|]. intros o [Hz Ho].
  destruct o as [slot|].
  2: { check. split; [done|]. intros _ [?|Hpr]; [done|]. by destruct (Hz (Hp Hpr)). }
  destruct (Ho slot eq_refl) as (x & Hx & Hh & Hs).
  apply (steps_mono _ (fun r v' => calm v v' r /\
    if_accepted (fun _ => matched x d k mov print r) v')).
  2: { intros r v' _ [Hl Hm]. split; [exact Hl|]. intros Ha _. exists x. split; [done|]. exact (Hm Ha). }
  assert (Hfail : steps ((if print then NaClValidatorInstMessage NaClLogGetVerbosity LOG_ERROR slot else mret tt) ;;
    mret kNaClPatternMatchFailed) (fun r v' => calm v v' r /\
    if_accepted (fun _ => matched x d k mov print r) v') v).
  { apply (step_failed slot print (fun r _ => matched x d k mov print r)). intros ->. split; [done|]. by left. }
  do 4 check_step.
  { check. split; [done|]. intros _. split; [done|]. intros _. right. zbool. by eexists. }
  check_step; [exact Hfail|]. do 3 check_step; [exact Hfail|]. do 3 check_step.
  assert (Hb : forall b, negb (NaClIsValidBaseRegister v b) = false -> b = RegR15 \/ b = RegRSP \/ b = RegRBP \/ b = RegRIP).
  { intros b Hb%negb_false_iff. unfold NaClIsValidBaseRegister in Hb.
    destruct (vi_bundle _ _ _ _ _ _ _ Hv) as (_ & _ & Hr). rewrite Hr in Hb. rewrite !orb_true_iff, !Z.eqb_eq in Hb. tauto. }
  zbool. check_step.
  - eapply steps_bind_reads; [by apply index_read|]. intros good Hgood. check_step; [|exact Hfail].
    eapply step_displacement; try done; [apply Hb; by apply negb_false_iff|]. right. destruct (Hgood ltac:(done)) as (? & ? & ?). done.
  - check_step; [exact Hfail|]. zbool. eapply step_displacement; try done; [apply Hb; by apply negb_false_iff|]. by left.
Qed.

(** ** String operands *)

(** The instruction [d] back is [lea reg, mem] with a safe operand. *)
Definition lea_safe (d : Z) (reg : NaClOpKind) : Prop :=
  exists x k len, (s :: h) !! Z.to_nat d = Some x /\ named x InstLea /\ NaClGetExpVectorRegister (nodes x) 1 = Ret reg /\
    safe_operand x ((s :: h) !! Z.to_nat (d + 1)) k true len.

Lemma step_lea d reg : 0 <= d ->
  steps (NaClMatchLeaSafeAddress NaClLogGetVerbosity tables d reg) (fun b v' =>
    set_base_registers v' = set_base_registers v /\ if_accepted (fun _ => b = true -> lea_safe d reg) v') v.
Proof using Hv.
  intros Hd. unfold NaClMatchLeaSafeAddress. eapply steps_bind_reads; [by apply inst_at_read|]. intros o [_ Ho].
  destruct o as [slot|]; [|check; by split]. destruct (Ho slot eq_refl) as (x & Hx & Hh & Hs). check; try (by split).
  eapply steps_bind; [by apply step_match|]. intros r v1 _ [[Hl _] Hm]. check. split; [done|]. intros Ha Hr. zbool. subst.
  destruct (Hm Ha) as (x' & Hx' & Hmat & _); [by left|]. rewrite Hx in Hx'. injection Hx' as <-.
  eexists x, _, r. split_and!; [done|by eapply named_intro|done|]. by apply Hmat.
Qed.

(** The segment address at node [k] is the register that such a lea set. *)
Definition segment_ok (k len : Z) : Prop :=
  exists i0 i1 seg reg d, NaClGetExpKidIndex (nodes s) k 0 = Ret i0 /\ NaClGetExpVectorRegister (nodes s) i0 = Ret seg /\
    one_of seg [RegCS; RegDS; RegES; RegSS] = true /\
    NaClGetExpKidIndex (nodes s) k 1 = Ret i1 /\ NaClGetExpVectorRegister (nodes s) i1 = Ret reg /\
    0 <= d < len /\ lea_safe d reg.

(** The register checked first. *)
Definition prev_ok (refs : MemRefs) : Prop :=
  previous_seg_addr refs <> RegUnknown -> exists d, 0 <= d < pattern_length refs /\ lea_safe d (previous_seg_addr refs).

(** The counters of the loop. *)
Definition refs_ok (refs : MemRefs) (v' : NaClValidatorState) : Prop :=
  0 <= pattern_length refs /\ if_accepted (fun _ => prev_ok refs) v'.

(** The counters grow. *)
Definition counts (v v' : NaClValidatorState) (refs refs' : MemRefs) : Prop :=
  set_base_registers v' = set_base_registers v /\ pattern_length refs <= pattern_length refs'.

(** A register operand: the result is an accepted address, or nothing. *)
Lemma step_segment_register k refs : refs_ok refs v ->
  steps (segment_register_ok NaClLogGetVerbosity tables k (nodes s) refs) (fun r v' =>
    counts v v' refs (default r.2 r.1) /\ if_accepted (fun _ => forall refs', r.1 = Some refs' -> prev_ok refs' /\
      exists i1 reg d, NaClGetExpKidIndex (nodes s) k 1 = Ret i1 /\ NaClGetExpVectorRegister (nodes s) i1 = Ret reg /\
        0 <= d < pattern_length refs' /\ lea_safe d reg) v') v.
Proof using Hv.
  intros [Hpl Hprev]. pose proof (shown_current _ _ _ _ _ _ _ Hv) as Hs. unfold segment_register_ok. check; try (by split).
  - split; [done|]. intros Ha refs' [= <-]. zbool.
    destruct (Hprev Ha) as (d & Hd & Hlea); [done|]. split; [by eauto|]. subst. by eexists _, _, d.
  - match goal with |- context [NaClMatchLeaSafeAddress _ _ (pattern_length ?r + 1) ?q] => set (refs1 := r); set (reg := q) in * end.
    assert (Hrefs1 : pattern_length refs1 = pattern_length refs /\
      (previous_seg_addr refs1 = previous_seg_addr refs /\ previous_seg_addr refs <> RegUnknown \/ previous_seg_addr refs1 = reg)).
    { unfold refs1. case_match; zbool; [split; [done|left; done]|split; [done|right; done]]. }
    destruct Hrefs1 as [Hpl1 Hp1]. clearbody refs1.
    eapply steps_bind; [apply step_lea; lia|]. intros b v1 Hg [Hl Hlea]. check.
    { split; [|done]. split; [done|]. simpl. lia. }
    split; [split; [done|]; simpl; lia|].
    simpl. intros Ha refs' [= <-]. simpl. rewrite Hpl1 in *. zbool. subst b. specialize (Hlea Ha eq_refl).
    split; [|eexists _, _, _; split_and!; [done|done| | |exact Hlea]; lia].
    unfold prev_ok. simpl. intros _. destruct Hp1 as [[-> Hk]| ->].
    + destruct (Hprev (accepting_back _ _ Hg Ha) Hk) as (d & ? & ?). exists d. split; [lia|done].
    + eexists. split; [|exact Hlea]. lia.
Qed.

Lemma step_segment k n refs : refs_ok refs v ->
  steps (MemRef_segment NaClLogGetVerbosity tables k n (nodes s) refs) (fun refs' v' =>
    counts v v' refs refs' /\ if_accepted (fun _ => prev_ok refs' /\ segment_ok k (pattern_length refs')) v') v.
Proof using Hv.
  intros Hrefs. pose proof (shown_current _ _ _ _ _ _ _ Hv) as Hs. unfold MemRef_segment. do 2 check_step.
  { eapply steps_mono; [apply (steps_error_seq _ _ (fun _ _ => False))|]. simpl. intros x v2 _ (Hl2 & -> & Hf). split; [by split|].
    intros Ha. destruct (Hf Ha). }
  do 2 check_step.
  eapply (steps_bind _ _ (fun r v' => counts v v' refs (default r.2 r.1) /\ if_accepted (fun _ =>
    forall refs', r.1 = Some refs' -> prev_ok refs' /\ segment_ok k (pattern_length refs')) v')).
  - check_step.
    + eapply steps_mono; [by apply step_segment_register|]. simpl. intros r v' _ [Hl Hr]. split; [done|]. intros Ha refs' E.
      destruct (Hr Ha refs' E) as (? & i1 & reg & d & ? & ? & ? & ?). split; [done|].
      by eexists _, i1, _, reg, d.
    + check. by split.
  - intros [[refs'|] refs1] v1 _ [Hl Hr].
    + check. split; [done|]. intros Ha. by apply Hr.
    + eapply steps_mono; [apply (steps_error_seq _ _ (fun _ _ => False))|]. simpl. destruct Hl as [Hl1 Hl2].
      intros x v2 _ (Hl3 & -> & Hf). split; [split; [congruence|done]|]. intros Ha. destruct (Hf Ha).
Qed.

End At.

(** ** The nodes *)

Section Nodes.
Context (base size a : Z) (s : NaClInstState) (h : list NaClInstState).
Abbreviation segment_ok := (segment_ok s h).
Abbreviation prev_ok := (prev_ok s h).
Abbreviation refs_ok := (refs_ok s h).
Abbreviation visiting := (visiting tables base size a s h).

(** What is established for node [k]. *)
Definition operand_ok (k len : Z) : Prop :=
  forall n, node_at s k n -> IsPossibleSandboxingNode n = true ->
    (is_kind ExprMemOffset n = true -> exists l, l <= len /\ safe_operand s (h !! 0%nat) k false l) /\
    (is_kind ExprSegmentAddress n = true -> segment_ok k len).

Lemma operand_ok_mono k len len' : len <= len' -> operand_ok k len -> operand_ok k len'.
Proof using.
  intros Hl H n Hn Hp. destruct (H n Hn Hp) as [H1 H2]. split.
  - intros Hk. destruct (H1 Hk) as (l & ? & ?). exists l. split; [lia|done].
  - intros Hk. destruct (H2 Hk) as (i0 & i1 & seg & reg & d & ? & ? & ? & ? & ? & ? & ?). exists i0, i1, seg, reg, d.
    split_and!; try done; lia.
Qed.

Lemma step_other k n v : visiting v ->
  steps (MemRef_other NaClLogGetVerbosity k n (nodes s)) (fun _ v' => set_base_registers v' = set_base_registers v) v.
Proof using.
  intros Hv. pose proof (shown_current _ _ _ _ _ _ _ Hv) as Hs.
  eapply steps_mono; [apply (keeps_steps set_base_registers _ (fun _ _ => True))|by intros ? ? ? [? _]].
  - unfold MemRef_other. keeps.
  - unfold MemRef_other. check; [|done]. eapply (steps_bind_reads _ _ (fun _ => True)); [check; by split|].
    intros b _. check; [done|]. eapply steps_True, step_inst_message.
Qed.

Lemma is_kind_eq k1 k2 n : is_kind k1 n = true -> is_kind k2 n = true -> k1 = k2.
Proof using. unfold is_kind. intros H1%bool_decide_eq_true H2%bool_decide_eq_true. congruence. Qed.

Lemma prev_ok_back refs v v' : grows v v' -> if_accepted (fun _ => prev_ok refs) v -> if_accepted (fun _ => prev_ok refs) v'.
Proof using. intros Hg H Ha. apply H. by eapply accepting_back. Qed.

Lemma step_node k refs v : visiting v -> refs_ok refs v ->
  steps (MemRef_node NaClLogGetVerbosity tables k refs) (fun refs' v' =>
    counts v v' refs refs' /\ if_accepted (fun _ => prev_ok refs' /\ operand_ok k (pattern_length refs')) v') v.
Proof using.
  intros Hv [Hpl Hprev]. unfold MemRef_node. do 3 check_step.
  { check. split; [done|]. intros Ha. split; [by apply Hprev|]. intros n Hn Hp. zbool. unfold node_at in Hn. congruence. }
  match goal with H : index _ _ = Ret ?x |- _ => rename x into n; rename H into Hn end.
  eapply steps_bind; [by eapply step_match|]. intros r v1 Hg [[Hl Hr] Hm].
  pose proof (prev_ok_back _ _ _ Hg Hprev) as Hprev1. check_step.
  - zbool. unfold kNaClPatternMatchFailed in *. check. split; [split; [done|simpl; lia]|]. intros Ha.
    destruct (Hm Ha) as (x & [= <-] & Hmat & _); [by right|]. specialize (Hmat ltac:(done)). split.
    + intros Hk. simpl in Hk. destruct (Hprev1 Ha Hk) as (d & ? & ?). exists d. simpl. split; [lia|done].
    + intros n' Hn' _. simpl. split; [intros _; exists r; split; [lia|exact Hmat]|]. intros Hk2.
      destruct Hmat as (n2 & ? & ? & ? & ? & ? & ? & ? & Hk1 & _ & Hn2 & _). unfold node_at in *.
      assert (n2 = n') as -> by congruence. by pose proof (is_kind_eq _ _ _ Hk1 Hk2).
  - zbool. subst r. pose proof (visiting_grows _ _ _ _ _ _ _ _ Hg Hv) as Hv1.
    assert (Hnot : accepting v1 -> is_kind ExprMemOffset n = false).
    { intros Ha. destruct (Hm Ha) as (x & [= <-] & _ & Hmat); [by right|].
      destruct (Hmat eq_refl) as [?|(n' & Hn' & ?)]; [done|]. unfold node_at in Hn'. congruence. }
    check_step.
    + eapply steps_mono; [by eapply step_segment|]. simpl. intros refs' v2 Hg2 [[Hl2 Hle] Hseg]. split; [split; [congruence|done]|].
      intros Ha. destruct (Hseg Ha) as [Hp Hs]. split; [done|]. intros n' Hn' _. unfold node_at in Hn'.
      assert (n' = n) as -> by congruence. split; [|done]. rewrite Hnot; [done|]. by eapply accepting_back.
    + eapply steps_bind; [by eapply step_other|]. intros [] v2 Hg2 Hl2. check. split; [split; [congruence|done]|].
      intros Ha. pose proof (accepting_back _ _ Hg2 Ha) as Ha1. split; [by apply Hprev1|]. intros n' Hn' _.
      unfold node_at in Hn'. assert (n' = n) as -> by congruence. rewrite Hnot by done. split; [done|congruence].
Qed.

Lemma step_loop n i refs v : visiting v -> refs_ok refs v ->
  steps (MemRef_loop NaClLogGetVerbosity tables n i refs) (fun refs' v' =>
    counts v v' refs refs' /\ if_accepted (fun _ => forall k, i <= k < i + Z.of_nat n -> operand_ok k (pattern_length refs')) v') v.
Proof using.
  revert i refs v. induction n as [|n IH]; intros i refs v Hv Hrefs; simpl.
  { check. split; [done|]. intros _ k Hk. lia. }
  check. { split; [done|]. intros [Ha _]. rewrite (vi_quit _ _ _ _ _ _ _ Hv) in Ha; done. }
  eapply steps_bind; [by apply step_node|]. intros refs1 v1 Hg1 [[Hl1 Hle1] Hok1]. eapply steps_mono.
  - apply (IH (i + 1) refs1 v1); [by eapply visiting_grows|]. destruct Hrefs as [? _]. split; [lia|]. intros Ha. by apply Hok1.
  - simpl. intros refs2 v2 Hg2 [[Hl2 Hle2] Hok2]. split; [split; [congruence|lia]|]. intros Ha k Hk.
    destruct (decide (k = i)) as [->|]; [|apply Hok2; [done|lia]].
    eapply operand_ok_mono; [exact Hle2|]. apply Hok1. by eapply accepting_back.
Qed.

(** ** The check of one instruction *)

(** Every operand is safe, and the sequence it depends on is not entered. *)
Definition memory_ok (v : NaClValidatorState) : Prop :=
  exists len, 0 <= len /\ (forall k, 0 <= k < number_expr_nodes (nodes s) -> operand_ok k len) /\
    forall d x, Z.of_nat d < len -> (s :: h) !! d = Some x -> removed x v.

Lemma memory_ok_stable : stable memory_ok.
Proof using.
  intros v v' Hg (len & H0 & H1 & H2). exists len. split_and!; [done|done|]. intros d x Hd Hx. eapply removed_stable; [exact Hg|].
  by eapply H2.
Qed.

Lemma keeps_mark_range len : keeps set_base_registers (NaClMarkInstructionsJumpRangeIllegal NaClLogGetVerbosity tables len).
Proof using.
  unfold NaClMarkInstructionsJumpRangeIllegal. apply keeps_for_up. intros j. apply keeps_bind; [apply keeps_lookback|].
  intros slot. apply keeps_mark.
Qed.

Lemma step_memory v : visiting v -> addresses_ok s h ->
  steps (NaClMemoryReferenceValidator NaClLogGetVerbosity tables) (fun _ v' =>
    set_base_registers v' = set_base_registers v /\ if_accepted memory_ok v') v.
Proof using.
  intros Hv Hadd. unfold NaClMemoryReferenceValidator. check_step.
  pose proof (vo_count _ (shown_vector _ _ (shown_current _ _ _ _ _ _ _ Hv))) as Hc.
  eapply steps_bind; [apply step_loop; [done|split; [simpl; lia|by intros _ Hk]]|]. simpl.
  intros refs v1 Hg1 [[Hl1 Hle] Hok]. simpl in Hle. pose proof (visiting_grows _ _ _ _ _ _ _ _ Hg1 Hv) as Hv1. check_step.
  eapply (steps_bind _ _ (fun _ v' => set_base_registers v' = set_base_registers v1)).
  { check; [|done]. eapply steps_mono; [apply (keeps_steps set_base_registers _ (fun _ _ => True)); [keeps|]|by intros ? ? ? [? _]].
    eapply steps_True, step_inst_message. }
  intros [] v2 Hg2 Hl2. pose proof (visiting_grows _ _ _ _ _ _ _ _ Hg2 Hv1) as Hv2. check; zbool.
  - eapply steps_mono; [apply (keeps_steps set_base_registers); [apply keeps_mark_range|by eapply step_mark_range]|]. simpl.
    intros [] v3 Hg3 [Hl3 Hrm]. split; [congruence|]. intros Ha. exists (pattern_length refs). split_and!; [lia| |].
    + intros k Hk. apply Hok; [|lia]. eapply accepting_back; [exact Hg2|]. by eapply accepting_back.
    + intros d x Hd Hx. by eapply Hrm.
  - split; [congruence|]. intros Ha. exists (pattern_length refs). split_and!; [lia| |intros d x Hd; lia].
    intros k Hk. apply Hok; [|lia]. by eapply accepting_back.
Qed.

End Nodes.
End MemSpec.
