(* ===== verification/Illegal.v ===== *)
(** * Instructions that are not allowed: nc_illegal.c

    The reasons against an instruction are collected as a set of flags and
    reported one by one. *)

From S2P Require Import Prelude Effects Stateful Bytes OpKinds DecodeTables InstBuffer ExpVector.
From S2P Require Import InstState InstTrans InstDecode InstIter ValState.

(** ** The reasons: nacl_disallows.h *)

Definition NaClTooManyPrefixBytes : Z := 0.
Definition NaClMarkedIllegal : Z := 1.
Definition NaClMarkedInvalid : Z := 2.
Definition NaClMarkedSystem : Z := 3.
Definition NaClHasBadSegmentPrefix : Z := 4.
Definition NaClCantUsePrefix67 : Z := 5.
Definition NaClMultipleRexPrefix : Z := 6.
Definition NaClRepDisallowed : Z := 7.
Definition NaClRepneDisallowed : Z := 8.
Definition NaClData16Disallowed : Z := 9.
Definition NaClHasDuplicatePrefix : Z := 10.
Definition NaClHasAmbigSegmentPrefixes : Z := 11.
Definition NaClRexPrefixNotLast : Z := 12.
Definition NaClDisallowsFlagEnumSize : Z := 13.

(** [is_legal] and [disallows_flags]. *)
Record Legality := mkLegality { is_legal : bool; disallows_flags : Z }.

Definition disallow (flag : Z) (l : Legality) : Legality :=
  mkLegality false (Z.lor (disallows_flags l) (FLAG flag)).

Definition disallow_if (b : bool) (flag : Z) (l : Legality) : Legality := if b then disallow flag l else l.

(** Every flag has a message. *)
Definition NaClReasonWhyDisallowed (flag : Z) : bool :=
  (NaClTooManyPrefixBytes <=? flag) && (flag <=? NaClRexPrefixNotLast).

(** ** Prefixes *)

Definition kNaClSegmentPrefixMask : Z :=
  foldr Z.lor 0 [kPrefixSEGES; kPrefixSEGFS; kPrefixSEGGS; kPrefixSEGSS; kPrefixSEGCS; kPrefixSEGDS].
Definition kNaClUnsafeJumpPrefixes : Z := foldr Z.lor 0 [kPrefixSEGES; kPrefixSEGFS; kPrefixSEGGS; kPrefixSEGSS].
Definition kNaClUnsafeUnconditionalJumpPrefixes : Z := Z.lor kPrefixSEGCS kPrefixSEGDS.

Definition segment_prefixes_ok (s : NaClInstState) (i : NaClInst) : bool :=
  if has_iflag i JumpInstruction || has_iflag i ConditionalJump then
    negb (NaClHasBit (prefix_mask s) kNaClUnsafeJumpPrefixes) &&
    negb (has_iflag i JumpInstruction && NaClHasBit (prefix_mask s) kNaClUnsafeUnconditionalJumpPrefixes)
  else false.

Definition NaClCheckSegmentPrefixes (s : NaClInstState) (i : NaClInst) (l : Legality) : Legality :=
  if Z.land (prefix_mask s) kNaClSegmentPrefixMask =? 0 then l
  else
    let l := disallow_if (negb (segment_prefixes_ok s i)) NaClHasBadSegmentPrefix l in
    disallow_if (has_ambig_segment_prefixes s) NaClHasAmbigSegmentPrefixes l.

(** The index of the last REX byte among the prefix bytes, -1 for none. *)
Fixpoint rex_index_loop (n : nat) (i : Z) (s : NaClInstState) (rex_index : Z) : outcome Z :=
  match n with
  | O => Ret rex_index
  | S n' =>
      prefix ← index (byte (bytes s)) i;
      rex_index_loop n' (i + 1) s (if (64 <=? prefix) && (prefix <=? 79) then i else rex_index)
  end.

Definition rex_not_last (s : NaClInstState) : outcome bool :=
  if NaClHasBit (prefix_mask s) kPrefixREX then
    rex_index ← rex_index_loop (Z.to_nat (num_prefix_bytes s)) 0 s (-1);
    Ret ((0 <=? rex_index) && negb (rex_index + 1 =? num_prefix_bytes s))
  else Ret false.

(** A pair of DATA16 and LOCK is the only one allowed. *)
Definition too_many_prefixes (s : NaClInstState) (num_prefix_bytes : Z) : bool :=
  (1 <? num_prefix_bytes) &&
  negb ((num_prefix_bytes =? 2) && NaClHasBit (prefix_mask s) kPrefixDATA16 && NaClHasBit (prefix_mask s) kPrefixLOCK).

Definition NaClCheckForPrefixIssues (s : NaClInstState) (i : NaClInst) (l : Legality) : outcome Legality :=
  let num := if cbool (rexprefix s) then num_prefix_bytes s - 1 else num_prefix_bytes s in
  valid ← NaClInstStateIsValid s;
  let l := disallow_if (negb valid) NaClMarkedInvalid l in
  if num =? 0 then Ret l
  else
    let has := NaClHasBit (prefix_mask s) in
    let l := disallow_if (too_many_prefixes s num) NaClTooManyPrefixBytes l in
    let l := disallow_if (has kPrefixREP && negb (has_iflag i OpcodeAllowsRep)) NaClRepDisallowed l in
    let l := disallow_if (has kPrefixREPNE && negb (has_iflag i OpcodeAllowsRepne)) NaClRepneDisallowed l in
    let l := disallow_if (has kPrefixDATA16 && negb (has_iflag i OpcodeAllowsData16)) NaClData16Disallowed l in
    let l := disallow_if (1 <? num_rex_prefixes s) NaClMultipleRexPrefix l in
    let l := disallow_if (has kPrefixADDR16) NaClCantUsePrefix67 l in
    let l := NaClCheckSegmentPrefixes s i l in
    let l := disallow_if (has_prefix_duplicates s &&
                          (Z.land (disallows_flags l) (FLAG NaClMultipleRexPrefix) =? 0)) NaClHasDuplicatePrefix l in
    not_last ← rex_not_last s;
    Ret (disallow_if not_last NaClRexPrefixNotLast l).

(** ** The pattern *)

Definition NaClCheckIfMarkedIllegal (i : NaClInst) (l : Legality) : Legality :=
  let l := disallow_if (has_iflag i NaClIllegal) NaClMarkedIllegal l in
  match insttype i with
  | NACLi_RETURN | NACLi_EMMX | NACLi_ILLEGAL | NACLi_SYSTEM | NACLi_RDMSR | NACLi_RDTSCP | NACLi_LONGMODE
  | NACLi_SVM | NACLi_3BYTE | NACLi_UNDEFINED => disallow NaClMarkedIllegal l
  | NACLi_INVALID => disallow NaClMarkedInvalid l
  | NACLi_SYSCALL | NACLi_SYSENTER => disallow NaClMarkedSystem l
  | _ => l
  end.

(** ** Reporting *)

Section Illegal.
Variable NaClLogGetVerbosity : Z.

Abbreviation inst_message := (NaClValidatorInstMessage NaClLogGetVerbosity).

(** One message for each flag; the result tells whether one was printed. *)
Fixpoint ReportWhy_loop (n : nat) (i : Z) (flags slot : Z) (printed_reason : bool) : Val bool :=
  match n with
  | O => mret printed_reason
  | S n' =>
      printed_reason ←
        (if NaClHasBit flags (FLAG i) && NaClReasonWhyDisallowed i
         then inst_message LOG_ERROR slot ;; mret true else mret printed_reason);
      v ← get;
      if quit v then mret printed_reason else ReportWhy_loop n' (i + 1) flags slot printed_reason
  end.

Definition NaClReportWhyNaClIllegal (flags : Z) : Val unit :=
  slot ← the_slot;
  printed_reason ←
    (if flags =? 0 then mret false
     else ReportWhy_loop (Z.to_nat NaClDisallowsFlagEnumSize) 0 flags slot false);
  if (printed_reason : bool) then mret tt else inst_message LOG_ERROR slot.

Definition NaClValidateInstructionLegal : Val unit :=
  s ← current;
  i ← the_cur_inst;
  l ← lift (NaClCheckForPrefixIssues s i (mkLegality true 0));
  let l := NaClCheckIfMarkedIllegal i l in
  if is_legal l then mret tt else NaClReportWhyNaClIllegal (disallows_flags l).

End Illegal.
