(* ===== verification/CpuChecks.v ===== *)
(** * Features of the processor: nacl_cpuid.c, nc_cpu_checks.c

    The instructions CPUID and XGETBV are the parameter [NaClCPUData] of
    GetCPUFeatures.  An instruction that needs a feature the processor does
    not have is overwritten with halts, or rejected when the text is
    read-only. *)

From S2P Require Import Prelude Effects Stateful Bytes OpKinds DecodeTables InstBuffer ExpVector.
From S2P Require Import InstState InstTrans InstDecode InstIter ValState.

(** ** Features *)

Abbreviation NaClCPUFeature_x87 := 0 (only parsing).
Abbreviation NaClCPUFeature_MMX := 1 (only parsing).
Abbreviation NaClCPUFeature_SSE := 2 (only parsing).
Abbreviation NaClCPUFeature_SSE2 := 3 (only parsing).
Abbreviation NaClCPUFeature_SSE3 := 4 (only parsing).
Abbreviation NaClCPUFeature_SSSE3 := 5 (only parsing).
Abbreviation NaClCPUFeature_SSE41 := 6 (only parsing).
Abbreviation NaClCPUFeature_SSE42 := 7 (only parsing).
Abbreviation NaClCPUFeature_MOVBE := 8 (only parsing).
Abbreviation NaClCPUFeature_POPCNT := 9 (only parsing).
Abbreviation NaClCPUFeature_CX8 := 10 (only parsing).
Abbreviation NaClCPUFeature_CX16 := 11 (only parsing).
Abbreviation NaClCPUFeature_CMOV := 12 (only parsing).
Abbreviation NaClCPUFeature_FXSR := 14 (only parsing).
Abbreviation NaClCPUFeature_CLFLUSH := 15 (only parsing).
Abbreviation NaClCPUFeature_TSC := 17 (only parsing).
Abbreviation NaClCPUFeature_OSXSAVE := 21 (only parsing).
Abbreviation NaClCPUFeature_AVX := 22 (only parsing).
Abbreviation NaClCPUFeature_3DNOW := 23 (only parsing).
Abbreviation NaClCPUFeature_E3DNOW := 25 (only parsing).
Abbreviation NaClCPUFeature_LZCNT := 26 (only parsing).
Abbreviation NaClCPUFeature_SSE4A := 27 (only parsing).
Abbreviation NaClCPUFeature_LM := 28 (only parsing).

Definition NaClCPUFeature_Max : Z := 30.

Definition NaClGetCPUFeature (features : NaClCPUFeaturesX86) (id : Z) : outcome bool :=
  index (feature_data features) id.

Definition NaClSetCPUFeature (features : NaClCPUFeaturesX86) (id : Z) (state : bool) : NaClCPUFeaturesX86 :=
  features <| feature_data := <[Z.to_nat id := state]> (feature_data features) |>.

Definition NaClArchSupported (features : NaClCPUFeaturesX86) : bool :=
  f_cpuid_supported features && f_cpu_supported features.

Definition NaClClearCPUFeatures : NaClCPUFeaturesX86 :=
  mkFeatures false false (replicate (Z.to_nat NaClCPUFeature_Max) false).

Definition feature_ids : list Z := seqZ 0 NaClCPUFeature_Max.

Definition NaClSetAllCPUFeatures : NaClCPUFeaturesX86 :=
  foldl (fun f id => NaClSetCPUFeature f id true)
    (NaClClearCPUFeatures <| f_cpuid_supported := true |> <| f_cpu_supported := true |>) feature_ids.

(** The eight registers that CPUID 1 and 0x80000001 return. *)
Abbreviation CFReg_ECX_I := 2 (only parsing).
Abbreviation CFReg_EDX_I := 3 (only parsing).
Abbreviation CFReg_ECX_A := 6 (only parsing).
Abbreviation CFReg_EDX_A := 7 (only parsing).

(** Register and mask of each feature. *)
Definition CPUFeatureDescriptions : list (Z * Z) :=
  [(CFReg_EDX_I, 0x1); (CFReg_EDX_I, 0x800000); (CFReg_EDX_I, 0x2000000); (CFReg_EDX_I, 0x4000000);
   (CFReg_ECX_I, 0x1); (CFReg_ECX_I, 0x200); (CFReg_ECX_I, 0x80000); (CFReg_ECX_I, 0x100000);
   (CFReg_ECX_I, 0x400000); (CFReg_ECX_I, 0x800000); (CFReg_EDX_I, 0x100); (CFReg_ECX_I, 0x2000);
   (CFReg_EDX_I, 0x8000); (CFReg_ECX_I, 0x8); (CFReg_EDX_I, 0x1000000); (CFReg_EDX_I, 0x80000);
   (CFReg_EDX_I, 0x20); (CFReg_EDX_I, 0x10); (CFReg_EDX_I, 0x2); (CFReg_EDX_I, 0x40000);
   (CFReg_ECX_I, 0x20); (CFReg_ECX_I, 0x8000000); (CFReg_ECX_I, 0x10000000); (CFReg_EDX_A, 0x80000000);
   (CFReg_EDX_A, 0x400000); (CFReg_EDX_A, 0x40000000); (CFReg_ECX_A, 0x20); (CFReg_ECX_A, 0x40);
   (CFReg_EDX_A, 0x20000000); (CFReg_ECX_A, 0x4)].

(** What CPUID and XGETBV gave; [vendor] is the string of [_vidwords]. *)
Record NaClCPUData := mkCPUData {
  has_CPUID : bool;
  vendor : string;
  featurev : list Z;
  xcrv0 : Z;
}.

Definition CheckCPUFeature (data : NaClCPUData) (id : Z) : outcome bool :=
  '(reg, mask) ← index CPUFeatureDescriptions id;
  word ← index (featurev data) reg;
  Ret (NaClHasBit word mask).

Definition CheckNaClArchFeatures (data : NaClCPUData) (cpuf : NaClCPUFeaturesX86) : NaClCPUFeaturesX86 :=
  cpuf <| f_cpuid_supported := has_CPUID data |>
       <| f_cpu_supported := String.eqb (vendor data) "GenuineIntel" || String.eqb (vendor data) "AuthenticAMD" |>.

Fixpoint check_features (data : NaClCPUData) (ids : list Z) (cpuf : NaClCPUFeaturesX86) : outcome NaClCPUFeaturesX86 :=
  match ids with
  | [] => Ret cpuf
  | id :: ids' => b ← CheckCPUFeature data id; check_features data ids' (NaClSetCPUFeature cpuf id b)
  end.

(** AVX counts only when the operating system keeps its state. *)
Definition GetCPUFeatures (data : NaClCPUData) : outcome NaClCPUFeaturesX86 :=
  let cpuf := CheckNaClArchFeatures data NaClClearCPUFeatures in
  if negb (f_cpuid_supported cpuf) then Ret cpuf
  else
    cpuf ← check_features data feature_ids cpuf;
    osxsave ← NaClGetCPUFeature cpuf NaClCPUFeature_OSXSAVE;
    Ret (if osxsave && (Z.land (xcrv0 data) 6 =? 6) then cpuf
         else NaClSetCPUFeature cpuf NaClCPUFeature_AVX false).

Definition kFixedFeatureCPUModel : list bool :=
  [false; false; true; true; true; false; false; false; false; false;
   true; true; true; false; true; true; false; true; false; false;
   false; false; false; false; false; false; false; false; false; false].

Fixpoint fix_features (ids : list Z) (cpuf : NaClCPUFeaturesX86) (rvalue : bool) : outcome (bool * NaClCPUFeaturesX86) :=
  match ids with
  | [] => Ret (rvalue, cpuf)
  | id :: ids' =>
      fixed ← index kFixedFeatureCPUModel id;
      if (fixed : bool) then
        has ← NaClGetCPUFeature cpuf id;
        fix_features ids' cpuf (if (has : bool) then rvalue else false)
      else fix_features ids' (NaClSetCPUFeature cpuf id false) rvalue
  end.

Definition NaClFixCPUFeatures (cpuf : NaClCPUFeaturesX86) : outcome (bool * NaClCPUFeaturesX86) :=
  fix_features feature_ids cpuf true.

(** ** The check of an instruction *)

Definition NaClCpuCheckMemoryInitialize : NaClCpuCheckState := mkCpuChecks NaClClearCPUFeatures false false.

Section CpuChecks.
Variable NaClLogGetVerbosity : Z.

Abbreviation inst_message := (NaClValidatorInstMessage NaClLogGetVerbosity).

Definition set_checks (f : NaClCpuCheckState -> NaClCpuCheckState) : Val unit :=
  modify (fun v => v <| cpu_checks := f (cpu_checks v) |>).

(** The result is [*squash_me]: true when the feature is missing. *)
Definition NaClCheckFeature (feature : Z) (squash_me : bool) : Val bool :=
  v ← get;
  has ← lift (NaClGetCPUFeature (cpu_features v) feature);
  if (has : bool) then mret squash_me
  else
    checked ← lift (NaClGetCPUFeature (checked_features (cpu_checks v)) feature);
    (if (checked : bool) then mret tt
     else
       slot ← the_slot;
       inst_message LOG_WARNING slot ;;
       set_checks (fun c => c <| checked_features := NaClSetCPUFeature (checked_features c) feature true |>)) ;;
    mret true.

Definition check_CMOV_and_x87 : Val bool :=
  v ← get;
  cmov ← lift (NaClGetCPUFeature (cpu_features v) NaClCPUFeature_CMOV);
  x87 ← lift (NaClGetCPUFeature (cpu_features v) NaClCPUFeature_x87);
  if cmov && x87 then mret false
  else
    (if f_CMOV_and_x87 (cpu_checks v) then mret tt
     else
       slot ← the_slot;
       inst_message LOG_WARNING slot ;; set_checks (fun c => c <| f_CMOV_and_x87 := true |>)) ;;
    mret true.

(** Squashed whether one of the features is there or not. *)
Definition check_MMX_or_SSE2 : Val bool :=
  v ← get;
  mmx ← lift (NaClGetCPUFeature (cpu_features v) NaClCPUFeature_MMX);
  sse2 ← lift (NaClGetCPUFeature (cpu_features v) NaClCPUFeature_SSE2);
  (if mmx || sse2 || f_MMX_or_SSE2 (cpu_checks v) then mret tt
   else
     slot ← the_slot;
     inst_message LOG_WARNING slot ;; set_checks (fun c => c <| f_MMX_or_SSE2 := true |>)) ;;
  mret true.

Definition check_SSE2x : Val bool :=
  slot ← the_slot;
  s ← current;
  (if NaClHasBit (prefix_mask s) kPrefixDATA16 then mret tt else inst_message LOG_ERROR slot) ;;
  NaClCheckFeature NaClCPUFeature_SSE2 false.

(** The instruction must be overwritten, by its type. *)
Definition squash_by_type (t : NaClInstType) : Val bool :=
  match t with
  | NACLi_X87 | NACLi_X87_FSINCOS => NaClCheckFeature NaClCPUFeature_x87 false
  | NACLi_SFENCE_CLFLUSH =>
      squash_me ← NaClCheckFeature NaClCPUFeature_CLFLUSH false; NaClCheckFeature NaClCPUFeature_FXSR squash_me
  | NACLi_CMPXCHG8B => NaClCheckFeature NaClCPUFeature_CX8 false
  | NACLi_CMPXCHG16B => NaClCheckFeature NaClCPUFeature_CX16 false
  | NACLi_CMOV => NaClCheckFeature NaClCPUFeature_CMOV false
  | NACLi_FCMOV => check_CMOV_and_x87
  | NACLi_RDTSC => NaClCheckFeature NaClCPUFeature_TSC false
  | NACLi_MMX => NaClCheckFeature NaClCPUFeature_MMX false
  | NACLi_MMXSSE2 => check_MMX_or_SSE2
  | NACLi_SSE => NaClCheckFeature NaClCPUFeature_SSE false
  | NACLi_SSE2 => NaClCheckFeature NaClCPUFeature_SSE2 false
  | NACLi_SSE3 => NaClCheckFeature NaClCPUFeature_SSE3 false
  | NACLi_SSE4A => NaClCheckFeature NaClCPUFeature_SSE4A false
  | NACLi_SSE41 => NaClCheckFeature NaClCPUFeature_SSE41 false
  | NACLi_SSE42 => NaClCheckFeature NaClCPUFeature_SSE42 false
  | NACLi_MOVBE => NaClCheckFeature NaClCPUFeature_MOVBE false
  | NACLi_POPCNT => NaClCheckFeature NaClCPUFeature_POPCNT false
  | NACLi_LZCNT => NaClCheckFeature NaClCPUFeature_LZCNT false
  | NACLi_SSSE3 => NaClCheckFeature NaClCPUFeature_SSSE3 false
  | NACLi_3DNOW => NaClCheckFeature NaClCPUFeature_3DNOW false
  | NACLi_E3DNOW => NaClCheckFeature NaClCPUFeature_E3DNOW false
  | NACLi_LONGMODE => NaClCheckFeature NaClCPUFeature_LM false
  | NACLi_SSE2x => check_SSE2x
  | _ => mret false
  end.

Definition NaClCpuCheck : Val unit :=
  i ← the_cur_inst;
  squash_me ← squash_by_type (insttype i);
  squash_me ← (if has_iflag i LongMode then NaClCheckFeature NaClCPUFeature_LM squash_me else mret squash_me);
  if (squash_me : bool) then
    v ← get;
    slot ← the_slot;
    if readonly_text v then inst_message LOG_ERROR slot
    else
      iter ← the_iter;
      s ← current;
      ptr ← lift (NaClInstIterGetInstMemoryInline iter);
      NCStubOutMem ptr (NaClInstStateLength s)
  else mret tt.

End CpuChecks.
