(* ===== verification/CpuSpec.v ===== *)
(** * Legal instructions and CPU features *)

From S2P Require Import Prelude Effects Stateful Bytes OpKinds DecodeTables OpcodeTable InstBuffer.
From S2P Require Import ExpVector InstState InstTrans InstDecode TransSpec DecodeSpec InstIter.
From S2P Require Import IterSpec ValState AddressSet ValSpec CheckSpec Illegal CpuChecks.

(** ** What the check for illegal instructions establishes *)

(** Types of instruction that are never allowed. *)
Definition forbidden_types : list NaClInstType :=
  [NACLi_RETURN; NACLi_EMMX; NACLi_ILLEGAL; NACLi_SYSTEM; NACLi_RDMSR; NACLi_RDTSCP; NACLi_LONGMODE; NACLi_SVM;
   NACLi_3BYTE; NACLi_UNDEFINED; NACLi_INVALID; NACLi_SYSCALL; NACLi_SYSENTER].

(** The number of prefix bytes without the REX byte. *)
Definition other_prefixes (s : NaClInstState) : Z :=
  if cbool (rexprefix s) then num_prefix_bytes s - 1 else num_prefix_bytes s.

(** The prefixes other than REX are the ones the instruction allows: no
    address size prefix, one prefix or the pair DATA16 and LOCK, a segment
    prefix as a branch hint only. *)
Record prefixes_ok (s : NaClInstState) (i : NaClInst) : Prop := {
  po_count : other_prefixes s <= 1 \/
    (other_prefixes s = 2 /\ NaClHasBit (prefix_mask s) kPrefixDATA16 = true /\ NaClHasBit (prefix_mask s) kPrefixLOCK = true);
  po_rep : NaClHasBit (prefix_mask s) kPrefixREP = true -> has_iflag i OpcodeAllowsRep = true;
  po_repne : NaClHasBit (prefix_mask s) kPrefixREPNE = true -> has_iflag i OpcodeAllowsRepne = true;
  po_data16 : NaClHasBit (prefix_mask s) kPrefixDATA16 = true -> has_iflag i OpcodeAllowsData16 = true;
  po_addr16 : NaClHasBit (prefix_mask s) kPrefixADDR16 = false;
  po_rex : num_rex_prefixes s <= 1;
  po_segment : Z.land (prefix_mask s) kNaClSegmentPrefixMask <> 0 ->
    has_iflag i JumpInstruction = true \/ has_iflag i ConditionalJump = true;
  po_rex_last : rex_not_last s = Ret false;
}.

Record legal (s : NaClInstState) (i : NaClInst) : Prop := {
  lg_valid : NaClInstStateIsValid s = Ret true;
  lg_marked : has_iflag i NaClIllegal = false;
  lg_type : insttype i ∉ forbidden_types;
  lg_prefixes : other_prefixes s <> 0 -> prefixes_ok s i;
}.

Lemma legal_disallow b flag l : is_legal (disallow_if b flag l) = true -> b = false /\ is_legal l = true.
Proof. destruct b; [done|auto]. Qed.

Lemma marked_legal i l : is_legal (NaClCheckIfMarkedIllegal i l) = true ->
  has_iflag i NaClIllegal = false /\ (insttype i ∉ forbidden_types) /\ is_legal l = true.
Proof.
  unfold NaClCheckIfMarkedIllegal. intros Hl.
  assert ((insttype i ∉ forbidden_types) /\ is_legal (disallow_if (has_iflag i NaClIllegal) NaClMarkedIllegal l) = true) as [Ht H1].
  { split; [|by destruct (insttype i)]. unfold forbidden_types. rewrite !not_elem_of_cons. destruct (insttype i); try done;
      split_and!; try done; apply not_elem_of_nil. }
  apply legal_disallow in H1 as [? ?]. done.
Qed.

Lemma segment_legal s i l : is_legal (NaClCheckSegmentPrefixes s i l) = true ->
  is_legal l = true /\ (Z.land (prefix_mask s) kNaClSegmentPrefixMask <> 0 ->
    has_iflag i JumpInstruction = true \/ has_iflag i ConditionalJump = true).
Proof.
  unfold NaClCheckSegmentPrefixes. case_match eqn:E; zbool; [auto|]. intros Hl.
  apply legal_disallow in Hl as [_ [Hs Hl]%legal_disallow]. split; [done|]. intros _. apply negb_false_iff in Hs.
  unfold segment_prefixes_ok in Hs. case_match eqn:Ej; [|done]. by apply orb_true_iff in Ej.
Qed.

Lemma not_and a b : a && negb b = false -> a = true -> b = true.
Proof. by destruct a, b. Qed.

Lemma legal_intro s i l :
  NaClCheckForPrefixIssues s i (mkLegality true 0) = Ret l -> is_legal (NaClCheckIfMarkedIllegal i l) = true -> legal s i.
Proof.
  unfold NaClCheckForPrefixIssues. fold (other_prefixes s).
  destruct (NaClInstStateIsValid s) as [valid|] eqn:Hvalid; [|done]. simpl. intros Hl [Hm [Ht Hleg]]%marked_legal.
  destruct (other_prefixes s =? 0) eqn:Hn; zbool.
  - injection Hl as <-. apply legal_disallow in Hleg as [Hv _]. zbool. subst. split; try done.
  - destruct (rex_not_last s) as [nl|] eqn:Hrex; [|done]. simpl in Hl. injection Hl as <-.
    apply legal_disallow in Hleg as [-> Hleg]. apply legal_disallow in Hleg as [_ Hleg].
    apply segment_legal in Hleg as [Hleg Hseg].
    do 6 apply legal_disallow in Hleg as [? Hleg]. apply legal_disallow in Hleg as [Hv _]. zbool. subst.
    split; try done. intros _. split; try done; try (by apply not_and).
    unfold too_many_prefixes in *. destruct (1 <? other_prefixes s) eqn:E; zbool; [|by left]. right. simpl in *.
    repeat match goal with H : negb _ = false |- _ => apply negb_false_iff in H end. zbool. auto.
Qed.

Lemma ends_rex_index n i s r : ends (rex_index_loop n i s r).
Proof. revert i r. induction n as [|n IH]; intros i r; simpl; [done|]. apply ends_bind; [ends|auto]. Qed.

Lemma ends_not_last s : ends (rex_not_last s).
Proof. unfold rex_not_last. destruct (NaClHasBit _ _); [|ends]. apply ends_bind; [apply ends_rex_index|intros; ends]. Qed.

Lemma ends_prefix_issues s i l : ends (NaClCheckForPrefixIssues s i l).
Proof.
  unfold NaClCheckForPrefixIssues. fold (other_prefixes s). apply ends_bind; [ends|]. intros valid _. cbv zeta.
  destruct (other_prefixes s =? 0); [ends|]. apply ends_bind; [apply ends_not_last|intros; ends].
Qed.
#[local] Hint Resolve ends_prefix_issues : ends.

Section IllegalSpec.
Variable NaClLogGetVerbosity : Z.
Variable tables : NaClDecodeTables.

Lemma step_report n i flags slot printed v :
  (printed = true -> ~ accepting v) ->
  steps (ReportWhy_loop NaClLogGetVerbosity n i flags slot printed) (fun b v' => b = true -> ~ accepting v') v.
Proof using.
  revert i printed v. induction n as [|n IH]; intros i printed v Hp; simpl; check; [done|].
  eapply (steps_bind _ _ (fun b v' => b = true -> ~ accepting v')).
  - check; [|done]. eapply steps_bind; [apply (step_error _ slot (fun _ => False))|]. intros [] v1 _ He. check. auto.
  - intros b v1 Hg Hb. check; [done|]. by apply IH.
Qed.

Lemma step_legal base size a s h v :
  visiting tables base size a s h v ->
  steps (NaClValidateInstructionLegal NaClLogGetVerbosity)
    (fun _ => if_accepted (fun _ => forall i, NaClInstStateInst s = Ret i -> legal s i)) v.
Proof using.
  intros Hv. unfold NaClValidateInstructionLegal. check.
  - intros _ j Hj. match goal with H : pattern _ _ _ |- _ => destruct H as [Hp _] end. 
    rewrite Hp in Hj. injection Hj as <-. by eapply legal_intro.
  - unfold NaClReportWhyNaClIllegal. check. eapply (steps_bind _ _ (fun b v' => b = true -> ~ accepting v')).
    + check; [done|]. by apply step_report.
    + intros b v1 Hg Hb. check; [|apply step_error]. intros Ha. by destruct Hb.
Qed.

End IllegalSpec.

(** ** What the check of processor features establishes *)

(** The features an instruction needs, by its type. *)
Definition needs (t : NaClInstType) : list Z :=
  match t with
  | NACLi_X87 | NACLi_X87_FSINCOS => [NaClCPUFeature_x87]
  | NACLi_SFENCE_CLFLUSH => [NaClCPUFeature_CLFLUSH; NaClCPUFeature_FXSR]
  | NACLi_CMPXCHG8B => [NaClCPUFeature_CX8]
  | NACLi_CMPXCHG16B => [NaClCPUFeature_CX16]
  | NACLi_CMOV => [NaClCPUFeature_CMOV]
  | NACLi_FCMOV => [NaClCPUFeature_CMOV; NaClCPUFeature_x87]
  | NACLi_RDTSC => [NaClCPUFeature_TSC]
  | NACLi_MMX => [NaClCPUFeature_MMX]
  | NACLi_SSE => [NaClCPUFeature_SSE]
  | NACLi_SSE2 | NACLi_SSE2x => [NaClCPUFeature_SSE2]
  | NACLi_SSE3 => [NaClCPUFeature_SSE3]
  | NACLi_SSE4A => [NaClCPUFeature_SSE4A]
  | NACLi_SSE41 => [NaClCPUFeature_SSE41]
  | NACLi_SSE42 => [NaClCPUFeature_SSE42]
  | NACLi_MOVBE => [NaClCPUFeature_MOVBE]
  | NACLi_POPCNT => [NaClCPUFeature_POPCNT]
  | NACLi_LZCNT => [NaClCPUFeature_LZCNT]
  | NACLi_SSSE3 => [NaClCPUFeature_SSSE3]
  | NACLi_3DNOW => [NaClCPUFeature_3DNOW]
  | NACLi_E3DNOW => [NaClCPUFeature_E3DNOW]
  | NACLi_LONGMODE => [NaClCPUFeature_LM]
  | _ => []
  end.

(** The processor has the features an instruction needs. *)
Definition supported (features : NaClCPUFeaturesX86) (i : NaClInst) : Prop :=
  insttype i <> NACLi_MMXSSE2 /\
  Forall (fun f => NaClGetCPUFeature features f = Ret true)
    (needs (insttype i) ++ if has_iflag i LongMode then [NaClCPUFeature_LM] else []).

Lemma fixed_features v v' : grows v v' -> cpu_features v' = cpu_features v.
Proof. intros Hg. pose proof (gr_fixed _ _ Hg) as Hf. unfold fixed in Hf. congruence. Qed.

Section CpuSpec.
Variable NaClLogGetVerbosity : Z.
Variable tables : NaClDecodeTables.

Lemma grows_checks f v : grows v (v <| cpu_checks := f (cpu_checks v) |>).
Proof using. split; try done; try reflexivity; auto. Qed.

Lemma ends_feature features f : ends (NaClGetCPUFeature features f).
Proof using. unfold NaClGetCPUFeature. ends. Qed.
Lemma ends_inst_memory it : ends (NaClInstIterGetInstMemoryInline it).
Proof using. unfold NaClInstIterGetInstMemoryInline. ends. Qed.
#[local] Hint Resolve ends_feature ends_inst_memory : ends.

Abbreviation has f v := (NaClGetCPUFeature (cpu_features v) f = Ret true).

(** A warning is given once. *)
Lemma step_warn v slot f :
  steps (NaClValidatorInstMessage NaClLogGetVerbosity LOG_WARNING slot ;; set_checks f) (fun _ _ => True) v.
Proof using.
  eapply steps_bind; [apply step_inst_message|]. intros [] v1 _ _. apply steps_modify; [apply grows_checks|done].
Qed.

Section At.
Context (base size a : Z) (s : NaClInstState) (h : list NaClInstState).

Lemma step_feature v f q :
  visiting tables base size a s h v ->
  steps (NaClCheckFeature NaClLogGetVerbosity f q) (fun b v' => b = false -> q = false /\ has f v') v.
Proof using.
  intros Hv. unfold NaClCheckFeature. check.
  - intros ->. split; [done|congruence].
  - eapply (steps_bind _ _ (fun _ _ => True)); [|intros [] v1 _ _; by check]. check; [done|]. apply step_warn.
Qed.

Lemma step_cmov v :
  visiting tables base size a s h v ->
  steps (check_CMOV_and_x87 NaClLogGetVerbosity)
    (fun b v' => b = false -> has NaClCPUFeature_CMOV v' /\ has NaClCPUFeature_x87 v') v.
Proof using.
  intros Hv. unfold check_CMOV_and_x87. check.
  - intros _. zbool. subst. done.
  - eapply (steps_bind _ _ (fun _ _ => True)); [|intros [] v1 _ _; by check]. check; [done|]. apply step_warn.
Qed.

Lemma step_mmx v :
  visiting tables base size a s h v -> steps (check_MMX_or_SSE2 NaClLogGetVerbosity) (fun b _ => b = true) v.
Proof using.
  intros Hv. unfold check_MMX_or_SSE2. check.
  eapply (steps_bind _ _ (fun _ _ => True)); [|intros [] v1 _ _; by check]. check; [done|]. apply step_warn.
Qed.

Lemma step_sse2x v :
  visiting tables base size a s h v ->
  steps (check_SSE2x NaClLogGetVerbosity) (fun b v' => b = false -> has NaClCPUFeature_SSE2 v') v.
Proof using.
  intros Hv. unfold check_SSE2x. check.
  eapply (steps_bind _ _ (fun _ _ => True)).
  { check; [done|]. eapply steps_mono; [apply step_inst_message|done]. }
  intros [] v1 Hg _. eapply steps_mono; [apply step_feature; by eapply visiting_grows|]. simpl. naive_solver.
Qed.

Lemma step_flush v :
  visiting tables base size a s h v ->
  steps (squash_me ← NaClCheckFeature NaClLogGetVerbosity NaClCPUFeature_CLFLUSH false;
         NaClCheckFeature NaClLogGetVerbosity NaClCPUFeature_FXSR squash_me)
    (fun b v' => b = false -> has NaClCPUFeature_CLFLUSH v' /\ has NaClCPUFeature_FXSR v') v.
Proof using.
  intros Hv. eapply steps_bind; [by apply step_feature|]. intros b v1 Hg Hb.
  eapply steps_mono; [apply step_feature; by eapply visiting_grows|]. simpl. intros b' v2 Hg2 Hb' E.
  destruct (Hb' E) as [-> H2]. split; [|done]. rewrite (fixed_features _ _ Hg2). by apply Hb.
Qed.

Lemma step_squash v t :
  visiting tables base size a s h v ->
  steps (squash_by_type NaClLogGetVerbosity t) (fun b v' => b = false ->
    t <> NACLi_MMXSSE2 /\ Forall (fun f => has f v') (needs t)) v.
Proof using.
  intros Hv. destruct t; simpl; try (check; by split); (eapply steps_mono;
    [first [by apply step_flush|by apply step_feature|by apply step_cmov|by apply step_mmx|by apply step_sse2x]|]);
    simpl; intros b v' _ Hb E; subst; try done; specialize (Hb eq_refl); split; naive_solver.
Qed.

Lemma step_cpu v :
  visiting tables base size a s h v ->
  steps (NaClCpuCheck NaClLogGetVerbosity) (fun _ => if_accepted (fun v' => did_stub_out v' = false ->
    forall i, NaClInstStateInst s = Ret i -> supported (cpu_features v') i)) v.
Proof using.
  intros Hv. unfold NaClCpuCheck. check. match goal with H : pattern _ _ ?x |- _ => destruct H as [Hi _]; rename x into i end.
  eapply steps_bind; [by apply step_squash|]. intros q v1 Hg1 Hq. pose proof (visiting_grows _ _ _ _ _ _ _ _ Hg1 Hv) as Hv1.
  eapply (steps_bind _ _ (fun b v' => b = false -> supported (cpu_features v') i)).
  { unfold supported. check.
    - match goal with H : has_iflag _ _ = true |- _ => rewrite H end.
      eapply steps_mono; [by apply step_feature|]. simpl. intros b v2 Hg2 Hb E. destruct (Hb E) as [-> H2].
      destruct (Hq eq_refl) as [Hm Hn]. split; [done|]. rewrite (fixed_features _ _ Hg2) in *. by apply Forall_app_2; [|constructor].
    - match goal with H : has_iflag _ _ = false |- _ => rewrite H end. rewrite app_nil_r. exact Hq. }
  intros b v2 Hg2 Hb. pose proof (visiting_grows _ _ _ _ _ _ _ _ Hg2 Hv1) as Hv2. check.
  - apply step_error.
  - destruct (vi_iter _ _ _ _ _ _ _ Hv2) as (it & Hit & [Hw _ _ [R1 _ R3 _ _ _] _] & _).
    eapply steps_bind_eq; [by apply eq_iter|]. check.
    apply step_stub_mem; [by right| |].
    + intros x Hx. exists it. split; [done|]. unfold NaClInstIterGetInstMemoryInline in *. case_match; [done|]. simplify_eq.
      unfold NaClInstStateLength in Hx. rewrite (wk_index _ _ _ _ _ _ Hw), (proj1 (wk_segment _ _ _ _ _ _ Hw)) in Hx. lia.
    + intros v' _ Hd _ _ Hd'. congruence.
  - intros _ _ i' Hi'. assert (i' = i) as -> by congruence. by apply Hb.
Qed.

End At.
End CpuSpec.
