(* ===== verification/ValidateIter.v ===== *)
(** * Validating a segment: halt_trim.c, ncvalidate_iter.c, nc_jumps_detailed.c

    The checks are applied to the instructions of a segment one after the
    other; what they collected is checked at the end.  The replacement of code
    is validated by walking over the old and the new code together.

    The loops run once per instruction.  Their fuel is the number of bytes and
    one more: every instruction has a byte. *)

From S2P Require Import Prelude Effects Stateful Bytes OpKinds DecodeTables InstBuffer ExpVector.
From S2P Require Import InstState InstTrans InstDecode InstIter ValState AddressSet Jumps.
From S2P Require Import ProtectBase MemProtect Illegal CpuChecks.

(** ** Trailing halts: halt_trim.c *)

Definition kMinHaltKeepLength : Z := MAX_INST_LENGTH + 1.
Definition kNaClHalt : Z := 244.

(** The loop from [i] down, in [n] turns: the last byte that is no halt, 0 if
    there is none above. *)
Fixpoint last_non_halt (ram : memory) (base : Z) (n : nat) (i : Z) : Z :=
  match n with
  | O => i
  | S n' => if ram (base + i) =? kNaClHalt then last_non_halt ram base n' (i - 1) else i
  end.

(** For a size of 0 the loop starts below the segment. *)
Definition NCHaltTrimSize (ram : memory) (base sz alignment : Z) : outcome Z :=
  if sz =? 0 then Fault OutOfBounds
  else
    let i := last_non_halt ram base (Z.to_nat (sz - 1)) (sz - 1) in
    let num_halts := sz - (i + 1) in
    Ret (if kMinHaltKeepLength <? num_halts then
           let new_size := (sz - num_halts) + kMinHaltKeepLength in
           let block_overflow := new_size mod alignment in
           let new_size := if block_overflow =? 0 then new_size else new_size - block_overflow + alignment in
           if new_size <? sz then new_size else sz
         else sz).

(** ** The state *)

Definition sizeof_NaClValidatorState : Z := 1296.
Definition NACL_FLAGS_max_reported_errors : Z := 100.

(** The state when the jump sets are allocated. *)
Definition NaClValidatorStateCreate `{Host} (vb size : Z) (base_reg : NaClOpKind) (readonly : bool)
  (features : NaClCPUFeaturesX86) (m : memory) : option NaClValidatorState :=
  if negb (malloc_ok sizeof_NaClValidatorState) then None
  else
    match NaClJumpValidatorInitialize size with
    | None => None
    | Some sets =>
        Some (mkVState vb size 32 31 base_reg true false NACL_FLAGS_max_reported_errors features LOG_INFO
                None None None None false false readonly false sets
                NaClBaseRegisterMemoryInitialize NaClCpuCheckMemoryInitialize m)
    end.

Definition NaClValidatorStateSetMaxReportedErrors (new_value : Z) : Val unit :=
  modify (fun v => let v := v <| quit_after_error_count := new_value |> in v <| quit := NaClValidatorQuit v |>).

Definition NaClValidatorStateSetLogVerbosity (new_value : Z) : Val unit :=
  modify (fun v => v <| log_verbosity := new_value |>).

Definition NaClValidatorStateSetDoStubOut (new_value : bool) : Val unit :=
  modify (fun v => v <| do_stub_out := new_value |>) ;;
  if new_value then NaClValidatorStateSetMaxReportedErrors 0 else mret tt.

Definition kLookbackSize : Z := 8.

Section ValidateIter.
Context `{Host}.
Variable NaClLogGetVerbosity : Z.
Variable tables : NaClDecodeTables.

Abbreviation message := (NaClValidatorMessage NaClLogGetVerbosity).
Abbreviation inst_message := (NaClValidatorInstMessage NaClLogGetVerbosity).

Definition set_iter (iter : option NaClInstIter) : Val unit := modify (fun v => v <| cur_iter := iter |>).

(** The new iterator keeps one instruction more than the old one. *)
Definition NaClValidatorStateIterReset : Val bool :=
  iter ← the_iter;
  NaClValidatorStateIterFinishInline ;;
  v ← get;
  new ← lift (NaClInstIterCreateWithLookback (ram v) (segment iter) (buffer_size iter));
  set_iter (Some new) ;; mret true.

(** ** The detailed summary: nc_jumps_detailed.c *)

Definition crosses_block (addr : Z) : Val unit :=
  slot ← the_slot;
  v ← get;
  if Z.land addr (bundle_mask v) =? 0 then inst_message LOG_ERROR slot else mret tt.

Definition LayoutCheck_node (end_ : Z) (n : NaClExp) : Val unit :=
  if has_eflag n ExprJumpTarget && is_kind ExprConstant n then
    let target := u64 (end_ + NaClGetExprSignedValue n) in
    slot ← the_slot;
    v ← get;
    if target <? codesize v then
      possible ← NaClAddressSetContains NaClLogGetVerbosity (possible_targets (jump_sets v)) target;
      if (possible : bool) then
        removed ← NaClAddressSetContains NaClLogGetVerbosity (removed_targets (jump_sets v)) target;
        if (removed : bool) then inst_message LOG_ERROR slot else mret tt
      else inst_message LOG_ERROR slot
    else mret tt
  else mret tt.

Definition NaClInstLayoutCheck : Val unit :=
  v ← get;
  match cur_inst_state v with
  | None => mret tt
  | Some slot =>
      s ← current;
      let start := inst_addr s in
      (if Z.land start (bundle_mask v) =? 0 then
         removed ← NaClAddressSetContains NaClLogGetVerbosity (removed_targets (jump_sets v)) start;
         if (removed : bool) then inst_message LOG_ERROR slot else mret tt
       else mret tt) ;;
      let end_ := start + blength (bytes s) in
      for_up (Z.to_nat (blength (bytes s) - 1)) (start + 1) crosses_block ;;
      i ← lift (NaClInstStateInst s);
      if is_jump i then
        vector ← vector_of tables s;
        for_up (Z.to_nat (number_expr_nodes vector)) 0 (fun k =>
          n ← lift (index (node vector) k); LayoutCheck_node end_ n)
      else mret tt
  end.

Fixpoint LayoutCheck_loop (fuel : nat) : Val unit :=
  match fuel with
  | O => abort OutOfFuel
  | S fuel' =>
      next ← NaClValidatorStateIterHasNextInline tables;
      if (next : bool) then
        NaClInstLayoutCheck ;; NaClValidatorStateIterAdvanceInline tables ;; LayoutCheck_loop fuel'
      else mret tt
  end.

Definition NaClJumpValidatorSummarizeDetailed : Val unit :=
  v ← get;
  if quit v then mret tt
  else
    message LOG_INFO ;;
    v ← get;
    (if Z.land (vbase v) (bundle_mask v) =? 0 then mret tt else message LOG_ERROR) ;;
    ok ← NaClValidatorStateIterReset;
    if (ok : bool) then
      LayoutCheck_loop (S (Z.to_nat (codesize v))) ;; NaClValidatorStateIterFinishInline
    else message LOG_ERROR.

(** ** The checks *)

Definition NaClApplyValidators : Val unit :=
  v ← get;
  if quit v then mret tt
  else
    NaClCpuCheck NaClLogGetVerbosity ;;
    NaClValidateInstructionLegal NaClLogGetVerbosity ;;
    NaClBaseRegisterValidator NaClLogGetVerbosity tables ;;
    NaClMemoryReferenceValidator NaClLogGetVerbosity tables ;;
    NaClJumpValidator NaClLogGetVerbosity tables.

Definition NaClApplyPostValidators : Val unit :=
  v ← get;
  if quit v || bool_decide (cur_iter v = None) then mret tt
  else
    NaClBaseRegisterSummarize NaClLogGetVerbosity ;;
    v ← get;
    if do_detailed v then NaClJumpValidatorSummarizeDetailed
    else NaClJumpValidatorSummarize NaClLogGetVerbosity.

(** ** A segment *)

Fixpoint ValidateSegment_loop (fuel : nat) : Val unit :=
  match fuel with
  | O => abort OutOfFuel
  | S fuel' =>
      next ← NaClValidatorStateIterHasNextInline tables;
      if (next : bool) then
        NaClApplyValidators ;;
        v ← get;
        if quit v then mret tt
        else NaClValidatorStateIterAdvanceInline tables ;; ValidateSegment_loop fuel'
      else mret tt
  end.

(** The body of [do { ... } while (0)]. *)
Definition ValidateSegment_body (base vb size : Z) : Val unit :=
  v ← get;
  if negb (Z.land vb (bundle_mask v) =? 0) then message LOG_ERROR
  else if negb (vb =? vbase v) then message LOG_ERROR
  else if negb (size =? codesize v) then message LOG_ERROR
  else if u64 (vb + size) <? vb then message LOG_ERROR
  else
    size ← lift (NCHaltTrimSize (ram v) base size (vbundle_size v));
    modify (fun v => v <| codesize := size |>) ;;
    if size =? 0 then message LOG_ERROR
    else
      iter ← lift (NaClInstIterCreateWithLookback (ram v) (NaClSegmentInitialize base vb size) kLookbackSize);
      set_iter (Some iter) ;;
      ValidateSegment_loop (S (Z.to_nat size)) ;;
      NaClValidatorStateIterFinishInline.

Definition NaClValidateSegment (base vb size : Z) : Val unit :=
  ValidateSegment_body base vb size ;; NaClApplyPostValidators ;; set_iter None.

(** ** The replacement of code *)

(** A constant that may differ: the target of a direct call, and in a mov an
    immediate that is used or a displacement. *)
Definition may_differ (name : NaClMnemonic) (exp_old : NaClExpVector) (n : NaClExp) (i : Z) : outcome bool :=
  match name with
  | InstCall =>
      if has_eflag n ExprJumpTarget then
        parent_index ← NaClGetExpParentIndex exp_old i;
        if parent_index <? 0 then Ret false
        else p ← index (node exp_old) parent_index; Ret (is_kind OperandReference p)
      else Ret false
  | InstMov =>
      parent_index ← NaClGetExpParentIndex exp_old i;
      if parent_index <? 0 then Ret false
      else
        p ← index (node exp_old) parent_index;
        Ret (match exp_kind p with
             | OperandReference => has_eflag n ExprUsed
             | ExprMemOffset => 4 =? i - parent_index
             | _ => false
             end)
  | _ => Ret false
  end.

(** The nodes from [i] on agree up to such constants. *)
Fixpoint same_nodes (k : nat) (i : Z) (name : NaClMnemonic) (exp_old exp_new : NaClExpVector) : outcome bool :=
  match k with
  | O => Ret true
  | S k' =>
      n_old ← index (node exp_old) i;
      n_new ← index (node exp_new) i;
      if negb (bool_decide (exp_kind n_old = exp_kind n_new)) || negb (exp_flags n_old =? exp_flags n_new)
      then Ret false
      else if exp_value n_old =? exp_value n_new then same_nodes k' (i + 1) name exp_old exp_new
      else if negb (is_kind ExprConstant n_old) then Ret false
      else
        ok ← may_differ name exp_old n_old i;
        if (ok : bool) then same_nodes k' (i + 1) name exp_old exp_new else Ret false
  end.

(** Everything but the operands agrees. *)
Definition same_encoding (old new : NaClInstState) : bool :=
  (num_prefix_bytes old =? num_prefix_bytes new) && (num_rex_prefixes old =? num_rex_prefixes new) &&
  (rexprefix old =? rexprefix new) && (modrm old =? modrm new) && eqb (has_sib old) (has_sib new) &&
  negb (has_sib old && negb (sib old =? sib new)) && (operand_size old =? operand_size new) &&
  (address_size old =? address_size new) && (prefix_mask old =? prefix_mask new) &&
  bool_decide (inst_offset <$> inst old = inst_offset <$> inst new).

Definition same_bytes (m : memory) (a b n : Z) : bool :=
  forallb (fun k => m (a + k) =? m (b + k)) (seqZ 0 n).

(** Returns whether the instruction was changed, and the iterator of the old
    code, in which the instruction is now decoded. *)
Definition NaClValidateInstReplacement (iter_old : NaClInstIter) : Val (bool * NaClInstIter) :=
  v ← get;
  '(slot_old, iter_old) ← lift (NaClInstIterGetStateInline (ram v) tables iter_old);
  slot ← on_iter (fun m => NaClInstIterGetStateInline m tables);
  old ← lift (index (buffer iter_old) slot_old);
  new ← inst_in slot;
  iter_new ← the_iter;
  let mem_old := iter_memory iter_old in
  let mem_new := iter_memory iter_new in
  let failed := NaClValidatorTwoInstMessage NaClLogGetVerbosity LOG_ERROR slot ;; mret (true, iter_old) in
  if negb (inst_addr new =? inst_addr old) || negb (blength (bytes new) =? blength (bytes old)) then failed
  else if (read_length mem_old =? read_length mem_new) &&
          same_bytes (ram v) (mpc mem_old) (mpc mem_new) (read_length mem_old) then mret (false, iter_old)
  else if negb (same_encoding old new) then failed
  else
    exp_old ← vector_of tables old;
    exp_new ← vector_of tables new;
    if negb (number_expr_nodes exp_old =? number_expr_nodes exp_new) then failed
    else
      i ← lift (NaClInstStateInst old);
      ok ← lift (same_nodes (Z.to_nat (number_expr_nodes exp_old)) 0 (inst_name i) exp_old exp_new);
      if (ok : bool) then mret (true, iter_old) else failed.

Definition mark_unchanged (b : bool) : Val unit :=
  slot ← the_slot;
  on_iter (fun _ => modify (fun iter =>
    iter <| buffer := alter (fun s => s <| unchanged := b |>) (Z.to_nat slot) (buffer iter) |>)).

(** The iterators are left where the loop ended. *)
Fixpoint SegmentPair_loop (fuel : nat) (iter_old : NaClInstIter) : Val NaClInstIter :=
  match fuel with
  | O => abort OutOfFuel
  | S fuel' =>
      next ← (if NaClInstIterHasNextInline iter_old then NaClValidatorStateIterHasNextInline tables else mret false);
      if (next : bool) then
        '(changed, iter_old) ← NaClValidateInstReplacement iter_old;
        mark_unchanged (negb changed) ;;
        NaClApplyValidators ;;
        v ← get;
        if quit v then mret iter_old
        else
          r ← lift (NaClInstIterAdvanceInline (ram v) tables iter_old);
          NaClValidatorStateIterAdvanceInline tables ;;
          SegmentPair_loop fuel' r.2
      else mret iter_old
  end.

Definition NaClValidateSegmentPair (mbase_old mbase_new vb size : Z) : Val unit :=
  v ← get;
  iter_old ← lift (NaClInstIterCreateWithLookback (ram v) (NaClSegmentInitialize mbase_old vb size) kLookbackSize);
  iter_new ← lift (NaClInstIterCreateWithLookback (ram v) (NaClSegmentInitialize mbase_new vb size) kLookbackSize);
  set_iter (Some iter_new) ;;
  iter_old ← SegmentPair_loop (S (Z.to_nat size)) iter_old;
  iter_new ← the_iter;
  (if NaClInstIterHasNextInline iter_old || NaClInstIterHasNextInline iter_new then message LOG_ERROR else mret tt) ;;
  NaClValidatorStateIterFinishInline ;;
  NaClApplyPostValidators ;;
  set_iter None.

End ValidateIter.
