(* ===== verification/LoopSpec.v ===== *)
(** * The walk over a segment *)

From S2P Require Import Prelude Effects Stateful Bytes OpKinds DecodeTables OpcodeTable InstBuffer.
From S2P Require Import ExpVector InstState InstTrans InstDecode TransSpec DecodeSpec InstIter.
From S2P Require Import IterSpec ValState AddressSet ValSpec Jumps CheckSpec JumpSpec ProtectBase.
From S2P Require Import BaseSpec MemProtect MemSpec Illegal CpuChecks CpuSpec ValidateIter.

(** ** What all the checks of an instruction establish together *)

Section ApplySpec.
Variable NaClLogGetVerbosity : Z.
Variable tables : NaClDecodeTables.
Abbreviation rebases := (rebases tables).

(** ** The record of writes is changed by the check of the registers only *)

#[local] Hint Resolve keeps_add keeps_mark : keeps.

Lemma keeps_report n i flags slot b : keeps set_base_registers (ReportWhy_loop NaClLogGetVerbosity n i flags slot b).
Proof using. revert i b. induction n as [|n IH]; intros i b; simpl; keeps. Qed.
#[local] Hint Resolve keeps_report : keeps.

Lemma keeps_legal : keeps set_base_registers (NaClValidateInstructionLegal NaClLogGetVerbosity).
Proof using. unfold NaClValidateInstructionLegal, NaClReportWhyNaClIllegal. keeps. Qed.

Lemma keeps_feature f q : keeps set_base_registers (NaClCheckFeature NaClLogGetVerbosity f q).
Proof using. unfold NaClCheckFeature, set_checks. keeps. Qed.
#[local] Hint Resolve keeps_feature : keeps.

Lemma keeps_cpu : keeps set_base_registers (NaClCpuCheck NaClLogGetVerbosity).
Proof using.
  unfold NaClCpuCheck, squash_by_type, check_CMOV_and_x87, check_MMX_or_SSE2, check_SSE2x, set_checks, NCStubOutMem. keeps.
Qed.

Lemma keeps_masked n : keeps set_base_registers (IsMaskedJump tables n).
Proof using.
  unfold IsMaskedJump, NaClGetAndMaskReg32, NaClGetLeaMask64, NaClIsAddRbaseToReg64. keeps.
Qed.
#[local] Hint Resolve keeps_masked : keeps.

Lemma keeps_jumps : keeps set_base_registers (NaClJumpValidator NaClLogGetVerbosity tables).
Proof using.
  unfold NaClJumpValidator, NaClRememberInstructionBoundary, NaClAddExprJumpTarget, AddExprJumpTarget_node,
    NaClAddRegisterJumpIndirect64, NaClAddJumpToJumpSets, NaClValidateCallAlignment, add_actual, add_possible. keeps.
Qed.

(** ** One instruction *)

(** The instruction [s] after [h] passed every check. *)
Record passed (s : NaClInstState) (h : list NaClInstState) (v : NaClValidatorState) : Prop := {
  pa_legal : forall i, NaClInstStateInst s = Ret i -> legal s i;
  pa_cpu : did_stub_out v = false -> forall i, NaClInstStateInst s = Ret i -> supported (cpu_features v) i;
  pa_registers : registers_ok tables s h v;
  pa_memory : memory_ok tables s h v;
  pa_jumps : jumps_ok s h v;
}.

Lemma passed_stable s h : stable (passed s h).
Proof using.
  intros v v' Hg [P1 P2 P3 P4 P5]. split; [done| |by eapply registers_ok_stable|by eapply memory_ok_stable|by eapply jumps_ok_stable].
  intros Hd. destruct (gr_stub _ _ Hg Hd) as [Hd' _]. rewrite (fixed_features _ _ Hg). auto.
Qed.

(** The last instruction set ESP or EBP. *)
Definition set_by (h : list NaClInstState) (r : NaClOpKind) : Prop :=
  match h with [] => False | x :: _ => assigns x r end.

(** [s] rebases what the instruction before set. *)
Definition rebased (s : NaClInstState) (h : list NaClInstState) : Prop :=
  (set_by h RegESP -> rebases s h RegRSP RegESP) /\ (set_by h RegEBP -> rebases s h RegRBP RegEBP).

Lemma step_apply base size a s h v :
  visiting tables base size a s h v -> addresses_ok s h -> ready (set_by h RegESP) (set_by h RegEBP) (set_base_registers v) ->
  steps (NaClApplyValidators NaClLogGetVerbosity tables) (fun _ v' =>
    (quit v' = false -> ready (set_by (s :: h) RegESP) (set_by (s :: h) RegEBP) (set_base_registers v')) /\
    if_accepted (fun v' => passed s h v' /\ rebased s h) v') v.
Proof using.
  intros Hv Hadd Hr. unfold NaClApplyValidators. check.
  { split; [congruence|]. intros [Ha _]. rewrite (vi_quit _ _ _ _ _ _ _ Hv) in Ha; done. }
  eapply steps_bind; [apply (keeps_steps set_base_registers); [apply keeps_cpu|by eapply step_cpu]|]. intros [] v1 Hg1 [Hl1 H1].
  pose proof (visiting_grows _ _ _ _ _ _ _ _ Hg1 Hv) as Hv1.
  eapply steps_bind; [apply (keeps_steps set_base_registers); [apply keeps_legal|by eapply step_legal]|]. intros [] v2 Hg2 [Hl2 H2].
  pose proof (visiting_grows _ _ _ _ _ _ _ _ Hg2 Hv1) as Hv2.
  eapply steps_bind; [eapply step_registers; [done|done|]; rewrite Hl2, Hl1; exact Hr|]. intros [] v3 Hg3 [Hr3 H3].
  pose proof (visiting_grows _ _ _ _ _ _ _ _ Hg3 Hv2) as Hv3.
  eapply steps_bind; [by eapply step_memory|]. intros [] v4 Hg4 [Hl4 H4].
  pose proof (visiting_grows _ _ _ _ _ _ _ _ Hg4 Hv3) as Hv4.
  eapply steps_mono; [apply (keeps_steps set_base_registers); [apply keeps_jumps|by eapply step_jumps]|]. simpl.
  intros [] v5 Hg5 [Hl5 H5]. split; [intros _; by rewrite Hl5, Hl4|]. intros Ha5.
  pose proof (accepting_back _ _ Hg5 Ha5) as Ha4. pose proof (accepting_back _ _ Hg4 Ha4) as Ha3.
  pose proof (accepting_back _ _ Hg3 Ha3) as Ha2. pose proof (accepting_back _ _ Hg2 Ha2) as Ha1.
  destruct (H3 Ha3) as (Hreg & He & Hb). assert (Hg45 : grows v3 v5) by (by transitivity v4).
  assert (Hg25 : grows v1 v5) by (transitivity v2; [done|by transitivity v3]).
  split; [|by split]. split.
  - by apply H2.
  - intros Hd. destruct (gr_stub _ _ Hg25 Hd) as [Hd' _]. rewrite (fixed_features _ _ Hg25). by apply H1.
  - eapply registers_ok_stable; [exact Hg45|done].
  - eapply memory_ok_stable; [exact Hg5|]. by apply H4.
  - by apply H5.
Qed.

End ApplySpec.

(** ** Validating a segment: what is established at the end

    The loop of [NaClValidateSegment] visits the instructions of a [sweep]: it
    ends, writes nothing but halts inside the segment, and if no error was
    reported, every instruction passed the checks. *)

Lemma stops_terminates f : stops f -> terminates f.
Proof. by destruct f. Qed.

Section LoopSpec.
Variable NaClLogGetVerbosity : Z.
Variable tables : NaClDecodeTables.
Context (Htables : tables_ok tables = true).

(** ** Moving to an instruction *)

(** The caches point to the instruction [s] that the iterator [it] shows. *)
Definition cached (v : NaClValidatorState) (it : NaClInstIter) (s : NaClInstState) : NaClValidatorState :=
  v <| cur_iter := Some it |> <| cur_inst_state := Some (buffer_index it) |> <| cur_inst := inst_at <$> inst s |>
    <| cur_inst_vector := Some (buffer_index it) |>.

Lemma wp_on_iter {A} F (c : memory -> St NaClInstIter A) Q v it :
  cur_iter v = Some it -> wpo F (c (ram v) it) (fun r => Q r.1 (v <| cur_iter := Some r.2 |>)) -> wp F (on_iter c) Q v.
Proof using.
  intros Hit HQ. unfold on_iter. apply wp_bind, wp_get, wp_bind. unfold wp at 1. rewrite (eq_iter v it Hit).
  apply wp_bind, wp_lift. eapply wpo_mono; [exact HQ|]. intros r Hr. by apply wp_bind, wp_modify, wp_ret.
Qed.

Lemma wp_inst_in F slot x (Q : NaClInstState -> NaClValidatorState -> Prop) v it :
  cur_iter v = Some it -> 0 <= slot -> buffer it !! Z.to_nat slot = Some x -> Q x v -> wp F (inst_in slot) Q v.
Proof using. intros Hit H0 Hx HQ. unfold wp. rewrite (eq_inst_in v slot x); [done|]. by exists it. Qed.

Lemma update_caches base size a h it v :
  cur_iter v = Some it -> (forall x, is_byte (ram v x)) -> waiting tables (ram v) base size a h it ->
  wp terminates (NaClUpdateCaches tables) (fun _ v' => exists s len it', v' = cached v it' s /\
    standing tables (ram v) base size a s h it' /\ visits (ram v) tables base size a len s /\
    buffer_size it' = buffer_size it) v.
Proof using Htables.
  intros Hit Hb Hw. pose proof Hw as [Hwk _ _]. pose proof (wk_current _ _ _ _ _ _ Hwk) as Hcur.
  pose proof (wk_buffer _ _ _ _ _ _ Hwk) as [_ Hlen].
  unfold NaClUpdateCaches. apply wp_bind. eapply wp_on_iter; [exact Hit|].
  pose proof (decode_current tables Htables (ram v) base size a h it Hb Hw) as Hd.
  eapply wpo_wp; [eapply wp_faults; [exact Hd|apply stops_terminates]|].
  intros slot it1 _ (s0 & len & mem & -> & -> & Hdec). apply wp_bind, wp_modify, wp_bind.
  set (it1 := it <| iter_memory := mem |> <| buffer := <[Z.to_nat (buffer_index it):=s0]> (buffer it) |>).
  eapply (wp_inst_in _ _ s0 _ _ it1); [done|apply Hcur|apply list_lookup_insert_eq; lia|].
  destruct Hdec as [Hd0 Hdec]. pose proof Hdec as [_ _ _ _ _ _ (p & Hp & Hpat & _)].
  apply wp_bind, wp_lift. unfold NaClInstStateInst. rewrite Hp. simpl. apply wp_bind, wp_modify, wp_bind, wp_lift.
  eapply wpo_wp; [eapply wp_faults; [eapply decoded_vector; exact Hdec|apply stops_terminates]|].
  intros vec s Hvec Hwith. apply wp_bind. eapply wp_on_iter; [reflexivity|]. apply wp_modify.
  destruct (standing_intro tables (ram v) base size a h it len s0 mem vec s Hw (conj Hd0 Hdec) Hvec Hwith) as [Hst Hvis].
  exists s, len, (it <| iter_memory := mem |> <| buffer := <[Z.to_nat (buffer_index it) := s]> (buffer it) |>).
  split_and!; [|done|done|done].
  destruct Hwith as (Hsame & _). unfold same_but_nodes in Hsame. rewrite Hsame. unfold cached. simpl. rewrite Hp. simpl.
  rewrite list_insert_insert_eq. reflexivity.
Qed.

(** ** The state of the loop *)

(** Every instruction of [h], newest first, passed the checks. *)
Fixpoint all_passed (h : list NaClInstState) (v : NaClValidatorState) : Prop :=
  match h with
  | [] => True
  | s :: h' => (passed tables s h' v /\ rebased tables s h') /\ all_passed h' v
  end.

Lemma all_passed_stable h : stable (all_passed h).
Proof using.
  induction h as [|s h IH]; intros v v' Hg; simpl; [done|]. intros [[Hp Hr] Hall].
  split; [split; [by eapply passed_stable|done]|by eapply IH].
Qed.

(** The settings of a validation: address, size, modes, features, size of the
    sets. *)
Definition settings (v : NaClValidatorState) :=
  (vbase v, codesize v, (bundle_mask v, vbundle_size v, base_register v), (do_stub_out v, readonly_text v, do_detailed v),
   cpu_features v, set_array_size (jump_sets v)).

Lemma grows_settings v v' : grows v v' -> settings v' = settings v.
Proof using. intros Hg. pose proof (gr_fixed _ _ Hg) as Hf. unfold fixed in Hf. unfold settings. congruence. Qed.

(** What holds of the validation of the segment of [size] bytes at [base] of
    the memory [m], started with the settings [K]. *)
Record running (m : memory) (base size : Z) (v : NaClValidatorState) : Prop := {
  ru_memory : forall x, ram v x = m x \/ (ram v x = kNaClFullStop /\ base <= x < base + size);
  ru_same : did_stub_out v = false -> ram v = m;
  ru_readonly : readonly_text v = true -> do_stub_out v = false -> did_stub_out v = false;
  ru_size : codesize v = size;
  ru_bundle : bundle_mask v = 31 /\ vbundle_size v = 32 /\ base_register v = RegR15;
  ru_sets : (forall x, 0 <= x < size -> x / 8 < Z.of_nat (length (actual_targets (jump_sets v)))) /\
    length (possible_targets (jump_sets v)) = length (actual_targets (jump_sets v)) /\
    length (removed_targets (jump_sets v)) = length (actual_targets (jump_sets v));
  ru_quit : quit v = true -> validates_ok v = false;
}.

Lemma running_grows m base size v v' :
  grows v v' -> (forall x, in_current v x -> base <= x < base + size) -> running m base size v -> running m base size v'.
Proof using.
  intros Hg Hcur [R1 R2 R3 R4 R5 R6 R7]. pose proof (grows_settings _ _ Hg) as Hs. unfold settings in Hs.
  injection Hs as E1 E2 E3 E4 E5 E6 E7 E8 E9 E10. split.
  - intros x. destruct (gr_ram _ _ Hg x) as [->|[-> Hin]]; [done|]. right. split; [done|by apply Hcur].
  - intros Hd. destruct (gr_stub _ _ Hg Hd) as [Hd' ->]. by apply R2.
  - rewrite E6, E7. intros Hr Hs. rewrite (gr_readonly _ _ Hg Hr Hs). by apply R3.
  - congruence.
  - destruct R5 as (? & ? & ?). split_and!; congruence.
  - rewrite (proj1 (gr_actual _ _ Hg)), (proj1 (gr_possible _ _ Hg)), (proj1 (gr_removed _ _ Hg)). done.
  - by apply (gr_quit _ _ Hg).
Qed.

(** After the instructions [h], which end at [a]. *)
Record walked (m : memory) (base size a : Z) (h : list NaClInstState) (v : NaClValidatorState) : Prop := {
  wa_running : running m base size v;
  wa_sweep : did_stub_out v = false -> sweep m tables base size a h;
  wa_passed : if_accepted (all_passed h) v;
  wa_starts : forall x, member (possible_targets (jump_sets v)) x -> exists y, y ∈ h /\ inst_addr y = x;
  wa_ready : quit v = false -> ready (set_by h RegESP) (set_by h RegEBP) (set_base_registers v);
  wa_addresses : Forall (fun y => 0 <= inst_addr y) h;
  wa_count : Z.of_nat (length h) <= a;
}.

(** The instruction [s] at [a] is to be checked next, if [a] is inside the
    segment. *)
Record arrived (m : memory) (base size a : Z) (s : NaClInstState) (h : list NaClInstState) (v : NaClValidatorState) : Prop := {
  ar_walked : walked m base size a h v;
  ar_iter : exists it, cur_iter v = Some it /\ standing tables (ram v) base size a s h it /\
    buffer_size it = 9 /\ cur_inst_state v = Some (buffer_index it) /\
    cur_inst_vector v = Some (buffer_index it) /\ cur_inst v = inst_at <$> inst s;
  ar_visits : did_stub_out v = false -> exists len, visits m tables base size a len s;
  ar_quit : quit v = false;
}.

Lemma arrived_visiting m base size a s h v :
  arrived m base size a s h v -> a < size -> visiting tables base size a s h v /\ addresses_ok s h.
Proof using.
  intros [[[R1 R2 R3 R4 R5 R6 R7] _ _ _ _ Hadd _] Hit _ Hq] Hlt. split; [split; try done; congruence|].
  destruct Hit as (it & _ & [Hw _ _ _ [Ha _]] & _). pose proof (wk_size _ _ _ _ _ _ Hw).
  intros [|d] y Hy; simpl in Hy; [injection Hy as <-; lia|]. exact (Forall_lookup_1 _ _ _ _ Hadd Hy).
Qed.

(** ** One turn of the loop *)

Lemma apply_ok m base size a s h v :
  arrived m base size a s h v -> a < size ->
  steps (NaClApplyValidators NaClLogGetVerbosity tables) (fun _ v' =>
    visiting tables base size a s h v' /\
    walked m base size (a + blength (bytes s)) (s :: h) v' /\ 0 < blength (bytes s)) v.
Proof using.
  intros Har Hlt. destruct (arrived_visiting _ _ _ _ _ _ _ Har Hlt) as [Hv Hadd].
  destruct Har as [[R Hsw Hpass Hst Hrd Hadr Hcnt] Hit Hvis Hq].
  destruct Hit as (it & Hit & Hstd & _). pose proof Hstd as [Hw _ _ Hr [Ha _]].
  destruct Hr as [R1 _ R3 _ _ (R6 & R7 & R8)].
  eapply steps_mono; [eapply step_apply; [done|done|by apply Hrd]|]. simpl. intros [] v' Hg [Hrdy Hok].
  split; [by eapply visiting_grows|]. split; [|by apply R8]. split.
  - eapply running_grows; [exact Hg| |done]. intros x (it' & Hit' & Hx). rewrite Hit in Hit'. injection Hit' as <-.
    rewrite R1, R3 in Hx. pose proof (wk_size _ _ _ _ _ _ Hw). lia.
  - intros Hd. destruct (gr_stub _ _ Hg Hd) as [Hd' _]. destruct (Hvis Hd') as [len Hlen].
    pose proof (visits_facts _ _ _ _ _ _ _ Hlen) as (_ & -> & _). by apply sweep_cons; [apply Hsw| |].
  - intros Hacc. simpl. split; [by apply Hok|]. eapply all_passed_stable; [exact Hg|]. apply Hpass. by eapply accepting_back.
  - intros x Hx. destruct (gr_starts _ _ Hg x Hx) as [Hx'|(it' & Hit' & ->)].
    + destruct (Hst x Hx') as (y & ? & ?). exists y. split; [by right|done].
    + exists s. split; [by left|]. rewrite Hit in Hit'. injection Hit' as <-. rewrite Ha. symmetry. apply Hw.
  - exact Hrdy.
  - constructor; [|done]. rewrite Ha. apply (wk_size _ _ _ _ _ _ Hw).
  - simpl. specialize (R8 Hlt). lia.
Qed.

(** The caches do not matter. *)
Definition with_caches (v : NaClValidatorState) ci it cs cv : NaClValidatorState :=
  v <| cur_inst_state := ci |> <| cur_iter := it |> <| cur_inst := cs |> <| cur_inst_vector := cv |>.

Lemma passed_caches ci it cs cv s h v : passed tables s h v -> passed tables s h (with_caches v ci it cs cv).
Proof using.
  intros [P1 P2 P3 P4 P5]. split; [exact P1|exact P2| |exact P4|exact P5].
  intros k r Hs. destruct (P3 k r Hs) as [Q1 Q2 Q3 Q4 Q5]. by split.
Qed.

Lemma all_passed_caches ci it cs cv h v : all_passed h v -> all_passed h (with_caches v ci it cs cv).
Proof using.
  induction h as [|s h IH]; simpl; [done|]. intros [[Hp Hr] Hall]. split; [split; [by apply passed_caches|done]|auto].
Qed.

Lemma walked_caches ci it cs cv m base size a h v :
  walked m base size a h v -> walked m base size a h (with_caches v ci it cs cv).
Proof using.
  intros [[R1 R2 R3 R4 R5 R6 R7] W2 W3 W4 W5 W6 W7]. split; try done. intros Ha. apply all_passed_caches. by apply W3.
Qed.

Lemma running_bytes m base size v : (forall x, is_byte (m x)) -> running m base size v -> forall x, is_byte (ram v x).
Proof using. intros Hm [R1 _ _ _ _ _ _] x. by destruct (R1 x) as [->|[-> _]]. Qed.

Lemma cache_ok m base size a h it v :
  (forall x, is_byte (m x)) -> walked m base size a h v -> quit v = false -> cur_iter v = Some it ->
  waiting tables (ram v) base size a h it -> buffer_size it = 9 ->
  wp terminates (NaClUpdateCaches tables) (fun _ v' => exists s, arrived m base size a s h v' /\ settings v' = settings v) v.
Proof using Htables.
  intros Hm Hw Hq Hit Hwait Hb. pose proof (wa_running _ _ _ _ _ _ Hw) as Hr.
  eapply wp_mono; [eapply update_caches; [exact Hit|by eapply running_bytes|exact Hwait]|]. simpl.
  intros [] v' (s & len & it' & -> & Hstd & Hvis & Hb'). exists s. split; [|done]. split.
  - by apply (walked_caches (Some (buffer_index it')) (Some it') (inst_at <$> inst s) (Some (buffer_index it'))).
  - exists it'. split_and!; [done|exact Hstd|by rewrite Hb'|done|done|done].
  - simpl. intros Hd. exists len. by rewrite <- (ru_same _ _ _ _ Hr Hd).
  - done.
Qed.

Lemma advance_cache m base size a s h v :
  (forall x, is_byte (m x)) -> visiting tables base size a s h v -> walked m base size (a + blength (bytes s)) (s :: h) v ->
  quit v = false ->
  wp terminates (NaClValidatorStateIterAdvanceInline tables) (fun _ v' =>
    exists s', arrived m base size (a + blength (bytes s)) s' (s :: h) v' /\ settings v' = settings v) v.
Proof using Htables.
  intros Hm Hv Hw Hq. destruct (vi_iter _ _ _ _ _ _ _ Hv) as (it & Hit & Hstd & Hb & _).
  destruct (vi_size _ _ _ _ _ _ _ Hv) as [Hsz Hlt].
  pose proof Hstd as [Hwk _ _ [_ _ _ _ _ (R6 & R7 & R8)] _]. pose proof (wk_size _ _ _ _ _ _ Hwk) as [? ?].
  destruct (advance_ok tables (ram v) base size a s h it Hstd Hlt) as (it' & Hadv & Hwait & Hb').
  { pose proof (wa_count _ _ _ _ _ _ Hw) as Hc. simpl in Hc. lia. }
  unfold NaClValidatorStateIterAdvanceInline. apply wp_bind. eapply wp_on_iter; [exact Hit|]. rewrite Hadv.
  unfold wpo. cbn [fst snd]. set (v1 := v <| cur_iter := Some it' |>).
  assert (Hw1 : walked m base size (a + blength (bytes s)) (s :: h) v1).
  { exact (walked_caches (cur_inst_state v) (Some it') (cur_inst v) (cur_inst_vector v) _ _ _ _ _ _ Hw). }
  eapply wp_mono; [apply (cache_ok m base size _ _ it' v1 Hm Hw1); [done|done|exact Hwait|congruence]|].
  intros [] v' (s' & Har & Hs). exists s'. split; [exact Har|]. rewrite Hs. reflexivity.
Qed.

(** The segment is done. *)
Definition done_with (m : memory) (base size : Z) (v : NaClValidatorState) : Prop :=
  running m base size v /\ cur_iter v <> None /\ (forall x, in_current v x -> base <= x < base + size) /\
  (quit v = false -> exists h, walked m base size size h v).

Lemma standing_current a s h it base size m v :
  cur_iter v = Some it -> standing tables m base size a s h it -> forall x, in_current v x -> base <= x < base + size.
Proof using.
  intros Hit [Hw _ _ [R1 _ R3 _ _ (R6 & R7 & R8)] _] x (it' & Hit' & Hx). rewrite Hit in Hit'. injection Hit' as <-.
  pose proof (wk_size _ _ _ _ _ _ Hw). rewrite R1, R3 in Hx. lia.
Qed.

Lemma has_next_ok m base size a s h v :
  arrived m base size a s h v -> NaClValidatorStateIterHasNextInline tables v = Ret (a <? size, v).
Proof using.
  intros [_ (it & Hit & Hstd & _ & Hs & _) _ _]. pose proof Hstd as [Hw _ _ _ _].
  unfold NaClValidatorStateIterHasNextInline, mbind, St_bind, get. rewrite Hit, Hs. unfold NaClInstIterHasNextInline.
  rewrite (wk_index _ _ _ _ _ _ Hw), (proj2 (wk_segment _ _ _ _ _ _ Hw)).
  rewrite bool_decide_false by done. by rewrite andb_false_r.
Qed.

Lemma loop_ok m base size fuel a s h v :
  (forall x, is_byte (m x)) -> arrived m base size a s h v -> size - a < Z.of_nat fuel ->
  wp terminates (ValidateSegment_loop NaClLogGetVerbosity tables fuel)
    (fun _ v' => done_with m base size v' /\ settings v' = settings v) v.
Proof using Htables.
  intros Hm. revert a s h v. induction fuel as [|fuel IH]; intros a s h v Har Hf.
  { destruct Har as [_ (it & _ & [Hw _ _ _ _] & _) _ _]. pose proof (wk_size _ _ _ _ _ _ Hw). lia. }
  pose proof Har as [Hw (it & Hit & Hstd & _) _ Hq]. pose proof Hstd as [Hwk _ _ _ _]. pose proof (wk_size _ _ _ _ _ _ Hwk) as [Hsz _].
  cbn [ValidateSegment_loop]. apply wp_bind. unfold wp at 1. rewrite (has_next_ok _ _ _ _ _ _ _ Har).
  apply wp_if; intros Hlt; zbool.
  - apply wp_bind. eapply wp_mono; [by eapply apply_ok|]. simpl. intros [] v1 (Hg & Hv1 & Hw1 & Hlen).
    apply wp_bind, wp_get. pose proof (grows_settings _ _ Hg) as Hs1. apply wp_if; intros Hq1.
    + apply wp_ret. split; [|done]. destruct (vi_iter _ _ _ _ _ _ _ Hv1) as (it1 & Hit1 & Hstd1 & _).
      split_and!; [apply Hw1|congruence|by eapply standing_current|congruence].
    + apply wp_bind. eapply wp_mono; [by eapply advance_cache|]. simpl. intros [] v2 (s' & Har2 & Hs2).
      eapply wp_mono; [eapply IH; [exact Har2|lia]|]. simpl. intros [] v3 [Hd Hs3]. split; [done|congruence].
  - apply wp_ret. split; [|done]. split_and!; [apply Hw|congruence|by eapply standing_current|]. intros _. exists h.
    assert (a = size) as Ea by lia. by rewrite Ea in Hw.
Qed.

End LoopSpec.
