(* ===== verification/SegmentSpec.v ===== *)
(** * The specification of NaClValidateSegment *)

From S2P Require Import Prelude Effects Stateful Bytes OpKinds DecodeTables OpcodeTable InstBuffer.
From S2P Require Import ExpVector InstState InstTrans InstDecode TransSpec DecodeSpec InstIter.
From S2P Require Import IterSpec ValState AddressSet ValSpec Jumps CheckSpec JumpSpec ProtectBase.
From S2P Require Import BaseSpec MemProtect MemSpec Illegal CpuChecks CpuSpec ValidateIter LoopSpec.

(** ** Trailing halts *)

Lemma last_non_halt_ok m base n i :
  i = Z.of_nat n ->
  0 <= last_non_halt m base n i <= i /\ forall x, last_non_halt m base n i < x <= i -> m (base + x) = kNaClHalt.
Proof.
  revert i. induction n as [|n IH]; intros i Hi; [simpl; split; [lia|]; intros; lia|]. cbn [last_non_halt].
  case_match eqn:E; zbool.
  - destruct (IH (i - 1) ltac:(lia)) as [IH1 IH2]. split; [lia|]. intros x Hx.
    destruct (decide (x = i)) as [->|]; [done|]. apply IH2. lia.
  - split; [lia|]. intros x Hx. lia.
Qed.

Lemma trim_ok m base sz r : NCHaltTrimSize m base sz 32 = Ret r -> 0 < sz ->
  0 < r <= sz /\ forall x, r <= x < sz -> m (base + x) = kNaClHalt.
Proof.
  unfold NCHaltTrimSize. case_match; zbool; [done|]. intros [= <-] Hsz.
  destruct (last_non_halt_ok m base (Z.to_nat (sz - 1)) (sz - 1) ltac:(lia)) as [H1 H2].
  set (i := last_non_halt _ _ _ _) in *. unfold kMinHaltKeepLength, MAX_INST_LENGTH.
  case_match; zbool; [|split; [lia|intros; lia]]. set (n := sz - (sz - (i + 1)) + (15 + 1)).
  pose proof (Z.mod_pos_bound n 32 ltac:(lia)).
  set (n' := if n mod 32 =? 0 then n else n - n mod 32 + 32). assert (n <= n') by (unfold n'; case_match; zbool; lia).
  case_match; zbool; (split; [lia|]); intros x Hx; [|lia]. apply H2. lia.
Qed.

(** What is kept when halts are cut off. *)
Lemma trim_kept m base sz r : NCHaltTrimSize m base sz 32 = Ret r -> 0 < sz -> r < sz ->
  r mod 32 = 0 /\ forall x, 0 < x < sz -> m (base + x) <> kNaClHalt -> x + 16 < r.
Proof.
  unfold NCHaltTrimSize. case_match; zbool; [done|]. intros [= <-] Hsz.
  destruct (last_non_halt_ok m base (Z.to_nat (sz - 1)) (sz - 1) ltac:(lia)) as [H1 H2].
  set (i := last_non_halt _ _ _ _) in *. unfold kMinHaltKeepLength, MAX_INST_LENGTH.
  case_match; zbool; [|lia]. set (n := sz - (sz - (i + 1)) + (15 + 1)).
  set (n' := if n mod 32 =? 0 then n else n - n mod 32 + 32). intros Hr. case_match; [|lia].
  pose proof (Z.mod_pos_bound n 32 ltac:(lia)). assert (n <= n' /\ n' mod 32 = 0) as [? ?].
  { unfold n'. case_match; zbool; [lia|]. split; [lia|]. rewrite (Z.div_mod n 32) at 1 by lia.
    replace (32 * (n / 32) + n mod 32 - n mod 32 + 32) with ((n / 32 + 1) * 32) by lia. apply Z_mod_mult. }
  split; [done|]. intros x Hx Hne. destruct (decide (x <= i)); [unfold n in *; lia|]. exfalso. apply Hne, H2. lia.
Qed.

Section SegmentSpec.
Context `{Host}.
Variable NaClLogGetVerbosity : Z.
Variable tables : NaClDecodeTables.
Context (Htables : tables_ok tables = true).

(** A new validator state. *)
Record created (m : memory) (vb size : Z) (v : NaClValidatorState) : Prop := {
  cr_ram : ram v = m;
  cr_vbase : vbase v = vb;
  cr_size : codesize v = size;
  cr_bundle : bundle_mask v = 31 /\ vbundle_size v = 32 /\ base_register v = RegR15;
  cr_flags : did_stub_out v = false /\ quit v = false /\ do_detailed v = false;
  cr_caches : cur_iter v = None /\ cur_inst_state v = None;
  cr_sets : jump_sets v = let s := replicate (Z.to_nat (NaClAddressSetArraySize size)) 0 in
    mkJumpSets s s s (NaClAddressSetArraySize size);
  cr_locals : set_base_registers v = NaClBaseRegisterMemoryInitialize;
}.

(** The state before the first instruction. *)
Lemma created_walked m base vb size size' v :
  created m vb size v -> 0 < size' <= size -> walked tables m base size' 0 [] (v <| codesize := size' |>).
Proof using.
  intros [C1 C2 C3 C4 (C5 & C6 & C7) [C8 C9] C10 C11] Hs. split.
  - split; simpl; auto; try congruence; [intros x; rewrite C1; by left|].
    rewrite C10. cbn. rewrite !length_replicate. split_and!; [|done|done]. intros x Hx.
    pose proof (array_size_ok size x ltac:(lia)). lia.
  - intros _. constructor.
  - done.
  - simpl. rewrite C10. simpl. intros x Hx. by apply member_empty in Hx.
  - intros _. simpl. rewrite C11. split; simpl; try done. by left.
  - constructor.
  - simpl. lia.
Qed.

(** ** The walk *)

Lemma start_ok m base vb size size' v it fuel :
  (forall x, is_byte (m x)) -> created m vb size v -> 0 < size' <= size -> size < two64 ->
  NaClInstIterCreateWithLookback (ram v) (NaClSegmentInitialize base vb size') kLookbackSize = Ret it ->
  size' < Z.of_nat fuel ->
  wp terminates (ValidateSegment_loop NaClLogGetVerbosity tables fuel) (fun _ v' => done_with tables m base size' v' /\
    settings v' = settings (v <| codesize := size' |>)) (v <| codesize := size' |> <| cur_iter := Some it |>).
Proof using Htables.
  intros Hm Hc Hs Hlt Hit Hf. pose proof (created_walked m base vb size size' v Hc Hs) as Hw.
  destruct Hc as [C1 C2 C3 C4 (C5 & C6 & C7) [C8 C9] C10 C11].
  destruct (create_ok tables (ram v) base vb size' kLookbackSize it) as [Hwait Hb]; [lia|unfold kLookbackSize, two32; lia|done|].
  set (v1 := v <| codesize := size' |> <| cur_iter := Some it |>).
  assert (Hw1 : walked tables m base size' 0 [] v1).
  { exact (walked_caches tables (cur_inst_state v) (Some it) (cur_inst v) (cur_inst_vector v) _ _ _ _ _ _ Hw). }
  destruct fuel as [|fuel]; [lia|]. cbn [ValidateSegment_loop]. apply wp_bind.
  unfold NaClValidatorStateIterHasNextInline. apply wp_bind, wp_get. change (cur_iter v1) with (Some it). cbv beta iota zeta.
  assert (Hnext : NaClInstIterHasNextInline it = true).
  { pose proof Hwait as [Hwk _ _]. unfold NaClInstIterHasNextInline.
    rewrite (wk_index _ _ _ _ _ _ Hwk), (proj2 (wk_segment _ _ _ _ _ _ Hwk)). apply Z.ltb_lt. lia. }
  rewrite Hnext. change (cur_inst_state v1) with (cur_inst_state v). rewrite C9. cbn [bool_decide].
  apply wp_bind. rewrite bool_decide_true by done. cbn [andb].
  eapply wp_mono; [apply (cache_ok tables Htables m base size' 0 [] it v1 Hm Hw1); [exact C6|done|exact Hwait|exact Hb]|].
  intros [] v2 (s & Har & Hset). apply wp_ret. cbv beta iota.
  pose proof (loop_ok NaClLogGetVerbosity tables Htables m base size' (S fuel) 0 s [] v2 Hm Har ltac:(lia)) as Hloop.
  cbn [ValidateSegment_loop] in Hloop. unfold wp, mbind at 1, St_bind at 1 in Hloop.
  rewrite (has_next_ok _ _ _ _ _ _ _ _ Har) in Hloop. destruct (0 <? size') eqn:E; zbool; [|lia].
  eapply wp_mono; [exact Hloop|]. simpl. intros [] v3 [Hd Hset3]. split; [done|]. rewrite Hset3, Hset. reflexivity.
Qed.

(** ** The body: an error before the walk, or the walk *)

(** An error was found before the first instruction was decoded. *)
Definition refused (m : memory) (v : NaClValidatorState) : Prop :=
  ~ accepting v /\ ram v = m /\ did_stub_out v = false /\ cur_iter v = None.

Lemma keeps_message_memory level :
  keeps (fun v => (did_stub_out v, ram v)) (NaClValidatorMessage NaClLogGetVerbosity level).
Proof using. unfold NaClValidatorMessage, NaClRecordIfValidatorError, NaClRecordErrorReported. keeps. Qed.

(** The settings that the caller chose. *)
Definition modes (v : NaClValidatorState) := (do_stub_out v, readonly_text v, cpu_features v).

Lemma settings_modes v v' : settings v' = settings v -> modes v' = modes v.
Proof using. unfold settings, modes. congruence. Qed.

Lemma message_refused m v :
  ram v = m -> did_stub_out v = false -> cur_iter v = None ->
  wp terminates (NaClValidatorMessage NaClLogGetVerbosity LOG_ERROR) (fun _ v' => modes v' = modes v /\ refused m v') v.
Proof using.
  intros Hm Hd Hi. eapply wp_mono.
  { eapply (keeps_steps (fun v => (did_stub_out v, ram v))); [apply keeps_message_memory|apply (step_plain_error _ (fun _ => False))]. }
  simpl. intros [] v' (Hg & [= E1 E2] & He).
  split; [by apply settings_modes, grows_settings|]. split_and!; try congruence; [exact He|].
  rewrite (fixed_iter _ _ (gr_fixed _ _ Hg)). done.
Qed.

(** The walk over the segment without its trailing halts is done. *)
Definition walked_all (m : memory) (base vb size : Z) (v : NaClValidatorState) : Prop :=
  exists size', NCHaltTrimSize m base size 32 = Ret size' /\ 0 < size' <= size /\ done_with tables m base size' v /\
    do_detailed v = false /\ set_array_size (jump_sets v) = NaClAddressSetArraySize size /\ vbase v = vb.

Lemma done_caches m base size' v ci cs cv :
  done_with tables m base size' v -> done_with tables m base size' (with_caches v ci (cur_iter v) cs cv).
Proof using.
  intros ([R1 R2 R3 R4 R5 R6 R7] & Hi & Hc & Hw). split_and!; [by split|done|done|]. intros Hq. destruct (Hw Hq) as [h Hh].
  exists h. by apply walked_caches.
Qed.

Lemma body_ok m base vb size v :
  (forall x, is_byte (m x)) -> created m vb size v -> 0 <= size < two64 ->
  wp terminates (ValidateSegment_body NaClLogGetVerbosity tables base vb size) (fun _ v' =>
    modes v' = modes v /\ (refused m v' \/ walked_all m base vb size v' /\ Z.land vb 31 = 0)) v.
Proof using Htables.
  intros Hm Hc Hs. pose proof Hc as [C1 C2 C3 (C4 & C4' & C4'') (C5 & C6 & C7) [C8 C9] C10 C11]. subst m.
  assert (Herr : wp terminates (NaClValidatorMessage NaClLogGetVerbosity LOG_ERROR) (fun _ v' =>
    modes v' = modes v /\ (refused (ram v) v' \/ walked_all (ram v) base vb size v' /\ Z.land vb 31 = 0)) v).
  { eapply wp_mono; [by apply message_refused|]. simpl. intros [] v' [? ?]. auto. }
  unfold ValidateSegment_body. apply wp_bind, wp_get. rewrite C4, C4'.
  apply wp_if; intros H1; [exact Herr|]. apply wp_if; intros H2; [exact Herr|]. apply wp_if; intros H3; [exact Herr|].
  apply wp_if; intros H4; [exact Herr|]. zbool. apply wp_bind, wp_lift.
  destruct (NCHaltTrimSize (ram v) base size 32) as [size'|f] eqn:Htrim.
  2: { unfold NCHaltTrimSize in Htrim. case_match; [|done]. by injection Htrim as <-. }
  assert (Hpos : 0 < size) by (unfold NCHaltTrimSize in Htrim; case_match; zbool; [done|lia]).
  destruct (trim_ok _ _ _ _ Htrim Hpos) as [Hsz' _]. unfold wpo.
  apply wp_bind, wp_modify. cbv beta. apply wp_if; intros H5; zbool; [lia|]. apply wp_bind, wp_lift.
  destruct (NaClInstIterCreateWithLookback _ _ _) as [it|f] eqn:Hit.
  2: { unfold NaClInstIterCreateWithLookback in Hit. do 2 (case_match; [by injection Hit as <-|]). done. }
  unfold wpo. apply wp_bind, wp_modify. cbv beta. apply wp_bind.
  eapply wp_mono; [eapply (start_ok (ram v) base vb size size' v it); try done; lia|]. simpl.
  intros [] v1 [Hd Hset]. apply wp_modify. unfold settings in Hset. simpl in Hset. split.
  - unfold modes. simpl. congruence.
  - right. split; [|done]. exists size'. split; [done|]. split; [lia|].
    split; [exact (done_caches (ram v) base size' v1 None None None Hd)|]. split_and!.
    + simpl. congruence.
    + simpl. replace (set_array_size (jump_sets v1)) with (set_array_size (jump_sets v)) by congruence. by rewrite C10.
    + simpl. congruence.
Qed.

(** ** The checks after the walk *)

(** What acceptance means: the segment but for its trailing halts is a list of
    instructions [h], newest first, that passed the checks, and the jump
    targets fit. *)
Record verified (m : memory) (base vb size : Z) (size' : Z) (h : list NaClInstState) (v : NaClValidatorState) : Prop := {
  ve_trim : NCHaltTrimSize m base size 32 = Ret size' /\ 0 < size' <= size;
  ve_sweep : did_stub_out v = false -> sweep m tables base size' size' h;
  ve_passed : all_passed tables h v;
  ve_last : ~ set_by h RegESP /\ ~ set_by h RegEBP;
  ve_starts : forall x, member (possible_targets (jump_sets v)) x -> exists y, y ∈ h /\ inst_addr y = x;
  ve_summary : summary_ok v;
  ve_size : codesize v = size' /\ set_array_size (jump_sets v) = NaClAddressSetArraySize size /\ bundle_mask v = 31 /\ vbase v = vb;
}.

(** The result of the validation. *)
Record ended (m : memory) (base vb size : Z) (v : NaClValidatorState) : Prop := {
  en_memory : forall x, ram v x = m x \/ (ram v x = kNaClFullStop /\ base <= x < base + size);
  en_same : did_stub_out v = false -> ram v = m;
  en_readonly : readonly_text v = true -> do_stub_out v = false -> did_stub_out v = false;
  en_verified : if_accepted (fun v => exists size' h, verified m base vb size size' h v) v;
}.

Lemma refused_ended m base vb size v : refused m v -> ended m base vb size v.
Proof using. intros (H1 & H2 & H3 & H4). split; auto; [intros x; rewrite H2; by left|by intros Ha]. Qed.

Lemma keeps_registers_end : keeps jump_sets (NaClBaseRegisterSummarize NaClLogGetVerbosity).
Proof using.
  unfold NaClBaseRegisterSummarize, NaClMaybeReportPreviousBad, NaClValidatorInstMessage, NaClStubOutInst, NCStubOutMem, alter_locals.
  keeps.
Qed.

Lemma post_ok m base vb size v :
  walked_all m base vb size v -> 
  wp terminates (NaClApplyPostValidators NaClLogGetVerbosity tables) (fun _ v' =>
    modes v' = modes v /\ ended m base vb size v') v.
Proof using.
  intros (size' & Htrim & Hsz & (Hrun & Hi & Hcur & Hw) & Hdet & Harr & Hvb). unfold NaClApplyPostValidators.
  assert (Hbasic : forall v', grows v v' -> if_accepted (fun v' => exists size' h, verified m base vb size size' h v') v' ->
    modes v' = modes v /\ ended m base vb size v').
  { intros v' Hg Hve. split; [by apply settings_modes, grows_settings|].
    destruct (running_grows _ _ _ _ _ Hg Hcur Hrun) as [R1 R2 R3 R4 R5 R6 R7]. split; try done.
    intros x. destruct (R1 x) as [?|[? ?]]; [by left|]. right. split; [done|lia]. }
  apply wp_bind, wp_get. rewrite bool_decide_false by done. rewrite orb_false_r. apply wp_if; intros Hq.
  { apply wp_ret. apply Hbasic; [reflexivity|]. intros [Ha _]. rewrite (ru_quit _ _ _ _ Hrun Hq) in Ha. done. }
  destruct (Hw Hq) as [h Hh].
  assert (Hall : steps (NaClBaseRegisterSummarize NaClLogGetVerbosity ;; v ← get;
    if do_detailed v then NaClJumpValidatorSummarizeDetailed NaClLogGetVerbosity tables
    else NaClJumpValidatorSummarize NaClLogGetVerbosity)
    (fun _ => if_accepted (fun v' => exists size' h, verified m base vb size size' h v')) v).
  { eapply steps_bind; [apply (keeps_steps jump_sets); [apply keeps_registers_end|];
      eapply step_registers_end; by apply (wa_ready _ _ _ _ _ _ _ Hh)|]. intros [] v1 Hg1 [Hsets1 Hlast].
    apply steps_bind_get. pose proof (grows_settings _ _ Hg1) as Hs1.
    replace (do_detailed v1) with false by (unfold settings in Hs1; congruence).
    pose proof (running_grows _ _ _ _ _ Hg1 Hcur Hrun) as Hr1.
    eapply steps_mono; [apply step_summary; [apply Hr1|rewrite (ru_size _ _ _ _ Hr1); lia|apply Hr1]|]. simpl.
    intros [] v2 Hg2 [Hsets Hsum] Ha. pose proof (accepting_back _ _ Hg2 Ha) as Ha1. pose proof (accepting_back _ _ Hg1 Ha1) as Ha0.
    assert (Hg : grows v v2) by (by transitivity v1). pose proof (grows_settings _ _ Hg) as Hs2. unfold settings in Hs2.
    exists size', h. destruct (ru_bundle _ _ _ _ Hrun) as (Hb1 & Hb2 & Hb3). pose proof (ru_size _ _ _ _ Hrun). split.
    - done.
    - intros Hd. destruct (gr_stub _ _ Hg Hd) as [Hd' _]. by apply (wa_sweep _ _ _ _ _ _ _ Hh).
    - eapply all_passed_stable; [exact Hg|]. by apply (wa_passed _ _ _ _ _ _ _ Hh).
    - by apply Hlast.
    - rewrite Hsets, Hsets1. apply (wa_starts _ _ _ _ _ _ _ Hh).
    - by apply Hsum.
    - split_and!; congruence. }
  eapply wp_mono; [exact Hall|]. simpl. intros [] v' [Hg Hve]. by apply Hbasic.
Qed.

(** ** The segment *)

Lemma validated_caches m base vb size v ci cs cv :
  ended m base vb size v -> ended m base vb size (with_caches v ci None cs cv).
Proof using.
  intros [E1 E2 E3 E4]. split; try done. intros Ha. destruct (E4 Ha) as (size' & h & [V1 V2 V3 V4 V5 V6 V7]).
  exists size', h. split; try done. by apply all_passed_caches.
Qed.

Lemma segment_ok m base vb size v :
  (forall x, is_byte (m x)) -> created m vb size v -> 0 <= size < two64 ->
  wp terminates (NaClValidateSegment NaClLogGetVerbosity tables base vb size) (fun _ v' =>
    modes v' = modes v /\ ended m base vb size v') v.
Proof using Htables.
  intros Hm Hc Hs. unfold NaClValidateSegment. apply wp_bind.
  eapply wp_mono; [by apply (body_ok m)|]. simpl. intros [] v1 [Hm1 [Hr|[Hw _]]]; apply wp_bind.
  - pose proof Hr as (_ & _ & _ & Hi). unfold NaClApplyPostValidators. apply wp_bind, wp_get.
    rewrite bool_decide_true, orb_true_r by done. apply wp_ret, wp_modify. split; [done|].
    exact (validated_caches _ _ _ _ _ _ _ _ (refused_ended _ base vb size _ Hr)).
  - eapply wp_mono; [by apply post_ok|]. simpl. intros [] v2 [Hm2 He]. apply wp_modify. split; [rewrite <- Hm1, <- Hm2; done|].
    exact (validated_caches _ _ _ _ _ _ _ _ He).
Qed.

End SegmentSpec.
