(* ===== verification/Sandbox.v ===== *)
(** * Sandboxed code

    What the validator promises of a code segment, without reference to the
    validator's state: the segment is a list of instructions, and there is a
    set [R] of addresses that are not entered, such that no instruction breaks
    the sandbox when execution starts at an [entry]. *)

From S2P Require Import Prelude Effects Stateful Bytes OpKinds DecodeTables OpcodeTable InstBuffer.
From S2P Require Import ExpVector InstState InstTrans InstDecode TransSpec DecodeSpec InstIter.
From S2P Require Import IterSpec ValState AddressSet ValSpec Jumps CheckSpec JumpSpec ProtectBase.
From S2P Require Import BaseSpec MemProtect MemSpec Illegal CpuChecks CpuSpec ValidateIter LoopSpec.
From S2P Require Import SegmentSpec.

Section Sandbox.
Variable tables : NaClDecodeTables.

(** Execution may start at [x]: an instruction starts there, and it does not
    depend on the ones before. *)
Definition entry (h : list NaClInstState) (R : Z -> Prop) (x : Z) : Prop :=
  (exists s, s ∈ h /\ inst_addr s = x) /\ ~ R x.

(** The instruction [s], after the instructions [p], sets the register [r] at
    node [k]. *)
Record register_safe (R : Z -> Prop) (s : NaClInstState) (p : list NaClInstState) (k : Z) (r : NaClOpKind) : Prop := {
  rs_base : r <> RegR15;
  rs_segment : one_of r [RegCS; RegDS; RegSS; RegES; RegFS; RegGS] = false;
  rs_rsp : r = RegRSP -> rsp_form s k \/ (rebases tables s p RegRSP RegESP /\ R (inst_addr s));
  rs_rbp : r = RegRBP -> two_registers s InstMov RegRBP RegRSP \/ (rebases tables s p RegRBP RegEBP /\ R (inst_addr s));
  rs_parts : one_of r [RegRSP; RegRBP; RegESP; RegEBP] = false ->
    NaClIs64Subreg r RegR15 = Ret false /\ NaClIs64Subreg r RegRSP = Ret false /\ NaClIs64Subreg r RegRBP = Ret false;
}.

(** The memory operands are safe after the instructions that compute them. *)
Definition memory_safe (R : Z -> Prop) (s : NaClInstState) (p : list NaClInstState) : Prop :=
  exists len, 0 <= len /\ (forall k, 0 <= k < number_expr_nodes (nodes s) -> operand_ok tables s p k len) /\
    forall d x, Z.of_nat d < len -> (s :: p) !! d = Some x -> R (inst_addr x).

(** A jump goes to an entry or to the start of a bundle outside the segment of
    [size] bytes; a jump to a register follows a masking sequence. *)
Definition jump_safe (size : Z) (h : list NaClInstState) (R : Z -> Prop) (s : NaClInstState) (p : list NaClInstState) (n : NaClExp)
  : Prop :=
  match exp_kind n with
  | ExprConstant =>
      let t := jump_target s (NaClGetExprSignedValue n) in
      if t <? size then entry h R t else Z.land t 31 = 0
  | ExprRegister => exists x1 x2, p !! 0%nat = Some x1 /\ p !! 1%nat = Some x2 /\ masked n x1 x2 /\
      R (inst_addr x1) /\ R (inst_addr s)
  | _ => False
  end.

(** The instruction [s] after the instructions [p] of the code [h]. *)
Record inst_safe (features : NaClCPUFeaturesX86) (size : Z) (h : list NaClInstState) (R : Z -> Prop)
  (s : NaClInstState) (p : list NaClInstState) : Prop := {
  is_legal : forall i, NaClInstStateInst s = Ret i -> legal s i /\ supported features i;
  is_registers : forall k r, sets_at s k r -> register_safe R s p k r;
  is_memory : memory_safe R s p;
  is_jumps : forall i, NaClInstStateInst s = Ret i -> is_jump i = true ->
    forall k n, 0 <= k < number_expr_nodes (nodes s) -> node_at s k n -> has_eflag n ExprJumpTarget = true ->
    jump_safe size h R s p n;
  is_call : forall i, NaClInstStateInst s = Ret i -> is_jump i = true -> inst_name i = InstCall ->
    (inst_addr s + blength (bytes s)) mod 32 = 0;
  is_rebased : rebased tables s p;
}.

(** The segment of [size] bytes at [base] of the memory [m], loaded at the
    address [guest] of the program, is the code [h], newest instruction first. *)
Record sandboxed (features : NaClCPUFeaturesX86) (m : memory) (base guest size : Z) (h : list NaClInstState) (R : Z -> Prop)
  : Prop := {
  sb_sweep : sweep m tables base size size h;
  sb_insts : forall k s, h !! k = Some s -> inst_safe features size h R s (drop (S k) h);
  sb_last : ~ set_by h RegESP /\ ~ set_by h RegEBP;
  sb_bundles : forall x, 0 <= x < size -> x mod 32 = 0 -> entry h R x;
  sb_guest : guest mod 32 = 0;
}.

(** ** From the validator's state *)

Lemma land_31 x : Z.land x 31 = x mod 32.
Proof using. change 31 with (Z.ones 5). by rewrite Z.land_ones by lia. Qed.

Lemma all_passed_lookup h v k s :
  all_passed tables h v -> h !! k = Some s -> passed tables s (drop (S k) h) v /\ rebased tables s (drop (S k) h).
Proof using.
  revert k. induction h as [|x h IH]; intros k; [done|]. simpl. intros [Hx Hall]. destruct k as [|k]; simpl.
  - intros [= <-]. by rewrite drop_0.
  - by apply IH.
Qed.

Section Verified.
Context (features : NaClCPUFeaturesX86) (m : memory) (base guest size size' : Z) (h : list NaClInstState) (v : NaClValidatorState).
Context (Hv : verified tables m base guest size size' h v) (Hsize : size < two64) (Hstub : did_stub_out v = false).
Context (Hfeat : cpu_features v = features).

(** The addresses that are not entered. *)
Definition protected (x : Z) : Prop := member (removed_targets (jump_sets v)) x.

Lemma verified_sweep : sweep m tables base size' size' h.
Proof using Hv Hstub. by apply (ve_sweep _ _ _ _ _ _ _ _ Hv). Qed.

Lemma enterable_entry x : enterable (jump_sets v) x -> entry h protected x.
Proof using Hv. intros [Hp Hr]. split; [by apply (ve_starts _ _ _ _ _ _ _ _ Hv)|done]. Qed.

Lemma elem_facts s : s ∈ h -> 0 <= inst_addr s < size' /\ 0 <= blength (bytes s) /\ inst_addr s + blength (bytes s) <= size' /\ unchanged s = false.
Proof using Hv Hstub.
  intros (k & Hk)%list_elem_of_lookup_1.
  destruct (sweep_lookup _ _ _ _ _ _ _ _ verified_sweep Hk) as (b & len & h' & Hs' & Hvis & Hlt & _ & Hle).
  pose proof (visits_facts _ _ _ _ _ _ _ Hvis) as (-> & -> & Hl & ? & ? & _ & _). pose proof (sweep_nonneg _ _ _ _ _ _ Hs').
  split_and!; try lia. destruct Hvis as (d0 & d & vec & _ & _ & Hdec & _ & Hsame & _). unfold same_but_nodes in Hsame.
  rewrite Hsame. apply Hdec.
Qed.

Lemma removed_protected s : s ∈ h -> removed s v -> protected (inst_addr s).
Proof using Hv Hstub. intros Hs Hr. apply Hr. rewrite (proj1 (ve_size _ _ _ _ _ _ _ _ Hv)). by apply elem_facts. Qed.

Lemma direct_entry x : 0 <= x < size' -> member (actual_targets (jump_sets v)) x -> entry h protected x.
Proof using Hv.
  intros Hx Hm. apply enterable_entry. destruct (ve_summary _ _ _ _ _ _ _ _ Hv) as (Hs & _).
  destruct (ve_size _ _ _ _ _ _ _ _ Hv) as (Hc & Ha & _). pose proof (ve_trim _ _ _ _ _ _ _ _ Hv) as [_ ?].
  apply Hs; [lia| |by rewrite Hc; lia|done]. rewrite Ha. apply array_size_ok. lia.
Qed.

Lemma verified_jump s p n : s ∈ h -> (forall x, x ∈ p -> x ∈ h) ->
  target_ok s p n v -> has_eflag n ExprJumpTarget = true -> jump_safe size' h protected s p n.
Proof using Hv Hstub.
  intros Hs Hp Ht Hj. specialize (Ht Hj). unfold jump_safe. destruct (exp_kind n); try done.
  - destruct Ht as (x1 & x2 & Hx1 & Hx2 & Hm & Hr1 & Hr2). exists x1, x2.
    split_and!; try done; apply removed_protected; try done. apply Hp. by eapply list_elem_of_lookup_2.
  - destruct (elem_facts s Hs) as (_ & _ & _ & Hun). destruct (ve_size _ _ _ _ _ _ _ _ Hv) as (Hc & _ & Hb & _).
    unfold direct_ok in Ht. cbv zeta in *. rewrite Hc, Hb in Ht. destruct Ht as [H1 H2]. case_match; zbool.
    + apply direct_entry; [split; [apply jump_target_nonneg|done]|by apply H1].
    + destruct (H2 ltac:(lia)) as [?|?]; [done|congruence].
Qed.

Lemma verified_register s p k r : s ∈ h -> register_ok tables s p k r v -> register_safe protected s p k r.
Proof using Hv Hstub.
  intros Hs [R1 R2 R3 R4 R5]. split; try done.
  - intros Hr. destruct (R3 Hr) as [?|[? ?]]; [by left|]. right. split; [done|by apply removed_protected].
  - intros Hr. destruct (R4 Hr) as [?|[? ?]]; [by left|]. right. split; [done|by apply removed_protected].
Qed.

Lemma verified_memory s p : (forall x, x ∈ s :: p -> x ∈ h) -> memory_ok tables s p v -> memory_safe protected s p.
Proof using Hv Hstub.
  intros Hp (len & H0 & H1 & H2). exists len. split_and!; [done|done|]. intros d x Hd Hx.
  apply removed_protected; [|by eapply H2]. apply Hp. by eapply list_elem_of_lookup_2.
Qed.

Lemma verified_inst k s : h !! k = Some s -> inst_safe features size' h protected s (drop (S k) h).
Proof using Hv Hsize Hstub Hfeat.
  intros Hk. pose proof (list_elem_of_lookup_2 _ _ _ Hk) as Hs.
  destruct (all_passed_lookup _ _ _ _ (ve_passed _ _ _ _ _ _ _ _ Hv) Hk) as [[P1 P2 P3 P4 P5] Hreb].
  assert (Hsub : forall x, x ∈ drop (S k) h -> x ∈ h).
  { intros x Hx. rewrite <- (take_drop (S k) h). apply elem_of_app. by right. }
  split; try done.
  - intros i Hi. rewrite <- Hfeat. split; [by apply P1|by apply P2].
  - intros j r Hj. by apply verified_register; [|apply P3].
  - apply verified_memory; [|done]. intros x [->|Hx]%elem_of_cons; [done|by apply Hsub].
  - intros i Hi Hj j n Hjn Hn Hf. destruct P5 as [_ P5]. destruct (P5 i Hi Hj) as [Ht _]. by apply verified_jump; [| |apply (Ht j)|].
  - intros i Hi Hj Hc. destruct P5 as [_ P5]. destruct (P5 i Hi Hj) as [_ Hcall]. specialize (Hcall Hc). unfold call_ok in Hcall.
    destruct (elem_facts s Hs) as (? & ? & ? & _). pose proof (ve_trim _ _ _ _ _ _ _ _ Hv) as [_ ?].
    by rewrite u64_small, land_31 in Hcall by lia.
Qed.

Lemma verified_sandboxed : sandboxed features m base guest size' h protected.
Proof using Hv Hsize Hstub Hfeat.
  destruct (ve_summary _ _ _ _ _ _ _ _ Hv) as (_ & Hblocks & Hvb). destruct (ve_size _ _ _ _ _ _ _ _ Hv) as (Hc & _ & Hb & Hg).
  split; [apply verified_sweep|apply verified_inst|by apply Hv| |by rewrite Hg, Hb, land_31 in Hvb].
  intros x Hx H0. apply enterable_entry. specialize (Hblocks (x / 32)). rewrite Hc in Hblocks.
  pose proof (Z.div_mod x 32 ltac:(lia)). replace (0 + 32 * (x / 32)) with x in Hblocks by lia.
  apply Hblocks; [apply Z.div_pos; lia|lia].
Qed.

End Verified.

(** ** Consequences *)

(** Instructions do not overlap. *)
Lemma sweep_disjoint m base size a h s1 s2 x :
  sweep m tables base size a h -> s1 ∈ h -> s2 ∈ h ->
  inst_addr s1 <= x < inst_addr s1 + blength (bytes s1) -> inst_addr s2 <= x < inst_addr s2 + blength (bytes s2) ->
  inst_addr s1 = inst_addr s2.
Proof using.
  intros Hsw. induction Hsw as [|a len s h Hsw IH Hlt Hv]; intros H1 H2 Hx1 Hx2; [by apply not_elem_of_nil in H1|].
  pose proof (visits_facts _ _ _ _ _ _ _ Hv) as (Ha & Hl & _).
  rewrite !elem_of_cons in *. destruct H1 as [->|H1], H2 as [->|H2]; [done| | |by apply IH].
  - pose proof (sweep_elem _ _ _ _ _ _ _ Hsw H2). lia.
  - pose proof (sweep_elem _ _ _ _ _ _ _ Hsw H1). lia.
Qed.

(** No instruction crosses the border of a bundle. *)
Lemma sandboxed_bundles features m base guest size h R s x :
  sandboxed features m base guest size h R -> s ∈ h -> inst_addr s < x < inst_addr s + blength (bytes s) -> x mod 32 <> 0.
Proof using.
  intros [Hsw _ _ Hb _] Hs Hx H0. pose proof (sweep_elem _ _ _ _ _ _ _ Hsw Hs) as (? & ? & _).
  destruct (Hb x ltac:(lia) H0) as [(s' & Hs' & Ha) _].
  assert (inst_addr s = inst_addr s'); [|lia]. eapply (sweep_disjoint _ _ _ _ _ _ _ x Hsw Hs Hs'); [lia|].
  apply list_elem_of_lookup_1 in Hs' as [k Hk].
  destruct (sweep_lookup _ _ _ _ _ _ _ _ Hsw Hk) as (b & len & h' & Hs2 & Hvis & Hlt & _ & _).
  pose proof (visits_facts _ _ _ _ _ _ _ Hvis) as (Hb1 & Hb2 & _ & _ & Hb3 & _). lia.
Qed.

End Sandbox.
