(* ===== verification/Gio.v ===== *)
(** * Generic I/O: gio.h and gio_mem.c

    The loader reads the program through a virtual table of Read and Seek.
    The table is the class [Gio]; [GioLaws] is what gio.h promises of Read; a
    memory file implements it. *)

From S2P Require Import Prelude Effects Bytes.

Inductive whence := SEEK_SET | SEEK_CUR | SEEK_END.

(** Read returns the object, the ssize_t result and the bytes it has stored;
    Seek the object and the off_t result. *)
Class Gio (G : Type) := {
  gio_Read : G -> Z -> G * Z * list Z;
  gio_Seek : G -> Z -> whence -> G * Z;
}.

(** What gio.h promises of a well-formed object: Read is like the read system
    call, at most [count] bytes and -1 on error; both keep it well formed. *)
Class GioLaws (G : Type) `{Gio G} := {
  gio_ok : G -> Prop;
  gio_Read_law : forall g count g' r bs,
    gio_ok g -> 0 <= count -> gio_Read g count = (g', r, bs) ->
    gio_ok g' /\ ((r = -1 /\ bs = []) \/ (0 <= r <= count /\ Z.of_nat (length bs) = r));
  gio_Seek_law : forall g offset w g' r,
    gio_ok g -> gio_Seek g offset w = (g', r) -> gio_ok g';
}.

(** ** Memory files *)

Record GioMemoryFile := mkGioMem {
  gm_buffer : list Z;
  gm_len : Z;
  gm_curpos : Z;
}.

#[global] Instance GioMemoryFile_eta : Updatable GioMemoryFile :=
  fun g => mkGioMem (gm_buffer g) (gm_len g) (gm_curpos g).

Definition GioMemoryFileCtor (buffer : list Z) : GioMemoryFile :=
  mkGioMem buffer (Z.of_nat (length buffer)) 0.

Definition GioMemoryFileRead (self : GioMemoryFile) (count : Z) : GioMemoryFile * Z * list Z :=
  let remain := u64 (gm_len self - gm_curpos self) in
  let count := if remain <? count then remain else count in
  if 0 =? count then (self, 0, [])
  else
    let newpos := u64 (gm_curpos self + count) in
    (self <| gm_curpos := newpos |>, i64 count,
     take (Z.to_nat count) (drop (Z.to_nat (gm_curpos self)) (gm_buffer self))).

Definition GioMemoryFileWrite (self : GioMemoryFile) (buf : list Z) : GioMemoryFile * Z :=
  let remain := u64 (gm_len self - gm_curpos self) in
  let count := Z.of_nat (length buf) in
  let count := if remain <? count then remain else count in
  if 0 =? count then (self, 0)
  else
    let newpos := u64 (gm_curpos self + count) in
    let pos := Z.to_nat (gm_curpos self) in
    let data := take (Z.to_nat count) buf in
    (self <| gm_buffer := take pos (gm_buffer self) ++ data ++ drop (pos + length data) (gm_buffer self) |>
          <| gm_curpos := newpos |>, i64 count).

Definition GioMemoryFileSeek (self : GioMemoryFile) (offset : Z) (w : whence) : GioMemoryFile * Z :=
  let new_pos := u64 (match w with
                      | SEEK_SET => offset
                      | SEEK_CUR => gm_curpos self + offset
                      | SEEK_END => gm_len self + offset
                      end) in
  if gm_len self <? new_pos then (self, -1)
  else (self <| gm_curpos := new_pos |>, i64 new_pos).

#[global] Instance GioMemoryFile_Gio : Gio GioMemoryFile := {|
  gio_Read := GioMemoryFileRead;
  gio_Seek := GioMemoryFileSeek;
|}.

(** The position stays in the file, which fits in memory. *)
Record gio_inv (g : GioMemoryFile) : Prop := {
  gi_len : gm_len g = Z.of_nat (length (gm_buffer g));
  gi_small : gm_len g < two63;
  gi_pos : 0 <= gm_curpos g <= gm_len g;
}.

Lemma Ctor_inv buffer : Z.of_nat (length buffer) < two63 -> gio_inv (GioMemoryFileCtor buffer).
Proof. intros Hb. split; simpl; lia. Qed.

Lemma i64_nonneg z : 0 <= z < two63 -> i64 z = z.
Proof. intros Hz. unfold i64, u64. rewrite Z.mod_small by zlia. case_match; zbool; zlia. Qed.

(** A read from a well-formed memory file: the bytes at the position, short
    only at the end of the file. *)
Lemma MemRead_spec g count :
  gio_inv g -> 0 <= count ->
  let n := Z.min count (gm_len g - gm_curpos g) in
  GioMemoryFileRead g count =
    (g <| gm_curpos := gm_curpos g + n |>, n,
     take (Z.to_nat n) (drop (Z.to_nat (gm_curpos g)) (gm_buffer g))) /\
  gio_inv (g <| gm_curpos := gm_curpos g + n |>).
Proof.
  intros [Hl Hs Hp] Hc n. unfold GioMemoryFileRead. rewrite (u64_small (gm_len g - gm_curpos g)) by zlia.
  assert (Hn : (if gm_len g - gm_curpos g <? count then gm_len g - gm_curpos g else count) = n).
  { subst n. case_match; zbool; lia. }
  rewrite Hn. assert (0 <= n <= gm_len g - gm_curpos g) by lia. split; [|split; simpl; lia].
  destruct (0 =? n) eqn:H0; zbool.
  - rewrite <- H0. simpl. rewrite take_0. replace (gm_curpos g + 0) with (gm_curpos g) by lia. by destruct g.
  - rewrite u64_small, i64_nonneg by zlia. done.
Qed.

(** Seeking: SEEK_SET reaches every position of the file and no other. *)
Lemma MemSeek_spec g offset :
  gio_inv g -> is_i64 offset ->
  GioMemoryFileSeek g offset SEEK_SET =
    (if decide (0 <= offset <= gm_len g) then (g <| gm_curpos := offset |>, offset) else (g, -1)).
Proof.
  intros [Hl Hs Hp] Ho. unfold GioMemoryFileSeek. case_decide as Hd.
  - rewrite u64_small by zlia. replace (gm_len g <? offset) with false by (symmetry; apply Z.ltb_ge; lia).
    by rewrite i64_nonneg by zlia.
  - destruct (decide (0 <= offset)).
    + rewrite u64_small by zlia. by replace (gm_len g <? offset) with true by (symmetry; apply Z.ltb_lt; lia).
    + assert (u64 offset = offset + two64) as ->
        by (unfold u64; rewrite <- (Z_mod_plus_full offset 1 two64), Z.mod_small; zlia).
      by replace (gm_len g <? offset + two64) with true by (symmetry; apply Z.ltb_lt; zlia).
Qed.

(** What was written is read back after seeking to where it was. *)
Lemma Write_Read g buf :
  gio_inv g -> Z.of_nat (length buf) <= gm_len g - gm_curpos g -> buf <> [] ->
  let g1 := (GioMemoryFileWrite g buf).1 in
  let g2 := (GioMemoryFileSeek g1 (gm_curpos g) SEEK_SET).1 in
  (GioMemoryFileRead g2 (Z.of_nat (length buf))).2 = buf.
Proof.
  intros Hg Hlen Hne g1 g2. pose proof Hg as [Hl Hs Hp].
  assert (0 < length buf)%nat by (destruct buf; [done|simpl; lia]).
  set (new := take (Z.to_nat (gm_curpos g)) (gm_buffer g) ++ buf ++
      drop (Z.to_nat (gm_curpos g) + length buf) (gm_buffer g)).
  assert (Hb : length new = length (gm_buffer g)).
  { unfold new. rewrite !length_app, length_take, length_drop. lia. }
  assert (Hdef : g1 = mkGioMem new (gm_len g) (gm_curpos g + Z.of_nat (length buf))).
  { unfold g1, GioMemoryFileWrite. rewrite (u64_small (gm_len g - gm_curpos g)) by zlia.
    replace (gm_len g - gm_curpos g <? Z.of_nat (length buf)) with false by (symmetry; apply Z.ltb_ge; lia).
    replace (0 =? Z.of_nat (length buf)) with false by (symmetry; apply Z.eqb_neq; lia).
    rewrite Nat2Z.id, firstn_all, u64_small by zlia. done. }
  assert (Hg1 : gio_inv g1) by (rewrite Hdef; split; simpl; lia).
  assert (Hg2 : g2 = mkGioMem new (gm_len g) (gm_curpos g)).
  { unfold g2. rewrite MemSeek_spec by (done || zlia). rewrite decide_True by (rewrite Hdef; simpl; lia).
    by rewrite Hdef. }
  assert (Hi2 : gio_inv g2) by (rewrite Hg2; split; simpl; lia).
  destruct (MemRead_spec g2 (Z.of_nat (length buf)) Hi2) as [-> _]; [lia|].
  rewrite Hg2. cbn [snd gm_len gm_curpos gm_buffer]. rewrite Z.min_l, Nat2Z.id by lia. unfold new.
  rewrite drop_app_length' by (rewrite length_take; lia). by rewrite take_app_length.
Qed.

Lemma MemSeek_inv g offset w g' r : gio_inv g -> GioMemoryFileSeek g offset w = (g', r) -> gio_inv g'.
Proof.
  intros [Hl Hs Hp]. unfold GioMemoryFileSeek. set (np := u64 _).
  assert (0 <= np) by apply u64_range. case_match; zbool; intros [= <- _]; split; simpl; lia.
Qed.

#[global] Instance GioMemoryFile_laws : GioLaws GioMemoryFile.
Proof.
  refine {| gio_ok := gio_inv |}.
  - intros g count g' r bs Hg Hc Hr. cbn [gio_Read GioMemoryFile_Gio] in Hr.
    destruct (MemRead_spec g count Hg Hc) as [Heq Hg']. rewrite Heq in Hr. injection Hr as <- <- <-.
    split; [exact Hg'|]. right. destruct Hg as [Hl Hs Hp].
    rewrite length_take, length_drop. lia.
  - intros g offset w g' r Hg Hr. by eapply MemSeek_inv.
Defined.
