(* ===== verification/Elf.v ===== *)
(** * ELF images: elf_util.c

    Reading the headers of a program, checking them against the segments the
    runtime accepts, and loading the accepted segments into memory. *)

From S2P Require Import Prelude Effects Rounding Bytes Gio.

(** ** nacl_error_code.h *)

Inductive NaClErrorCode :=
| LOAD_OK | LOAD_STATUS_UNKNOWN | LOAD_UNSUPPORTED_OS_PLATFORM | LOAD_DEP_UNSUPPORTED | LOAD_INTERNAL
| LOAD_DUP_LOAD_MODULE | LOAD_DUP_START_MODULE | LOAD_OPEN_ERROR | LOAD_READ_ERROR
| LOAD_TOO_MANY_PROG_HDRS | LOAD_PROG_HDR_SIZE_TOO_SMALL | LOAD_BAD_ELF_MAGIC | LOAD_NOT_32_BIT
| LOAD_NOT_64_BIT | LOAD_BAD_ABI | LOAD_NOT_EXEC | LOAD_BAD_MACHINE | LOAD_BAD_ELF_VERS
| LOAD_TOO_MANY_SECT | LOAD_BAD_SECT | LOAD_NO_MEMORY | LOAD_SECT_HDR | LOAD_ADDR_SPACE_TOO_SMALL
| LOAD_ADDR_SPACE_TOO_BIG | LOAD_DATA_OVERLAPS_STACK_SECTION | LOAD_RODATA_OVERLAPS_DATA
| LOAD_DATA_NOT_LAST_SEGMENT | LOAD_NO_DATA_BUT_RODATA_NOT_LAST_SEGMENT | LOAD_TEXT_OVERLAPS_RODATA
| LOAD_TEXT_OVERLAPS_DATA | LOAD_BAD_RODATA_ALIGNMENT | LOAD_BAD_DATA_ALIGNMENT | LOAD_UNLOADABLE
| LOAD_BAD_ELF_TEXT | LOAD_TEXT_SEG_TOO_BIG | LOAD_DATA_SEG_TOO_BIG | LOAD_MPROTECT_FAIL
| LOAD_MADVISE_FAIL | LOAD_TOO_MANY_SYMBOL_STR | LOAD_SYMTAB_ENTRY_TOO_SMALL | LOAD_NO_SYMTAB
| LOAD_NO_SYMTAB_STRINGS | LOAD_SYMTAB_ENTRY | LOAD_UNKNOWN_SYMBOL_TYPE | LOAD_SYMTAB_DUP
| LOAD_REL_ERROR | LOAD_REL_UNIMPL | LOAD_UNDEF_SYMBOL | LOAD_BAD_SYMBOL_DATA | LOAD_BAD_FILE
| LOAD_BAD_ENTRY | LOAD_SEGMENT_OUTSIDE_ADDRSPACE | LOAD_DUP_SEGMENT | LOAD_SEGMENT_BAD_LOC
| LOAD_BAD_SEGMENT | LOAD_REQUIRED_SEG_MISSING | LOAD_SEGMENT_BAD_PARAM | LOAD_VALIDATION_FAILED
| LOAD_UNIMPLEMENTED | SRT_NO_SEG_SEL.

#[global] Instance NaClErrorCode_eq_dec : EqDecision NaClErrorCode.
Proof. solve_decision. Defined.

(** ** elf64.h, elf_constants.h *)

Record Elf_Ehdr := mkEhdr {
  e_ident : list Z;
  e_type : Z; e_machine : Z; e_version : Z; e_entry : Z; e_phoff : Z; e_shoff : Z; e_flags : Z;
  e_ehsize : Z; e_phentsize : Z; e_phnum : Z; e_shentsize : Z; e_shnum : Z; e_shstrndx : Z;
}.

Record Elf_Phdr := mkPhdr {
  p_type : Z; p_flags : Z; p_offset : Z; p_vaddr : Z; p_paddr : Z; p_filesz : Z; p_memsz : Z; p_align : Z;
}.

Definition sizeof_Ehdr : Z := 64.
Definition sizeof_Phdr : Z := 56.
Definition ELFMAG : list Z := [127; 69; 76; 70].
Definition EI_CLASS : nat := 4.
Definition ELFCLASS64 : Z := 2.
Definition ET_EXEC : Z := 2.
Definition EM_X86_64 : Z := 62.
Definition EV_CURRENT : Z := 1.
Definition PT_NULL : Z := 0.
Definition PT_LOAD : Z := 1.
Definition PT_DYNAMIC : Z := 2.
Definition PT_INTERP : Z := 3.
Definition PT_NOTE : Z := 4.
Definition PT_PHDR : Z := 6.
Definition PT_TLS : Z := 7.
Definition PT_GNU_EH_FRAME : Z := 1685382480.
Definition PT_GNU_STACK : Z := 1685382481.
Definition PT_GNU_RELRO : Z := 1685382482.
Definition PF_X : Z := 1.
Definition PF_W : Z := 2.
Definition PF_R : Z := 4.
Definition NACL_MAX_PROGRAM_HEADERS : Z := 128.

(** A field of [n] bytes at offset [off] of a structure read as bytes. *)
Definition field (bs : list Z) (off : Z) (n : nat) : Z :=
  rd_bytes (fun x => nth (Z.to_nat x) bs 0) n off.

Definition ehdr_of_bytes (bs : list Z) : Elf_Ehdr :=
  mkEhdr (take 16 bs) (field bs 16 2) (field bs 18 2) (field bs 20 4) (field bs 24 8) (field bs 32 8)
    (field bs 40 8) (field bs 48 4) (field bs 52 2) (field bs 54 2) (field bs 56 2) (field bs 58 2)
    (field bs 60 2) (field bs 62 2).

Definition phdr_of_bytes (bs : list Z) : Elf_Phdr :=
  mkPhdr (field bs 0 4) (field bs 4 4) (field bs 8 8) (field bs 16 8) (field bs 24 8) (field bs 32 8)
    (field bs 40 8) (field bs 48 8).

Fixpoint phdrs_of_bytes (n : nat) (bs : list Z) : list Elf_Phdr :=
  match n with
  | O => []
  | S n' => phdr_of_bytes (take 56 bs) :: phdrs_of_bytes n' (drop 56 bs)
  end.

(** ** elf_util.c *)

(** The first [e_phnum] program headers and their [loadable] flags. *)
Record NaClElfImage := mkImage {
  ehdr : Elf_Ehdr;
  phdrs : list Elf_Phdr;
  loadable : list bool;
}.

#[global] Instance NaClElfImage_eta : Updatable NaClElfImage :=
  fun i => mkImage (ehdr i) (phdrs i) (loadable i).

Inductive NaClPhdrCheckAction := PCA_NONE | PCA_TEXT_CHECK | PCA_RODATA | PCA_DATA | PCA_IGNORE.

#[global] Instance PhdrCheckAction_eq_dec : EqDecision NaClPhdrCheckAction.
Proof. solve_decision. Defined.

Record NaClPhdrChecks := mkCheck {
  ck_type : Z;
  ck_flags : Z;
  ck_action : NaClPhdrCheckAction;
  ck_required : bool;
  ck_vaddr : Z;
}.

Definition nacl_phdr_check_data : list NaClPhdrChecks := [
  mkCheck PT_PHDR PF_R PCA_IGNORE false 0;
  mkCheck PT_LOAD (Z.lor PF_R PF_X) PCA_TEXT_CHECK true NACL_TRAMPOLINE_END;
  mkCheck PT_LOAD PF_R PCA_RODATA false 0;
  mkCheck PT_LOAD (Z.lor PF_R PF_W) PCA_DATA false 0;
  mkCheck PT_TLS PF_R PCA_IGNORE false 0;
  mkCheck PT_GNU_STACK (Z.lor PF_R PF_W) PCA_NONE false 0;
  mkCheck PT_DYNAMIC PF_R PCA_IGNORE false 0;
  mkCheck PT_INTERP PF_R PCA_IGNORE false 0;
  mkCheck PT_NOTE PF_R PCA_IGNORE false 0;
  mkCheck PT_GNU_EH_FRAME PF_R PCA_IGNORE false 0;
  mkCheck PT_GNU_RELRO PF_R PCA_IGNORE false 0;
  mkCheck PT_NULL PF_R PCA_IGNORE false 0 ].

Definition NaClElfImageValidateElfHeader (image : NaClElfImage) : NaClErrorCode :=
  let hdr := ehdr image in
  if negb (bool_decide (take 4 (e_ident hdr) = ELFMAG)) then LOAD_BAD_ELF_MAGIC
  else if negb (bool_decide (e_ident hdr !! EI_CLASS = Some ELFCLASS64)) then LOAD_NOT_64_BIT
  else if negb (ET_EXEC =? e_type hdr) then LOAD_NOT_EXEC
  else if negb (EM_X86_64 =? e_machine hdr) then LOAD_BAD_MACHINE
  else if negb (EV_CURRENT =? e_version hdr) then LOAD_BAD_ELF_VERS
  else LOAD_OK.

(** The out parameters of NaClElfImageValidateProgramHeaders. *)
Record seg_layout := mkSegs {
  sl_static_text_end : Z;
  sl_rodata_start : Z;
  sl_rodata_end : Z;
  sl_data_start : Z;
  sl_data_end : Z;
  sl_max_vaddr : Z;
}.

#[global] Instance seg_layout_eta : Updatable seg_layout :=
  fun s => mkSegs (sl_static_text_end s) (sl_rodata_start s) (sl_rodata_end s) (sl_data_start s)
    (sl_data_end s) (sl_max_vaddr s).

(** The index of the first entry of the table that matches. *)
Fixpoint find_check (php : Elf_Phdr) (j : nat) (cs : list NaClPhdrChecks) : option (nat * NaClPhdrChecks) :=
  match cs with
  | [] => None
  | c :: cs' =>
      if (p_type php =? ck_type c) && (p_flags php =? ck_flags c) then Some (j, c)
      else find_check php (S j) cs'
  end.

(** The [switch] on the action. *)
Definition apply_action (a : NaClPhdrCheckAction) (php : Elf_Phdr) (out : seg_layout) : NaClErrorCode + seg_layout :=
  match a with
  | PCA_NONE | PCA_IGNORE => inr out
  | PCA_TEXT_CHECK =>
      if 0 =? p_memsz php then inl LOAD_BAD_ELF_TEXT
      else inr (out <| sl_static_text_end := u64 (NACL_TRAMPOLINE_END + p_filesz php) |>)
  | PCA_RODATA => inr (out <| sl_rodata_start := p_vaddr php |>
                           <| sl_rodata_end := u64 (p_vaddr php + p_memsz php) |>)
  | PCA_DATA => inr (out <| sl_data_start := p_vaddr php |>
                         <| sl_data_end := u64 (p_vaddr php + p_memsz php) |>)
  end.

(** One turn of the loop: the new [seen_seg], [loadable[segnum]] and outputs. *)
Definition Validate_phdr (addr_bits : Z) (php : Elf_Phdr) (seen : list bool) (out : seg_layout)
  : NaClErrorCode + (list bool * bool * seg_layout) :=
  if 0 =? p_memsz php then inr (seen, false, out)
  else
    match find_check php 0 nacl_phdr_check_data with
    | None => inl LOAD_BAD_SEGMENT
    | Some (j, c) =>
        if default false (seen !! j) then inl LOAD_DUP_SEGMENT
        else
          let seen := <[j := true]> seen in
          if bool_decide (ck_action c = PCA_IGNORE) then inr (seen, false, out)
          else if negb (0 =? ck_vaddr c) && negb (ck_vaddr c =? p_vaddr php) then inl LOAD_SEGMENT_BAD_LOC
          else if p_vaddr php <? NACL_TRAMPOLINE_END then inl LOAD_SEGMENT_OUTSIDE_ADDRSPACE
          else if u64 (p_vaddr php + p_memsz php) <? p_vaddr php then inl LOAD_SEGMENT_OUTSIDE_ADDRSPACE
          else if u64 (Z.shiftl 1 addr_bits) <=? u64 (p_vaddr php + p_memsz php) then
            inl LOAD_SEGMENT_OUTSIDE_ADDRSPACE
          else if p_memsz php <? p_filesz php then inl LOAD_SEGMENT_BAD_PARAM
          else
            let end_vaddr := u64 (p_vaddr php + p_memsz php) in
            let out := if sl_max_vaddr out <? end_vaddr then out <| sl_max_vaddr := end_vaddr |> else out in
            match apply_action (ck_action c) php out with
            | inl e => inl e
            | inr out => inr (seen, true, out)
            end
    end.

Fixpoint Validate_loop (addr_bits : Z) (phs : list Elf_Phdr) (seen : list bool) (out : seg_layout)
  : NaClErrorCode + (list bool * list bool * seg_layout) :=
  match phs with
  | [] => inr (seen, [], out)
  | php :: phs' =>
      match Validate_phdr addr_bits php seen out with
      | inl e => inl e
      | inr (seen, ld, out) =>
          match Validate_loop addr_bits phs' seen out with
          | inl e => inl e
          | inr (seen, lds, out) => inr (seen, ld :: lds, out)
          end
      end
  end.

(** No required entry of the table is missing. *)
Definition required_seen (seen : list bool) : bool :=
  forallb (fun p => negb (ck_required p.1) || p.2) (zip nacl_phdr_check_data seen).

(** [out] holds what the caller's variables held before the call. *)
Definition NaClElfImageValidateProgramHeaders (image : NaClElfImage) (addr_bits : Z) (out : seg_layout)
  : NaClErrorCode + (NaClElfImage * seg_layout) :=
  let out := out <| sl_max_vaddr := NACL_TRAMPOLINE_END |> in
  let seen := replicate (length nacl_phdr_check_data) false in
  match Validate_loop addr_bits (phdrs image) seen out with
  | inl e => inl e
  | inr (seen, lds, out) =>
      if required_seen seen then inr (image <| loadable := lds |>, out) else inl LOAD_REQUIRED_SEG_MISSING
  end.

Definition NaClElfImageGetEntryPoint (image : NaClElfImage) : Z := e_entry (ehdr image).

Section Reading.
Context {G : Type} `{Gio G} `{Host}.

Definition sizeof_NaClElfImage : Z := 64 + 128 * 56 + 128 * 4.

Definition NaClElfImageNew (gp : G) : M (G * (NaClErrorCode + NaClElfImage)) :=
  let '(gp, r) := gio_Seek gp 0 SEEK_SET in
  if -1 =? r then mret (gp, inl LOAD_READ_ERROR)
  else
    let '(gp, n, bs) := gio_Read gp sizeof_Ehdr in
    if negb (n =? sizeof_Ehdr) then mret (gp, inl LOAD_READ_ERROR)
    else
      let hdr := ehdr_of_bytes bs in
      if NACL_MAX_PROGRAM_HEADERS <? e_phnum hdr then mret (gp, inl LOAD_TOO_MANY_PROG_HDRS)
      else if e_phentsize hdr <? sizeof_Phdr then mret (gp, inl LOAD_PROG_HDR_SIZE_TOO_SMALL)
      else
        let '(gp, r) := gio_Seek gp (i64 (e_phoff hdr)) SEEK_SET in
        if r =? -1 then mret (gp, inl LOAD_READ_ERROR)
        else
          let '(gp, n, bs) := gio_Read gp (e_phnum hdr * sizeof_Phdr) in
          if negb (u64 n =? e_phnum hdr * sizeof_Phdr) then mret (gp, inl LOAD_READ_ERROR)
          else if malloc_ok sizeof_NaClElfImage then
            let k := Z.to_nat (e_phnum hdr) in
            mret (gp, inr (mkImage hdr (phdrs_of_bytes k bs) (replicate k false)))
          else fail (LogFatal "no enough memory for image meta data").

(** One segment of NaClElfImageLoad. *)
Definition ElfImageLoad_segment (addr_bits mem_start : Z) (php : Elf_Phdr) (ld : bool) (gp : G) (mem : memory)
  : M (G * (NaClErrorCode + memory)) :=
  if negb ld then mret (gp, inr mem)
  else if 0 =? p_filesz php then mret (gp, inr mem)
  else
    let end_vaddr := u64 (p_vaddr php + p_filesz php) in
    if end_vaddr <? p_vaddr php then fail (LogFatal "parameter error should have been detected already")
    else if u64 (Z.shiftl 1 addr_bits) <=? end_vaddr then
      fail (LogFatal "parameter error should have been detected already")
    else
      let paddr := u64 (mem_start + p_vaddr php) in
      let '(gp, r) := gio_Seek gp (i64 (p_offset php)) SEEK_SET in
      if r =? -1 then mret (gp, inl LOAD_SEGMENT_BAD_PARAM)
      else
        let '(gp, n, bs) := gio_Read gp (p_filesz php) in
        let mem := mem_write mem paddr bs in
        if negb (u32 n =? p_filesz php) then mret (gp, inl LOAD_SEGMENT_BAD_PARAM)
        else mret (gp, inr mem).

Fixpoint ElfImageLoad_loop (addr_bits mem_start : Z) (segs : list (Elf_Phdr * bool)) (gp : G) (mem : memory)
  : M (G * (NaClErrorCode + memory)) :=
  match segs with
  | [] => mret (gp, inr mem)
  | (php, ld) :: segs' =>
      '(gp, r) ← ElfImageLoad_segment addr_bits mem_start php ld gp mem;
      match r with
      | inl e => mret (gp, inl e)
      | inr mem => ElfImageLoad_loop addr_bits mem_start segs' gp mem
      end
  end.

(** On an error the memory already written is dropped: the caller gives the
    image up. *)
Definition NaClElfImageLoad (image : NaClElfImage) (gp : G) (addr_bits mem_start : Z) (mem : memory)
  : M (G * (NaClErrorCode + memory)) :=
  ElfImageLoad_loop addr_bits mem_start (zip (phdrs image) (loadable image)) gp mem.

End Reading.

(** ** What an accepted program looks like *)

(** Fields of a program header have their C types. *)
Record phdr_typed (p : Elf_Phdr) : Prop := {
  pt_vaddr : is_u64 (p_vaddr p);
  pt_filesz : is_u64 (p_filesz p);
  pt_memsz : is_u64 (p_memsz p);
  pt_offset : is_u64 (p_offset p);
}.

Lemma phdr_of_bytes_typed bs : phdr_typed (phdr_of_bytes bs).
Proof. split; simpl; apply (rd_bytes_range _ 8). Qed.

Lemma phdrs_of_bytes_typed n : forall bs, Forall phdr_typed (phdrs_of_bytes n bs).
Proof. induction n; intros bs; simpl; constructor; auto using phdr_of_bytes_typed. Qed.

(** A segment to be loaded: above the trampolines, below [max_vaddr]. *)
Definition seg_fits (php : Elf_Phdr) (max_vaddr : Z) : Prop :=
  NACL_TRAMPOLINE_END <= p_vaddr php /\ p_vaddr php + p_memsz php <= max_vaddr /\
  p_filesz php <= p_memsz php.

(** A section that is absent, or lies above the trampolines. *)
Definition section_ok (present : bool) (start stop max_vaddr : Z) : Prop :=
  if present then NACL_TRAMPOLINE_END <= start < stop /\ stop <= max_vaddr else start = 0.

Definition TEXT_IX : nat := 1.
Definition RODATA_IX : nat := 2.
Definition DATA_IX : nat := 3.

Record segs_inv (seen : list bool) (out : seg_layout) : Prop := {
  si_len : length seen = 12%nat;
  si_max : NACL_TRAMPOLINE_END <= sl_max_vaddr out < two32;
  si_text : seen !! TEXT_IX = Some true ->
            NACL_TRAMPOLINE_END <= sl_static_text_end out <= sl_max_vaddr out;
  si_rodata : section_ok (default false (seen !! RODATA_IX)) (sl_rodata_start out) (sl_rodata_end out)
                (sl_max_vaddr out);
  si_data : section_ok (default false (seen !! DATA_IX)) (sl_data_start out) (sl_data_end out)
              (sl_max_vaddr out);
}.

Lemma find_check_cases php j c :
  find_check php 0 nacl_phdr_check_data = Some (j, c) ->
  (j = TEXT_IX /\ ck_action c = PCA_TEXT_CHECK /\ ck_vaddr c = NACL_TRAMPOLINE_END) \/
  (j = RODATA_IX /\ ck_action c = PCA_RODATA) \/ (j = DATA_IX /\ ck_action c = PCA_DATA) \/
  (j <> TEXT_IX /\ j <> RODATA_IX /\ j <> DATA_IX /\ (j < 12)%nat /\
   (ck_action c = PCA_IGNORE \/ ck_action c = PCA_NONE)).
Proof.
  unfold nacl_phdr_check_data, TEXT_IX, RODATA_IX, DATA_IX. cbn [find_check].
  repeat (case_match; [intros [= <- <-]; cbn;
    first [ left; by split_and! | right; left; by split_and! | right; right; left; by split_and!
          | right; right; right; split_and!; [done|done|done|lia|first [by left|by right]] ]|]).
  done.
Qed.

Lemma section_ok_grow b start stop m m' : section_ok b start stop m -> m <= m' -> section_ok b start stop m'.
Proof. unfold section_ok. destruct b; lia. Qed.

(** Raising [max_vaddr] and marking a table entry that is no section. *)
Lemma segs_inv_grow seen out m j :
  segs_inv seen out -> sl_max_vaddr out <= m < two32 ->
  j <> TEXT_IX -> j <> RODATA_IX -> j <> DATA_IX ->
  segs_inv (<[j := true]> seen) (out <| sl_max_vaddr := m |>).
Proof.
  intros [Hl Hm Ht Hr Hd] Hle H1 H2 H3. split; simpl.
  - by rewrite length_insert.
  - lia.
  - rewrite list_lookup_insert_ne by done. intros Hs. specialize (Ht Hs). lia.
  - rewrite list_lookup_insert_ne by done. eapply section_ok_grow; [done|lia].
  - rewrite list_lookup_insert_ne by done. eapply section_ok_grow; [done|lia].
Qed.

Lemma max_update out e :
  (if sl_max_vaddr out <? e then out <| sl_max_vaddr := e |> else out) =
  out <| sl_max_vaddr := Z.max (sl_max_vaddr out) e |>.
Proof.
  destruct (_ <? e) eqn:Hlt; zbool; [by rewrite Z.max_r by lia|]. rewrite Z.max_l by lia. by destruct out.
Qed.

Lemma Validate_phdr_spec php seen out seen' ld out' :
  phdr_typed php -> segs_inv seen out ->
  Validate_phdr 32 php seen out = inr (seen', ld, out') ->
  segs_inv seen' out' /\ sl_max_vaddr out <= sl_max_vaddr out' /\
  (ld = true -> seg_fits php (sl_max_vaddr out')) /\
  (seen !! TEXT_IX = Some true -> seen' !! TEXT_IX = Some true).
Proof.
  intros [Hv Hf Hz _] Hinv. unfold Validate_phdr.
  destruct (0 =? p_memsz php) eqn:H0; zbool; [intros [= <- <- <-]; by split_and!|].
  destruct (find_check _ _ _) as [[j c]|] eqn:Hfind; [|done].
  destruct (default false (seen !! j)) eqn:Hseen; [done|].
  pose proof (find_check_cases _ _ _ Hfind) as Hcases. pose proof (si_len _ _ Hinv) as Hlen.
  assert (Hkeep : seen !! TEXT_IX = Some true -> <[j:=true]> seen !! TEXT_IX = Some true).
  { intros Hs. destruct (decide (j = TEXT_IX)) as [->|]; [by rewrite Hs in Hseen|].
    by rewrite list_lookup_insert_ne. }
  case_bool_decide as Hig.
  { intros [= <- <- <-]. split_and!; try done.
    assert (Hneq : j <> TEXT_IX /\ j <> RODATA_IX /\ j <> DATA_IX) by naive_solver congruence.
    destruct Hneq as (? & ? & ?). pose proof (si_max _ _ Hinv).
    replace out with (out <| sl_max_vaddr := sl_max_vaddr out |>) by (by destruct out).
    apply segs_inv_grow; done || lia. }
  destruct (negb (0 =? ck_vaddr c) && _) eqn:Hloc; [done|].
  destruct (p_vaddr php <? NACL_TRAMPOLINE_END) eqn:Hlow; [done|].
  destruct (u64 _ <? p_vaddr php) eqn:Hov; [done|].
  destruct (u64 (Z.shiftl 1 32) <=? _) eqn:Hhi; [done|].
  destruct (p_memsz php <? p_filesz php) eqn:Hsz; [done|]. zbool.
  change (u64 (Z.shiftl 1 32)) with two32 in Hhi.
  assert (Hend : u64 (p_vaddr php + p_memsz php) = p_vaddr php + p_memsz php).
  { destruct (decide (p_vaddr php + p_memsz php < two64)) as [Hs|Hs]; [apply u64_small; zlia|exfalso].
    revert Hov. unfold u64. rewrite <- (Z_mod_plus_full _ (-1) two64), Z.mod_small; zlia. }
  rewrite max_update, Hend. rewrite Hend in *. set (e := p_vaddr php + p_memsz php) in *.
  set (m := Z.max (sl_max_vaddr out) e). pose proof Hinv as [_ Hm Ht Hr Hd].
  assert (Hfits : seg_fits php m) by (unfold seg_fits; fold e; lia).
  assert (Hlt : (j < length seen)%nat) by (rewrite Hlen; unfold TEXT_IX, RODATA_IX, DATA_IX in *; lia).
  destruct Hcases as [(-> & Ha & Hvt)|[(-> & Ha)|[(-> & Ha)|(H1 & H2 & H3 & _ & [Ha|Ha])]]];
    rewrite Ha; cbn [apply_action]; try (intros [= <- <- <-]).
  - replace (0 =? p_memsz php) with false by (symmetry; apply Z.eqb_neq; lia). intros [= <- <- <-].
    assert (Hva : p_vaddr php = NACL_TRAMPOLINE_END).
    { rewrite Hvt in Hloc. change (negb (0 =? NACL_TRAMPOLINE_END)) with true in Hloc.
      rewrite andb_true_l in Hloc. zbool. done. }
    rewrite (u64_small (NACL_TRAMPOLINE_END + _)) by zlia.
    split_and!; try done; [|simpl; lia]. split; simpl.
    + by rewrite length_insert.
    + lia.
    + intros _. unfold m, e. unfold is_u64 in *. lia.
    + rewrite list_lookup_insert_ne by done. eapply section_ok_grow; [done|lia].
    + rewrite list_lookup_insert_ne by done. eapply section_ok_grow; [done|lia].
  - split_and!; try done; [|simpl; lia]. split; simpl.
    + by rewrite length_insert.
    + lia.
    + rewrite list_lookup_insert_ne by done. intros Hs. specialize (Ht Hs). lia.
    + rewrite list_lookup_insert_eq by done. simpl. fold e. rewrite Hend. unfold m, e. unfold is_u64 in *. lia.
    + rewrite list_lookup_insert_ne by done. eapply section_ok_grow; [done|lia].
  - split_and!; try done; [|simpl; lia]. split; simpl.
    + by rewrite length_insert.
    + lia.
    + rewrite list_lookup_insert_ne by done. intros Hs. specialize (Ht Hs). lia.
    + rewrite list_lookup_insert_ne by done. eapply section_ok_grow; [done|lia].
    + rewrite list_lookup_insert_eq by done. simpl. fold e. rewrite Hend. unfold m, e. unfold is_u64 in *. lia.
  - congruence.
  - split_and!; try done; [|simpl; lia]. apply segs_inv_grow; done || lia.
Qed.

Lemma Validate_loop_spec phs : forall seen out seen' lds out',
  Forall phdr_typed phs -> segs_inv seen out ->
  Validate_loop 32 phs seen out = inr (seen', lds, out') ->
  segs_inv seen' out' /\ sl_max_vaddr out <= sl_max_vaddr out' /\
  Forall2 (fun php ld => ld = true -> seg_fits php (sl_max_vaddr out')) phs lds.
Proof.
  induction phs as [|php phs IH]; intros seen out seen' lds out' Hty Hinv; simpl.
  { intros [= <- <- <-]. split_and!; [done|lia|constructor]. }
  inversion Hty as [|?? Ht Hts]; subst.
  destruct (Validate_phdr _ _ _ _) as [e|[[seen1 ld] out1]] eqn:H1; [done|].
  destruct (Validate_phdr_spec _ _ _ _ _ _ Ht Hinv H1) as (Hinv1 & Hm1 & Hfit & _).
  destruct (Validate_loop _ _ _ _) as [e|[[seen2 lds2] out2]] eqn:H2; [done|].
  destruct (IH _ _ _ _ _ Hts Hinv1 H2) as (Hinv2 & Hm2 & Hf2).
  intros [= <- <- <-]. split_and!; [done|lia|]. constructor; [|done].
  intros Hld. specialize (Hfit Hld). unfold seg_fits in *. lia.
Qed.

(** A program whose headers were accepted. *)
Record program_ok (image : NaClElfImage) (out : seg_layout) : Prop := {
  po_max : NACL_TRAMPOLINE_END <= sl_max_vaddr out < two32;
  po_text : NACL_TRAMPOLINE_END <= sl_static_text_end out <= sl_max_vaddr out;
  po_rodata : sl_rodata_start out = 0 \/
    NACL_TRAMPOLINE_END <= sl_rodata_start out < sl_rodata_end out /\ sl_rodata_end out <= sl_max_vaddr out;
  po_data : sl_data_start out = 0 \/
    NACL_TRAMPOLINE_END <= sl_data_start out < sl_data_end out /\ sl_data_end out <= sl_max_vaddr out;
  po_segments : Forall2 (fun php ld => ld = true -> seg_fits php (sl_max_vaddr out))
                  (phdrs image) (loadable image);
}.

Lemma required_text seen : length seen = 12%nat -> required_seen seen = true -> seen !! TEXT_IX = Some true.
Proof.
  intros Hl. destruct seen as [|a [|b l]]; simpl in Hl; [lia|lia|]. unfold required_seen. simpl.
  rewrite andb_true_iff. intros [-> _]. done.
Qed.

Lemma ProgramHeaders_spec image out image' out' :
  Forall phdr_typed (phdrs image) -> sl_rodata_start out = 0 -> sl_data_start out = 0 ->
  NaClElfImageValidateProgramHeaders image 32 out = inr (image', out') ->
  program_ok image' out' /\ phdrs image' = phdrs image /\ ehdr image' = ehdr image.
Proof.
  intros Hty Hr Hd. unfold NaClElfImageValidateProgramHeaders.
  destruct (Validate_loop _ _ _ _) as [e|[[seen lds] out1]] eqn:Hloop; [done|].
  apply Validate_loop_spec in Hloop as (Hinv & _ & Hf); [|done|].
  2: { split; simpl; try done; try lia. }
  destruct (required_seen seen) eqn:Hreq; [|done]. intros [= <- <-].
  destruct Hinv as [Hl Hm Ht Hro Hda]. split; [|done]. split; simpl; try done.
  - by apply Ht, required_text.
  - unfold section_ok in Hro. case_match; [by right|by left].
  - unfold section_ok in Hda. case_match; [by right|by left].
Qed.

Lemma program_segments image out :
  program_ok image out -> Forall phdr_typed (phdrs image) ->
  Forall (fun s => phdr_typed s.1 /\ (s.2 = true -> seg_fits s.1 (sl_max_vaddr out))) (zip (phdrs image) (loadable image)).
Proof.
  intros [_ _ _ _ Hs] Hty. induction Hs as [|php ld phs lds Hf _ IH]; simpl; [constructor|]. inversion Hty; subst.
  constructor; [done|]. by apply IH.
Qed.

(** ** Loading *)

Section Loading.
Context {G : Type} `{Gio G} `{!GioLaws G}.

(** Loading a segment that fits never aborts, keeps the file object well
    formed and writes only inside the segment. *)
Lemma Load_segment_spec mem_start php ld gp mem max_vaddr :
  gio_ok gp -> phdr_typed php -> (ld = true -> seg_fits php max_vaddr) -> max_vaddr < two32 ->
  0 <= mem_start -> mem_start + two32 < two64 ->
  exists gp' r, ElfImageLoad_segment 32 mem_start php ld gp mem = mret (gp', r) /\ gio_ok gp' /\
    match r with
    | inl e => e = LOAD_SEGMENT_BAD_PARAM
    | inr mem' => forall x, x < mem_start + NACL_TRAMPOLINE_END \/ mem_start + max_vaddr <= x -> mem' x = mem x
    end.
Proof.
  intros Hg [Hv Hf Hz _] Hfit Hmax Hms Hme. unfold ElfImageLoad_segment.
  destruct ld; cbn [negb]; [|eexists _, _; by split_and!].
  destruct (Hfit eq_refl) as (Hlo & Hhi & Hle).
  destruct (0 =? p_filesz php) eqn:H0; zbool; [eexists _, _; by split_and!|].
  assert (Hte : 0 < NACL_TRAMPOLINE_END) by done.
  rewrite (u64_small (p_vaddr php + p_filesz php)) by zlia.
  replace (p_vaddr php + p_filesz php <? p_vaddr php) with false by (symmetry; apply Z.ltb_ge; zlia).
  change (u64 (Z.shiftl 1 32)) with two32.
  replace (two32 <=? p_vaddr php + p_filesz php) with false by (symmetry; apply Z.leb_gt; zlia).
  destruct (gio_Seek gp _ SEEK_SET) as [gp1 r1] eqn:Hseek. pose proof (gio_Seek_law _ _ _ _ _ Hg Hseek) as Hg1.
  destruct (r1 =? -1) eqn:Hr1; [eexists _, _; by split_and!|].
  destruct (gio_Read gp1 (p_filesz php)) as [[gp2 n] bs] eqn:Hread.
  destruct (gio_Read_law gp1 (p_filesz php) gp2 n bs Hg1 ltac:(zlia) Hread) as [Hg2 Hn].
  destruct (u32 n =? p_filesz php) eqn:Hn2; cbn [negb]; [|eexists _, _; by split_and!].
  eexists _, _. split_and!; [done|done|]. intros x Hx. rewrite (u64_small (mem_start + _)) by zlia.
  apply mem_write_out. destruct Hn as [[_ ->]|[Hr <-]]; simpl; zlia.
Qed.

Lemma Load_loop_spec mem_start max_vaddr segs : forall gp mem,
  gio_ok gp -> Forall (fun s => phdr_typed s.1 /\ (s.2 = true -> seg_fits s.1 max_vaddr)) segs ->
  max_vaddr < two32 -> 0 <= mem_start -> mem_start + two32 < two64 ->
  exists gp' r, ElfImageLoad_loop 32 mem_start segs gp mem = mret (gp', r) /\ gio_ok gp' /\
    match r with
    | inl e => e = LOAD_SEGMENT_BAD_PARAM
    | inr mem' => forall x, x < mem_start + NACL_TRAMPOLINE_END \/ mem_start + max_vaddr <= x -> mem' x = mem x
    end.
Proof.
  induction segs as [|[php ld] segs IH]; intros gp mem Hg Hs Hmax Hms Hme; simpl.
  { eexists _, _. by split_and!. }
  inversion Hs as [|?? [Hty Hfit] Hs']; subst.
  destruct (Load_segment_spec mem_start php ld gp mem max_vaddr) as (gp1 & r1 & -> & Hg1 & Hr1); try done.
  rewrite M_bind_ret_l. destruct r1 as [e|mem1]; [eexists _, _; by split_and!|].
  destruct (IH gp1 mem1) as (gp2 & r2 & -> & Hg2 & Hr2); try done.
  eexists _, _. split_and!; [done|done|]. destruct r2 as [e|mem2]; [done|].
  intros x Hx. by rewrite Hr2, Hr1.
Qed.

Lemma ElfImageLoad_spec image out gp mem_start mem :
  gio_ok gp -> program_ok image out -> Forall phdr_typed (phdrs image) ->
  0 <= mem_start -> mem_start + two32 < two64 ->
  exists gp' r, NaClElfImageLoad image gp 32 mem_start mem = mret (gp', r) /\ gio_ok gp' /\
    match r with
    | inl e => e = LOAD_SEGMENT_BAD_PARAM
    | inr mem' => forall x, x < mem_start + NACL_TRAMPOLINE_END \/
                            mem_start + sl_max_vaddr out <= x -> mem' x = mem x
    end.
Proof.
  intros Hg Hok Hty Hms Hme. apply Load_loop_spec; try done; [by apply program_segments|].
  apply (po_max _ _ Hok).
Qed.
End Loading.

(** ** What a memory file puts in memory *)

(** The bytes of the file image that land in memory. *)
Definition covers_addr (php : Elf_Phdr) (a : Z) : Prop := p_vaddr php <= a < p_vaddr php + p_filesz php.

Definition file_byte (buf : list Z) (php : Elf_Phdr) (a : Z) : option Z :=
  buf !! Z.to_nat (p_offset php + (a - p_vaddr php)).

Lemma i64_range z : is_i64 (i64 z).
Proof. unfold i64, u64, is_i64. pose proof (Z.mod_pos_bound z two64 ltac:(done)). case_match; zbool; zlia. Qed.

(** One segment: its bytes of the file appear at its address, the rest of the
    memory stays. *)
Lemma Load_segment_contents mem_start php ld gp mem max_vaddr gp' mem' :
  gio_inv gp -> phdr_typed php -> (ld = true -> seg_fits php max_vaddr) ->
  max_vaddr < two32 -> 0 <= mem_start -> mem_start + two32 < two64 ->
  ElfImageLoad_segment 32 mem_start php ld gp mem = mret (gp', inr mem') ->
  gio_inv gp' /\ gm_buffer gp' = gm_buffer gp /\
  (forall a, ld = true -> covers_addr php a -> file_byte (gm_buffer gp) php a = Some (mem' (mem_start + a))) /\
  (forall a, ~ (ld = true /\ covers_addr php a) -> mem' (mem_start + a) = mem (mem_start + a)).
Proof.
  intros Hg [Hv Hf Hz Ho] Hfit Hmax Hms Hme. unfold ElfImageLoad_segment, covers_addr.
  destruct ld; cbn [negb]; [|intros [= <- <-]; by split_and!].
  destruct (Hfit eq_refl) as (Hlo & Hhi & Hle). change NACL_TRAMPOLINE_END with 131072 in *.
  destruct (0 =? p_filesz php) eqn:H0; zbool; [intros [= <- <-]; split_and!; done || lia|].
  rewrite (u64_small (p_vaddr php + p_filesz php)) by zlia.
  replace (p_vaddr php + p_filesz php <? p_vaddr php) with false by (symmetry; apply Z.ltb_ge; zlia).
  change (u64 (Z.shiftl 1 32)) with two32.
  replace (two32 <=? p_vaddr php + p_filesz php) with false by (symmetry; apply Z.leb_gt; zlia).
  cbn [gio_Seek gio_Read GioMemoryFile_Gio]. rewrite MemSeek_spec by (done || apply i64_range).
  case_decide as Hd; [|done]. destruct (_ =? -1) eqn:Hm1; zbool; [done|].
  assert (Hoff : i64 (p_offset php) = p_offset php).
  { unfold i64 in *. rewrite u64_small in * by exact Ho. case_match; zbool; [done|]. zlia. }
  rewrite Hoff in *. set (g1 := gp <| gm_curpos := p_offset php |>).
  assert (Hg1 : gio_inv g1) by (destruct Hg; split; simpl; done || lia).
  destruct (MemRead_spec g1 (p_filesz php) Hg1) as [-> Hg2]; [zlia|].
  remember (Z.min (p_filesz php) (gm_len g1 - gm_curpos g1)) as n eqn:Hmin.
  change (gm_len g1 - gm_curpos g1) with (gm_len gp - p_offset php) in Hmin.
  destruct (u32 n =? p_filesz php) eqn:Hn; zbool; cbn [negb]; [|done].
  intros [= <- <-]. split; [done|]. split; [done|]. destruct Hg as [Hl Hs Hp]. unfold is_u64 in *.
  assert (Hnn : 0 <= n) by lia. assert (n = p_filesz php) as Hnf.
  { assert (n < two32) by lia. by rewrite u32_small in Hn by lia. }
  rewrite (u64_small (mem_start + _)) by zlia. split.
  - intros a _ Ha. unfold file_byte. simpl.
    replace (mem_start + a) with (mem_start + p_vaddr php + Z.of_nat (Z.to_nat (a - p_vaddr php))) by lia.
    assert (Hlk : is_Some (gm_buffer gp !! Z.to_nat (p_offset php + (a - p_vaddr php)))) by (apply lookup_lt_is_Some; lia).
    destruct Hlk as [b Hb]. rewrite Hb. f_equal. symmetry. apply mem_write_in.
    rewrite lookup_take_lt, lookup_drop by lia. rewrite <- Hb. f_equal. lia.
  - intros a Ha. apply mem_write_out. rewrite length_take, length_drop. simpl.
    destruct (decide (a < p_vaddr php)); [left; lia|right; lia].
Qed.

Lemma Load_loop_contents mem_start max_vaddr segs : forall gp mem gp' mem',
  gio_inv gp ->
  Forall (fun s => phdr_typed s.1 /\ (s.2 = true -> seg_fits s.1 max_vaddr)) segs ->
  max_vaddr < two32 -> 0 <= mem_start -> mem_start + two32 < two64 ->
  ElfImageLoad_loop 32 mem_start segs gp mem = mret (gp', inr mem') ->
  (forall i php a, segs !! i = Some (php, true) -> covers_addr php a ->
     (forall j q, (i < j)%nat -> segs !! j = Some (q, true) -> ~ covers_addr q a) ->
     file_byte (gm_buffer gp) php a = Some (mem' (mem_start + a))) /\
  (forall a, (forall i php, segs !! i = Some (php, true) -> ~ covers_addr php a) ->
     mem' (mem_start + a) = mem (mem_start + a)).
Proof.
  induction segs as [|[php ld] segs IH]; intros gp mem gp' mem' Hg Hs Hmax Hms Hme; simpl.
  { intros [= <- <-]. by split. }
  inversion Hs as [|?? [Hty Hfit] Hs']; subst. simpl in *.
  destruct (Load_segment_spec mem_start php ld gp mem max_vaddr) as (gp1 & r1 & Hseg & Hg1 & _); try done.
  rewrite Hseg, M_bind_ret_l. destruct r1 as [e|mem1]; [done|]. intros Hloop.
  destruct (Load_segment_contents _ _ _ _ _ _ _ _ Hg Hty Hfit Hmax Hms Hme Hseg) as (_ & Hbuf & Hin & Hout).
  destruct (IH _ _ _ _ Hg1 Hs' Hmax Hms Hme Hloop) as [IHin IHout]. rewrite Hbuf in IHin. split.
  - intros [|i] q a Hi Ha Hlater; simpl in Hi.
    + injection Hi as -> ->. rewrite IHout; [by apply Hin|]. intros j q' Hj. apply (Hlater (S j)); [lia|done].
    + apply (IHin i); try done. intros j q' Hj Hq. apply (Hlater (S j)); [lia|done].
  - intros a Ha. rewrite IHout by (intros i q Hi; by apply (Ha (S i))).
    apply Hout. intros [-> Hc]. by apply (Ha 0%nat php).
Qed.

(** The memory after loading: every byte of a loaded segment that no later
    segment overwrites is that of the file, every other byte is as before. *)
Record image_in_memory (image : NaClElfImage) (buf : list Z) (mem_start : Z) (mem mem' : memory) : Prop := {
  im_bytes : forall i php a, phdrs image !! i = Some php -> loadable image !! i = Some true -> covers_addr php a ->
    (forall j q, (i < j)%nat -> phdrs image !! j = Some q -> loadable image !! j = Some true -> ~ covers_addr q a) ->
    file_byte buf php a = Some (mem' (mem_start + a));
  im_frame : forall a,
    (forall i php, phdrs image !! i = Some php -> loadable image !! i = Some true -> ~ covers_addr php a) ->
    mem' (mem_start + a) = mem (mem_start + a);
}.

Lemma ElfImageLoad_contents image out gp mem_start mem gp' mem' :
  gio_inv gp -> program_ok image out -> Forall phdr_typed (phdrs image) ->
  0 <= mem_start -> mem_start + two32 < two64 ->
  NaClElfImageLoad image gp 32 mem_start mem = mret (gp', inr mem') ->
  image_in_memory image (gm_buffer gp) mem_start mem mem'.
Proof.
  intros Hg Hok Hty Hms Hme Hrun.
  assert (Hz : forall i php, zip (phdrs image) (loadable image) !! i = Some (php, true) <->
    phdrs image !! i = Some php /\ loadable image !! i = Some true) by (intros; apply lookup_zip_Some).
  destruct (Load_loop_contents mem_start (sl_max_vaddr out) _ gp mem gp' mem' Hg (program_segments _ _ Hok Hty)
    (proj2 (po_max _ _ Hok)) Hms Hme Hrun) as [Hin Hout]. split.
  - intros i php a Hi Hl Ha Hlater. apply (Hin i); [by apply Hz|done|].
    intros j q Hj [? ?]%Hz. by apply (Hlater j).
  - intros a Ha. apply Hout. intros i php [? ?]%Hz. by apply (Ha i).
Qed.
