(* ===== verification/MemObj.v ===== *)
(** * Memory objects

    nacl_memory_object.c: how the pages of a mapping are backed by a
    descriptor.  A descriptor is named by its identity; the reference counts
    the code takes and drops appear as [DescRef] / [DescUnref] events. *)

From S2P Require Import Prelude Effects.

Record NaClMemObj := mkMemObj {
  ndp : Z;      (* the NaClDesc *)
  nbytes : Z;   (* nacl_off64_t *)
  offset : Z;   (* nacl_off64_t *)
}.

#[global] Instance NaClMemObj_eta : Updatable NaClMemObj :=
  fun o => mkMemObj (ndp o) (nbytes o) (offset o).

#[global] Instance NaClMemObj_eq_dec : EqDecision NaClMemObj.
Proof. solve_decision. Defined.

Definition sizeof_NaClMemObj : Z := 24.

Section MemObj.
Context `{Host}.

(** The [Ctor] of the code fills a malloc'd object; here it returns it.
    [None] is a NULL [NaClDesc]. *)
Definition NaClMemObjCtor (ndp : option Z) (nbytes offset : Z) : M NaClMemObj :=
  match ndp with
  | None => fail (LogFatal "NaClMemObjCtor: ndp is NULL")
  | Some d => _ ← emit (DescRef d); mret (mkMemObj d nbytes offset)
  end.

Definition NaClMemObjCopyCtorOff (src : NaClMemObj) (additional : Z) : M NaClMemObj :=
  _ ← emit (DescRef (ndp src));
  mret (mkMemObj (ndp src) (nbytes src) (i64 (offset src + additional))).

Definition NaClMemObjDtor (nmop : NaClMemObj) : M unit := emit (DescUnref (ndp nmop)).

Definition NaClMemObjSafeDtor (nmop : option NaClMemObj) : M unit :=
  match nmop with
  | None => mret tt
  | Some o => NaClMemObjDtor o
  end.

Definition NaClMemObjMake (ndp : option Z) (nbytes offset : Z) : M (option NaClMemObj) :=
  match ndp with
  | None => mret None
  | Some d =>
      if malloc_ok sizeof_NaClMemObj then
        o ← NaClMemObjCtor (Some d) nbytes offset; mret (Some o)
      else fail (LogFatal "NaClMemObjMake: out of memory creating object")
  end.

Definition NaClMemObjSplit (orig : option NaClMemObj) (additional : Z)
  : M (option NaClMemObj) :=
  match orig with
  | None => mret None
  | Some o =>
      if malloc_ok sizeof_NaClMemObj then
        o' ← NaClMemObjCopyCtorOff o additional; mret (Some o')
      else fail (LogFatal "NaClMemObjSplit: out of memory creating object")
  end.

Definition NaClMemObjIncOffset (nmop : option NaClMemObj) (additional : Z)
  : option NaClMemObj :=
  match nmop with
  | None => None
  | Some o => Some (o <| offset := i64 (offset o + additional) |>)
  end.

End MemObj.
