(* ===== verification/Vmmap.v ===== *)
(** * The memory map of an untrusted program: sel_mem.c

    [NaClVmmap] is the array of pointers to regions that the runtime keeps for
    the 4 GB address space of the untrusted program.  A slot of the array is
    [Some e] for a pointer to the entry [e] and [None] for NULL; slots at and
    above [nvalid] hold no live entry.  Entries are reached through one slot
    only, so an assignment through the entry pointer is a write to its slot.

    Indices and the array size are [nat]; page numbers are 64-bit words. *)

From S2P Require Import Prelude Effects Rounding MemObj.

(** ** Data *)

Record NaClVmmapEntry := mkVmmapEntry {
  page_num : Z;               (* base virtual address >> NACL_PAGESHIFT *)
  npages : Z;                 (* number of pages *)
  prot : Z;                   (* mprotect attribute *)
  nmop : option NaClMemObj;   (* how to get memory for move/remap *)
  removed : bool;             (* flag set in NaClVmmapUpdate *)
}.

#[global] Instance NaClVmmapEntry_eta : Updatable NaClVmmapEntry :=
  fun e => mkVmmapEntry (page_num e) (npages e) (prot e) (nmop e) (removed e).

#[global] Instance NaClVmmapEntry_eq_dec : EqDecision NaClVmmapEntry.
Proof. solve_decision. Defined.

Record NaClVmmap := mkVmmap {
  vmentry : list (option NaClVmmapEntry);
  nvalid : nat;
  vmsize : nat;               (* [size] in the source *)
  is_sorted : bool;
}.

#[global] Instance NaClVmmap_eta : Updatable NaClVmmap :=
  fun m => mkVmmap (vmentry m) (nvalid m) (vmsize m) (is_sorted m).

Definition START_ENTRIES : nat := 5.
Definition sizeof_NaClVmmapEntry : Z := 40.
Definition sizeof_ptr : Z := 8.

(** ** The C library's qsort and bsearch *)

Section Sorting.
Context {A : Type} (cmp : A -> A -> Z).

Fixpoint insert_by (x : A) (l : list A) : list A :=
  match l with
  | [] => [x]
  | y :: l' => if cmp x y <=? 0 then x :: l else y :: insert_by x l'
  end.

Fixpoint qsort (l : list A) : list A :=
  match l with
  | [] => []
  | x :: l' => insert_by x (qsort l')
  end.
End Sorting.

(** [probe e] is the comparison of the key with element [e]. *)
Fixpoint bsearch_loop {A} (fuel : nat) (probe : A -> Z) (arr : list (option A))
    (l u : nat) : M (option nat) :=
  if (l <? u)%nat then
    match fuel with
    | O => fail OutOfFuel
    | S fuel' =>
        let idx := ((l + u) / 2)%nat in
        e ← deref arr idx;
        if probe e <? 0 then bsearch_loop fuel' probe arr l idx
        else if 0 <? probe e then bsearch_loop fuel' probe arr (S idx) u
        else mret (Some idx)
    end
  else mret None.

Definition bsearch {A} (probe : A -> Z) (arr : list (option A)) (nmemb : nat)
  : M (option nat) := bsearch_loop nmemb probe arr 0 nmemb.

Section Vmmap.
Context `{Host}.

(** ** Construction and destruction *)

(** NULL when the allocation fails. *)
Definition NaClVmmapEntryMake (pnum npg prt : Z) (mop : option NaClMemObj)
  : option NaClVmmapEntry :=
  if malloc_ok sizeof_NaClVmmapEntry then Some (mkVmmapEntry pnum npg prt mop false)
  else None.

Definition NaClVmmapEntryFree (entry : NaClVmmapEntry) : M unit :=
  NaClMemObjSafeDtor (nmop entry).

(** [None] is the failure return 0. *)
Definition NaClVmmapCtor : option NaClVmmap :=
  if (two64 - 1) / sizeof_ptr <? Z.of_nat START_ENTRIES then None
  else if malloc_ok (Z.of_nat START_ENTRIES * sizeof_ptr) then
    Some (mkVmmap (replicate START_ENTRIES None) 0 START_ENTRIES true)
  else None.

Fixpoint NaClVmmapDtor_loop (n i : nat) (arr : list (option NaClVmmapEntry)) : M unit :=
  match n with
  | O => mret tt
  | S n' =>
      e ← deref arr i;
      _ ← NaClVmmapEntryFree e;
      NaClVmmapDtor_loop n' (S i) arr
  end.

Definition NaClVmmapDtor (self : NaClVmmap) : M NaClVmmap :=
  _ ← NaClVmmapDtor_loop (nvalid self) 0 (vmentry self);
  mret (self <| vmentry := [] |>).

(** ** Sorting and compaction *)

Definition NaClVmmapCmpEntries (left right : NaClVmmapEntry) : Z :=
  i32 (u64 (page_num left - page_num right)).

(** [for (last = nvalid; last > 0 && vmentry[--last]->removed; ) ...] *)
Fixpoint RemoveMarked_trim (arr : list (option NaClVmmapEntry)) (last : nat)
  : M (list (option NaClVmmapEntry) * nat) :=
  match last with
  | O => mret (arr, O)
  | S last' =>
      e ← deref arr last';
      if removed e then
        _ ← NaClVmmapEntryFree e;
        arr ← store arr last' None;
        RemoveMarked_trim arr last'
      else mret (arr, last')
  end.

(** [while (--last > i && vmentry[last]->removed) ...]; the argument is the
    value of [last] before the decrement. *)
Fixpoint RemoveMarked_back (arr : list (option NaClVmmapEntry)) (i last : nat)
  : M (list (option NaClVmmapEntry) * nat) :=
  match last with
  | O => fail OutOfBounds  (* [--last] would wrap; never reached, as i < last *)
  | S last' =>
      if (i <? last')%nat then
        e ← deref arr last';
        if removed e then
          _ ← NaClVmmapEntryFree e;
          arr ← store arr last' None;
          RemoveMarked_back arr i last'
        else mret (arr, last')
      else mret (arr, last')
  end.

(** [for (i = 0; i < last; ++i) ...] *)
Fixpoint RemoveMarked_front (fuel : nat) (arr : list (option NaClVmmapEntry)) (i last : nat)
  : M (list (option NaClVmmapEntry) * nat) :=
  if (i <? last)%nat then
    match fuel with
    | O => fail OutOfFuel
    | S fuel' =>
        e ← deref arr i;
        if negb (removed e) then RemoveMarked_front fuel' arr (S i) last
        else
          _ ← NaClVmmapEntryFree e;
          p ← load arr last;
          arr ← store arr i p;
          arr ← store arr last None;
          '(arr, last) ← RemoveMarked_back arr i last;
          RemoveMarked_front fuel' arr (S i) last
    end
  else mret (arr, last).

Definition NaClVmmapRemoveMarked (self : NaClVmmap) : M NaClVmmap :=
  if (nvalid self =? 0)%nat then mret self
  else
    '(arr, last) ← RemoveMarked_trim (vmentry self) (nvalid self);
    _ ← (if (last =? 0)%nat then
           e0 ← deref arr 0;
           if removed e0 then fail (LogFatal "No valid entries in VM map") else mret tt
         else mret tt);
    _ ← check (last <? nvalid self)%nat "last < self->nvalid";
    el ← deref arr last;
    _ ← check (negb (removed el)) "!self->vmentry[last]->removed";
    '(arr, last) ← RemoveMarked_front last arr 0 last;
    mret (self <| vmentry := arr |> <| nvalid := S last |> <| is_sorted := false |>).

(** The live pointers of the array, followed in index order. *)
Fixpoint deref_all {A} (l : list (option A)) : M (list A) :=
  match l with
  | [] => mret []
  | None :: _ => fail NullDeref
  | Some e :: l' => es ← deref_all l'; mret (e :: es)
  end.

Definition NaClVmmapMakeSorted (self : NaClVmmap) : M NaClVmmap :=
  if is_sorted self then mret self
  else
    self ← NaClVmmapRemoveMarked self;
    es ← deref_all (take (nvalid self) (vmentry self));
    let sorted := Some <$> qsort NaClVmmapCmpEntries es in
    mret (self <| vmentry := sorted ++ drop (nvalid self) (vmentry self) |>
               <| is_sorted := true |>).

(** ** Updates *)

(** The flag is the return value: 0 when the array cannot be grown. *)
Definition NaClVmmapAdd (self : NaClVmmap) (pnum npg prt : Z) (mop : option NaClMemObj)
  : M (bool * NaClVmmap) :=
  let grown :=
    if (nvalid self =? vmsize self)%nat then
      let new_size := (2 * vmsize self)%nat in
      if malloc_ok (u64 (Z.of_nat new_size * sizeof_ptr)) then
        Some (self <| vmentry := vmentry self ++ replicate (new_size - vmsize self) None |>
                   <| vmsize := new_size |>)
      else None
    else Some self in
  match grown with
  | None => mret (false, self)
  | Some self =>
      arr ← store (vmentry self) (nvalid self) (NaClVmmapEntryMake pnum npg prt mop);
      mret (true, self <| vmentry := arr |> <| is_sorted := false |>
                       <| nvalid := S (nvalid self) |>)
  end.

(** The loop of NaClVmmapUpdate from index [i], [n] entries to go; it only
    changes [nvalid] right before the [break] of the first branch. *)
Fixpoint NaClVmmapUpdate_loop (n i : nat) (self : NaClVmmap) (pnum new_region_end_page : Z)
  : M NaClVmmap :=
  match n with
  | O => mret self
  | S n' =>
      ent ← deref (vmentry self) i;
      let ent_end_page := u64 (page_num ent + npages ent) in
      let additional_offset :=
        i64 (u64 (Z.shiftl (u64 (new_region_end_page - page_num ent)) NACL_PAGESHIFT)) in
      let write self ent' := arr ← store (vmentry self) i (Some ent');
                             mret (self <| vmentry := arr |>) in
      if (page_num ent <? pnum) && (new_region_end_page <? ent_end_page) then
        mop ← NaClMemObjSplit (nmop ent) additional_offset;
        '(ok, self) ← NaClVmmapAdd self new_region_end_page
                        (u64 (ent_end_page - new_region_end_page)) (prot ent) mop;
        if (ok : bool) then write self (ent <| npages := u64 (pnum - page_num ent) |>)
        else fail (LogFatal "NaClVmmapUpdate: could not split entry")
      else if (page_num ent <? pnum) && (pnum <? ent_end_page) then
        self ← write self (ent <| npages := u64 (pnum - page_num ent) |>);
        NaClVmmapUpdate_loop n' (S i) self pnum new_region_end_page
      else if (page_num ent <? new_region_end_page) && (new_region_end_page <? ent_end_page) then
        write self (ent <| nmop := NaClMemObjIncOffset (nmop ent) additional_offset |>
                        <| page_num := new_region_end_page |>
                        <| npages := u64 (ent_end_page - new_region_end_page) |>)
      else if (pnum <=? page_num ent) && (ent_end_page <=? new_region_end_page) then
        self ← write self (ent <| removed := true |>);
        NaClVmmapUpdate_loop n' (S i) self pnum new_region_end_page
      else
        _ ← check ((new_region_end_page <=? page_num ent) || (ent_end_page <=? pnum))
              "new_region_end_page <= ent->page_num || ent_end_page <= page_num";
        NaClVmmapUpdate_loop n' (S i) self pnum new_region_end_page
  end.

Definition NaClVmmapUpdate (self : NaClVmmap) (pnum npg prt : Z) (mop : option NaClMemObj)
    (remove : bool) : M NaClVmmap :=
  let new_region_end_page := u64 (pnum + npg) in
  self ← NaClVmmapMakeSorted self;
  _ ← check (0 <? npg) "npages > 0";
  self ← NaClVmmapUpdate_loop (nvalid self) 0 self pnum new_region_end_page;
  self ← (if remove then mret self
          else '(ok, self) ← NaClVmmapAdd self pnum npg prt mop;
               if (ok : bool) then mret self
               else fail (LogFatal "NaClVmmapUpdate: could not add entry"));
  NaClVmmapRemoveMarked self.

(** ** Queries; each one sorts the map first *)

Definition NaClVmmapContainCmpEntries (key : Z) (ent : NaClVmmapEntry) : Z :=
  if key <? page_num ent then -1
  else if key <? u64 (page_num ent + npages ent) then 0
  else 1.

Definition NaClVmmapFindPage (self : NaClVmmap) (pnum : Z)
  : M (NaClVmmap * option NaClVmmapEntry) :=
  self ← NaClVmmapMakeSorted self;
  ix ← bsearch (NaClVmmapContainCmpEntries pnum) (vmentry self) (nvalid self);
  match ix with
  | Some ix => e ← deref (vmentry self) ix; mret (self, Some e)
  | None => mret (self, None)
  end.

(** An iterator is the index [entry_ix]; the map it points to is passed along. *)
Definition NaClVmmapFindPageIter (self : NaClVmmap) (pnum : Z) : M (NaClVmmap * nat) :=
  self ← NaClVmmapMakeSorted self;
  ix ← bsearch (NaClVmmapContainCmpEntries pnum) (vmentry self) (nvalid self);
  match ix with
  | Some ix => mret (self, ix)
  | None => mret (self, nvalid self)
  end.

Definition NaClVmmapIterAtEnd (self : NaClVmmap) (entry_ix : nat) : bool :=
  (nvalid self <=? entry_ix)%nat.

Definition NaClVmmapIterStar (self : NaClVmmap) (entry_ix : nat) : M NaClVmmapEntry :=
  deref (vmentry self) entry_ix.

Definition NaClVmmapIterIncr (entry_ix : nat) : nat := S entry_ix.

(** Erase frees the entry without running the memory object's destructor. *)
Definition NaClVmmapIterErase (self : NaClVmmap) (entry_ix : nat) : M NaClVmmap :=
  match nvalid self with
  | O => fail OutOfBounds
  | S nv =>
      p ← load (vmentry self) nv;
      arr ← store (vmentry self) entry_ix p;
      mret (self <| vmentry := arr |> <| nvalid := nv |> <| is_sorted := false |>)
  end.

Fixpoint NaClVmmapVisit_loop {S} (fn : S -> NaClVmmapEntry -> S) (n i : nat)
    (arr : list (option NaClVmmapEntry)) (state : S) : M S :=
  match n with
  | O => mret state
  | Datatypes.S n' =>
      e ← deref arr i;
      NaClVmmapVisit_loop fn n' (Datatypes.S i) arr (fn state e)
  end.

Definition NaClVmmapVisit {S} (self : NaClVmmap) (fn : S -> NaClVmmapEntry -> S) (state : S)
  : M (NaClVmmap * S) :=
  self ← NaClVmmapMakeSorted self;
  s ← NaClVmmapVisit_loop fn (nvalid self) 0 (vmentry self) state;
  mret (self, s).

(** ** Address space holes *)

(** [for (i = nvalid; --i > 0; )]: [i] here is the index after the decrement. *)
Fixpoint NaClVmmapFindSpace_loop (arr : list (option NaClVmmapEntry)) (i : nat) (num_pages : Z)
  : M Z :=
  match i with
  | O => mret 0
  | S j =>
      vmep ← deref arr j;
      let end_page := u64 (page_num vmep + npages vmep) in
      cur ← deref arr i;
      let start_page := page_num cur in
      if num_pages <=? u64 (start_page - end_page) then mret (u64 (start_page - num_pages))
      else NaClVmmapFindSpace_loop arr j num_pages
  end.

Definition NaClVmmapFindSpace (self : NaClVmmap) (num_pages : Z) : M (NaClVmmap * Z) :=
  if (nvalid self =? 0)%nat then mret (self, 0)
  else
    self ← NaClVmmapMakeSorted self;
    r ← NaClVmmapFindSpace_loop (vmentry self) (nvalid self - 1) num_pages;
    mret (self, r).

Fixpoint NaClVmmapFindMaxFreeSpace_loop (arr : list (option NaClVmmapEntry)) (i : nat)
    (num_pages : Z) : M Z :=
  match i with
  | O => mret 0
  | S j =>
      vmep ← deref arr j;
      let end_page := u64 (page_num vmep + npages vmep) in
      cur ← deref arr i;
      let start_page := page_num cur in
      if num_pages <=? u64 (start_page - end_page) then mret (u64 (start_page - end_page))
      else NaClVmmapFindMaxFreeSpace_loop arr j num_pages
  end.

Definition NaClVmmapFindMaxFreeSpace (self : NaClVmmap) (num_pages : Z) : M (NaClVmmap * Z) :=
  if (nvalid self =? 0)%nat then mret (self, 0)
  else
    self ← NaClVmmapMakeSorted self;
    r ← NaClVmmapFindMaxFreeSpace_loop (vmentry self) (nvalid self - 1) num_pages;
    mret (self, r).

Fixpoint NaClVmmapFindMapSpace_loop (arr : list (option NaClVmmapEntry)) (i : nat)
    (num_pages : Z) : M Z :=
  match i with
  | O => mret 0
  | S j =>
      vmep ← deref arr j;
      let end_page := NaClRoundPageNumUpToMapMultiple (u64 (page_num vmep + npages vmep)) in
      cur ← deref arr i;
      let start_page := NaClTruncPageNumDownToMapMultiple (page_num cur) in
      if start_page <=? end_page then NaClVmmapFindMapSpace_loop arr j num_pages
      else if num_pages <=? u64 (start_page - end_page) then
        mret (u64 (start_page - num_pages))
      else NaClVmmapFindMapSpace_loop arr j num_pages
  end.

Definition NaClVmmapFindMapSpace (self : NaClVmmap) (num_pages : Z) : M (NaClVmmap * Z) :=
  if (nvalid self =? 0)%nat then mret (self, 0)
  else
    self ← NaClVmmapMakeSorted self;
    let num_pages := NaClRoundPageNumUpToMapMultiple num_pages in
    r ← NaClVmmapFindMapSpace_loop (vmentry self) (nvalid self - 1) num_pages;
    mret (self, r).

(** [for (i = 1; i < nvalid; ++i)], [n] iterations to go. *)
Fixpoint NaClVmmapFindMapSpaceAboveHint_loop (arr : list (option NaClVmmapEntry))
    (n i : nat) (usr_page num_pages : Z) : M Z :=
  match n with
  | O => mret 0
  | S n' =>
      vmep ← deref arr (i - 1)%nat;
      let end_page := NaClRoundPageNumUpToMapMultiple (u64 (page_num vmep + npages vmep)) in
      cur ← deref arr i;
      let start_page := NaClTruncPageNumDownToMapMultiple (page_num cur) in
      if start_page <=? end_page then
        NaClVmmapFindMapSpaceAboveHint_loop arr n' (S i) usr_page num_pages
      else
        let end_page :=
          if (end_page <=? usr_page) && (usr_page <? start_page) then usr_page else end_page in
        if (usr_page <=? end_page) && (num_pages <=? u64 (start_page - end_page)) then
          mret end_page
        else NaClVmmapFindMapSpaceAboveHint_loop arr n' (S i) usr_page num_pages
  end.

Definition NaClVmmapFindMapSpaceAboveHint (self : NaClVmmap) (uaddr num_pages : Z)
  : M (NaClVmmap * Z) :=
  self ← NaClVmmapMakeSorted self;
  let usr_page := Z.shiftr uaddr NACL_PAGESHIFT in
  let num_pages := NaClRoundPageNumUpToMapMultiple num_pages in
  r ← NaClVmmapFindMapSpaceAboveHint_loop (vmentry self) (nvalid self - 1) 1 usr_page num_pages;
  mret (self, r).

End Vmmap.
