(* ===== verification/VmmapSpec.v ===== *)
(** * Abstract view of the memory map

    What the array of sel_mem.c stands for: a partial function from page
    numbers to protection and backing store.  The file defines that view on
    plain lists of entries, the separation invariant ("must not overlap"), and
    [carve], the effect of a new region on a sorted list of entries. *)

From S2P Require Import Prelude Effects Rounding MemObj Vmmap.

(** ** Entries as regions *)

Definition live (e : NaClVmmapEntry) : Prop := removed e = false.

#[global] Instance live_dec e : Decision (live e).
Proof. unfold live. apply _. Defined.

Definition end_page (e : NaClVmmapEntry) : Z := page_num e + npages e.

Definition covers (e : NaClVmmapEntry) (p : Z) : Prop := page_num e <= p < end_page e.

#[global] Instance covers_dec e p : Decision (covers e p).
Proof. unfold covers. apply _. Defined.

(** Page numbers stay below 2^31, so that the comparator of qsort, which
    truncates a difference to [int], orders them.  The address space has 2^20
    pages. *)
Definition PAGE_LIMIT : Z := two31.

Record wf_entry (e : NaClVmmapEntry) : Prop := {
  wf_start : 0 <= page_num e;
  wf_pages : 0 < npages e;
  wf_end : end_page e < PAGE_LIMIT;
}.

Definition before (e1 e2 : NaClVmmapEntry) : Prop := end_page e1 <= page_num e2.
Definition apart (e1 e2 : NaClVmmapEntry) : Prop := before e1 e2 \/ before e2 e1.

Definition separated (es : list NaClVmmapEntry) : Prop := ForallOrdPairs apart es.

(** ** The page function *)

(** A page of a mapping: its protection and, when a descriptor backs it, the
    descriptor, the size of the backing object and the offset of this page. *)
Record page_info := mkPage { pg_prot : Z; pg_backing : option (Z * Z * Z) }.

Definition info (e : NaClVmmapEntry) (p : Z) : page_info :=
  mkPage (prot e)
    ((fun o => (ndp o, nbytes o, i64 (offset o + (p - page_num e) * 4096))) <$> nmop e).

Fixpoint lookup_page (es : list NaClVmmapEntry) (p : Z) : option page_info :=
  match es with
  | [] => None
  | e :: es' => if decide (live e /\ covers e p) then Some (info e p) else lookup_page es' p
  end.

Definition same_pages (f g : Z -> option page_info) : Prop := forall p, f p = g p.

#[global] Instance same_pages_equiv : Equivalence same_pages.
Proof.
  split; unfold same_pages; [done|intros f g Hfg p; by rewrite Hfg|intros f g h Hfg Hgh p; by rewrite Hfg].
Qed.

(** What NaClVmmapUpdate promises: the region is replaced, the rest kept. *)
Definition override (f : Z -> option page_info) (lo hi : Z) (i : Z -> option page_info) (p : Z)
  : option page_info :=
  if decide (lo <= p < hi) then i p else f p.

(** ** Separation *)

Lemma apart_sym e1 e2 : apart e1 e2 -> apart e2 e1.
Proof. unfold apart. tauto. Qed.

Lemma ForallOrdPairs_Permutation {A} (R : A -> A -> Prop) l1 l2 :
  (forall x y, R x y -> R y x) -> l1 ≡ₚ l2 -> ForallOrdPairs R l1 -> ForallOrdPairs R l2.
Proof.
  intros Hsym. induction 1 as [|x l1 l2 Hp IH|x y l|l1 l2 l3 _ IH1 _ IH2]; intros Hf.
  - done.
  - inversion Hf as [|?? Hx Hl]; subst. constructor; [by rewrite <- Hp|auto].
  - inversion Hf as [|?? Hy Hl]; subst. inversion Hl as [|?? Hx Hl']; subst.
    inversion Hy; subst. repeat constructor; auto.
  - auto.
Qed.

#[global] Instance separated_proper : Proper ((≡ₚ) ==> iff) separated.
Proof.
  intros l1 l2 Hp. split; apply ForallOrdPairs_Permutation;
    first [by apply apart_sym | done | by symmetry].
Qed.

Lemma separated_cons e es : separated (e :: es) <-> Forall (apart e) es /\ separated es.
Proof.
  split.
  - inversion 1; by subst.
  - intros [??]. by constructor.
Qed.

Lemma StronglySorted_separated es : StronglySorted before es -> separated es.
Proof.
  induction 1 as [|e es Hs IH Hf]; constructor; [|done].
  eapply Forall_impl; [done|]. intros e' ?. by left.
Qed.

(** Membership reading of [lookup_page] on separated entries. *)
Lemma lookup_page_Some es p i :
  separated es ->
  lookup_page es p = Some i <->
  exists e, e ∈ es /\ live e /\ covers e p /\ i = info e p.
Proof.
  induction es as [|e es IH]; simpl; intros Hs.
  - split; [done|]. intros (e & He & _). by apply elem_of_nil in He.
  - apply separated_cons in Hs as [Ha Hs]. specialize (IH Hs). case_decide as Hc.
    + split.
      * intros [= <-]. exists e. rewrite elem_of_cons. tauto.
      * intros (e' & He' & Hl & Hcov & ->). f_equal. apply elem_of_cons in He' as [->|He']; [done|].
        rewrite Forall_forall in Ha. specialize (Ha e' He').
        unfold apart, before, covers in *. lia.
    + rewrite IH. split.
      * intros (e' & He' & ?). exists e'. rewrite elem_of_cons. tauto.
      * intros (e' & He' & Hl & Hcov & ->). exists e'. apply elem_of_cons in He' as [->|He'];
          [by destruct Hc|done].
Qed.

Lemma lookup_page_None es p :
  lookup_page es p = None <-> forall e, e ∈ es -> live e -> ~ covers e p.
Proof.
  induction es as [|e es IH]; simpl.
  - split; [|done]. intros _ e He. by apply elem_of_nil in He.
  - case_decide as Hc.
    + split; [done|]. intros Hn. exfalso. apply (Hn e); [by left|tauto|tauto].
    + rewrite IH. split.
      * intros Hn e' He' Hl Hcov. apply elem_of_cons in He' as [->|He']; [tauto|].
        by apply (Hn e').
      * intros Hn e' He'. apply Hn. by right.
Qed.

Lemma lookup_page_perm es1 es2 p :
  separated es1 -> es1 ≡ₚ es2 -> lookup_page es1 p = lookup_page es2 p.
Proof.
  intros Hs Hp. assert (separated es2) as Hs2 by by rewrite <- Hp.
  destruct (lookup_page es2 p) as [i|] eqn:H2.
  - apply lookup_page_Some; [done|]. apply lookup_page_Some in H2; [|done].
    by setoid_rewrite Hp.
  - rewrite lookup_page_None in H2 |- *. by setoid_rewrite Hp.
Qed.

Lemma lookup_page_app es1 es2 p :
  lookup_page (es1 ++ es2) p =
  match lookup_page es1 p with Some i => Some i | None => lookup_page es2 p end.
Proof. induction es1 as [|e es1 IH]; simpl; [done|]. by case_decide. Qed.

Lemma lookup_page_filter es p : lookup_page (filter live es) p = lookup_page es p.
Proof.
  induction es as [|e es IH]; [done|]. rewrite filter_cons. simpl.
  repeat case_decide; simpl; repeat case_decide; tauto || (rewrite IH; tauto) || done.
Qed.

Lemma StronglySorted_filter {A} (R : A -> A -> Prop) (P : A -> Prop) `{!forall x, Decision (P x)} l :
  StronglySorted R l -> StronglySorted R (filter P l).
Proof.
  induction 1 as [|x l Hs IH Hf]; [constructor|]. rewrite filter_cons.
  case_decide; [|done]. constructor; [done|].
  rewrite Forall_forall in Hf |- *. intros y Hy. apply Hf. by apply list_elem_of_filter in Hy as [_ ?].
Qed.

(** ** Descriptor references held by entries *)

(** [refs d es] counts the entries whose memory object holds descriptor [d];
    [net d l] is the change of its count made by the events [l]. *)
Definition refs (d : Z) (es : list NaClVmmapEntry) : Z :=
  Z.of_nat (length (filter (fun e => ndp <$> nmop e = Some d) es)).

Definition net_event (d : Z) (ev : event) : Z :=
  match ev with
  | DescRef d' => if decide (d = d') then 1 else 0
  | DescUnref d' => if decide (d = d') then -1 else 0
  | _ => 0
  end.

Definition net (d : Z) (l : list event) : Z := foldr (fun ev acc => net_event d ev + acc) 0 l.

Lemma net_app d l1 l2 : net d (l1 ++ l2) = net d l1 + net d l2.
Proof. induction l1 as [|ev l1 IH]; simpl; [done|]. lia. Qed.

Lemma refs_app d es1 es2 : refs d (es1 ++ es2) = refs d es1 + refs d es2.
Proof. unfold refs. rewrite filter_app, length_app. lia. Qed.

Lemma refs_cons d e es : refs d (e :: es) = refs d [e] + refs d es.
Proof. by rewrite <- refs_app. Qed.

Lemma refs_nil d : refs d [] = 0.
Proof. done. Qed.

#[global] Instance refs_proper d : Proper ((≡ₚ) ==> (=)) (refs d).
Proof. intros es1 es2 Hp. unfold refs. by rewrite Hp. Qed.

Lemma refs_split d es :
  refs d es = refs d (filter live es) + refs d (filter (fun e => ~ live e) es).
Proof.
  induction es as [|e es IH]; [done|]. rewrite (refs_cons d e es), IH, !filter_cons.
  repeat case_decide; try tauto;
    rewrite ?(refs_cons d e (filter _ es)); lia.
Qed.

Lemma refs_one d e :
  refs d [e] = match nmop e with
               | Some o => if decide (d = ndp o) then 1 else 0
               | None => 0
               end.
Proof.
  unfold refs. rewrite filter_cons. destruct (nmop e) as [o|]; simpl.
  - repeat case_decide; simpl; try done; congruence.
  - repeat case_decide; done.
Qed.

(** ** Carving a region out of a sorted list of entries *)

Definition trim_end (pn : Z) (e : NaClVmmapEntry) : NaClVmmapEntry :=
  e <| npages := pn - page_num e |>.

Definition shift_start (ne : Z) (e : NaClVmmapEntry) : NaClVmmapEntry :=
  e <| nmop := NaClMemObjIncOffset (nmop e) ((ne - page_num e) * 4096) |>
    <| page_num := ne |> <| npages := end_page e - ne |>.

Fixpoint carve (pn ne : Z) (es : list NaClVmmapEntry) : list NaClVmmapEntry :=
  match es with
  | [] => []
  | e :: es' =>
      if (page_num e <? pn) && (ne <? end_page e) then
        trim_end pn e :: shift_start ne e :: es'
      else if (page_num e <? pn) && (pn <? end_page e) then
        trim_end pn e :: carve pn ne es'
      else if (page_num e <? ne) && (ne <? end_page e) then
        shift_start ne e :: es'
      else if (pn <=? page_num e) && (end_page e <=? ne) then
        e <| removed := true |> :: carve pn ne es'
      else e :: carve pn ne es'
  end.

(** [regions]: linear arithmetic on the bounds of entries. *)
Ltac regions :=
  unfold live, apart, before, covers, trim_end, shift_start in *;
  unfold end_page, PAGE_LIMIT in *; simpl in *; zlia.

(** The piece [e'] of a carved list lies inside the entry [e] it came from. *)
Definition within (e' e : NaClVmmapEntry) : Prop :=
  page_num e <= page_num e' /\ end_page e' <= end_page e.

Lemma carve_within pn ne es e' :
  pn < ne -> e' ∈ carve pn ne es -> exists e, e ∈ es /\ within e' e.
Proof.
  intros Hlt. induction es as [|e es IH]; simpl; [by intros ?%elem_of_nil|].
  assert (Htail : e' ∈ es -> exists e0, e0 ∈ e :: es /\ within e' e0).
  { intros He'. exists e'. split; [by right|unfold within; lia]. }
  assert (Hrec : e' ∈ carve pn ne es -> exists e0, e0 ∈ e :: es /\ within e' e0).
  { intros He'. destruct (IH He') as (e0 & ? & ?). exists e0. split; [by right|done]. }
  assert (Hhead : within e' e -> exists e0, e0 ∈ e :: es /\ within e' e0).
  { intros Hw. exists e. split; [by left|done]. }
  repeat case_match; zbool; rewrite ?elem_of_cons; intros He'; destruct_or? He'; auto;
    apply Hhead; rewrite He'; unfold within; regions.
Qed.

Lemma carve_sorted pn ne es :
  pn < ne -> Forall wf_entry es -> StronglySorted before es ->
  StronglySorted before (carve pn ne es).
Proof.
  intros Hlt Hwf. induction 1 as [|e es Hs IH Hf]; simpl; [constructor|].
  inversion Hwf as [|?? [] Hwf']; subst. specialize (IH Hwf').
  assert (Htl : forall e', end_page e' <= end_page e -> Forall (before e') es).
  { intros e' He'. eapply Forall_impl; [exact Hf|]. unfold before. intros; simpl in *; lia. }
  assert (Hrec : forall e', end_page e' <= end_page e -> Forall (before e') (carve pn ne es)).
  { intros e' He'. apply Forall_forall. intros x (x0 & Hx0 & Hw)%carve_within; [|done].
    rewrite Forall_forall in Hf. specialize (Hf x0 Hx0). unfold before, within in *. lia. }
  repeat case_match; zbool; repeat constructor; auto;
    first [apply Htl | apply Hrec | idtac];
    regions.
Qed.

Lemma carve_wf pn ne es :
  pn < ne -> 0 <= pn -> Forall wf_entry es -> Forall wf_entry (carve pn ne es).
Proof.
  intros Hlt Hpn. induction es as [|e es IH]; simpl; intros Hwf; [done|].
  inversion Hwf as [|?? [] Hwf']; subst. specialize (IH Hwf').
  repeat case_match; zbool; repeat apply Forall_cons_2; auto; split;
    regions.
Qed.

(** A piece that stays live avoids the carved region. *)
Lemma carve_avoids pn ne es :
  pn < ne -> Forall wf_entry es -> StronglySorted before es ->
  Forall (fun e => live e -> end_page e <= pn \/ ne <= page_num e) (carve pn ne es).
Proof.
  intros Hlt Hwf. induction 1 as [|e es Hs IH Hf]; simpl; [constructor|].
  inversion Hwf as [|?? [] Hwf']; subst. specialize (IH Hwf').
  assert (Htl : ne < end_page e ->
    Forall (fun e => live e -> end_page e <= pn \/ ne <= page_num e) es).
  { intros He. eapply Forall_impl; [exact Hf|]. unfold before. intros; simpl in *; lia. }
  repeat case_match; zbool; repeat apply Forall_cons_2; auto;
    try done; try regions.
Qed.

Lemma info_trim_end pn e p : info (trim_end pn e) p = info e p.
Proof. done. Qed.

Lemma info_shift_start ne e p : info (shift_start ne e) p = info e p.
Proof.
  unfold info, shift_start. simpl. f_equal. destruct (nmop e) as [o|]; [|done]. simpl.
  rewrite i64_add_l. do 3 f_equal. lia.
Qed.

Lemma lookup_page_above es e p :
  Forall (before e) es -> p < end_page e -> lookup_page es p = None.
Proof.
  intros Hf Hp. apply lookup_page_None. intros e' He' _ Hc.
  rewrite Forall_forall in Hf. specialize (Hf e' He'). regions.
Qed.

(** Carving removes exactly the pages of the region and keeps every other
    page with its protection and file offset. *)
Lemma carve_lookup pn ne es p :
  pn < ne -> Forall wf_entry es -> StronglySorted before es ->
  lookup_page (carve pn ne es) p = override (lookup_page es) pn ne (fun _ => None) p.
Proof.
  intros Hlt Hwf. induction 1 as [|e es Hs IH Hf]; unfold override in *; simpl;
    [by case_decide|].
  inversion Hwf as [|?? [] Hwf']; subst. specialize (IH Hwf').
  pose proof (lookup_page_above es e p Hf) as Hab.
  repeat zcase; zbool; simpl; repeat case_decide;
    rewrite ?info_trim_end, ?info_shift_start in *; try done;
    try (rewrite Hab by regions; done); unfold live in *; simpl in *; exfalso;
    try (destruct (removed e); [by destruct_and?|]); regions.
Qed.
