(* ===== verification/VmmapCompact.v ===== *)
(** * Compaction and sorting of the map array

    The relation between the pointer array and the list of its entries, and
    what NaClVmmapRemoveMarked, NaClVmmapMakeSorted and NaClVmmapAdd do to that
    list. *)

From S2P Require Import Prelude Effects Rounding MemObj Vmmap VmmapSpec.

(** [holds arr es]: the first [length es] slots point to the entries [es]. *)
Definition holds (arr : list (option NaClVmmapEntry)) (es : list NaClVmmapEntry) : Prop :=
  take (length es) arr = Some <$> es.

Record repr (self : NaClVmmap) (es : list NaClVmmapEntry) : Prop := {
  repr_holds : holds (vmentry self) es;
  repr_nvalid : nvalid self = length es;
  repr_size : vmsize self = length (vmentry self);
  repr_pos : (0 < vmsize self)%nat;
}.

(** ** Array lemmas *)

Lemma holds_length arr es : holds arr es -> (length es <= length arr)%nat.
Proof.
  unfold holds. intros Hh. apply (f_equal length) in Hh.
  rewrite length_take, length_fmap in Hh. lia.
Qed.

Lemma holds_lookup arr es i e : holds arr es -> es !! i = Some e -> arr !! i = Some (Some e).
Proof.
  intros Hh He. pose proof (lookup_lt_Some _ _ _ He) as Hi.
  rewrite <- (lookup_take_lt arr (length es)) by done. rewrite Hh, list_lookup_fmap, He. done.
Qed.

Lemma holds_app_l arr es1 es2 : holds arr (es1 ++ es2) -> holds arr es1.
Proof.
  unfold holds. intros Hh. apply (f_equal (take (length es1))) in Hh.
  rewrite length_app, take_take, Nat.min_l, fmap_app in Hh by lia.
  rewrite Hh, take_app_le, take_ge; rewrite ?length_fmap; done || lia.
Qed.

Lemma holds_insert arr es i e :
  (i < length es)%nat -> holds arr es -> holds (<[i := Some e]> arr) (<[i := e]> es).
Proof.
  unfold holds. intros Hi Hh. rewrite length_insert, list_fmap_insert, <- Hh.
  by rewrite take_insert_lt.
Qed.

Lemma holds_insert_ge arr es i p :
  (length es <= i)%nat -> holds arr es -> holds (<[i := p]> arr) es.
Proof. unfold holds. intros Hi Hh. by rewrite take_insert_ge. Qed.

Lemma holds_snoc arr es e :
  (length es < length arr)%nat -> holds arr es ->
  holds (<[length es := Some e]> arr) (es ++ [e]).
Proof.
  unfold holds. intros Hl Hh. rewrite length_app, fmap_app. simpl.
  rewrite Nat.add_1_r, (take_S_r _ _ (Some e)); [|by apply list_lookup_insert_eq].
  by rewrite take_insert_ge, Hh.
Qed.

Lemma holds_grow arr arr' es : holds arr es -> holds (arr ++ arr') es.
Proof.
  intros Hh. pose proof (holds_length _ _ Hh). unfold holds in *.
  by rewrite take_app_le.
Qed.

#[export] Hint Resolve holds_length holds_app_l holds_insert_ge : vm.

Lemma deref_holds arr es i e : holds arr es -> es !! i = Some e -> deref arr i = mret e.
Proof. intros. eapply deref_some, holds_lookup; eauto. Qed.

(** ** Freeing entries *)

Definition unrefs (es : list NaClVmmapEntry) (l : list event) : Prop :=
  forall d, net d l = - refs d es.

Lemma EntryFree_spec e : exists l, NaClVmmapEntryFree e = (l, Ret tt) /\ unrefs [e] l.
Proof.
  unfold NaClVmmapEntryFree, NaClMemObjSafeDtor, NaClMemObjDtor.
  destruct (nmop e) as [o|] eqn:Ho; eexists; (split; [reflexivity|]); intros d;
    rewrite refs_one, Ho; simpl; [case_decide; done|done].
Qed.

Lemma unrefs_app es1 es2 l1 l2 : unrefs es1 l1 -> unrefs es2 l2 -> unrefs (es1 ++ es2) (l1 ++ l2).
Proof. intros H1 H2 d. rewrite net_app, refs_app, H1, H2. lia. Qed.

Lemma unrefs_nil : unrefs [] [].
Proof. intros d. done. Qed.

Lemma unrefs_perm es1 es2 l : es1 ≡ₚ es2 -> unrefs es1 l -> unrefs es2 l.
Proof. intros Hp H1 d. rewrite <- Hp. apply H1. Qed.

Lemma filter_all {A} (P : A -> Prop) `{!forall x, Decision (P x)} l : Forall P l -> filter P l = l.
Proof. induction 1; [done|]. rewrite filter_cons, decide_True by done. by f_equal. Qed.

Lemma filter_none {A} (P : A -> Prop) `{!forall x, Decision (P x)} l :
  Forall (fun x => ~ P x) l -> filter P l = [].
Proof. induction 1; [done|]. by rewrite filter_cons, decide_False. Qed.

(** ** NaClVmmapRemoveMarked *)

(** The trimming loop stops at the last live entry, freeing what is above. *)
Lemma trim_spec es : forall arr,
  holds arr es -> Exists live es ->
  exists l arr' es1 e es2,
    RemoveMarked_trim arr (length es) = (l, Ret (arr', length es1)) /\
    es = es1 ++ e :: es2 /\ live e /\ Forall (fun x => ~ live x) es2 /\
    holds arr' (es1 ++ [e]) /\ length arr' = length arr /\ unrefs es2 l.
Proof.
  induction es as [|e es IH] using rev_ind; intros arr Hh Hex; [by inversion Hex|].
  pose proof (holds_length _ _ Hh) as Hlen. rewrite length_app in *. simpl in *.
  rewrite Nat.add_1_r. simpl.
  rewrite (deref_holds _ _ _ e Hh) by by rewrite list_lookup_middle.
  rewrite M_bind_ret_l. destruct (removed e) eqn:Hr.
  - destruct (EntryFree_spec e) as (l0 & -> & Hl0).
    rewrite store_ok by lia.
    destruct (IH (<[length es := None]> arr)) as (l & arr' & es1 & e1 & es2 & Ht & -> & ?&?&?&Hla&Hu).
    { eauto with vm. }
    { apply Exists_app in Hex as [?|Hex]; [done|]. apply Exists_cons in Hex as [Hl|Hx]; [|by inversion Hx].
      unfold live in Hl. congruence. }
    exists (l0 ++ l), arr', es1, e1, (es2 ++ [e]). split_and!; try done.
    + erewrite M_bind_eq; [done|]. by rewrite M_bind_ret_l.
    + by rewrite <- app_assoc.
    + apply Forall_app; split; [done|]. constructor; [|done]. unfold live. congruence.
    + by rewrite Hla, length_insert.
    + eapply unrefs_perm; [|by apply unrefs_app]. by rewrite (comm (++)).
  - exists [], arr, es, e, []. split_and!; done.
Qed.

(** The backward scan of the swap loop. *)
Lemma back_spec i es2 : forall arr es1 e,
  length es1 = i -> holds arr (es1 ++ e :: es2) ->
  exists l arr' es2' rest,
    RemoveMarked_back arr i (i + 1 + length es2) = (l, Ret (arr', i + length es2')%nat) /\
    es2 = es2' ++ rest /\ Forall (fun x => ~ live x) rest /\
    (es2' = [] \/ exists x, last es2' = Some x /\ live x) /\
    holds arr' (es1 ++ e :: es2') /\ length arr' = length arr /\ unrefs rest l.
Proof.
  induction es2 as [|x es2 IH] using rev_ind; intros arr es1 e Hi Hh.
  - simpl. rewrite Nat.add_0_r, Nat.add_1_r. simpl. rewrite Nat.ltb_irrefl.
    exists [], arr, [], []. split_and!; try done; [|by left].
    by rewrite Nat.add_0_r.
  - pose proof (holds_length _ _ Hh) as Hlen. rewrite !length_app in *. simpl in *.
    rewrite length_app in Hlen. simpl in Hlen.
    replace (i + 1 + (length es2 + 1))%nat with (S (i + 1 + length es2)) by lia. simpl.
    replace (i <? i + 1 + length es2)%nat with true by (symmetry; apply Nat.ltb_lt; lia).
    assert (Hx : (es1 ++ e :: es2 ++ [x]) !! (i + 1 + length es2)%nat = Some x).
    { rewrite lookup_app_r by lia. replace (i + 1 + length es2 - length es1)%nat with (S (length es2)) by lia.
      simpl. by rewrite list_lookup_middle. }
    rewrite (deref_holds _ _ _ x Hh Hx), M_bind_ret_l. destruct (removed x) eqn:Hr.
    + destruct (EntryFree_spec x) as (l0 & -> & Hl0). rewrite store_ok by lia.
      destruct (IH (<[(i + 1 + length es2)%nat := None]> arr) es1 e Hi)
        as (l & arr' & es2' & rest & Hb & -> & Hrest & Hlast & Hh' & Hla & Hu).
      { apply holds_insert_ge; [rewrite length_app; simpl; lia|].
        apply holds_app_l with [x]. by rewrite <- app_assoc. }
      exists (l0 ++ l), arr', es2', (rest ++ [x]). split_and!; try done.
      * erewrite M_bind_eq; [done|]. by rewrite M_bind_ret_l.
      * by rewrite app_assoc.
      * apply Forall_app; split; [done|]. constructor; [|done]. unfold live. congruence.
      * by rewrite Hla, length_insert.
      * eapply unrefs_perm; [|by apply unrefs_app]. by rewrite (comm (++)).
    + exists [], arr, (es2 ++ [x]), []. split_and!; try done.
      * rewrite length_app. simpl.
        by replace (i + (length es2 + 1))%nat with (i + 1 + length es2)%nat by lia.
      * by rewrite app_nil_r.
      * right. exists x. by rewrite last_snoc.
Qed.

Lemma live_short es :
  (es = [] \/ exists x, last es = Some x /\ live x) -> (length es <= 1)%nat -> Forall live es.
Proof.
  intros [->|(x & Hx & Hlx)] Hle; [done|].
  destruct es as [|y [|z es]]; simpl in *; [done| |lia]. simplify_eq. by repeat constructor.
Qed.

(** The swap loop: everything below [i] is live, the last entry is live. *)
Lemma front_spec fuel : forall arr es1 es2,
  holds arr (es1 ++ es2) -> Forall live es1 ->
  (es2 = [] \/ exists x, last es2 = Some x /\ live x) ->
  (es1 ++ es2 <> []) -> (length es2 <= S fuel)%nat ->
  exists l arr' es',
    RemoveMarked_front fuel arr (length es1) (length (es1 ++ es2) - 1) =
      (l, Ret (arr', length es' - 1)%nat) /\
    holds arr' es' /\ es' ≡ₚ es1 ++ filter live es2 /\ length arr' = length arr /\
    unrefs (filter (fun x => ~ live x) es2) l.
Proof.
  induction fuel as [|fuel IH]; intros arr es1 es2 Hh Hl1 Hlast Hne Hfuel;
    (destruct (decide (length es2 <= 1)%nat) as [Hle|Hgt];
      [pose proof (live_short _ Hlast Hle) as Hl2; simpl;
       replace (length es1 <? length (es1 ++ es2) - 1)%nat with false
         by (symmetry; apply Nat.ltb_ge; rewrite length_app; lia);
       exists [], arr, (es1 ++ es2); split_and!; try done;
         [by rewrite (filter_all _ es2)|];
       rewrite filter_none; [done|]; eapply Forall_impl; [exact Hl2|]; naive_solver|]);
    [lia|].
  destruct es2 as [|x es2]; [simpl in Hgt; lia|].
  destruct es2 as [|y es2 _] using rev_ind; [simpl in Hgt; lia|].
  destruct Hlast as [?|(y' & Hy & Hly)]; [done|].
  rewrite last_cons, last_snoc in Hy. injection Hy as <-.
  assert (Hlx : (es1 ++ x :: es2 ++ [y]) !! length es1 = Some x) by by rewrite list_lookup_middle.
  pose proof (holds_length _ _ Hh) as Hlen.
  rewrite !length_app in *; simpl in *; rewrite !length_app in *; simpl in *.
  replace (length es1 <? _)%nat with true by (symmetry; apply Nat.ltb_lt; lia).
  rewrite (deref_holds _ _ _ x Hh Hlx), M_bind_ret_l. destruct (removed x) eqn:Hr; simpl.
  - destruct (EntryFree_spec x) as (l0 & -> & Hl0).
    set (lst := (length es1 + S (length es2 + 1) - 1)%nat).
    assert (Hlst : (es1 ++ x :: es2 ++ [y]) !! lst = Some y).
    { subst lst. rewrite lookup_app_r by lia.
      replace (length es1 + S (length es2 + 1) - 1 - length es1)%nat with (S (length es2)) by lia.
      simpl. by rewrite list_lookup_middle. }
    assert (Hh2 : holds (<[lst := None]> (<[length es1 := Some y]> arr)) (es1 ++ y :: es2)).
    { apply holds_insert_ge; [rewrite length_app; simpl; lia|].
      apply holds_app_l with [y]. rewrite <- app_assoc. simpl.
      assert (Hi : (length es1 < length (es1 ++ x :: es2 ++ [y]))%nat)
        by (rewrite length_app; simpl; lia).
      pose proof (holds_insert _ _ _ y Hi Hh) as Hh'.
      by rewrite insert_app_r_alt, Nat.sub_diag in Hh' by lia. }
    destruct (back_spec (length es1) es2 _ es1 y eq_refl Hh2)
      as (l1 & arr' & es2' & rest & Hb & -> & Hrest & Hlast & Hh' & Hla & Hu).
    destruct (IH arr' (es1 ++ [y]) es2') as (l2 & arr'' & es' & Hf & Hh'' & Hp & Hla' & Hu').
    { by rewrite <- app_assoc. } { apply Forall_app. by repeat constructor. } { done. }
    { by destruct es1. } { rewrite length_app in Hfuel. lia. }
    exists (l0 ++ l1 ++ l2), arr'', es'. split_and!; try done.
    + apply M_bind_eq. rewrite (load_ok _ _ _ (holds_lookup _ _ _ _ Hh Hlst)), M_bind_ret_l.
      rewrite store_ok by lia. rewrite M_bind_ret_l. rewrite store_ok by (rewrite length_insert; lia).
      rewrite M_bind_ret_l. subst lst.
      replace (length es1 + S (length (es2' ++ rest) + 1) - 1)%nat
        with (length es1 + 1 + length (es2' ++ rest))%nat in * by lia.
      rewrite Hb. apply M_bind_eq. rewrite <- Hf, !length_app. simpl. f_equal; lia.
    + rewrite Hp, !filter_cons, !filter_app, (filter_none _ rest Hrest), filter_cons.
      rewrite decide_False by (unfold live; congruence). rewrite decide_True by done.
      rewrite app_nil_r, <- app_assoc. simpl. f_equiv. by rewrite (comm (++) _ [y]).
    + by rewrite Hla', Hla, !length_insert.
    + rewrite filter_cons, decide_True by (unfold live; congruence).
      rewrite !filter_app, filter_cons, decide_False by naive_solver.
      rewrite (filter_all _ rest Hrest), filter_nil, app_nil_r.
      change (x :: ?a ++ ?b) with ([x] ++ (a ++ b)). apply unrefs_app; [done|].
      eapply unrefs_perm; [|exact (unrefs_app _ _ _ _ Hu Hu')]. by rewrite (comm (++)).
  - destruct (IH arr (es1 ++ [x]) (es2 ++ [y])) as (l2 & arr'' & es' & Hf & Hh'' & Hp & Hla' & Hu').
    { by rewrite <- app_assoc. } { apply Forall_app. by repeat constructor. }
    { right. exists y. by rewrite last_snoc. } { by destruct es1. } { rewrite length_app. simpl. lia. }
    exists l2, arr'', es'. split_and!; try done.
    + rewrite <- Hf, !length_app. simpl. f_equal; lia.
    + rewrite Hp, <- app_assoc, (filter_cons _ x), decide_True by done. done.
    + rewrite (filter_cons _ x), decide_False by naive_solver. done.
Qed.

(** Removing the marked entries keeps exactly the live ones, in some order,
    and drops one descriptor reference per freed entry. *)
Lemma RemoveMarked_spec self es :
  repr self es -> es <> [] -> Exists live es ->
  exists l self' es',
    NaClVmmapRemoveMarked self = (l, Ret self') /\ repr self' es' /\
    es' ≡ₚ filter live es /\ is_sorted self' = false /\ vmsize self' = vmsize self /\
    unrefs (filter (fun x => ~ live x) es) l.
Proof.
  intros [Hh Hn Hs Hpos] Hne Hex. unfold NaClVmmapRemoveMarked. rewrite Hn.
  replace (length es =? 0)%nat with false by (symmetry; apply Nat.eqb_neq; by destruct es).
  destruct (trim_spec es _ Hh Hex) as (l1 & arr & es1 & e & es2 & -> & -> & Hle & Hdead & Hh1 & Hla & Hu1).
  assert (He : (es1 ++ [e]) !! length es1 = Some e) by by rewrite list_lookup_middle.
  destruct (front_spec (length es1) arr [] (es1 ++ [e])) as (l2 & arr' & es' & Hf & Hh' & Hp & Hla' & Hu2);
    [done|done|right; exists e; by rewrite last_snoc|by destruct es1|rewrite length_app; simpl; lia|].
  assert (Hes' : es' <> []).
  { intros ->. apply Permutation_nil in Hp. rewrite filter_app, filter_cons, decide_True in Hp by done.
    by destruct (filter live es1). }
  exists (l1 ++ l2), (self <| vmentry := arr' |> <| nvalid := length es' |> <| is_sorted := false |>), es'.
  split_and!.
  - apply M_bind_eq. simpl.
    replace (if (length es1 =? 0)%nat then _ else _) with (mret (M:=M) tt).
    2: { case_match eqn:H0; [|done]. apply Nat.eqb_eq in H0. rewrite H0 in He.
         apply (deref_holds _ _ _ _ Hh1) in He. unfold live in Hle. by rewrite He, M_bind_ret_l, Hle. }
    rewrite M_bind_ret_l. rewrite length_app. simpl. unfold check.
    replace (length es1 <? length es1 + S (length es2))%nat with true by (symmetry; apply Nat.ltb_lt; lia).
    rewrite M_bind_ret_l, (deref_holds _ _ _ e Hh1 He), M_bind_ret_l.
    unfold live in Hle. rewrite Hle. cbn [negb]. rewrite ?M_bind_ret_l.
    simpl in Hf. rewrite length_app in Hf. simpl in Hf. rewrite Nat.add_sub in Hf. rewrite Hf.
    apply M_bind_pure. simpl.
    destruct es'; [done|]. simpl. by rewrite Nat.sub_0_r.
  - split; simpl; [done|done| |done]. by rewrite Hla', Hla.
  - rewrite Hp, !filter_app, !filter_cons, !decide_True by done.
    by rewrite (filter_none _ es2 Hdead).
  - done.
  - done.
  - rewrite filter_app, filter_cons, decide_False by naive_solver.
    rewrite (filter_all _ es2 Hdead). eapply unrefs_perm; [|exact (unrefs_app _ _ _ _ Hu1 Hu2)].
    rewrite (comm (++)), filter_app, filter_cons, decide_False, filter_nil, app_nil_r by naive_solver.
    done.
Qed.

(** On an empty map it does nothing. *)
Lemma RemoveMarked_empty self : repr self [] -> NaClVmmapRemoveMarked self = mret self.
Proof. intros [_ Hn _ _]. unfold NaClVmmapRemoveMarked. by rewrite Hn. Qed.

(** When every entry is marked, the loop frees them all and the test of
    [vmentry[0]->removed] follows the NULL it has just stored. *)
Lemma trim_all_removed es : forall arr,
  holds arr es -> Forall (fun x => ~ live x) es -> es <> [] ->
  exists l arr', RemoveMarked_trim arr (length es) = (l, Ret (arr', O)) /\ arr' !! O = Some None.
Proof.
  induction es as [|e es IH] using rev_ind; intros arr Hh Hd Hne; [done|].
  pose proof (holds_length _ _ Hh) as Hlen. rewrite length_app in *. simpl in *.
  rewrite Nat.add_1_r. simpl. apply Forall_app in Hd as [Hd He]. inversion He as [|?? Hre]; subst.
  rewrite (deref_holds _ _ _ e Hh) by by rewrite list_lookup_middle.
  rewrite M_bind_ret_l. unfold live in Hre. destruct (removed e); [|done].
  destruct (EntryFree_spec e) as (l0 & -> & _). rewrite store_ok by lia.
  destruct (decide (es = [])) as [->|Hne'].
  - exists (l0 ++ []), (<[O := None]> arr). split; [by apply M_bind_eq|].
    apply list_lookup_insert_eq. lia.
  - destruct (IH (<[length es := None]> arr)) as (l & arr' & Ht & Hnull); [by eauto with vm..|].
    exists (l0 ++ l), arr'. split; [|done]. apply M_bind_eq. by rewrite M_bind_ret_l.
Qed.

Lemma RemoveMarked_all_removed self es :
  repr self es -> es <> [] -> Forall (fun x => ~ live x) es ->
  result (NaClVmmapRemoveMarked self) = Fault NullDeref.
Proof.
  intros [Hh Hn _ _] Hne Hd. unfold NaClVmmapRemoveMarked. rewrite Hn.
  replace (length es =? 0)%nat with false by (symmetry; apply Nat.eqb_neq; by destruct es).
  destruct (trim_all_removed es _ Hh Hd Hne) as (l & arr & -> & Hnull).
  unfold mbind, M_bind. simpl. unfold deref. by rewrite Hnull.
Qed.

(** ** NaClVmmapMakeSorted *)

Lemma deref_all_fmap {A} (es : list A) : deref_all (Some <$> es) = mret es.
Proof. induction es as [|e es IH]; [done|]. cbn. fold (Some <$> es). by rewrite IH. Qed.

Section SortFacts.
Context {A : Type} (cmp : A -> A -> Z).

Lemma insert_by_perm x l : insert_by cmp x l ≡ₚ x :: l.
Proof.
  induction l as [|y l IH]; simpl; [done|]. case_match; [done|].
  rewrite IH. by constructor.
Qed.

Lemma qsort_perm l : qsort cmp l ≡ₚ l.
Proof. induction l as [|x l IH]; simpl; [done|]. by rewrite insert_by_perm, IH. Qed.

(** [qsort] sorts for any order the comparator decides on the elements. *)
Lemma qsort_sorted (R : A -> A -> Prop) (P : A -> Prop) l :
  (forall x y, P x -> P y -> x = y \/ (if cmp x y <=? 0 then R x y else R y x)) ->
  (forall x y z, R x y -> R y z -> R x z) ->
  Forall P l -> NoDup l -> StronglySorted R (qsort cmp l).
Proof.
  intros Hcmp Htrans HP Hnd. induction l as [|x l IH]; simpl; [constructor|].
  inversion HP as [|?? Hx HP']; subst. apply NoDup_cons in Hnd as [Hnin Hnd].
  specialize (IH HP' Hnd).
  assert (Hin : forall y, y ∈ qsort cmp l -> P y /\ x <> y).
  { intros y Hy. rewrite qsort_perm in Hy. rewrite Forall_forall in HP'. set_solver. }
  clear HP HP' Hnd Hnin. induction IH as [|y s Hs IH Hf]; simpl; [by repeat constructor|].
  destruct (Hin y) as [Hy Hxy]; [by left|].
  destruct (Hcmp x y Hx Hy) as [?|Hc]; [done|]. destruct (cmp x y <=? 0).
  - constructor; [by constructor|]. constructor; [done|].
    eapply Forall_impl; [exact Hf|]. intros z. by apply Htrans.
  - constructor; [apply IH; intros z Hz; apply Hin; by right|].
    assert (Hp : x :: s ≡ₚ insert_by cmp x s) by by rewrite insert_by_perm.
    rewrite <- Hp. by constructor.
Qed.
End SortFacts.

Lemma separated_NoDup es : Forall wf_entry es -> separated es -> NoDup es.
Proof.
  induction 1 as [|e es [] Hwf IH]; [constructor|]. rewrite separated_cons. intros [Ha Hs].
  constructor; [|auto]. intros Hin. rewrite Forall_forall in Ha. specialize (Ha e Hin). regions.
Qed.

Lemma before_trans e1 e2 e3 : wf_entry e2 -> before e1 e2 -> before e2 e3 -> before e1 e3.
Proof. intros []. regions. Qed.

(** The truncating comparator orders well-formed separated entries. *)
Lemma qsort_entries es :
  Forall wf_entry es -> separated es -> StronglySorted before (qsort NaClVmmapCmpEntries es).
Proof.
  intros Hwf Hsep.
  assert (Hss : StronglySorted (fun e1 e2 => page_num e1 <= page_num e2)
                  (qsort NaClVmmapCmpEntries es)).
  { apply (qsort_sorted _ _ wf_entry); [|lia|done|by apply separated_NoDup].
    intros x y [] []. right. unfold NaClVmmapCmpEntries.
    rewrite i32_u64_small by regions. case_match; zbool; lia. }
  assert (Hwf' : Forall wf_entry (qsort NaClVmmapCmpEntries es)) by by rewrite qsort_perm.
  assert (Hsep' : separated (qsort NaClVmmapCmpEntries es)) by by rewrite qsort_perm.
  revert Hwf' Hsep'. generalize (qsort NaClVmmapCmpEntries es) Hss.
  induction 1 as [|e s Hs' IH Hf]; [constructor|].
  inversion 1 as [|?? [] ?]; subst. rewrite separated_cons. intros [Ha ?].
  constructor; [auto|]. rewrite Forall_forall in *. intros x Hx.
  specialize (Ha x Hx). specialize (Hf x Hx). assert (wf_entry x) as [] by auto. regions.
Qed.

(** ** The invariant of the map between operations *)

Record vm_inv (self : NaClVmmap) (es : list NaClVmmapEntry) : Prop := {
  vm_repr : repr self es;
  vm_wf : Forall wf_entry es;
  vm_live : Forall live es;
  vm_sep : separated es;
  vm_sorted : is_sorted self = true -> StronglySorted before es;
}.

Lemma Forall_Exists_nonempty {A} (P : A -> Prop) l : Forall P l -> l <> [] -> Exists P l.
Proof. destruct 1; [done|]. intros _. by left. Qed.

Lemma MakeSorted_spec self es :
  vm_inv self es ->
  exists l self' es',
    NaClVmmapMakeSorted self = (l, Ret self') /\ vm_inv self' es' /\ es' ≡ₚ es /\
    StronglySorted before es' /\ is_sorted self' = true /\ vmsize self' = vmsize self /\
    forall d, net d l = 0.
Proof.
  intros [Hr Hwf Hlive Hsep Hsort]. unfold NaClVmmapMakeSorted.
  destruct (is_sorted self) eqn:Hb.
  { exists [], self, es. rewrite Hb. split_and!; try done; [constructor; auto|auto]. }
  assert (exists l0 self0 es0, NaClVmmapRemoveMarked self = (l0, Ret self0) /\
    repr self0 es0 /\ es0 ≡ₚ es /\ vmsize self0 = vmsize self /\ forall d, net d l0 = 0)
    as (l0 & self0 & es0 & -> & [Hh Hn Hsz Hpos] & Hp & Hvs & Hnet).
  { destruct (decide (es = [])) as [->|Hne].
    - exists [], self, []. by rewrite RemoveMarked_empty.
    - destruct (RemoveMarked_spec self es Hr Hne) as (l0 & self0 & es0 & ? & ? & Hp & _ & ? & Hu);
        [by apply Forall_Exists_nonempty|].
      exists l0, self0, es0. rewrite filter_all in Hp by done. split_and!; try done.
      intros d. rewrite (Hu d), filter_none; [done|].
      eapply Forall_impl; [exact Hlive|]. naive_solver. }
  pose proof (holds_length _ _ Hh) as Hlen.
  set (s := qsort NaClVmmapCmpEntries es0).
  assert (Hps : s ≡ₚ es) by by unfold s; rewrite qsort_perm, Hp.
  assert (Hls : length s = length es0) by by unfold s; rewrite qsort_perm.
  exists l0, (self0 <| vmentry := (Some <$> s) ++ drop (length es0) (vmentry self0) |>
                    <| is_sorted := true |>), s.
  assert (Hss : StronglySorted before s) by by apply qsort_entries; rewrite Hp.
  split_and!; try done.
  - apply M_bind_pure. rewrite Hn.
    unfold holds in Hh. rewrite Hh, deref_all_fmap, M_bind_ret_l. done.
  - split; simpl; [|by rewrite Hps..|done]. split; simpl.
    + unfold holds. rewrite take_app_le, take_ge; rewrite ?length_fmap; done || lia.
    + by rewrite Hls, Hn.
    + rewrite length_app, length_fmap, length_drop. lia.
    + done.
Qed.

(** ** NaClVmmapAdd *)

Section Add.
Context `{Host}.

Lemma Add_spec self es pn np pr mo :
  (forall n, malloc_ok n = true) -> repr self es ->
  exists self',
    NaClVmmapAdd self pn np pr mo = ([], Ret (true, self')) /\
    repr self' (es ++ [mkVmmapEntry pn np pr mo false]) /\ is_sorted self' = false.
Proof.
  intros Hm [Hh Hn Hs Hpos]. unfold NaClVmmapAdd, NaClVmmapEntryMake. rewrite !Hm.
  pose proof (holds_length _ _ Hh) as Hlen.
  set (self1 := if (nvalid self =? vmsize self)%nat then _ else Some self).
  assert (exists s, self1 = Some s /\ holds (vmentry s) es /\ nvalid s = nvalid self /\
    vmsize s = length (vmentry s) /\ (length es < length (vmentry s))%nat)
    as (s & -> & Hh1 & Hn1 & Hs1 & Hlt).
  { subst self1. case_match eqn:Hc.
    - apply Nat.eqb_eq in Hc. eexists. split; [done|]. simpl. split_and!; [|done|..].
      + by apply holds_grow.
      + rewrite length_app, length_replicate. lia.
      + rewrite length_app, length_replicate. lia.
    - apply Nat.eqb_neq in Hc. exists self. split_and!; try done. lia. }
  eexists. rewrite store_ok by lia. split; [done|]. split; [|done]. split; simpl.
  - rewrite Hn1, Hn. by apply holds_snoc.
  - rewrite length_app. simpl. lia.
  - by rewrite length_insert.
  - rewrite Hs1. lia.
Qed.

(** When the array is full and cannot grow, the map is left as it was. *)
Lemma Add_no_memory self pn np pr mo :
  nvalid self = vmsize self -> malloc_ok (u64 (Z.of_nat (2 * vmsize self) * sizeof_ptr)) = false ->
  NaClVmmapAdd self pn np pr mo = ([], Ret (false, self)).
Proof. intros Hn Hm. unfold NaClVmmapAdd. by rewrite Hn, Nat.eqb_refl, Hm. Qed.
End Add.
