(* ===== verification/VmmapUpdate.v ===== *)
(** * NaClVmmapUpdate

    The update of the memory map refines the abstract operation on page
    functions: the pages of the region get the new mapping (or none), every
    other page keeps its protection, backing and file offset, and the
    descriptor references taken and dropped match the entries that hold one. *)

From S2P Require Import Prelude Effects Rounding MemObj Vmmap VmmapSpec VmmapCompact.

Section Update.
Context `{Host}.

(** ** The loop *)

Lemma repr_write self es i e' :
  repr self es -> (i < length es)%nat ->
  (arr ← store (vmentry self) i (Some e'); mret (M:=M) (self <| vmentry := arr |>)) =
    mret (self <| vmentry := <[i := Some e']> (vmentry self) |>) /\
  repr (self <| vmentry := <[i := Some e']> (vmentry self) |>) (<[i := e']> es).
Proof.
  intros [Hh Hn Hs Hp] Hi. pose proof (holds_length _ _ Hh). split.
  - rewrite store_ok by lia. by rewrite M_bind_ret_l.
  - split; simpl; rewrite ?length_insert; try done. by apply holds_insert.
Qed.

Lemma entry_end e : wf_entry e -> u64 (page_num e + npages e) = end_page e.
Proof. intros []. apply u64_small. regions. Qed.

Lemma split_offset pn ne :
  0 <= pn < ne -> ne < PAGE_LIMIT ->
  i64 (u64 (Z.shiftl (u64 (ne - pn)) NACL_PAGESHIFT)) = (ne - pn) * 4096.
Proof.
  unfold PAGE_LIMIT. intros Hpn Hne. rewrite shiftl_page, (u64_small (ne - pn)) by zlia.
  rewrite (u64_small (_ * _)) by zlia. unfold i64. rewrite u64_small by zlia.
  case_match; zbool; zlia.
Qed.

Lemma MemObjSplit_spec e off :
  (forall n, malloc_ok n = true) ->
  exists l, NaClMemObjSplit (nmop e) off = (l, Ret (NaClMemObjIncOffset (nmop e) off)) /\
    forall d, net d l = refs d [e].
Proof.
  intros Hm. unfold NaClMemObjSplit, NaClMemObjCopyCtorOff, NaClMemObjIncOffset.
  destruct (nmop e) as [o|] eqn:Ho.
  - rewrite Hm. eexists. split; [reflexivity|]. intros d. rewrite refs_one, Ho. simpl.
    case_decide; lia.
  - exists []. split; [done|]. intros d. by rewrite refs_one, Ho.
Qed.

Lemma refs_same d e e' es : ndp <$> nmop e = ndp <$> nmop e' -> refs d (e :: es) = refs d (e' :: es).
Proof. intros He. unfold refs. rewrite !filter_cons, He. by case_decide. Qed.

Lemma refs_shift_start d ne e es : refs d (shift_start ne e :: es) = refs d (e :: es).
Proof. apply refs_same. unfold shift_start. simpl. by destruct (nmop e). Qed.

Lemma insert_middle {A} (es1 es2 : list A) e e' :
  <[length es1 := e']> (es1 ++ e :: es2) = es1 ++ e' :: es2.
Proof. by rewrite insert_app_r_alt, Nat.sub_diag by lia. Qed.

(** The loop, from the entry after the processed prefix [es1]: [es'] is what
    [carve] makes of the rest; a split appends its upper half to the array. *)
Definition loop_post (es1 es2 : list NaClVmmapEntry) pn ne (r : M NaClVmmap) : Prop :=
  exists l self' es', r = (l, Ret self') /\ repr self' es' /\ es' ≡ₚ es1 ++ carve pn ne es2 /\
    forall d, net d l = refs d (carve pn ne es2) - refs d es2.

Lemma loop_post_cons es1 es2 pn ne e e' r :
  ndp <$> nmop e = ndp <$> nmop e' ->
  carve pn ne (e :: es2) = e' :: carve pn ne es2 ->
  loop_post (es1 ++ [e']) es2 pn ne r -> loop_post es1 (e :: es2) pn ne r.
Proof.
  intros Hnm Hc (l & self' & es' & ? & ? & Hp & Hn). exists l, self', es'.
  rewrite Hc. split_and!; try done.
  - by rewrite Hp, <- app_assoc.
  - intros d. rewrite (refs_same d e e' _ Hnm), Hn, (refs_cons d e' es2), (refs_cons d e' (carve _ _ _)). lia.
Qed.

Lemma loop_split self es1 e es2 pn ne :
  (forall n, malloc_ok n = true) -> wf_entry e ->
  repr self (es1 ++ e :: es2) -> page_num e < pn -> pn < ne < end_page e -> live e ->
  exists self' es',
    ('(ok, self) ← NaClVmmapAdd self ne (u64 (end_page e - ne)) (prot e)
                     (NaClMemObjIncOffset (nmop e) ((ne - page_num e) * 4096));
     if (ok : bool) then
       arr ← store (vmentry self) (length es1) (Some (e <| npages := u64 (pn - page_num e) |>));
       mret (self <| vmentry := arr |>)
     else fail (LogFatal "NaClVmmapUpdate: could not split entry")) = ([], Ret self') /\
    repr self' es' /\ es' ≡ₚ es1 ++ trim_end pn e :: shift_start ne e :: es2.
Proof.
  intros Hm [] Hr Hpn Hne Hl.
  destruct (Add_spec self _ ne (u64 (end_page e - ne)) (prot e)
    (NaClMemObjIncOffset (nmop e) ((ne - page_num e) * 4096)) Hm Hr) as (self1 & -> & Hr1 & _).
  rewrite <- app_assoc in Hr1. simpl in Hr1.
  destruct (repr_write self1 _ (length es1) (e <| npages := u64 (pn - page_num e) |>) Hr1)
    as [Hw Hr2]; [rewrite length_app; simpl; lia|].
  rewrite insert_middle in Hr2.
  eexists _, _. split; [|split; [exact Hr2|]].
  - apply M_bind_pure. exact Hw.
  - f_equiv. rewrite (u64_small (pn - _)), (u64_small (end_page e - _)) by regions.
    unfold trim_end. f_equiv. rewrite (Permutation_app_comm es2). simpl.
    unfold shift_start. by destruct e; unfold live in Hl; simpl in *; subst.
Qed.

Lemma Update_loop_spec pn ne :
  (forall n, malloc_ok n = true) -> 0 <= pn < ne -> ne < PAGE_LIMIT ->
  forall es2 es1 self,
  repr self (es1 ++ es2) -> Forall wf_entry es2 -> Forall live es2 ->
  loop_post es1 es2 pn ne (NaClVmmapUpdate_loop (length es2) (length es1) self pn ne).
Proof.
  intros Hm Hpn Hne. induction es2 as [|e es2 IH]; intros es1 self Hr Hwf Hlv.
  { exists [], self, es1. rewrite app_nil_r in *. split_and!; try done. }
  inversion Hwf as [|?? Hwe Hwf']; inversion Hlv as [|?? Hle Hlv']; subst. simpl length.
  assert (Hi : (length es1 < length (es1 ++ e :: es2))%nat) by (rewrite length_app; simpl; lia).
  assert (Hrec : forall e' self', repr self' (es1 ++ e' :: es2) ->
    loop_post (es1 ++ [e']) es2 pn ne (NaClVmmapUpdate_loop (length es2) (S (length es1)) self' pn ne)).
  { intros e' self' Hr'. specialize (IH (es1 ++ [e']) self').
    rewrite length_app, Nat.add_1_r, <- app_assoc in IH. by apply IH. }
  assert (Hwrite : forall e', exists self',
    (arr ← store (vmentry self) (length es1) (Some e'); mret (M:=M) (self <| vmentry := arr |>)) =
      mret self' /\ repr self' (es1 ++ e' :: es2)).
  { intros e'. destruct (repr_write self _ _ e' Hr Hi) as [Hw Hr']. rewrite insert_middle in Hr'.
    eauto. }
  cbn [NaClVmmapUpdate_loop].
  rewrite (deref_holds _ _ _ e (repr_holds _ _ Hr)) by by rewrite list_lookup_middle.
  rewrite M_bind_ret_l, entry_end by done.
  destruct ((page_num e <? pn) && (ne <? end_page e)) eqn:H1;
    [|destruct ((page_num e <? pn) && (pn <? end_page e)) eqn:H2;
    [|destruct ((page_num e <? ne) && (ne <? end_page e)) eqn:H3;
    [|destruct ((pn <=? page_num e) && (end_page e <=? ne)) eqn:H4]]].
  - assert (Hc : carve pn ne (e :: es2) = trim_end pn e :: shift_start ne e :: es2)
      by (simpl; by rewrite H1).
    zbool. pose proof Hwe as []. rewrite split_offset by lia.
    destruct (MemObjSplit_spec e ((ne - page_num e) * 4096) Hm) as (l & -> & Hl).
    destruct (loop_split self es1 e es2 pn ne Hm Hwe Hr) as (self' & es' & Heq & Hr' & Hp);
      [lia|lia|done|].
    exists l, self', es'. rewrite Hc. split_and!; try done; [by apply M_bind_pure|].
    intros d. rewrite Hl, (refs_cons d (trim_end pn e)), refs_shift_start, (refs_cons d e es2).
    rewrite (refs_same d (trim_end pn e) e) by done. lia.
  - destruct (Hwrite (e <| npages := u64 (pn - page_num e) |>)) as (self' & -> & Hr').
    rewrite M_bind_ret_l. apply loop_post_cons with (e' := trim_end pn e); [done|simpl; by rewrite H1, H2|].
    apply Hrec. zbool. pose proof Hwe as []. by rewrite u64_small in Hr' by regions.
  - assert (Hc : carve pn ne (e :: es2) = shift_start ne e :: es2) by (simpl; by rewrite H1, H2, H3).
    zbool. pose proof Hwe as []. rewrite split_offset by lia. rewrite u64_small by regions.
    match goal with |- context [store _ _ (Some ?e')] =>
      destruct (Hwrite e') as (self' & -> & Hr') end.
    exists [], self', (es1 ++ shift_start ne e :: es2). rewrite Hc. split_and!; try done.
    intros d. rewrite refs_shift_start. simpl. lia.
  - destruct (Hwrite (e <| removed := true |>)) as (self' & -> & Hr').
    rewrite M_bind_ret_l.
    apply loop_post_cons with (e' := e <| removed := true |>); [done|simpl; by rewrite H1, H2, H3, H4|].
    by apply Hrec.
  - assert (Hc : carve pn ne (e :: es2) = e :: carve pn ne es2) by (simpl; by rewrite H1, H2, H3, H4).
    pose proof Hwe as []. unfold check.
    replace ((ne <=? page_num e) || (end_page e <=? pn)) with true.
    2: { symmetry. apply orb_true_iff.
         repeat match goal with H : (_ && _) = false |- _ => apply andb_false_iff in H end.
         rewrite !Z.ltb_ge, !Z.leb_gt in *. rewrite !Z.leb_le. regions. }
    rewrite M_bind_ret_l. apply loop_post_cons with (e' := e); [done|done|]. by apply Hrec.
Qed.

(** ** The whole update *)

Definition new_entry (pn np pr : Z) (mo : option NaClMemObj) : NaClVmmapEntry :=
  mkVmmapEntry pn np pr mo false.

(** The entry an update leaves for its region: none when it only removes. *)
Definition new_entries (pn np pr : Z) (mo : option NaClMemObj) (remove : bool)
  : list NaClVmmapEntry := if remove then [] else [new_entry pn np pr mo].

(** The entries after the update, before compaction. *)
Definition updated (es : list NaClVmmapEntry) pn np pr mo remove : list NaClVmmapEntry :=
  carve pn (pn + np) es ++ new_entries pn np pr mo remove.

Lemma filter_live_new pn np pr mo remove :
  filter live (new_entries pn np pr mo remove) = new_entries pn np pr mo remove.
Proof. by destruct remove. Qed.

Lemma updated_separated es pn np pr mo remove :
  0 < np -> Forall wf_entry es -> StronglySorted before es ->
  separated (filter live (updated es pn np pr mo remove)).
Proof.
  intros Hnp Hwf Hs. unfold updated. rewrite filter_app, filter_live_new, (comm (++)).
  assert (separated (filter live (carve pn (pn + np) es))).
  { apply StronglySorted_separated, StronglySorted_filter, carve_sorted; done || lia. }
  destruct remove; [done|]. simpl. apply separated_cons. split; [|done].
  assert (Ha : Forall (fun e => live e -> end_page e <= pn \/ pn + np <= page_num e)
                 (carve pn (pn + np) es)) by (apply carve_avoids; done || lia).
  apply Forall_forall. intros e [Hl He]%list_elem_of_filter.
  rewrite Forall_forall in Ha. specialize (Ha e He Hl). unfold new_entry. regions.
Qed.

Lemma updated_wf es pn np pr mo remove :
  0 <= pn -> 0 < np -> pn + np < PAGE_LIMIT -> Forall wf_entry es ->
  Forall wf_entry (filter live (updated es pn np pr mo remove)).
Proof.
  intros Hpn Hnp Hlim Hwf.
  assert (Hu : Forall wf_entry (updated es pn np pr mo remove)).
  { apply Forall_app; split; [apply carve_wf; done || lia|].
    destruct remove; [constructor|]. constructor; [|done]. by split. }
  rewrite Forall_forall in Hu |- *. intros e [_ He]%list_elem_of_filter. auto.
Qed.

Lemma updated_lookup es pn np pr mo remove p :
  0 < np -> Forall wf_entry es -> StronglySorted before es ->
  lookup_page (filter live (updated es pn np pr mo remove)) p =
  override (lookup_page es) pn (pn + np)
    (lookup_page (new_entries pn np pr mo remove)) p.
Proof.
  intros Hnp Hwf Hs. rewrite lookup_page_filter. unfold updated.
  rewrite lookup_page_app, carve_lookup by (done || lia). unfold override.
  assert (Hout : ~ (pn <= p < pn + np) -> lookup_page (new_entries pn np pr mo remove) p = None).
  { intros Hp. apply lookup_page_None. intros e He _ Hc. destruct remove; [by apply elem_of_nil in He|].
    apply list_elem_of_singleton in He as ->. unfold new_entry in Hc. regions. }
  case_decide; [done|]. rewrite Hout by done. by case_match.
Qed.

(** Some page of the map survives, or there was nothing to compact. *)
Definition survives (es : list NaClVmmapEntry) pn np (remove : bool) : Prop :=
  remove = false \/ es = [] \/ exists p, ~ (pn <= p < pn + np) /\ is_Some (lookup_page es p).

Lemma survives_live es pn np pr mo remove :
  0 < np -> Forall wf_entry es -> StronglySorted before es -> survives es pn np remove ->
  updated es pn np pr mo remove = [] \/ Exists live (updated es pn np pr mo remove).
Proof.
  intros Hnp Hwf Hs [->|[->|(p & Hp & i & Hi)]].
  - right. apply Exists_app. right. by left.
  - destruct remove; [by left|]. right. by left.
  - right. apply Exists_app. left.
    assert (Hl : lookup_page (carve pn (pn + np) es) p = Some i)
      by (rewrite carve_lookup by (done || lia); unfold override; by rewrite decide_False).
    apply lookup_page_Some in Hl as (e & He & Hle & _);
      [|apply StronglySorted_separated, carve_sorted; done || lia].
    apply Exists_exists. by exists e.
Qed.

(** What the code has built when it reaches the final compaction. *)
Lemma Update_before_compaction self es pn np pr mo remove :
  (forall n, malloc_ok n = true) -> vm_inv self es ->
  0 <= pn -> 0 < np -> pn + np < PAGE_LIMIT ->
  exists l self' es0 es',
    NaClVmmapUpdate self pn np pr mo remove =
      (((l, Ret self') : M NaClVmmap) ≫= NaClVmmapRemoveMarked) /\
    repr self' es' /\ es0 ≡ₚ es /\ StronglySorted before es0 /\ Forall wf_entry es0 /\ Forall live es0 /\
    es' ≡ₚ updated es0 pn np pr mo remove /\
    forall d, net d l = refs d (carve pn (pn + np) es0) - refs d es0.
Proof.
  intros Hm Hinv Hpn Hnp Hlim. unfold NaClVmmapUpdate.
  destruct (MakeSorted_spec self es Hinv) as (l0 & self0 & es0 & -> & Hinv0 & Hp0 & Hss & _ & _ & Hnet0).
  destruct Hinv0 as [Hr0 Hwf0 Hl0 _ _].
  rewrite u64_small by (unfold PAGE_LIMIT in *; zlia).
  destruct (Update_loop_spec pn (pn + np) Hm) with (es2 := es0) (es1 := @nil NaClVmmapEntry) (self := self0)
    as (l1 & self1 & es1 & Hloop & Hr1 & Hp1 & Hnet1); [lia|lia|done..|].
  simpl in Hloop, Hp1.
  assert (exists self2 es2, (if remove then mret (M:=M) self1
      else '(ok, self) ← NaClVmmapAdd self1 pn np pr mo;
           if (ok : bool) then mret self
           else fail (LogFatal "NaClVmmapUpdate: could not add entry")) = mret self2 /\
      repr self2 es2 /\ es2 ≡ₚ updated es0 pn np pr mo remove) as (self2 & es2 & Hadd & Hr2 & Hp2).
  { unfold updated, new_entries. destruct remove.
    - exists self1, es1. by rewrite app_nil_r.
    - destruct (Add_spec self1 es1 pn np pr mo Hm Hr1) as (self2 & -> & Hr2 & _).
      exists self2, (es1 ++ [new_entry pn np pr mo]). split_and!; [done..|]. by f_equiv. }
  exists (l0 ++ l1), self2, es0, es2. split_and!; try done.
  - destruct (NaClVmmapRemoveMarked self2) as [l' o] eqn:Hrm.
    rewrite (M_bind_eq (l0 ++ l1) self2 _ l' o), <- app_assoc by done.
    apply M_bind_eq. unfold check. replace (0 <? np) with true by (symmetry; apply Z.ltb_lt; lia).
    rewrite M_bind_ret_l, (repr_nvalid _ _ Hr0), Hloop. apply M_bind_eq. by rewrite Hadd, M_bind_ret_l.
  - intros d. rewrite net_app, Hnet0, Hnet1. lia.
Qed.

Lemma Update_spec self es pn np pr mo remove :
  (forall n, malloc_ok n = true) -> vm_inv self es ->
  0 <= pn -> 0 < np -> pn + np < PAGE_LIMIT -> survives es pn np remove ->
  exists l self' es',
    NaClVmmapUpdate self pn np pr mo remove = (l, Ret self') /\ vm_inv self' es' /\
    same_pages (lookup_page es')
      (override (lookup_page es) pn (pn + np) (lookup_page (new_entries pn np pr mo remove))) /\
    forall d, net d l + refs d es + refs d (new_entries pn np pr mo remove) = refs d es'.
Proof.
  intros Hm Hinv Hpn Hnp Hlim Hsv.
  destruct (Update_before_compaction self es pn np pr mo remove)
    as (l & self1 & es0 & es1 & Hupd & Hr & Hp0 & Hss & Hwf & Hlv & Hp1 & Hnet); try done.
  assert (Hsv0 : survives es0 pn np remove).
  { destruct Hsv as [?|[->|(p & ? & Hs)]]; [by left|right; left; by apply Permutation_nil_r|].
    right; right. exists p. split; [done|]. erewrite (lookup_page_perm _ es); [done| |done].
    rewrite Hp0. apply (vm_sep _ _ Hinv). }
  assert (exists l1 self' es', NaClVmmapRemoveMarked self1 = (l1, Ret self') /\ repr self' es' /\
    es' ≡ₚ filter live es1 /\ (is_sorted self' = true -> es' = []) /\
    unrefs (filter (fun x => ~ live x) es1) l1) as (l1 & self' & es' & Hrm & Hr' & Hp' & Hsrt & Hu).
  { destruct (survives_live es0 pn np pr mo remove Hnp Hwf Hss Hsv0) as [Hnil|Hex].
    - rewrite Hnil in Hp1. apply Permutation_nil_r in Hp1 as ->.
      exists [], self1, []. rewrite RemoveMarked_empty by done. split_and!; try done.
    - rewrite <- Hp1 in Hex. destruct (RemoveMarked_spec self1 es1 Hr) as (l1 & self' & es' & ? & ? & ? & Hf & _ & ?);
        [by intros ->; inversion Hex|done|].
      exists l1, self', es'. split_and!; try done. congruence. }
  assert (Hpu : es' ≡ₚ filter live (updated es0 pn np pr mo remove)) by by rewrite Hp', Hp1.
  pose proof (updated_separated es0 pn np pr mo remove Hnp Hwf Hss) as Hsep.
  exists (l ++ l1), self', es'. split_and!; [rewrite Hupd; by apply M_bind_eq| |..].
  - split; [done| | | |].
    + rewrite Hpu. by apply updated_wf.
    + rewrite Hpu. apply Forall_forall. by intros e [??]%list_elem_of_filter.
    + by rewrite Hpu.
    + intros Hs. rewrite Hsrt by done. constructor.
  - intros p. symmetry in Hpu. rewrite <- (lookup_page_perm _ _ p Hsep Hpu), updated_lookup by done.
    unfold override. case_decide; [done|]. apply lookup_page_perm; [|done].
    rewrite Hp0. apply (vm_sep _ _ Hinv).
  - intros d. rewrite net_app, Hnet, (Hu d), <- Hp0.
    pose proof (refs_split d (updated es0 pn np pr mo remove)) as Hsp.
    rewrite <- Hp1, <- Hp' in Hsp. rewrite Hp1 in Hsp at 1. unfold updated in Hsp.
    rewrite refs_app in Hsp. lia.
Qed.

(** Removing everything: the map ends with no entry and the final compaction
    follows a NULL pointer. *)
Lemma Update_remove_all self es pn np pr mo :
  (forall n, malloc_ok n = true) -> vm_inv self es -> es <> [] ->
  0 <= pn -> 0 < np -> pn + np < PAGE_LIMIT ->
  (forall p, is_Some (lookup_page es p) -> pn <= p < pn + np) ->
  result (NaClVmmapUpdate self pn np pr mo true) = Fault NullDeref.
Proof.
  intros Hm Hinv Hne Hpn Hnp Hlim Hall.
  destruct (Update_before_compaction self es pn np pr mo true)
    as (l & self1 & es0 & es1 & Hupd & Hr & Hp0 & Hss & Hwf & Hlv & Hp1 & _); try done.
  assert (Hcarve : updated es0 pn np pr mo true = (fun e => e <| removed := true |>) <$> es0).
  { unfold updated. simpl. rewrite app_nil_r.
    assert (Hin : Forall (fun e => pn <= page_num e /\ end_page e <= pn + np) es0).
    { apply Forall_forall. intros e He. rewrite Forall_forall in Hwf, Hlv.
      destruct (Hwf e He) as [Hs Hn He']. specialize (Hlv e He).
      assert (Hc : forall p, covers e p -> pn <= p < pn + np).
      { intros p Hc. apply Hall. exists (info e p). apply lookup_page_Some; [apply (vm_sep _ _ Hinv)|].
        exists e. by rewrite <- Hp0. }
      pose proof (Hc (page_num e)) as H1. pose proof (Hc (end_page e - 1)) as H2. regions. }
    clear - Hin Hnp. induction Hin as [|e es [H1 H2] _ IH]; [done|]. simpl.
    replace (page_num e <? pn) with false by (symmetry; apply Z.ltb_ge; lia).
    replace (pn + np <? end_page e) with false by (symmetry; apply Z.ltb_ge; lia).
    replace (pn <=? page_num e) with true by (symmetry; apply Z.leb_le; lia).
    replace (end_page e <=? pn + np) with true by (symmetry; apply Z.leb_le; lia).
    rewrite andb_false_r. cbn. rewrite andb_false_r. f_equal. exact IH. }
  rewrite Hcarve in Hp1. rewrite Hupd.
  rewrite <- (RemoveMarked_all_removed self1 es1 Hr).
  - unfold mbind, M_bind. by destruct (NaClVmmapRemoveMarked self1).
  - intros ->. apply Permutation_nil_l in Hp1. symmetry in Hp1. apply fmap_nil_inv in Hp1. subst.
    by apply Permutation_nil_l in Hp0.
  - rewrite Hp1. apply Forall_fmap, Forall_true. unfold live. by intros ?.
Qed.

Lemma Update_no_pages self es pn pr mo remove :
  vm_inv self es -> result (NaClVmmapUpdate self pn 0 pr mo remove) = Fault (CheckFailed "npages > 0").
Proof.
  intros Hinv. unfold NaClVmmapUpdate.
  by destruct (MakeSorted_spec self es Hinv) as (l0 & self0 & es0 & -> & _).
Qed.
End Update.

(** ** Updates under any allocator

    An allocation that fails never goes unnoticed: it is fatal, or
    NaClVmmapAdd stores a NULL pointer in the last slot of the array, which the
    compaction at the end of the update follows.  So an update that returns did
    what it does under an allocator that never fails. *)

(** The last pointer of the array is NULL. *)
Definition ends_null (self : NaClVmmap) : Prop :=
  exists k, nvalid self = S k /\ vmentry self !! k = Some None.

Lemma RemoveMarked_null self : ends_null self -> result (NaClVmmapRemoveMarked self) = Fault NullDeref.
Proof.
  intros (k & Hn & Hk). unfold NaClVmmapRemoveMarked. rewrite Hn. cbn [Nat.eqb RemoveMarked_trim].
  assert (Hd : deref (vmentry self) k = fail NullDeref) by (unfold deref; by rewrite Hk).
  by rewrite Hd.
Qed.

Section AnyAllocator.
Context `{h : Host}.

Lemma Split_plentiful o off l r :
  NaClMemObjSplit o off = (l, Ret r) -> NaClMemObjSplit (H:=plentiful h) o off = (l, Ret r).
Proof. unfold NaClMemObjSplit. destruct o; [|done]. by destruct (malloc_ok _). Qed.

Lemma Make_plentiful d n o l r :
  NaClMemObjMake d n o = (l, Ret r) -> NaClMemObjMake (H:=plentiful h) d n o = (l, Ret r).
Proof. unfold NaClMemObjMake. destruct d; [|done]. by destruct (malloc_ok _). Qed.

(** An entry that is added, or the NULL pointer in its place. *)
Lemma Add_plentiful self pn np pr mo l s :
  NaClVmmapAdd self pn np pr mo = (l, Ret (true, s)) ->
  nvalid s = S (nvalid self) /\
  if malloc_ok sizeof_NaClVmmapEntry
  then NaClVmmapAdd (H:=plentiful h) self pn np pr mo = (l, Ret (true, s))
  else vmentry s !! nvalid self = Some None.
Proof.
  unfold NaClVmmapAdd, NaClVmmapEntryMake. intros Heq.
  assert (Hst : forall self0 l0 e, nvalid self0 = nvalid self ->
    (arr ← store (vmentry self0) (nvalid self0) e;
     mret (M:=M) (true, self0 <| vmentry := arr |> <| is_sorted := false |> <| nvalid := S (nvalid self0) |>))
      = (l0, Ret (true, s)) -> nvalid s = S (nvalid self) /\ vmentry s !! nvalid self = Some e).
  { intros self0 l0 e Hn H0. minv H0; simplify_eq. simpl. rewrite Hn in *. split; [done|].
    by apply list_lookup_insert_eq. }
  destruct (nvalid self =? vmsize self)%nat eqn:Hfull.
  - destruct (malloc_ok (u64 _)); [|discriminate Heq]. cbv iota beta in Heq.
    match type of Heq with (store (vmentry ?s0) _ _ ≫= _) = _ => destruct (Hst s0 _ _ eq_refl Heq) as [Hn Hs] end.
    split; [done|]. by destruct (malloc_ok sizeof_NaClVmmapEntry).
  - destruct (Hst self _ _ eq_refl Heq) as [Hn Hs].
    split; [done|]. by destruct (malloc_ok sizeof_NaClVmmapEntry).
Qed.

Lemma Update_loop_plentiful pn ne n : forall i self l s,
  (i + n <= nvalid self)%nat -> NaClVmmapUpdate_loop n i self pn ne = (l, Ret s) ->
  NaClVmmapUpdate_loop (H:=plentiful h) n i self pn ne = (l, Ret s) \/
  (malloc_ok sizeof_NaClVmmapEntry = false /\ ends_null s).
Proof.
  induction n as [|n IH]; intros i self l s Hi Heq; [by left|]. cbn [NaClVmmapUpdate_loop] in *.
  apply M_bind_ret_inv in Heq as (l1 & ent & l2 & Hd & Heq & ->). apply deref_inv in Hd as [-> Hd].
  rewrite (deref_some _ _ _ Hd), M_bind_ret_l. cbn [app]. cbv beta zeta in *.
  repeat case_match.
  - apply M_bind_ret_inv in Heq as (l3 & mop & l4 & Hsp & Heq & ->). apply Split_plentiful in Hsp.
    apply M_bind_ret_inv in Heq as (l5 & [[] s1] & l6 & Hadd & Heq & ->); [|done].
    destruct (Add_plentiful _ _ _ _ _ _ _ Hadd) as [Hn Ha]. destruct (malloc_ok sizeof_NaClVmmapEntry).
    + left. rewrite Hsp. apply M_bind_eq. rewrite Ha. by apply M_bind_eq.
    + right. split; [done|]. minv Heq; subst. exists (nvalid self). simpl. split; [done|].
      rewrite list_lookup_insert_ne; [done|]. clear -Hi. lia.
  - apply M_bind_ret_inv in Heq as (l3 & s1 & l4 & Hw & Heq & ->). rewrite Hw. minv Hw; subst.
    apply IH in Heq; [|simpl; lia]. destruct Heq as [Hl|]; [left; by apply M_bind_eq|by right].
  - by left.
  - apply M_bind_ret_inv in Heq as (l3 & s1 & l4 & Hw & Heq & ->). rewrite Hw. minv Hw; subst.
    apply IH in Heq; [|simpl; lia]. destruct Heq as [Hl|]; [left; by apply M_bind_eq|by right].
  - apply M_bind_ret_inv in Heq as (l3 & s1 & l4 & Hw & Heq & ->). rewrite Hw.
    apply IH in Heq; [|simpl; lia]. destruct Heq as [Hl|]; [left; by apply M_bind_eq|by right].
Qed.

Lemma Update_plentiful self pn np pr mo remove l s :
  NaClVmmapUpdate self pn np pr mo remove = (l, Ret s) ->
  NaClVmmapUpdate (H:=plentiful h) self pn np pr mo remove = (l, Ret s).
Proof.
  unfold NaClVmmapUpdate. cbv zeta. intros Heq.
  apply M_bind_ret_inv in Heq as (l0 & self0 & l1 & -> & Heq & ->). apply M_bind_eq.
  apply M_bind_ret_inv in Heq as (l2 & [] & l3 & -> & Heq & ->). apply M_bind_eq.
  apply M_bind_ret_inv in Heq as (l4 & self1 & l5 & Hloop & Heq & ->).
  apply Update_loop_plentiful in Hloop; [|done].
  assert (Hnull : forall s', ends_null s' -> NaClVmmapRemoveMarked s' <> (l5, Ret s)).
  { intros s' Hs' He. apply RemoveMarked_null in Hs'. by rewrite He in Hs'. }
  destruct remove.
  - rewrite M_bind_ret_l in Heq. destruct Hloop as [->|[_ Hs]]; [|by apply Hnull in Hs].
    apply M_bind_eq. by rewrite M_bind_ret_l.
  - apply M_bind_ret_inv in Heq as (l6 & self2 & l7 & Hadd & Heq & ->).
    apply M_bind_ret_inv in Hadd as (l8 & [[] self3] & l9 & Hadd & Hr & ->); [|done].
    apply M_ret_inv in Hr as [-> ->]. destruct (Add_plentiful _ _ _ _ _ _ _ Hadd) as [Hn Ha].
    destruct (malloc_ok sizeof_NaClVmmapEntry) eqn:Hm.
    + destruct Hloop as [->|[? _]]; [|done]. apply M_bind_eq. rewrite Ha.
      eapply M_bind_eq in Heq. exact Heq.
    + exfalso. assert (Hs : ends_null self2) by (by exists (nvalid self1)).
      apply RemoveMarked_null in Hs. by rewrite Heq in Hs.
Qed.

(** Some page survives the update, or the region covers the whole map. *)
Lemma survives_or self es pn np remove :
  vm_inv self es ->
  survives es pn np remove \/
  (remove = true /\ es <> [] /\ forall p, is_Some (lookup_page es p) -> pn <= p < pn + np).
Proof.
  intros Hinv. destruct remove; [|by left; left]. destruct (decide (es = [])) as [Hnil|Hne]; [left; right; by left|].
  destruct (decide (Forall (fun e => pn <= page_num e /\ end_page e <= pn + np) es)) as [Hin|Hout].
  - right. split_and!; [done|done|]. intros p [i Hi].
    apply lookup_page_Some in Hi as (e & He & _ & Hc & _); [|apply (vm_sep _ _ Hinv)].
    rewrite Forall_forall in Hin. specialize (Hin e He). regions.
  - left. right; right. apply not_Forall_Exists in Hout; [|apply _]. apply Exists_exists in Hout as (e & He & Hn). unfold compose in Hn.
    pose proof (vm_wf _ _ Hinv) as Hwf. pose proof (vm_live _ _ Hinv) as Hlv.
    rewrite Forall_forall in Hwf, Hlv. specialize (Hwf e He). specialize (Hlv e He). destruct Hwf.
    assert (Hcov : forall p, covers e p -> is_Some (lookup_page es p)).
    { intros p Hc. exists (info e p). apply lookup_page_Some; [apply (vm_sep _ _ Hinv)|]. by exists e. }
    destruct (decide (pn <= page_num e)).
    + exists (end_page e - 1). split; [lia|]. apply Hcov. regions.
    + exists (page_num e). split; [lia|]. apply Hcov. regions.
Qed.

(** What an update that returns has done, on any host. *)
Lemma Update_returns self es pn np pr mo remove l self' :
  vm_inv self es -> 0 <= pn -> 0 < np -> pn + np < PAGE_LIMIT ->
  NaClVmmapUpdate self pn np pr mo remove = (l, Ret self') ->
  exists es', vm_inv self' es' /\
    same_pages (lookup_page es')
      (override (lookup_page es) pn (pn + np) (lookup_page (new_entries pn np pr mo remove))) /\
    forall d, net d l + refs d es + refs d (new_entries pn np pr mo remove) = refs d es'.
Proof.
  intros Hinv Hpn Hnp Hlim Heq%Update_plentiful.
  destruct (survives_or self es pn np remove Hinv) as [Hsv|(-> & Hne & Hall)].
  - destruct (Update_spec (H:=plentiful h) self es pn np pr mo remove) as (l' & s' & es' & Heq' & ?); try done.
    rewrite Heq in Heq'. simplify_eq. by exists es'.
  - pose proof (Update_remove_all (H:=plentiful h) self es pn np pr mo) as Hnull.
    rewrite Heq in Hnull. by specialize (Hnull ltac:(done) Hinv Hne Hpn Hnp Hlim Hall).
Qed.
End AnyAllocator.
