(* ===== verification/VmmapFind.v ===== *)
(** * Queries on the memory map

    FindPage is a binary search on the sorted array; FindSpace, FindMapSpace
    and FindMapSpaceAboveHint look for address space holes between consecutive
    entries.  Each is related to the page function of [VmmapSpec]. *)

From S2P Require Import Prelude Effects Rounding MemObj Vmmap VmmapSpec VmmapCompact VmmapUpdate.

(** ** Binary search *)

Section Bsearch.
Context {A : Type} (probe : A -> Z) (arr : list (option A)) (es : list A).

(** [probe] falls from positive to negative along [es]. *)
Definition falling : Prop :=
  forall i j x y, (i < j)%nat -> es !! i = Some x -> es !! j = Some y ->
    (probe x <= 0 -> probe y < 0) /\ (0 <= probe y -> 0 < probe x).

Hypothesis Harr : forall i x, es !! i = Some x -> arr !! i = Some (Some x).
Hypothesis Hfall : falling.

Lemma bsearch_loop_spec fuel : forall l u,
  (u <= length es)%nat -> (u - l <= fuel)%nat ->
  (forall i x, (i < l)%nat -> es !! i = Some x -> 0 < probe x) ->
  (forall i x, (u <= i)%nat -> es !! i = Some x -> probe x < 0) ->
  exists r, bsearch_loop fuel probe arr l u = mret r /\
    match r with
    | Some ix => exists x, es !! ix = Some x /\ probe x = 0
    | None => Forall (fun x => probe x <> 0) es
    end.
Proof.
  induction fuel as [|fuel IH]; intros l u Hu Hf Hlo Hhi; cbn [bsearch_loop].
  all: destruct (l <? u)%nat eqn:Hlt; [apply Nat.ltb_lt in Hlt|apply Nat.ltb_ge in Hlt].
  1: lia. 1,3: exists None; split; [done|]; apply Forall_lookup; intros i x Hx;
    destruct (decide (i < l)%nat) as [Hi|Hi];
    [specialize (Hlo i x Hi Hx)|specialize (Hhi i x ltac:(lia) Hx)]; lia.
  set (idx := ((l + u) / 2)%nat).
  assert (Hidx : (l <= idx < u)%nat).
  { subst idx. split; [apply Nat.div_le_lower_bound; lia|apply Nat.Div0.div_lt_upper_bound; lia]. }
  destruct (lookup_lt_is_Some_2 es idx) as [x Hx]; [lia|].
  rewrite (deref_some arr idx x) by auto. rewrite M_bind_ret_l.
  destruct (probe x <? 0) eqn:Hneg; [|destruct (0 <? probe x) eqn:Hpos]; zbool.
  - apply IH; [lia|lia|done|]. intros i y Hi Hy.
    destruct (decide (i = idx)) as [->|]; [by simplify_eq|].
    apply (Hfall idx i x y); [lia|done..|lia].
  - apply IH; [lia|lia| |done]. intros i y Hi Hy.
    destruct (decide (i = idx)) as [->|]; [by simplify_eq|].
    apply (Hfall i idx y x); [lia|done..|lia].
  - exists (Some idx). split; [done|]. exists x. split; [done|lia].
Qed.

Lemma bsearch_spec :
  exists r, bsearch probe arr (length es) = mret r /\
    match r with
    | Some ix => exists x, es !! ix = Some x /\ probe x = 0
    | None => Forall (fun x => probe x <> 0) es
    end.
Proof.
  apply bsearch_loop_spec; [lia|lia|lia|]. intros i x Hi Hx%lookup_lt_Some. lia.
Qed.
End Bsearch.

Lemma StronglySorted_lookup {A} (R : A -> A -> Prop) l i j x y :
  StronglySorted R l -> (i < j)%nat -> l !! i = Some x -> l !! j = Some y -> R x y.
Proof.
  intros Hs. revert i j. induction Hs as [|z l Hs IH Hf]; intros i j Hij Hx Hy; [done|].
  destruct j as [|j]; [lia|]. destruct i as [|i]; simpl in *.
  - simplify_eq. rewrite Forall_forall in Hf. apply Hf. by eapply list_elem_of_lookup_2.
  - apply (IH i j); [lia|done..].
Qed.

(** ** NaClVmmapFindPage and NaClVmmapFindPageIter *)

Lemma Contain_zero pn e : wf_entry e -> NaClVmmapContainCmpEntries pn e = 0 <-> covers e pn.
Proof.
  intros He. unfold NaClVmmapContainCmpEntries. rewrite entry_end by done.
  repeat case_match; zbool; unfold covers; split; lia.
Qed.

Lemma Contain_falling pn es :
  Forall wf_entry es -> StronglySorted before es -> falling (NaClVmmapContainCmpEntries pn) es.
Proof.
  intros Hwf Hs i j x y Hij Hx Hy.
  pose proof (StronglySorted_lookup _ _ _ _ _ _ Hs Hij Hx Hy) as Hb.
  rewrite Forall_lookup in Hwf. pose proof (Hwf _ _ Hx) as Hwx. pose proof (Hwf _ _ Hy) as Hwy.
  unfold NaClVmmapContainCmpEntries. rewrite !entry_end by done. destruct Hwx, Hwy.
  repeat case_match; zbool; split; intros; regions.
Qed.

Lemma bsearch_page self es pn :
  vm_inv self es -> StronglySorted before es ->
  exists r, bsearch (NaClVmmapContainCmpEntries pn) (vmentry self) (nvalid self) = mret r /\
    match r with
    | Some ix => exists e, es !! ix = Some e /\ covers e pn
    | None => Forall (fun e => ~ covers e pn) es
    end.
Proof.
  intros [[Hh Hn _ _] Hwf _ _ _] Hs. rewrite Hn.
  destruct (bsearch_spec (NaClVmmapContainCmpEntries pn) (vmentry self) es) as (r & -> & Hr).
  { intros i x. by apply holds_lookup. }
  { by apply Contain_falling. }
  exists r. split; [done|]. destruct r as [ix|].
  - destruct Hr as (e & He & Hp). exists e. split; [done|]. apply Contain_zero; [|done].
    rewrite Forall_lookup in Hwf. eauto.
  - apply Forall_forall. intros e He. rewrite Forall_forall in Hr, Hwf.
    rewrite <- Contain_zero by auto. by apply Hr.
Qed.

(** What a query returns: the map with the same entries, sorted. *)
Definition queried (self : NaClVmmap) (es : list NaClVmmapEntry) (self' : NaClVmmap)
    (es' : list NaClVmmapEntry) (l : list event) : Prop :=
  vm_inv self' es' /\ es' ≡ₚ es /\ StronglySorted before es' /\ (forall d, net d l = 0).

Lemma FindPage_spec self es pn :
  vm_inv self es ->
  exists l self' es' r, NaClVmmapFindPage self pn = (l, Ret (self', r)) /\
    queried self es self' es' l /\
    match r with
    | Some e => e ∈ es /\ covers e pn
    | None => forall e, e ∈ es -> ~ covers e pn
    end.
Proof.
  intros Hinv. unfold NaClVmmapFindPage.
  destruct (MakeSorted_spec self es Hinv) as (l & self' & es' & -> & Hinv' & Hp & Hs & _ & _ & Hnet).
  destruct (bsearch_page self' es' pn Hinv' Hs) as ([ix|] & Hb & Hr).
  - destruct Hr as (e & He & Hc). exists l, self', es', (Some e). split_and!; try done.
    + apply M_bind_pure. rewrite Hb, M_bind_ret_l.
      by rewrite (deref_holds _ _ _ e (repr_holds _ _ (vm_repr _ _ Hinv')) He).
    + rewrite <- Hp. by eapply list_elem_of_lookup_2.
  - exists l, self', es', None. split_and!; try done.
    + apply M_bind_pure. by rewrite Hb, M_bind_ret_l.
    + intros e. rewrite <- Hp. rewrite Forall_forall in Hr. apply Hr.
Qed.

Lemma FindPageIter_spec self es pn :
  vm_inv self es ->
  exists l self' es' ix, NaClVmmapFindPageIter self pn = (l, Ret (self', ix)) /\
    queried self es self' es' l /\
    if NaClVmmapIterAtEnd self' ix then Forall (fun e => ~ covers e pn) es
    else exists e, NaClVmmapIterStar self' ix = mret e /\ es' !! ix = Some e /\ covers e pn.
Proof.
  intros Hinv. unfold NaClVmmapFindPageIter, NaClVmmapIterAtEnd, NaClVmmapIterStar.
  destruct (MakeSorted_spec self es Hinv) as (l & self' & es' & -> & Hinv' & Hp & Hs & _ & _ & Hnet).
  destruct (bsearch_page self' es' pn Hinv' Hs) as ([ix|] & Hb & Hr).
  - destruct Hr as (e & He & Hc). exists l, self', es', ix. split_and!; try done.
    + apply M_bind_pure. by rewrite Hb, M_bind_ret_l.
    + rewrite (repr_nvalid _ _ (vm_repr _ _ Hinv')). case_match eqn:Hle.
      * apply Nat.leb_le in Hle. apply lookup_lt_Some in He. lia.
      * exists e. split_and!; try done.
        by rewrite (deref_holds _ _ _ e (repr_holds _ _ (vm_repr _ _ Hinv')) He).
  - exists l, self', es', (nvalid self'). split_and!; try done.
    + apply M_bind_pure. by rewrite Hb, M_bind_ret_l.
    + rewrite Nat.leb_refl. by rewrite <- Hp.
Qed.

(** ** Address space holes *)

(** [n] unmapped pages from [a], with mapped pages below and above. *)
Definition hole (f : Z -> option page_info) (a n : Z) : Prop :=
  forall p, a <= p < a + n -> f p = None.
Definition enclosed (f : Z -> option page_info) (a n : Z) : Prop :=
  (exists p, p < a /\ is_Some (f p)) /\ (exists p, a + n <= p /\ is_Some (f p)).

#[global] Instance hole_proper : Proper (same_pages ==> eq ==> eq ==> iff) hole.
Proof.
  intros f g Hfg a ? <- n ? <-. unfold hole. split; intros Hh p Hp; [rewrite <- (Hfg p)|rewrite (Hfg p)]; auto.
Qed.

#[global] Instance enclosed_proper : Proper (same_pages ==> eq ==> eq ==> iff) enclosed.
Proof.
  intros f g Hfg a ? <- n ? <-. unfold enclosed.
  split; intros [(p & Hp & Hs) (q & Hq & Hs')]; (split; [exists p|exists q]); (split; [done|]);
    rewrite ?(Hfg p), ?(Hfg q) in *; done.
Qed.

(** On sorted entries an enclosed hole lies in the gap between neighbours. *)
Definition fits (es : list NaClVmmapEntry) (i : nat) (a n : Z) : Prop :=
  exists x y, es !! i = Some x /\ es !! S i = Some y /\ end_page x <= a /\ a + n <= page_num y.

Section Sorted.
Context (es : list NaClVmmapEntry).
Hypothesis Hwf : Forall wf_entry es.
Hypothesis Hlive : Forall live es.
Hypothesis Hsort : StronglySorted before es.

Lemma mapped_entry p :
  is_Some (lookup_page es p) <-> exists i e, es !! i = Some e /\ covers e p.
Proof.
  unfold is_Some. setoid_rewrite lookup_page_Some; [|by apply StronglySorted_separated]. split.
  - intros (? & e & He & _ & Hc & _). apply list_elem_of_lookup in He as [i Hi]. eauto.
  - intros (i & e & Hi & Hc). exists (info e p), e.
    assert (Hin : e ∈ es) by by eapply list_elem_of_lookup_2.
    rewrite Forall_forall in Hlive. auto.
Qed.

Lemma unmapped_entry p :
  lookup_page es p = None <-> forall i e, es !! i = Some e -> ~ covers e p.
Proof.
  pose proof (mapped_entry p) as Hm. rewrite eq_None_not_Some, Hm. split.
  - intros Hn i e He Hc. apply Hn. by exists i, e.
  - intros Hn (i & e & He & Hc). by apply (Hn i e).
Qed.

Lemma order_lt i j x y : (i < j)%nat -> es !! i = Some x -> es !! j = Some y -> before x y.
Proof. by apply StronglySorted_lookup. Qed.

Lemma wf_at i x : es !! i = Some x -> wf_entry x.
Proof. rewrite Forall_lookup in Hwf. eauto. Qed.

Lemma fits_hole i a n : 0 < n -> fits es i a n -> hole (lookup_page es) a n /\ enclosed (lookup_page es) a n.
Proof.
  intros Hn (x & y & Hx & Hy & Hxa & Hay).
  pose proof (wf_at _ _ Hx) as []. pose proof (wf_at _ _ Hy) as [].
  split; [|split].
  - intros p Hp. apply unmapped_entry. intros j e He Hc.
    destruct (decide (j <= i)%nat) as [Hji|Hji].
    + destruct (decide (j = i)) as [->|]; [simplify_eq; regions|].
      assert (before e x) by (apply (order_lt j i); [lia|done..]). regions.
    + destruct (decide (j = S i)) as [->|]; [simplify_eq; regions|].
      assert (before y e) by (apply (order_lt (S i) j); [lia|done..]). regions.
  - exists (end_page x - 1). split; [lia|]. apply mapped_entry. exists i, x. split; [done|]. regions.
  - exists (page_num y). split; [lia|]. apply mapped_entry. exists (S i), y. split; [done|]. regions.
Qed.

Lemma hole_fits a n :
  0 < n -> hole (lookup_page es) a n -> enclosed (lookup_page es) a n -> exists i, fits es i a n.
Proof.
  intros Hn Hh [(p & Hp & Hmp) (q & Hq & Hmq)].
  apply mapped_entry in Hmp as (i & x & Hx & Hcx). apply mapped_entry in Hmq as (j & y & Hy & Hcy).
  (* every entry lies below or above the hole *)
  assert (Hside : forall k e, es !! k = Some e -> end_page e <= a \/ a + n <= page_num e).
  { intros k e He. destruct (decide (end_page e <= a)); [by left|].
    destruct (decide (a + n <= page_num e)); [by right|]. exfalso.
    pose proof (wf_at _ _ He) as []. specialize (Hh (Z.max a (page_num e)) ltac:(lia)).
    rewrite unmapped_entry in Hh. apply (Hh k e He). regions. }
  assert (Hij : (i < j)%nat).
  { destruct (decide (i < j)%nat); [done|]. exfalso.
    destruct (decide (i = j)) as [->|]; [destruct (Hside _ _ Hx); simplify_eq; regions|].
    assert (before y x) by (apply (order_lt j i); [lia|done..]). regions. }
  assert (Hxl : end_page x <= a) by (destruct (Hside _ _ Hx); [done|regions]).
  assert (Hyr : a + n <= page_num y) by (destruct (Hside _ _ Hy); [regions|done]).
  (* walk right from [i] while the entries lie below *)
  remember (j - i)%nat as k eqn:Hk. clear p q Hp Hq Hcx Hcy.
  revert i x Hx Hxl Hij Hk. induction k as [|k IH]; intros; [lia|].
  destruct (lookup_lt_is_Some_2 es (S i)) as [z Hz]; [apply lookup_lt_Some in Hy; lia|].
  destruct (Hside _ _ Hz) as [Hzl|Hzr]; [|by exists i, x, z].
  destruct (decide (S i = j)) as [<-|]; [simplify_eq; exfalso|apply (IH (S i) z); [done..|lia|lia]].
  pose proof (wf_at _ _ Hy) as []. regions.
Qed.
End Sorted.

(** *** The downward searches

    [gap_down] is the common shape of FindSpace ([up] and [down] do nothing)
    and FindMapSpace ([up], [down] round to 16 pages). *)

Fixpoint gap_down (up down : Z -> Z) (es : list NaClVmmapEntry) (i : nat) (n : Z) : Z :=
  match i with
  | O => 0
  | S j =>
      match es !! j, es !! i with
      | Some x, Some y =>
          if n <=? down (page_num y) - up (end_page x) then down (page_num y) - n
          else gap_down up down es j n
      | _, _ => 0
      end
  end.

(** Rounding to multiples of [m], in both directions. *)
Record rounding (m : Z) (up down : Z -> Z) : Prop := {
  rd_pos : 0 < m;
  rd_up : forall z, 0 <= z < PAGE_LIMIT -> up z mod m = 0 /\ z <= up z < z + m;
  rd_down : forall z, 0 <= z < PAGE_LIMIT -> down z mod m = 0 /\ down z <= z < down z + m;
}.

Lemma rounding_id : rounding 1 id id.
Proof. split; unfold id; intros; rewrite ?Z.mod_1_r; lia. Qed.

Lemma rounding_map : rounding 16 NaClRoundPageNumUpToMapMultiple NaClTruncPageNumDownToMapMultiple.
Proof.
  split; [lia|..]; unfold PAGE_LIMIT; intros z Hz.
  - destruct (NaClRoundPageNum_spec z) as (? & ? & _); [zlia|done].
  - destruct (NaClTruncPageNum_spec z) as (? & ? & _); [zlia|done].
Qed.

Section Gaps.
Context (m : Z) (up down : Z -> Z) (Hrd : rounding m up down).
Context (es : list NaClVmmapEntry).
Hypothesis Hwf : Forall wf_entry es.
Hypothesis Hlive : Forall live es.
Hypothesis Hsort : StronglySorted before es.

(** A multiple of [m] fits in a gap exactly when it lies between the rounded ends. *)
Lemma fits_rounded i x y a n :
  es !! i = Some x -> es !! S i = Some y -> a mod m = 0 -> n mod m = 0 ->
  fits es i a n <-> up (end_page x) <= a /\ a + n <= down (page_num y).
Proof using Hrd Hwf.
  intros Hx Hy Ha Hn. pose proof (wf_at es Hwf _ _ Hx) as []. pose proof (wf_at es Hwf _ _ Hy) as [].
  destruct (rd_up _ _ _ Hrd (end_page x)) as [Hu1 Hu2]; [regions|].
  destruct (rd_down _ _ _ Hrd (page_num y)) as [Hd1 Hd2]; [regions|].
  pose proof (rd_pos _ _ _ Hrd) as Hm. split.
  - intros (x' & y' & ? & ? & Hxa & Hay). simplify_eq. split; [by apply (round_least m (end_page x))|].
    destruct (decide (a + n <= down (page_num y))); [done|]. exfalso.
    assert (Han : (a + n) mod m = 0) by (rewrite Zplus_mod, Ha, Hn; apply Z.mod_0_l; lia).
    apply Z.mod_divide in Han as [q Hq]; [|lia]. apply Z.mod_divide in Hd1 as [r Hr]; [|lia].
    rewrite Hq, Hr in *. assert (r + 1 <= q) by nia. nia.
  - intros [Hxa Hay]. exists x, y. split_and!; [done..|lia|lia].
Qed.

(** The result of the search: no aligned run of [n] pages below index [i], or
    the highest one. *)
Lemma gap_down_spec n i :
  0 < n -> n mod m = 0 -> (i < length es)%nat ->
  let r := gap_down up down es i n in
  (r = 0 /\ forall j a, (j < i)%nat -> a mod m = 0 -> ~ fits es j a n) \/
  (0 < r /\ r mod m = 0 /\ (exists j, (j < i)%nat /\ fits es j r n) /\
   forall j a, (j < i)%nat -> a mod m = 0 -> fits es j a n -> a <= r).
Proof using Hrd Hwf Hsort.
  intros Hn Hnm. induction i as [|i IH]; intros Hi; simpl; [left; split; [done|lia]|].
  destruct (lookup_lt_is_Some_2 es i) as [x Hx]; [lia|]. destruct (lookup_lt_is_Some_2 es (S i)) as [y Hy]; [lia|].
  rewrite Hx, Hy. pose proof (wf_at es Hwf _ _ Hx) as []. pose proof (wf_at es Hwf _ _ Hy) as [].
  destruct (rd_up _ _ _ Hrd (end_page x)) as [Hu1 Hu2]; [regions|].
  destruct (rd_down _ _ _ Hrd (page_num y)) as [Hd1 Hd2]; [regions|].
  pose proof (rd_pos _ _ _ Hrd) as Hm. pose proof (fun a => fits_rounded i x y a n Hx Hy) as Hfit.
  case_match eqn:Hc; zbool.
  - right. assert (Hr : (down (page_num y) - n) mod m = 0)
      by (rewrite Zminus_mod, Hd1, Hnm; apply Z.mod_0_l; lia).
    split_and!; [regions|done|exists i; split; [lia|]; apply Hfit; [done..|lia]|].
    intros j a Hj Ha Hf. destruct (decide (j = i)) as [->|Hji]; [apply Hfit in Hf; [lia|done..]|].
    destruct Hf as (x' & y' & Hx' & Hy' & ? & Hay).
    pose proof (wf_at es Hwf _ _ Hy') as [].
    assert (page_num y' < end_page x).
    { destruct (decide (S j = i)) as [<-|]; [simplify_eq; regions|].
      assert (before y' x) by (apply (order_lt es Hsort (S j) i); [lia|done..]). regions. }
    lia.
  - assert (Hno : forall a, a mod m = 0 -> ~ fits es i a n).
    { intros a Ha Hf. apply Hfit in Hf; [lia|done..]. }
    destruct IH as [[? Hnone]|(? & ? & (j & ? & ?) & Hmax)]; [lia| |].
    + left. split; [done|]. intros j a Hj Ha. destruct (decide (j = i)) as [->|]; [auto|].
      apply Hnone; [lia|done].
    + right. split_and!; [done|done|exists j; split; [lia|done]|].
      intros j' a Hj Ha Hf. destruct (decide (j' = i)) as [->|]; [by destruct (Hno a Ha)|].
      apply (Hmax j'); [lia|done..].
Qed.

(** The same in terms of pages. *)
Definition highest_hole (f : Z -> option page_info) (n r : Z) : Prop :=
  (r = 0 /\ forall a, a mod m = 0 -> hole f a n -> ~ enclosed f a n) \/
  (0 < r /\ r mod m = 0 /\ hole f r n /\ enclosed f r n /\
   forall a, a mod m = 0 -> hole f a n -> enclosed f a n -> a <= r).

#[global] Instance highest_hole_proper : Proper (same_pages ==> eq ==> eq ==> impl) highest_hole.
Proof using.
  intros f g Hfg n ? <- r ? <-. unfold highest_hole.
  intros [[-> Hn]|(? & ? & Hh & He & Hm)]; [left|right]; split_and!; try done.
  - intros a. rewrite <- Hfg. apply Hn.
  - by rewrite <- Hfg.
  - by rewrite <- Hfg.
  - intros a. rewrite <- Hfg. apply Hm.
Qed.

Lemma gap_down_highest n :
  0 < n -> n mod m = 0 -> es <> [] ->
  highest_hole (lookup_page es) n (gap_down up down es (length es - 1) n).
Proof using Hrd Hwf Hlive Hsort.
  intros Hn Hnm Hne.
  assert (Hlt : (length es - 1 < length es)%nat) by (destruct es; [done|simpl; lia]).
  assert (Hidx : forall i a, fits es i a n -> (i < length es - 1)%nat).
  { intros i a (x & y & _ & Hy%lookup_lt_Some & _). lia. }
  destruct (gap_down_spec n _ Hn Hnm Hlt) as [[-> Hnone]|(? & ? & (j & ? & Hf) & Hmax)].
  - left. split; [done|]. intros a Ha Hh He.
    destruct (hole_fits es Hwf Hlive Hsort a n Hn Hh He) as [i Hf].
    apply (Hnone i a); [by eapply Hidx|done..].
  - right. destruct (fits_hole es Hwf Hlive Hsort _ _ _ Hn Hf). split_and!; try done.
    intros a Ha Hh He. destruct (hole_fits es Hwf Hlive Hsort a n Hn Hh He) as [i Hf'].
    apply (Hmax i a); [by eapply Hidx|done..].
Qed.
End Gaps.

(** The loops of the code compute [gap_down]. *)
Lemma FindSpace_loop_gap arr es n i :
  holds arr es -> Forall wf_entry es -> StronglySorted before es -> 0 < n < PAGE_LIMIT ->
  (i < length es)%nat ->
  NaClVmmapFindSpace_loop arr i n = mret (gap_down id id es i n).
Proof.
  intros Hh Hwf Hs Hn. induction i as [|i IH]; intros Hi; cbn [NaClVmmapFindSpace_loop gap_down]; [done|].
  destruct (lookup_lt_is_Some_2 es i) as [x Hx]; [lia|]. destruct (lookup_lt_is_Some_2 es (S i)) as [y Hy]; [lia|].
  rewrite (deref_holds _ _ _ x Hh Hx), M_bind_ret_l, (deref_holds _ _ _ y Hh Hy), M_bind_ret_l, Hx, Hy.
  pose proof (wf_at es Hwf _ _ Hx) as Hwx. pose proof (wf_at es Hwf _ _ Hy) as [].
  rewrite entry_end by done. destruct Hwx.
  assert (before x y) by (apply (order_lt es Hs i (S i)); [lia|done..]).
  unfold id. rewrite (u64_small (page_num y - end_page x)) by regions. case_match; zbool.
  - rewrite u64_small by regions. done.
  - apply IH. lia.
Qed.

Lemma FindMapSpace_loop_gap arr es n i :
  holds arr es -> Forall wf_entry es -> StronglySorted before es -> 0 < n < two64 ->
  (i < length es)%nat ->
  NaClVmmapFindMapSpace_loop arr i n =
    mret (gap_down NaClRoundPageNumUpToMapMultiple NaClTruncPageNumDownToMapMultiple es i n).
Proof.
  intros Hh Hwf Hs Hn. induction i as [|i IH]; intros Hi;
    cbn [NaClVmmapFindMapSpace_loop gap_down]; [done|].
  destruct (lookup_lt_is_Some_2 es i) as [x Hx]; [lia|]. destruct (lookup_lt_is_Some_2 es (S i)) as [y Hy]; [lia|].
  rewrite (deref_holds _ _ _ x Hh Hx), M_bind_ret_l, (deref_holds _ _ _ y Hh Hy), M_bind_ret_l, Hx, Hy.
  pose proof (wf_at es Hwf _ _ Hx) as Hwx. pose proof (wf_at es Hwf _ _ Hy) as [].
  rewrite entry_end by done. destruct Hwx.
  destruct (rd_up _ _ _ rounding_map (end_page x)) as [_ Hu]; [regions|].
  destruct (rd_down _ _ _ rounding_map (page_num y)) as [_ Hd]; [regions|].
  set (lo := NaClRoundPageNumUpToMapMultiple (end_page x)) in *.
  set (hi := NaClTruncPageNumDownToMapMultiple (page_num y)) in *.
  destruct (hi <=? lo) eqn:Hhl; zbool.
  - replace (n <=? hi - lo) with false by (symmetry; apply Z.leb_gt; lia). apply IH. lia.
  - rewrite (u64_small (hi - lo)) by regions. case_match; zbool.
    + rewrite u64_small by regions. done.
    + apply IH. lia.
Qed.

Lemma FindSpace_spec self es n :
  vm_inv self es -> es <> [] -> 0 < n < PAGE_LIMIT ->
  exists l self' es' r, NaClVmmapFindSpace self n = (l, Ret (self', r)) /\
    queried self es self' es' l /\ highest_hole 1 (lookup_page es') n r.
Proof.
  intros Hinv Hne Hn. unfold NaClVmmapFindSpace.
  rewrite (repr_nvalid _ _ (vm_repr _ _ Hinv)).
  replace (length es =? 0)%nat with false by (symmetry; apply Nat.eqb_neq; by destruct es).
  destruct (MakeSorted_spec self es Hinv) as (l & self' & es' & -> & Hinv' & Hp & Hs & _ & _ & Hnet).
  pose proof Hinv' as [[Hh Hnv _ _] Hwf Hl _ _].
  assert (Hne' : es' <> []) by (intros ->; by apply Permutation_nil_l in Hp).
  exists l, self', es', (gap_down id id es' (length es' - 1) n). split_and!; try done.
  - apply M_bind_pure. rewrite Hnv, (FindSpace_loop_gap _ es'); try done.
    destruct es'; [done|simpl; lia].
  - apply gap_down_highest; try done; [apply rounding_id|lia|apply Z.mod_1_r].
Qed.

Lemma FindMapSpace_spec self es n :
  vm_inv self es -> es <> [] -> 0 < n <= two64 - 16 ->
  exists l self' es' r, NaClVmmapFindMapSpace self n = (l, Ret (self', r)) /\
    queried self es self' es' l /\
    highest_hole 16 (lookup_page es') (NaClRoundPageNumUpToMapMultiple n) r.
Proof.
  intros Hinv Hne Hn. unfold NaClVmmapFindMapSpace.
  rewrite (repr_nvalid _ _ (vm_repr _ _ Hinv)).
  replace (length es =? 0)%nat with false by (symmetry; apply Nat.eqb_neq; by destruct es).
  destruct (MakeSorted_spec self es Hinv) as (l & self' & es' & -> & Hinv' & Hp & Hs & _ & _ & Hnet).
  pose proof Hinv' as [[Hh Hnv _ _] Hwf Hl _ _].
  assert (Hne' : es' <> []) by (intros ->; by apply Permutation_nil_l in Hp).
  destruct (NaClRoundPageNum_spec n) as (Ha & Hr & Hu); [lia|].
  eexists l, self', es', _. split_and!; [|done..|].
  - apply M_bind_pure. rewrite Hnv, (FindMapSpace_loop_gap _ es'); try done; [zlia|].
    destruct es'; [done|simpl; lia].
  - apply gap_down_highest; try done; [apply rounding_map|lia].
Qed.

(** *** The upward search above a hint *)

(** The lowest aligned hole of [n] pages at or above page [u] with mapped pages
    on both sides; 0 when there is none.  A hole above the last mapping does
    not count: the search never looks there. *)
Definition lowest_hole (f : Z -> option page_info) (u n r : Z) : Prop :=
  (r = 0 /\ forall a, map_aligned a -> u <= a -> hole f a n -> ~ enclosed f a n) \/
  (0 < r /\ map_aligned r /\ u <= r /\ hole f r n /\ enclosed f r n /\
   forall a, map_aligned a -> u <= a -> hole f a n -> enclosed f a n -> r <= a).

#[global] Instance lowest_hole_proper : Proper (same_pages ==> eq ==> eq ==> eq ==> impl) lowest_hole.
Proof.
  intros f g Hfg u ? <- n ? <- r ? <-. unfold lowest_hole.
  intros [[-> Hn]|(? & ? & ? & Hh & He & Hm)]; [left|right]; split_and!; try done.
  - intros a. rewrite <- Hfg. apply Hn.
  - by rewrite <- Hfg.
  - by rewrite <- Hfg.
  - intros a. rewrite <- Hfg. apply Hm.
Qed.

Lemma AboveHint_loop_spec arr es u n :
  holds arr es -> Forall wf_entry es -> StronglySorted before es ->
  0 < n < two64 -> map_aligned n -> map_aligned u -> 0 <= u < two64 ->
  forall k i, (i + k = length es - 1)%nat -> es <> [] ->
  exists r, NaClVmmapFindMapSpaceAboveHint_loop arr k (S i) u n = mret r /\
  ((r = 0 /\ forall j a, (i <= j)%nat -> map_aligned a -> u <= a -> ~ fits es j a n) \/
   (0 < r /\ map_aligned r /\ u <= r /\ (exists j, fits es j r n) /\
    forall j a, (i <= j)%nat -> map_aligned a -> u <= a -> fits es j a n -> r <= a)).
Proof.
  intros Hh Hwf Hs Hn Hnm Hum Hu. induction k as [|k IH]; intros i Hik Hne.
  { exists 0. split; [done|]. left. split; [done|].
    intros j a Hj _ _ (x & y & _ & Hy%lookup_lt_Some & _). lia. }
  cbn [NaClVmmapFindMapSpaceAboveHint_loop]. rewrite Nat.sub_1_r. cbn [Nat.pred].
  destruct (lookup_lt_is_Some_2 es i) as [x Hx]; [lia|]. destruct (lookup_lt_is_Some_2 es (S i)) as [y Hy]; [lia|].
  rewrite (deref_holds _ _ _ x Hh Hx), M_bind_ret_l, (deref_holds _ _ _ y Hh Hy), M_bind_ret_l.
  pose proof (wf_at es Hwf _ _ Hx) as Hwx. pose proof (wf_at es Hwf _ _ Hy) as [].
  rewrite entry_end by done. destruct Hwx.
  destruct (rd_up _ _ _ rounding_map (end_page x)) as [Hu1 Hu2]; [regions|].
  destruct (rd_down _ _ _ rounding_map (page_num y)) as [Hd1 Hd2]; [regions|].
  pose proof (fun a => fits_rounded _ _ _ rounding_map es Hwf i x y a n Hx Hy) as Hfit.
  set (lo := NaClRoundPageNumUpToMapMultiple (end_page x)) in *.
  set (hi := NaClTruncPageNumDownToMapMultiple (page_num y)) in *.
  specialize (IH (S i) ltac:(lia) Hne).
  (* the gap at [i] has no room: go on *)
  assert (Hskip : (forall a, map_aligned a -> u <= a -> ~ fits es i a n) ->
    exists r, NaClVmmapFindMapSpaceAboveHint_loop arr k (S (S i)) u n = mret r /\
    ((r = 0 /\ forall j a, (i <= j)%nat -> map_aligned a -> u <= a -> ~ fits es j a n) \/
     (0 < r /\ map_aligned r /\ u <= r /\ (exists j, fits es j r n) /\
      forall j a, (i <= j)%nat -> map_aligned a -> u <= a -> fits es j a n -> r <= a))).
  { intros Hno. destruct IH as (r & Hr & [[-> Hnone]|(? & ? & ? & ? & Hmin)]).
    - exists 0. split; [done|]. left. split; [done|]. intros j a Hj Ha Hua.
      destruct (decide (j = i)) as [->|]; [by apply Hno|]. apply Hnone; [lia|done..].
    - exists r. split; [done|]. right. split_and!; try done. intros j a Hj Ha Hua Hf.
      destruct (decide (j = i)) as [->|]; [by destruct (Hno a Ha Hua)|]. apply (Hmin j); [lia|done..]. }
  destruct (hi <=? lo) eqn:Hhl; zbool.
  { apply Hskip. intros a Ha _ Hf. apply Hfit in Hf; [lia|done..]. }
  set (start := if (lo <=? u) && (u <? hi) then u else lo).
  assert (Hstart : map_aligned start /\ lo <= start < hi /\ (start = lo \/ start = u) /\
                   (start < u -> hi <= u)).
  { subst start. destruct (lo <=? u) eqn:?, (u <? hi) eqn:?; simpl; zbool; split_and!; done || lia || tauto. }
  destruct Hstart as (Hsa & Hsb & Hsc & Hsd).
  rewrite (u64_small (hi - start)) by regions.
  destruct ((u <=? start) && (n <=? hi - start)) eqn:Hc.
  - zbool. exists start. split; [done|]. right. split_and!; [regions|done|done| |].
    + exists i. apply Hfit; [done..|lia].
    + intros j a Hj Ha Hua Hf. destruct (decide (j = i)) as [->|Hji]; [apply Hfit in Hf; [lia|done..]|].
      destruct Hf as (x' & y' & Hx' & Hy' & Hxa & _). pose proof (wf_at es Hwf _ _ Hx') as [].
      assert (page_num y < end_page x').
      { destruct (decide (j = S i)) as [->|]; [simplify_eq; regions|].
        assert (before y x') by (apply (order_lt es Hs (S i) j); [lia|done..]). regions. }
      lia.
  - apply Hskip. intros a Ha Hua Hf. apply Hfit in Hf; [|done..].
    apply andb_false_iff in Hc as [Hc|Hc]; zbool; lia.
Qed.

Lemma FindMapSpaceAboveHint_spec self es uaddr n :
  vm_inv self es -> es <> [] -> 0 < n <= two64 - 16 -> is_u64 uaddr -> alloc_aligned uaddr ->
  exists l self' es' r, NaClVmmapFindMapSpaceAboveHint self uaddr n = (l, Ret (self', r)) /\
    queried self es self' es' l /\
    lowest_hole (lookup_page es') (uaddr / 4096) (NaClRoundPageNumUpToMapMultiple n) r.
Proof.
  intros Hinv Hne Hn Hu Hua. unfold NaClVmmapFindMapSpaceAboveHint. rewrite shiftr_page.
  destruct (MakeSorted_spec self es Hinv) as (l & self' & es' & -> & Hinv' & Hp & Hs & _ & _ & Hnet).
  pose proof Hinv' as [[Hh Hnv _ _] Hwf Hl _ _].
  assert (Hne' : es' <> []) by (intros ->; by apply Permutation_nil_l in Hp).
  destruct (NaClRoundPageNum_spec n) as (Ha & Hr & Hur); [lia|].
  assert (Hup : map_aligned (uaddr / 4096) /\ 0 <= uaddr / 4096 < two64).
  { unfold alloc_aligned, map_aligned in *. unfold_words. Z.div_mod_to_equations. lia. }
  destruct (AboveHint_loop_spec (vmentry self') es' (uaddr / 4096) (NaClRoundPageNumUpToMapMultiple n)
    Hh Hwf Hs ltac:(zlia) Ha (proj1 Hup) (proj2 Hup) (length es' - 1) 0)
    as (r & Hloop & Hspec); [lia|done|].
  exists l, self', es', r. split_and!; [|done..|].
  - apply M_bind_pure. by rewrite Hnv, Hloop.
  - destruct Hspec as [[-> Hnone]|(? & ? & ? & (j & Hf) & Hmin)].
    + left. split; [done|]. intros a Haa Hge Hho He.
      destruct (hole_fits es' Hwf Hl Hs a (NaClRoundPageNumUpToMapMultiple n)) as [i Hf]; [lia|done|done|].
      apply (Hnone i a); [lia|done..].
    + right. apply fits_hole in Hf as [??]; [|done..|lia]. split_and!; try done.
      intros a Haa Hge Hho He.
      destruct (hole_fits es' Hwf Hl Hs a (NaClRoundPageNumUpToMapMultiple n)) as [i Hf]; [lia|done|done|].
      apply (Hmin i a); [lia|done..].
Qed.
