(* ===== verification/DynArray.v ===== *)
(** * Dynamic arrays: dyn_array.c

    A growable array of pointers with a bitmap of the occupied slots and a hint
    ([avail_ix]) for the first word of the bitmap that is not full.  Indices are
    [size_t] values; a slot is [None] for NULL.  The descriptor table of an
    application is one of these. *)

From S2P Require Import Prelude Effects.

Record DynArray {A : Type} := mkDynArray {
  num_entries : Z;
  ptr_array : list (option A);
  ptr_array_space : Z;
  available : list Z;           (* uint32_t words *)
  avail_ix : Z;
}.
Arguments DynArray : clear implicits.
Arguments mkDynArray {A} _ _ _ _ _.

#[global] Instance DynArray_eta A : Updatable (DynArray A) :=
  fun d => mkDynArray (num_entries d) (ptr_array d) (ptr_array_space d) (available d) (avail_ix d).

Definition kBitsPerWord : Z := 32.
Definition kWordIndexShift : Z := 5.
Definition SIZE_T_MAX : Z := two64 - 1.

Definition BitsToAllocWords (nbits : Z) : Z :=
  Z.shiftr (u64 (nbits + kBitsPerWord - 1)) kWordIndexShift.
Definition BitsToIndex (nbits : Z) : Z := Z.shiftr nbits kWordIndexShift.
Definition BitsToOffset (nbits : Z) : Z := Z.land nbits (kBitsPerWord - 1).

(** [ffs] of the C library on 32 bits: one plus the index of the lowest set
    bit, 0 when there is none. *)
Fixpoint ffs_from (n : nat) (i x : Z) : Z :=
  match n with
  | O => 0
  | S n' => if Z.testbit x i then i + 1 else ffs_from n' (i + 1) x
  end.
Definition ffs (x : Z) : Z := ffs_from 32 0 x.

Section Ops.
Context `{Host} {A : Type}.

(** [None] is the failure return 0. *)
Definition DynArrayCtor (initial_size : Z) : option (DynArray A) :=
  let initial_size := if initial_size =? 0 then 32 else initial_size in
  if (SIZE_T_MAX / 8 <? initial_size) || (SIZE_T_MAX / 4 <? BitsToAllocWords initial_size)
  then None
  else if negb (malloc_ok (initial_size * 8)) then None
  else if negb (malloc_ok (BitsToAllocWords initial_size * 4)) then None
  else Some (mkDynArray 0 (replicate (Z.to_nat initial_size) None) initial_size
               (replicate (Z.to_nat (BitsToAllocWords initial_size)) 0) 0).

Definition DynArrayDtor (dap : DynArray A) : DynArray A :=
  dap <| num_entries := 0 |> <| ptr_array := [] |> <| ptr_array_space := 0 |> <| available := [] |>.

Definition DynArrayGet (dap : DynArray A) (idx : Z) : M (option A) :=
  if idx <? num_entries dap then load (ptr_array dap) (Z.to_nat idx) else mret None.

(** The doubling loop of Set; [None] when the size wraps around. *)
Fixpoint DynArraySet_space (fuel : nat) (idx desired_space : Z) : M (option Z) :=
  if desired_space <=? idx then
    match fuel with
    | O => fail OutOfFuel
    | S fuel' =>
        let tmp := u64 (2 * desired_space) in
        if tmp <? desired_space then mret None else DynArraySet_space fuel' idx tmp
    end
  else mret (Some desired_space).

(** realloc and memset of the two arrays; the flag is false when an allocation
    fails, in which case the first array may have grown already. *)
Definition DynArraySet_grow (dap : DynArray A) (desired_space : Z) : M (bool * DynArray A) :=
  if two64 <=? desired_space * 8 then fail OutOfBounds   (* the byte count wraps: memset overruns *)
  else if negb (malloc_ok (desired_space * 8)) then mret (false, dap)
  else
    let space := ptr_array_space dap in
    let dap := dap <| ptr_array := take (Z.to_nat space) (ptr_array dap) ++
                                   replicate (Z.to_nat (desired_space - space)) None |> in
    let old_avail_nwords := BitsToAllocWords space in
    let new_avail_nwords := BitsToAllocWords desired_space in
    if negb (malloc_ok (new_avail_nwords * 4)) then mret (false, dap)
    else
      mret (true,
        dap <| available := take (Z.to_nat old_avail_nwords) (available dap) ++
                            replicate (Z.to_nat (new_avail_nwords - old_avail_nwords)) 0 |>
            <| ptr_array_space := desired_space |>).

(** The store itself: the slot, its bit, the hint and the entry count. *)
Definition DynArraySet_write (dap : DynArray A) (idx : Z) (ptr : option A) : M (bool * DynArray A) :=
  arr ← store (ptr_array dap) (Z.to_nat idx) ptr;
  let dap := dap <| ptr_array := arr |> in
  let ix := BitsToIndex idx in
  w ← load (available dap) (Z.to_nat ix);
  let bit := Z.shiftl 1 (BitsToOffset idx) in
  let dap :=
    match ptr with
    | Some _ => dap <| available := <[Z.to_nat ix := Z.lor w bit]> (available dap) |>
    | None =>
        let dap := dap <| available := <[Z.to_nat ix := Z.land w (not32 bit)]> (available dap) |> in
        if ix <? avail_ix dap then dap <| avail_ix := ix |> else dap
    end in
  let dap := if num_entries dap <=? idx then dap <| num_entries := idx + 1 |> else dap in
  mret (true, dap).

Definition DynArraySet (dap : DynArray A) (idx : Z) (ptr : option A) : M (bool * DynArray A) :=
  desired ← DynArraySet_space 64 idx (ptr_array_space dap);
  match desired with
  | None => mret (false, dap)
  | Some desired_space =>
      '(ok, dap) ← (if negb (desired_space =? ptr_array_space dap) then DynArraySet_grow dap desired_space
                    else mret (true, dap));
      if negb ok then mret (false, dap) else DynArraySet_write dap idx ptr
  end.

(** The scan of the bitmap: the first word that is not all ones, with [n]
    words to go. *)
Fixpoint FirstAvail_scan (words : list Z) (n : nat) (ix : Z) : M (option (Z * Z)) :=
  match n with
  | O => mret None
  | S n' =>
      w ← load words (Z.to_nat ix);
      if negb (0 =? not32 w) then mret (Some (ix, w)) else FirstAvail_scan words n' (ix + 1)
  end.

Definition DynArrayFirstAvail (dap : DynArray A) : M (DynArray A * Z) :=
  let last_ix := BitsToAllocWords (ptr_array_space dap) in
  r ← FirstAvail_scan (available dap) (Z.to_nat (last_ix - avail_ix dap)) (avail_ix dap);
  match r with
  | Some (ix, w) =>
      mret (dap <| avail_ix := ix |>,
            u64 (u64 (ffs (not32 w) - 1) + u64 (Z.shiftl ix kWordIndexShift)))
  | None => mret (dap, ptr_array_space dap)
  end.

End Ops.

(** ** The abstract view: a partial function from indices to pointers *)

Definition slots {A} (d : DynArray A) (i : Z) : option A :=
  if decide (0 <= i < ptr_array_space d) then mjoin (ptr_array d !! Z.to_nat i) else None.

(** Bit [i] of the bitmap. *)
Definition bit (ws : list Z) (i : Z) : bool :=
  match ws !! Z.to_nat (i / 32) with
  | Some w => Z.testbit w (i mod 32)
  | None => false
  end.

(** The number of slots is kept below 2^58, where the sizes in bytes and the
    word counts cannot wrap around. *)
Definition SPACE_LIMIT : Z := 2 ^ 58.

Record da_inv {A} (d : DynArray A) : Prop := {
  da_space : 0 < ptr_array_space d < SPACE_LIMIT;
  da_ptrs : ptr_array_space d <= Z.of_nat (length (ptr_array d));
  da_words : Z.of_nat (length (available d)) = BitsToAllocWords (ptr_array_space d);
  da_u32 : Forall is_u32 (available d);
  da_bits : forall i, 0 <= i -> bit (available d) i = true <-> is_Some (slots d i);
  da_hint : 0 <= avail_ix d /\ forall i, 0 <= i < 32 * avail_ix d -> is_Some (slots d i);
  da_num : 0 <= num_entries d <= ptr_array_space d /\
           forall i, is_Some (slots d i) -> i < num_entries d;
}.

Lemma BitsToAllocWords_val n : 0 <= n < SPACE_LIMIT -> BitsToAllocWords n = (n + 31) / 32.
Proof.
  unfold SPACE_LIMIT. intros Hn. unfold BitsToAllocWords, kBitsPerWord, kWordIndexShift.
  rewrite u64_small by zlia. rewrite Z.shiftr_div_pow2 by lia. f_equal; lia.
Qed.

Lemma BitsToIndex_val n : BitsToIndex n = n / 32.
Proof. by apply Z.shiftr_div_pow2. Qed.

Lemma BitsToOffset_val n : BitsToOffset n = n mod 32.
Proof. by apply (Z.land_ones n 5). Qed.

(** *** Words *)

Lemma testbit_high w j : is_u32 w -> 32 <= j -> Z.testbit w j = false.
Proof.
  intros [Hw Hlt] Hj. destruct (decide (w = 0)) as [->|]; [apply Z.testbit_0_l|].
  apply Z.bits_above_log2; [lia|]. apply Z.log2_lt_pow2; [lia|].
  apply Z.lt_le_trans with (2 ^ 32); [exact Hlt|]. apply Z.pow_le_mono_r; lia.
Qed.

Lemma u32_of_bits w : (0 <= w) -> (forall j, 32 <= j -> Z.testbit w j = false) -> is_u32 w.
Proof.
  intros Hw Hb. split; [done|]. destruct (decide (w = 0)) as [->|]; [done|].
  apply (Z.log2_lt_pow2 w 32); [lia|].
  destruct (decide (Z.log2 w < 32)); [done|]. exfalso.
  assert (Hl : Z.testbit w (Z.log2 w) = true) by (apply Z.bit_log2; lia).
  rewrite Hb in Hl by lia. done.
Qed.

Lemma not32_testbit w j : 0 <= j < 32 -> Z.testbit (not32 w) j = negb (Z.testbit w j).
Proof.
  intros Hj. unfold not32. rewrite Z.lxor_spec. change (two32 - 1) with (Z.ones 32).
  rewrite Z.testbit_ones_nonneg by lia. replace (j <? 32) with true by (symmetry; apply Z.ltb_lt; lia).
  by destruct (Z.testbit w j).
Qed.

Lemma not32_u32 w : is_u32 w -> is_u32 (not32 w).
Proof.
  intros Hw. apply u32_of_bits.
  - apply Z.lxor_nonneg. destruct Hw. unfold two32. lia.
  - intros j Hj. unfold not32. rewrite Z.lxor_spec, testbit_high by done.
    change (two32 - 1) with (Z.ones 32). rewrite Z.testbit_ones_nonneg by lia.
    by replace (j <? 32) with false by (symmetry; apply Z.ltb_ge; lia).
Qed.

Lemma set_bit_testbit w k j :
  0 <= k < 32 -> 0 <= j -> Z.testbit (Z.lor w (Z.shiftl 1 k)) j = Z.testbit w j || (j =? k).
Proof.
  intros Hk Hj. rewrite Z.lor_spec. f_equal. rewrite Z.shiftl_1_l, Z.pow2_bits_eqb by lia.
  apply Z.eqb_sym.
Qed.

Lemma clear_bit_testbit w k j :
  0 <= k < 32 -> 0 <= j < 32 ->
  Z.testbit (Z.land w (not32 (Z.shiftl 1 k))) j = Z.testbit w j && negb (j =? k).
Proof.
  intros Hk Hj. rewrite Z.land_spec, not32_testbit by done. do 2 f_equal.
  rewrite Z.shiftl_1_l, Z.pow2_bits_eqb by lia. apply Z.eqb_sym.
Qed.

Lemma set_bit_u32 w k : is_u32 w -> 0 <= k < 32 -> is_u32 (Z.lor w (Z.shiftl 1 k)).
Proof.
  intros Hw Hk. apply u32_of_bits.
  - apply Z.lor_nonneg. destruct Hw. split; [done|]. apply Z.shiftl_nonneg. lia.
  - intros j Hj. rewrite set_bit_testbit, testbit_high by (done || lia).
    apply Z.eqb_neq. lia.
Qed.

Lemma clear_bit_u32 w k : is_u32 w -> is_u32 (Z.land w (not32 (Z.shiftl 1 k))).
Proof.
  intros Hw. apply u32_of_bits.
  - apply Z.land_nonneg. left. by destruct Hw.
  - intros j Hj. by rewrite Z.land_spec, testbit_high.
Qed.

Lemma ffs_from_spec x n i :
  let r := ffs_from n i x in
  (r = 0 /\ forall j, i <= j < i + Z.of_nat n -> Z.testbit x j = false) \/
  (i < r <= i + Z.of_nat n /\ Z.testbit x (r - 1) = true /\
   forall j, i <= j < r - 1 -> Z.testbit x j = false).
Proof.
  revert i. induction n as [|n IH]; intros i; simpl; [left; split; [done|lia]|].
  destruct (Z.testbit x i) eqn:Hb.
  - right. replace (i + 1 - 1) with i by lia. split; [lia|]. split; [done|lia].
  - destruct (IH (i + 1)) as [[-> Hn]|(Hr & Ht & Hn)].
    + left. split; [done|]. intros j Hj. destruct (decide (j = i)) as [->|]; [done|]. apply Hn. lia.
    + right. split; [lia|]. split; [done|]. intros j Hj.
      destruct (decide (j = i)) as [->|]; [done|]. apply Hn. lia.
Qed.

Lemma full_word w : is_u32 w -> not32 w = 0 <-> forall j, 0 <= j < 32 -> Z.testbit w j = true.
Proof.
  intros Hw. split.
  - intros H0 j Hj. pose proof (not32_testbit w j Hj) as Ht. rewrite H0, Z.testbit_0_l in Ht.
    by destruct (Z.testbit w j).
  - intros Hb. apply Z.bits_inj'. intros j Hj. rewrite Z.testbit_0_l.
    destruct (decide (j < 32)); [rewrite not32_testbit, Hb by lia; done|].
    apply testbit_high; [by apply not32_u32|lia].
Qed.

(** *** Operations on the bitmap *)

Lemma bit_insert ws i j w' :
  0 <= i -> 0 <= j -> (Z.to_nat (i / 32) < length ws)%nat ->
  bit (<[Z.to_nat (i / 32) := w']> ws) j =
  if decide (j / 32 = i / 32) then Z.testbit w' (j mod 32) else bit ws j.
Proof.
  intros Hi Hj Hl. unfold bit. case_decide as Hd.
  - rewrite Hd. by rewrite list_lookup_insert_eq.
  - rewrite list_lookup_insert_ne; [done|]. intros Heq. apply Hd.
    apply Z2Nat.inj in Heq; [done|apply Z.div_pos; lia..].
Qed.

Lemma div_mod_eq i j : i / 32 = j / 32 -> i mod 32 = j mod 32 -> i = j.
Proof. intros. pose proof (Z.div_mod i 32). pose proof (Z.div_mod j 32). lia. Qed.

Lemma bit_set ws i j w :
  0 <= i -> 0 <= j -> ws !! Z.to_nat (i / 32) = Some w ->
  bit (<[Z.to_nat (i / 32) := Z.lor w (Z.shiftl 1 (i mod 32))]> ws) j = bit ws j || (j =? i).
Proof.
  intros Hi Hj Hw. pose proof (lookup_lt_Some _ _ _ Hw). pose proof (Z.mod_pos_bound i 32).
  pose proof (Z.mod_pos_bound j 32). rewrite bit_insert by done. case_decide as Hd.
  - rewrite set_bit_testbit by lia. unfold bit. rewrite Hd, Hw. f_equal.
    apply eq_bool_prop_intro. rewrite !Is_true_true, !Z.eqb_eq. split; [by apply div_mod_eq|by intros ->].
  - replace (j =? i) with false; [by rewrite orb_false_r|]. symmetry. apply Z.eqb_neq. by intros ->.
Qed.

Lemma bit_clear ws i j w :
  0 <= i -> 0 <= j -> ws !! Z.to_nat (i / 32) = Some w ->
  bit (<[Z.to_nat (i / 32) := Z.land w (not32 (Z.shiftl 1 (i mod 32)))]> ws) j =
  bit ws j && negb (j =? i).
Proof.
  intros Hi Hj Hw. pose proof (lookup_lt_Some _ _ _ Hw). pose proof (Z.mod_pos_bound i 32).
  pose proof (Z.mod_pos_bound j 32). rewrite bit_insert by done. case_decide as Hd.
  - rewrite clear_bit_testbit by lia. unfold bit. rewrite Hd, Hw. do 2 f_equal.
    apply eq_bool_prop_intro. rewrite !Is_true_true, !Z.eqb_eq. split; [by apply div_mod_eq|by intros ->].
  - replace (j =? i) with false; [by rewrite andb_true_r|]. symmetry. apply Z.eqb_neq. by intros ->.
Qed.

Lemma bit_extend ws n j :
  0 <= j -> bit (ws ++ replicate n 0) j = bit ws j.
Proof.
  intros Hj. unfold bit. destruct (decide (Z.to_nat (j / 32) < length ws)%nat).
  - by rewrite lookup_app_l.
  - rewrite lookup_app_r, (lookup_ge_None_2 ws) by lia.
    destruct (replicate n 0 !! _) as [w|] eqn:Hw; [|done].
    apply lookup_replicate in Hw as [-> _]. apply Z.testbit_0_l.
Qed.

Section Correct.
Context `{Host} {A : Type}.
Implicit Types d : DynArray A.

Lemma Get_spec d i : da_inv d -> 0 <= i -> DynArrayGet d i = mret (slots d i).
Proof.
  intros [Hs Hp _ _ _ _ [Hn Hocc]] Hi. unfold DynArrayGet. case_match eqn:Hc; zbool.
  - unfold load, slots. rewrite decide_True by lia.
    destruct (lookup_lt_is_Some_2 (ptr_array d) (Z.to_nat i)) as [x Hx]; [lia|]. by rewrite Hx.
  - specialize (Hocc i). destruct (slots d i) as [x|]; [|done]. exfalso.
    assert (i < num_entries d) by eauto. lia.
Qed.

(** Doubling ends above the index after at most 64 rounds. *)
Lemma Set_space_spec idx : forall n s,
  0 < s -> 0 <= idx < SPACE_LIMIT / 2 -> s < SPACE_LIMIT -> SPACE_LIMIT <= s * 2 ^ Z.of_nat n ->
  exists s', DynArraySet_space n idx s = mret (Some s') /\ s <= s' < SPACE_LIMIT /\ idx < s' /\
    (idx < s -> s' = s).
Proof.
  change (SPACE_LIMIT / 2) with (2 ^ 57). unfold SPACE_LIMIT.
  induction n as [|n IH]; intros s Hs Hi Hlim Hpow; cbn [DynArraySet_space].
  - rewrite Z.pow_0_r in Hpow. lia.
  - case_match eqn:Hc; zbool.
    + rewrite u64_small by zlia. replace (2 * s <? s) with false by (symmetry; apply Z.ltb_ge; lia).
      destruct (IH (2 * s)) as (s' & -> & Hs' & Hi' & _); [lia|lia|lia| |].
      { rewrite Nat2Z.inj_succ, Z.pow_succ_r in Hpow by lia. nia. }
      exists s'. split_and!; [done|lia..].
    + exists s. split_and!; [done|lia..].
Qed.

(** Growing adds empty slots only. *)
Lemma grow_inv d s :
  da_inv d -> ptr_array_space d <= s < SPACE_LIMIT ->
  let d' := d <| ptr_array := take (Z.to_nat (ptr_array_space d)) (ptr_array d) ++
                   replicate (Z.to_nat (s - ptr_array_space d)) None |>
              <| available := take (Z.to_nat (BitsToAllocWords (ptr_array_space d))) (available d) ++
                   replicate (Z.to_nat (BitsToAllocWords s - BitsToAllocWords (ptr_array_space d))) 0 |>
              <| ptr_array_space := s |> in
  da_inv d' /\ forall i, slots d' i = slots d i.
Proof.
  intros [Hs Hp Hw Hu Hb [Hh Hh'] [Hn Hn']] Hle d'.
  assert (Hsl : forall i, slots d' i = slots d i).
  { intros i. unfold slots, d'. simpl. repeat case_decide; try lia; [| |done].
    - by rewrite lookup_app_l, lookup_take_lt by (rewrite ?length_take; lia).
    - rewrite lookup_app_r by (rewrite length_take; lia).
      destruct (replicate _ None !! _) as [x|] eqn:Hx; [|done].
      by apply lookup_replicate in Hx as [-> _]. }
  split; [|done].
  assert (Hwl : BitsToAllocWords (ptr_array_space d) <= BitsToAllocWords s).
  { rewrite !BitsToAllocWords_val by lia. apply Z.div_le_mono; lia. }
  assert (Hav : available d' = available d ++
    replicate (Z.to_nat (BitsToAllocWords s - BitsToAllocWords (ptr_array_space d))) 0).
  { unfold d'. simpl. rewrite take_ge; [done|lia]. }
  split; try done.
  - simpl. lia.
  - simpl. rewrite length_app, length_take, length_replicate. lia.
  - rewrite Hav, length_app, length_replicate. change (ptr_array_space d') with s. lia.
  - rewrite Hav. apply Forall_app. split; [done|]. by apply Forall_replicate.
  - intros i Hi. rewrite Hav, bit_extend, Hsl by done. by apply Hb.
  - split; [done|]. intros i Hi. rewrite Hsl. by apply Hh'.
  - split; [simpl; lia|]. intros i. rewrite Hsl. apply Hn'.
Qed.

Lemma Set_write_spec d idx ptr :
  da_inv d -> 0 <= idx < ptr_array_space d ->
  exists d', DynArraySet_write d idx ptr = mret (true, d') /\ da_inv d' /\
    (forall i, slots d' i = if decide (i = idx) then ptr else slots d i).
Proof.
  intros [Hs Hp Hw Hu Hb [Hh Hh'] [Hn Hn']] Hidx. unfold DynArraySet_write.
  rewrite BitsToIndex_val, BitsToOffset_val.
  assert (Hix : (Z.to_nat (idx / 32) < length (available d))%nat).
  { rewrite BitsToAllocWords_val in Hw by lia. Z.div_mod_to_equations. lia. }
  destruct (lookup_lt_is_Some_2 _ _ Hix) as [w Hwd].
  assert (Huw : is_u32 w) by (rewrite Forall_lookup in Hu; eauto).
  pose proof (Z.mod_pos_bound idx 32 ltac:(lia)) as Hmod.
  rewrite store_ok by lia. rewrite M_bind_ret_l. simpl. rewrite (load_ok _ _ w), M_bind_ret_l by done.
  eexists. split; [reflexivity|].
  match goal with |- da_inv ?x /\ _ => set (d' := x) end.
  assert (Hpa : ptr_array d' = <[Z.to_nat idx := ptr]> (ptr_array d))
    by (unfold d'; destruct ptr; repeat case_match; done).
  assert (Hsp : ptr_array_space d' = ptr_array_space d)
    by (unfold d'; destruct ptr; repeat case_match; done).
  assert (Hav : available d' = <[Z.to_nat (idx / 32) :=
      match ptr with Some _ => Z.lor w (Z.shiftl 1 (idx mod 32))
                   | None => Z.land w (not32 (Z.shiftl 1 (idx mod 32))) end]> (available d))
    by (unfold d'; destruct ptr; repeat case_match; done).
  assert (Hai : avail_ix d' = match ptr with Some _ => avail_ix d | None => Z.min (avail_ix d) (idx / 32) end)
    by (unfold d'; destruct ptr; repeat case_match; zbool; simpl in *; lia).
  assert (Hnu : num_entries d' = Z.max (num_entries d) (idx + 1))
    by (unfold d'; destruct ptr; repeat case_match; zbool; simpl in *; lia).
  assert (Hsl : forall i, slots d' i = if decide (i = idx) then ptr else slots d i).
  { intros i. unfold slots. rewrite Hpa, Hsp. case_decide as Hi; case_decide as Hc; try done; try lia.
    - subst. rewrite list_lookup_insert_eq by lia. done.
    - rewrite list_lookup_insert_ne by lia. done. }
  split; [|done]. split; rewrite ?Hsp, ?Hpa, ?Hnu, ?Hai; try done.
  - by rewrite length_insert.
  - by rewrite Hav, length_insert.
  - rewrite Hav. apply Forall_insert; [done|]. destruct ptr; [by apply set_bit_u32|by apply clear_bit_u32].
  - intros i Hi. rewrite Hsl, Hav. destruct ptr as [a|].
    + rewrite (bit_set _ idx i w), orb_true_iff, Z.eqb_eq, Hb by (done || lia).
      case_decide; [split; eauto|tauto].
    + rewrite (bit_clear _ idx i w), andb_true_iff, negb_true_iff, Z.eqb_neq, Hb by (done || lia).
      case_decide as He; [|tauto]. split; [tauto|]. by intros [? ?].
  - assert (0 <= idx / 32) by (apply Z.div_pos; lia). split; [destruct ptr; lia|].
    intros i Hi. rewrite Hsl. case_decide as He.
    + subst. destruct ptr; [done|]. exfalso. pose proof (Z.mul_div_le idx 32). lia.
    + apply Hh'. destruct ptr; lia.
  - split; [lia|]. intros i. rewrite Hsl. case_decide; [lia|]. intros Ho%Hn'. lia.
Qed.

(** Set writes one slot and leaves the others, growing the array on demand. *)
Lemma Set_spec d idx ptr :
  (forall n, malloc_ok n = true) -> da_inv d -> 0 <= idx < SPACE_LIMIT / 2 ->
  exists d', DynArraySet d idx ptr = mret (true, d') /\ da_inv d' /\
    (forall i, slots d' i = if decide (i = idx) then ptr else slots d i).
Proof.
  intros Hm Hinv Hidx. pose proof (da_space _ Hinv) as Hs. unfold DynArraySet.
  destruct (Set_space_spec idx 64 (ptr_array_space d)) as (s & -> & Hle & Hi & Hsame);
    [lia|done|lia|unfold SPACE_LIMIT in *; lia|].
  rewrite M_bind_ret_l.
  destruct (decide (s = ptr_array_space d)) as [->|Hne].
  - rewrite Z.eqb_refl. cbn [negb]. rewrite M_bind_ret_l. cbn [negb].
    by apply Set_write_spec; [|lia].
  - replace (s =? ptr_array_space d) with false by (symmetry; by apply Z.eqb_neq). cbn [negb].
    unfold DynArraySet_grow. rewrite !Hm.
    replace (two64 <=? s * 8) with false by (symmetry; apply Z.leb_gt; unfold SPACE_LIMIT in *; zlia).
    destruct (grow_inv d s Hinv) as [Hinv' Hsl]; [lia|].
    match goal with |- context [mret (true, ?x)] => set (d1 := x) in * end.
    cbn [negb]. rewrite M_bind_ret_l. cbn [negb].
    destruct (Set_write_spec d1 idx ptr Hinv') as (d' & Hw & Hinv'' & Hsl'); [simpl; lia|].
    exists d'. split_and!; [exact Hw|done|]. intros i. rewrite Hsl', Hsl. done.
Qed.

(** When no memory is left for growing, Set fails and changes no slot. *)
Lemma Set_no_memory d idx ptr :
  (forall n, malloc_ok n = false) -> da_inv d ->
  ptr_array_space d <= idx < SPACE_LIMIT / 2 -> DynArraySet d idx ptr = mret (false, d).
Proof.
  intros Hm Hinv Hidx. pose proof (da_space _ Hinv) as Hs. unfold DynArraySet.
  destruct (Set_space_spec idx 64 (ptr_array_space d)) as (s & -> & Hle & Hi & Hsame);
    [lia|lia|lia|unfold SPACE_LIMIT in *; lia|].
  rewrite M_bind_ret_l. replace (s =? ptr_array_space d) with false by (symmetry; apply Z.eqb_neq; lia).
  simpl. unfold DynArraySet_grow.
  replace (two64 <=? s * 8) with false by (symmetry; apply Z.leb_gt; unfold SPACE_LIMIT in *; zlia).
  by rewrite Hm.
Qed.

Lemma scan_spec ws n : forall ix,
  0 <= ix -> ix + Z.of_nat n = Z.of_nat (length ws) ->
  exists r, FirstAvail_scan ws n ix = mret r /\
  match r with
  | Some (ix', w) => ix <= ix' /\ ws !! Z.to_nat ix' = Some w /\ not32 w <> 0 /\
      forall k v, ix <= k < ix' -> ws !! Z.to_nat k = Some v -> not32 v = 0
  | None => forall k v, ix <= k -> ws !! Z.to_nat k = Some v -> not32 v = 0
  end.
Proof.
  induction n as [|n IH]; intros ix Hix Hn; cbn [FirstAvail_scan].
  - exists None. split; [done|]. intros k v Hk Hv%lookup_lt_Some. lia.
  - destruct (lookup_lt_is_Some_2 ws (Z.to_nat ix)) as [w Hw]; [lia|].
    rewrite (load_ok _ _ w Hw), M_bind_ret_l. destruct (0 =? not32 w) eqn:Hz; cbn [negb]; zbool.
    + destruct (IH (ix + 1)) as (r & -> & Hr); [lia|lia|]. exists r. split; [done|].
      destruct r as [[ix' w']|].
      * destruct Hr as (? & ? & ? & Hall). split_and!; [lia|done|done|].
        intros k v Hk Hv. destruct (decide (k = ix)) as [->|]; [by simplify_eq|].
        apply (Hall k); [lia|done].
      * intros k v Hk Hv. destruct (decide (k = ix)) as [->|]; [by simplify_eq|].
        apply (Hr k); [lia|done].
    + exists (Some (ix, w)). split; [done|]. split_and!; [lia|done|lia|lia].
Qed.

(** Every slot of a full word is occupied. *)
Lemma full_word_slots d k v i :
  da_inv d -> 0 <= i -> i / 32 = k -> available d !! Z.to_nat k = Some v -> not32 v = 0 ->
  is_Some (slots d i).
Proof.
  intros Hinv Hi <- Hv Hz. apply (da_bits _ Hinv); [done|]. unfold bit. rewrite Hv.
  pose proof (da_u32 _ Hinv) as Hu. rewrite Forall_lookup in Hu.
  apply (full_word v); [eauto|done|]. apply Z.mod_pos_bound. lia.
Qed.

(** Nothing is stored at or above the end of the array. *)
Lemma slots_above d i : ptr_array_space d <= i -> slots d i = None.
Proof. intros Hi. unfold slots. by rewrite decide_False by lia. Qed.

Lemma least_free_bound d r :
  (forall j, 0 <= j < r -> is_Some (slots d j)) -> 0 < ptr_array_space d -> r <= ptr_array_space d.
Proof.
  intros Hall Hs. destruct (decide (r <= ptr_array_space d)); [done|]. exfalso.
  specialize (Hall (ptr_array_space d) ltac:(lia)). rewrite slots_above in Hall by lia. by destruct Hall.
Qed.

Lemma hint_bound d : da_inv d -> avail_ix d <= BitsToAllocWords (ptr_array_space d).
Proof.
  intros [Hs _ _ _ _ [Hh Hh'] _]. pose proof (least_free_bound d _ Hh' (proj1 Hs)).
  rewrite BitsToAllocWords_val by lia. Z.div_mod_to_equations. lia.
Qed.

(** Full words from the hint on extend the occupied prefix. *)
Lemma full_prefix d ix :
  da_inv d -> ix <= BitsToAllocWords (ptr_array_space d) ->
  (forall k v, avail_ix d <= k < ix -> available d !! Z.to_nat k = Some v -> not32 v = 0) ->
  forall j, 0 <= j < 32 * ix -> is_Some (slots d j).
Proof.
  intros Hinv Hlix Hfull j Hj. destruct (da_hint _ Hinv) as [Hh Hh'].
  destruct (decide (j < 32 * avail_ix d)); [apply Hh'; lia|].
  assert (avail_ix d <= j / 32 < ix) by (Z.div_mod_to_equations; lia).
  destruct (lookup_lt_is_Some_2 (available d) (Z.to_nat (j / 32))) as [v Hv];
    [pose proof (da_words _ Hinv); lia|].
  apply (full_word_slots d (j / 32) v); [done|lia|done|done|]. by apply (Hfull (j / 32)).
Qed.

(** The lowest clear bit of a word that is not full. *)
Lemma ffs_not32 w :
  is_u32 w -> not32 w <> 0 ->
  let o := ffs (not32 w) - 1 in
  0 <= o < 32 /\ Z.testbit w o = false /\ forall j, 0 <= j < o -> Z.testbit w j = true.
Proof.
  intros Hw Hnz o. destruct (ffs_from_spec (not32 w) 32 0) as [[_ Hz]|(Hr & Ht & Hlow)].
  - destruct Hnz. apply full_word; [done|]. intros j Hj. specialize (Hz j ltac:(lia)).
    rewrite not32_testbit in Hz by done. by destruct (Z.testbit w j).
  - change (ffs_from 32 0 (not32 w)) with (ffs (not32 w)) in *. fold o in Ht, Hlow.
    assert (Ho : 0 <= o < 32) by lia. split_and!; [lia..| |].
    + rewrite not32_testbit in Ht by done. by destruct (Z.testbit w o).
    + intros j Hj. specialize (Hlow j ltac:(lia)). rewrite not32_testbit in Hlow by lia.
      by destruct (Z.testbit w j).
Qed.

(** FirstAvail returns the least free index; only the hint changes. *)
Lemma FirstAvail_spec d :
  da_inv d ->
  exists d' r, DynArrayFirstAvail d = mret (d', r) /\ da_inv d' /\
    (forall i, slots d' i = slots d i) /\ 0 <= r <= ptr_array_space d /\ slots d r = None /\
    forall j, 0 <= j < r -> is_Some (slots d j).
Proof.
  intros Hinv. pose proof Hinv as [Hs Hp Hw Hu Hb [Hh Hh'] [Hn Hn']]. unfold DynArrayFirstAvail.
  pose proof (hint_bound d Hinv) as Hle.
  destruct (scan_spec (available d) (Z.to_nat (BitsToAllocWords (ptr_array_space d) - avail_ix d)) (avail_ix d))
    as ([[ix w]|] & -> & Hr); [done|lia|rewrite M_bind_ret_l..].
  - destruct Hr as (Hge & Hwd & Hnz & Hfull). pose proof (lookup_lt_Some _ _ _ Hwd) as Hlt.
    pose proof (full_prefix d ix Hinv ltac:(lia) Hfull) as Hbelow.
    destruct (ffs_not32 w) as (Ho & Hclear & Hset); [rewrite Forall_lookup in Hu; eauto|done|].
    set (o := ffs (not32 w) - 1) in *.
    assert (Hsum : u64 (u64 o + u64 (Z.shiftl ix kWordIndexShift)) = 32 * ix + o).
    { unfold kWordIndexShift. rewrite Z.shiftl_mul_pow2 by lia. unfold SPACE_LIMIT in *.
      assert (32 * ix < 2 ^ 59)
        by (rewrite BitsToAllocWords_val in Hw by (unfold SPACE_LIMIT; lia); Z.div_mod_to_equations; lia).
      rewrite (u64_small o), (u64_small (ix * _)), u64_small by zlia. lia. }
    assert (Hdm : (32 * ix + o) / 32 = ix /\ (32 * ix + o) mod 32 = o) by (Z.div_mod_to_equations; lia).
    assert (Hlow : forall j, 0 <= j < 32 * ix + o -> is_Some (slots d j)).
    { intros j Hj. destruct (decide (j < 32 * ix)); [apply Hbelow; lia|]. apply Hb; [lia|]. unfold bit.
      assert (j / 32 = ix /\ j mod 32 = j - 32 * ix) as [-> ->] by (Z.div_mod_to_equations; lia).
      rewrite Hwd. apply Hset. lia. }
    exists (d <| avail_ix := ix |>), (32 * ix + o). rewrite Hsum.
    split_and!; try done; [|lia|apply least_free_bound; [done|lia]|].
    + split; try done. split; [simpl; lia|]. exact Hbelow.
    + apply eq_None_not_Some. rewrite <- Hb by lia. unfold bit. destruct Hdm as [-> ->].
      by rewrite Hwd, Hclear.
  - exists d, (ptr_array_space d). split_and!; try done; try lia; [apply slots_above; lia|].
    intros j Hj. apply (full_prefix d (BitsToAllocWords (ptr_array_space d))); [done|lia| |].
    + intros k v Hk. apply Hr. lia.
    + rewrite BitsToAllocWords_val by lia. Z.div_mod_to_equations. lia.
Qed.

Lemma Ctor_spec n :
  (forall k, malloc_ok k = true) -> 0 <= n < SPACE_LIMIT ->
  exists d, DynArrayCtor (A:=A) n = Some d /\ da_inv d /\ forall i, slots d i = None.
Proof.
  intros Hm Hn. unfold DynArrayCtor. rewrite !Hm. simpl.
  set (m := if n =? 0 then 32 else n).
  assert (Hmr : 0 < m < SPACE_LIMIT) by (unfold m, SPACE_LIMIT in *; case_match; zbool; lia).
  assert (Hwm : 0 <= BitsToAllocWords m <= m).
  { rewrite BitsToAllocWords_val by lia. Z.div_mod_to_equations. lia. }
  change (SIZE_T_MAX / 8) with 2305843009213693951. change (SIZE_T_MAX / 4) with 4611686018427387903.
  unfold SPACE_LIMIT in *.
  replace (_ <? m) with false by (symmetry; apply Z.ltb_ge; lia).
  replace (_ <? BitsToAllocWords m) with false by (symmetry; apply Z.ltb_ge; lia).
  eexists. split; [reflexivity|].
  assert (Hsl : forall i, slots (mkDynArray 0 (replicate (Z.to_nat m) (@None A)) m
    (replicate (Z.to_nat (BitsToAllocWords m)) 0) 0) i = None).
  { intros i. unfold slots. simpl. case_decide; [|done]. by rewrite lookup_replicate_2 by lia. }
  split; [|done]. split; simpl; rewrite ?length_replicate; try (unfold SPACE_LIMIT; lia).
  - apply Forall_replicate. done.
  - intros i Hi. rewrite Hsl. change (replicate (Z.to_nat (BitsToAllocWords m)) 0)
      with ([] ++ replicate (Z.to_nat (BitsToAllocWords m)) 0).
    rewrite bit_extend by done. unfold bit. simpl. split; [done|]. by intros [? ?].
  - split; [lia|]. intros i Hi. lia.
  - split; [lia|]. intros i. rewrite Hsl. by intros [? ?].
Qed.
End Correct.

(** An array that was constructed, under any allocator. *)
Lemma Ctor_returns `{h : Host} {A} n (d : DynArray A) :
  0 <= n < SPACE_LIMIT -> DynArrayCtor n = Some d -> da_inv d /\ forall i, slots d i = None.
Proof.
  intros Hn Hd. destruct (Ctor_spec (H:=plentiful h) (A:=A) n (fun _ => eq_refl) Hn) as (d' & Hd' & Hinv).
  assert (d = d') as ->; [|done]. unfold DynArrayCtor in *. cbn [malloc_ok plentiful negb] in Hd'.
  repeat case_match; congruence.
Qed.
