(* ===== verification/Policy.v ===== *)
(** * Policy and accounting data

    The structures of api/zvm.h shared between the runtime and the user
    program (channels and the user policy), the manifest of
    manifest_setup.h, and the accounting procedures of manifest_setup.c. *)

From S2P Require Import Prelude.

(** ** api/zvm.h *)

Inductive ChannelType :=
| InputChannel | OutputChannel | LogChannel | NetworkInputChannel | NetworkOutputChannel.

#[global] Instance ChannelType_eq_dec : EqDecision ChannelType.
Proof. solve_decision. Defined.

Definition ChannelType_num (ch : ChannelType) : Z :=
  match ch with
  | InputChannel => 0 | OutputChannel => 1 | LogChannel => 2
  | NetworkInputChannel => 3 | NetworkOutputChannel => 4
  end.

Definition CHANNELS_COUNT : nat := 5.
Definition CHANNEL_PREFIXES : list string := ["Input"; "Output"; "UserLog"; "NetInput"; "NetOutput"].

(** enum TrapCalls *)
Definition TrapUserSetup : Z := 17770430.
Definition TrapRead : Z := 17770431.
Definition TrapWrite : Z := 17770432.
Definition TrapExit : Z := 17770433.

(** enum NANO_CODES, enum TRAP_CODES *)
Definition OK_CODE : Z := 0.
Definition ERR_CODE : Z := -1.
Definition INTERNAL_ERR : Z := 256.
Definition INVALID_DESC : Z := 257.
Definition INVALID_MODE : Z := 258.
Definition INSANE_SIZE : Z := 259.
Definition INSANE_OFFSET : Z := 260.
Definition INVALID_BUFFER : Z := 261.
Definition OUT_OF_BOUNDS : Z := 262.
Definition OUT_OF_LIMITS : Z := 263.

(** enum MountMode *)
Definition MAPPED : Z := 0.
Definition LOADED : Z := 1.
Definition NETWORK : Z := 2.

Definition CONTENT_TYPE_LEN : nat := 64.
Definition TIMESTAMP_LEN : nat := 64.
Definition X_OBJECT_META_TAG_LEN : nat := 256.
Definition USER_TAG_LEN : nat := 64.

(** The [name] pointer is [None] for NULL.  The enums [type] and [mounted] hold
    whatever integer was stored. *)
Record PreOpenedFileDesc := mkChannel {
  ch_self_size : Z;
  ch_name : option string;
  ch_type : Z;
  ch_mounted : Z;
  ch_handle : Z;        (* int32_t *)
  ch_fsize : Z;         (* int64_t *)
  ch_buffer : Z;        (* int32_t *)
  ch_bsize : Z;         (* int32_t *)
  max_size : Z;         (* int64_t *)
  max_gets : Z;         (* int32_t *)
  max_puts : Z;         (* int32_t *)
  max_get_size : Z;     (* int64_t *)
  max_put_size : Z;     (* int64_t *)
  cnt_gets : Z;         (* int32_t *)
  cnt_puts : Z;         (* int32_t *)
  cnt_get_size : Z;     (* int64_t *)
  cnt_put_size : Z;     (* int64_t *)
}.

#[global] Instance PreOpenedFileDesc_eta : Updatable PreOpenedFileDesc :=
  fun c => mkChannel (ch_self_size c) (ch_name c) (ch_type c) (ch_mounted c) (ch_handle c)
    (ch_fsize c) (ch_buffer c) (ch_bsize c) (max_size c) (max_gets c) (max_puts c)
    (max_get_size c) (max_put_size c) (cnt_gets c) (cnt_puts c) (cnt_get_size c) (cnt_put_size c).

Record SetupList := mkSetup {
  su_self_size : Z;
  heap_ptr : Z;           (* uint32_t *)
  max_mem : Z;            (* uint32_t *)
  max_cpu : Z;            (* int32_t *)
  max_syscalls : Z;       (* int32_t *)
  max_setup_calls : Z;    (* int32_t *)
  cnt_mem : Z;
  cnt_cpu : Z;
  cnt_cpu_last : Z;
  cnt_syscalls : Z;
  cnt_setup_calls : Z;
  content_type : string;
  timestamp : string;
  x_object_meta_tag : string;
  user_etag : string;
  su_syscallback : Z;     (* int32_t *)
  channels : list PreOpenedFileDesc;   (* CHANNELS_COUNT of them *)
}.

#[global] Instance SetupList_eta : Updatable SetupList :=
  fun s => mkSetup (su_self_size s) (heap_ptr s) (max_mem s) (max_cpu s) (max_syscalls s)
    (max_setup_calls s) (cnt_mem s) (cnt_cpu s) (cnt_cpu_last s) (cnt_syscalls s)
    (cnt_setup_calls s) (content_type s) (timestamp s) (x_object_meta_tag s) (user_etag s)
    (su_syscallback s) (channels s).

Definition sizeof_PreOpenedFileDesc : Z := 104.
Definition sizeof_SetupList : Z := 1016.

(** ** manifest_setup.h *)

Record SystemList := mkSystem {
  sys_version : option string;
  sys_zerovm : option string;
  sys_log : option string;
  sys_report : option string;
  sys_nexe : option string;
  sys_blob : option string;
  nexe_max : Z;            (* int32_t *)
  nexe_etag : option string;
  sys_timeout : Z;         (* int32_t *)
  sys_kill_timeout : Z;    (* int32_t *)
}.

Record Report := mkReport {
  ret_code : Z;
  etag : option string;
  user_ret_code : Z;
  rep_content_type : option string;
  rep_x_object_meta_tag : option string;
}.

Record Manifest := mkManifest {
  master : list (string * string);   (* master_records key/value pairs *)
  user_setup : SetupList;
  system_setup : option SystemList;
  report : option Report;
}.

#[global] Instance Manifest_eta : Updatable Manifest :=
  fun m => mkManifest (master m) (user_setup m) (system_setup m) (report m).

(** ** Accounting (manifest_setup.c)

    Each procedure increments one counter and returns 0, or -1 when there is
    no manifest; the counters are [int32_t] or [int64_t]. *)

Section Accounting.

(** The INCNT macro on a counter [cnt] of the policy. *)
Definition INCNT (upd : SetupList -> SetupList) (manifest : option Manifest)
  : Z * option Manifest :=
  match manifest with
  | Some m => (0, Some (m <| user_setup := upd (user_setup m) |>))
  | None => (-1, None)
  end.

Definition AccountingSyscallsInc := INCNT (fun s => s <| cnt_syscalls := i32 (cnt_syscalls s + 1) |>).
Definition AccountingSyscallsDec := INCNT (fun s => s <| cnt_syscalls := i32 (cnt_syscalls s + 1) |>).
Definition AccountingMemInc := INCNT (fun s => s <| cnt_mem := i32 (cnt_mem s + 1) |>).
Definition AccountingMemDec := INCNT (fun s => s <| cnt_mem := i32 (cnt_mem s + 1) |>).
Definition AccountingSetupcallsInc :=
  INCNT (fun s => s <| cnt_setup_calls := i32 (cnt_setup_calls s + 1) |>).
Definition AccountingSetupcallsDec :=
  INCNT (fun s => s <| cnt_setup_calls := i32 (cnt_setup_calls s + 1) |>).

(** The INCHCNT and DECHCNT macros on a counter of one channel. *)
Definition INCHCNT (upd : PreOpenedFileDesc -> PreOpenedFileDesc) (ch : nat)
    (manifest : option Manifest) : Z * option Manifest :=
  match manifest with
  | Some m => (0, Some (m <| user_setup :=
                 (user_setup m) <| channels := alter upd ch (channels (user_setup m)) |> |>))
  | None => (-1, None)
  end.

Definition AccountingGetsInc := INCHCNT (fun c => c <| cnt_gets := i32 (cnt_gets c + 1) |>).
Definition AccountingGetsDec := INCHCNT (fun c => c <| cnt_gets := i32 (cnt_gets c - 1) |>).
Definition AccountingPutsInc := INCHCNT (fun c => c <| cnt_puts := i32 (cnt_puts c + 1) |>).
Definition AccountingPutsDec := INCHCNT (fun c => c <| cnt_puts := i32 (cnt_puts c - 1) |>).
Definition AccountingGetSizeInc := INCHCNT (fun c => c <| cnt_get_size := i64 (cnt_get_size c + 1) |>).
Definition AccountingGetSizeDec := INCHCNT (fun c => c <| cnt_get_size := i64 (cnt_get_size c - 1) |>).
Definition AccountingPutSizeInc := INCHCNT (fun c => c <| cnt_put_size := i64 (cnt_put_size c + 1) |>).
Definition AccountingPutSizeDec := INCHCNT (fun c => c <| cnt_put_size := i64 (cnt_put_size c - 1) |>).

End Accounting.

(** A channel counter is restored by its decrement, wrap-around included. *)
Lemma i32_inc_dec z : is_i32 z -> i32 (i32 (z + 1) - 1) = z.
Proof.
  intros Hz. destruct (decide (z = two31 - 1)) as [->|]; [done|].
  rewrite (i32_small (z + 1)), i32_small; zlia.
Qed.

Lemma list_alter_undo {A} (P : A -> Prop) (f g : A -> A) i l :
  (forall x, P x -> g (f x) = x) -> Forall P l -> alter g i (alter f i l) = l.
Proof.
  intros Hgf Hl. revert i. induction Hl as [|x l Hx Hl IH]; intros [|i]; simpl; [done..| |].
  - by rewrite Hgf.
  - f_equal. apply IH.
Qed.

Lemma GetsDec_GetsInc ch m :
  Forall (fun c => is_i32 (cnt_gets c)) (channels (user_setup m)) ->
  AccountingGetsDec ch (AccountingGetsInc ch (Some m)).2 = (0, Some m).
Proof.
  intros Hc. unfold AccountingGetsDec, AccountingGetsInc, INCHCNT. simpl.
  rewrite (list_alter_undo (fun c => is_i32 (cnt_gets c))); [by destruct m as [? [] ??]| |done].
  intros c Hi. destruct c; simpl in *. by rewrite i32_inc_dec.
Qed.
