(* ===== verification/App.v ===== *)
(** * The application object and address translation

    [NaClApp] of sel_ldr.h, the translation between user addresses and
    addresses of the runtime (sel_ldr-inl.h), the constructor and the
    descriptor table of sel_ldr.c.  Fields that no modelled code reads or
    writes (locks, debug hooks, CPU features) are left out. *)

From S2P Require Import Prelude Effects Rounding MemObj Vmmap VmmapSpec VmmapCompact DynArray.
From S2P Require Import Policy.

Record NaClDynamicRegion := mkRegion {
  rg_start : Z;
  rg_size : Z;
  delete_generation : Z;
}.

#[global] Instance NaClDynamicRegion_eq_dec : EqDecision NaClDynamicRegion.
Proof. solve_decision. Defined.

Record NaClApp := mkApp {
  addr_bits : Z;
  stack_size : Z;
  mem_start : Z;
  static_text_end : Z;
  dynamic_text_start : Z;
  dynamic_text_end : Z;
  rodata_start : Z;
  data_start : Z;
  data_end : Z;
  initial_entry_pt : Z;
  user_entry_pt : Z;
  bundle_size : Z;
  mem_map : NaClVmmap;
  use_shm_for_dynamic_text : bool;
  text_shm : option Z;
  dynamic_page_bitmap : option (list Z);
  dynamic_regions : list NaClDynamicRegion;  (* the first num_dynamic_regions slots *)
  dynamic_regions_allocated : Z;
  dynamic_mapcache_offset : Z;
  dynamic_mapcache_size : Z;
  dynamic_mapcache_ret : Z;
  exit_status : Z;
  ignore_validator_result : bool;
  skip_validator : bool;
  validator_stub_out_mode : bool;
  fixed_feature_cpu_mode : bool;
  dispatch_thunk : Z;
  break_addr : Z;
  desc_tbl : DynArray Z;
  manifest : option Manifest;
  user_side_flag : bool;
  sysret : Z;                (* uint32_t *)
  sys_tls : Z;
  g_syscallback : Z;         (* the global [syscallback] of nacl_globals.h *)
}.

#[global] Instance NaClApp_eta : Updatable NaClApp := fun a =>
  mkApp (addr_bits a) (stack_size a) (mem_start a) (static_text_end a) (dynamic_text_start a)
    (dynamic_text_end a) (rodata_start a) (data_start a) (data_end a) (initial_entry_pt a)
    (user_entry_pt a) (bundle_size a) (mem_map a) (use_shm_for_dynamic_text a) (text_shm a)
    (dynamic_page_bitmap a) (dynamic_regions a) (dynamic_regions_allocated a)
    (dynamic_mapcache_offset a) (dynamic_mapcache_size a) (dynamic_mapcache_ret a)
    (exit_status a) (ignore_validator_result a) (skip_validator a) (validator_stub_out_mode a)
    (fixed_feature_cpu_mode a) (dispatch_thunk a) (break_addr a) (desc_tbl a) (manifest a) (user_side_flag a) (sysret a) (sys_tls a)
    (g_syscallback a).

Definition NACL_MAX_ADDR_BITS : Z := 32.
Definition NACL_DEFAULT_STACK_MAX : Z := Z.shiftl 16 20.

(** "Whole chunk" memory: a call from the user side while the manifest sets a
    memory limit makes no host memory call. *)
Definition whole_chunk (nap : NaClApp) : bool :=
  user_side_flag nap &&
  match manifest nap with
  | Some m => cbool (max_mem (user_setup m))
  | None => false
  end.

(** ** Address translation: sel_ldr-inl.h *)

Definition kNaClBadAddress : Z := two64 - 1.

(** [1 << nap->addr_bits] *)
Definition addr_limit (nap : NaClApp) : Z := u64 (Z.shiftl 1 (addr_bits nap)).

Definition NaClUserToSysAddrNullOkay (nap : NaClApp) (uaddr : Z) : Z :=
  if addr_limit nap <=? uaddr then kNaClBadAddress else u64 (uaddr + mem_start nap).

Definition NaClUserToSysAddr (nap : NaClApp) (uaddr : Z) : Z :=
  if (0 =? uaddr) || (addr_limit nap <=? uaddr) then kNaClBadAddress
  else u64 (uaddr + mem_start nap).

Definition NaClIsUserAddr (nap : NaClApp) (sysaddr : Z) : bool :=
  (mem_start nap <=? sysaddr) && (sysaddr <? u64 (mem_start nap + addr_limit nap)).

Definition NaClUserToSysAddrRange (nap : NaClApp) (uaddr count : Z) : Z :=
  if 0 =? uaddr then kNaClBadAddress
  else
    let end_addr := u64 (uaddr + count) in
    if end_addr <? uaddr then kNaClBadAddress
    else if addr_limit nap <=? end_addr then kNaClBadAddress
    else u64 (uaddr + mem_start nap).

Definition NaClUserToSys (nap : NaClApp) (uaddr : Z) : M Z :=
  if (0 =? uaddr) || (addr_limit nap <=? uaddr) then fail (LogFatal "NaClUserToSys")
  else mret (u64 (uaddr + mem_start nap)).

Definition NaClSysToUser (nap : NaClApp) (sysaddr : Z) : M Z :=
  if (sysaddr <? mem_start nap) || (u64 (mem_start nap + addr_limit nap) <=? sysaddr)
  then fail (LogFatal "NaclSysToUser")
  else mret (u64 (sysaddr - mem_start nap)).

(** On x86-64 the stack registers already hold system addresses. *)
Definition NaClUserToSysStackAddr (nap : NaClApp) (stackaddr : Z) : Z := stackaddr.
Definition NaClSysToUserStackAddr (nap : NaClApp) (stackaddr : Z) : Z := stackaddr.

Definition NaClEndOfStaticText (nap : NaClApp) : Z := static_text_end nap.

Definition NaClSandboxCodeAddr (nap : NaClApp) (addr : Z) : Z :=
  u64 (Z.land (Z.land addr (not64 (bundle_size nap - 1))) (Z.shiftl 1 32 - 1) + mem_start nap).

(** ** Construction: NaClAppWithSyscallTableCtor

    [shm] is the result of ShouldEnableDynamicLoading; [None] is the failure
    return 0 after the cleanup of what was built.  The object is zeroed by its
    caller, so the fields the constructor does not touch start at 0. *)
Definition NaClAppWithSyscallTableCtor `{Host} (shm : bool) : option NaClApp :=
  threads ← DynArrayCtor (A:=Z) 2;
  tbl ← DynArrayCtor (A:=Z) 2;
  map ← NaClVmmapCtor;
  if malloc_ok 16 then
    Some (mkApp NACL_MAX_ADDR_BITS NACL_DEFAULT_STACK_MAX 0 0 0 0 0 0 0 0 0 0 map shm None None
            [] 0 0 0 0 (-1) false false false false 0 0 tbl None false 0 0 0)
  else None.

(** ** The descriptor table *)

Section Descriptors.
Context `{Host}.

(** A descriptor number is an [int] that becomes a [size_t] index. *)
Definition NaClGetDescMu (nap : NaClApp) (d : Z) : M (option Z) :=
  result ← DynArrayGet (desc_tbl nap) (u64 d);
  match result with
  | Some r => _ ← emit (DescRef r); mret (Some r)
  | None => mret None
  end.

Definition NaClSetDescMu (nap : NaClApp) (d : Z) (ndp : option Z) : M NaClApp :=
  result ← DynArrayGet (desc_tbl nap) (u64 d);
  _ ← (match result with Some r => emit (DescUnref r) | None => mret tt end);
  '(ok, tbl) ← DynArraySet (desc_tbl nap) (u64 d) ndp;
  if (ok : bool) then mret (nap <| desc_tbl := tbl |>)
  else fail (LogFatal "NaClSetDesc: could not set descriptor").

Definition NaClSetAvailMu (nap : NaClApp) (ndp : option Z) : M (NaClApp * Z) :=
  '(tbl, pos) ← DynArrayFirstAvail (desc_tbl nap);
  let nap := nap <| desc_tbl := tbl |> in
  if two31 - 1 <? pos then fail (LogFatal "NaClSetAvailMu: DynArrayFirstAvail too large")
  else
    nap ← NaClSetDescMu nap pos ndp;
    mret (nap, pos).

(** The public versions take [desc_mu] around the call. *)
Definition NaClGetDesc (nap : NaClApp) (d : Z) : M (option Z) := NaClGetDescMu nap d.
Definition NaClSetAvail (nap : NaClApp) (ndp : option Z) : M (NaClApp * Z) := NaClSetAvailMu nap ndp.

End Descriptors.

(** ** The sandbox *)

(** Where the 4 GB address space was placed by NaClAllocAddrSpace. *)
Record placed (nap : NaClApp) : Prop := {
  pl_bits : addr_bits nap = 32;
  pl_start : 0 < mem_start nap;
  pl_end : mem_start nap + two32 < two64;
  pl_aligned : mem_start nap mod two32 = 0;
}.

(** [len] bytes from system address [a] inside the address space, at or above
    the user address [lo]. *)
Definition inside (nap : NaClApp) (lo a len : Z) : Prop :=
  mem_start nap + lo <= a /\ a + len <= mem_start nap + two32.

Lemma addr_limit_val nap : placed nap -> addr_limit nap = two32.
Proof. intros [Hb _ _ _]. unfold addr_limit. by rewrite Hb. Qed.

Section Translation.
Context (nap : NaClApp) (Hpl : placed nap).

Lemma UserToSys_spec u :
  0 <= u -> NaClUserToSys nap u =
    if decide (0 < u < two32) then mret (u + mem_start nap) else fail (LogFatal "NaClUserToSys").
Proof using Hpl.
  intros Hu. unfold NaClUserToSys. rewrite addr_limit_val by done. destruct Hpl.
  case_decide as Hd.
  - replace ((0 =? u) || (two32 <=? u)) with false
      by (symmetry; apply orb_false_iff; split; [apply Z.eqb_neq|apply Z.leb_gt]; lia).
    by rewrite u64_small by zlia.
  - replace ((0 =? u) || (two32 <=? u)) with true; [done|]. symmetry. apply orb_true_iff.
    rewrite Z.eqb_eq, Z.leb_le. lia.
Qed.

Lemma SysToUser_spec a :
  0 <= a -> NaClSysToUser nap a =
    if decide (mem_start nap <= a < mem_start nap + two32) then mret (a - mem_start nap)
    else fail (LogFatal "NaclSysToUser").
Proof using Hpl.
  intros Ha. unfold NaClSysToUser. rewrite addr_limit_val by done. destruct Hpl.
  rewrite (u64_small (_ + _)) by zlia. case_decide as Hd.
  - replace ((a <? mem_start nap) || (mem_start nap + two32 <=? a)) with false
      by (symmetry; apply orb_false_iff; split; [apply Z.ltb_ge|apply Z.leb_gt]; lia).
    by rewrite u64_small by zlia.
  - replace ((a <? mem_start nap) || (mem_start nap + two32 <=? a)) with true; [done|].
    symmetry. apply orb_true_iff. rewrite Z.ltb_lt, Z.leb_le. lia.
Qed.

Lemma UserToSysAddrRange_spec u n :
  is_u64 u -> is_u64 n ->
  NaClUserToSysAddrRange nap u n =
    if decide (0 < u /\ u + n < two32) then u + mem_start nap else kNaClBadAddress.
Proof using Hpl.
  intros Hu Hn. unfold NaClUserToSysAddrRange. rewrite addr_limit_val by done. destruct Hpl.
  destruct (decide (u + n < two64)) as [Hs|Hs].
  - rewrite (u64_small (u + n)) by zlia. case_decide as Hd.
    + repeat case_match; zbool; try zlia. rewrite u64_small by zlia. done.
    + repeat case_match; zbool; try done; zlia.
  - rewrite decide_False by zlia.
    assert (u64 (u + n) = u + n - two64) as ->.
    { unfold u64. rewrite <- (Z_mod_plus_full (u + n) (-1)), Z.mod_small; zlia. }
    repeat case_match; zbool; try done; zlia.
Qed.

Lemma UserToSysAddr_spec u :
  is_u64 u -> NaClUserToSysAddr nap u =
    if decide (0 < u < two32) then u + mem_start nap else kNaClBadAddress.
Proof using Hpl.
  intros Hu. unfold NaClUserToSysAddr. rewrite addr_limit_val by done. destruct Hpl.
  case_decide as Hd.
  - replace ((0 =? u) || (two32 <=? u)) with false
      by (symmetry; apply orb_false_iff; split; [apply Z.eqb_neq|apply Z.leb_gt]; lia).
    by rewrite u64_small by zlia.
  - replace ((0 =? u) || (two32 <=? u)) with true; [done|]. symmetry. apply orb_true_iff.
    rewrite Z.eqb_eq, Z.leb_le. zlia.
Qed.

(** A system address of the sandbox is never the error value. *)
Lemma sys_not_bad u : 0 <= u < two32 -> u + mem_start nap <> kNaClBadAddress.
Proof using Hpl. destruct Hpl. unfold kNaClBadAddress. zlia. Qed.

(** A sandboxed code address is a bundle head inside the address space. *)
Lemma SandboxCodeAddr_spec k addr :
  bundle_size nap = 2 ^ k -> 0 <= k <= 32 -> is_u64 addr ->
  inside nap 0 (NaClSandboxCodeAddr nap addr) 1 /\ NaClSandboxCodeAddr nap addr mod 2 ^ k = 0.
Proof using Hpl.
  intros Hbs Hk Ha. unfold NaClSandboxCodeAddr, inside. rewrite Hbs.
  rewrite (land_not64_mask addr k) by (lia || exact Ha).
  change (Z.shiftl 1 32 - 1) with (2 ^ 32 - 1). rewrite Z.land_comm, land_ones_mod by lia.
  set (b := addr - addr mod 2 ^ k). destruct Hpl.
  assert (Hr : 0 <= b mod 2 ^ 32 < two32) by (apply Z.mod_pos_bound; done).
  rewrite u64_small by zlia. split; [lia|].
  assert (Hpow : 0 < 2 ^ k) by (apply Z.pow_pos_nonneg; lia).
  assert (Hdiv : (2 ^ k | two32)).
  { exists (2 ^ (32 - k)). rewrite <- Z.pow_add_r by lia. by replace (32 - k + k) with 32 by lia. }
  apply Z.mod_divide; [lia|]. apply Z.divide_add_r.
  - apply Z.mod_divide; [lia|]. change (2 ^ 32) with two32. rewrite Z.mod_mod_divide by done.
    unfold b. rewrite Zminus_mod, Zmod_mod, Z.sub_diag. apply Z.mod_0_l. lia.
  - apply Z.divide_trans with two32; [done|]. apply Z.mod_divide; [done|]. done.
Qed.
End Translation.

(** ** Descriptor table lemmas *)

Section DescriptorFacts.
Context `{Host}.

(** A number outside the table, in particular -1, names no descriptor. *)
Lemma GetDesc_negative nap : da_inv (desc_tbl nap) -> NaClGetDesc nap (-1) = mret None.
Proof.
  intros Hd. unfold NaClGetDesc, NaClGetDescMu. change (u64 (-1)) with (two64 - 1).
  rewrite Get_spec by (done || zlia). rewrite M_bind_ret_l.
  rewrite slots_above; [done|]. pose proof (da_space _ Hd). unfold SPACE_LIMIT in *. zlia.
Qed.

(** SetAvail installs a descriptor at the least free number, which GetDesc
    then returns, with a new reference. *)
Lemma SetAvail_spec nap r :
  (forall n, malloc_ok n = true) -> da_inv (desc_tbl nap) -> ptr_array_space (desc_tbl nap) < two31 ->
  exists nap' pos, NaClSetAvail nap (Some r) = ([], Ret (nap', pos)) /\
    da_inv (desc_tbl nap') /\ slots (desc_tbl nap) pos = None /\
    (forall i, slots (desc_tbl nap') i = if decide (i = pos) then Some r else slots (desc_tbl nap) i) /\
    nap' = nap <| desc_tbl := desc_tbl nap' |> /\
    NaClGetDesc nap' pos = ([DescRef r], Ret (Some r)).
Proof.
  intros Hm Hd Hsp. unfold NaClSetAvail, NaClSetAvailMu.
  destruct (FirstAvail_spec (desc_tbl nap) Hd) as (d1 & pos & -> & Hd1 & Hsl1 & Hpos & Hfree & _).
  rewrite M_bind_ret_l. simpl. replace (two31 - 1 <? pos) with false by (symmetry; apply Z.ltb_ge; lia).
  unfold NaClSetDescMu. simpl. rewrite (u64_small pos) by zlia.
  rewrite Get_spec by (done || lia). rewrite M_bind_ret_l, Hsl1, Hfree, M_bind_ret_l.
  destruct (Set_spec d1 pos (Some r) Hm Hd1) as (d2 & -> & Hd2 & Hsl2).
  { change (SPACE_LIMIT / 2) with (2 ^ 57). zlia. }
  rewrite !M_bind_ret_l. eexists _, pos. split; [done|]. simpl. split_and!; try done.
  - intros i. by rewrite Hsl2, Hsl1.
  - unfold NaClGetDesc, NaClGetDescMu. simpl. rewrite u64_small by zlia.
    rewrite Get_spec by (done || lia). by rewrite M_bind_ret_l, Hsl2, decide_True.
Qed.
End DescriptorFacts.
