(* ===== verification/HostDesc.v ===== *)
(** * Mapping memory through descriptors

    The path of an mmap from the syscall handlers to the kernel:
    NaClHostDescMap (platform/linux/nacl_host_desc.c), NaClDescIoDescMap
    (desc/nacl_desc_io.c) and the loader's effector, with the translation of
    protections, flags and error numbers.

    A descriptor is named by the host file descriptor it wraps; [None] is the
    NULL descriptor of an anonymous mapping.  [chunk] is the test of
    NaClHostDescMap on the global application, [whole_chunk]. *)

From S2P Require Import Prelude Effects Rounding App.

(** ** Constants: include/bits/mman.h and the host's sys/mman.h *)

Definition NACL_ABI_PROT_NONE : Z := 0.
Definition NACL_ABI_PROT_READ : Z := 1.
Definition NACL_ABI_PROT_WRITE : Z := 2.
Definition NACL_ABI_PROT_EXEC : Z := 4.
Definition NACL_ABI_MAP_SHARED : Z := 1.
Definition NACL_ABI_MAP_PRIVATE : Z := 2.
Definition NACL_ABI_MAP_FIXED : Z := 16.
Definition NACL_ABI_MAP_ANONYMOUS : Z := 32.

Definition PROT_NONE : Z := 0.
Definition PROT_READ : Z := 1.
Definition PROT_WRITE : Z := 2.
Definition PROT_EXEC : Z := 4.
Definition MAP_SHARED : Z := 1.
Definition MAP_PRIVATE : Z := 2.
Definition MAP_FIXED : Z := 16.
Definition MAP_ANONYMOUS : Z := 32.
Definition MAP_NORESERVE : Z := 16384.
Definition MAP_FAILED : Z := two64 - 1.
Definition NACL_MAP_FAILED : Z := two64 - 1.

(** ** Errors *)

Definition NACL_ABI_EPERM : Z := 1.
Definition NACL_ABI_EBADF : Z := 9.
Definition NACL_ABI_ENOMEM : Z := 12.
Definition NACL_ABI_EFAULT : Z := 14.
Definition NACL_ABI_EINVAL : Z := 22.
Definition NACL_ABI_ENOSYS : Z := 38.
Definition NACL_ABI_E_MOVE_ADDRESS_SPACE : Z := - i32 3221225472.

(** The errno values with a case on a Linux host; each maps to the same
    number.  ELNRNG (48) is guarded by EL3RNG, which Linux does not define. *)
Definition xlate_known : list Z :=
  [1; 2; 3; 4; 5; 6; 7; 8; 9; 10; 11; 12; 13; 14; 16; 17; 18; 19; 20; 21; 22; 23; 24; 25; 27; 28; 29;
   30; 31; 32; 36; 38; 122; 33; 34; 42; 44; 46; 47; 49; 50; 51; 35; 37; 52; 53; 54; 55; 56; 57; 59;
   60; 61; 62; 63; 64; 65; 66; 67; 68; 69; 70; 71; 72; 73; 74; 76; 77; 78; 79; 80; 81; 82; 83; 39; 40;
   95; 96; 104; 105; 97; 91; 88; 92; 108; 111; 98; 103; 101; 100; 110; 112; 113; 115; 114; 89; 93; 94;
   99; 102; 106; 107; 109; 87; 116; 123; 84; 75; 125; 45; 43; 90].

Definition NaClXlateErrno (errnum : Z) : Z :=
  if decide (errnum ∈ xlate_known) then errnum else NACL_ABI_EINVAL.

Definition NaClPtrIsNegErrno (val : Z) : bool := Z.land val (not64 65535) =? not64 65535.

(** ** Protections and flags *)

Definition bit_map (v abi host acc : Z) : Z := if negb (0 =? Z.land v abi) then Z.lor acc host else acc.

Definition NaClProtMap (abi_prot : Z) : Z :=
  bit_map abi_prot NACL_ABI_PROT_EXEC PROT_EXEC
    (bit_map abi_prot NACL_ABI_PROT_WRITE PROT_WRITE
      (bit_map abi_prot NACL_ABI_PROT_READ PROT_READ 0)).

Definition NaClMapFlagMap (nacl_map_flags : Z) : Z :=
  bit_map nacl_map_flags NACL_ABI_MAP_ANONYMOUS MAP_ANONYMOUS
    (bit_map nacl_map_flags NACL_ABI_MAP_FIXED MAP_FIXED
      (bit_map nacl_map_flags NACL_ABI_MAP_PRIVATE MAP_PRIVATE
        (bit_map nacl_map_flags NACL_ABI_MAP_SHARED MAP_SHARED 0))).

Section Map.
Context `{Host}.

(** [mmap]: the event with its arguments, and the kernel's answer. *)
Definition sys_mmap (addr len prot flags : Z) (d : option Z) (off : Z) : M Z :=
  _ ← emit (HostMmap addr len prot flags d off);
  mret (host_mmap addr len prot flags d off).

Definition NaClHostDescMap (chunk : bool) (d : option Z) (start_addr len prot flags offset : Z) : M Z :=
  let anon := negb (0 =? Z.land flags NACL_ABI_MAP_ANONYMOUS) in
  if negb (bool_decide (is_Some d)) && negb anon then
    fail (LogFatal "NaClHostDescMap: 'this' is NULL and not anon map")
  else
    let prot := Z.land prot (Z.lor NACL_ABI_PROT_READ NACL_ABI_PROT_WRITE) in
    let desc := if anon then None else d in
    let host_flags := NaClMapFlagMap flags in
    let host_prot := NaClProtMap prot in
    map_addr ← (if chunk then mret start_addr
                else sys_mmap start_addr len host_prot host_flags desc offset);
    if MAP_FAILED =? map_addr then mret (u64 (- NaClXlateErrno host_errno))
    else if negb (0 =? Z.land flags NACL_ABI_MAP_FIXED) && negb (map_addr =? start_addr) then
      fail (LogFatal "NaClHostDescMap: mmap with MAP_FIXED not fixed")
    else mret start_addr.

(** The loader's effector. *)
Definition NaClDescEffLdrUnmapMemory (sysaddr nbytes : Z) : Z := 0.

Definition NaClDescEffLdrMapAnonMem (chunk : bool) (sysaddr nbytes prot : Z) : M Z :=
  NaClHostDescMap chunk None sysaddr nbytes prot
    (Z.lor (Z.lor NACL_ABI_MAP_PRIVATE NACL_ABI_MAP_ANONYMOUS) NACL_ABI_MAP_FIXED) 0.

(** [None] when the host has no room. *)
Definition NaClFindAddressSpace (memory_size : Z) : M (option Z) :=
  map_addr ← sys_mmap 0 memory_size (Z.lor PROT_READ PROT_WRITE)
               (Z.lor (Z.lor MAP_ANONYMOUS MAP_NORESERVE) MAP_PRIVATE) (Some 0) 0;
  mret (if MAP_FAILED =? map_addr then None else Some map_addr).

(** The loop of NaClDescIoDescMap, 64 KB at a time; the flag is false on the
    early return.  The fuel is the number of 64 KB steps in [len]. *)
Fixpoint NaClDescIoDescMap_loop (fuel : nat) (chunk : bool) (hd : option Z)
    (addr end_addr prot flags tmp_off : Z) : M bool :=
  if addr <? end_addr then
    match fuel with
    | O => fail OutOfFuel
    | S fuel' =>
        let rv := NaClDescEffLdrUnmapMemory addr NACL_MAP_PAGESIZE in
        if negb (0 =? rv) then fail (LogFatal "NaClDescIoDescMap: could not unmap")
        else
          let map_size := u64 (end_addr - addr) in
          let map_size := if NACL_MAP_PAGESIZE <? map_size then NACL_MAP_PAGESIZE else map_size in
          status ← NaClHostDescMap chunk hd addr map_size prot flags tmp_off;
          if NACL_MAP_FAILED =? status then mret false
          else NaClDescIoDescMap_loop fuel' chunk hd (u64 (addr + NACL_MAP_PAGESIZE)) end_addr
                 prot flags (i64 (tmp_off + NACL_MAP_PAGESIZE))
    end
  else mret true.

Definition NaClDescIoDescMap (chunk : bool) (hd : option Z) (start_addr len prot flags offset : Z) : M Z :=
  if negb (0 =? Z.land (Z.lnot (Z.lor NACL_ABI_PROT_READ NACL_ABI_PROT_WRITE)) prot) then
    mret (u64 (- NACL_ABI_EINVAL))
  else
    start ← (if 0 =? Z.land NACL_ABI_MAP_FIXED flags then NaClFindAddressSpace len
             else mret (Some start_addr));
    match start with
    | None => mret (u64 (- NACL_ABI_ENOMEM))
    | Some start_addr =>
        let flags := Z.lor flags NACL_ABI_MAP_FIXED in
        ok ← NaClDescIoDescMap_loop (Z.to_nat (len / NACL_MAP_PAGESIZE + 1)) chunk hd start_addr
               (u64 (start_addr + len)) prot flags offset;
        mret (if (ok : bool) then start_addr else u64 (- NACL_ABI_E_MOVE_ADDRESS_SPACE))
    end.

Definition NaClDescIoDescMapAnon (chunk : bool) (start_addr len prot flags offset : Z) : M Z :=
  NaClDescIoDescMap chunk None start_addr len prot flags offset.


(** ** What these functions ask of the host *)

(** Host memory calls inside [lo, hi) that never make a page executable. *)
Definition confined (lo hi : Z) (ev : event) : Prop :=
  match ev with
  | HostMmap a n p _ _ _ | HostMprotect a n p =>
      lo <= a /\ 0 <= n /\ a + n <= hi /\ Z.land p PROT_EXEC = 0
  | DescRef _ | DescUnref _ => True
  | _ => False
  end.

Lemma confined_weaken lo hi lo' hi' ev :
  lo' <= lo -> hi <= hi' -> confined lo hi ev -> confined lo' hi' ev.
Proof. intros ??. destruct ev; simpl; try done; intros (?&?&?&?); repeat split; done || lia. Qed.

Lemma ProtMap_noexec p :
  Z.land p NACL_ABI_PROT_EXEC = 0 -> Z.land (NaClProtMap p) PROT_EXEC = 0.
Proof.
  intros Hp. unfold NaClProtMap, bit_map. rewrite Hp. simpl. repeat case_match; done.
Qed.

Lemma rw_noexec p :
  Z.land (Z.land p (Z.lor NACL_ABI_PROT_READ NACL_ABI_PROT_WRITE)) NACL_ABI_PROT_EXEC = 0.
Proof. rewrite <- Z.land_assoc. apply Z.land_0_r. Qed.

Lemma HostDescMap_confined chunk d a n p f o lo hi :
  lo <= a -> 0 <= n -> a + n <= hi ->
  all_events (confined lo hi) (NaClHostDescMap chunk d a n p f o).
Proof.
  intros Hlo Hn Hhi. unfold NaClHostDescMap. case_match; [eauto with vm|].
  apply all_events_bind.
  - case_match; [eauto with vm|]. unfold sys_mmap. apply all_events_bind; [|eauto with vm].
    apply all_events_emit. simpl. split_and!; try done. apply ProtMap_noexec, rw_noexec.
  - intros l r _. repeat case_match; eauto with vm.
Qed.

Lemma IoDescMap_loop_confined chunk hd p f fuel : forall a e o,
  0 <= a -> e <= two64 - 65536 ->
  all_events (confined a e) (NaClDescIoDescMap_loop fuel chunk hd a e p f o).
Proof.
  induction fuel as [|fuel IH]; intros a e o Ha He; cbn [NaClDescIoDescMap_loop];
    (destruct (a <? e) eqn:Hlt; [|eauto with vm]); [eauto with vm|]. zbool.
  change (negb (0 =? NaClDescEffLdrUnmapMemory a NACL_MAP_PAGESIZE)) with false. cbv iota.
  change NACL_MAP_PAGESIZE with 65536. rewrite (u64_small (e - a)) by zlia.
  apply all_events_bind.
  - apply HostDescMap_confined; repeat case_match; zbool; lia.
  - intros l r _. case_match; [eauto with vm|].
    rewrite u64_small by zlia. eapply Forall_impl; [apply IH; zlia|].
    intros ev. apply confined_weaken; lia.
Qed.

Lemma IoDescMap_confined chunk hd a n p f o :
  0 <= a -> 0 <= n -> a + n <= two64 - 65536 -> Z.land NACL_ABI_MAP_FIXED f <> 0 ->
  all_events (confined a (a + n)) (NaClDescIoDescMap chunk hd a n p f o).
Proof.
  intros Ha Hn He Hf. unfold NaClDescIoDescMap. case_match; [eauto with vm|].
  replace (0 =? Z.land NACL_ABI_MAP_FIXED f) with false by (symmetry; apply Z.eqb_neq; lia).
  rewrite M_bind_ret_l. apply all_events_bind; [|eauto with vm].
  rewrite u64_small by zlia. by apply IoDescMap_loop_confined.
Qed.

(** A host mmap that puts a fixed mapping where it was asked. *)
Definition honours_fixed : Prop :=
  forall a n p f d o, Z.land f MAP_FIXED <> 0 -> host_mmap a n p f d o = a.

Lemma MapFlagMap_fixed f :
  Z.land f NACL_ABI_MAP_FIXED <> 0 -> Z.land (NaClMapFlagMap f) MAP_FIXED <> 0.
Proof.
  intros Hf. unfold NaClMapFlagMap, bit_map.
  replace (0 =? Z.land f NACL_ABI_MAP_FIXED) with false by (symmetry; apply Z.eqb_neq; lia).
  simpl. repeat case_match; done.
Qed.

(** What a map call that succeeds returns, and that it does succeed. *)
Lemma HostDescMap_ok chunk d a n p f o :
  honours_fixed -> 0 <= a < MAP_FAILED -> Z.land f NACL_ABI_MAP_FIXED <> 0 ->
  Z.land f NACL_ABI_MAP_ANONYMOUS <> 0 \/ is_Some d ->
  result (NaClHostDescMap chunk d a n p f o) = Ret a.
Proof.
  intros Hh Ha Hf Hd. unfold NaClHostDescMap.
  replace (negb (bool_decide (is_Some d)) && _) with false.
  2: { symmetry. apply andb_false_iff. destruct Hd as [Hd|Hd].
       - right. apply negb_false_iff, negb_true_iff, Z.eqb_neq. lia.
       - left. apply negb_false_iff. by apply bool_decide_eq_true_2. }
  replace (0 =? Z.land f NACL_ABI_MAP_FIXED) with false by (symmetry; apply Z.eqb_neq; lia).
  assert (Hne : (MAP_FAILED =? a) = false) by (apply Z.eqb_neq; lia).
  destruct chunk.
  - rewrite M_bind_ret_l, Hne, Z.eqb_refl. done.
  - erewrite result_bind by reflexivity.
    rewrite Hh by by apply MapFlagMap_fixed. by rewrite Hne, Z.eqb_refl.
Qed.

Lemma IoDescMap_loop_ok chunk hd p f fuel : forall a e o,
  honours_fixed -> Z.land f NACL_ABI_MAP_FIXED <> 0 ->
  Z.land f NACL_ABI_MAP_ANONYMOUS <> 0 \/ is_Some hd ->
  0 <= a -> e <= two64 - 65536 -> e - a <= Z.of_nat fuel * 65536 ->
  result (NaClDescIoDescMap_loop fuel chunk hd a e p f o) = Ret true.
Proof.
  induction fuel as [|fuel IH]; intros a e o Hh Hf Hd Ha He Hfu; cbn [NaClDescIoDescMap_loop];
    (destruct (a <? e) eqn:Hlt; [|done]); zbool; [lia|].
  change (negb (0 =? NaClDescEffLdrUnmapMemory a NACL_MAP_PAGESIZE)) with false. cbv iota.
  change NACL_MAP_PAGESIZE with 65536.
  erewrite result_bind; [|apply HostDescMap_ok; try done; unfold MAP_FAILED; lia].
  replace (NACL_MAP_FAILED =? a) with false by (symmetry; apply Z.eqb_neq; unfold NACL_MAP_FAILED; lia).
  rewrite u64_small by zlia. apply IH; done || zlia.
Qed.

Lemma IoDescMap_ok chunk hd a n p f o :
  honours_fixed -> Z.land f NACL_ABI_MAP_FIXED <> 0 ->
  Z.land f NACL_ABI_MAP_ANONYMOUS <> 0 \/ is_Some hd ->
  Z.land (Z.lnot (Z.lor NACL_ABI_PROT_READ NACL_ABI_PROT_WRITE)) p = 0 ->
  0 <= a -> 0 <= n -> a + n <= two64 - 65536 ->
  result (NaClDescIoDescMap chunk hd a n p f o) = Ret a.
Proof.
  intros Hh Hf Hd Hp Ha Hn He. unfold NaClDescIoDescMap. rewrite Hp.
  change (negb (0 =? 0)) with false. cbv iota.
  replace (0 =? Z.land NACL_ABI_MAP_FIXED f) with false
    by (symmetry; apply Z.eqb_neq; rewrite Z.land_comm; lia).
  assert (Hor : forall k, Z.land f k <> 0 -> Z.land (Z.lor f NACL_ABI_MAP_FIXED) k <> 0).
  { intros k Hk H0. apply Hk. rewrite Z.land_lor_distr_l in H0.
    apply Z.lor_eq_0_iff in H0. tauto. }
  erewrite result_bind by reflexivity. cbv beta iota. rewrite (result_bind _ _ true); [done|].
  apply IoDescMap_loop_ok; try done.
  - by apply Hor.
  - destruct Hd; [left; by apply Hor|by right].
  - rewrite u64_small; zlia.
  - rewrite u64_small by zlia. change NACL_MAP_PAGESIZE with 65536.
    pose proof (Z.div_mod n 65536). pose proof (Z.mod_pos_bound n 65536).
    pose proof (Z.div_pos n 65536). rewrite Z2Nat.id; lia.
Qed.
End Map.
