(* ===== verification/GioShm.v ===== *)
(** * Files over shared memory: nacl_desc_imc_shm.c, gio_shm.c

    A shared memory object is mapped in windows of 1 MB; reading and writing
    move the window over the object.  The object is a [NaClDescImcShm], the
    effector the one of trusted memory.  The calls of the imc library, which is
    C++, are the class [Imc].

    The bytes of the object are the field [shm_data].  They are reached only
    through the address space [shm_view], the log of the pages mapped and
    unmapped so far: a copy looks up each address in it and so gets the byte of
    the object that was mapped there, or, where nothing is mapped with the
    rights it needs, is undefined. *)

From S2P Require Import Prelude Effects Rounding Bytes Gio MemObj Vmmap DynArray Policy App HostDesc.

Class Imc := {
  imc_Map : Z -> Z -> Z -> Z -> Z -> Z -> Z;  (* start, length, prot, flags, handle, offset *)
  imc_Unmap : Z -> Z -> Z;
  imc_CreateMemoryObject : Z -> bool -> Z;    (* a handle, or NACL_INVALID_HANDLE *)
}.

Definition NACL_PROT_READ : Z := 1.
Definition NACL_PROT_WRITE : Z := 2.
Definition NACL_PROT_EXEC : Z := 4.
Definition IMC_MAP_SHARED : Z := 1.
Definition IMC_MAP_FIXED : Z := 4.
Definition NACL_ABI_MAP_SHARING_MASK : Z := 3.
Definition NACL_ABI_EOVERFLOW : Z := 75.
Definition NACL_INVALID_HANDLE : Z := -1.
Definition INT32_MAX : Z := two31 - 1.
Definition OFF_T_MAX : Z := two63 - 1.
Definition EIO : Z := 5.
Definition EINVAL : Z := 22.

(** ** The descriptor *)

Record NaClDescImcShm := mkImcShm { ref_count : Z; shm_h : Z; shm_size : Z }.

#[global] Instance updatable_imc_shm : Updatable NaClDescImcShm := fun r => mkImcShm (ref_count r) (shm_h r) (shm_size r).

(** ** The address space *)

(** What happened to a 64 KB page: it was mapped from an offset of the object
    with a protection, or unmapped ([None]); the latest first. *)
Abbreviation view := (list (Z * option (Z * Z))).

(** The offset in the object of the byte at an address, with the protection. *)
Fixpoint view_at (v : view) (a : Z) : option (Z * Z) :=
  match v with
  | [] => None
  | (base, page) :: v' =>
      if (base <=? a) && (a <? base + NACL_MAP_PAGESIZE) then
        '(off, prot) ← page; Some (off + (a - base), prot)
      else view_at v' a
  end.

(** The index of the byte an access with the right [need] reaches. *)
Definition view_byte (v : view) (size need a : Z) : M nat :=
  match view_at v a with
  | Some (off, prot) =>
      if negb (Z.land prot need =? 0) && (0 <=? off) && (off <? size) then mret (Z.to_nat off) else fail OutOfBounds
  | None => fail OutOfBounds
  end.

(** memcpy from and to the mapped object. *)
Fixpoint view_read (v : view) (data : list Z) (a : Z) (n : nat) : M (list Z) :=
  match n with
  | O => mret []
  | S n' =>
      i ← view_byte v (Z.of_nat (length data)) NACL_PROT_READ a;
      b ← load data i;
      bs ← view_read v data (a + 1) n';
      mret (b :: bs)
  end.

Fixpoint view_write (v : view) (data : list Z) (a : Z) (bs : list Z) : M (list Z) :=
  match bs with
  | [] => mret data
  | b :: bs' =>
      i ← view_byte v (Z.of_nat (length data)) NACL_PROT_WRITE a;
      data ← store data i b;
      view_write v data (a + 1) bs'
  end.

Section ImcShm.
Context `{Host} `{Imc}.

Definition NaClDescImcShmCtor (h size : Z) : option NaClDescImcShm :=
  if (size <? 0) || (SIZE_T_MAX <? u64 size) then None else Some (mkImcShm 1 h size).

Definition NaClDescImcShmAllocCtor (size : Z) (executable : bool) : option NaClDescImcShm :=
  if (size <? 0) || (SIZE_T_MAX <? u64 size) then None
  else
    let h := imc_CreateMemoryObject (u64 size) executable in
    if NACL_INVALID_HANDLE =? h then None else NaClDescImcShmCtor h size.

(** The effector of trusted memory has nothing to unmap. *)
Definition NaClDescEffTrustedMemUnmapMemory (sysaddr nbytes : Z) : Z := 0.
Definition NaClDescEffTrustedMemMapAnonMem (sysaddr nbytes prot : Z) : M Z :=
  fail (LogFatal "TrustedMem effector's MapAnonMem called").

(** The page loop; false on the early return.  The fuel is the number of 64 KB
    pages in [len], and one more. *)
Fixpoint ImcShmMap_loop (fuel : nat) (v : view) (h addr end_addr prot flags : Z) (fixed : bool) (tmp_off : Z) : M (bool * view) :=
  if addr <? end_addr then
    match fuel with
    | O => fail OutOfFuel
    | S fuel' =>
        let rv := NaClDescEffTrustedMemUnmapMemory addr NACL_MAP_PAGESIZE in
        if negb (0 =? rv) then fail (LogFatal "NaClDescImcShmMap: could not unmap")
        else
          _ ← emit (HostMmap addr NACL_MAP_PAGESIZE prot flags (Some h) tmp_off);
          let result := imc_Map addr NACL_MAP_PAGESIZE prot flags h tmp_off in
          if MAP_FAILED =? result then mret (false, v)
          else
            let v := (result, Some (tmp_off, prot)) :: v in
            if fixed && negb (result =? addr) then fail (LogFatal "NaClDescImcShmMap: NACL_MAP_FIXED but got another address")
            else ImcShmMap_loop fuel' v h (u64 (addr + NACL_MAP_PAGESIZE)) end_addr prot flags fixed (i64 (tmp_off + NACL_MAP_PAGESIZE))
    end
  else mret (true, v).

(** The returned pointer, an error number as one too, and the address space. *)
Definition NaClDescImcShmMap (self : NaClDescImcShm) (v : view) (start_addr len prot flags offset : Z) : M (Z * view) :=
  if negb (NACL_ABI_MAP_SHARED =? Z.land flags NACL_ABI_MAP_SHARING_MASK) then mret (u64 (- NACL_ABI_EINVAL), v)
  else if negb (0 =? Z.land (Z.lnot (Z.lor (Z.lor NACL_ABI_PROT_READ NACL_ABI_PROT_WRITE) NACL_ABI_PROT_EXEC)) prot) then
    mret (u64 (- NACL_ABI_EINVAL), v)
  else
    let nacl_imc_prot :=
      bit_map prot NACL_ABI_PROT_EXEC NACL_PROT_EXEC
        (bit_map prot NACL_ABI_PROT_WRITE NACL_PROT_WRITE (bit_map prot NACL_ABI_PROT_READ NACL_PROT_READ 0)) in
    let fixed := negb (0 =? Z.land NACL_ABI_MAP_FIXED flags) in
    start ← (if fixed then mret (Some start_addr) else NaClFindAddressSpace len);
    match start with
    | None => mret (u64 (- NACL_ABI_ENOMEM), v)
    | Some start_addr =>
        let nacl_imc_flags := Z.lor IMC_MAP_SHARED IMC_MAP_FIXED in
        let tmp_off64 := i64 (offset + len) in
        let tmp_off64 := i64 (Z.land (u64 (tmp_off64 + NACL_MAP_PAGESIZE - 1)) (not64 (NACL_MAP_PAGESIZE - 1))) in
        if INT32_MAX <? tmp_off64 then mret (u64 (- NACL_ABI_EOVERFLOW), v)
        else
          '(ok, v) ← ImcShmMap_loop (Z.to_nat (len / NACL_MAP_PAGESIZE + 1)) v (shm_h self) start_addr (u64 (start_addr + len))
                       nacl_imc_prot nacl_imc_flags fixed offset;
          mret (if (ok : bool) then start_addr else u64 (- NACL_ABI_E_MOVE_ADDRESS_SPACE), v)
    end.

Fixpoint ImcShmUnmap_loop (fuel : nat) (v : view) (addr end_addr : Z) (safe_mode : bool) : M (Z * view) :=
  if addr <? end_addr then
    match fuel with
    | O => fail OutOfFuel
    | S fuel' =>
        if safe_mode then
          result ← NaClDescEffTrustedMemMapAnonMem addr NACL_MAP_PAGESIZE PROT_NONE;
          if NaClPtrIsNegErrno result then mret (- NACL_ABI_E_MOVE_ADDRESS_SPACE, v)
          else ImcShmUnmap_loop fuel' ((addr, None) :: v) (u64 (addr + NACL_MAP_PAGESIZE)) end_addr safe_mode
        else
          _ ← emit (HostMunmap addr NACL_MAP_PAGESIZE);
          let status := imc_Unmap addr NACL_MAP_PAGESIZE in
          if negb (0 =? status) then fail (LogFatal "NaClDescImcShmUnmapCommon: NaClUnmap failed")
          else ImcShmUnmap_loop fuel' ((addr, None) :: v) (u64 (addr + NACL_MAP_PAGESIZE)) end_addr safe_mode
    end
  else mret (0, v).

Definition NaClDescImcShmUnmapCommon (v : view) (start_addr len : Z) (safe_mode : bool) : M (Z * view) :=
  ImcShmUnmap_loop (Z.to_nat (len / NACL_MAP_PAGESIZE + 1)) v start_addr (u64 (start_addr + len)) safe_mode.

Definition NaClDescImcShmUnmapUnsafe (v : view) (start_addr len : Z) : M (Z * view) :=
  NaClDescImcShmUnmapCommon v start_addr len false.

(** The result and st_size. *)
Definition NaClDescImcShmFstat (self : NaClDescImcShm) : Z * Z :=
  if INT32_MAX <? shm_size self then (- NACL_ABI_EOVERFLOW, 0) else (0, shm_size self).

(** [None] when the last reference is gone and the object is freed. *)
Definition NaClDescUnref (d : NaClDescImcShm) : M (option NaClDescImcShm) :=
  if 0 =? ref_count d then fail (LogFatal "NaClRefCountUnref: refcount already zero")
  else
    let d := d <| ref_count := ref_count d - 1 |> in
    mret (if ref_count d =? 0 then None else Some d).

Definition NaClDescRef (d : NaClDescImcShm) : M NaClDescImcShm :=
  let d := d <| ref_count := u64 (ref_count d + 1) |> in
  if 0 =? ref_count d then fail (LogFatal "NaClRefCountRef integer overflow") else mret d.

End ImcShm.

(** ** The file *)

Record NaClGioShm := mkGioShm {
  shmp : option NaClDescImcShm;
  io_offset : Z;
  shm_sz : Z;
  cur_window : Z;
  window_offset : Z;
  window_size : Z;
  shm_view : view;
  shm_data : list Z;
  shm_errno : Z;
}.

#[global] Instance updatable_gio_shm : Updatable NaClGioShm := fun r =>
  mkGioShm (shmp r) (io_offset r) (shm_sz r) (cur_window r) (window_offset r) (window_size r) (shm_view r) (shm_data r) (shm_errno r).

Definition GIO_SHM_WINDOWSIZE : Z := 16 * NACL_MAP_PAGESIZE.

Section GioShm.
Context `{Host} `{Imc}.

Definition release_window (self : NaClGioShm) : M NaClGioShm :=
  if negb (0 =? cur_window self) then
    _ ← deref [shmp self] 0;
    '(rv, v) ← NaClDescImcShmUnmapUnsafe (shm_view self) (cur_window self) (window_size self);
    if negb (0 =? rv) then fail (LogFatal "NaClGioShmSetWindow: UnmapUnsafe returned") else mret (self <| shm_view := v |>)
  else mret self.

Definition NaClGioShmSetWindow (self : NaClGioShm) (new_win_offset : Z) : M (bool * NaClGioShm) :=
  if negb (0 =? Z.land new_win_offset (NACL_MAP_PAGESIZE - 1)) then
    fail (LogFatal "NaClGioShmSetWindow: internal error, requested new window offset is not aligned.")
  else if shm_sz self <=? new_win_offset then
    fail (LogFatal "NaClGioShmSetWindow: setting window beyond end of shm object")
  else
    self ← release_window self;
    let self := self <| cur_window := 0 |> <| window_size := 0 |> in
    let actual_len := GIO_SHM_WINDOWSIZE in
    let actual_len := if u64 (shm_sz self - new_win_offset) <? actual_len then u64 (shm_sz self - new_win_offset) else actual_len in
    d ← deref [shmp self] 0;
    '(map_result, v) ← NaClDescImcShmMap d (shm_view self) 0 actual_len (Z.lor NACL_ABI_PROT_READ NACL_ABI_PROT_WRITE) NACL_ABI_MAP_SHARED new_win_offset;
    let self := self <| shm_view := v |> in
    if MAP_FAILED =? map_result then mret (false, self)
    else mret (true, self <| cur_window := map_result |> <| window_size := actual_len |> <| window_offset := new_win_offset |>).

(** The window that holds the I/O position, false when it cannot be mapped. *)
Definition find_window (self : NaClGioShm) : M (bool * NaClGioShm) :=
  if (0 =? cur_window self) || (io_offset self <? window_offset self) ||
     (u64 (window_offset self + window_size self) <=? io_offset self) then
    let new_window_offset := Z.land (io_offset self) (not64 (NACL_MAP_PAGESIZE - 1)) in
    _ ← check (0 =? Z.land new_window_offset (NACL_MAP_PAGESIZE - 1)) "new_window_offset is aligned";
    NaClGioShmSetWindow self new_window_offset
  else mret (true, self).

(** The copy between the buffer and the address of the I/O position in the
    window: the number of bytes, the bytes read, the file. *)
Definition copy_window (self : NaClGioShm) (is_write : bool) (buf : list Z) (count : Z) : M (Z * list Z * NaClGioShm) :=
  _ ← check (window_offset self <=? io_offset self) "self->window_offset <= self->io_offset";
  _ ← check (io_offset self <? u64 (window_offset self + window_size self)) "self->io_offset < self->window_offset + self->window_size";
  let transfer := count in
  let window_end := u64 (window_offset self + window_size self) in
  let window_end := if shm_sz self <? window_end then shm_sz self else window_end in
  let window_remain := u64 (window_end - io_offset self) in
  _ ← check (window_remain <=? GIO_SHM_WINDOWSIZE) "window_remain <= GIO_SHM_WINDOWSIZE";
  let transfer := if window_remain <? transfer then window_remain else transfer in
  let n := Z.to_nat transfer in
  let place := u64 (cur_window self + (io_offset self - window_offset self)) in
  '(out, data) ←
    (if is_write then data ← view_write (shm_view self) (shm_data self) place (take n buf); mret ([], data)
     else bs ← view_read (shm_view self) (shm_data self) place n; mret (bs, shm_data self));
  mret (transfer, out, self <| shm_data := data |> <| io_offset := u64 (io_offset self + transfer) |>).

(** [buf] holds the bytes to write; the bytes read are appended to [out].  One
    turn transfers at least one byte: the fuel is the count and one more. *)
Fixpoint ReadOrWrite_loop (fuel : nat) (is_write : bool) (buf : list Z) (count sofar : Z) (out : list Z) (self : NaClGioShm)
  : M (Z * list Z * NaClGioShm) :=
  match fuel with
  | O => fail OutOfFuel
  | S fuel' =>
      if negb (0 <? count) then mret (i64 sofar, out, self)
      else if shm_sz self <=? io_offset self then mret (i64 sofar, out, self)
      else
        '(in_window, self) ← find_window self;
        if negb in_window then
          if 0 =? sofar then mret (-1, out, self <| shm_errno := EIO |>) else mret (i64 sofar, out, self)
        else
          '(transfer, bs, self) ← copy_window self is_write buf count;
          ReadOrWrite_loop fuel' is_write (drop (Z.to_nat transfer) buf) (count - transfer) (u64 (sofar + transfer)) (out ++ bs) self
  end.

(** The result, the bytes read, the file. *)
Definition NaClGioShmReadOrWrite (self : NaClGioShm) (buf : list Z) (count : Z) (is_write : bool) : M (Z * list Z * NaClGioShm) :=
  ReadOrWrite_loop (S (Z.to_nat count)) is_write buf count 0 [] self.

Definition NaClGioShmRead (self : NaClGioShm) (count : Z) : M (Z * list Z * NaClGioShm) :=
  NaClGioShmReadOrWrite self [] count false.

Definition NaClGioShmWrite (self : NaClGioShm) (buf : list Z) : M (Z * NaClGioShm) :=
  '(r, _, self) ← NaClGioShmReadOrWrite self buf (Z.of_nat (length buf)) true; mret (r, self).

Definition NaClGioShmSeek (self : NaClGioShm) (offset : Z) (w : whence) : Z * NaClGioShm :=
  let new_pos := u64 (match w with
                      | SEEK_SET => offset
                      | SEEK_CUR => io_offset self + offset
                      | SEEK_END => shm_sz self + offset
                      end) in
  if shm_sz self <? new_pos then (-1, self <| shm_errno := EINVAL |>)
  else (i64 new_pos, self <| io_offset := new_pos |>).

Definition NaClGioShmClose (self : NaClGioShm) : M (Z * NaClGioShm) :=
  '(ret, v) ← (if negb (0 =? cur_window self) then
                 _ ← deref [shmp self] 0; NaClDescImcShmUnmapUnsafe (shm_view self) (cur_window self) NACL_MAP_PAGESIZE
               else mret (0, shm_view self));
  let self := self <| shm_view := v |> in
  if ret <? 0 then mret (-1, self <| shm_errno := EIO |>)
  else
    let self := self <| cur_window := 0 |> in
    match shmp self with
    | None => mret (-1, self <| shm_errno := EIO |>)
    | Some d => _ ← NaClDescUnref d; mret (0, self <| shmp := None |>)
    end.

Definition NaClGioShmDtor (self : NaClGioShm) : M NaClGioShm :=
  self ← (match shmp self with
          | Some _ => '(_, self) ← NaClGioShmClose self; mret self
          | None => mret self
          end);
  mret (self <| shmp := None |>).

(** The object [raw] has the garbage of its allocation, and [shm_data] the
    bytes of the memory object.  The last component is the descriptor with the
    references it has then. *)
Definition NaClGioShmCtorIntern (raw : NaClGioShm) (d : NaClDescImcShm) (shm_size : Z) : M (bool * NaClGioShm * NaClDescImcShm) :=
  let self := raw <| shmp := None |> <| cur_window := 0 |> in
  let '(vfret, st_size) := NaClDescImcShmFstat d in
  if negb (0 =? vfret) then mret (false, self, d)
  else if st_size <? 0 then mret (false, self, d)
  else if (st_size <=? i64 SIZE_T_MAX) && (u64 st_size <? shm_size) then mret (false, self, d)
  else if (u64 OFF_T_MAX <? SIZE_T_MAX) && (u64 OFF_T_MAX <? shm_size) then mret (false, self, d)
  else
    d ← NaClDescRef d;
    let self := self <| shmp := Some d |> <| io_offset := 0 |> <| shm_sz := shm_size |> <| window_offset := 0 |> in
    '(ok, self) ← NaClGioShmSetWindow self 0;
    mret (ok, self, d).

Definition sizeof_ImcShm : Z := 48.

(** After a failure the descriptor is released and freed; freeing it when the
    release has freed it is undefined. *)
Definition NaClGioShmAllocCtor (raw : NaClGioShm) (shm_size : Z) : M (bool * NaClGioShm) :=
  _ ← check (shm_size =? NaClRoundAllocPage shm_size) "shm_size == NaClRoundAllocPage(shm_size)";
  if negb (malloc_ok sizeof_ImcShm) then mret (false, raw)
  else
    match NaClDescImcShmAllocCtor (i64 shm_size) false with
    | None => mret (false, raw)
    | Some d =>
        '(rv, self, d) ← NaClGioShmCtorIntern raw d shm_size;
        if (rv : bool) then mret (true, self)
        else
          left ← NaClDescUnref d;
          match left with
          | None => fail OutOfBounds
          | Some _ => mret (false, self)
          end
    end.

End GioShm.

(** ** A file over shared memory is a memory file *)

(** What the code relies on of the host: there is room for a window below the
    end of the address space, and mapping and unmapping succeed. *)
Record windows_granted `{Host} `{Imc} : Prop := {
  wg_room : forall len, 0 < len <= GIO_SHM_WINDOWSIZE ->
    exists l a, NaClFindAddressSpace len = (l, Ret (Some a)) /\ 0 < a /\ a + len + NACL_MAP_PAGESIZE < two64 - 1;
  wg_map : forall a n p f h off, imc_Map a n p f h off = a;
  wg_unmap : forall a n, imc_Unmap a n = 0;
}.

(** [l] with the bytes [b] written at [pos]. *)
Definition patch (l : list Z) (pos : nat) (b : list Z) : list Z := take pos l ++ b ++ drop (pos + length b) l.

Lemma patch_patch (l b1 b2 : list Z) p :
  (p + length b1 + length b2 <= length l)%nat -> patch (patch l p b1) (p + length b1) b2 = patch l p (b1 ++ b2).
Proof.
  intros Hl. unfold patch. rewrite length_app. rewrite (app_assoc (take p l) b1), take_app_length' by (rewrite length_app, length_take; lia).
  rewrite <- !app_assoc. do 3 f_equal. rewrite app_assoc, drop_app_ge by (rewrite length_app, length_take; lia).
  rewrite drop_drop, length_app, length_take. f_equal. lia.
Qed.

Lemma patch_length (l b : list Z) p : (p + length b <= length l)%nat -> length (patch l p b) = length l.
Proof. intros Hl. unfold patch. rewrite !length_app, length_take, length_drop. lia. Qed.

(** The protection of a window. *)
Definition window_prot : Z := Z.lor NACL_PROT_READ NACL_PROT_WRITE.

(** The [len] addresses from [a] show the bytes of the object from [off]. *)
Definition shows (v : view) (a off len : Z) : Prop :=
  forall i, 0 <= i < len -> view_at v (a + i) = Some (off + i, window_prot).

(** The window, when there is one, lies inside the object and its addresses
    show that part of it. *)
Record window_inv (g : NaClGioShm) : Prop := {
  wi_ok : shows (shm_view g) (cur_window g) (window_offset g) (window_size g);
  wi_offset : 0 <= window_offset g;
  wi_size : 0 < window_size g <= GIO_SHM_WINDOWSIZE;
  wi_end : window_offset g + window_size g <= shm_sz g;
  wi_addr : 0 < cur_window g /\ cur_window g + window_size g + NACL_MAP_PAGESIZE < two64;
}.

Record shm_inv (g : NaClGioShm) : Prop := {
  si_desc : is_Some (shmp g);
  si_data : shm_sz g = Z.of_nat (length (shm_data g));
  si_small : shm_sz g + NACL_MAP_PAGESIZE <= INT32_MAX;
  si_pos : 0 <= io_offset g <= shm_sz g;
  si_window : cur_window g <> 0 -> window_inv g;
}.

(** The memory file it behaves as. *)
Definition as_memory_file (g : NaClGioShm) : GioMemoryFile := mkGioMem (shm_data g) (shm_sz g) (io_offset g).

Ltac shm_lia := change NACL_MAP_PAGESIZE with 65536 in *; change GIO_SHM_WINDOWSIZE with 1048576 in *;
  change INT32_MAX with 2147483647 in *; zlia.

(** ** Copies through a part that shows the object *)

Section Shown.
Context (v : view) (a off len : Z) (Hv : shows v a off len) (Ho : 0 <= off).

Lemma view_byte_shown size need i :
  0 <= i < len -> off + len <= size -> Z.land window_prot need <> 0 ->
  view_byte v size need (a + i) = mret (Z.to_nat (off + i)).
Proof using Hv Ho.
  intros Hi Hs Hn. unfold view_byte. rewrite Hv by done. replace (Z.land window_prot need =? 0) with false by lia.
  replace (0 <=? off + i) with true by lia. by replace (off + i <? size) with true by lia.
Qed.

Lemma view_read_shown data n : forall i,
  off + len <= Z.of_nat (length data) -> 0 <= i -> i + Z.of_nat n <= len ->
  view_read v data (a + i) n = mret (take n (drop (Z.to_nat (off + i)) data)).
Proof using Hv Ho.
  induction n as [|n IH]; intros i Hd Hi Hn; cbn [view_read]; [done|].
  rewrite view_byte_shown, M_bind_ret_l by (done || lia).
  destruct (lookup_lt_is_Some_2 data (Z.to_nat (off + i))) as [b Hb]; [lia|].
  unfold load. rewrite Hb, M_bind_ret_l, <- Z.add_assoc, IH by lia. rewrite M_bind_ret_l.
  rewrite (drop_S _ _ _ Hb). by replace (Z.to_nat (off + (i + 1))) with (S (Z.to_nat (off + i))) by lia.
Qed.

Lemma view_write_shown bs : forall data i,
  off + len <= Z.of_nat (length data) -> 0 <= i -> i + Z.of_nat (length bs) <= len ->
  view_write v data (a + i) bs = mret (patch data (Z.to_nat (off + i)) bs).
Proof using Hv Ho.
  induction bs as [|b bs IH]; intros data i Hd Hi Hn; cbn [view_write length] in *.
  { unfold patch. simpl. by rewrite Nat.add_0_r, take_drop. }
  rewrite view_byte_shown, M_bind_ret_l by (done || lia). rewrite store_ok, M_bind_ret_l by lia.
  rewrite <- Z.add_assoc, IH by (rewrite ?length_insert; lia). f_equal.
  change (b :: bs) with ([b] ++ bs). rewrite <- patch_patch by (simpl; lia).
  replace (Z.to_nat (off + (i + 1))) with (Z.to_nat (off + i) + length [b])%nat by (simpl; lia).
  f_equal. unfold patch. rewrite insert_take_drop by lia. simpl. do 3 f_equal. lia.
Qed.
End Shown.

Section Refinement.
Context `{Host} `{Imc} (Hok : windows_granted).

(** The addresses from [a] to [e] show the object from [off], lower addresses
    what they did. *)
Lemma map_loop_ok n v h a e flags fixed off :
  0 < a -> e + NACL_MAP_PAGESIZE < two64 - 1 -> 0 <= off -> off + (e - a) + NACL_MAP_PAGESIZE <= INT32_MAX ->
  (e - a + NACL_MAP_PAGESIZE - 1) / NACL_MAP_PAGESIZE <= Z.of_nat n ->
  exists l v', ImcShmMap_loop n v h a e window_prot flags fixed off = (l, Ret (true, v')) /\
    shows v' a off (e - a) /\ forall x, x < a -> view_at v' x = view_at v x.
Proof using Hok.
  revert v a off. induction n as [|n IH]; intros v a off Ha He Ho Hoe Hn; cbn [ImcShmMap_loop].
  all: destruct (a <? e) eqn:Hlt; zbool; [|eexists _, v; split; [reflexivity|split; [intros i Hi; lia|done]]].
  - change NACL_MAP_PAGESIZE with 65536 in *. assert (1 <= (e - a + 65536 - 1) / 65536) by (apply Z.div_le_lower_bound; lia). lia.
  - cbn [negb Z.eqb NaClDescEffTrustedMemUnmapMemory]. rewrite (wg_map Hok).
    replace (MAP_FAILED =? a) with false by (symmetry; apply Z.eqb_neq; unfold MAP_FAILED; shm_lia).
    rewrite Z.eqb_refl, andb_false_r, (u64_small (a + NACL_MAP_PAGESIZE)), (i64_nonneg (off + NACL_MAP_PAGESIZE)) by shm_lia.
    destruct (IH ((a, Some (off, window_prot)) :: v) (a + NACL_MAP_PAGESIZE) (off + NACL_MAP_PAGESIZE)) as (l & v' & Hl & Hs & Hb);
      [shm_lia|done|shm_lia|lia| |].
    + change NACL_MAP_PAGESIZE with 65536 in *.
      replace (e - a + 65536 - 1) with (e - (a + 65536) + 65536 - 1 + 1 * 65536) in Hn by lia.
      rewrite Z.div_add in Hn by lia. lia.
    + exists ([HostMmap a NACL_MAP_PAGESIZE window_prot flags (Some h) off] ++ l), v'. split; [by apply M_bind_eq|]. split.
      * intros i Hi. destruct (decide (i < NACL_MAP_PAGESIZE)) as [Hin|Hin].
        -- rewrite Hb by lia. cbn [view_at]. replace (a <=? a + i) with true by lia.
           replace (a + i <? a + NACL_MAP_PAGESIZE) with true by lia. cbn. by replace (off + (a + i - a)) with (off + i) by lia.
        -- specialize (Hs (i - NACL_MAP_PAGESIZE)). replace (a + i) with (a + NACL_MAP_PAGESIZE + (i - NACL_MAP_PAGESIZE)) by lia.
           rewrite Hs by lia. do 2 f_equal. lia.
      * intros x Hx. rewrite Hb by shm_lia. cbn [view_at]. by replace (a <=? x) with false by lia.
Qed.

Lemma unmap_loop_ok n v a e :
  0 < a -> e + NACL_MAP_PAGESIZE < two64 -> (e - a + NACL_MAP_PAGESIZE - 1) / NACL_MAP_PAGESIZE <= Z.of_nat n ->
  exists l v', ImcShmUnmap_loop n v a e false = (l, Ret (0, v')).
Proof using Hok.
  revert v a. induction n as [|n IH]; intros v a Ha He Hn; cbn [ImcShmUnmap_loop].
  all: destruct (a <? e) eqn:Hlt; zbool; [|by eexists _, v].
  - change NACL_MAP_PAGESIZE with 65536 in *. assert (1 <= (e - a + 65536 - 1) / 65536) by (apply Z.div_le_lower_bound; lia). lia.
  - rewrite (wg_unmap Hok). cbn [negb Z.eqb]. destruct (IH ((a, None) :: v) (u64 (a + NACL_MAP_PAGESIZE))) as (l & v' & Hl).
    + rewrite u64_small by shm_lia. shm_lia.
    + done.
    + rewrite u64_small by shm_lia. change NACL_MAP_PAGESIZE with 65536 in *.
      replace (e - a + 65536 - 1) with (e - (a + 65536) + 65536 - 1 + 1 * 65536) in Hn by lia.
      rewrite Z.div_add in Hn by lia. lia.
    + eexists _, v'. eapply M_bind_eq. exact Hl.
Qed.

Lemma pages_enough a len : 0 <= len ->
  (a + len - a + NACL_MAP_PAGESIZE - 1) / NACL_MAP_PAGESIZE <= Z.of_nat (Z.to_nat (len / NACL_MAP_PAGESIZE + 1)).
Proof using.
  intros Hl. change NACL_MAP_PAGESIZE with 65536. pose proof (Z.div_pos len 65536 Hl). rewrite Z2Nat.id by lia.
  replace (a + len - a + 65536 - 1) with (len + 65535) by lia. rewrite <- Z.div_add by lia. apply Z.div_le_mono; lia.
Qed.

Lemma rounded_small x : 0 <= x -> x + NACL_MAP_PAGESIZE <= INT32_MAX ->
  (INT32_MAX <? i64 (Z.land (u64 (i64 x + NACL_MAP_PAGESIZE - 1)) (not64 (NACL_MAP_PAGESIZE - 1)))) = false.
Proof using.
  intros Hx Hs. apply Z.ltb_ge. rewrite (i64_nonneg x), u64_small by shm_lia. change (NACL_MAP_PAGESIZE - 1) with (2 ^ 16 - 1).
  rewrite land_not64_mask by (shm_lia || split; shm_lia). change (2 ^ 16) with 65536.
  pose proof (Z.mod_pos_bound (x + NACL_MAP_PAGESIZE - 1) 65536 ltac:(lia)).
  pose proof (Z.mod_le (x + NACL_MAP_PAGESIZE - 1) 65536 ltac:(shm_lia) ltac:(lia)). rewrite i64_nonneg by shm_lia. shm_lia.
Qed.

Lemma Map_ok d v len off :
  0 < len <= GIO_SHM_WINDOWSIZE -> 0 <= off -> off + len + NACL_MAP_PAGESIZE <= INT32_MAX ->
  exists l a v', NaClDescImcShmMap d v 0 len (Z.lor NACL_ABI_PROT_READ NACL_ABI_PROT_WRITE) NACL_ABI_MAP_SHARED off = (l, Ret (a, v')) /\
    0 < a /\ a + len + NACL_MAP_PAGESIZE < two64 - 1 /\ shows v' a off len.
Proof using Hok.
  intros Hl Ho Hs. destruct (wg_room Hok len Hl) as (l & a & Hf & Ha & Hb).
  destruct (map_loop_ok (Z.to_nat (len / NACL_MAP_PAGESIZE + 1)) v (shm_h d) a (a + len)
    (Z.lor IMC_MAP_SHARED IMC_MAP_FIXED) false off) as (l2 & v' & Hloop & Hsh & _); [done|shm_lia|done|shm_lia|apply pages_enough; lia|].
  replace (a + len - a) with len in Hsh by lia.
  eexists _, a, v'. split; [|done]. unfold NaClDescImcShmMap.
  change (negb (NACL_ABI_MAP_SHARED =? Z.land NACL_ABI_MAP_SHARED NACL_ABI_MAP_SHARING_MASK)) with false. cbv iota.
  change (negb (0 =? Z.land (Z.lnot _) _)) with false. cbv iota zeta.
  change (negb (0 =? Z.land NACL_ABI_MAP_FIXED NACL_ABI_MAP_SHARED)) with false. cbv iota. rewrite Hf.
  eapply M_bind_eq.
  rewrite rounded_small by shm_lia.
  cbv iota. rewrite (u64_small (a + len)) by shm_lia.
  match goal with |- context [ImcShmMap_loop _ _ _ _ _ ?p] => change p with window_prot end.
  rewrite Hloop. eapply M_bind_eq. reflexivity.
Qed.

(** The file with another window. *)
Record windowed (g g' : NaClGioShm) : Prop := {
  wd_file : as_memory_file g' = as_memory_file g;
  wd_desc : shmp g' = shmp g;
  wd_window : window_inv g';
}.

Lemma SetWindow_ok g off :
  shm_inv g -> 0 <= off < shm_sz g -> off mod 65536 = 0 ->
  exists l g', NaClGioShmSetWindow g off = (l, Ret (true, g')) /\ windowed g g' /\
    window_offset g' = off /\ window_size g' = Z.min GIO_SHM_WINDOWSIZE (shm_sz g - off).
Proof using Hok.
  intros [[d S1] S2 S3 S4 S5] Ho Hal. unfold NaClGioShmSetWindow.
  replace (Z.land off (NACL_MAP_PAGESIZE - 1)) with 0 by (change (NACL_MAP_PAGESIZE - 1) with (Z.ones 16); rewrite Z.land_ones by lia; done).
  rewrite Z.eqb_refl. cbn [negb]. replace (shm_sz g <=? off) with false by (symmetry; apply Z.leb_gt; lia). cbv iota.
  assert (Hun : exists l v, release_window g = (l, Ret (g <| shm_view := v |>))).
  { unfold release_window. destruct (0 =? cur_window g) eqn:E; zbool; [eexists _, (shm_view g); by destruct g|]. destruct S5 as [W1 W2 W3 W4 [W5 W6]]; [done|]. cbn [negb].
    rewrite S1. change (deref [Some d] 0) with (mret d : M NaClDescImcShm). rewrite M_bind_ret_l.
    unfold NaClDescImcShmUnmapUnsafe, NaClDescImcShmUnmapCommon. rewrite u64_small by shm_lia.
    destruct (unmap_loop_ok (Z.to_nat (window_size g / NACL_MAP_PAGESIZE + 1)) (shm_view g) (cur_window g) (cur_window g + window_size g)) as (l & v & Hl);
      [done|done|apply pages_enough; lia|]. rewrite Hl. eexists _, v. by eapply M_bind_eq. }
  destruct Hun as (l1 & v1 & ->). set (g0 := g <| shm_view := v1 |> <| cur_window := 0 |> <| window_size := 0 |>).
  set (len := if shm_sz g - off <? GIO_SHM_WINDOWSIZE then shm_sz g - off else GIO_SHM_WINDOWSIZE).
  assert (Hlen : len = Z.min GIO_SHM_WINDOWSIZE (shm_sz g - off)) by (unfold len; case_match; zbool; lia).
  destruct (Map_ok d v1 len off) as (l2 & a & v2 & Hmap & Ha & Hb & Hsh); [shm_lia|lia|shm_lia|].
  eexists _, _. split.
  - eapply M_bind_eq. cbv beta. fold g0. change (shm_sz g0) with (shm_sz g). change (shmp g0) with (shmp g). cbv zeta.
    rewrite (u64_small (shm_sz g - off)) by shm_lia. fold len. rewrite S1. change (deref [Some d] 0) with (mret d : M NaClDescImcShm).
    rewrite M_bind_ret_l. change (shm_view g0) with v1. rewrite Hmap. eapply M_bind_eq. cbv iota beta.
    replace (MAP_FAILED =? a) with false by (symmetry; apply Z.eqb_neq; unfold MAP_FAILED; shm_lia). reflexivity.
  - split_and!; [|done|by rewrite <- Hlen]. split; [done|done|]. split; simpl; try done; shm_lia.
Qed.

(** What a transfer of [n] bytes leaves. *)
Definition written (g : NaClGioShm) (is_write : bool) (buf : list Z) (n : Z) : list Z :=
  if is_write then patch (shm_data g) (Z.to_nat (io_offset g)) (take (Z.to_nat n) buf) else shm_data g.
Definition bytes_read (g : NaClGioShm) (is_write : bool) (n : Z) : list Z :=
  if is_write then [] else take (Z.to_nat n) (drop (Z.to_nat (io_offset g)) (shm_data g)).

(** The window is there when a turn of the loop needs it. *)
Lemma window_found g :
  shm_inv g -> io_offset g < shm_sz g ->
  exists l g', find_window g = (l, Ret (true, g')) /\ windowed g g' /\ window_offset g' <= io_offset g < window_offset g' + window_size g'.
Proof using Hok.
  intros Hg Hlt. pose proof Hg as [S1 S2 S3 S4 S5]. unfold find_window. destruct (_ || _) eqn:E.
  - change (NACL_MAP_PAGESIZE - 1) with (2 ^ 16 - 1). rewrite land_not64_mask by (shm_lia || split; shm_lia). change (2 ^ 16) with 65536.
    pose proof (Z.div_mod (io_offset g) 65536 ltac:(lia)) as Hdm. pose proof (Z.mod_pos_bound (io_offset g) 65536 ltac:(lia)) as Hmb.
    assert (Hal : (io_offset g - io_offset g mod 65536) mod 65536 = 0).
    { replace (io_offset g - io_offset g mod 65536) with (io_offset g / 65536 * 65536) by lia. by rewrite Z.mod_mul. }
    change (65536 - 1) with (Z.ones 16). cbv zeta. rewrite Z.land_ones by lia. change (2 ^ 16) with 65536. rewrite Hal. simpl check. rewrite M_bind_ret_l.
    pose proof (Z.div_pos (io_offset g) 65536 ltac:(lia)).
    destruct (SetWindow_ok g (io_offset g - io_offset g mod 65536) Hg ltac:(lia) Hal) as (l & g' & -> & Hw & Ho & Hs).
    exists l, g'. split_and!; [done|done|lia|]. rewrite Ho, Hs. shm_lia.
  - apply orb_false_iff in E as [E E3]. zbool. assert (Hw : window_inv g) by (apply S5; lia). pose proof Hw as [W1 W2 W3 W4 W5].
    rewrite u64_small in E3 by shm_lia. exists [], g. split_and!; [done|by split|lia|lia].
Qed.

Lemma windowed_inv g g' : shm_inv g -> windowed g g' -> shm_inv g'.
Proof using. intros [S1 S2 S3 S4 S5] [[= W1 W2 W3] Wd Ww]. split; rewrite ?Wd, ?W1, ?W2, ?W3; done. Qed.

(** One copy inside the window. *)
Lemma copy_ok is_write buf count g :
  shm_inv g -> window_inv g -> window_offset g <= io_offset g < window_offset g + window_size g -> 0 < count ->
  (is_write = true -> Z.of_nat (length buf) = count) ->
  let t := Z.min count (window_offset g + window_size g - io_offset g) in
  exists g', copy_window g is_write buf count = mret (t, bytes_read g is_write t, g') /\ shm_inv g' /\
    as_memory_file g' = mkGioMem (written g is_write buf t) (shm_sz g) (io_offset g + t).
Proof using.
  intros [S1 S2 S3 S4 S5] [W1 W2 W3 W4 W5] Hin Hc Hbuf t. unfold copy_window.
  rewrite (u64_small (window_offset g + window_size g)) by shm_lia.
  replace (window_offset g <=? io_offset g) with true by (symmetry; apply Z.leb_le; lia).
  replace (io_offset g <? window_offset g + window_size g) with true by (symmetry; apply Z.ltb_lt; lia).
  replace (shm_sz g <? window_offset g + window_size g) with false by (symmetry; apply Z.ltb_ge; lia).
  rewrite (u64_small (window_offset g + window_size g - io_offset g)) by shm_lia.
  replace (_ <=? GIO_SHM_WINDOWSIZE) with true by (symmetry; apply Z.leb_le; shm_lia). simpl check. rewrite !M_bind_ret_l.
  replace (if _ <? count then _ else count) with t by (unfold t; case_match; zbool; lia).
  set (i := io_offset g - window_offset g). assert (Hi : 0 <= i /\ i + t <= window_size g) by (unfold i, t; lia).
  rewrite (u64_small (cur_window g + i)) by shm_lia.
  assert (Hio : window_offset g + i = io_offset g) by (unfold i; lia).
  assert (Hlen : is_write = true -> length (patch (shm_data g) (Z.to_nat (io_offset g)) (take (Z.to_nat t) buf)) = length (shm_data g)).
  { intros Hw. specialize (Hbuf Hw). apply patch_length. rewrite length_take. lia. }
  exists (g <| shm_data := written g is_write buf t |> <| io_offset := io_offset g + t |>). split.
  - destruct is_write; unfold written, bytes_read.
    + rewrite (view_write_shown _ _ _ _ W1 W2), Hio by (rewrite ?length_take; lia). rewrite !M_bind_ret_l.
      cbv iota beta. by rewrite (u64_small (io_offset g + t)) by shm_lia.
    + rewrite (view_read_shown _ _ _ _ W1 W2), Hio by lia. rewrite !M_bind_ret_l.
      cbv iota beta. by rewrite (u64_small (io_offset g + t)) by shm_lia.
  - split; [|done]. unfold written. destruct is_write; (split; simpl; [done|rewrite ?Hlen by done; lia|lia|lia|]);
      intros Hw; by destruct (S5 Hw).
Qed.

(** Two transfers one after the other. *)
Lemma written_app g g1 is_write buf t k :
  0 <= t -> 0 <= k -> 0 <= io_offset g -> io_offset g + t + k <= Z.of_nat (length (shm_data g)) ->
  (is_write = true -> t + k <= Z.of_nat (length buf)) ->
  shm_data g1 = written g is_write buf t -> io_offset g1 = io_offset g + t ->
  written g1 is_write (drop (Z.to_nat t) buf) k = written g is_write buf (t + k) /\
  bytes_read g is_write t ++ bytes_read g1 is_write k = bytes_read g is_write (t + k).
Proof using.
  intros Ht Hk Hio Hlen Hbuf Ed Ei. unfold written, bytes_read in *. rewrite Ed, Ei, !Z2Nat.inj_add by lia. destruct is_write; split; try done.
  - specialize (Hbuf eq_refl). rewrite <- (take_take_drop buf (Z.to_nat t) (Z.to_nat k)).
    replace (Z.to_nat t) with (length (take (Z.to_nat t) buf)) at 2 by (rewrite length_take; lia).
    apply patch_patch. rewrite !length_take, length_drop. lia.
  - by rewrite <- drop_drop, take_take_drop.
Qed.

Lemma transfer_ok fuel is_write buf count sofar out g :
  shm_inv g -> 0 <= count < Z.of_nat fuel -> 0 <= sofar -> sofar + count < two63 ->
  (is_write = true -> Z.of_nat (length buf) = count) ->
  let n := Z.min count (shm_sz g - io_offset g) in
  exists l g', ReadOrWrite_loop fuel is_write buf count sofar out g = (l, Ret (sofar + n, out ++ bytes_read g is_write n, g')) /\ shm_inv g' /\
    as_memory_file g' = mkGioMem (written g is_write buf n) (shm_sz g) (io_offset g + n).
Proof using Hok.
  revert buf count sofar out g. induction fuel as [|fuel IH]; intros buf count sofar out g Hg Hc Hs Hsc Hbuf n; [lia|].
  pose proof Hg as [S1 S2 S3 S4 S5]. cbn [ReadOrWrite_loop].
  assert (Hstop : n = 0 -> exists l g', (mret (i64 sofar, out, g) : M _) = (l, Ret (sofar + n, out ++ bytes_read g is_write n, g')) /\ shm_inv g' /\
    as_memory_file g' = mkGioMem (written g is_write buf n) (shm_sz g) (io_offset g + n)).
  { intros ->. exists [], g. unfold bytes_read, written, patch, as_memory_file. rewrite i64_nonneg, !Z.add_0_r by lia. split_and!; [|done|].
    - destruct is_write; by rewrite ?app_nil_r.
    - destruct is_write; [|done]. simpl. by rewrite Nat.add_0_r, take_drop. }
  destruct (negb (0 <? count)) eqn:Hc0; zbool; [apply Hstop; lia|].
  destruct (shm_sz g <=? io_offset g) eqn:Hend; zbool; [apply Hstop; lia|]. clear Hstop.
  destruct (window_found g Hg Hend) as (l1 & g1 & -> & Hw & Hin). pose proof (windowed_inv _ _ Hg Hw) as Hg1. destruct Hw as [[= Fd Fs Fi] Wd Ww].
  pose proof Ww as [_ _ _ W4 _]. rewrite <- Fi in Hin.
  destruct (copy_ok is_write buf count g1 Hg1 Ww Hin Hc0 Hbuf) as (g2 & Hcp & Hg2 & [= Gd Gs Gi]).
  set (t := Z.min count (window_offset g1 + window_size g1 - io_offset g1)) in *. assert (Ht : 0 < t <= count) by lia.
  destruct (IH (drop (Z.to_nat t) buf) (count - t) (sofar + t) (out ++ bytes_read g1 is_write t) g2) as (l2 & g3 & Hrun & Hg3 & Hf3);
    [done|lia|lia|lia|intros E; rewrite length_drop; specialize (Hbuf E); lia|].
  rewrite Gs, Gi in *. assert (Hn : n = t + Z.min (count - t) (shm_sz g1 - (io_offset g1 + t))) by (rewrite Fs, Fi in *; lia).
  destruct (written_app g1 g2 is_write buf t (Z.min (count - t) (shm_sz g1 - (io_offset g1 + t)))) as [Ew Er];
    [lia|lia|lia|rewrite <- (si_data _ Hg1); lia|intros E; rewrite (Hbuf E); lia|done|done|].
  rewrite Ew in Hf3. rewrite <- Hn in *. exists (l1 ++ l2), g3. split_and!; [|done|].
  - eapply M_bind_eq. cbv iota beta. cbn [negb]. rewrite Hcp, M_bind_ret_l, u64_small by zlia. rewrite Hrun, <- app_assoc, Er.
    do 4 f_equal; [lia|]. unfold bytes_read. by rewrite Fd, Fi.
  - rewrite Hf3. unfold written. rewrite Fd, Fs, Fi. f_equal. lia.
Qed.

End Refinement.

(** ** Sequences of operations *)

Inductive file_op :=
| OpRead (count : Z)
| OpWrite (buf : list Z)
| OpSeek (offset : Z) (w : whence).

(** The sizes are those of the C types. *)
Definition op_ok (o : file_op) : Prop :=
  match o with
  | OpRead count => 0 <= count < two63
  | OpWrite buf => Z.of_nat (length buf) < two63
  | OpSeek _ _ => True
  end.

(** The result and the bytes read, of a memory file and of a file over shared
    memory. *)
Definition memory_op (g : GioMemoryFile) (o : file_op) : GioMemoryFile * (Z * list Z) :=
  match o with
  | OpRead count => let '(g, r, bs) := GioMemoryFileRead g count in (g, (r, bs))
  | OpWrite buf => let '(g, r) := GioMemoryFileWrite g buf in (g, (r, []))
  | OpSeek offset w => let '(g, r) := GioMemoryFileSeek g offset w in (g, (r, []))
  end.

Definition shm_op `{Host} `{Imc} (g : NaClGioShm) (o : file_op) : M (NaClGioShm * (Z * list Z)) :=
  match o with
  | OpRead count => '(r, bs, g) ← NaClGioShmRead g count; mret (g, (r, bs))
  | OpWrite buf => '(r, g) ← NaClGioShmWrite g buf; mret (g, (r, []))
  | OpSeek offset w => let '(r, g) := NaClGioShmSeek g offset w in mret (g, (r, []))
  end.

Fixpoint memory_ops (g : GioMemoryFile) (ops : list file_op) : GioMemoryFile * list (Z * list Z) :=
  match ops with
  | [] => (g, [])
  | o :: ops => let '(g, r) := memory_op g o in let '(g, rs) := memory_ops g ops in (g, r :: rs)
  end.

Fixpoint shm_ops `{Host} `{Imc} (g : NaClGioShm) (ops : list file_op) : M (NaClGioShm * list (Z * list Z)) :=
  match ops with
  | [] => mret (g, [])
  | o :: ops => '(g, r) ← shm_op g o; '(g, rs) ← shm_ops g ops; mret (g, r :: rs)
  end.

Lemma round_aligned size : 0 <= size < two64 - 65536 -> size mod 65536 = 0 -> NaClRoundAllocPage size = size.
Proof.
  intros Hs Hal. rewrite NaClRoundAllocPage_val, u64_small by shm_lia. pose proof (Z.div_mod size 65536 ltac:(lia)) as E. rewrite Hal in E.
  replace ((size + 65535) mod 65536) with 65535; [lia|]. rewrite E at 1. symmetry.
  rewrite Z.add_0_r, (Z.mul_comm 65536), Z.add_comm, Z.mod_add by lia. reflexivity.
Qed.

Section Operations.
Context `{Host} `{Imc} (Hok : windows_granted).

Lemma file_inv g : shm_inv g -> gio_inv (as_memory_file g).
Proof using. intros [S1 S2 S3 S4 S5]. split; simpl; [done|shm_lia|done]. Qed.

Lemma memory_write g buf :
  shm_inv g -> Z.of_nat (length buf) < two63 ->
  let n := Z.min (Z.of_nat (length buf)) (shm_sz g - io_offset g) in
  GioMemoryFileWrite (as_memory_file g) buf = (mkGioMem (written g true buf n) (shm_sz g) (io_offset g + n), n).
Proof using.
  intros [S1 S2 S3 S4 S5] Hb n. unfold GioMemoryFileWrite, as_memory_file. cbn [gm_len gm_curpos gm_buffer].
  rewrite (u64_small (shm_sz g - io_offset g)) by shm_lia.
  replace (if shm_sz g - io_offset g <? Z.of_nat (length buf) then _ else _) with n by (unfold n; case_match; zbool; lia).
  destruct (0 =? n) eqn:E; zbool.
  - rewrite <- E. unfold written, patch. simpl. by rewrite Nat.add_0_r, take_drop, Z.add_0_r.
  - rewrite u64_small, i64_nonneg by shm_lia. done.
Qed.

(** One operation. *)
Lemma op_refines g o : shm_inv g -> op_ok o ->
  exists l g', shm_op g o = (l, Ret (g', (memory_op (as_memory_file g) o).2)) /\ shm_inv g' /\
    as_memory_file g' = (memory_op (as_memory_file g) o).1.
Proof using Hok.
  intros Hg Ho. pose proof Hg as [S1 S2 S3 S4 S5]. destruct o as [count|buf|offset w]; cbn [op_ok shm_op memory_op] in *.
  - destruct (MemRead_spec _ count (file_inv g Hg) ltac:(lia)) as [-> _]. unfold NaClGioShmRead, NaClGioShmReadOrWrite.
    destruct (transfer_ok Hok (S (Z.to_nat count)) false [] count 0 [] g Hg ltac:(lia) ltac:(lia) ltac:(lia) ltac:(done)) as (l & g' & Hr & Hg' & Hf).
    rewrite Hr. exists l, g'. split; [by apply M_bind_pure|]. by split.
  - rewrite memory_write by done. unfold NaClGioShmWrite, NaClGioShmReadOrWrite.
    destruct (transfer_ok Hok (S (Z.to_nat (Z.of_nat (length buf)))) true buf (Z.of_nat (length buf)) 0 [] g Hg ltac:(lia) ltac:(lia) ltac:(lia) ltac:(done))
      as (l & g' & Hr & Hg' & Hf).
    rewrite Hr, M_bind_assoc. exists l, g'. split; [|by split]. apply M_bind_pure. by rewrite M_bind_ret_l.
  - unfold NaClGioShmSeek, GioMemoryFileSeek, as_memory_file. cbn [gm_len gm_curpos gm_buffer]. set (p := u64 _).
    assert (0 <= p) by apply u64_range. destruct (shm_sz g <? p) eqn:E; zbool; (eexists [], _; split; [reflexivity|]; split; [|done]);
      (split; simpl; [done|done|done|lia|]); intros Hw; specialize (S5 Hw); by destruct S5.
Qed.

Lemma ops_refine ops g : shm_inv g -> Forall op_ok ops ->
  exists l g', shm_ops g ops = (l, Ret (g', (memory_ops (as_memory_file g) ops).2)) /\ shm_inv g' /\
    as_memory_file g' = (memory_ops (as_memory_file g) ops).1.
Proof using Hok.
  revert g. induction ops as [|o ops IH]; intros g Hg Ho; cbn [shm_ops memory_ops]; [by exists [], g|].
  apply Forall_cons in Ho as [Ho Hos]. destruct (op_refines g o Hg Ho) as (l1 & g1 & Hr1 & Hg1 & Hf1).
  destruct (memory_op (as_memory_file g) o) as [f1 r1]. cbn [fst snd] in *. subst f1.
  destruct (IH g1 Hg1 Hos) as (l2 & g2 & Hr2 & Hg2 & Hf2). destruct (memory_ops (as_memory_file g1) ops) as [f2 rs]. cbn [fst snd] in *.
  exists (l1 ++ l2), g2. split; [|done]. rewrite Hr1. apply M_bind_eq. rewrite Hr2. by apply M_bind_pure.
Qed.

(** The constructor. *)
Lemma AllocCtor_ok raw size :
  malloc_ok sizeof_ImcShm = true -> imc_CreateMemoryObject size false <> NACL_INVALID_HANDLE ->
  0 < size -> size mod 65536 = 0 -> size + NACL_MAP_PAGESIZE <= INT32_MAX -> Z.of_nat (length (shm_data raw)) = size ->
  exists l g, NaClGioShmAllocCtor raw size = (l, Ret (true, g)) /\ shm_inv g /\ as_memory_file g = GioMemoryFileCtor (shm_data raw).
Proof using Hok.
  intros Hm Hh Hs Hal Hsm Hd. unfold NaClGioShmAllocCtor. rewrite round_aligned by shm_lia.
  rewrite Z.eqb_refl. simpl check. rewrite M_bind_ret_l, Hm. cbn [negb]. unfold NaClDescImcShmAllocCtor, NaClDescImcShmCtor.
  rewrite i64_nonneg, u64_small by shm_lia. replace (size <? 0) with false by (symmetry; apply Z.ltb_ge; lia).
  replace (SIZE_T_MAX <? size) with false by (symmetry; apply Z.ltb_ge; unfold SIZE_T_MAX; shm_lia). cbn [orb].
  replace (NACL_INVALID_HANDLE =? imc_CreateMemoryObject size false) with false by (symmetry; by apply Z.eqb_neq, not_eq_sym).
  unfold NaClGioShmCtorIntern, NaClDescImcShmFstat. cbn [shm_size].
  replace (INT32_MAX <? size) with false by (symmetry; apply Z.ltb_ge; shm_lia). cbn [negb Z.eqb].
  replace (size <? 0) with false by (symmetry; apply Z.ltb_ge; lia).
  replace (size <=? i64 SIZE_T_MAX) with false by (symmetry; apply Z.leb_gt; change (i64 SIZE_T_MAX) with (-1); lia). cbn [andb].
  replace (u64 OFF_T_MAX <? size) with false by (symmetry; apply Z.ltb_ge; change (u64 OFF_T_MAX) with (two63 - 1); shm_lia). rewrite andb_false_r.
  set (d := mkImcShm 2 (imc_CreateMemoryObject size false) size).
  change (NaClDescRef _) with (mret d : M NaClDescImcShm). rewrite M_bind_ret_l. set (g0 := _ <| window_offset := 0 |>).
  assert (Hg0 : shm_inv g0) by (split; simpl; [by eexists|done|done|lia|done]).
  destruct (SetWindow_ok Hok g0 0 Hg0 ltac:(simpl; lia) eq_refl) as (l & g & Hw & Hwd & _).
  rewrite Hw. exists l, g. split; [|split; [by eapply windowed_inv|]].
  - rewrite M_bind_assoc. apply M_bind_pure. by rewrite M_bind_ret_l.
  - rewrite (wd_file _ _ Hwd). unfold GioMemoryFileCtor. by rewrite Hd.
Qed.

End Operations.

(** ** Properties *)

(** C33: a file over shared memory is a memory file.  For an object of a
    positive multiple of 64 KB, 64 KB or more below 2 GB, when the object and
    its descriptor can be allocated, there is address space for a window and the
    kernel maps fixed pages where asked and unmaps them, NaClGioShmAllocCtor
    makes a file over the bytes of the object, and every sequence of reads,
    writes and seeks, of counts below 2^63, returns what the same sequence
    returns on the memory file of gio_mem.c over these bytes, and leaves the
    object and the position as there.  The bytes are reached only through the
    pages mapped from the object, so the address and the offset of every page
    matter. *)
Theorem shm_file_refines_memory_file `{Host} `{Imc} raw size ops :
  windows_granted -> malloc_ok sizeof_ImcShm = true -> imc_CreateMemoryObject size false <> NACL_INVALID_HANDLE ->
  0 < size -> size mod 65536 = 0 -> size + NACL_MAP_PAGESIZE <= INT32_MAX -> Z.of_nat (length (shm_data raw)) = size -> Forall op_ok ops ->
  exists l g l' g', NaClGioShmAllocCtor raw size = (l, Ret (true, g)) /\
    shm_ops g ops = (l', Ret (g', (memory_ops (GioMemoryFileCtor (shm_data raw)) ops).2)) /\
    as_memory_file g' = (memory_ops (GioMemoryFileCtor (shm_data raw)) ops).1.
Proof.
  intros Hok Hm Hh Hs Hal Hsm Hd Ho. destruct (AllocCtor_ok Hok raw size Hm Hh Hs Hal Hsm Hd) as (l & g & Hc & Hg & Hf).
  destruct (ops_refine Hok ops g Hg Ho) as (l' & g' & Hr & _ & Hf'). rewrite Hf in *. by exists l, g, l', g'.
Qed.

Definition shm_host : Host := {|
  malloc_ok := fun _ => true;
  host_mprotect := fun _ _ _ => 0;
  host_madvise := fun _ _ _ => 0;
  host_mmap := fun _ _ _ _ _ _ => 1099511627776;
  host_munmap := fun _ _ => 0;
  host_errno := 0;
  host_fstat := fun _ => (0, 0);
  host_pread := fun _ _ n _ => n;
  host_pwrite := fun _ _ n _ => n;
|}.

Definition good_imc : Imc := {|
  imc_Map := fun a _ _ _ _ _ => a;
  imc_Unmap := fun _ _ => 0;
  imc_CreateMemoryObject := fun _ _ => 3;
|}.

Lemma good_windows : windows_granted (H := shm_host) (H0 := good_imc).
Proof. split; [|done|done]. intros len Hl. eexists _, 1099511627776. split; [reflexivity|]. shm_lia. Qed.

(** 20 pages of 64 KB, more than one window. *)
Definition raw_shm : NaClGioShm := mkGioShm None 0 0 0 0 0 [] (replicate (Z.to_nat 1310720) 7) 0.

Lemma shm_file_refines_memory_file_witness :
  exists l g l' g', NaClGioShmAllocCtor (H := shm_host) (H0 := good_imc) raw_shm 1310720 = (l, Ret (true, g)) /\
    let ops := [OpSeek 1048570 SEEK_SET; OpWrite [1; 2; 3; 4; 5; 6; 7; 8; 9]; OpSeek (-4) SEEK_CUR; OpRead 10; OpSeek 5 SEEK_END] in
    shm_ops (H := shm_host) (H0 := good_imc) g ops = (l', Ret (g', (memory_ops (GioMemoryFileCtor (shm_data raw_shm)) ops).2)) /\
    as_memory_file g' = (memory_ops (GioMemoryFileCtor (shm_data raw_shm)) ops).1.
Proof.
  apply (shm_file_refines_memory_file (H := shm_host) (H0 := good_imc) raw_shm 1310720);
    [exact good_windows|reflexivity|discriminate|lia|reflexivity|done| |].
  - cbn [shm_data raw_shm]. rewrite length_replicate. lia.
  - repeat constructor; simpl; done.
Defined.

(** ** Where the code deviates *)

(** The result of Map is compared with MAP_FAILED, but Map returns an error
    number: when it fails, the constructor succeeds with the number for a
    window, and the first read goes through it. *)
Definition failing_imc : Imc := {|
  imc_Map := fun _ _ _ _ _ _ => MAP_FAILED;
  imc_Unmap := fun _ _ => 0;
  imc_CreateMemoryObject := fun _ _ => 3;
|}.

Theorem shm_map_failure_missed :
  match result (NaClGioShmAllocCtor (H := shm_host) (H0 := failing_imc) raw_shm 1310720) with
  | Ret (ok, g) => ok = true /\ result (NaClGioShmRead (H := shm_host) (H0 := failing_imc) g 1) = Fault OutOfBounds
  | Fault _ => False
  end.
Proof. by split. Qed.

(** An object of 2 GB or more makes Fstat fail before the descriptor is
    referenced; the constructor then releases its only reference, which frees
    it, and frees it again. *)
Theorem shm_ctor_double_free `{Host} `{Imc} raw size :
  malloc_ok sizeof_ImcShm = true -> imc_CreateMemoryObject size false <> NACL_INVALID_HANDLE ->
  INT32_MAX < size < two63 - 65536 -> size mod 65536 = 0 ->
  result (NaClGioShmAllocCtor raw size) = Fault OutOfBounds.
Proof.
  intros Hm Hh Hs Hal. unfold NaClGioShmAllocCtor. rewrite round_aligned by shm_lia.
  rewrite Z.eqb_refl. simpl check. rewrite M_bind_ret_l, Hm. cbn [negb]. unfold NaClDescImcShmAllocCtor, NaClDescImcShmCtor.
  rewrite i64_nonneg, u64_small by shm_lia. replace (size <? 0) with false by (symmetry; apply Z.ltb_ge; shm_lia).
  replace (SIZE_T_MAX <? size) with false by (symmetry; apply Z.ltb_ge; unfold SIZE_T_MAX; shm_lia). cbn [orb].
  replace (NACL_INVALID_HANDLE =? imc_CreateMemoryObject size false) with false by (symmetry; by apply Z.eqb_neq, not_eq_sym).
  unfold NaClGioShmCtorIntern, NaClDescImcShmFstat. cbn [shm_size].
  replace (INT32_MAX <? size) with true by (symmetry; apply Z.ltb_lt; shm_lia). reflexivity.
Qed.

(** Close unmaps 64 KB of a window of up to 1 MB. *)
Theorem shm_close_unmaps_one_page `{Host} `{Imc} g d :
  shmp g = Some d -> 0 < cur_window g -> cur_window g + 65536 < two64 -> (forall a n, imc_Unmap a n = 0) -> ref_count d <> 0 ->
  trace (NaClGioShmClose g) = [HostMunmap (cur_window g) NACL_MAP_PAGESIZE].
Proof.
  intros Hd H1 H2 Hu Hr. unfold NaClGioShmClose. replace (0 =? cur_window g) with false by (symmetry; apply Z.eqb_neq; lia). cbn [negb].
  rewrite Hd. change (deref [Some d] 0) with (mret d : M NaClDescImcShm). rewrite M_bind_ret_l.
  unfold NaClDescImcShmUnmapUnsafe, NaClDescImcShmUnmapCommon. change (Z.to_nat (NACL_MAP_PAGESIZE / NACL_MAP_PAGESIZE + 1)) with 2%nat.
  cbn [ImcShmUnmap_loop]. rewrite (u64_small (cur_window g + NACL_MAP_PAGESIZE)) by shm_lia.
  replace (cur_window g <? cur_window g + NACL_MAP_PAGESIZE) with true by (symmetry; apply Z.ltb_lt; shm_lia).
  rewrite Hu, Z.ltb_irrefl. cbn. rewrite Hd. unfold NaClDescUnref.
  replace (0 =? ref_count d) with false by (symmetry; by apply Z.eqb_neq, not_eq_sym). by destruct (_ =? _).
Qed.
