(* ===== verification/Memory.v ===== *)
(** * Memory system calls: nacl_syscall_handlers.c

    sysbrk, mmap and munmap.  The application is passed along explicitly; a
    handler returns it with the [int32_t] result.  [mu] is taken and released
    around sysbrk in the code; the runtime is single-threaded and the lock is
    not modelled.

    NaClCommonSysMmapIntern is one C function with a [cleanup] label; it is
    split here at its comments into the argument checks, the choice of the
    address, the validation of the range and the three mappings.  [inl r] is
    "goto cleanup" with [map_result = r]. *)

From S2P Require Import Prelude Effects Rounding MemObj Vmmap VmmapSpec VmmapCompact VmmapUpdate.
From S2P Require Import VmmapFind DynArray Policy App HostDesc.

Definition kMaxUsableFileSize : Z := Z.shiftr SIZE_T_MAX 1.
Definition UINT32_MAX : Z := two32 - 1.
Definition size_min (a b : Z) : Z := if a <? b then a else b.

(** A negative errno as the [uintptr_t] the code stores in [map_result]. *)
Definition neg_errno (e : Z) : Z := u64 (- e).

Definition AddrRangeContainsExecutablePages (nap : NaClApp) (usraddr : Z) : bool :=
  NaClTruncAllocPage usraddr <? dynamic_text_end nap.

Section Handlers.
Context `{Host}.

Definition NaCl_mprotect (addr len prot : Z) : M Z :=
  _ ← emit (HostMprotect addr len prot);
  mret (host_mprotect addr len prot).

Definition NaClCommonUtilUpdateAddrMap (nap : NaClApp) (sysaddr nbytes sysprot : Z)
    (backing_desc : option Z) (backing_bytes offset_bytes : Z) (delete_mem : bool) : M NaClApp :=
  usraddr ← NaClSysToUser nap sysaddr;
  nmop ← match backing_desc with
         | Some d =>
             if delete_mem then fail (LogFatal "invariant of delete_mem implies backing_desc NULL violated.")
             else NaClMemObjMake (Some d) backing_bytes offset_bytes
         | None => mret None
         end;
  mm ← NaClVmmapUpdate (mem_map nap) (Z.shiftr usraddr NACL_PAGESHIFT) (Z.shiftr nbytes NACL_PAGESHIFT)
         sysprot nmop delete_mem;
  mret (nap <| mem_map := mm |>).

(** ** sysbrk *)

(** Extending the segment [ent] at index [ix] up to [last_internal_page]. *)
Definition Sysbrk_extend (nap : NaClApp) (ix : nat) (ent : NaClVmmapEntry)
    (last_internal_page new_break : Z) : M NaClApp :=
  let start_new_region := u64 (Z.shiftl (u64 (page_num ent + npages ent)) NACL_PAGESHIFT) in
  arr ← store (vmentry (mem_map nap)) ix
          (Some (ent <| npages := u64 (last_internal_page - page_num ent + 1) |>));
  let region_size :=
    u64 (u64 (Z.shiftl (u64 (last_internal_page + 1)) NACL_PAGESHIFT) - start_new_region) in
  _ ← (if whole_chunk nap then mret tt
       else
         a ← NaClUserToSys nap start_new_region;
         r ← NaCl_mprotect a region_size (Z.lor PROT_READ PROT_WRITE);
         if negb (0 =? r) then fail (LogFatal "Could not mprotect") else mret tt);
  mret (nap <| mem_map := (mem_map nap) <| vmentry := arr |> |> <| break_addr := new_break |>).

Definition NaClSysSysbrk (nap : NaClApp) (new_break : Z) : M (NaClApp * Z) :=
  (* the local [break_addr] is [nap->break_addr] on every path *)
  let return_break nap := mret (M:=M) (nap, i32 (break_addr nap)) in
  let sys_new_break := NaClUserToSysAddr nap new_break in
  if kNaClBadAddress =? sys_new_break then return_break nap
  else if new_break <? data_end nap then return_break nap
  else if new_break <=? break_addr nap then return_break (nap <| break_addr := new_break |>)
  else
    _ ← NaClUserToSys nap (break_addr nap);
    let usr_last_data_page := Z.shiftr (u64 (break_addr nap - 1)) NACL_PAGESHIFT in
    let usr_new_last_data_page := Z.shiftr (u64 (new_break - 1)) NACL_PAGESHIFT in
    let last_internal_data_addr := u64 (NaClRoundAllocPage new_break - 1) in
    let last_internal_page := Z.shiftr last_internal_data_addr NACL_PAGESHIFT in
    '(mm, iter) ← NaClVmmapFindPageIter (mem_map nap) usr_last_data_page;
    let nap := nap <| mem_map := mm |> in
    if NaClVmmapIterAtEnd mm iter then fail (LogFatal "current break not in address map")
    else
      ent ← NaClVmmapIterStar mm iter;
      if usr_new_last_data_page <? u64 (page_num ent + npages ent) then
        return_break (nap <| break_addr := new_break |>)
      else
        let next := NaClVmmapIterIncr iter in
        blocked ← (if NaClVmmapIterAtEnd mm next then mret false
                   else next_ent ← NaClVmmapIterStar mm next;
                        mret (page_num next_ent <=? last_internal_page));
        if (blocked : bool) then return_break nap
        else
          nap ← Sysbrk_extend nap iter ent last_internal_page new_break;
          return_break nap.

(** ** mmap *)

Definition mmap_allowed_flags : Z :=
  Z.lor (Z.lor (Z.lor NACL_ABI_MAP_FIXED NACL_ABI_MAP_SHARED) NACL_ABI_MAP_PRIVATE)
    NACL_ABI_MAP_ANONYMOUS.

(** The descriptor the mapping is backed by. *)
Definition Mmap_desc (nap : NaClApp) (flags d : Z) : M (Z + option Z) :=
  if negb (0 =? Z.land flags NACL_ABI_MAP_ANONYMOUS) then mret (inr None)
  else
    ndp ← NaClGetDesc nap d;
    match ndp with
    | None => mret (inl (neg_errno NACL_ABI_EBADF))
    | Some r => mret (inr (Some r))
    end.

(** The lengths computed from the request and the size of the file. *)
Record mmap_sizes := mkSizes {
  alloc_rounded_length : Z;
  map_length : Z;             (* [length] after the size_min *)
  start_of_inaccessible : Z;
  file_size : Z;
  file_bytes : Z;
}.

Definition Mmap_lengths (alloc file_size file_bytes host_rounded_file_bytes alloc_rounded_file_bytes : Z)
  : mmap_sizes :=
  mkSizes alloc (size_min alloc (u64 host_rounded_file_bytes)) (size_min alloc alloc_rounded_file_bytes)
    file_size file_bytes.

Definition Mmap_file (d alloc offset : Z) : M (Z + mmap_sizes) :=
  let '(status, file_size) := host_fstat d in
  if negb (0 =? status) then mret (inl (u64 status))
  else if file_size <? offset then mret (inl (neg_errno NACL_ABI_EINVAL))
  else
    let file_bytes := file_size - offset in
    let host_rounded_file_bytes :=
      if i64 kMaxUsableFileSize <? file_bytes then kMaxUsableFileSize
      else i64 (NaClRoundHostAllocPage (u64 file_bytes)) in
    _ ← check (host_rounded_file_bytes <=? i64 kMaxUsableFileSize)
          "host_rounded_file_bytes <= (nacl_off64_t) kMaxUsableFileSize";
    let alloc_rounded_file_bytes := NaClRoundAllocPage (u64 host_rounded_file_bytes) in
    if (0 =? alloc_rounded_file_bytes) && negb (0 =? host_rounded_file_bytes) then
      mret (inl (neg_errno NACL_ABI_ENOMEM))
    else mret (inr (Mmap_lengths alloc file_size file_bytes host_rounded_file_bytes alloc_rounded_file_bytes)).

Definition Mmap_sizes (ndp : option Z) (usraddr length offset : Z) : M (Z + mmap_sizes) :=
  if negb (NaClIsAllocPageMultiple usraddr) then mret (inl (neg_errno NACL_ABI_EINVAL))
  else if offset <? 0 then mret (inl (neg_errno NACL_ABI_EINVAL))
  else if negb (NaClIsAllocPageMultiple (u64 offset)) then mret (inl (neg_errno NACL_ABI_EINVAL))
  else if 0 =? length then mret (inl (neg_errno NACL_ABI_EINVAL))
  else
    let alloc := NaClRoundAllocPage length in
    match ndp with
    | None => mret (inr (Mmap_lengths alloc kMaxUsableFileSize kMaxUsableFileSize
                           kMaxUsableFileSize kMaxUsableFileSize))
    | Some d => Mmap_file d alloc offset
    end.

(** Choosing an address when MAP_FIXED is not given. *)
Definition Mmap_address (nap : NaClApp) (flags usraddr alloc : Z) : M (NaClApp * (Z + Z)) :=
  if negb (0 =? Z.land flags NACL_ABI_MAP_FIXED) then mret (nap, inr usraddr)
  else
    let pages := Z.shiftr alloc NACL_PAGESHIFT in
    '(mm, usrpage) ←
      (if 0 =? usraddr then NaClVmmapFindMapSpace (mem_map nap) pages
       else
         '(mm, usrpage) ← NaClVmmapFindMapSpaceAboveHint (mem_map nap) usraddr pages;
         if 0 =? usrpage then NaClVmmapFindMapSpace mm pages else mret (mm, usrpage));
    let nap := nap <| mem_map := mm |> in
    if 0 =? usrpage then mret (nap, inl (neg_errno NACL_ABI_ENOMEM))
    else mret (nap, inr (u64 (Z.shiftl usrpage NACL_PAGESHIFT))).

(** Is [usraddr, usraddr + alloc) a range the user may map? *)
Definition Mmap_range_ok (nap : NaClApp) (usraddr alloc : Z) : bool :=
  if addr_limit nap <=? usraddr then false
  else
    let endaddr := u64 (usraddr + alloc) in
    if endaddr <? usraddr then false
    else if addr_limit nap <? endaddr then false
    else negb (AddrRangeContainsExecutablePages nap usraddr).

(** [0, length): file contents, or anonymous memory. *)
Definition Mmap_part1 (nap : NaClApp) (ndp : option Z) (sysaddr : Z) (sz : mmap_sizes)
    (prot flags offset : Z) : M NaClApp :=
  if 0 <? map_length sz then
    map_result ←
      match ndp with
      | None => NaClDescIoDescMapAnon (whole_chunk nap) sysaddr (map_length sz) prot flags offset
      | Some _ =>
          let length_to_map := size_min (map_length sz) (u64 (file_bytes sz)) in
          NaClDescIoDescMap (whole_chunk nap) ndp sysaddr length_to_map prot flags offset
      end;
    if NaClPtrIsNegErrno map_result then fail (LogFatal "NaClSysMmap: Map failed")
    else if negb (map_result =? sysaddr) then fail (LogFatal "system mmap did not honor NACL_ABI_MAP_FIXED")
    else if prot =? NACL_ABI_PROT_NONE then
      NaClCommonUtilUpdateAddrMap nap sysaddr (map_length sz) PROT_NONE None (file_size sz) offset false
    else
      NaClCommonUtilUpdateAddrMap nap sysaddr (map_length sz) (NaClProtMap prot) ndp (file_size sz) offset
        false
  else mret nap.

(** Zero fill [length, start_of_inaccessible). *)
Definition Mmap_part2 (nap : NaClApp) (sysaddr : Z) (sz : mmap_sizes) (prot : Z) : M (NaClApp * (Z + unit)) :=
  if map_length sz <? start_of_inaccessible sz then
    let map_len := u64 (start_of_inaccessible sz - map_length sz) in
    map_result ← NaClHostDescMap (whole_chunk nap) None (u64 (sysaddr + map_length sz)) map_len prot
                   (Z.lor NACL_ABI_MAP_ANONYMOUS NACL_ABI_MAP_PRIVATE) 0;
    if NaClPtrIsNegErrno map_result then mret (nap, inl map_result)
    else
      nap ← NaClCommonUtilUpdateAddrMap nap (u64 (sysaddr + map_length sz)) map_len (NaClProtMap prot)
              None 0 0 false;
      mret (nap, inr tt)
  else mret (nap, inr tt).

(** Inaccessible [start_of_inaccessible, alloc_rounded_length). *)
Definition Mmap_part3 (nap : NaClApp) (sysaddr : Z) (sz : mmap_sizes) : M NaClApp :=
  if start_of_inaccessible sz <? alloc_rounded_length sz then
    let map_len := u64 (alloc_rounded_length sz - start_of_inaccessible sz) in
    _ ← NaClHostDescMap (whole_chunk nap) None (u64 (sysaddr + start_of_inaccessible sz)) map_len
          NACL_ABI_PROT_NONE (Z.lor NACL_ABI_MAP_ANONYMOUS NACL_ABI_MAP_PRIVATE) 0;
    NaClCommonUtilUpdateAddrMap nap (u64 (sysaddr + start_of_inaccessible sz)) map_len PROT_NONE
      None 0 0 false
  else mret nap.

(** From the validated address on: flags, protections, the three mappings.
    The result is [map_result]. *)
Definition Mmap_map (nap : NaClApp) (ndp : option Z) (usraddr : Z) (sz : mmap_sizes)
    (prot flags offset : Z) : M (NaClApp * Z) :=
  let flags := Z.lor flags NACL_ABI_MAP_FIXED in
  let prot := Z.land prot (Z.lnot NACL_ABI_PROT_EXEC) in
  if Bool.eqb (0 =? Z.land flags NACL_ABI_MAP_SHARED) (0 =? Z.land flags NACL_ABI_MAP_PRIVATE)
  then mret (nap, neg_errno NACL_ABI_EINVAL)
  else
    sysaddr ← NaClUserToSys nap usraddr;
    nap ← Mmap_part1 nap ndp sysaddr sz prot flags offset;
    '(nap, r) ← Mmap_part2 nap sysaddr sz prot;
    match r with
    | inl map_result => mret (nap, map_result)
    | inr _ =>
        nap ← Mmap_part3 nap sysaddr sz;
        mret (nap, usraddr)
    end.

(** The [cleanup] label. *)
Definition Mmap_cleanup (nap : NaClApp) (ndp : option Z) (map_result : Z) : M (NaClApp * Z) :=
  _ ← match ndp with Some r => emit (DescUnref r) | None => mret tt end;
  if (UINT32_MAX <? map_result) && negb (NaClPtrIsNegErrno map_result) then
    fail (LogFatal "Overflow in NaClSysMmap")
  else mret (nap, i32 map_result).

Definition NaClCommonSysMmapIntern (nap : NaClApp) (start length prot flags d offset : Z)
  : M (NaClApp * Z) :=
  let usraddr := start in
  let flags := Z.land flags mmap_allowed_flags in
  desc ← Mmap_desc nap flags d;
  match desc with
  | inl e => Mmap_cleanup nap None e
  | inr ndp =>
      sizes ← Mmap_sizes ndp usraddr length offset;
      match sizes with
      | inl e => Mmap_cleanup nap ndp e
      | inr sz =>
          '(nap, addr) ← Mmap_address nap flags usraddr (alloc_rounded_length sz);
          match addr with
          | inl e => Mmap_cleanup nap ndp e
          | inr usraddr =>
              if negb (Mmap_range_ok nap usraddr (alloc_rounded_length sz)) then
                Mmap_cleanup nap ndp (neg_errno NACL_ABI_EINVAL)
              else
                '(nap, map_result) ← Mmap_map nap ndp usraddr sz prot flags offset;
                Mmap_cleanup nap ndp map_result
          end
      end
  end.

(** [rd_off a] is the 64-bit offset the user program has stored at the system
    address [a]. *)
Definition NaClSysMmap (rd_off : Z -> Z) (nap : NaClApp) (start length prot flags d offp : Z)
  : M (NaClApp * Z) :=
  if 0 =? offp then mret (nap, - NACL_ABI_EINVAL)
  else
    let sysaddr := NaClUserToSysAddrRange nap offp 8 in
    if kNaClBadAddress =? sysaddr then mret (nap, - NACL_ABI_EFAULT)
    else NaClCommonSysMmapIntern nap start length prot flags d (rd_off sysaddr).

(** ** munmap *)

Definition NaClSysMunmap (nap : NaClApp) (start length : Z) : M (NaClApp * Z) :=
  if negb (NaClIsAllocPageMultiple start) then mret (nap, - NACL_ABI_EINVAL)
  else if 0 =? length then mret (nap, - NACL_ABI_EINVAL)
  else
    let length := NaClRoundAllocPage length in
    let sysaddr := NaClUserToSysAddrRange nap start length in
    if kNaClBadAddress =? sysaddr then mret (nap, - NACL_ABI_EFAULT)
    else if AddrRangeContainsExecutablePages nap start then mret (nap, - NACL_ABI_EINVAL)
    else
      r ← (if whole_chunk nap then mret 0
           else sys_mmap sysaddr length PROT_NONE
                  (Z.lor (Z.lor MAP_PRIVATE MAP_ANONYMOUS) MAP_FIXED) None 0);
      if MAP_FAILED =? r then mret (nap, - NaClXlateErrno host_errno)
      else
        usraddr ← NaClSysToUser nap sysaddr;
        mm ← NaClVmmapUpdate (mem_map nap) (Z.shiftr usraddr NACL_PAGESHIFT)
               (Z.shiftr length NACL_PAGESHIFT) 0 None true;
        mret (nap <| mem_map := mm |>, 0).

End Handlers.
