(* ===== verification/MemorySafe.v ===== *)
(** * Isolation and correctness of the memory system calls

    The invariant of a loaded application, and what sysbrk, mmap and munmap do
    to it: every host memory call stays in the sandbox above the code and
    never asks for executable pages, the mapping of the code region does not
    change, and the page function changes as the calls promise. *)

From S2P Require Import Prelude Effects Rounding MemObj Vmmap VmmapSpec VmmapCompact VmmapUpdate.
From S2P Require Import VmmapFind DynArray Policy App HostDesc Memory.

(** ** The map operations make no host memory call *)

Section MapEvents.
Context `{Host} (P : event -> Prop).
Hypothesis Pref : forall d, P (DescRef d).
Hypothesis Punref : forall d, P (DescUnref d).

Ltac ev := repeat first
  [ progress cbv beta zeta | progress intros | solve [eauto 2 with vm] | case_match
  | match goal with |- all_events _ (_ ≫= _) => apply all_events_bind end | progress subst ].

Lemma EntryFree_events e : all_events P (NaClVmmapEntryFree e).
Proof using Punref.
  unfold NaClVmmapEntryFree, NaClMemObjSafeDtor, NaClMemObjDtor. case_match; eauto with vm.
Qed.

Lemma trim_events last : forall arr, all_events P (RemoveMarked_trim arr last).
Proof using Punref.
  induction last as [|last IH]; intros arr; simpl; ev; auto using EntryFree_events.
Qed.

Lemma back_events last : forall arr i, all_events P (RemoveMarked_back arr i last).
Proof using Punref.
  induction last as [|last IH]; intros arr i; simpl; ev; auto using EntryFree_events.
Qed.

Lemma front_events fuel : forall arr i last, all_events P (RemoveMarked_front fuel arr i last).
Proof using Punref.
  induction fuel as [|fuel IH]; intros arr i last; simpl; ev; auto using EntryFree_events, back_events.
Qed.

Lemma RemoveMarked_events self : all_events P (NaClVmmapRemoveMarked self).
Proof using Punref. unfold NaClVmmapRemoveMarked. ev; auto using trim_events, front_events. Qed.

Lemma deref_all_events {A} (l : list (option A)) : all_events P (deref_all l).
Proof using. induction l as [|[x|] l IH]; simpl; ev; auto. Qed.

Lemma MakeSorted_events self : all_events P (NaClVmmapMakeSorted self).
Proof using Punref. unfold NaClVmmapMakeSorted. ev; auto using RemoveMarked_events, deref_all_events. Qed.

Lemma Add_events self a b c d : all_events P (NaClVmmapAdd self a b c d).
Proof using. unfold NaClVmmapAdd. ev. Qed.

Lemma Split_events o a : all_events P (NaClMemObjSplit o a).
Proof using Pref. unfold NaClMemObjSplit, NaClMemObjCopyCtorOff. ev. Qed.

Lemma Update_loop_events n : forall i self a b, all_events P (NaClVmmapUpdate_loop n i self a b).
Proof using Pref.
  induction n as [|n IH]; intros i self a b; simpl; ev; auto using Split_events, Add_events.
Qed.

Lemma Update_events self a b c d e : all_events P (NaClVmmapUpdate self a b c d e).
Proof using Pref Punref.
  unfold NaClVmmapUpdate. ev; auto using MakeSorted_events, Update_loop_events, Add_events, RemoveMarked_events.
Qed.

Lemma bsearch_events {A} (probe : A -> Z) arr n : all_events P (bsearch probe arr n).
Proof using.
  assert (Hl : forall fuel l u, all_events P (bsearch_loop fuel probe arr l u)); [|apply Hl].
  induction fuel as [|fuel IH]; intros l u; simpl; ev; auto.
Qed.

Lemma FindPageIter_events self p : all_events P (NaClVmmapFindPageIter self p).
Proof using Punref. unfold NaClVmmapFindPageIter. ev; auto using MakeSorted_events, bsearch_events. Qed.

Lemma FindMapSpace_events self n : all_events P (NaClVmmapFindMapSpace self n).
Proof using Punref.
  assert (Hl : forall i arr n, all_events P (NaClVmmapFindMapSpace_loop arr i n)).
  { induction i as [|i IH]; intros arr k; simpl; ev; auto. }
  unfold NaClVmmapFindMapSpace. ev; auto using MakeSorted_events.
Qed.

Lemma FindMapSpaceAboveHint_events self u n : all_events P (NaClVmmapFindMapSpaceAboveHint self u n).
Proof using Punref.
  assert (Hl : forall k arr i u n, all_events P (NaClVmmapFindMapSpaceAboveHint_loop arr k i u n)).
  { induction k as [|k IH]; intros; simpl; ev; auto. }
  unfold NaClVmmapFindMapSpaceAboveHint. ev; auto using MakeSorted_events.
Qed.

Lemma MemObjMake_events d n o : all_events P (NaClMemObjMake d n o).
Proof using Pref. unfold NaClMemObjMake, NaClMemObjCtor. ev. Qed.

Lemma UserToSys_events nap u : all_events P (NaClUserToSys nap u).
Proof using. unfold NaClUserToSys. ev. Qed.

Lemma SysToUser_events nap u : all_events P (NaClSysToUser nap u).
Proof using. unfold NaClSysToUser. ev. Qed.

Lemma UpdateAddrMap_events nap a n p d b o del :
  all_events P (NaClCommonUtilUpdateAddrMap nap a n p d b o del).
Proof using Pref Punref.
  unfold NaClCommonUtilUpdateAddrMap. ev; auto using SysToUser_events, MemObjMake_events, Update_events.
Qed.

Lemma GetDesc_events nap d : all_events P (NaClGetDesc nap d).
Proof using Pref.
  unfold NaClGetDesc, NaClGetDescMu, DynArrayGet. ev.
Qed.
End MapEvents.

(** ** The invariant of a loaded application *)

Definition PAGE_COUNT : Z := 1048576.   (* 2^32 / 4096 *)
Definition text_pages (nap : NaClApp) : Z := dynamic_text_end nap / 4096.

(** Every mapped page lies in the address space, no page above the code region
    is executable, and some page of the code region is mapped. *)
Record pages_ok (nap : NaClApp) (f : Z -> option page_info) : Prop := {
  pg_range : forall p i, f p = Some i -> 0 <= p < PAGE_COUNT;
  pg_noexec : forall p i, f p = Some i -> text_pages nap <= p -> Z.land (pg_prot i) PROT_EXEC = 0;
  pg_anchor : exists p, p < text_pages nap /\ is_Some (f p);
}.

Record app_inv (nap : NaClApp) (es : list NaClVmmapEntry) : Prop := {
  ai_placed : placed nap;
  ai_map : vm_inv (mem_map nap) es;
  ai_pages : pages_ok nap (lookup_page es);
  ai_text : alloc_aligned (dynamic_text_end nap) /\ 0 < dynamic_text_end nap;
  ai_data : dynamic_text_end nap < data_end nap /\ data_end nap <= break_addr nap < two32;
  ai_desc : da_inv (desc_tbl nap);
}.

Lemma pages_ok_ext nap f g : same_pages f g -> pages_ok nap f -> pages_ok nap g.
Proof.
  intros Hfg [H1 H2 (p & Hp & Hs)]. split.
  - intros q i. rewrite <- Hfg. apply H1.
  - intros q i. rewrite <- Hfg. apply H2.
  - exists p. by rewrite <- Hfg.
Qed.

Lemma queried_same self es self' es' l :
  separated es -> queried self es self' es' l -> same_pages (lookup_page es) (lookup_page es').
Proof. intros Hs (_ & Hp & _) p. by apply lookup_page_perm; [|symmetry]. Qed.

(** The invariant depends on the map only through its pages. *)
Lemma app_inv_map nap es mm es' :
  app_inv nap es -> vm_inv mm es' -> pages_ok nap (lookup_page es') ->
  app_inv (nap <| mem_map := mm |>) es'.
Proof. intros [Hpl ? ? ? ? ?] Hm Hp. split; try done; [by destruct Hpl; split|by destruct Hp; split]. Qed.

Lemma app_inv_queried nap es mm es' l :
  app_inv nap es -> queried (mem_map nap) es mm es' l -> app_inv (nap <| mem_map := mm |>) es'.
Proof.
  intros Hinv Hq. pose proof (queried_same _ _ _ _ _ (vm_sep _ _ (ai_map _ _ Hinv)) Hq) as Hs.
  destruct Hq as (Hv & _). eapply app_inv_map; [done|done|].
  eapply pages_ok_ext; [done|]. apply (ai_pages _ _ Hinv).
Qed.

Lemma app_inv_nonempty nap es : app_inv nap es -> es <> [].
Proof. intros Hinv ->. destruct (pg_anchor _ _ (ai_pages _ _ Hinv)) as (p & _ & [? [=]]). Qed.

(** A page function that agrees with [f] on the code region. *)
Definition keeps_text (nap : NaClApp) (f g : Z -> option page_info) : Prop :=
  forall p, p < text_pages nap -> g p = f p.

Lemma text_pages_spec nap u :
  alloc_aligned (dynamic_text_end nap) -> page_aligned u -> dynamic_text_end nap <= u ->
  text_pages nap <= u / 4096.
Proof. intros _ _ Hle. unfold text_pages. apply Z.div_le_mono; lia. Qed.

Section Update.
Context `{Host}.

(** What an update above the code region does to an application, when it
    returns. *)
Lemma app_update nap es pn np pr mo remove l mm :
  app_inv nap es -> text_pages nap <= pn -> 0 < np -> pn + np <= PAGE_COUNT ->
  Z.land pr PROT_EXEC = 0 -> NaClVmmapUpdate (mem_map nap) pn np pr mo remove = (l, Ret mm) ->
  exists es', app_inv (nap <| mem_map := mm |>) es' /\
    same_pages (lookup_page es')
      (override (lookup_page es) pn (pn + np) (lookup_page (new_entries pn np pr mo remove))) /\
    forall d, net d l + refs d es + refs d (new_entries pn np pr mo remove) = refs d es'.
Proof.
  intros Hinv Hlo Hnp Hhi Hpr Heq. pose proof Hinv as [Hpl Hm Hpg [Hal Htx] Hda Hd].
  destruct (pg_anchor _ _ Hpg) as (a & Ha & Hsa).
  assert (0 <= text_pages nap) by (apply Z.div_pos; lia).
  destruct (Update_returns (mem_map nap) es pn np pr mo remove l mm) as (es' & Hm' & Hsame & Hnet);
    [done|lia|done|unfold PAGE_LIMIT, PAGE_COUNT in *; zlia|done|].
  exists es'. split_and!; try done. eapply app_inv_map; [done|done|].
  eapply pages_ok_ext; [intros p; symmetry; apply Hsame|]. destruct Hpg as [H1 H2 _].
  assert (Hnew : forall p i, lookup_page (new_entries pn np pr mo remove) p = Some i ->
    0 <= p < PAGE_COUNT /\ Z.land (pg_prot i) PROT_EXEC = 0).
  { intros p i Hi. destruct remove; [done|]. simpl in Hi. case_decide as Hc; [|done].
    simplify_eq. destruct Hc as [_ Hc]. unfold new_entry in Hc. split; [regions|done]. }
  split.
  - intros p i Hi. unfold override in Hi. case_decide; [by destruct (Hnew p i Hi)|by apply (H1 p i)].
  - intros p i Hi Hp. unfold override in Hi. case_decide; [by destruct (Hnew p i Hi)|by apply (H2 p i)].
  - exists a. split; [done|]. unfold override. by rewrite decide_False by lia.
Qed.

(** It returns when the allocator does not fail. *)
Lemma app_update_total nap es pn np pr mo remove :
  (forall n, malloc_ok n = true) -> app_inv nap es -> text_pages nap <= pn -> 0 < np ->
  pn + np <= PAGE_COUNT ->
  exists l mm, NaClVmmapUpdate (mem_map nap) pn np pr mo remove = (l, Ret mm).
Proof.
  intros Hmalloc Hinv Hlo Hnp Hhi. pose proof Hinv as [Hpl Hm Hpg [Hal Htx] Hda Hd].
  destruct (pg_anchor _ _ Hpg) as (a & Ha & Hsa).
  assert (0 <= text_pages nap) by (apply Z.div_pos; lia).
  destruct (Update_spec (mem_map nap) es pn np pr mo remove) as (l & mm & es' & Heq & _);
    [done|done|lia|done|unfold PAGE_LIMIT, PAGE_COUNT in *; zlia| |by exists l, mm].
  right; right. exists a. split; [lia|done].
Qed.

End Update.

(** ** Maps listed in ascending order *)

Definition entry_ok (e : NaClVmmapEntry) : bool :=
  (0 <=? page_num e) && (0 <? npages e) && (page_num e + npages e <=? PAGE_COUNT) && negb (removed e).

Fixpoint ascending (lo : Z) (es : list NaClVmmapEntry) : bool :=
  match es with
  | [] => true
  | e :: es' => (lo <=? page_num e) && ascending (end_page e) es'
  end.

Lemma entry_ok_spec e : entry_ok e = true -> wf_entry e /\ live e /\ end_page e <= PAGE_COUNT.
Proof.
  unfold entry_ok. intros Hok. zbool. unfold live, end_page. split_and!; [|done|done].
  split; unfold end_page, PAGE_LIMIT, PAGE_COUNT in *; zlia.
Qed.

Lemma ascending_spec es : forall lo,
  forallb entry_ok es = true -> ascending lo es = true ->
  StronglySorted before es /\ Forall (fun e => lo <= page_num e) es.
Proof.
  induction es as [|e es IH]; intros lo Hok Hasc; simpl in *; [split; constructor|]. zbool.
  destruct (IH (end_page e)) as [Hs Hf]; [done..|].
  destruct (entry_ok_spec e) as ([] & _ & _); [done|]. split; constructor; try done.
  eapply Forall_impl; [exact Hf|]. unfold end_page in *. simpl. lia.
Qed.

Lemma sorted_separated es : StronglySorted before es -> separated es.
Proof.
  induction 1 as [|e es _ IH Hf]; [constructor|]. constructor; [|done].
  eapply Forall_impl; [exact Hf|]. intros x Hx. by left.
Qed.

(** An unsorted map with such a list satisfies the invariant. *)
Lemma ascending_vm_inv mm es lo :
  repr mm es -> forallb entry_ok es = true -> ascending lo es = true -> vm_inv mm es.
Proof.
  intros Hr Hok Hasc. destruct (ascending_spec es lo Hok Hasc) as [Hs _].
  assert (Hall : Forall (fun e => wf_entry e /\ live e /\ end_page e <= PAGE_COUNT) es).
  { apply Forall_forall. intros e He. rewrite forallb_forall in Hok. by apply entry_ok_spec, Hok, list_elem_of_In. }
  split; try done.
  - eapply Forall_impl; [exact Hall|]. naive_solver.
  - eapply Forall_impl; [exact Hall|]. naive_solver.
  - by apply sorted_separated.
Qed.

(** The mapped pages of such a list. *)
Lemma lookup_page_entry es p i :
  lookup_page es p = Some i -> exists e, e ∈ es /\ covers e p /\ i = info e p.
Proof.
  induction es as [|e es IH]; simpl; [done|]. case_decide as Hd.
  - intros [= <-]. exists e. split_and!; [by left|apply Hd|done].
  - intros Hi. destruct (IH Hi) as (x & ? & ? & ?). exists x. split_and!; [by right|done|done].
Qed.
