(* ===== verification/AddrSpace.v ===== *)
(** * The address space: sel_addrspace.c and its x86-64 parts

    Reserving 4 GB with a 40 GB guard on each side, releasing the hole between
    data and stack, and the final protections with the first contents of the
    memory map. *)

From S2P Require Import Prelude Effects Rounding MemObj Vmmap VmmapSpec VmmapCompact VmmapUpdate.
From S2P Require Import DynArray Policy App HostDesc Elf Memory MemorySafe.

Definition FOURGIG : Z := Z.shiftl 1 32.
Definition GUARDSIZE : Z := 10 * FOURGIG.
Definition ALIGN_BITS : Z := 32.
Definition MADV_DONTNEED : Z := 4.

Section AddressSpace.
Context `{Host}.

(** ** linux/sel_memory.c *)

Definition NaCl_madvise (start length advice : Z) : M Z :=
  _ ← emit (HostMadvise start length advice);
  mret (host_madvise start length advice).

Definition sys_munmap (addr len : Z) : M Z :=
  _ ← emit (HostMunmap addr len);
  mret (host_munmap addr len).

Definition NaCl_page_free (p size : Z) : M unit :=
  if (p =? 0) || (size =? 0) then mret tt
  else
    r ← sys_munmap p size;
    if negb (r =? 0) then fail (LogFatal "NaCl_page_free: munmap() failed") else mret tt.

(** ** sel_addrspace_posix_x86_64.c; [None] is NULL *)

Definition NaClAllocatePow2AlignedMemory (mem_sz log_alignment : Z) : M (option Z) :=
  let pow2align := u64 (Z.shiftl 1 log_alignment) in
  let request_sz := u64 (mem_sz + pow2align) in
  orig_addr ← sys_mmap 0 request_sz PROT_NONE (Z.lor (Z.lor MAP_ANONYMOUS MAP_NORESERVE) MAP_PRIVATE) None 0;
  if MAP_FAILED =? orig_addr then mret None
  else
    let rounded_addr := Z.land (u64 (orig_addr + (pow2align - 1))) (not64 (pow2align - 1)) in
    let extra := u64 (rounded_addr - orig_addr) in
    _ ← (if negb (0 =? extra) then
           r ← sys_munmap orig_addr extra;
           if -1 =? r then fail (LogFatal "NaClAllocatePow2AlignedMemory: munmap front failed") else mret tt
         else mret tt);
    let extra := u64 (pow2align - extra) in
    _ ← (if negb (0 =? extra) then
           r ← sys_munmap (u64 (rounded_addr + mem_sz)) extra;
           if -1 =? r then fail (LogFatal "NaClAllocatePow2AlignedMemory: munmap tail failed") else mret tt
         else mret tt);
    mret (Some rounded_addr).

Definition NaClAllocateSpace (addrsp_size : Z) : M (NaClErrorCode + Z) :=
  let mem_sz := 2 * GUARDSIZE + FOURGIG in
  _ ← check (addrsp_size =? FOURGIG) "addrsp_size == FOURGIG";
  mem_ptr ← NaClAllocatePow2AlignedMemory mem_sz ALIGN_BITS;
  match mem_ptr with
  | None => mret (inl LOAD_NO_MEMORY)
  | Some p => mret (inr (u64 (p + GUARDSIZE)))
  end.

(** ** sel_addrspace.c *)

(** The address and size of the hole between the data and the stack. *)
Definition AllocAddrSpace_hole (nap : NaClApp) : M (NaClErrorCode + Z * Z) :=
  let hole_start := NaClRoundAllocPage (data_end nap) in
  if addr_limit nap <=? stack_size nap then fail (LogFatal "NaClAllocAddrSpace: stack too large!")
  else
    let stack_start := NaClTruncAllocPage (u64 (addr_limit nap - stack_size nap)) in
    if stack_start <? hole_start then mret (inl LOAD_DATA_OVERLAPS_STACK_SECTION)
    else mret (inr (hole_start, NaClTruncAllocPage (u64 (stack_start - hole_start)))).

Definition NaClAllocAddrSpace (nap : NaClApp) : M (NaClApp * NaClErrorCode) :=
  mem ← NaClAllocateSpace (addr_limit nap);
  match mem with
  | inl e => mret (nap, e)
  | inr mem =>
      let nap := nap <| mem_start := mem |> in
      hole ← AllocAddrSpace_hole nap;
      match hole with
      | inl e => mret (nap, e)
      | inr (hole_start, hole_size) =>
          if hole_size =? 0 then mret (nap, LOAD_OK)
          else
            r ← NaCl_madvise (u64 (mem_start nap + hole_start)) hole_size MADV_DONTNEED;
            if negb (0 =? r) then mret (nap, LOAD_MADVISE_FAIL)
            else
              r ← NaCl_mprotect (u64 (mem_start nap + hole_start)) hole_size PROT_NONE;
              if negb (0 =? r) then mret (nap, LOAD_MPROTECT_FAIL) else mret (nap, LOAD_OK)
      end
  end.

(** The two statements repeated for each region: mprotect the host pages, then
    record them.  [true] when both succeed; otherwise the caller returns
    LOAD_MPROTECT_FAIL. *)
Definition add_region (nap : NaClApp) (page npages prot : Z) (nmop : option NaClMemObj) : M (NaClApp * bool) :=
  '(ok, mm) ← NaClVmmapAdd (mem_map nap) page npages prot nmop;
  mret (nap <| mem_map := mm |>, ok).

Definition protect_region (nap : NaClApp) (start_addr mprotect_size prot npages : Z) : M (NaClApp * bool) :=
  err ← NaCl_mprotect start_addr mprotect_size prot;
  if negb (0 =? err) then mret (nap, false)
  else
    usr ← NaClSysToUser nap start_addr;
    add_region nap (Z.shiftr usr NACL_PAGESHIFT) npages prot None.

(** sel_addrspace_x86_64.c *)
Definition NaClMprotectGuards (nap : NaClApp) : M (NaClApp * NaClErrorCode) :=
  let start_addr := mem_start nap in
  err ← NaCl_mprotect start_addr NACL_SYSCALL_START_ADDR PROT_NONE;
  if negb (err =? 0) then mret (nap, LOAD_MPROTECT_FAIL)
  else
   '(nap, ok) ← add_region nap (Z.shiftr (u64 (start_addr - mem_start nap)) NACL_PAGESHIFT)
                  (Z.shiftr NACL_SYSCALL_START_ADDR NACL_PAGESHIFT) PROT_NONE None;
   if negb ok then mret (nap, LOAD_MPROTECT_FAIL)
   else
    err ← NaCl_mprotect (u64 (start_addr - GUARDSIZE)) GUARDSIZE PROT_NONE;
    if negb (err =? 0) then mret (nap, LOAD_MPROTECT_FAIL)
    else
      err ← NaCl_mprotect (u64 (start_addr + FOURGIG)) GUARDSIZE PROT_NONE;
      if negb (err =? 0) then mret (nap, LOAD_MPROTECT_FAIL) else mret (nap, LOAD_OK).

(** Trampolines and static text. *)
Definition Protect_text (nap : NaClApp) : M (NaClApp * bool) :=
  let start_addr := u64 (mem_start nap + NACL_SYSCALL_START_ADDR) in
  let region_size := NaClRoundPage (u64 (static_text_end nap - NACL_SYSCALL_START_ADDR)) in
  protect_region nap start_addr region_size (Z.lor PROT_READ PROT_EXEC) (Z.shiftr region_size NACL_PAGESHIFT).

(** Dynamic text: recorded only, its protection is set by nacl_text.c. *)
Definition Protect_dynamic (nap : NaClApp) : M (NaClApp * bool) :=
  start_addr ← NaClUserToSys nap (dynamic_text_start nap);
  let region_size := u64 (dynamic_text_end nap - dynamic_text_start nap) in
  if negb (0 =? region_size) then
    usr ← NaClSysToUser nap start_addr;
    nmop ← NaClMemObjMake (text_shm nap) region_size 0;
    add_region nap (Z.shiftr usr NACL_PAGESHIFT) (Z.shiftr region_size NACL_PAGESHIFT)
      (Z.lor PROT_READ PROT_EXEC) nmop
  else mret (nap, true).

Definition Protect_rodata (nap : NaClApp) : M (NaClApp * bool) :=
  if negb (0 =? rodata_start nap) then
    let rodata_end := if negb (0 =? data_start nap) then data_start nap else break_addr nap in
    start_addr ← NaClUserToSys nap (rodata_start nap);
    usr ← NaClSysToUser nap start_addr;
    let region_size := NaClRoundPage (u64 (NaClRoundAllocPage rodata_end - usr)) in
    protect_region nap start_addr region_size PROT_READ (Z.shiftr region_size NACL_PAGESHIFT)
  else mret (nap, true).

Definition Protect_data (nap : NaClApp) : M (NaClApp * bool) :=
  if negb (0 =? data_start nap) then
    start_addr ← NaClUserToSys nap (data_start nap);
    usr ← NaClSysToUser nap start_addr;
    let region_size := NaClRoundPage (u64 (NaClRoundAllocPage (data_end nap) - usr)) in
    protect_region nap start_addr region_size (Z.lor PROT_READ PROT_WRITE) (Z.shiftr region_size NACL_PAGESHIFT)
  else mret (nap, true).

Definition Protect_stack (nap : NaClApp) : M (NaClApp * bool) :=
  start_addr ← NaClUserToSys nap (NaClTruncAllocPage (u64 (addr_limit nap - stack_size nap)));
  protect_region nap start_addr (NaClRoundAllocPage (stack_size nap)) (Z.lor PROT_READ PROT_WRITE)
    (Z.shiftr (stack_size nap) NACL_PAGESHIFT).

(** The regions in the order of the code; the first failure ends it. *)
Fixpoint protect_all (steps : list (NaClApp -> M (NaClApp * bool))) (nap : NaClApp) : M (NaClApp * NaClErrorCode) :=
  match steps with
  | [] => mret (nap, LOAD_OK)
  | step :: steps' =>
      '(nap, ok) ← step nap;
      if (ok : bool) then protect_all steps' nap else mret (nap, LOAD_MPROTECT_FAIL)
  end.

Definition NaClMemoryProtection (nap : NaClApp) : M (NaClApp * NaClErrorCode) :=
  '(nap, err) ← NaClMprotectGuards nap;
  if negb (bool_decide (err = LOAD_OK)) then mret (nap, err)
  else protect_all [Protect_text; Protect_dynamic; Protect_rodata; Protect_data; Protect_stack] nap.

End AddressSpace.

(** ** The reserved space *)

Section Reserve.
Context `{Host}.

(** The kernel's answer to the reservation is a user address, when it grants
    it. *)
Definition reservation : Z :=
  host_mmap 0 (2 * GUARDSIZE + FOURGIG + FOURGIG) PROT_NONE (Z.lor (Z.lor MAP_ANONYMOUS MAP_NORESERVE) MAP_PRIVATE) None 0.
Definition user_reservation : Prop :=
  reservation <> MAP_FAILED -> 0 < reservation /\ reservation + (2 * GUARDSIZE + FOURGIG + FOURGIG) < two63.

Lemma AllocatePow2_inv l r :
  NaClAllocatePow2AlignedMemory (2 * GUARDSIZE + FOURGIG) ALIGN_BITS = (l, Ret (Some r)) ->
  reservation <> MAP_FAILED /\ r = Z.land (u64 (reservation + (FOURGIG - 1))) (not64 (FOURGIG - 1)).
Proof.
  unfold NaClAllocatePow2AlignedMemory. change (u64 (Z.shiftl 1 ALIGN_BITS)) with FOURGIG.
  change (u64 (2 * GUARDSIZE + FOURGIG + FOURGIG)) with (2 * GUARDSIZE + FOURGIG + FOURGIG). cbv zeta. intros Hrun.
  apply M_bind_ret_inv in Hrun as (l1 & a & l2 & Hmap & Hrun & ->).
  unfold sys_mmap in Hmap. fold reservation in Hmap.
  apply M_bind_ret_inv in Hmap as (? & ? & ? & _ & [_ <-]%M_ret_inv & _).
  destruct (MAP_FAILED =? reservation) eqn:Hf; [by apply M_ret_inv in Hrun as [_ ?]|]. zbool.
  apply M_bind_ret_inv in Hrun as (? & ? & ? & _ & Hrun & _).
  apply M_bind_ret_inv in Hrun as (? & ? & ? & _ & Hrun & _).
  apply M_ret_inv in Hrun as [_ [= <-]]. split; [lia|done].
Qed.

Lemma AllocateSpace_error size l e : NaClAllocateSpace size = (l, Ret (inl e)) -> e = LOAD_NO_MEMORY.
Proof.
  unfold NaClAllocateSpace. intros Hrun. apply M_bind_ret_inv in Hrun as (? & ? & ? & _ & Hrun & _).
  apply M_bind_ret_inv in Hrun as (? & [r|] & ? & _ & Hrun & _); by apply M_ret_inv in Hrun as [_ [= <-]].
Qed.

(** NaClAllocateSpace places the program on a 4 GB boundary with the guards
    inside the region the kernel granted. *)
Lemma AllocateSpace_spec l m :
  user_reservation -> NaClAllocateSpace FOURGIG = (l, Ret (inr m)) ->
  m mod two32 = 0 /\ 0 < reservation /\ reservation + GUARDSIZE <= m /\
  m + FOURGIG + GUARDSIZE <= reservation + (2 * GUARDSIZE + FOURGIG + FOURGIG) < two63.
Proof.
  intros Hres Hrun. unfold NaClAllocateSpace in Hrun.
  apply M_bind_ret_inv in Hrun as (? & ? & ? & _ & Hrun & _).
  apply M_bind_ret_inv in Hrun as (? & [r|] & ? & Halloc & Hrun & _); [|by apply M_ret_inv in Hrun as [_ ?]].
  apply AllocatePow2_inv in Halloc as [Hf ->]. apply M_ret_inv in Hrun as [_ [= <-]].
  destruct (Hres Hf) as [Ha He]. set (a := reservation) in *. clearbody a.
  set (R := Z.land _ _). change GUARDSIZE with (10 * two32) in *. change FOURGIG with two32 in *.
  assert (HR : R = (a + two32 - 1) - (a + two32 - 1) mod two32).
  { unfold R. rewrite u64_small by zlia. change two32 with (2 ^ 32).
    rewrite land_not64_mask by (unfold_words; lia). change (2 ^ 32) with two32.
    by replace (a + (two32 - 1)) with (a + two32 - 1) by lia. }
  assert (Hb : R mod two32 = 0 /\ a <= R < a + two32) by (rewrite HR; unfold_words; Z.div_mod_to_equations; lia).
  destruct Hb as [HRm HRb]. clearbody R. rewrite u64_small by zlia.
  split; [by rewrite Z.mod_add|]. lia.
Qed.
End Reserve.

(** ** The regions of a program *)

(** Addresses of a program ready for its final protections. *)
Record layout_ok (nap : NaClApp) : Prop := {
  lo_placed : placed nap;
  lo_text : alloc_aligned (static_text_end nap) /\ NACL_TRAMPOLINE_END <= static_text_end nap;
  lo_dyn : alloc_aligned (dynamic_text_start nap) /\ alloc_aligned (dynamic_text_end nap) /\
           static_text_end nap <= dynamic_text_start nap <= dynamic_text_end nap;
  lo_rodata : rodata_start nap = 0 \/
    alloc_aligned (rodata_start nap) /\ dynamic_text_end nap <= rodata_start nap < break_addr nap;
  lo_data : data_start nap = 0 \/
    alloc_aligned (data_start nap) /\ dynamic_text_end nap <= data_start nap < data_end nap /\
    (rodata_start nap <> 0 -> rodata_start nap < data_start nap);
  lo_break : break_addr nap = data_end nap /\ dynamic_text_end nap < data_end nap < two32;
  lo_stack : alloc_aligned (stack_size nap) /\ 0 < stack_size nap < two32 /\
             NaClRoundAllocPage (data_end nap) <= two32 - stack_size nap;
}.

Definition region (start stop prot : Z) (nmop : option NaClMemObj) : NaClVmmapEntry :=
  mkVmmapEntry (start / 4096) ((stop - start) / 4096) prot nmop false.

Definition null_entries : list NaClVmmapEntry := [region 0 65536 PROT_NONE None].
Definition text_entries (nap : NaClApp) : list NaClVmmapEntry :=
  [region 65536 (static_text_end nap) (Z.lor PROT_READ PROT_EXEC) None].
Definition dynamic_entries (nap : NaClApp) : list NaClVmmapEntry :=
  if decide (dynamic_text_start nap = dynamic_text_end nap) then []
  else [region (dynamic_text_start nap) (dynamic_text_end nap) (Z.lor PROT_READ PROT_EXEC)
          ((fun d => mkMemObj d (dynamic_text_end nap - dynamic_text_start nap) 0) <$> text_shm nap)].
Definition rodata_stop (nap : NaClApp) : Z :=
  NaClRoundAllocPage (if decide (data_start nap = 0) then break_addr nap else data_start nap).
Definition rodata_entries (nap : NaClApp) : list NaClVmmapEntry :=
  if decide (rodata_start nap = 0) then [] else [region (rodata_start nap) (rodata_stop nap) PROT_READ None].
Definition data_entries (nap : NaClApp) : list NaClVmmapEntry :=
  if decide (data_start nap = 0) then []
  else [region (data_start nap) (NaClRoundAllocPage (data_end nap)) (Z.lor PROT_READ PROT_WRITE) None].
Definition stack_entries (nap : NaClApp) : list NaClVmmapEntry :=
  [region (two32 - stack_size nap) two32 (Z.lor PROT_READ PROT_WRITE) None].

(** The contents of the memory map of a freshly loaded program. *)
Definition image_entries (nap : NaClApp) : list NaClVmmapEntry :=
  null_entries ++ text_entries nap ++ dynamic_entries nap ++ rodata_entries nap ++ data_entries nap ++
  stack_entries nap.

Section Protection.
Context `{Host}.
Hypothesis Hmalloc : forall n, malloc_ok n = true.
Hypothesis Hprot : forall a n p, host_mprotect a n p = 0.

Lemma add_region_spec nap es page np prot nmop :
  repr (mem_map nap) es ->
  exists mm, add_region nap page np prot nmop = mret (nap <| mem_map := mm |>, true) /\
    repr mm (es ++ [mkVmmapEntry page np prot nmop false]).
Proof using Hmalloc.
  intros Hr. unfold add_region. destruct (Add_spec (mem_map nap) es page np prot nmop Hmalloc Hr)
    as (mm & -> & Hr' & _). exists mm. by split.
Qed.

Lemma protect_region_spec nap es u stop size prot :
  placed nap -> repr (mem_map nap) es -> 0 <= u < two32 ->
  exists mm, protect_region nap (u + mem_start nap) size prot ((stop - u) / 4096) =
      ([HostMprotect (u + mem_start nap) size prot], Ret (nap <| mem_map := mm |>, true)) /\
    repr mm (es ++ [region u stop prot None]).
Proof using All.
  intros Hpl Hr Hu. unfold protect_region, NaCl_mprotect. rewrite Hprot. pose proof Hpl as [].
  destruct (add_region_spec nap es (u / 4096) ((stop - u) / 4096) prot None Hr) as (mm & Hadd & Hr').
  exists mm. split; [|done]. unfold emit. apply M_bind_pure. change (negb (0 =? 0)) with false. cbv iota.
  rewrite SysToUser_spec, decide_True by (done || lia). rewrite M_bind_ret_l.
  replace (u + mem_start nap - mem_start nap) with u by lia. by rewrite shiftr_page.
Qed.

(** A step that records the regions [add nap]. *)
Definition records (step : NaClApp -> M (NaClApp * bool)) (add : NaClApp -> list NaClVmmapEntry) : Prop :=
  forall nap es, layout_ok nap -> repr (mem_map nap) es ->
  exists l mm, step nap = (l, Ret (nap <| mem_map := mm |>, true)) /\ repr mm (es ++ add nap).

Lemma page_multiple x : alloc_aligned x -> 0 <= x -> x <= two32 -> NaClRoundPage x = x.
Proof using.
  intros Ha H0 H1. destruct (NaClRoundPage_spec x) as (Hp & Hb & _); [zlia|].
  unfold alloc_aligned, page_aligned in *. Z.div_mod_to_equations. lia.
Qed.

Lemma alloc_multiple x : alloc_aligned x -> 0 <= x -> x <= two32 -> NaClRoundAllocPage x = x.
Proof using. intros. apply NaClRoundAllocPage_aligned; [zlia|done]. Qed.

Lemma aligned_sub x y : alloc_aligned x -> alloc_aligned y -> alloc_aligned (x - y).
Proof using. unfold alloc_aligned. intros. Z.div_mod_to_equations. lia. Qed.

(** The addresses in order. *)
Lemma layout_order nap :
  layout_ok nap ->
  131072 <= static_text_end nap <= dynamic_text_start nap /\ dynamic_text_start nap <= dynamic_text_end nap /\
  dynamic_text_end nap < data_end nap /\ break_addr nap = data_end nap /\
  data_end nap <= NaClRoundAllocPage (data_end nap) <= two32 - stack_size nap /\
  alloc_aligned (NaClRoundAllocPage (data_end nap)) /\
  (rodata_start nap <> 0 -> rodata_stop nap <= NaClRoundAllocPage (data_end nap) /\
     rodata_start nap < rodata_stop nap /\ alloc_aligned (rodata_stop nap) /\
     (data_start nap <> 0 -> rodata_stop nap = data_start nap)).
Proof using.
  intros [_ [_ Ht] [_ [_ Hd]] Hr Hda [Hb Hbb] [_ [Hs0 Hs]]]. change NACL_TRAMPOLINE_END with 131072 in Ht.
  destruct (NaClRoundAllocPage_spec (data_end nap)) as (Ha & Hge & _); [zlia|].
  split_and!; try lia; try done. intros Hr0. destruct Hr as [|[Hra Hr]]; [done|]. unfold rodata_stop.
  rewrite Hb in *. case_decide as Hd0; [split_and!; lia || done|]. destruct Hda as [|(Hdal & Hdb & Hlt)]; [done|].
  rewrite alloc_multiple by (done || zlia). specialize (Hlt Hr0). split_and!; lia || done.
Qed.

Lemma Protect_text_spec : records Protect_text text_entries.
Proof using All.
  intros nap es Hlo Hr. pose proof (layout_order nap Hlo) as (Hst & Hd & Hde & _ & Hrd & _).
  pose proof Hlo as [Hpl [Hta _] _ _ _ _ [_ [Hs0 _]]]. pose proof Hpl as [].
  unfold Protect_text. change NACL_SYSCALL_START_ADDR with 65536.
  rewrite (u64_small (mem_start nap + 65536)), (u64_small (static_text_end nap - 65536)) by zlia.
  rewrite page_multiple by (try zlia; by apply aligned_sub). rewrite shiftr_page, (Z.add_comm (mem_start nap)).
  destruct (protect_region_spec nap es 65536 (static_text_end nap) (static_text_end nap - 65536)
    (Z.lor PROT_READ PROT_EXEC) Hpl Hr) as (mm & -> & Hr'); [zlia|]. eexists _, mm. by split.
Qed.

Lemma Protect_dynamic_spec : records Protect_dynamic dynamic_entries.
Proof using Hmalloc.
  intros nap es Hlo Hr. pose proof (layout_order nap Hlo) as (Hst & Hd & Hde & _ & Hrd & _).
  pose proof Hlo as [Hpl _ _ _ _ _ [_ [Hs0 _]]]. pose proof Hpl as [].
  unfold Protect_dynamic, dynamic_entries. rewrite UserToSys_spec, decide_True by (done || zlia).
  rewrite M_bind_ret_l, (u64_small (dynamic_text_end nap - _)) by zlia. case_decide as Heq.
  - replace (0 =? _) with true by (symmetry; apply Z.eqb_eq; lia). cbn [negb].
    exists [], (mem_map nap). rewrite app_nil_r. split; [|done]. by destruct nap.
  - replace (0 =? _) with false by (symmetry; apply Z.eqb_neq; lia). cbn [negb].
    rewrite SysToUser_spec, decide_True by (done || zlia). rewrite M_bind_ret_l.
    replace (dynamic_text_start nap + mem_start nap - mem_start nap) with (dynamic_text_start nap) by lia.
    set (mo := (fun d => mkMemObj d _ 0) <$> text_shm nap).
    assert (exists l, NaClMemObjMake (text_shm nap) (dynamic_text_end nap - dynamic_text_start nap) 0 = (l, Ret mo))
      as (l & ->).
    { unfold mo, NaClMemObjMake. destruct (text_shm nap); [rewrite Hmalloc|]; eexists; reflexivity. }
    destruct (add_region_spec nap es (dynamic_text_start nap / 4096)
      ((dynamic_text_end nap - dynamic_text_start nap) / 4096) (Z.lor PROT_READ PROT_EXEC) mo Hr) as (mm & Hadd & Hr').
    exists l, mm. split; [|done]. apply M_bind_pure. by rewrite !shiftr_page.
Qed.

Lemma Protect_rodata_spec : records Protect_rodata rodata_entries.
Proof using All.
  intros nap es Hlo Hr. pose proof (layout_order nap Hlo) as (Hst & Hd & Hde & Hbr & Hrd & Hal & Hro).
  pose proof Hlo as [Hpl _ _ Hr0 _ _ [_ [Hs0 _]]]. pose proof Hpl as [].
  unfold Protect_rodata, rodata_entries. case_decide as Hz.
  - rewrite Hz. cbn [negb]. exists [], (mem_map nap). rewrite app_nil_r. split; [|done]. by destruct nap.
  - destruct (Hro Hz) as (Hstop & Hlt & Hsa & _). destruct Hr0 as [|[Hra Hrb]]; [done|].
    replace (0 =? rodata_start nap) with false by (symmetry; apply Z.eqb_neq; lia). cbn [negb].
    rewrite UserToSys_spec, decide_True by (done || zlia). rewrite M_bind_ret_l.
    rewrite SysToUser_spec, decide_True by (done || zlia). rewrite M_bind_ret_l.
    replace (rodata_start nap + mem_start nap - mem_start nap) with (rodata_start nap) by lia.
    replace (if negb (0 =? data_start nap) then data_start nap else break_addr nap)
      with (if decide (data_start nap = 0) then break_addr nap else data_start nap).
    2: { rewrite Z.eqb_sym. case_decide as Hd0; [by rewrite Hd0|].
         by replace (data_start nap =? 0) with false by (symmetry; apply Z.eqb_neq; lia). }
    fold (rodata_stop nap). rewrite u64_small by zlia. rewrite page_multiple by (try zlia; by apply aligned_sub).
    rewrite shiftr_page.
    destruct (protect_region_spec nap es (rodata_start nap) (rodata_stop nap) (rodata_stop nap - rodata_start nap)
      PROT_READ Hpl Hr) as (mm & -> & Hr'); [zlia|]. eexists _, mm. by split.
Qed.

Lemma Protect_data_spec : records Protect_data data_entries.
Proof using All.
  intros nap es Hlo Hr. pose proof (layout_order nap Hlo) as (Hst & Hd & Hde & Hbr & Hrd & Hal & _).
  pose proof Hlo as [Hpl _ _ _ Hda _ [_ [Hs0 _]]]. pose proof Hpl as [].
  unfold Protect_data, data_entries. case_decide as Hz.
  - rewrite Hz. cbn [negb]. exists [], (mem_map nap). rewrite app_nil_r. split; [|done]. by destruct nap.
  - destruct Hda as [|(Hdal & Hdb & _)]; [done|].
    replace (0 =? data_start nap) with false by (symmetry; apply Z.eqb_neq; lia). cbn [negb].
    rewrite UserToSys_spec, decide_True by (done || zlia). rewrite M_bind_ret_l.
    rewrite SysToUser_spec, decide_True by (done || zlia). rewrite M_bind_ret_l.
    replace (data_start nap + mem_start nap - mem_start nap) with (data_start nap) by lia.
    rewrite u64_small by zlia. rewrite page_multiple by (try zlia; by apply aligned_sub). rewrite shiftr_page.
    destruct (protect_region_spec nap es (data_start nap) (NaClRoundAllocPage (data_end nap))
      (NaClRoundAllocPage (data_end nap) - data_start nap)
      (Z.lor PROT_READ PROT_WRITE) Hpl Hr) as (mm & -> & Hr'); [zlia|]. eexists _, mm. by split.
Qed.

Lemma Protect_stack_spec : records Protect_stack stack_entries.
Proof using All.
  intros nap es Hlo Hr. pose proof Hlo as [Hpl _ _ _ _ _ [Hsa [Hs0 _]]]. pose proof Hpl as [].
  unfold Protect_stack. rewrite addr_limit_val by done.
  rewrite (u64_small (two32 - _)) by zlia.
  rewrite NaClTruncAllocPage_aligned by (try zlia; by apply aligned_sub).
  rewrite UserToSys_spec, decide_True by (done || zlia). rewrite M_bind_ret_l, shiftr_page.
  destruct (protect_region_spec nap es (two32 - stack_size nap) two32 (NaClRoundAllocPage (stack_size nap))
    (Z.lor PROT_READ PROT_WRITE) Hpl Hr) as (mm & Heq & Hr'); [zlia|].
  replace (two32 - (two32 - stack_size nap)) with (stack_size nap) in Heq by lia.
  eexists _, mm. by split.
Qed.
(** The regions depend on the layout, not on the map. *)
Definition map_blind (add : NaClApp -> list NaClVmmapEntry) : Prop :=
  forall nap mm, add (nap <| mem_map := mm |>) = add nap.

Lemma layout_ok_map nap mm : layout_ok nap -> layout_ok (nap <| mem_map := mm |>).
Proof using. intros [[] ? ? ? ? ? ?]. by split. Qed.

Lemma protect_all_spec steps adds :
  Forall2 (fun step add => records step add /\ map_blind add) steps adds ->
  forall nap es, layout_ok nap -> repr (mem_map nap) es ->
  exists l mm, protect_all steps nap = (l, Ret (nap <| mem_map := mm |>, LOAD_OK)) /\
    repr mm (es ++ concat (map (fun add => add nap) adds)).
Proof using.
  induction 1 as [|step add steps adds [Hrec Hbl] Hrest IH]; intros nap es Hlo Hr; simpl.
  { exists [], (mem_map nap). rewrite app_nil_r. split; [by destruct nap|done]. }
  destruct (Hrec nap es Hlo Hr) as (l1 & mm1 & -> & Hr1).
  destruct (IH (nap <| mem_map := mm1 |>) (es ++ add nap)) as (l2 & mm2 & Heq & Hr2);
    [by apply layout_ok_map|done|].
  exists (l1 ++ l2), mm2. split; [by apply M_bind_eq|]. rewrite app_assoc.
  replace (map (fun add => add nap) adds) with (map (fun add => add (nap <| mem_map := mm1 |>)) adds); [exact Hr2|].
  clear -Hrest. induction Hrest as [|? ? ? ? [_ Hb] _ IH]; cbn [map]; [done|]. by rewrite Hb, IH.
Qed.

Lemma MprotectGuards_spec nap :
  placed nap -> repr (mem_map nap) [] ->
  exists l mm, NaClMprotectGuards nap = (l, Ret (nap <| mem_map := mm |>, LOAD_OK)) /\ repr mm null_entries.
Proof using All.
  intros Hpl Hr. unfold NaClMprotectGuards, NaCl_mprotect. rewrite !Hprot, Z.sub_diag.
  destruct (add_region_spec nap [] (Z.shiftr (u64 0) NACL_PAGESHIFT)
    (Z.shiftr NACL_SYSCALL_START_ADDR NACL_PAGESHIFT) PROT_NONE None Hr) as (mm & Hadd & Hr').
  cbv zeta. unfold emit. eexists _, mm. split; [|exact Hr'].
  eapply M_bind_eq. change (negb (0 =? 0)) with false. cbv iota. rewrite Hadd, M_bind_ret_l. cbn [negb].
  eapply M_bind_eq. cbv iota. by eapply M_bind_eq.
Qed.

Lemma MemoryProtection_map nap :
  layout_ok nap -> repr (mem_map nap) [] ->
  exists l mm, NaClMemoryProtection nap = (l, Ret (nap <| mem_map := mm |>, LOAD_OK)) /\
    repr mm (image_entries nap).
Proof using All.
  intros Hlo Hr. unfold NaClMemoryProtection.
  destruct (MprotectGuards_spec nap (lo_placed _ Hlo) Hr) as (l1 & mm1 & -> & Hr1).
  destruct (protect_all_spec [Protect_text; Protect_dynamic; Protect_rodata; Protect_data; Protect_stack]
    [text_entries; dynamic_entries; rodata_entries; data_entries; stack_entries])
    with (nap := nap <| mem_map := mm1 |>) (es := null_entries) as (l2 & mm2 & Heq & Hr2).
  - repeat constructor; eauto using Protect_text_spec, Protect_dynamic_spec, Protect_rodata_spec,
      Protect_data_spec, Protect_stack_spec.
  - by apply layout_ok_map.
  - done.
  - exists (l1 ++ l2), mm2. split; [by apply M_bind_eq|]. exact Hr2.
Qed.
End Protection.

(** ** The invariant after loading *)

(** One region inside the address space. *)
Lemma region_ok start stop prot nmop :
  alloc_aligned start -> alloc_aligned stop -> 0 <= start < stop -> stop <= two32 ->
  let e := region start stop prot nmop in
  entry_ok e = true /\ page_num e = start / 4096 /\ end_page e = stop / 4096.
Proof.
  intros Ha Hb Hlt Hle e. unfold e, region, entry_ok, end_page, PAGE_COUNT. simpl.
  unfold alloc_aligned in *. unfold_words.
  assert (start / 4096 + (stop - start) / 4096 = stop / 4096) as -> by (Z.div_mod_to_equations; lia).
  split_and!; try done. rewrite !andb_true_iff, !Z.leb_le, Z.ltb_lt. split_and!; try done; Z.div_mod_to_equations; lia.
Qed.

Lemma ascending_app es1 es2 lo mid :
  ascending lo es1 = true -> Forall (fun e => end_page e <= mid) es1 -> lo <= mid -> ascending mid es2 = true ->
  ascending lo (es1 ++ es2) = true.
Proof.
  revert lo. induction es1 as [|e es1 IH]; intros lo Ha Hf Hlo H2; simpl in *.
  - destruct es2 as [|x es2]; simpl in *; [done|]. zbool. apply andb_true_iff. rewrite Z.leb_le. split; [lia|done].
  - zbool. inversion Hf; subst. apply andb_true_iff. rewrite Z.leb_le. split; [done|]. by apply IH.
Qed.

(** A block of at most one region between two aligned addresses. *)
Definition block (lo hi : Z) (es : list NaClVmmapEntry) : Prop :=
  forallb entry_ok es = true /\ ascending (lo / 4096) es = true /\
  Forall (fun e => end_page e <= hi / 4096) es /\ lo <= hi.

Lemma block_one lo start stop hi prot nmop :
  alloc_aligned start -> alloc_aligned stop -> 0 <= lo <= start -> start < stop -> stop <= hi -> stop <= two32 ->
  block lo hi [region start stop prot nmop].
Proof.
  intros Ha Hb Hl Hlt Hh H2. destruct (region_ok start stop prot nmop Ha Hb ltac:(lia) H2) as (Hok & Hp & He).
  unfold block. cbn [forallb ascending]. rewrite Hok, Hp. split_and!; try done; [|constructor; [|done]|lia].
  - rewrite andb_true_r. apply Z.leb_le. apply Z.div_le_mono; lia.
  - cbv beta. rewrite He. apply Z.div_le_mono; lia.
Qed.

Lemma block_nil lo hi : lo <= hi -> block lo hi [].
Proof. intros. by split_and!. Qed.

Lemma block_app lo mid hi es1 es2 : block lo mid es1 -> block mid hi es2 -> block lo hi (es1 ++ es2).
Proof.
  intros (A1 & A2 & A3 & A4) (B1 & B2 & B3 & B4). split_and!.
  - by rewrite forallb_app, A1, B1.
  - eapply ascending_app; [done|done| |done]. apply Z.div_le_mono; lia.
  - apply Forall_app. split; [|done]. eapply Forall_impl; [exact A3|]. intros e He. simpl in He.
    assert (mid / 4096 <= hi / 4096) by (apply Z.div_le_mono; lia). lia.
  - lia.
Qed.

Lemma image_block nap : layout_ok nap -> block 0 two32 (image_entries nap).
Proof.
  intros Hlo. pose proof (layout_order nap Hlo) as (Hst & Hd & Hde & Hbr & Hrd & Hal & Hro).
  destruct Hlo as [_ [Hta _] (Hdsa & Hdea & _) Hr Hda _ (Hsa & Hs & _)].
  set (dend := NaClRoundAllocPage (data_end nap)) in *.
  set (rend := if decide (rodata_start nap = 0) then dynamic_text_end nap else rodata_stop nap).
  assert (Hrend : dynamic_text_end nap <= rend <= dend).
  { unfold rend. case_decide as Hz; [lia|]. destruct (Hro Hz) as (? & ? & _). destruct Hr as [|[_ ?]]; [done|]. lia. }
  unfold image_entries.
  apply block_app with 65536; [apply block_one; done || lia|].
  apply block_app with (static_text_end nap); [apply block_one; try done; zlia|].
  apply block_app with (dynamic_text_end nap).
  { unfold dynamic_entries. case_decide; [apply block_nil; lia|]. apply block_one; try done; zlia. }
  apply block_app with rend.
  { unfold rodata_entries, rend. case_decide as Hz; [apply block_nil; lia|]. destruct (Hro Hz) as (? & ? & ? & _).
    destruct Hr as [|[? ?]]; [done|]. apply block_one; try done; zlia. }
  apply block_app with dend.
  { unfold data_entries. case_decide as Hz; [apply block_nil; lia|].
    destruct Hda as [|(? & ? & ?)]; [done|].
    assert (rend <= data_start nap).
    { unfold rend. case_decide as Hz2; [lia|]. destruct (Hro Hz2) as (_ & _ & _ & Heq). by rewrite Heq. }
    apply block_one; try done; zlia. }
  apply block_one; try done; [|zlia|zlia]. by apply aligned_sub.
Qed.

(** Executable regions end where the code region ends. *)
Lemma image_exec nap e :
  layout_ok nap -> e ∈ image_entries nap ->
  Z.land (prot e) PROT_EXEC = 0 \/ end_page e <= text_pages nap.
Proof.
  intros Hlo. pose proof (layout_order nap Hlo) as (Hst & Hd & _).
  destruct Hlo as [_ [Hta _] (Hdsa & Hdea & _) _ _ _ _]. unfold image_entries, text_pages.
  assert (Hend : forall start stop pr mo, alloc_aligned start -> alloc_aligned stop ->
    stop <= dynamic_text_end nap -> end_page (region start stop pr mo) <= dynamic_text_end nap / 4096).
  { intros start stop pr mo Ha Hb Hle. unfold end_page, region. simpl. unfold alloc_aligned in *.
    Z.div_mod_to_equations. lia. }
  rewrite !elem_of_app. intros [He|[He|[He|[He|[He|He]]]]].
  - apply list_elem_of_singleton in He as ->. by left.
  - apply list_elem_of_singleton in He as ->. right. apply Hend; done || lia.
  - unfold dynamic_entries in He. case_decide; [by apply elem_of_nil in He|].
    apply list_elem_of_singleton in He as ->. right. apply Hend; done || lia.
  - unfold rodata_entries in He. case_decide; [by apply elem_of_nil in He|].
    apply list_elem_of_singleton in He as ->. by left.
  - unfold data_entries in He. case_decide; [by apply elem_of_nil in He|].
    apply list_elem_of_singleton in He as ->. by left.
  - apply list_elem_of_singleton in He as ->. by left.
Qed.

Lemma image_pages nap : layout_ok nap -> pages_ok nap (lookup_page (image_entries nap)).
Proof.
  intros Hlo. destruct (image_block nap Hlo) as (Hok & _ & _ & _). rewrite forallb_forall in Hok. split.
  - intros p i Hi. apply lookup_page_entry in Hi as (e & He & Hc & _).
    apply list_elem_of_In, Hok, entry_ok_spec in He as ([] & _ & ?). unfold covers in Hc. lia.
  - intros p i Hi Hp. apply lookup_page_entry in Hi as (e & He & Hc & ->).
    destruct (image_exec nap e Hlo He) as [?|?]; [done|]. unfold covers in Hc. lia.
  - exists 0. split; [|by eexists]. unfold text_pages. pose proof (layout_order nap Hlo) as (? & ? & _).
    apply Z.div_str_pos. lia.
Qed.

(** ** Any host

    NaClMemoryProtection stops with an error at the first mprotect or growth of
    the array that fails; only the failure to allocate an entry goes unnoticed
    (NaClVmmapAdd stores NULL).  So with memory for the entries, LOAD_OK means
    that it ran as on a host that grants everything. *)

Section AnyHost.
Context `{h : Host}.
Hypothesis Hentry : malloc_ok sizeof_NaClVmmapEntry = true.

Definition granting : Host := permissive (plentiful h).

(** [m'] does what [m] does, when [m] ends in [good]. *)
Definition follows {A} (good : A -> Prop) (m m' : M A) : Prop :=
  forall l a, m = (l, Ret a) -> good a -> m' = (l, Ret a).

Lemma follows_refl {A} (good : A -> Prop) m : follows good m m.
Proof using. by intros l a. Qed.

Lemma follows_ret {A} (good : A -> Prop) a m' : ~ good a -> follows good (mret a) m'.
Proof using. by intros Hg l b [_ <-]%M_ret_inv. Qed.

Lemma follows_bind {A B} (ok : A -> Prop) (good : B -> Prop) m m' k k' :
  follows ok m m' -> (forall a l b, k a = (l, Ret b) -> good b -> ok a) ->
  (forall a, ok a -> follows good (k a) (k' a)) -> follows good (m ≫= k) (m' ≫= k').
Proof using.
  intros Hm Hok Hk l b Hrun Hg. apply M_bind_ret_inv in Hrun as (l1 & a & l2 & H1 & H2 & ->).
  pose proof (Hok a l2 b H2 Hg) as Ha. rewrite (Hm l1 a H1 Ha). apply M_bind_eq. by apply Hk.
Qed.

(** The common case: the first part does not depend on the host. *)
Lemma follows_same {A B} (good : B -> Prop) (m : M A) k k' :
  (forall a, follows good (k a) (k' a)) -> follows good (m ≫= k) (m ≫= k').
Proof using. intros Hk. by apply (follows_bind (fun _ => True)); [apply follows_refl| |]. Qed.

Definition added (a : NaClApp * bool) : Prop := a.2 = true.
Definition ends_ok (a : NaClApp * NaClErrorCode) : Prop := a.2 = LOAD_OK.

Lemma add_region_follows nap p n pr mo :
  follows added (add_region nap p n pr mo) (add_region (H:=granting) nap p n pr mo).
Proof using Hentry.
  apply (follows_bind (fun a => a.1 = true)).
  - intros l [ok mm] Hadd Hok. simpl in Hok. subst ok. apply Add_plentiful in Hadd as [_ Hadd].
    rewrite Hentry in Hadd. exact Hadd.
  - intros [ok mm] l b [_ <-]%M_ret_inv Hg. exact Hg.
  - intros [ok mm] _. apply follows_refl.
Qed.

Lemma mprotect_follows {B} (good : B -> Prop) a n p k k' :
  (forall r l b, k r = (l, Ret b) -> good b -> r = 0) -> follows good (k 0) (k' 0) ->
  follows good (NaCl_mprotect a n p ≫= k) (NaCl_mprotect (H:=granting) a n p ≫= k').
Proof using.
  intros Hz Hk. apply (follows_bind (fun r => r = 0)); [|done|by intros ? ->].
  intros l r Hm ->. unfold NaCl_mprotect in *. apply M_bind_ret_inv in Hm as (l1 & [] & l2 & He & [-> Hr]%M_ret_inv & ->).
  by injection He as <-.
Qed.

Lemma protect_region_follows nap a n pr np :
  follows added (protect_region nap a n pr np) (protect_region (H:=granting) nap a n pr np).
Proof using Hentry.
  unfold protect_region. apply mprotect_follows.
  - intros r l b Hrun Hg. destruct (0 =? r) eqn:Hr; zbool; [done|]. apply M_ret_inv in Hrun as [_ <-]. done.
  - cbn. apply follows_same. intros usr. apply add_region_follows.
Qed.

Lemma MprotectGuards_follows nap :
  follows ends_ok (NaClMprotectGuards nap) (NaClMprotectGuards (H:=granting) nap).
Proof using Hentry.
  assert (Hz : forall nap0 (m : M (NaClApp * NaClErrorCode)) r l b,
    (if negb (r =? 0) then mret (nap0, LOAD_MPROTECT_FAIL) else m) = (l, Ret b) -> ends_ok b -> r = 0).
  { intros nap0 m r l b Hrun Hg. destruct (r =? 0) eqn:Hr; zbool; [done|]. by apply M_ret_inv in Hrun as [_ <-]. }
  unfold NaClMprotectGuards. apply mprotect_follows; [by apply Hz|]. cbn [negb Z.eqb].
  apply (follows_bind added); [apply add_region_follows| |].
  - intros [nap1 ok] l b Hrun Hg. destruct ok; [done|]. by apply M_ret_inv in Hrun as [_ <-].
  - intros [nap1 ok] Hok. unfold added in Hok. simpl in Hok. subst ok. cbn [negb].
    apply mprotect_follows; [by apply Hz|]. cbn [negb Z.eqb].
    apply mprotect_follows; [by apply Hz|]. apply follows_refl.
Qed.

Lemma protect_all_follows steps steps' :
  Forall2 (fun step step' => forall nap, follows added (step nap) (step' nap)) steps steps' ->
  forall nap, follows ends_ok (protect_all steps nap) (protect_all steps' nap).
Proof using.
  induction 1 as [|step step' steps steps' Hs _ IH]; intros nap; simpl; [apply follows_refl|].
  apply (follows_bind added); [apply Hs| |].
  - intros [nap1 ok] l b Hrun Hg. destruct ok; [done|]. by apply M_ret_inv in Hrun as [_ <-].
  - intros [nap1 ok] Hok. unfold added in Hok. simpl in Hok. subst ok. apply IH.
Qed.

Lemma MemoryProtection_follows nap :
  follows ends_ok (NaClMemoryProtection nap) (NaClMemoryProtection (H:=granting) nap).
Proof using Hentry.
  unfold NaClMemoryProtection. apply (follows_bind ends_ok); [apply MprotectGuards_follows| |].
  - intros [nap1 e] l b Hrun Hg. case_bool_decide as He; [done|]. by apply M_ret_inv in Hrun as [_ <-].
  - intros [nap1 e] He. unfold ends_ok in He. simpl in He. subst e. cbn [negb bool_decide].
    apply protect_all_follows.
    assert (Hset : forall b (m m' : M (NaClApp * bool)) a, follows added m m' ->
      follows added (if (b : bool) then m else mret a) (if b then m' else mret a)).
    { intros [] m m' a Hm; [done|apply follows_refl]. }
    repeat constructor; intros nap2.
    + apply protect_region_follows.
    + apply follows_same. intros st. apply Hset, follows_same. intros usr.
      apply (follows_bind (fun _ => True)); [|done|intros; apply add_region_follows].
      intros l o Hmk _. by apply Make_plentiful in Hmk.
    + apply Hset, follows_same. intros st. apply follows_same. intros usr. apply protect_region_follows.
    + apply Hset, follows_same. intros st. apply follows_same. intros usr. apply protect_region_follows.
    + apply follows_same. intros st. apply protect_region_follows.
Qed.

(** NaClMemoryProtection establishes the invariant the system calls keep. *)
Lemma MemoryProtection_spec nap l nap' :
  layout_ok nap -> repr (mem_map nap) [] -> da_inv (desc_tbl nap) ->
  NaClMemoryProtection nap = (l, Ret (nap', LOAD_OK)) ->
  nap' = nap <| mem_map := mem_map nap' |> /\ app_inv nap' (image_entries nap).
Proof using Hentry.
  intros Hlo Hr Hd H0. pose proof (MemoryProtection_follows nap _ _ H0 eq_refl) as Hrun.
  destruct (MemoryProtection_map (H:=granting) (fun _ => eq_refl) (fun _ _ _ => eq_refl) nap Hlo Hr)
    as (l' & mm & Heq & Hmm). rewrite Hrun in Heq. injection Heq as <- ->. split; [done|].
  pose proof (layout_order nap Hlo) as (Hst & Hd1 & Hde & Hbr & Hrd & _).
  destruct (image_block nap Hlo) as (Hok & Hasc & _). pose proof (image_pages nap Hlo) as [P1 P2 P3].
  pose proof Hlo as [Hpl _ (_ & Hdea & _) _ _ [_ Hb] _]. split.
  - by destruct Hpl; split.
  - by eapply ascending_vm_inv.
  - by split.
  - simpl. split; [done|lia].
  - simpl. lia.
  - done.
Qed.
End AnyHost.

(** The page of the break is mapped, so that the heap can grow. *)
Lemma image_break nap :
  layout_ok nap -> data_start nap <> 0 -> is_Some (lookup_page (image_entries nap) ((break_addr nap - 1) / 4096)).
Proof.
  intros Hlo Hd0. destruct (lookup_page _ _) as [i|] eqn:Hi; [by eexists|exfalso].
  rewrite lookup_page_None in Hi.
  pose proof (layout_order nap Hlo) as (Hst & Hd1 & Hde & Hbr & Hrd & Hal & _).
  destruct Hlo as [_ _ _ _ [|(Hdal & Hdb & _)] _ _]; [done|].
  apply (Hi (region (data_start nap) (NaClRoundAllocPage (data_end nap)) (Z.lor PROT_READ PROT_WRITE) None)).
  - unfold image_entries. rewrite !elem_of_app. do 4 right. left. unfold data_entries.
    rewrite decide_False by done. by left.
  - done.
  - rewrite Hbr. unfold covers, end_page, region. simpl. unfold alloc_aligned in *. Z.div_mod_to_equations. lia.
Qed.
