(* ===== verification/Validate.v ===== *)
(** * Calling the validator: sel_validate_image.c

    The class [Validator] is the interface of ncvalidate.h: the three entry
    points the loader calls.  [X64Validator.v] implements it with the
    instruction validator and proves the laws the loader relies on. *)

From S2P Require Import Prelude Effects Stateful Rounding Bytes MemObj Vmmap DynArray Policy App.
From S2P Require Import Elf.

Inductive NaClValidationStatus :=
| NaClValidationSucceeded
| NaClValidationFailed
| NaClValidationFailedOutOfMemory
| NaClValidationFailedNotImplemented
| NaClValidationFailedCpuNotSupported
| NaClValidationFailedSegmentationIssue.

#[global] Instance ValidationStatus_eq_dec : EqDecision NaClValidationStatus.
Proof. solve_decision. Defined.

(** Guest address, memory, address of the code, size; the flags are
    [stubout_mode] and [readonly_text].  The CPU features are those of the
    machine and stay fixed.  The validator writes to the code it checks, so it
    returns the memory with its status. *)
Class Validator := {
  ApplyValidator : Z -> memory -> Z -> Z -> bool -> bool -> outcome (NaClValidationStatus * memory);
  ApplyValidatorCodeReplacement : Z -> memory -> Z -> Z -> Z -> outcome (NaClValidationStatus * memory);
  ApplyValidatorCopy : Z -> memory -> Z -> Z -> Z -> outcome (NaClValidationStatus * memory);
}.

(** What the callers rely on: the validator writes only to the code it is
    given, and what it writes are HLT instructions. *)
Class ValidatorLaws `{Validator} : Prop := {
  validator_writes : forall guest m data size stub ro st m' x,
    0 <= size ->
    ApplyValidator guest m data size stub ro = Ret (st, m') -> ~ data <= x < data + size -> m' x = m x;
  validator_halts : forall guest m data size stub ro st m' x,
    0 <= size ->
    ApplyValidator guest m data size stub ro = Ret (st, m') -> m' x = m x \/ m' x = NACL_HALT_OPCODE;
}.

Definition NaClValidateStatus (status : NaClValidationStatus) : NaClErrorCode :=
  match status with
  | NaClValidationSucceeded => LOAD_OK
  | NaClValidationFailedOutOfMemory => LOAD_BAD_FILE
  | _ => LOAD_VALIDATION_FAILED
  end.

Section Validate.
Context `{Validator}.

(** Two passes in stub-out mode: the second checks the stubbed code. *)
Definition NaClValidateCode (nap : NaClApp) (guest_addr : Z) (m : memory) (data size : Z)
  : outcome (NaClErrorCode * memory) :=
  '(status, m) ←
    (if validator_stub_out_mode nap then ApplyValidator guest_addr m data size true false
     else mret (NaClValidationSucceeded, m));
  '(status, m) ←
    (if bool_decide (status = NaClValidationSucceeded) then
       ApplyValidator guest_addr m data size false (fixed_feature_cpu_mode nap)
     else mret (status, m));
  mret (NaClValidateStatus status, m).

Definition NaClValidateCodeReplacement (nap : NaClApp) (guest_addr : Z) (m : memory) (data_old data_new size : Z)
  : outcome (NaClErrorCode * memory) :=
  if validator_stub_out_mode nap then mret (LOAD_BAD_FILE, m)
  else if fixed_feature_cpu_mode nap then mret (LOAD_BAD_FILE, m)
  else if negb (guest_addr mod bundle_size nap =? 0) || negb (size mod bundle_size nap =? 0)
  then mret (LOAD_BAD_FILE, m)
  else
    '(status, m) ← ApplyValidatorCodeReplacement guest_addr m data_old data_new size;
    mret (NaClValidateStatus status, m).

Definition NaClCopyCode (nap : NaClApp) (guest_addr : Z) (m : memory) (data_old data_new size : Z)
  : outcome (NaClErrorCode * memory) :=
  if fixed_feature_cpu_mode nap then mret (LOAD_BAD_FILE, m)
  else
    '(status, m) ← ApplyValidatorCopy guest_addr m data_old data_new size;
    mret (NaClValidateStatus status, m).

Definition NaClValidateImage (nap : NaClApp) (m : memory) : outcome (NaClErrorCode * memory) :=
  let memp := u64 (mem_start nap + NACL_TRAMPOLINE_END) in
  let endp := u64 (mem_start nap + static_text_end nap) in
  let regionsize := u64 (endp - memp) in
  if endp <? memp then mret (LOAD_NO_MEMORY, m)
  else if skip_validator nap then mret (LOAD_OK, m)
  else
    '(rcode, m) ← NaClValidateCode nap NACL_TRAMPOLINE_END m memp regionsize;
    if negb (bool_decide (rcode = LOAD_OK)) then
      mret (if ignore_validator_result nap then LOAD_OK else LOAD_VALIDATION_FAILED, m)
    else mret (rcode, m).

(** ** What acceptance means

    The code is what a pass that does not stub out has accepted, after the
    instructions it overwrote were overwritten. *)
Definition accepted (nap : NaClApp) (guest_addr : Z) (m : memory) (data size : Z) : Prop :=
  exists m0, ApplyValidator guest_addr m0 data size false (fixed_feature_cpu_mode nap) =
    Ret (NaClValidationSucceeded, m).

Context `{!ValidatorLaws}.

Lemma ValidateStatus_ok s : NaClValidateStatus s = LOAD_OK <-> s = NaClValidationSucceeded.
Proof using. by destruct s. Qed.

(** The two passes. *)
Lemma ValidateCode_passes nap guest m data size rc m' :
  NaClValidateCode nap guest m data size = Ret (rc, m') ->
  exists st m1, ((m1 = m /\ st = NaClValidationSucceeded) \/ ApplyValidator guest m data size true false = Ret (st, m1)) /\
    ((m' = m1 /\ rc <> LOAD_OK) \/
     exists st', ApplyValidator guest m1 data size false (fixed_feature_cpu_mode nap) = Ret (st', m') /\
       rc = NaClValidateStatus st').
Proof using.
  unfold NaClValidateCode. intros Hr.
  assert (Hfirst : exists st m1, ((m1 = m /\ st = NaClValidationSucceeded) \/
      ApplyValidator guest m data size true false = Ret (st, m1)) /\
      (if validator_stub_out_mode nap then ApplyValidator guest m data size true false
       else mret (NaClValidationSucceeded, m)) = Ret (st, m1)).
  { destruct (validator_stub_out_mode nap); [|eexists _, m; eauto].
    destruct (ApplyValidator guest m data size true false) as [[st m1]|f]; [eauto 10|done]. }
  destruct Hfirst as (st & m1 & Hst & Heq). rewrite Heq in Hr. cbn in Hr. exists st, m1. split; [done|].
  case_bool_decide as Hs.
  - destruct (ApplyValidator guest m1 data size false _) as [[st' m2]|f]; [|done].
    injection Hr as <- <-. right. eauto.
  - injection Hr as <- <-. left. split; [done|]. by rewrite ValidateStatus_ok.
Qed.

(** Validation writes only to the code. *)
Lemma ValidateCode_writes nap guest m data size rc m' x :
  0 <= size -> NaClValidateCode nap guest m data size = Ret (rc, m') -> ~ data <= x < data + size -> m' x = m x.
Proof using All.
  intros Hsz (st & m1 & H1 & H2)%ValidateCode_passes Hx.
  assert (Hm1 : m1 x = m x).
  { destruct H1 as [[-> _]|H1]; [done|]. by eapply validator_writes. }
  rewrite <- Hm1. destruct H2 as [[-> _]|(st' & H2 & _)]; [done|]. by eapply validator_writes.
Qed.

(** Code that passes was accepted, also when the first pass overwrote parts of
    it. *)
Lemma ValidateCode_accepted nap guest m data size m' :
  NaClValidateCode nap guest m data size = Ret (LOAD_OK, m') -> accepted nap guest m' data size.
Proof using.
  intros (st & m1 & _ & [[_ ?]|(st' & H2 & Hs)])%ValidateCode_passes; [done|].
  symmetry in Hs. apply ValidateStatus_ok in Hs as ->. by exists m1.
Qed.

(** The static text from the end of the trampolines on, with its padding, was
    accepted unless validation is switched off. *)
Lemma ValidateImage_spec nap m m' :
  0 <= mem_start nap -> mem_start nap + two32 < two64 -> 0 <= static_text_end nap < two32 ->
  NaClValidateImage nap m = Ret (LOAD_OK, m') ->
  NACL_TRAMPOLINE_END <= static_text_end nap /\
  (forall x, ~ mem_start nap + NACL_TRAMPOLINE_END <= x < mem_start nap + static_text_end nap -> m' x = m x) /\
  (skip_validator nap = false -> ignore_validator_result nap = false ->
   accepted nap NACL_TRAMPOLINE_END m' (mem_start nap + NACL_TRAMPOLINE_END)
     (static_text_end nap - NACL_TRAMPOLINE_END)).
Proof using All.
  intros Hms Hme Ht. unfold NaClValidateImage. change NACL_TRAMPOLINE_END with 131072 in *.
  rewrite !(u64_small (mem_start nap + _)) by zlia.
  destruct (_ <? _) eqn:Hlt; zbool; [done|].
  rewrite u64_small by zlia.
  replace (mem_start nap + static_text_end nap - (mem_start nap + 131072))
    with (static_text_end nap - 131072) by lia.
  destruct (skip_validator nap). { intros [= <-]. split_and!; [lia|done|done]. }
  set (data := mem_start nap + 131072). set (size := static_text_end nap - 131072).
  destruct (NaClValidateCode nap 131072 m data size) as [[rc m1]|f] eqn:Hv; [|done]. cbn.
  assert (Hwm : forall x, ~ data <= x < mem_start nap + static_text_end nap -> m1 x = m x).
  { intros x Hx. eapply ValidateCode_writes; [|exact Hv|]; unfold data, size in *; lia. }
  case_bool_decide as Hrc; cbn [negb].
  - subst rc. intros [= <-]. split_and!; [lia|done|]. intros _ _. by eapply ValidateCode_accepted.
  - destruct (ignore_validator_result nap); [|done]. intros [= <-]. split_and!; [lia|done|done].
Qed.
End Validate.
