(* ===== verification/NcValidate.v ===== *)
(** * The entry points of the validator: 64/ncvalidate.c

    [ApplyValidator], applied to a code segment in memory, and
    [ApplyValidatorCodeReplacement].  The validation cache is the parameter
    [query]: [None] without a cache or query, [Some known] for a query with
    the answer [known].  The third result tells whether the answer is
    recorded in the cache. *)

From S2P Require Import Prelude Effects Stateful Bytes OpKinds DecodeTables OpcodeTable InstBuffer.
From S2P Require Import ExpVector InstState InstTrans InstDecode InstIter ValState AddressSet Jumps.
From S2P Require Import ProtectBase MemProtect Illegal CpuChecks ValidateIter Validate.

Section NcValidate.
Context `{Host}.
Variable NaClLogGetVerbosity : Z.
Variable features : NaClCPUFeaturesX86.

Definition NaClValidatorSetup_x86_64 (guest_addr size : Z) (readonly_text : bool) (m : memory)
  : option NaClValidatorState :=
  NaClValidatorStateCreate guest_addr size RegR15 readonly_text features m.

(** The validation of a segment with a new state. *)
Definition validate_segment (guest_addr data size : Z) (stubout_mode : bool) : Val unit :=
  NaClValidatorStateSetLogVerbosity LOG_ERROR ;;
  NaClValidatorStateSetDoStubOut stubout_mode ;;
  NaClValidateSegment NaClLogGetVerbosity kNaClValDecoderTables data guest_addr size.

Definition ApplyValidator_x86_64 (guest_addr : Z) (m : memory) (data size : Z) (stubout_mode readonly_text : bool)
  (query : option bool) : outcome (NaClValidationStatus * memory * bool) :=
  if stubout_mode && readonly_text then Ret (NaClValidationFailedNotImplemented, m, false)
  else if negb (NaClArchSupported features) then Ret (NaClValidationFailedCpuNotSupported, m, false)
  else
    let query := if stubout_mode then None else query in
    if bool_decide (query = Some true) then Ret (NaClValidationSucceeded, m, false)
    else
      match NaClValidatorSetup_x86_64 guest_addr size readonly_text m with
      | None => Ret (NaClValidationFailedOutOfMemory, m, false)
      | Some vstate =>
          '(_, vstate) ← validate_segment guest_addr data size stubout_mode vstate;
          let ok := validates_ok vstate || stubout_mode in
          Ret (if ok then NaClValidationSucceeded else NaClValidationFailed, ram vstate,
               bool_decide (query <> None) && ok && negb (did_stub_out vstate))
      end.

Definition ApplyValidatorCodeReplacement_x86_64 (guest_addr : Z) (m : memory) (data_old data_new size : Z)
  : outcome (NaClValidationStatus * memory) :=
  if negb (NaClArchSupported features) then Ret (NaClValidationFailedCpuNotSupported, m)
  else
    match NaClValidatorSetup_x86_64 guest_addr size false m with
    | None => Ret (NaClValidationFailedOutOfMemory, m)
    | Some vstate =>
        '(_, vstate) ← (NaClValidatorStateSetLogVerbosity LOG_ERROR ;;
           NaClValidateSegmentPair NaClLogGetVerbosity kNaClValDecoderTables data_old data_new guest_addr size) vstate;
        Ret (if validates_ok vstate then NaClValidationSucceeded else NaClValidationFailed, ram vstate)
    end.

End NcValidate.
