(* ===== verification/DynText.v ===== *)
(** * Dynamic code: nacl_text.c

    The shared-memory region between the static text and the data, the sorted
    table of loaded code regions, and the insertion of validated code.

    The shared memory object is used through its virtual table: the class [Shm]
    gives the results of its constructor, Map and UnmapUnsafe.  NaClDescImcShm,
    modelled in GioShm.v, implements it ([ImcShm_Shm] in DynCode.v).  The code
    copy, the pages of the object as the runtime sees them through a writable
    mapping, and the visible pages are parts of one [memory]. *)

From S2P Require Import Prelude Effects Rounding Bytes MemObj Vmmap DynArray Policy App HostDesc.
From S2P Require Import Elf Memory AddrSpace Validate.

Class Shm := {
  shm_AllocCtor : Z -> option Z;             (* size: the descriptor, or failure *)
  shm_Map : Z -> Z -> Z -> Z -> Z -> Z -> Z; (* descriptor, addr, len, prot, flags, offset *)
  shm_UnmapUnsafe : Z -> Z -> Z -> Z;        (* descriptor, addr, len *)
}.

Definition kMinDynamicRegionsAllocated : Z := 32.
Definition kBitsPerByte : Z := 8.
Definition sizeof_NaClDynamicRegion : Z := 24.
Definition sizeof_NaClDescImcShm : Z := 48.
Definition NACL_HALT_LEN : Z := 1.

(** ** Bitmaps *)

Definition BitmapAllocate `{Host} (indexes : Z) : option (list Z) :=
  let byte_count := u32 (indexes + kBitsPerByte - 1) / kBitsPerByte in
  if malloc_ok byte_count then Some (replicate (Z.to_nat byte_count) 0) else None.

Definition BitmapIsBitSet (bitmap : list Z) (index : Z) : M bool :=
  b ← load bitmap (Z.to_nat (index / kBitsPerByte));
  mret (negb (Z.land b (Z.shiftl 1 (index mod kBitsPerByte)) =? 0)).

Definition BitmapSetBit (bitmap : list Z) (index : Z) : M (list Z) :=
  let i := Z.to_nat (index / kBitsPerByte) in
  b ← load bitmap i;
  store bitmap i (u8 (Z.lor b (Z.shiftl 1 (index mod kBitsPerByte)))).

Definition NaClFillMemoryRegionWithHalt (m : memory) (start size : Z) : M memory :=
  _ ← check (size mod NACL_HALT_LEN =? 0) "!(size % NACL_HALT_LEN)";
  mret (mem_fill m start size NACL_HALT_OPCODE).

(** ** The region table *)

(** The binary search: halve until at most 17 candidates are left. *)
Fixpoint ClosestLEQ_search (fuel : nat) (rs : list NaClDynamicRegion) (ptr : Z) (begin_ end_ : nat) : M (nat * nat) :=
  if (begin_ + 16 + 1 <? end_)%nat then
    match fuel with
    | O => fail OutOfFuel
    | S fuel' =>
        let mid := (begin_ + (end_ - begin_) / 2)%nat in
        r ← load rs mid;
        if rg_start r <=? ptr then ClosestLEQ_search fuel' rs ptr mid end_
        else ClosestLEQ_search fuel' rs ptr begin_ mid
    end
  else mret (begin_, end_).

(** The linear scan over [n] more candidates. *)
Fixpoint ClosestLEQ_scan (n : nat) (rs : list NaClDynamicRegion) (ptr : Z) (begin_ : nat) : M nat :=
  match n with
  | O => mret begin_
  | S n' =>
      r ← load rs (begin_ + 1)%nat;
      if rg_start r <=? ptr then ClosestLEQ_scan n' rs ptr (begin_ + 1)%nat else mret begin_
  end.

(** The index of the region, [None] for NULL. *)
Definition NaClDynamicRegionFindClosestLEQ (rs : list NaClDynamicRegion) (ptr : Z) : M (option nat) :=
  let num := length rs in
  if (num =? 0)%nat then mret None
  else
    last ← load rs (num - 1)%nat;
    if rg_start last <=? ptr then mret (Some (num - 1)%nat)
    else
      first ← load rs 0%nat;
      if ptr <? rg_start first then mret None
      else
        '(b, e) ← ClosestLEQ_search num rs ptr 0 num;
        b ← ClosestLEQ_scan (e - b - 1) rs ptr b;
        mret (Some b).

Definition NaClDynamicRegionFind (rs : list NaClDynamicRegion) (ptr size : Z) : M (option nat) :=
  p ← NaClDynamicRegionFindClosestLEQ rs (u64 (ptr + size - 1));
  match p with
  | None => mret None
  | Some i =>
      r ← load rs i;
      mret (if ptr <? u64 (rg_start r + rg_size r) then Some i else None)
  end.

(** Scroll from [rs], the part of the table at the predecessor, to the
    insertion point, then swap the item through to the end. *)
Fixpoint Region_shift (item : NaClDynamicRegion) (rs : list NaClDynamicRegion) : list NaClDynamicRegion :=
  match rs with
  | [] => [item]
  | t :: rs' => item :: Region_shift t rs'
  end.

Fixpoint Region_insert (item : NaClDynamicRegion) (rs : list NaClDynamicRegion) : list NaClDynamicRegion :=
  match rs with
  | [] => Region_shift item []
  | r :: rs' => if rg_start r <? rg_start item then r :: Region_insert item rs' else Region_shift item rs
  end.

Section Dynamic.
Context `{Host} `{Shm} `{Validator}.

Definition NaClDynamicRegionCreate (nap : NaClApp) (start size : Z) : M (NaClApp * bool) :=
  let item := mkRegion start size (-1) in
  let rs := dynamic_regions nap in
  nap ← (if dynamic_regions_allocated nap =? Z.of_nat (length rs) then
           let n := dynamic_regions_allocated nap * 2 in
           let n := if n <? kMinDynamicRegionsAllocated then kMinDynamicRegionsAllocated else n in
           if malloc_ok (u64 (sizeof_NaClDynamicRegion * n))
           then mret (nap <| dynamic_regions_allocated := n |>)
           else fail (LogFatal "NaClDynamicRegionCreate: realloc failed")
         else mret nap);
  p ← NaClDynamicRegionFindClosestLEQ rs (u64 (start + size - 1));
  conflict ← match p with
             | None => mret false
             | Some i => r ← load rs i; mret (start <? u64 (rg_start r + rg_size r))
             end;
  if (conflict : bool) then mret (nap, false)
  else
    let k := default 0%nat p in
    mret (nap <| dynamic_regions := take k rs ++ Region_insert item (drop k rs) |>, true).

Definition NaClDynamicRegionDelete (nap : NaClApp) (i : nat) : M NaClApp :=
  let rs := delete i (dynamic_regions nap) in
  let n := dynamic_regions_allocated nap in
  let nap := nap <| dynamic_regions := rs |> in
  if (kMinDynamicRegionsAllocated <? n) && (Z.of_nat (length rs) <? n / 4) then
    if malloc_ok (u64 (sizeof_NaClDynamicRegion * (n / 2)))
    then mret (nap <| dynamic_regions_allocated := n / 2 |>)
    else fail (LogFatal "NaClDynamicRegionCreate: realloc failed")
  else mret nap.

(** ** Copying code

    A write of a 32-bit word. *)
Definition copy_word (m : memory) (dest src : Z) : memory := mem_write m dest (mem_read m src 4).

(** [n] words are left. *)
Fixpoint CopyBundleTails_loop (n : nat) (m : memory) (dest src bundle_mask : Z) : memory :=
  match n with
  | O => m
  | S n' =>
      let m := if negb (Z.land dest bundle_mask =? 0) then copy_word m dest src else m in
      CopyBundleTails_loop n' m (dest + 4) (src + 4) bundle_mask
  end.

(** [size] is an [int32_t]: with a negative one no word is copied. *)
Definition CopyBundleTails (m : memory) (dest src size bundle_size : Z) : M memory :=
  _ ← check (0 =? Z.land dest 3) "0 == ((uintptr_t) dest & 3)";
  mret (CopyBundleTails_loop (Z.to_nat ((size + 3) / 4)) m dest src (bundle_size - 1)).

(** [n] bundles are left. *)
Fixpoint CopyBundleHeads_loop (n : nat) (m : memory) (dest src bundle_size : Z) : memory :=
  match n with
  | O => m
  | S n' => CopyBundleHeads_loop n' (copy_word m dest src) (dest + bundle_size) (src + bundle_size) bundle_size
  end.

Definition CopyBundleHeads (m : memory) (dest src size bundle_size : Z) : M memory :=
  _ ← check (0 =? Z.land dest 3) "0 == ((uintptr_t) dest & 3)";
  mret (CopyBundleHeads_loop (Z.to_nat ((size + bundle_size - 1) / bundle_size)) m dest src bundle_size).

(** [size] is a [uint32_t] here, converted for the call of CopyBundleTails. *)
Definition CopyCodeSafelyInitial (m : memory) (dest src size bundle_size : Z) : M memory :=
  m ← CopyBundleTails m dest src (i32 size) bundle_size;
  CopyBundleHeads m dest src size bundle_size.

(** ** The shared region *)

Definition NaClMakeDynamicTextShared (nap : NaClApp) : M (NaClApp * NaClErrorCode) :=
  let shm_vaddr_base := NaClRoundAllocPage (NaClEndOfStaticText nap) in
  if negb (use_shm_for_dynamic_text nap) then
    mret (nap <| dynamic_text_start := shm_vaddr_base |> <| dynamic_text_end := shm_vaddr_base |>, LOAD_OK)
  else
    let shm_upper_bound := rodata_start nap in
    let shm_upper_bound := if 0 =? shm_upper_bound then data_start nap else shm_upper_bound in
    let shm_upper_bound := if 0 =? shm_upper_bound then shm_vaddr_base else shm_upper_bound in
    let nap := nap <| dynamic_text_start := shm_vaddr_base |> <| dynamic_text_end := shm_upper_bound |> in
    let dynamic_text_size := u64 (shm_upper_bound - shm_vaddr_base) in
    if 0 =? dynamic_text_size then mret (nap, LOAD_OK)
    else if negb (malloc_ok sizeof_NaClDescImcShm) then mret (nap, LOAD_INTERNAL)
    else
      match shm_AllocCtor dynamic_text_size with
      | None => mret (nap, LOAD_NO_MEMORY)
      | Some shm =>
          text_sysaddr ← NaClUserToSys nap shm_vaddr_base;
          _ ← NaCl_page_free text_sysaddr dynamic_text_size;
          let flags := Z.lor NACL_ABI_MAP_SHARED NACL_ABI_MAP_FIXED in
          _ ← emit (HostMmap text_sysaddr dynamic_text_size NACL_ABI_PROT_NONE flags (Some shm) 0);
          let mmap_ret := shm_Map shm text_sysaddr dynamic_text_size NACL_ABI_PROT_NONE flags 0 in
          if negb (text_sysaddr =? mmap_ret) then
            fail (LogFatal "Could not map in shm for dynamic text region")
          else
            match BitmapAllocate (u32 (dynamic_text_size / NACL_MAP_PAGESIZE)) with
            | None => fail (LogFatal "NaClMakeDynamicTextShared: BitmapAllocate() failed")
            | Some bitmap =>
                mret (nap <| dynamic_page_bitmap := Some bitmap |> <| text_shm := Some shm |>, LOAD_OK)
            end
      end.

(** [*writable_addr == 0] is read in [m]. *)
Definition MakeDynamicCodePageVisible (nap : NaClApp) (m : memory) (page_index writable_addr : Z)
  : M (NaClApp * memory) :=
  match dynamic_page_bitmap nap with
  | None => fail NullDeref
  | Some bitmap =>
      set ← BitmapIsBitSet bitmap page_index;
      if (set : bool) then mret (nap, m)
      else
        user_addr ← NaClUserToSys nap (u64 (dynamic_text_start nap + u32 (page_index * NACL_MAP_PAGESIZE)));
        _ ← check (m writable_addr =? 0) "*writable_addr == 0";
        m ← NaClFillMemoryRegionWithHalt m writable_addr NACL_MAP_PAGESIZE;
        r ← NaCl_mprotect user_addr NACL_MAP_PAGESIZE (Z.lor PROT_READ PROT_EXEC);
        if negb (r =? 0) then fail (LogFatal "MakeDynamicCodePageVisible: NaCl_mprotect() failed")
        else
          bitmap ← BitmapSetBit bitmap page_index;
          mret (nap <| dynamic_page_bitmap := Some bitmap |>, m)
  end.

Fixpoint MakePagesVisible (n : nat) (nap : NaClApp) (m : memory) (page_index writable_addr : Z)
  : M (NaClApp * memory) :=
  match n with
  | O => mret (nap, m)
  | S n' =>
      '(nap, m) ← MakeDynamicCodePageVisible nap m page_index writable_addr;
      MakePagesVisible n' nap m (u32 (page_index + 1)) (u64 (writable_addr + NACL_MAP_PAGESIZE))
  end.

Definition CachedMapWritableText (nap : NaClApp) (m : memory) (offset size : Z) : M (NaClApp * memory * Z) :=
  if negb (offset =? dynamic_mapcache_offset nap) || negb (size =? dynamic_mapcache_size nap) then
    nap ← (if 0 <? dynamic_mapcache_size nap then
             match text_shm nap with
             | None => fail NullDeref
             | Some shm =>
                 _ ← emit (HostMunmap (dynamic_mapcache_ret nap) (dynamic_mapcache_size nap));
                 if negb (0 =? shm_UnmapUnsafe shm (dynamic_mapcache_ret nap) (dynamic_mapcache_size nap)) then
                   fail (LogFatal "CachedMapWritableText: Failed to unmap")
                 else mret (nap <| dynamic_mapcache_offset := 0 |> <| dynamic_mapcache_size := 0 |>
                                <| dynamic_mapcache_ret := 0 |>)
             end
           else mret nap);
    if 0 <? size then
      match text_shm nap with
      | None => fail NullDeref
      | Some shm =>
          let prot := Z.lor NACL_ABI_PROT_READ NACL_ABI_PROT_WRITE in
          _ ← emit (HostMmap 0 size prot NACL_ABI_MAP_SHARED (Some shm) offset);
          let mapping := shm_Map shm 0 size prot NACL_ABI_MAP_SHARED offset in
          if NaClPtrIsNegErrno mapping then mret (nap, m, 0)
          else
            let first := offset / NACL_MAP_PAGESIZE in
            let end_page_index := u32 (offset + size) / NACL_MAP_PAGESIZE in
            '(nap, m) ← MakePagesVisible (Z.to_nat (end_page_index - first)) nap m first mapping;
            let nap := nap <| dynamic_mapcache_offset := offset |> <| dynamic_mapcache_size := size |>
                           <| dynamic_mapcache_ret := mapping |> in
            mret (nap, m, mapping)
      end
    else mret (nap, m, dynamic_mapcache_ret nap)
  else mret (nap, m, dynamic_mapcache_ret nap).

(** The page range of [dest, dest + size) in the object. *)
Definition TextMap_range (nap : NaClApp) (dest size : Z) : Z * Z * Z :=
  let shm_offset := u32 (dest - u32 (dynamic_text_start nap)) in
  let mask := not32 (NACL_MAP_PAGESIZE - 1) in
  let shm_map_offset := Z.land shm_offset mask in
  let within_page_offset := Z.land shm_offset (NACL_MAP_PAGESIZE - 1) in
  let shm_map_offset_end := Z.land (u32 (shm_offset + size + NACL_MAP_PAGESIZE - 1)) mask in
  (shm_map_offset, within_page_offset, u32 (shm_map_offset_end - shm_map_offset)).

Definition NaclTextMapWrapper (nap : NaClApp) (m : memory) (dest size : Z) : M (NaClApp * memory * option Z) :=
  let '(shm_map_offset, within_page_offset, shm_map_size) := TextMap_range nap dest size in
  '(nap, m, mmap_ret) ← CachedMapWritableText nap m shm_map_offset shm_map_size;
  if 0 =? mmap_ret then mret (nap, m, None)
  else mret (nap, m, Some (u64 (mmap_ret + within_page_offset))).

Definition NaclTextMapClearCacheIfNeeded (nap : NaClApp) (m : memory) (dest size : Z) : M (NaClApp * memory) :=
  let '(_, _, shm_map_size) := TextMap_range nap dest size in
  if NACL_MAP_PAGESIZE <? shm_map_size then
    '(nap, m, _) ← CachedMapWritableText nap m 0 0; mret (nap, m)
  else mret (nap, m).

(** [code_copy] is a buffer of the runtime that holds the code. *)
Definition NaClTextDyncodeCreate (nap : NaClApp) (m : memory) (dest code_copy size : Z) : M (NaClApp * memory * Z) :=
  match text_shm nap with
  | None => mret (nap, m, - NACL_ABI_EINVAL)
  | Some _ =>
      if negb (0 =? Z.land dest (bundle_size nap - 1)) || negb (0 =? Z.land size (bundle_size nap - 1)) then
        mret (nap, m, - NACL_ABI_EINVAL)
      else
        let dest_addr := NaClUserToSysAddrRange nap dest size in
        if kNaClBadAddress =? dest_addr then mret (nap, m, - NACL_ABI_EFAULT)
        else if dest <? dynamic_text_start nap then mret (nap, m, - NACL_ABI_EFAULT)
        else if u64 (dynamic_text_end nap - NACL_HALT_SLED_SIZE) <? u32 (dest + size) then
          mret (nap, m, - NACL_ABI_EFAULT)
        else if 0 =? size then mret (nap, m, 0)
        else
          '(nap, created) ← NaClDynamicRegionCreate nap dest_addr size;
          if negb created then mret (nap, m, - NACL_ABI_EINVAL)
          else
            '(validator_result, m) ←
              (if negb (skip_validator nap) then of_outcome (NaClValidateCode nap dest m code_copy size)
               else mret (LOAD_OK, m));
            let validator_result :=
              if negb (bool_decide (validator_result = LOAD_OK)) && ignore_validator_result nap
              then LOAD_OK else validator_result in
            if negb (bool_decide (validator_result = LOAD_OK)) then mret (nap, m, - NACL_ABI_EINVAL)
            else
              '(nap, m, mapped) ← NaclTextMapWrapper nap m dest size;
              match mapped with
              | None => mret (nap, m, - NACL_ABI_ENOMEM)
              | Some mapped_addr =>
                  m ← CopyCodeSafelyInitial m mapped_addr code_copy size (bundle_size nap);
                  '(nap, m) ← NaclTextMapClearCacheIfNeeded nap m dest size;
                  mret (nap, m, 0)
              end
  end.

End Dynamic.

(** ** The region table is a search structure *)

Definition rg_end (r : NaClDynamicRegion) : Z := rg_start r + rg_size r.
Definition rg_before (a b : NaClDynamicRegion) : Prop := rg_end a <= rg_start b.
Definition rg_wf (r : NaClDynamicRegion) : Prop := 0 <= rg_start r /\ 0 < rg_size r /\ rg_end r < two64.

Record regions_inv (rs : list NaClDynamicRegion) : Prop := {
  ri_wf : Forall rg_wf rs;
  ri_sorted : StronglySorted rg_before rs;
}.

Lemma StronglySorted_get {A} (R : A -> A -> Prop) l i j x y :
  StronglySorted R l -> (i < j)%nat -> l !! i = Some x -> l !! j = Some y -> R x y.
Proof.
  intros Hs. revert i j. induction Hs as [|z l Hs IH Hf]; intros i j Hij Hx Hy; [done|].
  destruct j as [|j]; [lia|]. destruct i as [|i]; simpl in *.
  - injection Hx as <-. rewrite Forall_lookup in Hf. by eapply Hf.
  - by eapply (IH i j); [lia|..].
Qed.

Section Search.
Context (rs : list NaClDynamicRegion) (Hinv : regions_inv rs) (ptr : Z).

Definition at_most (i : nat) : Prop := exists r, rs !! i = Some r /\ rg_start r <= ptr.
Definition beyond (i : nat) : Prop := forall j r, (i <= j)%nat -> rs !! j = Some r -> ptr < rg_start r.

Lemma starts_ascend i j a b : (i <= j)%nat -> rs !! i = Some a -> rs !! j = Some b -> rg_start a <= rg_start b.
Proof using Hinv.
  intros Hij Ha Hb. destruct (decide (i = j)) as [->|]; [simplify_eq; lia|].
  pose proof (StronglySorted_get _ _ i j a b (ri_sorted _ Hinv) ltac:(lia) Ha Hb) as Hlt.
  pose proof (Forall_lookup_1 _ _ _ _ (ri_wf _ Hinv) Ha) as (_ & ? & _). unfold rg_before, rg_end in *. lia.
Qed.

Lemma beyond_from i r : rs !! i = Some r -> ptr < rg_start r -> beyond i.
Proof using Hinv. intros Hi Hlt j x Hij Hj. pose proof (starts_ascend i j r x Hij Hi Hj). lia. Qed.

Lemma ClosestLEQ_search_spec fuel : forall b e,
  (e - b <= fuel)%nat -> (b < e <= length rs)%nat -> at_most b -> beyond e ->
  exists b' e', ClosestLEQ_search fuel rs ptr b e = mret (b', e') /\ (b' < e' <= length rs)%nat /\
    at_most b' /\ beyond e'.
Proof using Hinv.
  induction fuel as [|fuel IH]; intros b e Hf Hbe Hb He; [lia|].
  cbn [ClosestLEQ_search]. destruct (_ <? e)%nat eqn:Hlt; [apply Nat.ltb_lt in Hlt|by exists b, e].
  remember (b + (e - b) / 2)%nat as mid eqn:Emid. cbv zeta.
  assert (Hmid : (b < mid < e)%nat).
  { subst mid. assert (0 < (e - b) / 2 < e - b)%nat; [|lia].
    split; [apply Nat.div_str_pos; lia|apply Nat.div_lt; lia]. }
  destruct (lookup_lt_is_Some_2 rs mid) as [r Hr]; [lia|]. rewrite (load_ok _ _ _ Hr), M_bind_ret_l.
  destruct (rg_start r <=? ptr) eqn:Hle; zbool.
  - apply IH; [lia|lia|by exists r|done].
  - apply IH; [lia|lia|done|by eapply beyond_from].
Qed.

Lemma ClosestLEQ_scan_spec n : forall b,
  (b + n < length rs)%nat -> at_most b -> beyond (b + n + 1) ->
  exists i, ClosestLEQ_scan n rs ptr b = mret i /\ at_most i /\ beyond (i + 1).
Proof using Hinv.
  induction n as [|n IH]; intros b Hlen Hb Hbe; simpl.
  { exists b. split_and!; [done|done|]. by replace (b + 0 + 1)%nat with (b + 1)%nat in Hbe by lia. }
  destruct (lookup_lt_is_Some_2 rs (b + 1)) as [r Hr]; [lia|]. rewrite (load_ok _ _ _ Hr), M_bind_ret_l.
  destruct (rg_start r <=? ptr) eqn:Hle; zbool.
  - apply IH; [lia|by exists r|]. by replace (b + 1 + n + 1)%nat with (b + S n + 1)%nat by lia.
  - exists b. split_and!; [done|done|by eapply beyond_from].
Qed.

(** The closest region at or below [ptr], when there is one. *)
Lemma ClosestLEQ_spec :
  exists p, NaClDynamicRegionFindClosestLEQ rs ptr = mret p /\
    match p with
    | None => beyond 0
    | Some i => at_most i /\ beyond (i + 1)
    end.
Proof using Hinv.
  unfold NaClDynamicRegionFindClosestLEQ. destruct (length rs =? 0)%nat eqn:H0.
  { apply Nat.eqb_eq in H0. exists None. split; [done|]. intros j r _ Hj%lookup_lt_Some. lia. }
  apply Nat.eqb_neq in H0.
  destruct (lookup_lt_is_Some_2 rs (length rs - 1)) as [z Hz]; [lia|]. rewrite (load_ok _ _ _ Hz), M_bind_ret_l.
  destruct (rg_start z <=? ptr) eqn:Hl; zbool.
  { eexists. split; [done|]. split; [by exists z|]. intros j r Hj Hr%lookup_lt_Some. lia. }
  destruct (lookup_lt_is_Some_2 rs 0) as [a Ha]; [lia|]. rewrite (load_ok _ _ _ Ha), M_bind_ret_l.
  destruct (ptr <? rg_start a) eqn:Hf; zbool.
  { exists None. split; [done|]. by eapply beyond_from. }
  assert (Hend : beyond (length rs)) by (intros j r Hj Hr%lookup_lt_Some; lia).
  destruct (ClosestLEQ_search_spec (length rs) 0 (length rs)) as (b & e & -> & Hbe & Hb & He);
    [lia|lia|by exists a|done|]. rewrite M_bind_ret_l.
  destruct (ClosestLEQ_scan_spec (e - b - 1) b) as (i & -> & Hi & Hi');
    [lia|done|by replace (b + (e - b - 1) + 1)%nat with e by lia|].
  rewrite M_bind_ret_l. eexists. split; [done|]. by split.
Qed.
End Search.

(** Two regions share an address. *)
Definition overlaps (start size : Z) (r : NaClDynamicRegion) : Prop :=
  rg_start r < start + size /\ start < rg_end r.

Lemma regions_end rs i r : regions_inv rs -> rs !! i = Some r -> u64 (rg_start r + rg_size r) = rg_end r.
Proof.
  intros Hinv Hi. pose proof (Forall_lookup_1 _ _ _ _ (ri_wf _ Hinv) Hi) as (? & ? & ?).
  apply u64_small. unfold rg_end in *. zlia.
Qed.

(** Some region overlaps exactly when the closest one does. *)
Lemma closest_overlap rs start size p :
  regions_inv rs -> 0 < size ->
  match p with
  | None => beyond rs (start + size - 1) 0
  | Some i => at_most rs (start + size - 1) i /\ beyond rs (start + size - 1) (i + 1)
  end ->
  (exists j r, rs !! j = Some r /\ overlaps start size r) <->
  match p with
  | None => False
  | Some i => exists r, rs !! i = Some r /\ start < rg_end r
  end.
Proof.
  intros Hinv Hsz Hp. destruct p as [i|].
  - destruct Hp as [(a & Ha & Hle) Hbe]. split.
    + intros (j & r & Hj & Ho1 & Ho2). exists a. split; [done|].
      destruct (decide (j <= i)%nat) as [Hji|Hji].
      * destruct (decide (j = i)) as [->|]; [by simplify_eq|].
        pose proof (StronglySorted_get _ _ j i r a (ri_sorted _ Hinv) ltac:(lia) Hj Ha) as Hb.
        pose proof (Forall_lookup_1 _ _ _ _ (ri_wf _ Hinv) Ha) as (? & ? & ?).
        unfold rg_before, rg_end in *. lia.
      * specialize (Hbe j r ltac:(lia) Hj). lia.
    + intros (r & Hr & Hlt). exists i, r. simplify_eq. split; [done|]. split; [lia|done].
  - split; [|done]. intros (j & r & Hj & Ho1 & _). specialize (Hp j r ltac:(lia) Hj). lia.
Qed.

Lemma Find_spec rs ptr size :
  regions_inv rs -> 0 <= ptr -> 0 < size -> ptr + size < two64 ->
  exists p, NaClDynamicRegionFind rs ptr size = mret p /\
    match p with
    | Some i => exists r, rs !! i = Some r /\ overlaps ptr size r
    | None => forall j r, rs !! j = Some r -> ~ overlaps ptr size r
    end.
Proof.
  intros Hinv Hp Hs Hlim. unfold NaClDynamicRegionFind. rewrite u64_small by zlia.
  destruct (ClosestLEQ_spec rs Hinv (ptr + size - 1)) as (p & -> & Hc). rewrite M_bind_ret_l.
  pose proof (closest_overlap rs ptr size p Hinv Hs Hc) as Ho. destruct p as [i|].
  - destruct Hc as [(a & Ha & Hle) _]. rewrite (load_ok _ _ _ Ha), M_bind_ret_l, (regions_end rs i) by done.
    eexists. split; [done|]. destruct (ptr <? rg_end a) eqn:Hlt; zbool.
    + exists a. split; [done|]. split; [lia|done].
    + intros j r Hj Hov. destruct (proj1 Ho) as (r' & Hr' & Hlt'); [by exists j, r|]. simplify_eq. lia.
  - exists None. split; [done|]. intros j r Hj Hov. apply Ho. by exists j, r.
Qed.

(** ** Inserting and deleting regions *)

Definition disjoint_from (start size : Z) (rs : list NaClDynamicRegion) : Prop :=
  Forall (fun r => ~ overlaps start size r) rs.

Lemma Region_shift_cons item rs : Region_shift item rs = item :: rs.
Proof. revert item. induction rs as [|r rs IH]; intros item; simpl; [done|]. by rewrite IH. Qed.

Lemma Region_insert_perm item rs : Region_insert item rs ≡ₚ item :: rs.
Proof.
  induction rs as [|r rs IH]; simpl; [done|]. case_match; [rewrite IH; constructor|].
  by rewrite Region_shift_cons.
Qed.

Lemma Region_insert_app item l1 l2 :
  Forall (fun r => rg_start r < rg_start item) l1 -> Region_insert item (l1 ++ l2) = l1 ++ Region_insert item l2.
Proof. induction 1 as [|r l1 Hr _ IH]; simpl; [done|]. rewrite (proj2 (Z.ltb_lt _ _) Hr). by f_equal. Qed.

Lemma Region_insert_inv item rs :
  regions_inv rs -> rg_wf item -> disjoint_from (rg_start item) (rg_size item) rs ->
  regions_inv (Region_insert item rs).
Proof.
  intros [Hwf Hs] Hi Hd. constructor; [rewrite Region_insert_perm; by constructor|].
  induction rs as [|r rs IH]; simpl; [by repeat constructor|].
  inversion_clear Hwf as [|? ? Hr Hwf']. inversion_clear Hs as [|? ? Hs' Hb].
  inversion_clear Hd as [|? ? Ho Hd']. unfold overlaps, rg_wf in *.
  destruct (rg_start r <? rg_start item) eqn:Hlt; zbool.
  - constructor; [by apply IH|]. rewrite Region_insert_perm. constructor; [|done].
    unfold rg_before, rg_end in *. lia.
  - rewrite Region_shift_cons. assert (rg_before item r) by (unfold rg_before, rg_end in *; lia).
    constructor; [by constructor|]. constructor; [done|].
    eapply Forall_impl; [exact Hb|]. intros x Hx. unfold rg_before, rg_end in *. lia.
Qed.

Lemma regions_inv_delete rs i : regions_inv rs -> regions_inv (delete i rs).
Proof.
  intros [Hwf Hs]. rewrite delete_take_drop. pose proof (take_drop i rs) as Hsplit.
  constructor; [apply Forall_app; split; [by apply Forall_take|by apply Forall_drop]|].
  clear Hwf Hsplit. revert i. induction Hs as [|r rs Hs IH Hb]; intros [|i]; simpl; try constructor; auto.
  apply Forall_app. split; [by apply Forall_take|by apply Forall_drop].
Qed.

Section Table.
Context `{Host}.

(** There is room for one more region, or the allocator can make some. *)
Definition can_grow (nap : NaClApp) : Prop :=
  dynamic_regions_allocated nap <> Z.of_nat (length (dynamic_regions nap)) \/ forall n, malloc_ok n = true.

Definition table_ok (nap : NaClApp) : Prop :=
  regions_inv (dynamic_regions nap) /\
  Z.of_nat (length (dynamic_regions nap)) <= dynamic_regions_allocated nap.

(** The predecessor the search finds splits the table at the insertion point. *)
Lemma insertion_point rs start size p :
  regions_inv rs -> 0 < size ->
  match p with
  | None => beyond rs (start + size - 1) 0
  | Some i => at_most rs (start + size - 1) i /\ beyond rs (start + size - 1) (i + 1)
  end ->
  disjoint_from start size rs ->
  take (default 0%nat p) rs ++ Region_insert (mkRegion start size (-1)) (drop (default 0%nat p) rs)
  = Region_insert (mkRegion start size (-1)) rs.
Proof.
  intros Hinv Hsz Hp Hd. rewrite <- Region_insert_app; [by rewrite take_drop|].
  destruct p as [i|]; simpl; [|constructor]. destruct Hp as [(a & Ha & Hle) _].
  apply Forall_lookup. intros j r Hr. apply lookup_take_Some in Hr as [Hr Hj]. simpl.
  pose proof (StronglySorted_get _ _ j i r a (ri_sorted _ Hinv) Hj Hr Ha) as Hb.
  pose proof (Forall_lookup_1 _ _ _ _ (ri_wf _ Hinv) Hr) as (? & ? & ?).
  pose proof (Forall_lookup_1 _ _ _ _ (ri_wf _ Hinv) Ha) as (? & ? & ?).
  pose proof (Forall_lookup_1 _ _ _ _ Hd Ha) as Ho. unfold overlaps, rg_before, rg_end in *. lia.
Qed.

(** Creation registers the region exactly when it overlaps no other. *)
Lemma Create_spec nap start size :
  table_ok nap -> can_grow nap -> 0 <= start -> 0 < size -> start + size < two64 ->
  exists nap' created, NaClDynamicRegionCreate nap start size = mret (nap', created) /\ table_ok nap' /\
    (created = true <-> disjoint_from start size (dynamic_regions nap)) /\
    dynamic_regions nap' ≡ₚ (if created then [mkRegion start size (-1)] else []) ++ dynamic_regions nap /\
    nap' <| dynamic_regions := dynamic_regions nap |>
         <| dynamic_regions_allocated := dynamic_regions_allocated nap |> = nap.
Proof.
  intros [Hinv Hlen] Hg Hs Hsz Hlim. unfold NaClDynamicRegionCreate.
  set (grow := if _ =? _ then _ else _).
  assert (Hgrow : exists n, grow = mret (nap <| dynamic_regions_allocated := n |>) /\
            Z.of_nat (length (dynamic_regions nap)) + 1 <= n).
  { subst grow. unfold kMinDynamicRegionsAllocated. destruct (_ =? _) eqn:He; zbool.
    - destruct Hg as [?|Hg]; [lia|]. rewrite Hg. eexists. split; [done|]. case_match; zbool; lia.
    - exists (dynamic_regions_allocated nap). split; [by destruct nap|lia]. }
  destruct Hgrow as (n & -> & Hn). rewrite M_bind_ret_l, u64_small by zlia.
  destruct (ClosestLEQ_spec _ Hinv (start + size - 1)) as (p & -> & Hc). rewrite M_bind_ret_l.
  pose proof (closest_overlap _ start size p Hinv Hsz Hc) as Ho.
  set (conflict := match p with Some _ => _ | None => _ end).
  assert (Hconf : exists b, conflict = mret b /\ (b = false <-> disjoint_from start size (dynamic_regions nap))).
  { subst conflict. assert (Hd : disjoint_from start size (dynamic_regions nap) <->
      ~ exists j r, dynamic_regions nap !! j = Some r /\ overlaps start size r).
    { unfold disjoint_from. rewrite Forall_lookup. naive_solver. }
    rewrite Ho in Hd. setoid_rewrite Hd. destruct p as [i|]; [|exists false; naive_solver].
    destruct Hc as [(a & Ha & _) _]. rewrite (load_ok _ _ _ Ha), M_bind_ret_l, (regions_end (dynamic_regions nap) i) by done.
    eexists. split; [done|]. rewrite Z.ltb_ge. split; [intros Hle (r & Hr & ?); simplify_eq; lia|].
    intros Hn'. apply Z.nlt_ge. intros ?. apply Hn'. by exists a. }
  destruct Hconf as (b & -> & Hb). rewrite M_bind_ret_l. destruct b; do 2 eexists; (split; [done|]).
  - split; [split; [done|cbn; lia]|]. split; [split; [done|intros ?%Hb; done]|]. split; [done|by destruct nap].
  - pose proof (proj1 Hb eq_refl) as Hd. rewrite (insertion_point _ start size p) by done.
    split; [|split; [done|split; [cbn; by rewrite Region_insert_perm|by destruct nap]]]. split; cbn.
    + apply Region_insert_inv; [done| |done]. unfold rg_wf, rg_end. simpl. lia.
    + rewrite Region_insert_perm. simpl. lia.
Qed.

Lemma Delete_spec nap i :
  table_ok nap -> (forall n, malloc_ok n = true) -> (i < length (dynamic_regions nap))%nat ->
  exists nap', NaClDynamicRegionDelete nap i = mret nap' /\ table_ok nap' /\
    dynamic_regions nap' = delete i (dynamic_regions nap).
Proof.
  intros [Hinv Hlen] Hg Hi. unfold NaClDynamicRegionDelete. rewrite Hg.
  pose proof (regions_inv_delete _ i Hinv). pose proof (length_delete (dynamic_regions nap) i).
  destruct (_ && _) eqn:Hsh; eexists; (split; [done|]); (split; [|done]); (split; [done|]); cbn.
  - zbool. unfold kMinDynamicRegionsAllocated in *. Z.to_euclidean_division_equations. lia.
  - apply lookup_lt_is_Some in Hi. rewrite length_delete by done. lia.
Qed.
End Table.

(** A failed realloc is fatal, so a creation that returns ran as under an
    allocator that never fails. *)
Lemma Create_plentiful `{h : Host} nap start size l r :
  NaClDynamicRegionCreate nap start size = (l, Ret r) ->
  NaClDynamicRegionCreate (H:=plentiful h) nap start size = (l, Ret r).
Proof.
  unfold NaClDynamicRegionCreate. cbv zeta. intros Hrun.
  apply M_bind_ret_inv in Hrun as (l1 & nap1 & l2 & Hg & Hrun & ->).
  destruct (dynamic_regions_allocated nap =? _).
  - destruct (malloc_ok _); [|done]. cbn [malloc_ok plentiful]. rewrite Hg. by apply M_bind_eq.
  - rewrite Hg. by apply M_bind_eq.
Qed.
