(* ===== verification/DynCode.v ===== *)
(** * Dynamic code: what an insertion does

    The copy of CopyCodeSafelyInitial (tails of the bundles, then their heads)
    and the guarantees of NaClTextDyncodeCreate. *)

From S2P Require Import Prelude Effects Rounding Bytes Gio MemObj Vmmap DynArray Policy App HostDesc GioShm.
From S2P Require Import Elf Memory AddrSpace Validate DynText.

(** Two ranges of [n] bytes do not meet. *)
Definition apart (a b n : Z) : Prop := a + n <= b \/ b + n <= a.

Lemma mem_read_length m n : forall a, length (mem_read m a n) = n.
Proof. induction n as [|n IH]; intros a; simpl; [done|]. by rewrite IH. Qed.

Lemma mem_read_nth m n : forall a i, (i < n)%nat -> nth i (mem_read m a n) 0 = m (a + Z.of_nat i).
Proof.
  induction n as [|n IH]; intros a i Hi; [lia|]. destruct i as [|i]; simpl.
  - by rewrite Z.add_0_r.
  - rewrite IH by lia. f_equal. lia.
Qed.

Lemma copy_word_spec m dest src x :
  copy_word m dest src x = if decide (dest <= x < dest + 4) then m (src + (x - dest)) else m x.
Proof.
  unfold copy_word, mem_write. rewrite mem_read_length. case_decide as Hx.
  - replace ((dest <=? x) && _) with true by (symmetry; apply andb_true_iff; rewrite Z.leb_le, Z.ltb_lt; lia).
    rewrite mem_read_nth by lia. f_equal. lia.
  - destruct (_ && _) eqn:Hb; [|done]. zbool. lia.
Qed.

(** The word of [dest, ...) that holds address [x]. *)
Definition word_of (dest x : Z) : Z := dest + 4 * ((x - dest) / 4).

Lemma word_of_step dest x : word_of (dest + 4) x = word_of dest x.
Proof.
  unfold word_of. replace (x - dest) with ((x - (dest + 4)) + 1 * 4) by lia.
  rewrite Z.div_add by lia. lia.
Qed.

Lemma word_of_first dest x : dest <= x < dest + 4 -> word_of dest x = dest.
Proof. intros. unfold word_of. rewrite Z.div_small; lia. Qed.

Lemma tails_loop_spec mask n : forall m dest src x,
  apart dest src (4 * Z.of_nat n) ->
  CopyBundleTails_loop n m dest src mask x =
    if decide (dest <= x < dest + 4 * Z.of_nat n /\ Z.land (word_of dest x) mask <> 0)
    then m (src + (x - dest)) else m x.
Proof.
  induction n as [|n IH]; intros m dest src x Hap; cbn [CopyBundleTails_loop].
  { rewrite decide_False by lia. done. }
  set (m1 := if negb _ then _ else _).
  assert (Hm1 : forall y, m1 y = if decide (dest <= y < dest + 4 /\ Z.land (word_of dest y) mask <> 0)
                                 then m (src + (y - dest)) else m y).
  { intros y. subst m1. destruct (decide (dest <= y < dest + 4)) as [Hy|Hy].
    - rewrite (word_of_first dest y Hy). destruct (Z.land dest mask =? 0) eqn:He; zbool; simpl.
      + rewrite decide_False by lia. done.
      + rewrite decide_True by lia. rewrite copy_word_spec, decide_True by lia. done.
    - rewrite decide_False by tauto. case_match; [rewrite copy_word_spec, decide_False by lia|]; done. }
  rewrite IH by (unfold apart in *; lia). rewrite word_of_step.
  replace (src + 4 + (x - (dest + 4))) with (src + (x - dest)) by lia. unfold apart in Hap.
  rewrite (Hm1 x). destruct (decide (dest <= x < dest + 4)) as [Hx|Hx].
  - rewrite (decide_False (P := _ /\ _)) by lia.
    destruct (decide (_ /\ _)) as [[_ Hw]|Hw]; [rewrite decide_True by (split; [lia|done])|rewrite decide_False];
      try done. intros [_ ?]. by apply Hw.
  - rewrite (decide_False (P := dest <= x < dest + 4 /\ _)) by tauto.
    destruct (decide (dest + 4 <= x < _ /\ _)) as [[Hr Hw]|Hw].
    + rewrite decide_True by (split; [lia|done]). rewrite Hm1. by rewrite decide_False by lia.
    + rewrite decide_False; [done|]. intros [? ?]. apply Hw. split; [lia|done].
Qed.

Lemma heads_loop_spec bs n : forall m dest src x,
  4 <= bs -> apart dest src (bs * Z.of_nat n) ->
  CopyBundleHeads_loop n m dest src bs x =
    if decide (dest <= x < dest + bs * Z.of_nat n /\ (x - dest) mod bs < 4)
    then m (src + (x - dest)) else m x.
Proof.
  induction n as [|n IH]; intros m dest src x Hbs Hap; cbn [CopyBundleHeads_loop].
  { rewrite decide_False by lia. done. }
  rewrite Nat2Z.inj_succ, Z.mul_succ_r in *. unfold apart in Hap. assert (0 <= bs * Z.of_nat n) by nia.
  rewrite IH by (unfold apart; lia).
  replace (src + bs + (x - (dest + bs))) with (src + (x - dest)) by lia. rewrite !copy_word_spec.
  assert (Hmod : (x - (dest + bs)) mod bs = (x - dest) mod bs).
  { replace (x - dest) with (x - (dest + bs) + 1 * bs) by lia. by rewrite Z_mod_plus_full. }
  rewrite Hmod. destruct (decide (dest <= x < dest + bs)) as [Hx|Hx].
  - rewrite (Z.mod_small (x - dest)) by lia. rewrite (decide_False (P := dest + bs <= x < _ /\ _)) by lia.
    destruct (decide (dest <= x < dest + 4)); [rewrite decide_True by lia|rewrite decide_False by lia]; done.
  - rewrite (decide_False (P := dest <= x < dest + 4)) by lia.
    destruct (decide (dest + bs <= x < _ /\ _)) as [[Hr Hw]|Hw].
    + rewrite (decide_False (P := dest <= _ < dest + 4)) by lia. by rewrite decide_True by (split; [lia|done]).
    + rewrite decide_False; [done|]. intros [? ?]. apply Hw. split; [lia|done].
Qed.

(** Bundles are [2^k] bytes, at least one word. *)
Section Copy.
Context (k : Z) (Hk : 2 <= k) (dest src : Z) (c : nat) (Hdest : dest mod 2 ^ k = 0)
  (Hap : apart dest src (2 ^ k * Z.of_nat c)).

Abbreviation bs := (2 ^ k).
Abbreviation size := (bs * Z.of_nat c).

Lemma bundle_words : bs = 4 * 2 ^ (k - 2) /\ 0 < 2 ^ (k - 2).
Proof using Hk.
  split; [|apply Z.pow_pos_nonneg; lia]. change 4 with (2 ^ 2). rewrite <- Z.pow_add_r by lia. f_equal. lia.
Qed.

(** An address is in the first word of its bundle exactly when its word is at
    a bundle boundary. *)
Lemma head_word x : dest <= x -> Z.land (word_of dest x) (bs - 1) = 0 <-> (x - dest) mod bs < 4.
Proof using Hk Hdest.
  intros Hx. destruct bundle_words as [Hb Hq]. rewrite Z.land_comm, land_ones_mod by lia.
  unfold word_of. rewrite Zplus_mod, Hdest, Z.add_0_l, Zmod_mod.
  set (o := x - dest). rewrite Hb. rewrite Z.mul_mod_distr_l by lia.
  pose proof (Z.div_mod o 4 ltac:(lia)) as Ho. pose proof (Z.mod_pos_bound o 4 ltac:(lia)) as Hr.
  replace (o mod (4 * 2 ^ (k - 2))) with (o mod 4 + 4 * ((o / 4) mod 2 ^ (k - 2)))
    by (rewrite Z.rem_mul_r by lia; lia).
  pose proof (Z.mod_pos_bound (o / 4) (2 ^ (k - 2)) Hq). lia.
Qed.

(** After the tails are copied, the first word of every bundle still holds what
    it held; the rest of the code is in place. *)
Lemma CopyBundleTails_spec m :
  exists m', CopyBundleTails m dest src size bs = mret m' /\
    (forall x, ~ dest <= x < dest + size -> m' x = m x) /\
    (forall x, dest <= x < dest + size -> (x - dest) mod bs < 4 -> m' x = m x) /\
    (forall x, dest <= x < dest + size -> 4 <= (x - dest) mod bs -> m' x = m (src + (x - dest))).
Proof using Hk Hdest Hap.
  destruct bundle_words as [Hb Hq]. unfold CopyBundleTails.
  assert (Hal : Z.land dest 3 = 0).
  { change 3 with (2 ^ 2 - 1). rewrite Z.land_comm, land_ones_mod by lia.
    apply Z.mod_divide in Hdest; [|lia]. apply Z.mod_divide; [done|].
    apply Z.divide_trans with bs; [|done]. exists (2 ^ (k - 2)). lia. }
  rewrite Hal. cbn [check Z.eqb]. rewrite M_bind_ret_l. eexists. split; [done|].
  assert (Hn : 4 * Z.of_nat (Z.to_nat ((size + 3) / 4)) = size).
  { replace (size + 3) with (3 + 2 ^ (k - 2) * Z.of_nat c * 4) by (rewrite Hb; lia).
    rewrite Z.div_add by lia. change (3 / 4) with 0. rewrite Z2Nat.id; nia. }
  split_and!; intros x Hx; [|intros Hh..]; rewrite tails_loop_spec by (by rewrite Hn); rewrite Hn.
  - rewrite decide_False by tauto. done.
  - rewrite decide_False; [done|]. intros [_ Hw]. apply Hw, head_word; [lia|done].
  - rewrite decide_True; [done|]. split; [done|]. intros Hw. apply head_word in Hw; lia.
Qed.

(** The whole copy puts the code in place and nothing else. *)
Lemma CopyCodeSafelyInitial_spec m :
  size < two31 ->
  exists m', CopyCodeSafelyInitial m dest src size bs = mret m' /\
    (forall x, ~ dest <= x < dest + size -> m' x = m x) /\
    (forall i, 0 <= i < size -> m' (dest + i) = m (src + i)).
Proof using Hk Hdest Hap.
  intros Hsmall. destruct (CopyBundleTails_spec m) as (m1 & Ht & Hout & Hhead & Htail). unfold CopyCodeSafelyInitial.
  assert (Hi : i32 size = size) by (apply i32_small; split; [nia|zlia]). rewrite Hi.
  rewrite Ht, M_bind_ret_l. destruct bundle_words as [Hb Hq]. unfold CopyBundleHeads.
  assert (Hal : (0 =? Z.land dest 3) = true).
  { revert Ht. unfold CopyBundleTails, check. by destruct (0 =? _). }
  rewrite Hal. cbn [check]. rewrite M_bind_ret_l. eexists. split; [done|].
  assert (Hn : Z.of_nat (Z.to_nat ((size + bs - 1) / bs)) = Z.of_nat c).
  { replace (size + bs - 1) with (bs - 1 + Z.of_nat c * bs) by lia.
    rewrite Z.div_add, Z.div_small by lia. lia. }
  split; [intros x Hx|intros i Hlt]; rewrite heads_loop_spec by (rewrite ?Hn; unfold apart in *; lia); rewrite Hn.
  - rewrite decide_False by tauto. by apply Hout.
  - replace (dest + i - dest) with i by lia. pose proof (Z.mod_pos_bound i bs ltac:(lia)) as Hr.
    destruct (decide (i mod bs < 4)).
    + rewrite decide_True by (split; [lia|done]). apply Hout. unfold apart in Hap. lia.
    + rewrite decide_False by tauto. rewrite Htail by (rewrite ?Z.add_simpl_l; lia).
      f_equal. lia.
Qed.
End Copy.

(** ** Insertion *)

Section Insert.
Context `{HH : Host} `{HS : Shm} `{HV : Validator} `{HL : !ValidatorLaws}.

(** The fields the mapping of the shared region may change. *)
Definition text_frame (nap nap' : NaClApp) : Prop :=
  exists b o s r, nap' = nap <| dynamic_page_bitmap := b |> <| dynamic_mapcache_offset := o |>
                             <| dynamic_mapcache_size := s |> <| dynamic_mapcache_ret := r |>.

#[global] Instance text_frame_preorder : PreOrder text_frame.
Proof.
  split.
  - intros nap. exists (dynamic_page_bitmap nap), (dynamic_mapcache_offset nap), (dynamic_mapcache_size nap),
      (dynamic_mapcache_ret nap). by destruct nap.
  - intros a b c (? & ? & ? & ? & ->) (b' & o & s & r & ->). exists b', o, s, r. done.
Qed.

(** Memory changed only inside [a, a + n). *)
Definition writes_only (m m' : memory) (a n : Z) : Prop := forall x, ~ a <= x < a + n -> m' x = m x.

Lemma PageVisible_frame nap m page_index wa l nap' m' :
  MakeDynamicCodePageVisible nap m page_index wa = (l, Ret (nap', m')) ->
  text_frame nap nap' /\ writes_only m m' wa NACL_MAP_PAGESIZE.
Proof.
  unfold MakeDynamicCodePageVisible. destruct (dynamic_page_bitmap nap) as [bm|] eqn:Hbm; [|done].
  intros Hr. apply M_bind_ret_inv in Hr as (l1 & set & l2 & _ & Hr & _). destruct set.
  - minv Hr. match goal with H : (_, _) = (_, _) |- _ => injection H as <- <- end. by split.
  - minv Hr. unfold NaClFillMemoryRegionWithHalt in Hr1. minv Hr1.
    destruct (negb _); [done|]. apply M_bind_ret_inv in Hr5 as (? & bm' & ? & _ & [_ Heq]%M_ret_inv & _).
    injection Heq as <- <-. split.
    { exists (Some bm'), (dynamic_mapcache_offset nap), (dynamic_mapcache_size nap), (dynamic_mapcache_ret nap).
      by destruct nap. }
    intros y Hy. apply mem_fill_out. lia.
Qed.

Lemma PagesVisible_frame n : forall nap m page_index wa l nap' m',
  MakePagesVisible n nap m page_index wa = (l, Ret (nap', m')) ->
  0 <= wa -> wa + Z.of_nat n * NACL_MAP_PAGESIZE < two64 ->
  text_frame nap nap' /\ writes_only m m' wa (Z.of_nat n * NACL_MAP_PAGESIZE).
Proof.
  induction n as [|n IH]; intros nap m pi wa l nap' m' Hr Hwa Hlim; cbn [MakePagesVisible] in Hr.
  { apply M_ret_inv in Hr as [_ Heq]. injection Heq as <- <-. by split. }
  apply M_bind_ret_inv in Hr as (l1 & [nap1 m1] & l2 & H1 & H2 & _).
  apply PageVisible_frame in H1 as [Hf1 Hw1]. change NACL_MAP_PAGESIZE with 65536 in *.
  rewrite u64_small in H2 by lia. apply IH in H2 as [Hf2 Hw2]; [|lia..].
  split; [by etransitivity|]. intros x Hx. rewrite Hw2, Hw1 by lia. done.
Qed.

(** What the code relies on from the shared memory object: a mapping it gives
    out starts at a page of the host and does not wrap.  [ImcShm_map_ok] below
    derives it for NaClDescImcShm. *)
Definition shm_map_ok : Prop :=
  forall d len prot off, is_u32 len ->
    let a := shm_Map d 0 len prot NACL_ABI_MAP_SHARED off in
    NaClPtrIsNegErrno a = false -> 0 < a /\ a mod NACL_PAGESIZE = 0 /\ a + len < two64.

(** The cached mapping, when there is one, is such a mapping. *)
Definition cache_ok (nap : NaClApp) : Prop :=
  0 < dynamic_mapcache_size nap ->
  let a := dynamic_mapcache_ret nap in
  0 < a /\ a mod NACL_PAGESIZE = 0 /\ a + dynamic_mapcache_size nap < two64.

Lemma CachedMap_frame nap m offset size l nap' m' a :
  shm_map_ok -> is_u32 offset -> is_u32 size ->
  offset mod NACL_MAP_PAGESIZE = 0 -> size mod NACL_MAP_PAGESIZE = 0 -> offset + size < two32 ->
  CachedMapWritableText nap m offset size = (l, Ret (nap', m', a)) ->
  text_frame nap nap' /\ writes_only m m' a size /\
  (cache_ok nap -> a <> 0 -> 0 < size -> a mod NACL_PAGESIZE = 0 /\ 0 < a /\ a + size < two64).
Proof.
  intros Hshm Ho Hs Hoa Hsa Hlim. unfold CachedMapWritableText.
  destruct (_ || _) eqn:Hhit; cycle 1.
  { intros Hr. apply M_ret_inv in Hr as [_ Heq]. injection Heq as <- <- <-. split_and!; [done|done|].
    intros Hc _ Hpos. zbool. destruct (Hc ltac:(lia)) as (? & ? & ?). split_and!; [done|done|lia]. }
  clear Hhit. intros Hr. apply M_bind_ret_inv in Hr as (l1 & nap1 & l2 & H1 & H2 & _).
  assert (Hf1 : text_frame nap nap1).
  { destruct (0 <? dynamic_mapcache_size nap); [|by apply M_ret_inv in H1 as [_ ->]].
    destruct (text_shm nap); [|done]. apply M_bind_ret_inv in H1 as (? & ? & ? & _ & H1 & _).
    destruct (negb _); [done|]. apply M_ret_inv in H1 as [_ <-].
    exists (dynamic_page_bitmap nap), 0, 0, 0. by destruct nap. }
  clear H1. destruct (0 <? size) eqn:Hpos; zbool; cycle 1.
  { apply M_ret_inv in H2 as [_ Heq]. injection Heq as <- <- <-. split_and!; [done|done|lia]. }
  destruct (text_shm nap1) as [shm|]; [|done]. apply M_bind_ret_inv in H2 as (? & ? & ? & _ & H2 & _).
  cbv zeta in H2. destruct (NaClPtrIsNegErrno _) eqn:Hneg.
  { apply M_ret_inv in H2 as [_ Heq]. injection Heq as <- <- <-. split_and!; [done|done|lia]. }
  pose proof (Hshm shm size _ offset Hs Hneg) as (Ha & Hal & Hend).
  apply M_bind_ret_inv in H2 as (? & [nap2 m2] & ? & H2 & Heq%M_ret_inv & _).
  destruct Heq as [_ Heq]. injection Heq as <- <- <-.
  assert (Hn : Z.of_nat (Z.to_nat (u32 (offset + size) / NACL_MAP_PAGESIZE - offset / NACL_MAP_PAGESIZE))
               * NACL_MAP_PAGESIZE = size).
  { rewrite u32_small by zlia. change NACL_MAP_PAGESIZE with 65536 in *. Z.to_euclidean_division_equations. zlia. }
  apply PagesVisible_frame in H2 as [Hf2 Hw]; [|lia|lia]. rewrite Hn in Hw.
  split; [|split; [exact Hw|intros _ _ _; split; [done|lia]]]. etransitivity; [exact Hf1|]. etransitivity; [exact Hf2|].
  eexists (dynamic_page_bitmap nap2), _, _, _. reflexivity.
Qed.

Lemma land_not32_page x : is_u32 x -> Z.land x (not32 (NACL_MAP_PAGESIZE - 1)) = x - x mod 65536.
Proof. intros Hx. exact (land_not_mask 32 x 16 ltac:(lia) Hx). Qed.

Lemma land_page x : Z.land x (NACL_MAP_PAGESIZE - 1) = x mod 65536.
Proof. rewrite Z.land_comm. exact (land_ones_mod x 16 ltac:(lia)). Qed.

Lemma TextMap_range_spec nap dest size :
  is_u32 (dynamic_text_start nap) -> dynamic_text_start nap <= dest -> 0 < size ->
  dest - dynamic_text_start nap + size + 65536 < two32 -> is_u32 dest ->
  let so := dest - dynamic_text_start nap in
  exists len, TextMap_range nap dest size = (so - so mod 65536, so mod 65536, len) /\
    len mod 65536 = 0 /\ so mod 65536 + size <= len /\ so - so mod 65536 + len < two32.
Proof.
  intros Hd Hle Hs Hlim Hdest so. unfold TextMap_range. rewrite (u32_small (dynamic_text_start nap)) by done.
  fold so. rewrite (u32_small so) by zlia. rewrite land_not32_page by zlia.
  rewrite land_page. change NACL_MAP_PAGESIZE with 65536 at 1.
  rewrite (u32_small (so + size + 65536 - 1)) by zlia.
  rewrite land_not32_page by zlia. eexists. split; [done|].
  rewrite u32_small; Z.to_euclidean_division_equations; zlia.
Qed.

(** The application can take dynamic code. *)
Record dyntext_ok (k : Z) (nap : NaClApp) : Prop := {
  dt_placed : placed nap;
  dt_table : table_ok nap;
  dt_bundle : bundle_size nap = 2 ^ k;
  dt_k : 2 <= k <= 12;
  dt_start : 65536 <= dynamic_text_start nap;
  dt_aligned : dynamic_text_start nap mod 65536 = 0;
  dt_end : dynamic_text_end nap <= two32;
  dt_room : NACL_HALT_SLED_SIZE <= dynamic_text_end nap;
  dt_cache : cache_ok nap;
}.

(** Code that was inserted lies on bundle boundaries strictly inside the dynamic
    text (the halt sled at its end excluded) and on no other region, and is now
    a region. *)
Record inserted (nap : NaClApp) (dest size : Z) (nap' : NaClApp) : Prop := {
  in_low : dynamic_text_start nap <= dest;
  in_high : dest + size <= dynamic_text_end nap - NACL_HALT_SLED_SIZE;
  in_bundle : dest mod bundle_size nap = 0 /\ size mod bundle_size nap = 0;
  in_new : disjoint_from (dest + mem_start nap) size (dynamic_regions nap);
  in_table : table_ok nap' /\
             dynamic_regions nap' ≡ₚ mkRegion (dest + mem_start nap) size (-1) :: dynamic_regions nap;
}.

(** [mv] is the memory after validation: it differs from [m] at most in the
    buffer, where it holds code that was accepted, unless validation is
    switched off. *)
Definition vetted (nap : NaClApp) (dest : Z) (m : memory) (code_copy size : Z) (mv : memory) : Prop :=
  writes_only m mv code_copy size /\
  (skip_validator nap = false -> ignore_validator_result nap = false ->
   accepted nap dest mv code_copy size).

Lemma ClearCache_frame nap m dest size l nap' m' :
  NaclTextMapClearCacheIfNeeded nap m dest size = (l, Ret (nap', m')) ->
  shm_map_ok -> text_frame nap nap' /\ m' = m.
Proof.
  unfold NaclTextMapClearCacheIfNeeded. destruct (TextMap_range nap dest size) as [[o w] len].
  intros Hr Hs. destruct (_ <? _); [|apply M_ret_inv in Hr as [_ Heq]; by injection Heq as <- <-].
  apply M_bind_ret_inv in Hr as (? & [[nap1 m1] a] & ? & H1 & Heq%M_ret_inv & _).
  destruct Heq as [_ Heq]. injection Heq as <- <-.
  assert (m1 = m) as ->.
  { revert H1. unfold CachedMapWritableText. change (0 <? 0) with false. cbn iota.
    destruct (_ || _); intros H1; [apply M_bind_ret_inv in H1 as (? & ? & ? & _ & H1 & _)|];
      apply M_ret_inv in H1 as [_ Heq]; by injection Heq as <- <- <-. }
  by apply CachedMap_frame in H1 as (? & _ & _); [split|..].
Qed.

(** An error result is not 0. *)
Ltac refuse := let Hr := fresh in intros Hr; apply M_ret_inv in Hr as [_ Hr]; discriminate Hr.

(** The checks of the arguments pass, and the code goes on to register the
    region. *)
Lemma DyncodeCreate_args k nap m dest code_copy size l nap' m' :
  dyntext_ok k nap -> is_u32 dest -> is_u32 size -> 0 < size ->
  NaClTextDyncodeCreate nap m dest code_copy size = (l, Ret (nap', m', 0)) ->
  (dynamic_text_start nap <= dest /\ dest + size <= dynamic_text_end nap - NACL_HALT_SLED_SIZE) /\
  (dest mod 2 ^ k = 0 /\ size mod 2 ^ k = 0) /\
  exists l1 l' nap1 mv, NaClDynamicRegionCreate nap (dest + mem_start nap) size = (l1, Ret (nap1, true)) /\
    vetted nap1 dest m code_copy size mv /\
    ('(nap, m, mapped) ← NaclTextMapWrapper nap1 mv dest size;
     match mapped with
     | None => mret (nap, m, - NACL_ABI_ENOMEM)
     | Some mapped_addr =>
         m ← CopyCodeSafelyInitial m mapped_addr code_copy size (bundle_size nap);
         '(nap, m) ← NaclTextMapClearCacheIfNeeded nap m dest size;
         mret (nap, m, 0)
     end) = (l', Ret (nap', m', 0)).
Proof using All.
  intros [Hpl Htab Hbs Hk Hds Hda Hde Hroom Hcache] Hd Hs Hpos. unfold NaClTextDyncodeCreate.
  destruct (text_shm nap); [|refuse]. rewrite Hbs. destruct (negb _ || negb _) eqn:Hal; [refuse|].
  rewrite !(Z.land_comm _ (2 ^ k - 1)), !land_ones_mod in Hal by lia. zbool.
  rewrite UserToSysAddrRange_spec by (done || zlia). case_decide as Hin; [|refuse].
  destruct (kNaClBadAddress =? _); [refuse|]. destruct (dest <? _) eqn:Hlow; [refuse|].
  destruct (_ <? u32 _) eqn:Hhigh; [refuse|]. change NACL_HALT_SLED_SIZE with 32 in *.
  rewrite (u32_small (dest + size)), u64_small in Hhigh by zlia. zbool.
  replace (0 =? size) with false by (symmetry; apply Z.eqb_neq; lia).
  intros Hr. apply M_bind_ret_inv in Hr as (l1 & [nap1 created] & l2 & Hc1 & Hc2 & _).
  destruct created; [cbn [negb] in Hc2|revert Hc2; refuse].
  split; [lia|]. split; [lia|]. exists l1, l2, nap1. revert Hc2.
  destruct (skip_validator nap1) eqn:Hskip; cbn [negb].
  { rewrite M_bind_ret_l. rewrite bool_decide_true by done. cbn. intros Hc2. exists m. split_and!; [done| |exact Hc2].
    split; [by intros x _|by rewrite Hskip]. }
  intros Hc2. apply M_bind_ret_inv in Hc2 as (? & [rc mv] & l3 & [-> Hval]%of_outcome_inv & Hc2 & ->). simpl app.
  revert Hc2.
  assert (Hvw : writes_only m mv code_copy size).
  { intros x Hx. eapply ValidateCode_writes; [|exact Hval|]; lia. }
  destruct (bool_decide (rc = LOAD_OK)) eqn:Hv; cbn [negb andb].
  { rewrite Hv. cbn [negb]. apply bool_decide_eq_true in Hv as ->. intros Hc2. exists mv.
    split_and!; [done| |exact Hc2]. split; [done|intros _ _; by eapply ValidateCode_accepted]. }
  destruct (ignore_validator_result nap1) eqn:Hig.
  - rewrite bool_decide_true by done. cbn. intros Hc2. exists mv. split_and!; [done| |exact Hc2].
    split; [done|by rewrite Hig].
  - rewrite Hv. cbn [negb]. refuse.
Qed.

(** The address the code is written to is a bundle boundary. *)
Lemma mapped_aligned k base dest start :
  2 <= k <= 12 -> base mod NACL_PAGESIZE = 0 -> start mod 65536 = 0 -> dest mod 2 ^ k = 0 ->
  (base + (dest - start) mod 65536) mod 2 ^ k = 0.
Proof.
  change NACL_PAGESIZE with (2 ^ 12). change 65536 with (2 ^ 16). intros Hk Hb Hs Hd.
  assert (Hp : 0 < 2 ^ k) by (apply Z.pow_pos_nonneg; lia).
  assert (Hdiv : forall n, k <= n -> (2 ^ k | 2 ^ n)).
  { intros n Hn. exists (2 ^ (n - k)). rewrite <- Z.pow_add_r by lia. by replace (n - k + k) with n by lia. }
  assert (Hz : forall x n, k <= n -> x mod 2 ^ n = 0 -> x mod 2 ^ k = 0).
  { intros x n Hn Hx. rewrite <- (Z.mod_mod_divide x (2 ^ n)) by (by apply Hdiv). rewrite Hx. apply Z.mod_0_l. lia. }
  rewrite Zplus_mod, (Hz base 12), Z.mod_mod_divide, Zminus_mod, Hd, (Hz start 16) by (done || lia || (apply Hdiv; lia)).
  by rewrite Z.sub_0_r, Z.add_0_l, !Z.mod_0_l by lia.
Qed.

Lemma copy_into_mapping k base off size len code_copy m m3 m4 l :
  2 <= k -> 0 <= off -> off + size <= len -> 0 < size < two31 -> size mod 2 ^ k = 0 ->
  base + len <= code_copy \/ code_copy + size <= base ->
  writes_only m m3 base len -> CopyCodeSafelyInitial m3 (base + off) code_copy size (2 ^ k) = (l, Ret m4) ->
  (base + off) mod 2 ^ k = 0 ->
  writes_only m m4 base len /\ forall i, 0 <= i < size -> m4 (base + off + i) = m (code_copy + i).
Proof.
  intros Hk Hoff Hfit Hpos Hsz Hap Hw Hcopy Hal.
  assert (Hp : 0 < 2 ^ k) by (apply Z.pow_pos_nonneg; lia).
  assert (Hc : 2 ^ k * Z.of_nat (Z.to_nat (size / 2 ^ k)) = size).
  { rewrite Z2Nat.id by (apply Z.div_pos; lia). pose proof (Z.div_mod size (2 ^ k)). lia. }
  destruct (CopyCodeSafelyInitial_spec k Hk (base + off) code_copy (Z.to_nat (size / 2 ^ k)) Hal) with (m := m3)
    as (m' & Hm' & Hout & Hin); [rewrite Hc; unfold apart; lia|rewrite Hc; lia|].
  rewrite Hc in *. rewrite Hcopy in Hm'. injection Hm' as _ <-. split.
  - intros x Hx. rewrite Hout by lia. by apply Hw.
  - intros i Hi. rewrite Hin by done. apply Hw. lia.
Qed.

(** The whole insertion: [base] is the writable mapping of the pages that hold
    the code, [len] bytes long, apart from the buffer the code comes from. *)
Lemma DyncodeCreate_spec k nap m dest code_copy size l nap' m' :
  shm_map_ok -> dyntext_ok k nap -> is_u32 dest -> 0 < size < two31 ->
  NaClTextDyncodeCreate nap m dest code_copy size = (l, Ret (nap', m', 0)) ->
  inserted nap dest size nap' /\
  exists mv base len,
    let off := (dest - dynamic_text_start nap) mod 65536 in
    vetted nap dest m code_copy size mv /\ off + size <= len /\
    (base + len <= code_copy \/ code_copy + size <= base ->
     writes_only mv m' base len /\ forall i, 0 <= i < size -> m' (base + off + i) = mv (code_copy + i)).
Proof using All.
  intros Hshm Hok Hd Hpos Hr. assert (Hs : is_u32 size) by zlia.
  destruct (DyncodeCreate_args _ _ _ _ _ _ _ _ _ Hok Hd Hs (proj1 Hpos) Hr)
    as ((Hlow & Hhigh) & (Hdb & Hsb) & l1 & l2 & nap1 & mv & Hc & Hv & Hrest). clear Hr.
  destruct Hok as [Hpl Htab Hbs Hk Hds Hda Hde Hroom Hcache]. change NACL_HALT_SLED_SIZE with 32 in *.
  pose proof (pl_start _ Hpl). pose proof (pl_end _ Hpl).
  apply Create_plentiful in Hc.
  destruct (Create_spec (H:=plentiful HH) nap (dest + mem_start nap) size) as (napc & b & Hc' & Htab1 & Hb & Hperm & Hsame);
    [done|by right|zlia|lia|zlia|]. rewrite Hc in Hc'. injection Hc' as _ <- <-.
  assert (Hds1 : dynamic_text_start nap1 = dynamic_text_start nap) by (by rewrite <- Hsame).
  assert (Hbs1 : bundle_size nap1 = bundle_size nap) by (by rewrite <- Hsame).
  assert (Hcache1 : cache_ok nap1) by (by rewrite <- Hsame in Hcache).
  assert (Hvet : vetted nap dest m code_copy size mv) by (by rewrite <- Hsame).
  apply M_bind_ret_inv in Hrest as (? & [[nap2 m2] mapped] & ? & Hw & Hrest & _).
  unfold NaclTextMapWrapper in Hw.
  destruct (TextMap_range_spec nap1 dest size) as (len & Hrange & Hlen & Hfit & Hend);
    [rewrite Hds1; zlia|lia|lia|rewrite Hds1; zlia|done|]. rewrite Hrange in Hw. rewrite Hds1 in *.
  remember (dest - dynamic_text_start nap) as so eqn:Hso. pose proof (Z.mod_pos_bound so 65536 ltac:(lia)).
  pose proof (Z.mod_le so 65536 ltac:(lia) ltac:(lia)).
  apply M_bind_ret_inv in Hw as (? & [[nap3 m3] base] & ? & Hmap & Hw & _).
  destruct (0 =? base) eqn:Hbase; apply M_ret_inv in Hw as [_ Heq]; injection Heq as <- <- <-.
  { revert Hrest. refuse. }
  apply M_bind_ret_inv in Hrest as (? & m4 & ? & Hcopy & Hrest & _).
  apply M_bind_ret_inv in Hrest as (? & [nap5 m5] & ? & Hclear & Heq%M_ret_inv & _).
  destruct Heq as [_ Heq]. injection Heq as -> ->.
  apply ClearCache_frame in Hclear as [Hf5 ->]; [|done]. zbool.
  apply CachedMap_frame in Hmap as (Hf3 & Hw3 & Ha3);
    [|done|zlia|zlia|change NACL_MAP_PAGESIZE with 65536; by rewrite Zminus_mod, Zmod_mod, Z.sub_diag|done|done].
  destruct Ha3 as (Hbal & Hb0 & Hbend); [done|done|lia|].
  destruct Hf3 as (? & ? & ? & ? & ->). destruct Hf5 as (? & ? & ? & ? & ->). split.
  - constructor; cbn; rewrite ?Hbs; change NACL_HALT_SLED_SIZE with 32; try lia; try done. by apply Hb.
  - exists mv, base, len. split; [done|]. split; [lia|]. intros Hap.
    eapply copy_into_mapping; [|lia|exact Hfit|exact Hpos|exact Hsb|..]; [lia|..].
    + exact Hap.
    + exact Hw3.
    + rewrite u64_small in Hcopy by zlia. cbn [bundle_size upd] in Hcopy. rewrite Hbs1, Hbs in Hcopy. exact Hcopy.
    + subst so. by apply mapped_aligned.
Qed.
End Insert.

(** ** The shared memory of the text

    The interface [Shm], implemented by the descriptors of GioShm.v.  A fatal
    stop inside a call, which ends the process, counts as a failed call. *)
Section TextShm.
Context `{HH : Host} `{HI : Imc}.

#[local] Instance ImcShm_Shm : Shm := {|
  shm_AllocCtor size := shm_h <$> NaClDescImcShmAllocCtor (i64 size) true;
  shm_Map h addr len prot flags off :=
    match result (NaClDescImcShmMap (mkImcShm 1 h 0) [] addr len prot flags off) with
    | Ret (a, _) => a
    | Fault _ => u64 (- NACL_ABI_ENOMEM)
    end;
  shm_UnmapUnsafe h addr len :=
    match result (NaClDescImcShmUnmapUnsafe [] addr len) with
    | Ret (r, _) => r
    | Fault _ => - NACL_ABI_EINVAL
    end;
|}.

(** What is documented of the host: mmap without a fixed address gives a page
    with room for the length before the end of the address space, and a page
    can be mapped over memory that mmap has given. *)
Definition mmap_ok : Prop :=
  (forall len l a, is_u32 len -> NaClFindAddressSpace len = (l, Ret (Some a)) ->
     0 < a /\ a mod NACL_PAGESIZE = 0 /\ a + len < two64) /\
  forall a n p f h off, imc_Map a n p f h off <> MAP_FAILED.

Lemma ImcShmMap_loop_true n v h a e p f fixed off l r :
  (forall a n p f h off, imc_Map a n p f h off <> MAP_FAILED) ->
  ImcShmMap_loop n v h a e p f fixed off = (l, Ret r) -> r.1 = true.
Proof.
  intros Hm. revert v a off l. induction n as [|n IH]; intros v a off l; cbn [ImcShmMap_loop];
    (destruct (a <? e); [|by intros [_ <-]%M_ret_inv]); [done|].
  destruct (negb _); [done|]. intros (? & ? & ? & _ & Hr & _)%M_bind_ret_inv. revert Hr.
  replace (MAP_FAILED =? _) with false by (symmetry; by apply Z.eqb_neq, not_eq_sym, Hm). cbv iota zeta.
  destruct (_ && _); [done|]. apply IH.
Qed.

Lemma ImcShm_map_ok : mmap_ok -> shm_map_ok.
Proof.
  intros [Hok Hm] d len prot off Hlen a Hneg. revert Hneg. subst a. cbn [shm_Map ImcShm_Shm]. unfold NaClDescImcShmMap.
  change (negb (NACL_ABI_MAP_SHARED =? Z.land NACL_ABI_MAP_SHARED NACL_ABI_MAP_SHARING_MASK)) with false. cbv iota.
  destruct (negb _); [by intros [=]|]. cbv zeta.
  change (negb (0 =? Z.land NACL_ABI_MAP_FIXED NACL_ABI_MAP_SHARED)) with false. cbv iota.
  destruct (NaClFindAddressSpace len) as [l1 [[a|]|f]] eqn:Hf; [|by intros [=]|by intros [=]].
  specialize (Hok len l1 a Hlen Hf). unfold mbind, M_bind. destruct (_ <? _); [by intros [=]|].
  destruct (ImcShmMap_loop _ _ _ _ _ _ _ _ _) as [l2 [r|f]] eqn:Hl; [|by intros [=]].
  apply ImcShmMap_loop_true in Hl; [|done]. destruct r as [ok v]. simpl in Hl. by subst ok.
Qed.

(** When the first page cannot be mapped, Map returns the negative of
    E_MOVE_ADDRESS_SPACE, which CachedMapWritableText does not take for an
    error: it is outside the last 64 KB of addresses. *)
Theorem text_map_failure_missed d len off l a :
  NaClFindAddressSpace len = (l, Ret (Some a)) -> 0 < len -> 0 < a -> a + len < two64 ->
  0 <= off -> off + len + NACL_MAP_PAGESIZE <= INT32_MAX -> (forall a n p f h off, imc_Map a n p f h off = MAP_FAILED) ->
  let r := shm_Map d 0 len (Z.lor NACL_ABI_PROT_READ NACL_ABI_PROT_WRITE) NACL_ABI_MAP_SHARED off in
  r = u64 (- NACL_ABI_E_MOVE_ADDRESS_SPACE) /\ NaClPtrIsNegErrno r = false.
Proof.
  intros Hf Hl Ha He Ho Hs Hm r. cut (r = u64 (- NACL_ABI_E_MOVE_ADDRESS_SPACE)); [by intros ->|]. subst r.
  cbn [shm_Map ImcShm_Shm]. unfold NaClDescImcShmMap.
  change (negb (NACL_ABI_MAP_SHARED =? Z.land NACL_ABI_MAP_SHARED NACL_ABI_MAP_SHARING_MASK)) with false. cbv iota.
  change (negb (0 =? Z.land (Z.lnot _) _)) with false. cbv iota zeta.
  change (negb (0 =? Z.land NACL_ABI_MAP_FIXED NACL_ABI_MAP_SHARED)) with false. cbv iota. rewrite Hf.
  unfold mbind at 1, M_bind at 1. rewrite rounded_small by shm_lia. cbv iota.
  rewrite (u64_small (a + len)) by shm_lia.
  destruct (Z.to_nat (len / NACL_MAP_PAGESIZE + 1)) as [|n] eqn:Hn.
  { change NACL_MAP_PAGESIZE with 65536 in Hn. pose proof (Z.div_pos len 65536). lia. }
  cbn [ImcShmMap_loop]. replace (a <? a + len) with true by lia. rewrite Hm. reflexivity.
Qed.
End TextShm.
