(* ===== verification/Trampoline.v ===== *)
(** * Trampolines and the dispatch thunk

    sel_ldr_x86_64.c, the page allocation of linux/sel_memory.c it uses, and
    NaClLoadTrampoline of sel_ldr.c.  The code templates are those of
    tramp_64.S, at link-time addresses given by the class [Symbols]. *)

From S2P Require Import Prelude Effects Rounding Bytes MemObj Vmmap DynArray Policy App HostDesc.
From S2P Require Import Elf Memory AddrSpace Validate DynText.

(** ** tramp_64.S

    [mov $0xdeadbeefcafebabe, %rax; call *%rax; hlt] and
    [mov $0xdeadbeefcafebabe, %rax; jmp *%rax]. *)
Definition mov_rax_template : list Z := [72; 184; 190; 186; 254; 202; 239; 190; 173; 222].
Definition trampoline_template : list Z := mov_rax_template ++ [255; 208; 244].
Definition thunk_template : list Z := mov_rax_template ++ [255; 224].

Class Symbols := {
  NaCl_trampoline_code : Z;
  NaClDispatchThunk : Z;
  NaClSyscallSeg : Z;
}.

Section Symbols.
Context `{Symbols}.
Definition NaCl_trampoline_call_target : Z := NaCl_trampoline_code + 10.
Definition NaCl_trampoline_code_end : Z := NaCl_trampoline_code + 13.
Definition NaClDispatchThunk_jmp_target : Z := NaClDispatchThunk + 10.
Definition NaClDispatchThunkEnd : Z := NaClDispatchThunk + 12.
End Symbols.

(** ** linux/sel_memory.c

    A pointer that is passed by reference is returned with the result. *)
Section Pages.
Context `{Host}.

Definition ENOMEM : Z := 12.

Definition NaCl_page_alloc_intern_flags (p size map_flags : Z) : M (Z * Z) :=
  let map_flags := Z.lor map_flags (Z.lor MAP_PRIVATE MAP_ANONYMOUS) in
  addr ← sys_mmap p size PROT_NONE map_flags None 0;
  let addr := if MAP_FAILED =? addr then 0 else addr in
  mret (if 0 =? addr then (p, - ENOMEM) else (addr, 0)).

Definition NaCl_page_alloc_intern (p size : Z) : M (Z * Z) :=
  let map_flags := if negb (0 =? p) then MAP_FIXED else 0 in
  NaCl_page_alloc_intern_flags p size (Z.lor map_flags MAP_NORESERVE).

Definition kNumTries : nat := 4.

(** The random hint: bits 46 to 16. *)
Definition random_hint (addr : Z) : Z :=
  Z.land (u64 (Z.shiftl addr NACL_MAP_PAGESHIFT)) (Z.shiftl 1 47 - 1).

(** [rng] are the numbers the global generator gives next; [tries] attempts
    are left.  The result is that of the last attempt. *)
Fixpoint page_alloc_tries (tries : nat) (rng : nat -> Z) (p size neg_errno : Z) : M (Z * Z) :=
  match tries with
  | O => mret (p, neg_errno)
  | S tries' =>
      '(p, neg_errno) ← NaCl_page_alloc_intern_flags (random_hint (rng 0%nat)) size 0;
      if 0 =? neg_errno then mret (p, neg_errno)
      else page_alloc_tries tries' (fun n => rng (S n)) p size neg_errno
  end.

Definition NaCl_page_alloc_randomized (rng : nat -> Z) (p size : Z) : M (Z * Z) :=
  '(p, neg_errno) ← page_alloc_tries kNumTries rng p size (- ENOMEM);
  if negb (0 =? neg_errno) then NaCl_page_alloc_intern_flags 0 size 0 else mret (p, neg_errno).

Definition NaCl_page_alloc (p size : Z) : M (Z * Z) :=
  '(addr, rv) ← NaCl_page_alloc_intern 0 size;
  mret (if 0 =? rv then addr else p, rv).

(** ** sel_ldr_x86_64.c *)

Context `{Symbols}.

Definition NaClPatchInfoCtor : NaClPatchInfo := mkPatchInfo 0 0 0 [] [] [] [].

Definition thunk_patch (thunk_addr : Z) : NaClPatchInfo :=
  mkPatchInfo thunk_addr NaClDispatchThunk (NaClDispatchThunkEnd - NaClDispatchThunk) [] []
    [mkPatch (NaClDispatchThunk_jmp_target - 8) NaClSyscallSeg] [].

(** The three steps after the page is allocated; [false] sends control to
    [cleanup]. *)
Definition DispatchThunk_fill (thunk_addr : Z) (m : memory) : M (memory * bool) :=
  error ← NaCl_mprotect thunk_addr NACL_MAP_PAGESIZE (Z.lor PROT_READ PROT_WRITE);
  if negb (0 =? error) then mret (m, false)
  else
    m ← NaClFillMemoryRegionWithHalt m thunk_addr NACL_MAP_PAGESIZE;
    m ← NaClApplyPatchToMemory (thunk_patch thunk_addr) m;
    error ← NaCl_mprotect thunk_addr NACL_MAP_PAGESIZE (Z.lor PROT_EXEC PROT_READ);
    mret (m, 0 =? error).

Definition NaClMakeDispatchThunk (rng : nat -> Z) (nap : NaClApp) (m : memory) : M (NaClApp * memory * bool) :=
  if negb (0 =? dispatch_thunk nap) then mret (nap, m, true)
  else
    '(thunk_addr, error) ← NaCl_page_alloc_randomized rng 0 NACL_MAP_PAGESIZE;
    '(m, retval) ← (if negb (0 =? error) then mret (m, false) else DispatchThunk_fill thunk_addr m);
    if (retval : bool) then mret (nap <| dispatch_thunk := thunk_addr |>, m, true)
    else
      _ ← (if negb (0 =? thunk_addr) then NaCl_page_free thunk_addr NACL_MAP_PAGESIZE else mret tt);
      mret (nap, m, false).

Definition trampoline_patch (call_target_addr target_addr : Z) : NaClPatchInfo :=
  mkPatchInfo target_addr NaCl_trampoline_code (NaCl_trampoline_code_end - NaCl_trampoline_code) [] []
    [mkPatch (NaCl_trampoline_call_target - 8) call_target_addr] [].

Definition NaClPatchOneTrampoline (nap : NaClApp) (m : memory) (target_addr : Z) : M memory :=
  let call_target_addr := dispatch_thunk nap in
  _ ← check (negb (0 =? call_target_addr)) "0 != call_target_addr";
  NaClApplyPatchToMemory (trampoline_patch call_target_addr target_addr) m.

Definition NaClFillTrampolineRegion (nap : NaClApp) (m : memory) : M memory :=
  NaClFillMemoryRegionWithHalt m (u64 (mem_start nap + NACL_TRAMPOLINE_START)) NACL_TRAMPOLINE_SIZE.

(** ** sel_ldr.c *)

(** [n] trampolines are left to install from [addr] on. *)
Fixpoint LoadTrampoline_loop (n : nat) (nap : NaClApp) (m : memory) (addr : Z) : M memory :=
  match n with
  | O => mret m
  | S n' =>
      m ← NaClPatchOneTrampoline nap m addr;
      LoadTrampoline_loop n' nap m (u64 (addr + NACL_SYSCALL_BLOCK_SIZE))
  end.

Definition num_syscalls : Z := (NACL_TRAMPOLINE_END - NACL_SYSCALL_START_ADDR) / NACL_SYSCALL_BLOCK_SIZE - 1.

Definition NaClLoadTrampoline (rng : nat -> Z) (nap : NaClApp) (m : memory) : M (NaClApp * memory) :=
  '(nap, m, ok) ← NaClMakeDispatchThunk rng nap m;
  if negb ok then fail (LogFatal "NaClMakeDispatchThunk failed!")
  else
    m ← NaClFillTrampolineRegion nap m;
    m ← LoadTrampoline_loop (Z.to_nat num_syscalls) nap m (u64 (mem_start nap + NACL_SYSCALL_START_ADDR));
    mret (nap, m).
End Pages.

(** ** What is installed *)

(** [mov $v, %rax] followed by [tail] at [a]. *)
Definition jump_via_rax (m : memory) (a v : Z) (tail : list Z) : Prop :=
  mem_read m a 2 = [72; 184] /\ rd64 m (a + 2) = v /\ mem_read m (a + 10) (length tail) = tail.

Definition trampoline_at (m : memory) (a thunk : Z) : Prop := jump_via_rax m a thunk [255; 208; 244].
Definition thunk_at (m : memory) (a target : Z) : Prop := jump_via_rax m a target [255; 224].

Lemma mem_read_copy m n : forall dst src k, (Z.of_nat n <= k) ->
  mem_read (mem_copy m dst src k) dst n = mem_read m src n.
Proof.
  intros dst src k Hk. assert (Hgen : forall i, (i <= n)%nat ->
    mem_read (mem_copy m dst src k) (dst + Z.of_nat (n - i)) i = mem_read m (src + Z.of_nat (n - i)) i).
  { induction i as [|i IH]; intros Hi; simpl; [done|]. f_equal.
    - unfold mem_copy. replace ((_ <=? _) && _) with true.
      + f_equal. lia.
      + symmetry. apply andb_true_iff. rewrite Z.leb_le, Z.ltb_lt. lia.
    - specialize (IH ltac:(lia)). replace (dst + Z.of_nat (n - S i) + 1) with (dst + Z.of_nat (n - i)) by lia.
      by replace (src + Z.of_nat (n - S i) + 1) with (src + Z.of_nat (n - i)) by lia. }
  specialize (Hgen n ltac:(lia)). replace (n - n)%nat with 0%nat in Hgen by lia.
  by rewrite !Z.add_0_r in Hgen.
Qed.

Lemma mem_read_app m n1 n2 : forall a,
  mem_read m a (n1 + n2) = mem_read m a n1 ++ mem_read m (a + Z.of_nat n1) n2.
Proof.
  induction n1 as [|n1 IH]; intros a; simpl; [by rewrite Z.add_0_r|]. rewrite IH.
  by replace (a + 1 + Z.of_nat n1) with (a + Z.of_nat (S n1)) by lia.
Qed.

Lemma mem_copy_out m dst src k x : ~ dst <= x < dst + k -> mem_copy m dst src k x = m x.
Proof. intros Hx. unfold mem_copy. destruct (_ && _) eqn:Hb; [zbool; lia|done]. Qed.

(** A template with one patched 64-bit immediate. *)
Lemma ApplyPatch_one m dst src v tail :
  let len := 10 + Z.of_nat (length tail) in
  mem_read m src (10 + length tail) = mov_rax_template ++ tail ->
  0 <= src -> src + len < two64 -> 0 <= dst -> dst + len < two64 -> is_u64 v ->
  exists m', NaClApplyPatchToMemory (mkPatchInfo dst src len [] [] [mkPatch (src + 10 - 8) v] []) m = mret m' /\
    (forall x, ~ dst <= x < dst + len -> m' x = m x) /\ jump_via_rax m' dst v tail.
Proof.
  intros len Ht Hs0 Hs1 Hd0 Hd1 Hv. unfold NaClApplyPatchToMemory. cbn [patch_dst patch_src patch_nbytes patch_abs64
    patch_abs32 patch_abs16 patch_rel64 Patch_abs Patch_rel64 patch_target patch_value].
  rewrite (u64_small (src + 10 - 8 - src)), (u64_small (dst + _)) by zlia.
  set (m1 := mem_copy m dst src len).
  destruct (StoreMem_spec m1 (dst + (src + 10 - 8 - src)) 8 (id v)) as (m2 & -> & Hrd & Hout); [lia|].
  rewrite !M_bind_ret_l. exists m2. replace (dst + (src + 10 - 8 - src)) with (dst + 2) in * by lia.
  assert (Hm1 : mem_read m1 dst (10 + length tail) = mov_rax_template ++ tail).
  { unfold m1. rewrite mem_read_copy by (unfold len; lia). done. }
  split; [done|]. split.
  { intros x Hx. rewrite Hout by lia. by apply mem_copy_out. }
  change (10 + length tail)%nat with (2 + (8 + length tail))%nat in Hm1. rewrite mem_read_app in Hm1.
  rewrite (mem_read_app m1 8) in Hm1. replace (dst + Z.of_nat 2 + Z.of_nat 8) with (dst + 10) in Hm1 by lia.
  unfold mov_rax_template in Hm1. simpl app in Hm1.
  split; [|split].
  - rewrite (mem_read_ext m2 m1 2) by (intros x ?; apply Hout; lia). exact (f_equal (take 2) Hm1).
  - unfold rd64. rewrite Hrd. unfold id. apply Z.mod_small. exact Hv.
  - rewrite (mem_read_ext m2 m1) by (intros x ?; apply Hout; lia).
    exact (f_equal (drop 10) Hm1).
Qed.

Lemma jump_via_rax_ext m1 m2 a v tail :
  (forall x, a <= x < a + 10 + Z.of_nat (length tail) -> m1 x = m2 x) ->
  jump_via_rax m1 a v tail -> jump_via_rax m2 a v tail.
Proof.
  intros Hx (H1 & H2 & H3). split; [|split].
  - rewrite <- H1. symmetry. apply mem_read_ext. intros x ?. apply Hx. lia.
  - rewrite <- H2. unfold rd64. symmetry. apply rd_bytes_ext. intros x ?. apply Hx. lia.
  - rewrite <- H3 at 2. symmetry. apply mem_read_ext. intros x ?. apply Hx. lia.
Qed.

Section Install.
Context `{HH : Host} `{HSy : Symbols}.

(** The templates are where the linker put them, outside the sandbox. *)
Record linked (nap : NaClApp) (m : memory) : Prop := {
  ln_tramp : mem_read m NaCl_trampoline_code 13 = trampoline_template;
  ln_thunk : mem_read m NaClDispatchThunk 12 = thunk_template;
  ln_range : 0 <= NaCl_trampoline_code /\ NaCl_trampoline_code + 13 < two64 /\
             0 <= NaClDispatchThunk /\ NaClDispatchThunk + 12 < two64 /\ is_u64 NaClSyscallSeg;
  ln_outside : (NaCl_trampoline_code + 13 <= mem_start nap \/ mem_start nap + two32 <= NaCl_trampoline_code) /\
               (NaClDispatchThunk + 12 <= mem_start nap \/ mem_start nap + two32 <= NaClDispatchThunk);
}.

(** A page the kernel gave out is away from the sandbox and the templates. *)
Record fresh_page (nap : NaClApp) (a : Z) : Prop := {
  fp_range : 0 < a /\ a + 65536 < two64;
  fp_sandbox : a + 65536 <= mem_start nap \/ mem_start nap + two32 <= a;
  fp_tramp : a + 65536 <= NaCl_trampoline_code \/ NaCl_trampoline_code + 13 <= a;
  fp_thunk : a + 65536 <= NaClDispatchThunk \/ NaClDispatchThunk + 12 <= a;
}.

Lemma linked_ext nap m m' :
  (forall x, NaCl_trampoline_code <= x < NaCl_trampoline_code + 13 -> m' x = m x) ->
  (forall x, NaClDispatchThunk <= x < NaClDispatchThunk + 12 -> m' x = m x) -> linked nap m -> linked nap m'.
Proof using.
  intros H1 H2 [Ht Hd Hr Ho]. split; [|..|done|done].
  - rewrite <- Ht. apply mem_read_ext. intros x ?. apply H1. lia.
  - rewrite <- Hd. apply mem_read_ext. intros x ?. apply H2. lia.
Qed.

Lemma PatchOneTrampoline_spec nap m a :
  linked nap m -> is_u64 (dispatch_thunk nap) -> dispatch_thunk nap <> 0 -> 0 <= a -> a + 13 < two64 ->
  exists m', NaClPatchOneTrampoline nap m a = mret m' /\
    (forall x, ~ a <= x < a + 13 -> m' x = m x) /\ trampoline_at m' a (dispatch_thunk nap).
Proof using.
  intros [Ht _ (Hr0 & Hr1 & _) _] Hd Hd0 Ha0 Ha1. unfold NaClPatchOneTrampoline.
  replace (negb (0 =? dispatch_thunk nap)) with true by (symmetry; apply negb_true_iff, Z.eqb_neq; lia).
  cbn [check]. rewrite M_bind_ret_l.
  destruct (ApplyPatch_one m a NaCl_trampoline_code (dispatch_thunk nap) [255; 208; 244]) as (m' & Heq & Hout & Hj);
    try done.
  exists m'. split_and!; [|done|done]. rewrite <- Heq. unfold trampoline_patch, NaCl_trampoline_code_end,
    NaCl_trampoline_call_target. by replace (NaCl_trampoline_code + 13 - NaCl_trampoline_code) with 13 by lia.
Qed.

(** [n] trampolines in 32-byte blocks from [a] on, inside the sandbox. *)
Lemma LoadTrampoline_loop_spec n : forall nap m a,
  linked nap m -> is_u64 (dispatch_thunk nap) -> dispatch_thunk nap <> 0 ->
  0 < mem_start nap -> mem_start nap + two32 < two64 ->
  mem_start nap <= a -> a + 32 * Z.of_nat n <= mem_start nap + two32 - 32 ->
  exists m', LoadTrampoline_loop n nap m a = mret m' /\
    (forall k, 0 <= k < Z.of_nat n -> trampoline_at m' (a + 32 * k) (dispatch_thunk nap)) /\
    (forall x, (forall k, 0 <= k < Z.of_nat n -> ~ a + 32 * k <= x < a + 32 * k + 13) -> m' x = m x).
Proof using.
  induction n as [|n IH]; intros nap m a Hl Hd Hd0 Hms Hme Ha Hlim; cbn [LoadTrampoline_loop].
  { exists m. split_and!; [done|lia|done]. }
  destruct (PatchOneTrampoline_spec nap m a) as (m1 & -> & Hout1 & Ht1); [done|done|done|zlia|zlia|].
  rewrite M_bind_ret_l. change NACL_SYSCALL_BLOCK_SIZE with 32. rewrite u64_small by zlia.
  destruct (IH nap m1 (a + 32)) as (m2 & -> & Htr & Hout2); [|done|done|lia|zlia|zlia|zlia|].
  { pose proof (ln_outside _ _ Hl). apply (linked_ext nap m); [..|exact Hl]; intros x ?; apply Hout1; zlia. }
  exists m2. split_and!; [done|..].
  - intros k Hk. destruct (decide (k = 0)) as [->|Hk0].
    + rewrite Z.mul_0_r, Z.add_0_r. eapply jump_via_rax_ext; [|exact Ht1]. simpl.
      intros x Hx. symmetry. apply Hout2. intros j Hj. lia.
    + replace (a + 32 * k) with (a + 32 + 32 * (k - 1)) by lia. apply Htr. lia.
  - intros x Hx. rewrite Hout2.
    + apply Hout1. specialize (Hx 0 ltac:(lia)). lia.
    + intros k Hk. specialize (Hx (k + 1) ltac:(lia)). lia.
Qed.

(** The thunk page: HLT except for the jump to NaClSyscallSeg. *)
Lemma DispatchThunk_fill_spec nap m a l m' :
  linked nap m -> fresh_page nap a -> DispatchThunk_fill a m = (l, Ret (m', true)) ->
  thunk_at m' a NaClSyscallSeg /\ (forall x, ~ a <= x < a + 65536 -> m' x = m x) /\
  (forall x, a + 12 <= x < a + 65536 -> m' x = NACL_HALT_OPCODE).
Proof using.
  intros [_ Hth (_ & _ & Hr2 & Hr3 & Hseg) _] [[Ha0 Ha1] _ _ Hft]. unfold DispatchThunk_fill.
  intros Hr. apply M_bind_ret_inv in Hr as (? & e & ? & _ & Hr & _). destruct (negb (0 =? e)); [done|].
  unfold NaClFillMemoryRegionWithHalt in Hr. change (NACL_MAP_PAGESIZE mod NACL_HALT_LEN =? 0) with true in Hr.
  cbn [check] in Hr. rewrite !M_bind_ret_l in Hr. change NACL_MAP_PAGESIZE with 65536 in Hr.
  set (mh := mem_fill m a 65536 NACL_HALT_OPCODE) in Hr.
  destruct (ApplyPatch_one mh a NaClDispatchThunk NaClSyscallSeg [255; 224]) as (m1 & Heq & Hout & Hj);
    try done; try (simpl; lia).
  { change (mov_rax_template ++ [255; 224]) with thunk_template. rewrite <- Hth.
    apply mem_read_ext. intros y ?. apply mem_fill_out. simpl in *. lia. }
  replace (thunk_patch a) with (mkPatchInfo a NaClDispatchThunk (10 + Z.of_nat (length [255; 224])) [] []
    [mkPatch (NaClDispatchThunk + 10 - 8) NaClSyscallSeg] []) in Hr.
  2: { unfold thunk_patch, NaClDispatchThunkEnd, NaClDispatchThunk_jmp_target. simpl. f_equal. lia. }
  rewrite Heq, M_bind_ret_l in Hr. apply M_bind_ret_inv in Hr as (? & e2 & ? & _ & [_ Heq2]%M_ret_inv & _).
  injection Heq2 as <- _. simpl in Hout. split_and!; [done|..].
  - intros y Hy. rewrite Hout by lia. by apply mem_fill_out; lia.
  - intros y Hy. rewrite Hout by lia. by apply mem_fill_in; lia.
Qed.

(** Every block of the trampoline region but the last calls the dispatch thunk,
    the thunk jumps to NaClSyscallSeg, the rest of the region and of the thunk
    page is HLT, and nothing else changed. *)
Record trampolines_ok (nap : NaClApp) (m m' : memory) (thunk : Z) : Prop := {
  tr_calls : forall k, 0 <= k < num_syscalls ->
    trampoline_at m' (mem_start nap + NACL_SYSCALL_START_ADDR + k * NACL_SYSCALL_BLOCK_SIZE) thunk;
  tr_thunk : thunk_at m' thunk NaClSyscallSeg;
  tr_halts : forall x, 0 <= x < NACL_TRAMPOLINE_SIZE ->
    num_syscalls * NACL_SYSCALL_BLOCK_SIZE <= x \/ 13 <= x mod NACL_SYSCALL_BLOCK_SIZE ->
    m' (mem_start nap + NACL_TRAMPOLINE_START + x) = NACL_HALT_OPCODE;
  tr_frame : forall x,
    ~ mem_start nap + NACL_TRAMPOLINE_START <= x < mem_start nap + NACL_TRAMPOLINE_END ->
    ~ thunk <= x < thunk + NACL_MAP_PAGESIZE -> m' x = m x;
}.

Lemma MakeDispatchThunk_spec rng nap m l nap' m' :
  linked nap m -> dispatch_thunk nap = 0 -> NaClMakeDispatchThunk rng nap m = (l, Ret (nap', m', true)) ->
  fresh_page nap (dispatch_thunk nap') ->
  nap' = nap <| dispatch_thunk := dispatch_thunk nap' |> /\ thunk_at m' (dispatch_thunk nap') NaClSyscallSeg /\
  (forall x, ~ dispatch_thunk nap' <= x < dispatch_thunk nap' + 65536 -> m' x = m x).
Proof using.
  intros Hl Hd0. unfold NaClMakeDispatchThunk. rewrite Hd0. change (negb (0 =? 0)) with false. cbv iota.
  intros Hr. apply M_bind_ret_inv in Hr as (? & [a e] & ? & _ & Hr & _).
  apply M_bind_ret_inv in Hr as (? & [m1 ok] & ? & Hfill & Hr & _). destruct ok.
  - apply M_ret_inv in Hr as [_ Heq]. injection Heq as <- <-. cbn [dispatch_thunk upd]. intros Hf.
    destruct (negb (0 =? e)); [apply M_ret_inv in Hfill as [_ Hfill]; discriminate Hfill|].
    destruct (DispatchThunk_fill_spec _ _ _ _ _ Hl Hf Hfill) as (Hth & Hout & _). by split_and!.
  - apply M_bind_ret_inv in Hr as (? & ? & ? & _ & [_ Heq]%M_ret_inv & _). discriminate Heq.
Qed.

Lemma LoadTrampoline_spec rng nap m l nap' m' :
  linked nap m -> dispatch_thunk nap = 0 -> 0 < mem_start nap -> mem_start nap + two32 < two64 ->
  NaClLoadTrampoline rng nap m = (l, Ret (nap', m')) -> fresh_page nap (dispatch_thunk nap') ->
  nap' = nap <| dispatch_thunk := dispatch_thunk nap' |> /\ trampolines_ok nap m m' (dispatch_thunk nap').
Proof using.
  intros Hl Hd0 Hms Hme Hr Hfresh. unfold NaClLoadTrampoline in Hr.
  apply M_bind_ret_inv in Hr as (? & [[nap1 m1] ok] & ? & Hmk & Hr & _). destruct ok; [|done]. cbn [negb] in Hr.
  unfold NaClFillTrampolineRegion, NaClFillMemoryRegionWithHalt in Hr.
  change (NACL_TRAMPOLINE_SIZE mod NACL_HALT_LEN =? 0) with true in Hr. cbn [check] in Hr.
  rewrite !M_bind_ret_l in Hr. apply M_bind_ret_inv in Hr as (? & m3 & ? & Hloop & [_ Heq]%M_ret_inv & _).
  injection Heq as -> ->.
  destruct (MakeDispatchThunk_spec _ _ _ _ _ _ Hl Hd0 Hmk Hfresh) as (Hnap & Hth & Hout1). clear Hmk.
  assert (Hms' : mem_start nap' = mem_start nap) by (by rewrite Hnap). rewrite Hms' in Hloop.
  change NACL_TRAMPOLINE_START with 65536 in *. change NACL_TRAMPOLINE_SIZE with 65536 in *.
  change NACL_SYSCALL_START_ADDR with 65536 in *. rewrite (u64_small (mem_start nap + 65536)) in Hloop by zlia.
  set (T := mem_start nap + 65536) in *. set (m2 := mem_fill m1 T 65536 NACL_HALT_OPCODE) in *.
  destruct Hfresh as [[Hf0 Hf1] Hfs Hft Hfd].
  assert (Hl2 : linked nap' m2).
  { destruct Hl as [L1 L2 L3 L4]. assert (Hl' : linked nap' m) by (split; try done; by rewrite Hms').
    apply (linked_ext nap' m); [..|exact Hl']; intros y ?; unfold m2, T;
      rewrite mem_fill_out by zlia; apply Hout1; zlia. }
  destruct (LoadTrampoline_loop_spec (Z.to_nat num_syscalls) nap' m2 T) as (m4 & Heq & Htr & Hout);
    rewrite ?Hms'; try done; try zlia.
  { unfold T. change (Z.of_nat (Z.to_nat num_syscalls)) with 2047. zlia. }
  rewrite Heq in Hloop. injection Hloop as _ <-. split; [done|].
  change (Z.of_nat (Z.to_nat num_syscalls)) with 2047 in *. split.
  - intros k Hk. change num_syscalls with 2047 in Hk. change NACL_SYSCALL_BLOCK_SIZE with 32.
    change NACL_SYSCALL_START_ADDR with 65536.
    replace (mem_start nap + 65536 + k * 32) with (T + 32 * k) by (unfold T; lia). by apply Htr.
  - eapply jump_via_rax_ext; [|exact Hth]. simpl. intros y Hy. symmetry.
    rewrite Hout by (intros; unfold T; zlia). apply mem_fill_out. unfold T. zlia.
  - intros y Hy Hrest. change NACL_TRAMPOLINE_SIZE with 65536 in Hy.
    change NACL_SYSCALL_BLOCK_SIZE with 32 in *. change num_syscalls with 2047 in Hrest.
    change NACL_TRAMPOLINE_START with 65536.
    rewrite Hout; [apply mem_fill_in; unfold T; lia|]. intros k Hk. unfold T.
    intros Hin. assert (y / 32 = k) by (Z.to_euclidean_division_equations; lia).
    pose proof (Z.div_mod y 32 ltac:(lia)). lia.
  - intros y Hx1 Hx2. change NACL_TRAMPOLINE_START with 65536 in Hx1. change NACL_TRAMPOLINE_END with 131072 in Hx1. change NACL_MAP_PAGESIZE with 65536 in Hx2.
    rewrite Hout by (intros k Hk; unfold T; lia). unfold m2. rewrite mem_fill_out by (unfold T; lia).
    by apply Hout1.
Qed.
End Install.
