(* ===== verification/CopyCode.v ===== *)
(** * Replacing code while it runs: nccopycode.c

    New instructions are copied over old ones so that other threads never
    execute a mixture.  The state has the process memory and, for reasoning,
    the memories that the stores produced, newest first: what another
    processor may see.  A [memcpy] stores byte by byte.  The calls of the
    kernel in SerializeAllProcessors are those of Trampoline and Memory, by
    their results. *)

From S2P Require Import Prelude Effects Stateful Bytes OpKinds DecodeTables OpcodeTable InstBuffer.
From S2P Require Import ExpVector InstState InstTrans InstDecode InstIter ValState CpuChecks.
From S2P Require Import Rounding HostDesc Validate DynText Memory Trampoline.

Record CopyState := mkCopy {
  c_mem : memory;
  c_seen : list memory;
  g_squashybuffer : option Z;
  g_firstbyte : Z;
}.

#[global] Instance updatable_copy : Updatable CopyState := fun r =>
  mkCopy (c_mem r) (c_seen r) (g_squashybuffer r) (g_firstbyte r).

Definition Copy (A : Type) : Type := St CopyState A.

(** One store. *)
Definition store_mem (m : memory) : Copy unit := modify (fun c => c <| c_mem := m |> <| c_seen := m :: c_seen c |>).

Definition poke (a b : Z) : Copy unit := c ← get; store_mem (mem_write (c_mem c) a [b]).

Fixpoint memcpy_bytes (n : nat) (dst src : Z) : Copy unit :=
  match n with
  | O => mret tt
  | S n' => c ← get; poke dst (c_mem c src) ;; memcpy_bytes n' (dst + 1) (src + 1)
  end.

Definition kTrustAligned : Z := 8.
Definition kTrustUnaligned : Z := 1.
Definition kInstructionFetchSize : Z := 8.

Definition IsAligned (dst size align : Z) : bool :=
  Z.land dst (Z.lnot (align - 1)) =? Z.land (dst + size - 1) (Z.lnot (align - 1)).

(** The offset to start the write at, if the write is trusted. *)
Definition IsTrustedWrite (dst size writesize : Z) : option Z :=
  if writesize <? size then None
  else if negb (IsAligned dst size kInstructionFetchSize) then None
  else if (writesize <=? kTrustAligned) && IsAligned dst size writesize then Some (Z.land dst (writesize - 1))
  else if writesize <=? kTrustUnaligned then Some 0
  else None.

Section CopyCode.
Context `{Host}.

Definition allocate_squashybuffer : Copy bool :=
  c ← get;
  match g_squashybuffer c with
  | Some _ => mret true
  | None =>
      '(buffer, rc) ← lift (result (NaCl_page_alloc 0 NACL_MAP_PAGESIZE));
      modify (fun c => c <| g_squashybuffer := if 0 =? buffer then None else Some buffer |>) ;;
      if negb (0 =? rc) then mret false
      else
        rc ← lift (result (NaCl_mprotect buffer NACL_MAP_PAGESIZE (Z.lor PROT_READ PROT_WRITE)));
        if negb (0 =? rc) then mret false
        else
          m ← lift (result (NaClFillMemoryRegionWithHalt (c_mem c) buffer NACL_MAP_PAGESIZE));
          store_mem m ;;
          modify (fun c => c <| g_firstbyte := c_mem c buffer |>) ;;
          mret true
  end.

Definition SerializeAllProcessors : Copy bool :=
  ok ← allocate_squashybuffer;
  if negb ok then mret false
  else
    c ← get;
    buffer ← lift (follow (g_squashybuffer c));
    rc ← lift (result (NaCl_mprotect buffer NACL_MAP_PAGESIZE (Z.lor PROT_READ PROT_EXEC)));
    if negb (0 =? rc) then mret false
    else if negb (c_mem c buffer =? g_firstbyte c) then mret false
    else
      rc ← lift (result (NaCl_mprotect buffer NACL_MAP_PAGESIZE PROT_READ));
      mret (0 =? rc).

(** The number of equal bytes from the start, of [n]. *)
Fixpoint equal_prefix (n : nat) (m : memory) (dst src : Z) : nat :=
  match n with
  | O => O
  | S n' => if m dst =? m src then S (equal_prefix n' m (dst + 1) (src + 1)) else O
  end.

(** The size without the equal bytes at the end. *)
Fixpoint trim_suffix (n : nat) (m : memory) (dst src : Z) : nat :=
  match n with
  | O => O
  | S n' => if m (dst + Z.of_nat n') =? m (src + Z.of_nat n') then trim_suffix n' m dst src else S n'
  end.

(** A whole aligned word is written: the bytes around the change are the ones
    that are there. *)
Definition trusted_write (dst src sz offset : Z) (word : nat) : Copy unit :=
  c ← get;
  let tmp := mem_read (c_mem c) (dst - offset) word in
  let new := mem_read (c_mem c) src (Z.to_nat sz) in
  store_mem (mem_write (c_mem c) (dst - offset)
    (take (Z.to_nat offset) tmp ++ new ++ drop (Z.to_nat (offset + sz)) tmp)).

Definition slow_copy (firstbyte_p dst src sz : Z) : Copy bool :=
  c ← get;
  let firstbyte := c_mem c firstbyte_p in
  poke firstbyte_p kNaClFullStop ;;
  ok ← SerializeAllProcessors;
  if negb ok then mret false
  else
    c ← get;
    let moved := dst =? firstbyte_p in
    let firstbyte := if moved then c_mem c src else firstbyte in
    (if moved then memcpy_bytes (Z.to_nat (sz - 1)) (dst + 1) (src + 1) else memcpy_bytes (Z.to_nat sz) dst src) ;;
    ok ← SerializeAllProcessors;
    if negb ok then mret false
    else poke firstbyte_p firstbyte ;; mret true.

Definition CopyInstructionInternal (dst src sz : Z) : Copy bool :=
  c ← get;
  let firstbyte_p := dst in
  let skip := Z.of_nat (equal_prefix (Z.to_nat sz) (c_mem c) dst src) in
  let dst := dst + skip in
  let src := src + skip in
  let sz := sz - skip in
  if sz =? 0 then mret true
  else
    let sz := Z.of_nat (trim_suffix (Z.to_nat sz) (c_mem c) dst src) in
    if sz =? 1 then poke dst (c_mem c src) ;; mret true
    else
      match IsTrustedWrite dst sz 4 with
      | Some offset => trusted_write dst src sz offset 4 ;; mret true
      | None =>
          match IsTrustedWrite dst sz 8 with
          | Some offset => trusted_write dst src sz offset 8 ;; mret true
          | None => slow_copy firstbyte_p dst src sz
          end
      end.

(** ** All instructions of a segment *)

Definition NaClInstIterCreate (m : memory) (seg : NaClSegment) : outcome NaClInstIter :=
  NaClInstIterCreateWithLookback m seg 0.

Definition iter_get (iter : NaClInstIter) : Copy (NaClInstState * NaClInstIter) :=
  c ← get;
  '(slot, iter) ← lift (NaClInstIterGetStateInline (c_mem c) kNaClValDecoderTables iter);
  s ← lift (index (buffer iter) slot);
  mret (s, iter).

Definition iter_advance (iter : NaClInstIter) : Copy NaClInstIter :=
  c ← get;
  '(_, iter) ← lift (NaClInstIterAdvanceInline (c_mem c) kNaClValDecoderTables iter);
  mret iter.

(** Every instruction has a byte, so one turn more than there are bytes is
    enough. *)
Fixpoint CopyCode_loop (fuel : nat) (iter_old iter_new : NaClInstIter) : Copy bool :=
  match fuel with
  | O => abort OutOfFuel
  | S fuel' =>
      let next_old := NaClInstIterHasNextInline iter_old in
      let next_new := NaClInstIterHasNextInline iter_new in
      if negb (next_old && next_new) then mret (negb (next_old || next_new))
      else
        '(old, iter_old) ← iter_get iter_old;
        '(new, iter_new) ← iter_get iter_new;
        let mem_old := iter_memory iter_old in
        let mem_new := iter_memory iter_new in
        if negb (blength (bytes old) =? blength (bytes new)) || negb (read_length mem_old =? read_length mem_new) ||
           negb (inst_addr new =? inst_addr old) then mret false
        else
          ok ← CopyInstructionInternal (mpc mem_old) (mpc mem_new) (read_length mem_old);
          if negb ok then mret false
          else
            iter_old ← iter_advance iter_old;
            iter_new ← iter_advance iter_new;
            CopyCode_loop fuel' iter_old iter_new
  end.

Definition NaClCopyCodeIter (dst src vb size : Z) : Copy bool :=
  c ← get;
  iter_old ← lift (NaClInstIterCreate (c_mem c) (NaClSegmentInitialize dst vb size));
  iter_new ← lift (NaClInstIterCreate (c_mem c) (NaClSegmentInitialize src vb size));
  CopyCode_loop (S (Z.to_nat size)) iter_old iter_new.

Definition ApplyValidatorCopy_x86_64 (features : NaClCPUFeaturesX86) (guest_addr data_old data_new size : Z)
  : Copy NaClValidationStatus :=
  if negb (NaClArchSupported features) then mret NaClValidationFailedCpuNotSupported
  else
    ok ← NaClCopyCodeIter data_old data_new guest_addr size;
    mret (if (ok : bool) then NaClValidationSucceeded else NaClValidationFailed).

End CopyCode.
