(* ===== verification/CopySpec.v ===== *)
(** * Other threads see the old or the new instruction, or a halt *)

From S2P Require Import Prelude Effects Stateful Bytes OpKinds DecodeTables OpcodeTable InstBuffer.
From S2P Require Import ExpVector InstState InstTrans InstDecode TransSpec DecodeSpec DecodeLocal.
From S2P Require Import InstIter IterSpec ValState CpuChecks Rounding HostDesc Validate DynText.
From S2P Require Import Memory Trampoline DynCode.
From S2P Require Import CopyCode.

(** ** Comparing *)

Lemma equal_prefix_ok n m dst src :
  (equal_prefix n m dst src <= n)%nat /\
  forall i, 0 <= i < Z.of_nat (equal_prefix n m dst src) -> m (dst + i) = m (src + i).
Proof.
  revert dst src. induction n as [|n IH]; intros dst src; simpl; [split; [lia|intros; lia]|].
  case_match; zbool; [|split; [lia|intros; lia]]. destruct (IH (dst + 1) (src + 1)) as [H1 H2]. split; [lia|].
  intros i Hi. destruct (decide (i = 0)) as [->|]; [by rewrite !Z.add_0_r|].
  specialize (H2 (i - 1)). replace (dst + 1 + (i - 1)) with (dst + i) in H2 by lia.
  replace (src + 1 + (i - 1)) with (src + i) in H2 by lia. apply H2. lia.
Qed.

Lemma equal_prefix_stop n m dst src : (equal_prefix n m dst src < n)%nat ->
  m (dst + Z.of_nat (equal_prefix n m dst src)) <> m (src + Z.of_nat (equal_prefix n m dst src)).
Proof.
  revert dst src. induction n as [|n IH]; intros dst src; simpl; [lia|]. case_match; zbool; [|intros _; by rewrite !Z.add_0_r].
  intros Hlt. specialize (IH (dst + 1) (src + 1) ltac:(lia)).
  replace (dst + Z.of_nat (S (equal_prefix n m (dst + 1) (src + 1)))) with (dst + 1 + Z.of_nat (equal_prefix n m (dst + 1) (src + 1))) by lia.
  by replace (src + Z.of_nat (S (equal_prefix n m (dst + 1) (src + 1)))) with (src + 1 + Z.of_nat (equal_prefix n m (dst + 1) (src + 1))) by lia.
Qed.

Lemma trim_suffix_ok n m dst src :
  (trim_suffix n m dst src <= n)%nat /\
  forall i, Z.of_nat (trim_suffix n m dst src) <= i < Z.of_nat n -> m (dst + i) = m (src + i).
Proof.
  induction n as [|n [H1 H2]]; simpl; [split; [lia|intros; lia]|]. case_match; zbool; [|split; [lia|intros; lia]].
  split; [lia|]. intros i Hi. destruct (decide (i = Z.of_nat n)) as [->|]; [done|]. apply H2. lia.
Qed.

(** ** Aligned words *)

Lemma aligned_block k d t : 0 <= k -> 0 < t -> IsAligned d t (2 ^ k) = true ->
  Z.land d (2 ^ k - 1) = d mod 2 ^ k /\ d mod 2 ^ k + t <= 2 ^ k.
Proof.
  intros Hk Ht. unfold IsAligned. intros Ha. zbool. replace (2 ^ k - 1) with (Z.ones k) in * by (rewrite Z.ones_equiv; lia).
  rewrite Z.land_ones by lia. split; [done|]. assert (Hp : 0 < 2 ^ k) by (apply Z.pow_pos_nonneg; lia).
  rewrite <- !Z.ldiff_land, !Z.ldiff_ones_r, !Z.shiftl_mul_pow2, !Z.shiftr_div_pow2 in Ha by lia.
  apply Z.mul_cancel_r in Ha; [|lia]. pose proof (Z.div_mod d (2 ^ k) ltac:(lia)). pose proof (Z.div_mod (d + t - 1) (2 ^ k) ltac:(lia)).
  pose proof (Z.mod_pos_bound (d + t - 1) (2 ^ k) ltac:(lia)). rewrite Ha in *. lia.
Qed.

Lemma trusted_offset d t w off k : w = 2 ^ k -> 2 <= k -> 0 < t -> IsTrustedWrite d t w = Some off -> 0 <= off /\ off + t <= w.
Proof.
  intros -> Hk Ht. unfold IsTrustedWrite. do 2 (case_match; [done|]). case_match eqn:E.
  - zbool. intros [= <-]. edestruct (aligned_block k d t) as [-> ?]; [lia|lia|done|]. split; [|done].
    apply Z.mod_pos_bound. apply Z.pow_pos_nonneg; lia.
  - case_match; [|done]. zbool. unfold kTrustUnaligned in *.
    assert (2 ^ 2 <= 2 ^ k) by (apply Z.pow_le_mono_r; lia). lia.
Qed.

(** The word that is written changes the bytes of the change only. *)
Lemma word_write m d src t off w x :
  0 <= off -> 0 <= t -> off + t <= Z.of_nat w ->
  mem_write m (d - off) (take (Z.to_nat off) (mem_read m (d - off) w) ++ mem_read m src (Z.to_nat t) ++
    drop (Z.to_nat (off + t)) (mem_read m (d - off) w)) x =
  if (d <=? x) && (x <? d + t) then m (src + (x - d)) else m x.
Proof.
  intros H0 Ht Hw. set (l := _ ++ _ ++ _).
  assert (Hlen : length l = w).
  { unfold l. rewrite !length_app, length_take, length_drop, !mem_read_length. lia. }
  destruct (decide (d - off <= x < d - off + Z.of_nat w)) as [Hx|Hx].
  - assert (Hl : l !! Z.to_nat (x - (d - off)) = Some (if (d <=? x) && (x <? d + t) then m (src + (x - d)) else m x)).
    { unfold l. destruct (d <=? x) eqn:E1; zbool; [destruct (x <? d + t) eqn:E2; zbool|]; simpl.
      - rewrite lookup_app_r; rewrite length_take, mem_read_length; [|lia]. rewrite lookup_app_l; [|rewrite mem_read_length; lia].
        rewrite mem_read_lookup by lia. do 2 f_equal. lia.
      - rewrite lookup_app_r; rewrite length_take, mem_read_length; [|lia].
        rewrite lookup_app_r; rewrite mem_read_length; [|lia]. rewrite lookup_drop, mem_read_lookup by lia. do 2 f_equal. lia.
      - rewrite lookup_app_l; [|rewrite length_take, mem_read_length; lia]. rewrite lookup_take, decide_True by lia.
        rewrite mem_read_lookup by lia. do 2 f_equal. lia. }
    replace x with (d - off + Z.of_nat (Z.to_nat (x - (d - off)))) at 1 by lia. by apply mem_write_in.
  - rewrite mem_write_out by (rewrite Hlen; lia). destruct ((d <=? x) && (x <? d + t)) eqn:E; [|done]. zbool. lia.
Qed.

Lemma poke_at m a b : mem_write m a [b] a = b.
Proof. pose proof (mem_write_in m a [b] 0 _ eq_refl) as Hw. by rewrite Z.add_0_r in Hw. Qed.

Section CopySpec.
Context `{Host}.
Variable dst src sz : Z.
Variable m0 : memory.

(** The regions do not overlap, and neither overlaps a page that the host
    allocates. *)
Definition apart : Prop := forall x, dst <= x < dst + sz -> ~ src <= x < src + sz.
Definition fresh_pages : Prop := forall b, result (NaCl_page_alloc 0 NACL_MAP_PAGESIZE) = Ret (b, 0) ->
  forall x, (dst <= x < dst + sz \/ src <= x < src + sz) -> ~ b <= x < b + NACL_MAP_PAGESIZE.

Context (Hsz : 0 < sz) (Hapart : apart) (Hfresh : fresh_pages).

(** What another processor may see of the instruction. *)
Definition has_old (m : memory) : Prop := forall i, 0 <= i < sz -> m (dst + i) = m0 (dst + i).
Definition has_new (m : memory) : Prop := forall i, 0 <= i < sz -> m (dst + i) = m0 (src + i).
Definition halted (m : memory) : Prop := m dst = kNaClFullStop.
Definition seen_ok (m : memory) : Prop := has_old m \/ has_new m \/ halted m.

(** The source is kept and every memory seen was fine. *)
Record copying (c : CopyState) : Prop := {
  cp_src : forall i, 0 <= i < sz -> c_mem c (src + i) = m0 (src + i);
  cp_seen : Forall seen_ok (c_seen c);
}.

Lemma store_ok_wp m (Q : unit -> CopyState -> Prop) c :
  copying c -> (forall i, 0 <= i < sz -> m (src + i) = m0 (src + i)) -> seen_ok m ->
  (forall c', copying c' -> c_mem c' = m -> g_squashybuffer c' = g_squashybuffer c -> Q tt c') -> wp stops (store_mem m) Q c.
Proof using.
  intros [C1 C2] Hs Ho HQ. apply wp_modify, HQ; [|done|done]. split; [done|]. by constructor.
Qed.

Lemma poke_wp a b (Q : unit -> CopyState -> Prop) c :
  copying c -> dst <= a < dst + sz -> seen_ok (mem_write (c_mem c) a [b]) ->
  (forall c', copying c' -> c_mem c' = mem_write (c_mem c) a [b] -> Q tt c') -> wp stops (poke a b) Q c.
Proof using Hapart.
  intros Hc Ha Ho HQ. unfold poke. apply wp_bind, wp_get. apply store_ok_wp; [done| |done|by auto].
  intros i Hi. rewrite mem_write_out; [by apply Hc|]. simpl. specialize (Hapart a Ha). lia.
Qed.

(** ** Serialising keeps the code *)

Definition same_code (m m' : memory) : Prop := forall i, 0 <= i < sz -> m' (dst + i) = m (dst + i).

Lemma page_alloc_result n : exists b rc, result (NaCl_page_alloc 0 n) = Ret (b, rc) /\ (rc = 0 -> b <> 0).
Proof using.
  unfold NaCl_page_alloc, NaCl_page_alloc_intern, NaCl_page_alloc_intern_flags, sys_mmap. cbn.
  generalize (host_mmap 0 n PROT_NONE (Z.lor (Z.lor 0 MAP_NORESERVE) (Z.lor MAP_PRIVATE MAP_ANONYMOUS)) None 0). intros r.
  destruct (MAP_FAILED =? r); cbn; [|destruct r; cbn]; (eexists _, _; split; [reflexivity|]); done.
Qed.

Lemma alloc_wp c : copying c -> halted (c_mem c) ->
  wp stops allocate_squashybuffer (fun ok c' => copying c' /\ same_code (c_mem c) (c_mem c') /\
    (ok = true -> g_squashybuffer c' <> None)) c.
Proof using Hsz Hfresh.
  intros Hc Hh. unfold allocate_squashybuffer. apply wp_bind, wp_get. destruct (g_squashybuffer c) as [b|] eqn:Hg.
  { apply wp_ret. split_and!; [done|done|congruence]. }
  apply wp_bind, wp_lift. destruct (page_alloc_result NACL_MAP_PAGESIZE) as (b & rc & Hp & Hb). rewrite Hp. unfold wpo.
  apply wp_bind, wp_modify. cbv beta. set (c1 := c <| g_squashybuffer := _ |>).
  assert (Hc1 : copying c1) by (destruct Hc; by split).
  apply wp_if; intros H1; zbool; [by apply wp_ret|]. specialize (Hfresh b). rewrite Hp, <- H1 in Hfresh. specialize (Hfresh eq_refl).
  assert (Hg1 : g_squashybuffer c1 <> None).
  { specialize (Hb (eq_sym H1)). unfold c1. by destruct b. }
  apply wp_bind, wp_lift. unfold NaCl_mprotect. cbn. apply wp_if; intros H2; zbool; [by apply wp_ret|].
  apply wp_bind, wp_lift. unfold NaClFillMemoryRegionWithHalt, check.
  replace (NACL_MAP_PAGESIZE mod NACL_HALT_LEN =? 0) with true by reflexivity. cbn.
  assert (Hout : forall x, (dst <= x < dst + sz \/ src <= x < src + sz) ->
    mem_fill (c_mem c) b NACL_MAP_PAGESIZE NACL_HALT_OPCODE x = c_mem c x).
  { intros x Hx. specialize (Hfresh x Hx). apply mem_fill_out. lia. }
  apply wp_bind. apply store_ok_wp; [done| | |].
  - intros i Hi. rewrite Hout by lia. by apply Hc.
  - right. right. unfold halted. rewrite Hout by lia. done.
  - intros c2 Hc2 Hm2 Hg2. apply wp_bind, wp_modify, wp_ret. split_and!.
    + destruct Hc2. by split.
    + intros i Hi. simpl. rewrite Hm2. apply Hout. lia.
    + intros _. simpl. by rewrite Hg2.
Qed.

Lemma serialize_wp c : copying c -> halted (c_mem c) ->
  wp stops SerializeAllProcessors (fun _ c' => copying c' /\ same_code (c_mem c) (c_mem c')) c.
Proof using Hsz Hfresh.
  intros Hc Hh. unfold SerializeAllProcessors. apply wp_bind. eapply wp_mono; [by apply alloc_wp|]. simpl.
  intros ok c1 (Hc1 & Hs1 & Hg1). apply wp_if; intros Hok; [by apply wp_ret|]. zbool. subst ok. specialize (Hg1 eq_refl).
  apply wp_bind, wp_get, wp_bind, wp_lift. destruct (g_squashybuffer c1) as [b|]; [|done]. simpl.
  apply wp_bind, wp_lift. unfold NaCl_mprotect. cbn. apply wp_if; intros H2; [by apply wp_ret|].
  apply wp_if; intros H3; [by apply wp_ret|]. apply wp_bind, wp_lift. unfold wpo. by apply wp_ret.
Qed.

(** ** The copy of the bytes behind the first one *)

Lemma memcpy_wp n k c :
  copying c -> halted (c_mem c) -> 0 < k -> k + Z.of_nat n <= sz ->
  wp stops (memcpy_bytes n (dst + k) (src + k)) (fun _ c' => copying c' /\
    forall i, 0 <= i < sz -> c_mem c' (dst + i) = if (k <=? i) && (i <? k + Z.of_nat n) then m0 (src + i) else c_mem c (dst + i)) c.
Proof using Hsz Hapart.
  revert k c. induction n as [|n IH]; intros k c Hc Hh Hk Hn; cbn [memcpy_bytes].
  { apply wp_ret. split; [done|]. intros i Hi. destruct ((k <=? i) && (i <? k + Z.of_nat 0)) eqn:E; [zbool; lia|done]. }
  apply wp_bind, wp_get, wp_bind. assert (Hh' : halted (mem_write (c_mem c) (dst + k) [c_mem c (src + k)])).
  { unfold halted. rewrite mem_write_out; [done|]. lia. }
  apply poke_wp; [done|lia|right; by right|]. intros c1 Hc1 Hm1.
  replace (dst + k + 1) with (dst + (k + 1)) by lia. replace (src + k + 1) with (src + (k + 1)) by lia.
  eapply wp_mono; [apply (IH (k + 1)); [done|by rewrite Hm1|lia|lia]|]. simpl. intros [] c2 [Hc2 Hcopy]. split; [done|].
  intros i Hi. rewrite Hcopy by done. destruct ((k + 1 <=? i) && (i <? k + 1 + Z.of_nat n)) eqn:E1.
  - zbool. replace ((k <=? i) && (i <? k + Z.of_nat (S n))) with true; [done|]. symmetry. apply andb_true_iff. split; [apply Z.leb_le|apply Z.ltb_lt]; lia.
  - rewrite Hm1. destruct (decide (i = k)) as [->|Hne].
    + replace ((k <=? k) && (k <? k + Z.of_nat (S n))) with true by (symmetry; apply andb_true_iff; split; [apply Z.leb_le|apply Z.ltb_lt]; lia).
      rewrite poke_at. by apply Hc.
    + rewrite mem_write_out by (simpl; lia). destruct ((k <=? i) && (i <? k + Z.of_nat (S n))) eqn:E2; [|done].
      apply andb_false_iff in E1. zbool. destruct E1 as [E1|E1]; zbool; lia.
Qed.

(** ** One instruction *)

(** The bytes that differ are those from [k] to [k + t]. *)
Section Change.
Variable k t : Z.
Context (Hk : 0 <= k) (Ht : 0 < t) (Hkt : k + t <= sz).
Context (Hsame : forall i, 0 <= i < sz -> ~ k <= i < k + t -> m0 (dst + i) = m0 (src + i)).

(** Writing them gives the new instruction. *)
Lemma new_intro m : (forall i, 0 <= i < sz -> m (dst + i) = if (k <=? i) && (i <? k + t) then m0 (src + i) else m0 (dst + i)) -> has_new m.
Proof using Hsame.
  intros Hm i Hi. rewrite Hm by done. destruct ((k <=? i) && (i <? k + t)) eqn:E; [done|]. apply Hsame; [done|].
  intros [H1 H2]. apply andb_false_iff in E as [E|E]; zbool; lia.
Qed.

Lemma slow_wp c :
  copying c -> has_old (c_mem c) ->
  wp stops (slow_copy dst (dst + k) (src + k) t) (fun ok c' => copying c' /\ (ok = true -> has_new (c_mem c'))) c.
Proof using All.
  intros Hc Hold. unfold slow_copy. apply wp_bind, wp_get, wp_bind. apply poke_wp; [done|lia| |].
  { right. right. apply poke_at. }
  intros c1 Hc1 Hm1. assert (Hh1 : halted (c_mem c1)).
  { rewrite Hm1. apply poke_at. }
  apply wp_bind. eapply wp_mono; [by apply serialize_wp|]. simpl. intros ok c2 [Hc2 Hs2].
  assert (Hh2 : halted (c_mem c2)). { unfold halted in *. specialize (Hs2 0 ltac:(lia)). rewrite Z.add_0_r in Hs2. congruence. }
  apply wp_if; intros Hok; [by apply wp_ret|]. apply wp_bind, wp_get, wp_bind.
  assert (Hold2 : forall i, 0 < i < sz -> c_mem c2 (dst + i) = m0 (dst + i)).
  { intros i Hi. rewrite Hs2, Hm1, mem_write_out by (simpl; lia). apply Hold. lia. }
  set (k' := Z.max 1 k).
  assert (Hcopy : wp stops (if dst + k =? dst then memcpy_bytes (Z.to_nat (t - 1)) (dst + k + 1) (src + k + 1)
      else memcpy_bytes (Z.to_nat t) (dst + k) (src + k)) (fun _ c' => copying c' /\
    forall i, 0 <= i < sz -> c_mem c' (dst + i) =
      if (k' <=? i) && (i <? k + t) then m0 (src + i) else c_mem c2 (dst + i)) c2).
  { destruct (dst + k =? dst) eqn:E; zbool.
    - assert (k = 0) as E0 by lia. rewrite E0 in *. replace (dst + 0 + 1) with (dst + k') by (unfold k'; lia). replace (src + 0 + 1) with (src + k') by (unfold k'; lia).
      eapply wp_mono; [apply memcpy_wp; [done|done|unfold k'; lia|unfold k'; lia]|]. simpl. intros [] c3 [? Hcp]. split; [done|].
      intros i Hi. rewrite Hcp by done. by replace (k' + Z.of_nat (Z.to_nat (t - 1))) with (0 + t) by (unfold k'; lia).
    - replace k' with k by (unfold k'; lia). eapply wp_mono; [apply memcpy_wp; [done|done|lia|lia]|]. simpl. intros [] c3 [? Hcp]. split; [done|].
      intros i Hi. rewrite Hcp by done. by replace (k + Z.of_nat (Z.to_nat t)) with (k + t) by lia. }
  eapply wp_mono; [exact Hcopy|]. simpl. intros [] c3 [Hc3 Hcp]. apply wp_bind.
  assert (Hh3 : halted (c_mem c3)).
  { unfold halted in *. specialize (Hcp 0 ltac:(lia)). rewrite Z.add_0_r in Hcp. rewrite Hcp.
    replace (k' <=? 0) with false by (symmetry; apply Z.leb_gt; unfold k'; lia). done. }
  eapply wp_mono; [by apply serialize_wp|]. simpl. intros ok2 c4 [Hc4 Hs4]. apply wp_if; intros Hok2; [by apply wp_ret|].
  set (fb := if dst + k =? dst then c_mem c2 (src + k) else c_mem c dst).
  assert (Hfb : fb = m0 src).
  { unfold fb. destruct (dst + k =? dst) eqn:E; zbool.
    - replace k with 0 by lia. pose proof (cp_src _ Hc2 0 ltac:(lia)) as Hs0. rewrite Z.add_0_r in *. done.
    - pose proof (Hold 0 ltac:(lia)) as Ho. pose proof (Hsame 0 ltac:(lia) ltac:(lia)) as He. rewrite !Z.add_0_r in *. congruence. }
  assert (Hnew : has_new (mem_write (c_mem c4) dst [fb])).
  { intros i Hi. destruct (decide (i = 0)) as [->|Hi0].
    - rewrite !Z.add_0_r, poke_at. done.
    - rewrite mem_write_out by (simpl; lia). rewrite Hs4, Hcp by lia.
      destruct ((k' <=? i) && (i <? k + t)) eqn:E; [done|]. rewrite Hold2 by lia. apply Hsame; [lia|].
      intros [? ?]. apply andb_false_iff in E as [E|E]; zbool; unfold k' in *; lia. }
  apply wp_bind. apply poke_wp; [done|lia|by right; left|]. intros c5 Hc5 Hm5. apply wp_ret. split; [done|]. intros _. by rewrite Hm5.
Qed.

Lemma trusted_wp w off kk c :
  Z.of_nat w = 2 ^ kk -> 2 <= kk -> copying c -> has_old (c_mem c) -> IsTrustedWrite (dst + k) t (Z.of_nat w) = Some off ->
  wp stops (trusted_write (dst + k) (src + k) t off w) (fun _ c' => copying c' /\ has_new (c_mem c')) c.
Proof using All.
  intros Hw Hkk Hc Hold Htr. destruct (trusted_offset _ _ _ _ kk Hw Hkk Ht Htr) as [H0 H1].
  unfold trusted_write. apply wp_bind, wp_get. cbv zeta.
  set (m := mem_write _ _ _). assert (Hm : forall x, m x = if (dst + k <=? x) && (x <? dst + k + t) then c_mem c (src + k + (x - (dst + k))) else c_mem c x).
  { intros x. apply word_write; lia. }
  assert (Hnew : has_new m).
  { apply new_intro. intros i Hi. rewrite Hm.
    replace ((dst + k <=? dst + i) && (dst + i <? dst + k + t)) with ((k <=? i) && (i <? k + t))
      by (f_equal; apply eq_iff_eq_true; rewrite ?Z.leb_le, ?Z.ltb_lt; lia).
    destruct ((k <=? i) && (i <? k + t)) eqn:E; [|by apply Hold]. zbool.
    replace (src + k + (dst + i - (dst + k))) with (src + i) by lia. by apply Hc. }
  apply store_ok_wp; [done| |by right; left|].
  - intros i Hi. rewrite Hm. destruct ((dst + k <=? src + i) && (src + i <? dst + k + t)) eqn:E; [|by apply Hc].
    zbool. exfalso. apply (Hapart (src + i)); lia.
  - intros c' Hc' Hm' _. split; [done|]. by rewrite Hm'.
Qed.

Lemma poke_new c : copying c -> has_old (c_mem c) -> t = 1 ->
  wp stops (poke (dst + k) (c_mem c (src + k))) (fun _ c' => copying c' /\ has_new (c_mem c')) c.
Proof using All.
  intros Hc Hold E. assert (Hnew : has_new (mem_write (c_mem c) (dst + k) [c_mem c (src + k)])).
  { apply new_intro. intros i Hi. destruct ((k <=? i) && (i <? k + t)) eqn:Ei; zbool.
    - assert (i = k) as -> by lia. rewrite poke_at. by apply Hc.
    - rewrite mem_write_out; [by apply Hold|]. simpl. apply andb_false_iff in Ei as [?|?]; zbool; lia. }
  apply poke_wp; [done|lia|by right; left|]. intros c' Hc' Hm'. split; [done|]. by rewrite Hm'.
Qed.

End Change.

(** Every memory that the copy of an instruction produces holds the old
    instruction, the new one, or starts with a halt. *)
Lemma copy_instruction_ok c :
  copying c -> c_mem c = m0 ->
  wp stops (CopyInstructionInternal dst src sz) (fun ok c' => copying c' /\ (ok = true -> has_new (c_mem c'))) c.
Proof using All.
  intros Hc Hm. assert (Hold : has_old (c_mem c)) by (intros i _; by rewrite Hm).
  unfold CopyInstructionInternal. apply wp_bind, wp_get. cbv zeta. rewrite Hm.
  destruct (equal_prefix_ok (Z.to_nat sz) m0 dst src) as [Hp1 Hp2]. set (k := Z.of_nat (equal_prefix _ _ _ _)) in *.
  apply wp_if; intros E0; zbool.
  { apply wp_ret. split; [done|]. intros _ i Hi. rewrite Hm. apply Hp2. lia. }
  destruct (trim_suffix_ok (Z.to_nat (sz - k)) m0 (dst + k) (src + k)) as [Ht1 Ht2].
  set (t := Z.of_nat (trim_suffix _ _ _ _)) in *.
  assert (Hsame : forall i, 0 <= i < sz -> ~ k <= i < k + t -> m0 (dst + i) = m0 (src + i)).
  { intros i Hi Hn. destruct (decide (i < k)); [apply Hp2; lia|]. specialize (Ht2 (i - k) ltac:(lia)).
    replace (dst + k + (i - k)) with (dst + i) in Ht2 by lia. by replace (src + k + (i - k)) with (src + i) in Ht2 by lia. }
  pose proof (equal_prefix_stop (Z.to_nat sz) m0 dst src ltac:(lia)) as Hstop. fold k in Hstop.
  assert (Ht : 0 < t).
  { destruct (decide (0 < t)); [done|]. exfalso. apply Hstop. specialize (Ht2 0 ltac:(lia)). by rewrite !Z.add_0_r in Ht2. }
  assert (Hkt : k + t <= sz) by lia. assert (Hk : 0 <= k) by lia.
  apply wp_if; intros E1; zbool.
  { apply wp_bind. rewrite <- Hm. eapply wp_mono; [by eapply poke_new|]. simpl. intros [] c' [? ?]. by apply wp_ret. }
  destruct (IsTrustedWrite (dst + k) t 4) as [off|] eqn:E4.
  { apply wp_bind. eapply wp_mono; [by apply (trusted_wp k t Hk Ht Hkt Hsame 4 off 2)|]. simpl. intros [] c' [? ?]. by apply wp_ret. }
  destruct (IsTrustedWrite (dst + k) t 8) as [off|] eqn:E8.
  { apply wp_bind. eapply wp_mono; [by apply (trusted_wp k t Hk Ht Hkt Hsame 8 off 3)|]. simpl. intros [] c' [? ?]. by apply wp_ret. }
  by apply slow_wp.
Qed.

(** ** Progress

    When the kernel serves the calls that serialise the processors, the copy
    of an instruction comes to its end. *)
Section Progress.
Variable page : Z.
Context (Hprot : forall a n p, host_mprotect a n p = 0).
Context (Hpage : result (NaCl_page_alloc 0 NACL_MAP_PAGESIZE) = Ret (page, 0)).

Definition never (f : fault) : Prop := False.

(** The buffer, if there is one, is intact and not part of the copy. *)
Definition buffer_ok (c : CopyState) : Prop :=
  match g_squashybuffer c with
  | None => True
  | Some b => ~ dst <= b < dst + sz /\ c_mem c b = g_firstbyte c
  end.

Lemma mprotect_served a n p : result (NaCl_mprotect a n p) = Ret 0.
Proof using Hprot. unfold NaCl_mprotect. cbn. by rewrite Hprot. Qed.

Lemma alloc_progress c : buffer_ok c ->
  wp never allocate_squashybuffer (fun ok c' => ok = true /\ buffer_ok c' /\ g_squashybuffer c' <> None) c.
Proof using Hprot Hpage Hsz Hfresh.
  intros Hb. unfold allocate_squashybuffer. apply wp_bind, wp_get. destruct (g_squashybuffer c) as [b|] eqn:Hg.
  { apply wp_ret. split_and!; [done|done|congruence]. }
  apply wp_bind, wp_lift. rewrite Hpage. unfold wpo. apply wp_bind, wp_modify. cbn [negb Z.eqb].
  apply wp_bind, wp_lift. rewrite mprotect_served. unfold wpo. cbn [negb Z.eqb].
  destruct (page_alloc_result NACL_MAP_PAGESIZE) as (b & rc & Hp & Hnz). rewrite Hpage in Hp. injection Hp as <- <-. specialize (Hnz eq_refl).
  apply wp_bind, wp_lift. unfold NaClFillMemoryRegionWithHalt, check.
  replace (NACL_MAP_PAGESIZE mod NACL_HALT_LEN =? 0) with true by reflexivity. cbn.
  apply wp_bind, wp_modify, wp_bind, wp_modify, wp_ret. unfold buffer_ok. cbn.
  replace (match page with 0 => true | _ => false end) with false by (by destruct page).
  split_and!; [done| |done|done]. intros Hin. apply (Hfresh page Hpage page); [by left|]. change NACL_MAP_PAGESIZE with 65536. lia.
Qed.

Lemma serialize_progress c : buffer_ok c -> wp never SerializeAllProcessors (fun ok c' => ok = true /\ buffer_ok c') c.
Proof using Hprot Hpage Hsz Hfresh.
  intros Hb. unfold SerializeAllProcessors. apply wp_bind. eapply wp_mono; [by apply alloc_progress|]. simpl.
  intros ok c1 (-> & Hb1 & Hg). apply wp_bind, wp_get, wp_bind, wp_lift. pose proof Hb1 as Hb2. unfold buffer_ok in Hb2.
  destruct (g_squashybuffer c1) as [b|]; [|done]. destruct Hb2 as [_ Hf]. unfold wpo, follow.
  apply wp_bind, wp_lift. unfold wpo. rewrite Hprot. cbn [negb]. rewrite Hf, Z.eqb_refl. cbn [negb].
  apply wp_bind, wp_lift. unfold wpo. rewrite Hprot. by apply wp_ret.
Qed.

Lemma poke_progress a x c : buffer_ok c -> dst <= a < dst + sz -> wp never (poke a x) (fun _ => buffer_ok) c.
Proof using.
  intros Hb Ha. unfold poke. apply wp_bind, wp_get, wp_modify. unfold buffer_ok in *. simpl. destruct (g_squashybuffer c) as [b|]; [|done].
  destruct Hb as [Hn Hf]. split; [done|]. rewrite mem_write_out; [done|]. simpl. lia.
Qed.

Lemma memcpy_progress n d s c : buffer_ok c -> dst <= d -> d + Z.of_nat n <= dst + sz -> wp never (memcpy_bytes n d s) (fun _ => buffer_ok) c.
Proof using.
  revert d s c. induction n as [|n IH]; intros d s c Hb Hd Hn; cbn [memcpy_bytes]; [by apply wp_ret|].
  apply wp_bind, wp_get, wp_bind. eapply wp_mono; [apply poke_progress; [done|lia]|]. simpl. intros [] c1 Hb1. apply IH; [done|lia|lia].
Qed.

Lemma slow_progress d s t c : buffer_ok c -> dst <= d -> 0 < t -> d + t <= dst + sz ->
  wp never (slow_copy dst d s t) (fun ok _ => ok = true) c.
Proof using Hsz Hfresh Hprot Hpage.
  intros Hb Hd Ht Hdt. unfold slow_copy. apply wp_bind, wp_get, wp_bind. eapply wp_mono; [apply poke_progress; [done|lia]|].
  simpl. intros [] c1 Hb1. apply wp_bind. eapply wp_mono; [by apply serialize_progress|]. simpl. intros ok c2 [-> Hb2].
  apply wp_bind, wp_get, wp_bind.
  eapply (wp_mono _ _ (fun _ => buffer_ok)); [destruct (d =? dst); apply memcpy_progress; try done; lia|].
  intros [] c3 Hb3. apply wp_bind. eapply wp_mono; [by apply serialize_progress|]. simpl. intros ok c4 [-> Hb4].
  apply wp_bind. eapply wp_mono; [apply poke_progress; [done|lia]|]. simpl. intros [] c5 _. by apply wp_ret.
Qed.

Lemma copy_progress c : buffer_ok c -> wp never (CopyInstructionInternal dst src sz) (fun ok _ => ok = true) c.
Proof using Hsz Hfresh Hprot Hpage.
  intros Hb. unfold CopyInstructionInternal. apply wp_bind, wp_get. cbv zeta.
  destruct (equal_prefix_ok (Z.to_nat sz) (c_mem c) dst src) as [Hp1 _]. set (k := Z.of_nat (equal_prefix _ _ _ _)) in *.
  apply wp_if; intros E0; zbool; [by apply wp_ret|].
  pose proof (equal_prefix_stop (Z.to_nat sz) (c_mem c) dst src ltac:(lia)) as Hstop. fold k in Hstop.
  destruct (trim_suffix_ok (Z.to_nat (sz - k)) (c_mem c) (dst + k) (src + k)) as [Ht1 Ht2]. set (t := Z.of_nat (trim_suffix _ _ _ _)) in *.
  assert (Ht : 0 < t).
  { destruct (decide (0 < t)); [done|]. exfalso. apply Hstop. specialize (Ht2 0 ltac:(lia)). by rewrite !Z.add_0_r in Ht2. }
  apply wp_if; intros E1; [by apply wp_bind, wp_bind, wp_get, wp_modify, wp_ret|].
  destruct (IsTrustedWrite (dst + k) t 4); [by apply wp_bind, wp_bind, wp_get, wp_modify, wp_ret|].
  destruct (IsTrustedWrite (dst + k) t 8); [by apply wp_bind, wp_bind, wp_get, wp_modify, wp_ret|].
  apply slow_progress; [done|lia|done|lia].
Qed.

End Progress.

End CopySpec.

(** ** What a copy leaves alone

    [K] are addresses outside the instruction and the pages of the host. *)

Definition any (f : fault) : Prop := True.

Lemma wp_with {S A} F (c : St S A) P Q s : wp F c P s -> wp any c Q s -> wp F c (fun a s' => P a s' /\ Q a s') s.
Proof. unfold wp. destruct (c s) as [[a s']|f]; auto. Qed.

Section Frame.
Context `{Host}.
Variable K : Z -> Prop.
Context (Hpages : forall b, result (NaCl_page_alloc 0 NACL_MAP_PAGESIZE) = Ret (b, 0) ->
  forall x, K x -> ~ b <= x < b + NACL_MAP_PAGESIZE).
Variable c0 : CopyState.

Definition agrees (m : memory) : Prop := forall x, K x -> m x = c_mem c0 x.

(** The memory and those seen since [c0]. *)
Record kept (c : CopyState) : Prop := {
  kp_mem : agrees (c_mem c);
  kp_seen : exists new, c_seen c = new ++ c_seen c0 /\ Forall agrees new;
}.

Lemma kept_start : kept c0.
Proof using. split; [done|]. by exists []. Qed.

Lemma store_kept m c : kept c -> agrees m -> wp any (store_mem m) (fun _ => kept) c.
Proof using.
  intros [_ (new & E & Hn)] Hm. apply wp_modify. split; [done|]. exists (m :: new). simpl. rewrite E. split; [done|]. by constructor.
Qed.

Lemma poke_kept a b c : kept c -> ~ K a -> wp any (poke a b) (fun _ => kept) c.
Proof using.
  intros Hc Ha. unfold poke. apply wp_bind, wp_get, store_kept; [done|]. intros x Hx. rewrite mem_write_out; [by apply Hc|].
  simpl. destruct (decide (x = a)) as [->|]; [done|lia].
Qed.

Lemma memcpy_kept n d s c : kept c -> (forall x, d <= x < d + Z.of_nat n -> ~ K x) -> wp any (memcpy_bytes n d s) (fun _ => kept) c.
Proof using.
  revert d s c. induction n as [|n IH]; intros d s c Hc Hd; cbn [memcpy_bytes]; [by apply wp_ret|].
  apply wp_bind, wp_get, wp_bind. eapply wp_mono; [apply poke_kept; [done|apply Hd; lia]|]. simpl. intros [] c1 Hc1.
  apply IH; [done|]. intros x Hx. apply Hd. lia.
Qed.

Lemma alloc_kept c : kept c -> wp any allocate_squashybuffer (fun _ => kept) c.
Proof using Hpages.
  intros Hc. unfold allocate_squashybuffer. apply wp_bind, wp_get. destruct (g_squashybuffer c) as [b|]; [by apply wp_ret|].
  apply wp_bind, wp_lift. destruct (page_alloc_result NACL_MAP_PAGESIZE) as (b & rc & Hp & _). rewrite Hp. unfold wpo.
  apply wp_bind, wp_modify. cbv beta. set (c1 := c <| g_squashybuffer := _ |>). assert (Hc1 : kept c1) by (destruct Hc; by split).
  apply wp_if; intros H1; zbool; [by apply wp_ret|]. rewrite <- H1 in Hp. specialize (Hpages b Hp).
  apply wp_bind, wp_lift. unfold NaCl_mprotect. cbn. apply wp_if; intros H2; [by apply wp_ret|].
  apply wp_bind, wp_lift. unfold NaClFillMemoryRegionWithHalt, check.
  replace (NACL_MAP_PAGESIZE mod NACL_HALT_LEN =? 0) with true by reflexivity. cbn. apply wp_bind.
  eapply wp_mono; [apply store_kept; [done|]|].
  - intros x Hx. rewrite mem_fill_out; [by apply Hc|]. specialize (Hpages x Hx). lia.
  - simpl. intros [] c2 [Hm2 Hs2]. apply wp_bind, wp_modify, wp_ret. by split.
Qed.

Lemma serialize_kept c : kept c -> wp any SerializeAllProcessors (fun _ => kept) c.
Proof using Hpages.
  intros Hc. unfold SerializeAllProcessors. apply wp_bind. eapply wp_mono; [by apply alloc_kept|]. simpl. intros ok c1 Hc1.
  apply wp_if; intros _; [by apply wp_ret|]. apply wp_bind, wp_get, wp_bind, wp_lift. destruct (g_squashybuffer c1); [|done].
  unfold wpo, follow. apply wp_bind, wp_lift. unfold NaCl_mprotect. cbn. do 2 (apply wp_if; intros _; [by apply wp_ret|]).
  apply wp_bind, wp_lift. unfold wpo. by apply wp_ret.
Qed.

Lemma slow_kept f d s t c : kept c -> ~ K f -> (forall x, d <= x < d + t -> ~ K x) -> wp any (slow_copy f d s t) (fun _ => kept) c.
Proof using Hpages.
  intros Hc Hf Hd. unfold slow_copy. apply wp_bind, wp_get, wp_bind. eapply wp_mono; [by apply poke_kept|]. simpl. intros [] c1 Hc1.
  apply wp_bind. eapply wp_mono; [by apply serialize_kept|]. simpl. intros ok c2 Hc2. apply wp_if; intros _; [by apply wp_ret|].
  apply wp_bind, wp_get, wp_bind. eapply (wp_mono _ _ (fun _ => kept)).
  { destruct (d =? f); apply memcpy_kept; try done; intros x Hx; apply Hd; lia. }
  intros [] c3 Hc3. apply wp_bind. eapply wp_mono; [by apply serialize_kept|]. simpl. intros ok2 c4 Hc4.
  apply wp_if; intros _; [by apply wp_ret|]. apply wp_bind. eapply wp_mono; [by apply poke_kept|]. simpl. intros [] c5 Hc5. by apply wp_ret.
Qed.

Lemma trusted_kept d s t w off kk c :
  Z.of_nat w = 2 ^ kk -> 2 <= kk -> 0 < t -> IsTrustedWrite d t (Z.of_nat w) = Some off ->
  kept c -> (forall x, d <= x < d + t -> ~ K x) -> wp any (trusted_write d s t off w) (fun _ => kept) c.
Proof using.
  intros Hw Hkk Ht Htr Hc Hd. destruct (trusted_offset _ _ _ _ kk Hw Hkk Ht Htr) as [H0 H1]. unfold trusted_write.
  apply wp_bind, wp_get. cbv zeta. apply store_kept; [done|]. intros x Hx. rewrite word_write by lia.
  destruct ((d <=? x) && (x <? d + t)) eqn:E; [|by apply Hc]. zbool. by destruct (Hd x).
Qed.

Lemma copy_kept dst src sz c : 0 < sz -> kept c -> (forall x, dst <= x < dst + sz -> ~ K x) ->
  wp any (CopyInstructionInternal dst src sz) (fun _ => kept) c.
Proof using Hpages.
  intros Hsz Hc HK. unfold CopyInstructionInternal. apply wp_bind, wp_get. cbv zeta.
  destruct (equal_prefix_ok (Z.to_nat sz) (c_mem c) dst src) as [Hp1 _]. set (k := Z.of_nat (equal_prefix _ _ _ _)) in *.
  apply wp_if; intros E0; zbool; [by apply wp_ret|].
  destruct (trim_suffix_ok (Z.to_nat (sz - k)) (c_mem c) (dst + k) (src + k)) as [Ht1 Ht2]. set (t := Z.of_nat (trim_suffix _ _ _ _)) in *.
  assert (Hd : forall x, dst + k <= x < dst + k + t -> ~ K x) by (intros x Hx; apply HK; lia).
  pose proof (equal_prefix_stop (Z.to_nat sz) (c_mem c) dst src ltac:(lia)) as Hstop. fold k in Hstop.
  assert (Ht : 0 < t).
  { destruct (decide (0 < t)); [done|]. exfalso. apply Hstop. specialize (Ht2 0 ltac:(lia)). by rewrite !Z.add_0_r in Ht2. }
  apply wp_if; intros E1.
  { apply wp_bind. eapply wp_mono; [apply poke_kept; [done|apply Hd; lia]|]. simpl. intros [] c1 ?. by apply wp_ret. }
  destruct (IsTrustedWrite (dst + k) t 4) eqn:E4.
  { apply wp_bind. eapply wp_mono; [by eapply (trusted_kept _ _ _ 4 _ 2)|]. simpl. intros [] c1 ?. by apply wp_ret. }
  destruct (IsTrustedWrite (dst + k) t 8) eqn:E8.
  { apply wp_bind. eapply wp_mono; [by eapply (trusted_kept _ _ _ 8 _ 3)|]. simpl. intros [] c1 ?. by apply wp_ret. }
  apply slow_kept; [done|apply HK; lia|done].
Qed.

End Frame.

(** ** All instructions

    The iterators have one slot.  What they decode is described with the
    memory [m] before the copy: the source is not written, and the old code
    not before it is decoded. *)

Section Loop.
Context `{Host}.
Variable m : memory.
Variable size : Z.
Context (Hm : forall x, is_byte (m x)) (Hsize : 0 <= size < two64).

(** The instructions up to an address, newest first. *)
Inductive lays (base : Z) : Z -> list NaClInstState -> Prop :=
| lays_nil : lays base 0 []
| lays_cons a len s mem h :
    lays base a h -> a < size -> decodes kNaClValDecoderTables m base size a len s mem -> lays base (a + len) (s :: h).

Lemma decodes_facts base a len s mem : decodes kNaClValDecoderTables m base size a len s mem ->
  inst_addr s = a /\ blength (bytes s) = len /\ read_length mem = len /\ mpc mem = base + a /\ a + len <= size /\ (a < size -> 0 < len).
Proof using.
  intros [_ [Hr [Hl1 Hl2] Ha _ _ _ _]]. destruct Hr. split_and!; try done; lia.
Qed.

Lemma lays_below base a h s : lays base a h -> s ∈ h -> 0 <= inst_addr s /\ inst_addr s + blength (bytes s) <= a.
Proof using.
  intros Hl. assert (H0 : 0 <= a /\ forall s, s ∈ h -> 0 <= inst_addr s /\ inst_addr s + blength (bytes s) <= a); [|apply H0].
  induction Hl as [|a len s' mem h Hl [IH0 IH] Hlt Hd]; [split; [lia|]; intros s' Hs'; by apply not_elem_of_nil in Hs'|].
  apply decodes_facts in Hd as (Ha & Hb & _ & _ & _ & Hlen). split; [lia|]. intros x [->|Hx]%elem_of_cons; [lia|].
  specialize (IH x Hx). lia.
Qed.

(** An iterator that stands before the instruction at [a]. *)
Record before (base a : Z) (it : NaClInstIter) : Prop := {
  bf_segment : seg_size (segment it) = size;
  bf_index : iter_index it = a;
  bf_ring : buffer_size it = 1 /\ buffer_index it = 0;
  bf_slot : exists s, buffer it = [s] /\ inst s = None /\ vector_ok (nodes s);
  bf_memory : at_position m (base + size) (base + a) a size (iter_memory it);
}.

Lemma create_before m1 base vb it : m1 base = m base ->
  NaClInstIterCreate m1 (NaClSegmentInitialize base vb size) = Ret it -> before base 0 it.
Proof using Hsize.
  intros Hb. unfold NaClInstIterCreate, NaClInstIterCreateWithLookback. do 2 (case_match; [done|]). intros [= <-]. split; try done.
  - exists empty_state. split_and!; [done|done|]. split; [done|]. simpl. unfold NACL_MAX_EXPS. lia.
  - split; simpl; [lia|done| |lia]. unfold NCRemainingMemoryPeekInline. simpl. by rewrite Hb.
Qed.

Lemma create_faults m1 seg f : NaClInstIterCreate m1 seg = Fault f -> terminates f.
Proof using.
  unfold NaClInstIterCreate, NaClInstIterCreateWithLookback. destruct (negb _); [by intros [= <-]|]. destruct (negb _); [by intros [= <-]|done].
Qed.

(** The iterator with its instruction decoded. *)
Definition at_inst (it : NaClInstIter) (mem : NCRemainingMemory) (s : NaClInstState) : NaClInstIter :=
  it <| iter_memory := mem |> <| buffer := [s] |>.

(** The steps of an iterator with one slot, for any tables. *)
Lemma get_single ram tb it s :
  buffer_index it = 0 -> buffer it = [s] -> inst s = None ->
  NaClInstIterGetStateInline ram tb it =
  match NaClDecodeInst ram tb (iter_index it) (seg_size (segment it)) (mkDecoding (iter_memory it) s) with
  | Ret (_, d) => Ret (0, at_inst it (memory_of d) (state_of d))
  | Fault f => Fault f
  end.
Proof using.
  destruct it as [sg r idx n bs bi buf]; simpl. intros -> -> Hi.
  unfold NaClInstIterGetStateInline, decode_slot, NaClInstIterGetUndecodedStateInline, mbind, St_bind, get, lift. simpl. rewrite Hi.
  by destruct (NaClDecodeInst _ _ _ _ _) as [[[] d]|f].
Qed.

Lemma advance_single ram tb it mem s p :
  buffer_size it = 1 -> buffer_index it = 0 -> inst s = Some p -> iter_index it < seg_size (segment it) ->
  NaClInstIterAdvanceInline ram tb (at_inst it mem s) = Ret (tt, (at_inst it mem (s <| inst := None |>))
    <| iter_index := u64 (iter_index it + read_length mem) |> <| inst_count := u64 (inst_count it + 1) |>).
Proof using.
  destruct it as [sg r idx n bs bi buf]; simpl. intros -> -> Hi Hlt.
  unfold NaClInstIterAdvanceInline, NaClInstIterGetStateInline, decode_slot, NaClInstIterGetUndecodedStateInline,
    mbind, St_bind, get, lift, mret, St_ret, put. simpl.
  replace (seg_size sg <=? idx) with false by (symmetry; apply Z.leb_gt; lia). simpl. by rewrite Hi.
Qed.

Lemma get_local ram tb base a it s :
  before base a it -> buffer it = [s] -> inst s = None -> (forall x, base + a <= x < base + size -> ram x = m x) ->
  NaClInstIterGetStateInline ram tb it =
  match NaClDecodeInst m tb a size (mkDecoding (iter_memory it) s) with
  | Ret (_, d) => Ret (0, at_inst it (memory_of d) (state_of d))
  | Fault f => Fault f
  end.
Proof using.
  intros [B1 B2 [_ B4] _ [P1 P2 _ _]] B5 B6 Hc. rewrite (get_single _ _ it s B4 B5 B6), B1, B2.
  rewrite (decode_at ram m (base + a) (base + size) Hc); [done| |exact P2]. simpl. rewrite P1. apply Z.le_refl.
Qed.

Lemma wpo_slot {A B} F (o : outcome (A * Decoding)) (g : Decoding -> B) (Q : Z * B -> Prop) :
  wpo F o (fun r => Q (0, g r.2)) -> wpo F (match o with Ret (_, d) => Ret (0, g d) | Fault f => Fault f end) Q.
Proof using. by destruct o as [[a d]|f]. Qed.

Lemma get_ok tb ram base a it :
  tables_ok tb = true -> before base a it -> (forall x, base + a <= x < base + size -> ram x = m x) ->
  wpo stops (NaClInstIterGetStateInline ram tb it) (fun r => r.1 = 0 /\ exists len mem s,
    decodes tb m base size a len s mem /\ r.2 = at_inst it mem s).
Proof using Hm.
  intros Hok Hb Hc. pose proof Hb as [_ _ _ (s & B5 & B6 & B7) B8]. rewrite (get_local ram tb base a it s Hb B5 B6 Hc).
  pose proof (decode_ok m tb Hm Hok (base + size) (base + a) a size (mkDecoding (iter_memory it) s) B8 B7) as Hd.
  apply wpo_slot. eapply wpo_wp; [exact Hd|]. intros [] d E [len Hlen]. split; [reflexivity|].
  exists len, (memory_of d), (state_of d). split; [|reflexivity]. split; [|exact Hlen].
  exists (mkDecoding (iter_memory it) s). split; [exact B8|]. rewrite E. by destruct d.
Qed.

Lemma iter_get_ok base a it c :
  before base a it -> (forall x, base + a <= x < base + size -> c_mem c x = m x) ->
  wp stops (iter_get it) (fun r c' => c' = c /\ exists len mem,
    decodes kNaClValDecoderTables m base size a len r.1 mem /\ r.2 = at_inst it mem r.1) c.
Proof using Hm.
  intros Hb Hc. unfold iter_get. apply wp_bind, wp_get, wp_bind, wp_lift.
  eapply wpo_mono; [exact (get_ok _ _ base a it validator_tables_ok Hb Hc)|]. intros [slot it'] (E & len & mem & s & Hd & E').
  cbn [fst snd] in E, E'. subst slot it'. apply wp_bind, wp_lift. rewrite (proj2 (index_Some _ 0 s)) by done.
  apply wp_ret. split; [reflexivity|]. exists len, mem. split; [exact Hd|reflexivity].
Qed.

Lemma iter_advance_ok base a it len s mem c :
  before base a it -> decodes kNaClValDecoderTables m base size a len s mem -> a < size ->
  exists it', iter_advance (at_inst it mem s) c = Ret (it', c) /\ before base (a + len) it'.
Proof using Hsize.
  intros [B1 B2 [B3 B4] _ B8] [_ [Hr [Hl1 Hl2] _ _ Hn _ (p & Hp & _)]] Hlt. pose proof B8 as [_ _ _ (P1 & P2 & P3)].
  destruct Hr as [R1 R2 R3 R4 R5 R6 R7 R8 R9].
  unfold iter_advance, mbind, St_bind, get, lift. rewrite (advance_single _ _ it mem s p) by (done || lia).
  eexists. split; [reflexivity|]. split; simpl; try done.
  - rewrite R5, B2. apply u64_small. lia.
  - exists (s <| inst := None |>). done.
  - split; simpl; [lia|done|done|lia].
Qed.

(** *** Two segments *)

Variable dst src : Z.
Context (Hapart : apart dst src size) (Hfresh : fresh_pages dst src size).

(** A memory in which the first [a] bytes, the instructions [h], may be
    copied: each one is old, new or halted; the others are old. *)
Definition safe_view (a : Z) (h : list NaClInstState) (m' : memory) : Prop :=
  (forall s, s ∈ h -> seen_ok (dst + inst_addr s) (src + inst_addr s) (blength (bytes s)) m m') /\
  forall i, a <= i < size -> m' (dst + i) = m (dst + i).

Record copied (a : Z) (h : list NaClInstState) (c : CopyState) : Prop := {
  cd_src : forall i, 0 <= i < size -> c_mem c (src + i) = m (src + i);
  cd_done : forall i, 0 <= i < a -> c_mem c (dst + i) = m (src + i);
  cd_rest : forall i, a <= i < size -> c_mem c (dst + i) = m (dst + i);
  cd_seen : Forall (safe_view a h) (c_seen c);
}.

(** A memory seen before the instruction [s] is copied has it in its old form. *)
Lemma view_next a h s m' :
  0 <= a -> inst_addr s = a -> a + blength (bytes s) <= size ->
  safe_view a h m' -> 0 <= blength (bytes s) -> safe_view (a + blength (bytes s)) (s :: h) m'.
Proof using.
  intros H0 Ha Hle [V1 V2] Hl. split.
  - intros x [->|Hx]%elem_of_cons; [|by apply V1]. left. intros i Hi. rewrite Ha, <- !Z.add_assoc. apply V2. lia.
  - intros i Hi. apply V2. lia.
Qed.

Lemma copy_one a h s mem c :
  copied a h c -> lays src a h -> a < size -> decodes kNaClValDecoderTables m src size a (blength (bytes s)) s mem ->
  wp stops (CopyInstructionInternal (dst + a) (src + a) (blength (bytes s))) (fun ok c' =>
    Forall (safe_view (a + blength (bytes s)) (s :: h)) (c_seen c') /\ (ok = true -> copied (a + blength (bytes s)) (s :: h) c')) c.
Proof using Hapart Hfresh Hm Hsize.
  intros [C1 C2 C3 C4] Hl Hlt Hd. pose proof (decodes_facts _ _ _ _ _ Hd) as (Ha & _ & _ & _ & Hle & Hpos).
  specialize (Hpos Hlt). set (len := blength (bytes s)) in *.
  assert (H0 : 0 <= a) by (destruct Hd as [(d0 & Hat & _) _]; pose proof (ap_size _ _ _ _ _ _ Hat); lia).
  set (K := fun x => (dst <= x < dst + size \/ src <= x < src + size) /\ ~ dst + a <= x < dst + a + len).
  assert (Ho : Forall (safe_view (a + len) (s :: h)) (c_seen c)).
  { eapply Forall_impl; [exact C4|]. intros m' Hv. apply view_next; try done; lia. }
  eapply wp_mono; [eapply wp_with|].
  - apply (copy_instruction_ok (dst + a) (src + a) len (c_mem c)); [done| | | |done].
    + intros x Hx Hs. apply (Hapart x); lia.
    + intros b Hb x Hx. apply (Hfresh b Hb). lia.
    + split; [done|]. eapply Forall_impl; [exact C4|]. intros m' [_ V]. left. intros i Hi. rewrite <- !Z.add_assoc, V, C3 by lia. done.
  - apply (copy_kept K) with (c0 := c); [|done|apply kept_start|].
    + intros b Hb x [Hx _]. by apply (Hfresh b Hb).
    + intros x Hx [_ HK]. done.
  - simpl. intros ok c' [[Hcp Hnew] [Km (new & Es & Kn)]].
    assert (Hin : forall i, 0 <= i < size -> ~ a <= i < a + len -> K (dst + i)) by (intros i Hi Hn; split; [left; lia|lia]).
    assert (Hsrc : forall i, 0 <= i < size -> K (src + i)).
    { intros i Hi. split; [right; lia|]. intros Hx. apply (Hapart (src + i)); lia. }
    assert (Hseen : Forall (safe_view (a + len) (s :: h)) (c_seen c')).
    { pose proof (cp_seen _ _ _ _ _ Hcp) as Hok. rewrite Es in *. apply Forall_app in Hok as [Hok _]. apply Forall_app. split; [|done].
      apply Forall_forall. intros m' Hm'. rewrite Forall_forall in Hok, Kn. specialize (Hok m' Hm'). specialize (Kn m' Hm'). split.
      - intros x [->|Hx]%elem_of_cons.
        + fold len. rewrite Ha. destruct Hok as [Hok|[Hok|Hok]]; [left|right; left|by right; right].
          * intros i Hi. rewrite Hok by done. rewrite <- !Z.add_assoc. apply C3. lia.
          * intros i Hi. rewrite Hok by done. rewrite <- !Z.add_assoc. apply C1. lia.
        + destruct (lays_below _ _ _ _ Hl Hx). right. left. intros i Hi. rewrite <- !Z.add_assoc, Kn by (apply Hin; lia). apply C2. lia.
      - intros i Hi. rewrite Kn by (apply Hin; lia). apply C3. lia. }
    split; [done|]. intros Hok. specialize (Hnew Hok). split; [| | |done].
    + intros i Hi. rewrite Km by (by apply Hsrc). by apply C1.
    + intros i Hi. destruct (decide (i < a)).
      * rewrite Km by (apply Hin; lia). apply C2. lia.
      * specialize (Hnew (i - a) ltac:(lia)). replace (dst + a + (i - a)) with (dst + i) in Hnew by lia.
        replace (src + a + (i - a)) with (src + i) in Hnew by lia. rewrite Hnew. apply C1. lia.
    + intros i Hi. rewrite Km by (apply Hin; lia). apply C3. lia.
Qed.

(** The instructions of the two segments have the same boundaries. *)
Definition same_bounds (o n : NaClInstState) : Prop := inst_addr o = inst_addr n /\ blength (bytes o) = blength (bytes n).

(** How the copy ends: after some instructions, all when it succeeds. *)
Definition ends_copied (ok : bool) (c : CopyState) : Prop :=
  exists a old new, lays dst a old /\ lays src a new /\ Forall2 same_bounds old new /\ Forall (safe_view a new) (c_seen c) /\
    (ok = true -> a = size /\ forall i, 0 <= i < size -> c_mem c (dst + i) = m (src + i)).

Lemma copy_loop_ok fuel a old new it_old it_new c :
  copied a new c -> lays dst a old -> lays src a new -> Forall2 same_bounds old new ->
  before dst a it_old -> before src a it_new -> size - a < Z.of_nat fuel ->
  wp stops (CopyCode_loop fuel it_old it_new) ends_copied c.
Proof using Hapart Hfresh Hm Hsize.
  revert a old new it_old it_new c. induction fuel as [|fuel IH]; intros a old new it_old it_new c Hc Lo Ln Hb Bo Bn Hf.
  { pose proof (ap_size _ _ _ _ _ _ (bf_memory _ _ _ Bo)). lia. }
  pose proof (ap_size _ _ _ _ _ _ (bf_memory _ _ _ Bo)) as (Ha & _). cbn [CopyCode_loop]. unfold NaClInstIterHasNextInline.
  rewrite (bf_index _ _ _ Bo), (bf_index _ _ _ Bn), (bf_segment _ _ _ Bo), (bf_segment _ _ _ Bn).
  destruct (a <? size) eqn:Hlt; zbool; cbn [andb orb negb].
  2: { apply wp_ret. exists a, old, new. split_and!; try done; [apply Hc|]. intros _. assert (a = size) as -> by lia. split; [done|apply Hc]. }
  apply wp_bind. eapply wp_mono; [apply (iter_get_ok dst a); [done|]|].
  { intros x Hx. replace x with (dst + (x - dst)) by lia. apply (cd_rest _ _ _ Hc). lia. }
  intros [so it1] c1 (-> & len & mem & Do & E1). cbn [fst snd] in *. subst it1.
  apply wp_bind. eapply wp_mono; [apply (iter_get_ok src a); [done|]|].
  { intros x Hx. replace x with (src + (x - src)) by lia. apply (cd_src _ _ _ Hc). lia. }
  intros [sn it1] c1 (-> & len' & mem' & Dn & E1). cbn [fst snd] in *. subst it1. cbv zeta.
  change (iter_memory (at_inst it_old mem so)) with mem. change (iter_memory (at_inst it_new mem' sn)) with mem'.
  pose proof (decodes_facts _ _ _ _ _ Do) as (F1 & F2 & F3 & F4 & F5 & F6). pose proof (decodes_facts _ _ _ _ _ Dn) as (G1 & G2 & G3 & G4 & G5 & G6).
  apply wp_if; intros Hcmp.
  { apply wp_ret. exists a, old, new. split_and!; try done; [apply Hc]. }
  zbool. subst len len'. rewrite F3, F4, G4. apply wp_bind.
  assert (Elen : blength (bytes so) = blength (bytes sn)) by lia. rewrite Elen in *.
  assert (Ho : lays dst (a + blength (bytes sn)) (so :: old)) by (by eapply lays_cons).
  assert (Hn : lays src (a + blength (bytes sn)) (sn :: new)) by (by eapply lays_cons).
  assert (Hb' : Forall2 same_bounds (so :: old) (sn :: new)) by (constructor; [split; congruence|done]).
  eapply wp_mono; [by eapply copy_one|]. simpl. intros ok c' [Hs Hk]. destruct ok; cbn [negb].
  2: { apply wp_ret. eexists _, _, _. split_and!; [exact Ho|exact Hn|done|done|done]. }
  destruct (iter_advance_ok dst a it_old _ so mem c' Bo Do ltac:(lia)) as (ito & Eo & Bo').
  destruct (iter_advance_ok src a it_new _ sn mem' c' Bn Dn ltac:(lia)) as (itn & En & Bn').
  apply wp_bind. unfold wp at 1. rewrite Eo. apply wp_bind. unfold wp at 1. rewrite En.
  eapply IH; [by apply Hk|exact Ho|exact Hn|done|done|done|]. specialize (G6 ltac:(lia)). lia.
Qed.

Lemma copy_code_ok vb c :
  c_mem c = m -> c_seen c = [] -> wp terminates (NaClCopyCodeIter dst src vb size) ends_copied c.
Proof using Hapart Hfresh Hm Hsize.
  intros Hc Hs. unfold NaClCopyCodeIter. apply wp_bind, wp_get, wp_bind, wp_lift. rewrite Hc.
  destruct (NaClInstIterCreate m _) as [ito|f] eqn:Eo; [|by eapply create_faults].
  unfold wpo. apply wp_bind, wp_lift.
  destruct (NaClInstIterCreate m (NaClSegmentInitialize src vb size)) as [itn|f] eqn:En; [|by eapply create_faults].
  unfold wpo. eapply wp_faults.
  - apply (copy_loop_ok _ 0 [] []); [|constructor..|by eapply create_before|by eapply create_before|lia].
    split; [by rewrite Hc|intros; lia|by rewrite Hc|by rewrite Hs].
  - intros f. by destruct f.
Qed.

Lemma copy_ends features guest c st c' :
  c_mem c = m -> c_seen c = [] -> ApplyValidatorCopy_x86_64 features guest dst src size c = Ret (st, c') ->
  ends_copied (bool_decide (st = NaClValidationSucceeded)) c'.
Proof using Hapart Hfresh Hm Hsize.
  intros Hc Hs Hr. unfold ApplyValidatorCopy_x86_64 in Hr. destruct (negb (NaClArchSupported features)).
  - injection Hr as <- <-. exists 0, [], []. split_and!; [constructor..|by rewrite Hs|done].
  - pose proof (copy_code_ok guest c Hc Hs) as Hok. unfold wp in Hok. unfold mbind, St_bind in Hr.
    destruct (NaClCopyCodeIter dst src guest size c) as [[ok c1]|f]; [|done]. injection Hr as <- <-. by destruct ok.
Qed.

Lemma copy_terminates features guest c :
  c_mem c = m -> c_seen c = [] -> ApplyValidatorCopy_x86_64 features guest dst src size c <> Fault OutOfFuel.
Proof using Hapart Hfresh Hm Hsize.
  intros Hc Hs Hr. unfold ApplyValidatorCopy_x86_64 in Hr. destruct (negb (NaClArchSupported features)); [done|].
  pose proof (copy_code_ok guest c Hc Hs) as Hok. unfold wp in Hok. unfold mbind, St_bind in Hr.
  destruct (NaClCopyCodeIter dst src guest size c) as [[ok c1]|f]; [done|]. injection Hr as ->. by apply Hok.
Qed.

End Loop.
