(* ===== verification/X64Validator.v ===== *)
(** * The x86-64 validator behind the interface of the loader

    [x86_64_validator] implements the class [Validator] with the entry points
    of 64/ncvalidate.c and nccopycode.c, without a validation cache: NaClValidateCode
    passes NULL.  The cells of the process memory are read as bytes and the
    sizes are those of a size_t; a cell that the validator does not overwrite
    keeps its value.  The laws of the interface are the specification of
    NaClValidateSegment. *)

From S2P Require Import Prelude Effects Stateful Bytes OpKinds DecodeTables OpcodeTable InstBuffer.
From S2P Require Import ExpVector InstState InstTrans InstDecode TransSpec DecodeSpec InstIter.
From S2P Require Import IterSpec ValState AddressSet ValSpec Jumps CheckSpec JumpSpec ProtectBase.
From S2P Require Import BaseSpec MemProtect MemSpec Illegal CpuChecks CpuSpec ValidateIter LoopSpec.
From S2P Require Import SegmentSpec Sandbox Validate NcValidate CopyCode.

Section Entry.
Context `{Host}.
Variable NaClLogGetVerbosity : Z.
Variable features : NaClCPUFeaturesX86.

(** ** The state that NaClValidatorSetup_x86_64 makes *)

Lemma setup_created guest size ro m v :
  NaClValidatorSetup_x86_64 features guest size ro m = Some v ->
  created m guest size v /\ validates_ok v = true /\ readonly_text v = ro /\ cpu_features v = features /\ do_stub_out v = false.
Proof using.
  unfold NaClValidatorSetup_x86_64, NaClValidatorStateCreate, NaClJumpValidatorInitialize, NaClAddressSetCreate.
  destruct (negb _); [done|]. destruct (malloc_ok (NaClAddressSetArraySize size)); [|done]. intros [= <-]. split_and!; done.
Qed.

Lemma stubout_created m guest size v b :
  created m guest size v -> validates_ok v = true ->
  wp terminates (NaClValidatorStateSetLogVerbosity LOG_ERROR ;; NaClValidatorStateSetDoStubOut b) (fun _ v' =>
    created m guest size v' /\ readonly_text v' = readonly_text v /\ cpu_features v' = cpu_features v /\ do_stub_out v' = b) v.
Proof using.
  intros [C1 C2 C3 C4 (C5 & C6 & C7) C8 C10 C11] Hok. apply wp_bind, wp_modify, wp_bind, wp_modify. destruct b; [apply wp_modify|apply wp_ret].
  - split_and!; try done. split; try done. simpl. unfold NaClValidatorQuit. simpl. by rewrite Hok.
  - split_and!; try done.
Qed.

Lemma validate_segment_ok guest m data size stub v :
  (forall x, is_byte (m x)) -> created m guest size v -> validates_ok v = true -> 0 <= size < two64 ->
  wp terminates (validate_segment NaClLogGetVerbosity guest data size stub) (fun _ v' =>
    ended kNaClValDecoderTables m data guest size v' /\
    readonly_text v' = readonly_text v /\ cpu_features v' = cpu_features v /\ do_stub_out v' = stub) v.
Proof using.
  intros Hm Hc Hok Hs. unfold validate_segment.
  pose proof (stubout_created m guest size v stub Hc Hok) as Hset. unfold wp, mbind, St_bind in Hset |- *.
  destruct (NaClValidatorStateSetLogVerbosity LOG_ERROR v) as [[u v1]|f]; [|done].
  destruct (NaClValidatorStateSetDoStubOut stub v1) as [[u2 v2]|f]; [|done]. destruct Hset as (Hc2 & Hr2 & Hf2 & Hd2).
  eapply wp_mono; [apply (segment_ok NaClLogGetVerbosity kNaClValDecoderTables validator_tables_ok m data guest size v2); try done|].
  simpl. intros [] v3 [Hmodes He]. unfold modes in Hmodes. split_and!; [done|congruence..].
Qed.

(** ** The entry point *)

(** What an answer means. *)
Definition answered (m : memory) (data guest size : Z) (stub ro : bool) (st : NaClValidationStatus) (m' : memory) (recorded : bool) : Prop :=
  (forall x, m' x = m x \/ (m' x = kNaClFullStop /\ data <= x < data + size)) /\
  (ro = true -> m' = m) /\ (recorded = true -> m' = m) /\
  (st = NaClValidationSucceeded -> stub = false -> ro = true \/ recorded = true ->
   exists size' h R, NCHaltTrimSize m data size 32 = Ret size' /\ 0 < size' <= size /\
     sandboxed kNaClValDecoderTables features m data guest size' h R).

Lemma entry_ok guest m data size stub ro query :
  (forall x, is_byte (m x)) -> 0 <= size < two64 -> query <> Some true ->
  wpo terminates (ApplyValidator_x86_64 NaClLogGetVerbosity features guest m data size stub ro query)
    (fun r => answered m data guest size stub ro r.1.1 r.1.2 r.2).
Proof using.
  intros Hm Hs Hq. unfold ApplyValidator_x86_64.
  assert (Hno : forall st, st <> NaClValidationSucceeded -> answered m data guest size stub ro st m false).
  { intros st Hst. split_and!; auto. done. }
  destruct (stub && ro) eqn:Hsr; [by apply Hno|]. destruct (negb (NaClArchSupported features)); [by apply Hno|].
  rewrite bool_decide_false by (by destruct stub).
  destruct (NaClValidatorSetup_x86_64 _ _ _ _ _) as [v|] eqn:Hset; [|by apply Hno].
  destruct (setup_created _ _ _ _ _ Hset) as (Hc & Hok & Hro & Hfeat & _).
  pose proof (validate_segment_ok guest m data size stub v Hm Hc Hok Hs) as Hv. unfold wp in Hv.
  apply wpo_bind. destruct (validate_segment _ _ _ _ _ v) as [[u v']|f]; [|exact Hv]. unfold wpo.
  destruct Hv as (He & Hro' & Hf' & Hd'). cbn [fst snd]. set (ok := validates_ok v' || stub).
  destruct He as [E1 E2 E3 E4]. unfold answered.
  assert (Hrec : ro = true -> did_stub_out v' = false).
  { intros ->. destruct stub; [done|]. apply E3; congruence. }
  split_and!; [exact E1|intros Hr; by apply E2, Hrec| |].
  - intros Hr. zbool. apply E2. done.
  - intros Hst -> Hor. assert (validates_ok v' = true) as Hok'. { unfold ok in Hst. destruct (validates_ok v'); done. }
    destruct (E4 (conj Hok' Hd')) as (size' & h & Hve). pose proof Hve as [[Ht1 Ht2] _ _ _ _ _ _].
    exists size', h, (protected v'). split_and!; try done; try lia.
    eapply verified_sandboxed; [exact Hve|lia| |congruence]. destruct Hor as [Hr|Hr]; [by apply Hrec|]. zbool. done.
Qed.

(** ** The interface *)

Definition as_bytes (m : memory) : memory := fun x => u8 (m x).

(** The cells that were not overwritten keep their value. *)
Definition overlay (m m1 : memory) : memory := fun x => if m1 x =? as_bytes m x then m x else m1 x.

Definition x86_64_validator : Validator := {|
  ApplyValidator := fun guest m data size stub ro =>
    '(st, m1, _) ← ApplyValidator_x86_64 NaClLogGetVerbosity features guest (as_bytes m) data (u64 size) stub ro None;
    Ret (st, overlay m m1);
  ApplyValidatorCodeReplacement := fun guest m data_old data_new size =>
    '(st, m1) ← ApplyValidatorCodeReplacement_x86_64 NaClLogGetVerbosity features guest (as_bytes m) data_old data_new (u64 size);
    Ret (st, overlay m m1);
  ApplyValidatorCopy := fun guest m data_old data_new size =>
    '(st, c) ← ApplyValidatorCopy_x86_64 features guest data_old data_new (u64 size) (mkCopy (as_bytes m) [] None 0);
    Ret (st, overlay m (c_mem c));
|}.

Lemma as_bytes_ok m x : is_byte (as_bytes m x).
Proof using. unfold is_byte, as_bytes, u8. apply Z.mod_pos_bound. lia. Qed.

(** A call through the interface. *)
Lemma validator_inv guest m data size stub ro st m' :
  ApplyValidator (Validator := x86_64_validator) guest m data size stub ro = Ret (st, m') ->
  exists m1 r, m' = overlay m m1 /\ answered (as_bytes m) data guest (u64 size) stub ro st m1 r.
Proof using.
  simpl. intros Hr. pose proof (entry_ok guest (as_bytes m) data (u64 size) stub ro None (as_bytes_ok m) (u64_range size) ltac:(done)) as He.
  destruct (ApplyValidator_x86_64 _ _ _ _ _ _ _ _ _) as [[[st1 m1] r]|f]; [|done]. simpl in Hr. injection Hr as <- <-.
  exists m1, r. done.
Qed.

Lemma overlay_same m m1 x : m1 x = as_bytes m x -> overlay m m1 x = m x.
Proof using. intros E. unfold overlay. by rewrite E, Z.eqb_refl. Qed.

#[global] Instance x86_64_laws : ValidatorLaws (H := x86_64_validator).
Proof using.
  split; intros guest m data size stub ro st m' x Hs (m1 & r & -> & Hw & _)%validator_inv.
  - intros Hx. apply overlay_same. destruct (Hw x) as [?|[_ Hin]]; [done|]. exfalso. apply Hx.
    assert (u64 size <= size) by (apply Z.mod_le; [done|reflexivity]). lia.
  - destruct (Hw x) as [E|[E _]]; [left; by apply overlay_same|]. unfold overlay. case_match; [by left|right]. by rewrite E.
Qed.

End Entry.
