(* ===== verification/Loader.v ===== *)
(** * Loading a program: sel_ldr_standard.c

    NaClAppLoadFile from the ELF headers to the final protections, with the
    layout checks and the halt padding of the text.  On an error return the
    application is given up by its caller; after a rejected header the model
    gives it back as it was, later it has the fields of the last completed
    step.  The performance counters and the choice between the
    SSE and AVX switch routines are not modelled. *)

From S2P Require Import Prelude Effects Rounding Bytes Gio MemObj Vmmap VmmapSpec VmmapCompact.
From S2P Require Import DynArray Policy App HostDesc Elf Memory MemorySafe AddrSpace Validate.
From S2P Require Import DynText Trampoline.

Definition NaClFillEndOfTextRegion (nap : NaClApp) (m : memory) : M (NaClApp * memory) :=
  let sled_end := u64 (static_text_end nap + NACL_HALT_SLED_SIZE) in
  if negb (0 =? data_start nap) && (data_start nap <? sled_end) then
    fail (LogFatal "Missing gap between text and data for halt_sled")
  else if negb (0 =? rodata_start nap) && (rodata_start nap <? sled_end) then
    fail (LogFatal "Missing gap between text and rodata for halt_sled")
  else
    page_pad ←
      match text_shm nap with
      | None =>
          let page_pad := u64 (NaClRoundAllocPage sled_end - static_text_end nap) in
          _ ← check (NACL_HALT_SLED_SIZE <=? page_pad) "page_pad >= NACL_HALT_SLED_SIZE";
          _ ← check (page_pad <? NACL_MAP_PAGESIZE + NACL_HALT_SLED_SIZE)
                "page_pad < NACL_MAP_PAGESIZE + NACL_HALT_SLED_SIZE";
          mret page_pad
      | Some _ => mret (u64 (NaClRoundAllocPage (static_text_end nap) - static_text_end nap))
      end;
    m ← NaClFillMemoryRegionWithHalt m (u64 (mem_start nap + static_text_end nap)) page_pad;
    mret (nap <| static_text_end := u64 (static_text_end nap + page_pad) |>, m).

Definition NaClCheckAddressSpaceLayoutSanity (nap : NaClApp) (rodata_end data_end max_vaddr : Z) : NaClErrorCode :=
  if negb (0 =? data_start nap) && negb (data_end =? max_vaddr) then LOAD_DATA_NOT_LAST_SEGMENT
  else if (0 =? data_start nap) && negb (0 =? rodata_start nap) &&
          negb (NaClRoundAllocPage rodata_end =? max_vaddr) then LOAD_NO_DATA_BUT_RODATA_NOT_LAST_SEGMENT
  else if negb (0 =? rodata_start nap) && negb (0 =? data_start nap) && (data_start nap <? rodata_end) then
    LOAD_RODATA_OVERLAPS_DATA
  else if negb (0 =? rodata_start nap) &&
          (rodata_start nap <? NaClRoundAllocPage (NaClEndOfStaticText nap)) then LOAD_TEXT_OVERLAPS_RODATA
  else if (0 =? rodata_start nap) && negb (0 =? data_start nap) &&
          (data_start nap <? NaClRoundAllocPage (NaClEndOfStaticText nap)) then LOAD_TEXT_OVERLAPS_DATA
  else if negb (0 =? rodata_start nap) && negb (NaClRoundAllocPage (rodata_start nap) =? rodata_start nap) then
    LOAD_BAD_RODATA_ALIGNMENT
  else if negb (0 =? data_start nap) && negb (NaClRoundAllocPage (data_start nap) =? data_start nap) then
    LOAD_BAD_DATA_ALIGNMENT
  else LOAD_OK.

Definition NaClAddrIsValidEntryPt (nap : NaClApp) (addr : Z) : bool :=
  if negb (0 =? Z.land addr (bundle_size nap - 1)) then false else addr <? static_text_end nap.

(** The break: the end of the data, or the next allocation page when there is
    no data segment. *)
Definition LoadFile_break (nap : NaClApp) (max_vaddr : Z) : Z :=
  if 0 =? data_start nap then
    let max_vaddr :=
      if (0 =? rodata_start nap) && (u64 (NaClRoundAllocPage max_vaddr - max_vaddr) <? NACL_HALT_SLED_SIZE)
      then u64 (max_vaddr + NACL_MAP_PAGESIZE) else max_vaddr in
    NaClRoundAllocPage max_vaddr
  else max_vaddr.

Section Load.
Context {G : Type} `{HG : Gio G} `{HH : Host} `{HS : Shm} `{HV : Validator} `{HSy : Symbols}.

(** Reading and checking the headers: the application with its layout, or the
    error.  [rodata_end] and [data_end] are locals without an initial value;
    they are read only when their segment was seen. *)
Definition LoadFile_headers (gp : G) (nap : NaClApp) : M (G * (NaClErrorCode + NaClElfImage * NaClApp)) :=
  if NACL_MAX_ADDR_BITS <? addr_bits nap then mret (gp, inl LOAD_ADDR_SPACE_TOO_BIG)
  else
    let nap := nap <| stack_size := NaClRoundAllocPage (stack_size nap) |> in
    '(gp, image) ← NaClElfImageNew gp;
    match image with
    | inl e => mret (gp, inl e)
    | inr image =>
        let subret := NaClElfImageValidateElfHeader image in
        if negb (bool_decide (subret = LOAD_OK)) then mret (gp, inl subret)
        else
          match NaClElfImageValidateProgramHeaders image (addr_bits nap)
                  (mkSegs (static_text_end nap) (rodata_start nap) 0 (data_start nap) 0 0) with
          | inl e => mret (gp, inl e)
          | inr (image, out) =>
              let nap := nap <| static_text_end := sl_static_text_end out |>
                             <| rodata_start := sl_rodata_start out |> <| data_start := sl_data_start out |> in
              let max_vaddr := LoadFile_break nap (sl_max_vaddr out) in
              let nap := nap <| break_addr := max_vaddr |> <| data_end := max_vaddr |>
                             <| bundle_size := NACL_INSTR_BLOCK_SIZE |>
                             <| initial_entry_pt := NaClElfImageGetEntryPoint image |> in
              if negb (NaClAddrIsValidEntryPt nap (initial_entry_pt nap)) then mret (gp, inl LOAD_BAD_ENTRY)
              else
                let subret := NaClCheckAddressSpaceLayoutSanity nap (sl_rodata_end out) (sl_data_end out) max_vaddr in
                if negb (bool_decide (subret = LOAD_OK)) then mret (gp, inl subret)
                else mret (gp, inr (image, nap))
          end
    end.

(** From the reserved address space to the protected image. *)
Definition LoadFile_image (rng : nat -> Z) (gp : G) (image : NaClElfImage) (nap : NaClApp) (m : memory)
  : M (G * NaClApp * memory * NaClErrorCode) :=
  ret ← NaCl_mprotect (u64 (mem_start nap + NACL_TRAMPOLINE_START))
          (u64 (NaClRoundAllocPage (data_end nap) - NACL_TRAMPOLINE_START))
          (Z.lor NACL_ABI_PROT_READ NACL_ABI_PROT_WRITE);
  if negb (0 =? ret) then fail (LogFatal "NaClAppLoadFile: Failed to make image pages writable")
  else
    '(gp, loaded) ← NaClElfImageLoad image gp (addr_bits nap) (mem_start nap) m;
    match loaded with
    | inl e => mret (gp, nap, m, e)
    | inr m =>
        '(nap, subret) ← NaClMakeDynamicTextShared nap;
        if negb (bool_decide (subret = LOAD_OK)) then mret (gp, nap, m, subret)
        else
          '(nap, m) ← NaClFillEndOfTextRegion nap m;
          '(subret, m) ← of_outcome (NaClValidateImage nap m);
          if negb (bool_decide (subret = LOAD_OK)) then mret (gp, nap, m, subret)
          else
            '(nap, m) ← NaClLoadTrampoline rng nap m;
            '(nap, subret) ← NaClMemoryProtection nap;
            mret (gp, nap, m, subret)
    end.

Definition NaClAppLoadFile (rng : nat -> Z) (gp : G) (nap : NaClApp) (m : memory)
  : M (G * NaClApp * memory * NaClErrorCode) :=
  '(gp, r) ← LoadFile_headers gp nap;
  match r with
  | inl e => mret (gp, nap, m, e)
  | inr (image, nap) =>
      '(nap, subret) ← NaClAllocAddrSpace nap;
      if negb (bool_decide (subret = LOAD_OK)) then mret (gp, nap, m, subret)
      else LoadFile_image rng gp image nap m
  end.

(** ** Loading a second program into the dynamic text *)

(** A code segment: read it into a buffer of the runtime at [code_copy], insert
    it. *)
Definition LoadDynamically_code (code_copy : Z) (gfile : G) (nap : NaClApp) (m : memory) (php : Elf_Phdr)
  : M (G * NaClApp * memory * NaClErrorCode) :=
  if negb (malloc_ok (p_filesz php)) then mret (gfile, nap, m, LOAD_NO_MEMORY)
  else
    let '(gfile, n, bs) := gio_Read gfile (p_filesz php) in
    let m := mem_write m code_copy bs in
    if negb (u32 n =? p_filesz php) then mret (gfile, nap, m, LOAD_READ_ERROR)
    else
      '(nap, m, result) ← NaClTextDyncodeCreate nap m (u32 (p_vaddr php)) code_copy (u32 (p_filesz php));
      mret (gfile, nap, m, if negb (0 =? result) then LOAD_UNLOADABLE else LOAD_OK).

(** A data segment: map fresh pages at its address, read it into them. *)
Definition LoadDynamically_data (gfile : G) (nap : NaClApp) (m : memory) (php : Elf_Phdr)
  : M (G * NaClApp * memory * NaClErrorCode) :=
  paddr ← NaClUserToSys nap (p_vaddr php);
  let mapping_size := NaClRoundAllocPage (p_memsz php) in
  '(nap, result) ← NaClCommonSysMmapIntern nap (p_vaddr php) mapping_size
                     (Z.lor NACL_ABI_PROT_READ NACL_ABI_PROT_WRITE)
                     (Z.lor NACL_ABI_MAP_ANONYMOUS NACL_ABI_MAP_PRIVATE) (-1) 0;
  if negb (i32 (p_vaddr php) =? result) then mret (gfile, nap, m, LOAD_UNLOADABLE)
  else
    let '(gfile, n, bs) := gio_Read gfile (p_filesz php) in
    let m := mem_write m paddr bs in
    if negb (u32 n =? p_filesz php) then mret (gfile, nap, m, LOAD_READ_ERROR)
    else if 0 =? Z.land (p_flags php) PF_W then
      rc ← NaCl_mprotect paddr mapping_size NACL_ABI_PROT_READ;
      if negb (0 =? rc) then mret (gfile, nap, m, LOAD_MPROTECT_FAIL)
      else
        mm ← NaClVmmapUpdate (mem_map nap) (Z.shiftr (p_vaddr php) NACL_PAGESHIFT)
               (Z.shiftr mapping_size NACL_PAGESHIFT) PROT_READ None false;
        mret (gfile, nap <| mem_map := mm |>, m, LOAD_OK)
    else mret (gfile, nap, m, LOAD_OK).

Fixpoint LoadDynamically_loop (code_copy : Z) (phs : list Elf_Phdr) (gfile : G) (nap : NaClApp) (m : memory)
  : M (G * NaClApp * memory * NaClErrorCode) :=
  match phs with
  | [] => mret (gfile, nap, m, LOAD_OK)
  | php :: phs' =>
      if negb (PT_LOAD =? p_type php) then LoadDynamically_loop code_copy phs' gfile nap m
      else
        let '(gfile, r) := gio_Seek gfile (i64 (p_offset php)) SEEK_SET in
        if r =? -1 then mret (gfile, nap, m, LOAD_READ_ERROR)
        else
          '(gfile, nap, m, e) ← (if negb (0 =? Z.land (p_flags php) PF_X)
                                then LoadDynamically_code code_copy gfile nap m php
                                else LoadDynamically_data gfile nap m php);
          if bool_decide (e = LOAD_OK) then LoadDynamically_loop code_copy phs' gfile nap m
          else mret (gfile, nap, m, e)
  end.

Definition NaClElfImageLoadDynamically (code_copy : Z) (image : NaClElfImage) (gfile : G) (nap : NaClApp) (m : memory)
  : M (G * NaClApp * memory * NaClErrorCode) :=
  LoadDynamically_loop code_copy (phdrs image) gfile nap m.

Definition NaClAppLoadFileDynamically (code_copy : Z) (gfile : G) (nap : NaClApp) (m : memory)
  : M (G * NaClApp * memory * NaClErrorCode) :=
  '(gfile, image) ← NaClElfImageNew gfile;
  match image with
  | inl e => mret (gfile, nap, m, e)
  | inr image =>
      let ret := NaClElfImageValidateElfHeader image in
      if negb (bool_decide (ret = LOAD_OK)) then mret (gfile, nap, m, ret)
      else
        '(gfile, nap, m, ret) ← NaClElfImageLoadDynamically code_copy image gfile nap m;
        if negb (bool_decide (ret = LOAD_OK)) then mret (gfile, nap, m, ret)
        else
          mret (gfile, nap <| user_entry_pt := initial_entry_pt nap |>
                           <| initial_entry_pt := NaClElfImageGetEntryPoint image |>, m, ret)
  end.
End Load.
