(* ===== verification/LoaderSpec.v ===== *)
(** * A loaded program is sandboxed

    What holds when NaClAppLoadFile returns LOAD_OK: the regions are in order,
    the text that will run is the text that was validated, the trampolines are
    installed, and the invariant that the system calls preserve is established. *)

From S2P Require Import Prelude Effects Rounding Bytes Gio MemObj Vmmap VmmapSpec VmmapCompact.
From S2P Require Import DynArray Policy App HostDesc Elf Memory MemorySafe AddrSpace Validate.
From S2P Require Import DynText Trampoline Loader.

(** ** The checks of the layout *)

Lemma round_alloc_bounds x :
  0 <= x <= two32 -> x <= NaClRoundAllocPage x <= two32 /\ alloc_aligned (NaClRoundAllocPage x) /\
  NaClRoundAllocPage x < x + 65536.
Proof.
  intros Hx. destruct (NaClRoundAllocPage_spec x) as (Ha & Hge & _); [zlia|].
  split_and!; [lia| |done|lia].
  by apply (round_least 65536 x (NaClRoundAllocPage x) two32); [lia|exact Ha|lia| |lia].
Qed.

(** What the accepted headers say about the addresses in [nap]. *)
Record image_layout (nap : NaClApp) : Prop := {
  il_text : NACL_TRAMPOLINE_END <= static_text_end nap < two32;
  il_break : break_addr nap = data_end nap /\ static_text_end nap <= data_end nap <= two32 + 65536;
  il_rodata : rodata_start nap = 0 \/
    alloc_aligned (rodata_start nap) /\ NaClRoundAllocPage (static_text_end nap) <= rodata_start nap < data_end nap;
  il_data : data_start nap = 0 \/
    alloc_aligned (data_start nap) /\ NaClRoundAllocPage (static_text_end nap) <= data_start nap < data_end nap /\
    (rodata_start nap <> 0 -> rodata_start nap < data_start nap);
  il_entry : initial_entry_pt nap mod 32 = 0 /\ initial_entry_pt nap < static_text_end nap;
  il_bundle : bundle_size nap = 32;
}.

Lemma break_bounds nap max :
  NACL_TRAMPOLINE_END <= max < two32 ->
  max <= LoadFile_break nap max <= two32 + 65536 /\
  (data_start nap <> 0 -> LoadFile_break nap max = max) /\
  (data_start nap = 0 -> rodata_start nap <> 0 -> LoadFile_break nap max = NaClRoundAllocPage max).
Proof.
  change NACL_TRAMPOLINE_END with 131072. intros Hm. unfold LoadFile_break.
  destruct (round_alloc_bounds max) as ((H1 & H2) & _ & H3); [lia|].
  destruct (0 =? data_start nap) eqn:Hd; zbool; [|split_and!; done || lia].
  destruct (0 =? rodata_start nap) eqn:Hr; zbool; cbn [andb]; [|split_and!; done || lia].
  case_match; [|split_and!; done || lia].
  change NACL_MAP_PAGESIZE with 65536. rewrite u64_small by zlia.
  destruct (NaClRoundAllocPage_spec (max + 65536)) as (Ha & Hge & _); [zlia|].
  split_and!; [lia| |lia|done].
  apply (round_least 65536 (max + 65536) (NaClRoundAllocPage (max + 65536)) (two32 + 65536)); [lia|exact Ha|lia|done|lia].
Qed.

(** The header checks give the layout. *)
Lemma layout_sanity nap image out :
  program_ok image out -> static_text_end nap = sl_static_text_end out ->
  rodata_start nap = sl_rodata_start out -> data_start nap = sl_data_start out ->
  break_addr nap = LoadFile_break nap (sl_max_vaddr out) -> data_end nap = break_addr nap ->
  bundle_size nap = 32 -> NaClAddrIsValidEntryPt nap (initial_entry_pt nap) = true ->
  NaClCheckAddressSpaceLayoutSanity nap (sl_rodata_end out) (sl_data_end out) (break_addr nap) = LOAD_OK ->
  image_layout nap /\ sl_max_vaddr out <= data_end nap.
Proof.
  intros [Hm Ht Hr Hd _] Est Ero Eda Ebr Ede Ebs. unfold NaClAddrIsValidEntryPt. rewrite Ebs.
  destruct (negb (0 =? Z.land _ _)) eqn:He; [done|]. intros Hlt. apply negb_false_iff in He. zbool.
  destruct (break_bounds nap (sl_max_vaddr out) Hm) as (Hb1 & Hb2 & _). rewrite <- Ebr in *.
  change NACL_TRAMPOLINE_END with 131072 in *.
  destruct (NaClRoundAllocPage_spec (static_text_end nap)) as (_ & Hrt & _); [zlia|].
  assert (Hentry : initial_entry_pt nap mod 32 = 0).
  { rewrite <- (land_ones_mod _ 5), Z.land_comm by lia. done. }
  unfold NaClCheckAddressSpaceLayoutSanity, NaClEndOfStaticText.
  rewrite Ede, <- Ero, <- Eda in *. intros Hc. split; [|lia].
  destruct (0 =? data_start nap) eqn:Hd0, (0 =? rodata_start nap) eqn:Hr0; zbool; cbn [negb andb] in Hc;
    repeat match type of Hc with (if ?b then _ else _) = _ => destruct b eqn:?; [done|] end; zbool;
    split; rewrite ?Ede; change NACL_TRAMPOLINE_END with 131072; try done; try lia; try (left; lia); try (split; done || lia); try right.
  - destruct Hr as [|Hr]; [lia|]. split; [|lia].
    destruct (NaClRoundAllocPage_spec (rodata_start nap)) as (Ha & _); [zlia|]. congruence.
  - destruct Hd as [|Hd]; [lia|]. rewrite Hb2 by lia. split_and!; [|lia|lia|lia].
    destruct (NaClRoundAllocPage_spec (data_start nap)) as (Ha & _); [zlia|]. congruence.
  - destruct Hr as [|Hr]; [lia|]. split; [|lia].
    destruct (NaClRoundAllocPage_spec (rodata_start nap)) as (Ha & _); [zlia|]. congruence.
  - destruct Hd as [|Hd], Hr as [|Hr]; [lia|lia|lia|]. rewrite Hb2 by lia. split_and!; [|lia|lia|lia].
    destruct (NaClRoundAllocPage_spec (data_start nap)) as (Ha & _); [zlia|]. congruence.
Qed.

(** The fields loading does not touch before the final protections. *)
Record keeps (a b : NaClApp) : Prop := {
  kp_bits : addr_bits b = addr_bits a;
  kp_map : mem_map b = mem_map a;
  kp_desc : desc_tbl b = desc_tbl a;
  kp_shm_flag : use_shm_for_dynamic_text b = use_shm_for_dynamic_text a;
  kp_skip : skip_validator b = skip_validator a;
  kp_ignore : ignore_validator_result b = ignore_validator_result a;
  kp_fixed : fixed_feature_cpu_mode b = fixed_feature_cpu_mode a;
  kp_callback : g_syscallback b = g_syscallback a;
}.

#[global] Instance keeps_preorder : PreOrder keeps.
Proof.
  split; [by split|]. intros a b c [] []. split; congruence.
Qed.

Lemma Validate_loop_error bits phs : forall seen out e, Validate_loop bits phs seen out = inl e -> e <> LOAD_OK.
Proof.
  induction phs as [|php phs IH]; intros seen out e; simpl; [done|].
  destruct (Validate_phdr _ _ _ _) as [e1|[[seen1 ld] out1]] eqn:H1.
  - intros [= <-]. revert H1. unfold Validate_phdr, apply_action. repeat (case_match; try done); by intros [= <-].
  - destruct (Validate_loop _ _ _ _) as [e2|[[? ?] ?]] eqn:H2; [|done]. intros [= <-]. by eapply IH.
Qed.

Lemma ProgramHeaders_error image bits out e :
  NaClElfImageValidateProgramHeaders image bits out = inl e -> e <> LOAD_OK.
Proof.
  unfold NaClElfImageValidateProgramHeaders. destruct (Validate_loop _ _ _ _) as [e1|[[? ?] ?]] eqn:Hl.
  - intros [= <-]. by apply Validate_loop_error in Hl.
  - case_match; by intros [= <-].
Qed.

Section Headers.
Context {G : Type} `{HG : Gio G} `{HL : !GioLaws G} `{HH : Host}.

Lemma ElfImageNew_spec gp l gp' image :
  gio_ok gp -> NaClElfImageNew gp = (l, Ret (gp', inr image)) -> gio_ok gp' /\ Forall phdr_typed (phdrs image).
Proof using All.
  intros Hg. unfold NaClElfImageNew.
  destruct (gio_Seek gp 0 SEEK_SET) as [g1 r1] eqn:Hq1. apply gio_Seek_law in Hq1; [|done].
  case_match; [by intros [_ ?]%M_ret_inv|].
  destruct (gio_Read g1 sizeof_Ehdr) as [[g2 n2] bs] eqn:Hq2. apply gio_Read_law in Hq2 as [Hq2 _]; [|done|done].
  repeat (case_match; [by intros [_ ?]%M_ret_inv|]).
  destruct (gio_Seek g2 _ SEEK_SET) as [g3 r3] eqn:Hq3. apply gio_Seek_law in Hq3; [|done].
  case_match; [by intros [_ ?]%M_ret_inv|].
  destruct (gio_Read g3 _) as [[g4 n4] bs4] eqn:Hq4. apply gio_Read_law in Hq4 as [Hq4 _]; [|done|].
  2: { apply Z.mul_nonneg_nonneg; [|done]. apply (rd_bytes_range _ 2). }
  case_match; [by intros [_ ?]%M_ret_inv|]. case_match; [|done].
  intros [_ Heq]%M_ret_inv. injection Heq as <- <-. split; [done|]. apply phdrs_of_bytes_typed.
Qed.

Lemma ElfImageNew_error gp l gp' e : NaClElfImageNew gp = (l, Ret (gp', inl e)) -> e <> LOAD_OK.
Proof using.
  unfold NaClElfImageNew. repeat (case_match; try by intros [_ [= _ <-]]%M_ret_inv); done.
Qed.

Lemma headers_spec gp nap l gp' image nap1 :
  gio_ok gp -> addr_bits nap = 32 -> rodata_start nap = 0 -> data_start nap = 0 ->
  LoadFile_headers gp nap = (l, Ret (gp', inr (image, nap1))) ->
  gio_ok gp' /\ Forall phdr_typed (phdrs image) /\
  (exists out, program_ok image out /\ sl_max_vaddr out <= data_end nap1) /\ image_layout nap1 /\
  keeps nap nap1 /\ stack_size nap1 = NaClRoundAllocPage (stack_size nap) /\ text_shm nap1 = text_shm nap /\
  dispatch_thunk nap1 = dispatch_thunk nap.
Proof using All.
  intros Hg Hbits Hr0 Hd0. unfold LoadFile_headers. rewrite Hbits. change (NACL_MAX_ADDR_BITS <? 32) with false.
  cbv iota. remember (nap <| stack_size := NaClRoundAllocPage (stack_size nap) |>) as napS eqn:HS.
  assert (Hk : keeps nap napS) by (by subst napS).
  assert (Hst : stack_size napS = NaClRoundAllocPage (stack_size nap) /\ text_shm napS = text_shm nap /\
    dispatch_thunk napS = dispatch_thunk nap) by (by subst napS).
  assert (Hz : rodata_start napS = 0 /\ data_start napS = 0) by (by subst napS).
  destruct Hst as (Hst & Hsh & Hth), Hz as [Hz1 Hz2]. clear HS. cbv zeta. intros Hrun. apply M_bind_ret_inv in Hrun as (? & [g1 im] & ? & Hnew & Hrun & _).
  destruct im as [e|im]; [by apply M_ret_inv in Hrun as [_ ?]|].
  destruct (ElfImageNew_spec _ _ _ _ Hg Hnew) as [Hg1 Hty].
  case_bool_decide; cbn [negb] in Hrun; [|by apply M_ret_inv in Hrun as [_ ?]].
  rewrite (kp_bits _ _ Hk), Hbits, Hz1, Hz2 in Hrun.
  destruct (NaClElfImageValidateProgramHeaders _ _ _) as [e|[im' out]] eqn:Hph;
    [by apply M_ret_inv in Hrun as [_ ?]|].
  apply ProgramHeaders_spec in Hph as (Hok & Hphs & _); [|done|done|done].
  match type of Hrun with context [NaClAddrIsValidEntryPt ?n _] => set (nap2 := n) in Hrun end.
  destruct (NaClAddrIsValidEntryPt nap2 _) eqn:Hentry; cbn [negb] in Hrun; [|by apply M_ret_inv in Hrun as [_ ?]].
  case_bool_decide as Hsane; cbn [negb] in Hrun; [|by apply M_ret_inv in Hrun as [_ ?]].
  apply M_ret_inv in Hrun as [_ Heq]. injection Heq as <- <- <-.
  destruct (layout_sanity nap2 im' out) as [Hlay Hmax]; try done. rewrite Hphs. split_and!; try done.
  - by exists out.
  - by transitivity napS.
Qed.
End Headers.

(** ** The address space *)

Section Space.
Context `{HH : Host} `{HS : Shm}.

Lemma AllocAddrSpace_spec nap l nap1 :
  user_reservation -> addr_bits nap = 32 -> image_layout nap -> alloc_aligned (stack_size nap) -> 0 < stack_size nap ->
  NaClAllocAddrSpace nap = (l, Ret (nap1, LOAD_OK)) ->
  nap1 = nap <| mem_start := mem_start nap1 |> /\ placed nap1 /\ stack_size nap < two32 /\
  NaClRoundAllocPage (data_end nap) <= two32 - stack_size nap.
Proof using All.
  intros Hres Hbits Hlay Hsa Hs Hrun. unfold NaClAllocAddrSpace in Hrun.
  assert (Hlim : addr_limit nap = two32) by (unfold addr_limit; by rewrite Hbits). rewrite Hlim in Hrun.
  apply M_bind_ret_inv in Hrun as (? & [e|m] & ? & Halloc & Hrun & _).
  { apply AllocateSpace_error in Halloc. apply M_ret_inv in Hrun as [_ [= _ ?]]. congruence. }
  apply AllocateSpace_spec in Halloc as (Hm & Ha & Hlo & Hhi & He); [|done].
  change FOURGIG with two32 in *. change GUARDSIZE with (10 * two32) in *. cbv zeta in Hrun.
  remember (nap <| mem_start := m |>) as nap2 eqn:H2.
  assert (Hpl : placed nap2) by (subst nap2; split; done || (simpl; zlia)).
  assert (Hf : data_end nap2 = data_end nap /\ stack_size nap2 = stack_size nap) by (by subst nap2).
  destruct Hf as [Hf1 Hf2].
  assert (Hlim2 : addr_limit nap2 = two32) by (by apply addr_limit_val).
  apply M_bind_ret_inv in Hrun as (? & hole & ? & Hhole & Hrun & _). unfold AllocAddrSpace_hole in Hhole.
  rewrite Hlim2, Hf1, Hf2 in Hhole. destruct (two32 <=? stack_size nap) eqn:Hbig; zbool; [done|].
  rewrite u64_small in Hhole by zlia. rewrite NaClTruncAllocPage_aligned in Hhole by (try zlia; by apply aligned_sub).
  destruct (two32 - stack_size nap <? _) eqn:Hov; zbool.
  { apply M_ret_inv in Hhole as [_ <-]. by apply M_ret_inv in Hrun as [_ ?]. }
  apply M_ret_inv in Hhole as [_ <-].
  assert (Hend : nap1 = nap2).
  { destruct (_ =? 0); [by apply M_ret_inv in Hrun as [_ [= <-]]|].
    apply M_bind_ret_inv in Hrun as (? & r & ? & _ & Hrun & _). destruct (negb _); [by apply M_ret_inv in Hrun as [_ ?]|].
    apply M_bind_ret_inv in Hrun as (? & r' & ? & _ & Hrun & _). destruct (negb _); by apply M_ret_inv in Hrun as [_ [= <-]]. }
  subst nap1. split_and!; [by rewrite H2|done|lia|lia].
Qed.

(** Where the dynamic text ends: at the first segment above the text when
    dynamic loading is enabled. *)
Lemma MakeDynamicTextShared_spec nap l nap1 :
  image_layout nap -> NaClMakeDynamicTextShared nap = (l, Ret (nap1, LOAD_OK)) ->
  nap1 = nap <| dynamic_text_start := NaClRoundAllocPage (static_text_end nap) |>
             <| dynamic_text_end := dynamic_text_end nap1 |>
             <| dynamic_page_bitmap := dynamic_page_bitmap nap1 |> <| text_shm := text_shm nap1 |> /\
  alloc_aligned (dynamic_text_end nap1) /\ NaClRoundAllocPage (static_text_end nap) <= dynamic_text_end nap1 /\
  (rodata_start nap <> 0 -> dynamic_text_end nap1 <= rodata_start nap) /\
  (data_start nap <> 0 -> dynamic_text_end nap1 <= data_start nap).
Proof using All.
  intros [Ht [_ Hde] Hr Hd _ _]. change NACL_TRAMPOLINE_END with 131072 in Ht.
  destruct (round_alloc_bounds (static_text_end nap)) as (Hb & Hal & _); [lia|].
  unfold NaClMakeDynamicTextShared, NaClEndOfStaticText. set (D := NaClRoundAllocPage (static_text_end nap)) in *.
  destruct (use_shm_for_dynamic_text nap); cbn [negb].
  2: { intros [_ [= <-]]%M_ret_inv. cbn. split_and!; [by destruct nap|done|lia|lia|lia]. }
  set (E1 := if 0 =? rodata_start nap then data_start nap else rodata_start nap).
  set (E := if 0 =? E1 then D else E1). cbv zeta.
  assert (HE : alloc_aligned E /\ D <= E /\ (rodata_start nap <> 0 -> E <= rodata_start nap) /\
    (data_start nap <> 0 -> E <= data_start nap)).
  { unfold E, E1. destruct (0 =? rodata_start nap) eqn:Hz; zbool; cycle 1.
    - replace (0 =? rodata_start nap) with false by (symmetry; apply Z.eqb_neq; lia).
      destruct Hr as [|[? ?]]; [lia|]. split_and!; [done|lia|lia|]. destruct Hd as [|(? & ? & ?)]; lia.
    - destruct (0 =? data_start nap) eqn:Hz2; zbool; [split_and!; done || lia|].
      destruct Hd as [|(? & ? & ?)]; [lia|]. split_and!; done || lia. }
  clearbody E. clear E1. destruct (0 =? u64 _) eqn:Hz.
  { intros [_ [= <-]]%M_ret_inv. cbn. destruct HE as (? & ? & ? & ?). split_and!; [by destruct nap|done..]. }
  destruct (malloc_ok _); cbn [negb]; [|by intros [_ ?]%M_ret_inv].
  destruct (shm_AllocCtor _) as [shm|]; [|by intros [_ ?]%M_ret_inv].
  intros Hrun. apply M_bind_ret_inv in Hrun as (? & ? & ? & _ & Hrun & _).
  apply M_bind_ret_inv in Hrun as (? & ? & ? & _ & Hrun & _).
  apply M_bind_ret_inv in Hrun as (? & ? & ? & _ & Hrun & _).
  destruct (negb _); [done|]. destruct (BitmapAllocate _) as [b|]; [|done].
  apply M_ret_inv in Hrun as [_ [= <-]]. cbn. destruct HE as (? & ? & ? & ?). by split_and!.
Qed.

(** The text is padded with HLT to the end of an allocation page; with at least
    a halt sled unless dynamic text follows. *)
Lemma FillEndOfText_spec nap m l nap1 m1 :
  placed nap -> image_layout nap -> static_text_end nap + NACL_HALT_SLED_SIZE <= two32 ->
  NaClFillEndOfTextRegion nap m = (l, Ret (nap1, m1)) ->
  let T := static_text_end nap1 in
  nap1 = nap <| static_text_end := T |> /\ alloc_aligned T /\ static_text_end nap <= T < static_text_end nap + 131072 /\
  (text_shm nap = None -> static_text_end nap + NACL_HALT_SLED_SIZE <= T) /\
  (text_shm nap <> None -> T = NaClRoundAllocPage (static_text_end nap)) /\
  (forall x, ~ mem_start nap + static_text_end nap <= x < mem_start nap + T -> m1 x = m x) /\
  (forall x, mem_start nap + static_text_end nap <= x < mem_start nap + T -> m1 x = NACL_HALT_OPCODE).
Proof using.
  intros [_ Hp1 Hp2 _] [Ht _ _ _ _ _] Hsmall. change NACL_TRAMPOLINE_END with 131072 in Ht.
  change NACL_HALT_SLED_SIZE with 32 in Hsmall.
  unfold NaClFillEndOfTextRegion. change NACL_HALT_SLED_SIZE with 32. rewrite (u64_small (_ + 32)) by zlia.
  set (t := static_text_end nap) in *. cbv zeta.
  destruct (_ && _); [done|]. destruct (_ && _); [done|]. intros Hrun.
  apply M_bind_ret_inv in Hrun as (? & pad & ? & Hpad & Hrun & _).
  destruct (round_alloc_bounds t) as ((Hb1 & _) & Hal1 & Hb1'); [lia|].
  destruct (round_alloc_bounds (t + 32)) as ((Hb2 & _) & Hal2 & Hb2'); [lia|].
  assert (HT : alloc_aligned (t + pad) /\ 0 <= pad < 131072 /\ (text_shm nap = None -> 32 <= pad) /\
    (text_shm nap <> None -> t + pad = NaClRoundAllocPage t)).
  { destruct (text_shm nap).
    - apply M_ret_inv in Hpad as [_ <-]. rewrite u64_small by zlia.
      replace (t + (NaClRoundAllocPage t - t)) with (NaClRoundAllocPage t) by lia. split_and!; done || lia.
    - apply M_bind_ret_inv in Hpad as (? & ? & ? & _ & Hpad & _).
      apply M_bind_ret_inv in Hpad as (? & ? & ? & _ & [_ <-]%M_ret_inv & _). rewrite u64_small by zlia.
      replace (t + (NaClRoundAllocPage (t + 32) - t)) with (NaClRoundAllocPage (t + 32)) by lia. split_and!; done || lia. }
  destruct HT as (HT1 & HT2 & HT3 & HT4). clear Hpad.
  unfold NaClFillMemoryRegionWithHalt in Hrun. change NACL_HALT_LEN with 1 in Hrun. rewrite Z.mod_1_r in Hrun.
  change (0 =? 0) with true in Hrun. cbn [check] in Hrun. rewrite !M_bind_ret_l in Hrun.
  apply M_ret_inv in Hrun as [_ Heq]. injection Heq as <- <-. cbn [static_text_end upd].
  rewrite (u64_small (t + pad)), (u64_small (mem_start nap + t)) by zlia.
  split_and!; try done; try lia.
  - intros Hn. specialize (HT3 Hn). lia.
  - intros y Hy. apply mem_fill_out. lia.
  - intros y Hy. apply mem_fill_in. lia.
Qed.
End Space.

(** ** The loaded program *)

Section Loaded.
Context {G : Type} `{HG : Gio G} `{HL : !GioLaws G} `{HH : Host} `{HS : Shm} `{HV : Validator} `{HVL : !ValidatorLaws}.
Context `{HSy : Symbols}.
(** There is memory for the entries of the map (NaClVmmapAdd does not notice
    when there is none). *)
Hypothesis Hentry : malloc_ok sizeof_NaClVmmapEntry = true.

(** The application NaClAppCtor leaves. *)
Record fresh_app (nap : NaClApp) : Prop := {
  fa_bits : addr_bits nap = 32;
  fa_segments : rodata_start nap = 0 /\ data_start nap = 0 /\ text_shm nap = None /\ dispatch_thunk nap = 0;
  fa_stack : 0 < stack_size nap <= two32;
  fa_map : repr (mem_map nap) [];
  fa_desc : da_inv (desc_tbl nap);
  fa_callback : g_syscallback nap = 0;
}.

(** After the reservation. *)
Record ready (nap : NaClApp) : Prop := {
  rd_layout : image_layout nap;
  rd_placed : placed nap;
  rd_shm : text_shm nap = None /\ dispatch_thunk nap = 0;
  rd_stack : alloc_aligned (stack_size nap) /\ 0 < stack_size nap < two32;
  rd_room : NaClRoundAllocPage (data_end nap) <= two32 - stack_size nap;
  rd_map : repr (mem_map nap) [];
  rd_desc : da_inv (desc_tbl nap);
  rd_callback : g_syscallback nap = 0;
}.

(** The state of a loaded program; [m] is the memory before loading. *)
Record loaded (nap : NaClApp) (m m' : memory) : Prop := {
  ld_layout : layout_ok nap;
  ld_inv : app_inv nap (image_entries nap);
  ld_entry : initial_entry_pt nap mod 32 = 0 /\ initial_entry_pt nap < static_text_end nap;
  ld_start : bundle_size nap = 32 /\ g_syscallback nap = 0;
  ld_trampolines : exists m0, trampolines_ok nap m0 m' (dispatch_thunk nap);
  ld_text : skip_validator nap = false -> ignore_validator_result nap = false ->
    exists mv, accepted nap NACL_TRAMPOLINE_END mv (mem_start nap + NACL_TRAMPOLINE_END)
                 (static_text_end nap - NACL_TRAMPOLINE_END) /\
      forall x, mem_start nap + NACL_TRAMPOLINE_END <= x < mem_start nap + static_text_end nap -> m' x = mv x;
  ld_frame : forall x, ~ mem_start nap + NACL_TRAMPOLINE_START <= x < mem_start nap + data_end nap ->
    ~ dispatch_thunk nap <= x < dispatch_thunk nap + NACL_MAP_PAGESIZE -> m' x = m x;
}.

(** Which programs get a layout that separates the text from the rest: the
    halt sled ends below the dynamic text, and there is a segment above the
    text; [LoadProperties.v] shows what happens to another
    program. *)
Definition separated (nap : NaClApp) : Prop :=
  static_text_end nap <= dynamic_text_start nap /\ (rodata_start nap <> 0 \/ data_start nap <> 0).

Lemma linked_app nap nap' m : mem_start nap' = mem_start nap -> linked nap m -> linked nap' m.
Proof using. intros Hm [H1 H2 H3 H4]. split; try done. by rewrite Hm. Qed.

Lemma fresh_page_app nap nap' a : mem_start nap' = mem_start nap -> fresh_page nap a -> fresh_page nap' a.
Proof using. intros Hm [H1 H2 H3 H4]. split; try done. by rewrite Hm. Qed.

(** Writes inside the sandbox leave the templates in place. *)
Lemma linked_sandbox nap m m' :
  (forall x, ~ mem_start nap <= x < mem_start nap + two32 -> m' x = m x) -> linked nap m -> linked nap m'.
Proof using.
  intros Hx Hl. pose proof (ln_outside _ _ Hl) as [Ho1 Ho2].
  apply (linked_ext nap m); [..|done]; intros x Hin; apply Hx; lia.
Qed.

(** The layout after the text has been padded. *)
Lemma padded_layout nap D E T nap2 :
  ready nap -> alloc_aligned E -> D = NaClRoundAllocPage (static_text_end nap) -> D <= E ->
  (rodata_start nap <> 0 -> E <= rodata_start nap) -> (data_start nap <> 0 -> E <= data_start nap) ->
  alloc_aligned T -> static_text_end nap <= T -> T <= D -> rodata_start nap <> 0 \/ data_start nap <> 0 ->
  (static_text_end nap2 = T /\ dynamic_text_start nap2 = D /\ dynamic_text_end nap2 = E) ->
  (addr_bits nap2 = addr_bits nap /\ mem_start nap2 = mem_start nap /\ rodata_start nap2 = rodata_start nap /\
   data_start nap2 = data_start nap /\ break_addr nap2 = break_addr nap /\ data_end nap2 = data_end nap /\
   stack_size nap2 = stack_size nap) -> layout_ok nap2.
Proof using.
  intros [[Ht [Hbr Hde] Hr Hd _ _] [P1 P2 P3 P4] _ Hst Hroom _ _ _] HE HD HDE Hro Hda HT HtT HTD Hseg.
  change NACL_TRAMPOLINE_END with 131072 in Ht.
  destruct (round_alloc_bounds (static_text_end nap)) as ((Hb1 & _) & Hal & _); [lia|].
  destruct (NaClRoundAllocPage_spec (data_end nap)) as (_ & Hge & _); [zlia|]. rewrite <- HD in *.
  intros (E1 & E2 & E3) (F1 & F2 & F3 & F4 & F5 & F6 & F7).
  split; rewrite ?E1, ?E2, ?E3, ?F1, ?F2, ?F3, ?F4, ?F5, ?F6, ?F7; change NACL_TRAMPOLINE_END with 131072.
  - split; by rewrite ?F1, ?F2.
  - split; [done|lia].
  - split_and!; done || lia.
  - destruct Hr as [?|[? ?]]; [by left|]. destruct (decide (rodata_start nap = 0)); [by left|right].
    split_and!; [done|by apply Hro|lia].
  - destruct Hd as [?|(? & ? & ?)]; [by left|]. destruct (decide (data_start nap = 0)); [by left|right].
    split_and!; [done|by apply Hda|lia|done].
  - split; [done|]. split; [|lia]. destruct Hseg as [Hs|Hs].
    + specialize (Hro Hs). destruct Hr as [?|[? ?]]; [done|lia].
    + specialize (Hda Hs). destruct Hd as [?|(? & ? & ?)]; [done|lia].
  - split_and!; try lia; apply Hst.
Qed.

Lemma ready_bounds nap :
  ready nap -> 131072 <= static_text_end nap <= data_end nap /\ data_end nap + 65536 <= two32.
Proof using.
  intros [[Ht [_ Hde] _ _ _ _] _ _ [Hsa Hs] Hroom _ _ _]. change NACL_TRAMPOLINE_END with 131072 in Ht.
  destruct (NaClRoundAllocPage_spec (data_end nap)) as (_ & Hge & _); [zlia|].
  assert (65536 <= stack_size nap) by (unfold alloc_aligned in Hsa; Z.div_mod_to_equations; lia). lia.
Qed.

(** The text pages: from the padded image to the memory the program starts with. *)
Lemma text_stages rng nap m l nap' m' nap2 m2 m3 :
  ready nap -> linked nap m -> fresh_page nap (dispatch_thunk nap') ->
  static_text_end nap <= static_text_end nap2 <= data_end nap -> mem_start nap2 = mem_start nap ->
  dispatch_thunk nap2 = 0 ->
  (forall x, ~ mem_start nap + NACL_TRAMPOLINE_END <= x < mem_start nap + data_end nap -> m2 x = m x) ->
  NaClValidateImage nap2 m2 = Ret (LOAD_OK, m3) -> NaClLoadTrampoline rng nap2 m3 = (l, Ret (nap', m')) ->
  nap' = nap2 <| dispatch_thunk := dispatch_thunk nap' |> /\ trampolines_ok nap2 m3 m' (dispatch_thunk nap') /\
  (skip_validator nap2 = false -> ignore_validator_result nap2 = false ->
     accepted nap2 NACL_TRAMPOLINE_END m3 (mem_start nap2 + NACL_TRAMPOLINE_END)
       (static_text_end nap2 - NACL_TRAMPOLINE_END)) /\
  (forall x, mem_start nap2 + NACL_TRAMPOLINE_END <= x < mem_start nap2 + static_text_end nap2 -> m' x = m3 x) /\
  (forall x, ~ mem_start nap + NACL_TRAMPOLINE_START <= x < mem_start nap + data_end nap ->
     ~ dispatch_thunk nap' <= x < dispatch_thunk nap' + NACL_MAP_PAGESIZE -> m' x = m x).
Proof using All.
  intros Hrd Hlink Hfresh HT Hms Hth Hm2 Hval Htr. pose proof (ready_bounds nap Hrd) as (Ht & Hde).
  destruct (rd_placed _ Hrd) as [_ P2 P3 _].
  assert (Hval' : 0 <= static_text_end nap2 < two32) by lia.
  apply ValidateImage_spec in Hval as (_ & Hm3 & Hacc); [|lia|lia|done].
  rewrite Hms in Hm3. change NACL_TRAMPOLINE_END with 131072 in *.
  assert (Hout : forall x, ~ mem_start nap + 131072 <= x < mem_start nap + data_end nap -> m3 x = m x).
  { intros x Hx. rewrite Hm3 by lia. by apply Hm2. }
  apply LoadTrampoline_spec in Htr as [Hnap' Htr]; [|..|by apply (fresh_page_app nap)]; try done; try lia.
  2: { apply (linked_app nap); [done|]. apply (linked_sandbox nap m); [|done]. intros x Hx. apply Hout. lia. }
  pose proof (tr_frame _ _ _ _ Htr) as Hfr. rewrite Hms in *. destruct Hfresh as [_ Hfs _ _].
  change NACL_TRAMPOLINE_END with 131072 in *. change NACL_TRAMPOLINE_START with 65536 in *.
  change NACL_MAP_PAGESIZE with 65536 in *.
  split_and!; try done.
  - intros x Hx. apply Hfr; lia.
  - intros x Hx Hx2. rewrite Hfr by lia. apply Hout. lia.
Qed.

Lemma LoadTrampoline_frame rng nap m l nap' m' :
  NaClLoadTrampoline rng nap m = (l, Ret (nap', m')) -> nap' = nap <| dispatch_thunk := dispatch_thunk nap' |>.
Proof using.
  intros Hrun. unfold NaClLoadTrampoline, NaClMakeDispatchThunk in Hrun.
  apply M_bind_ret_inv in Hrun as (? & [[nap1 m1] ok] & ? & Hmk & Hrun & _).
  destruct ok; [|done]. cbn [negb] in Hrun.
  apply M_bind_ret_inv in Hrun as (? & m2 & ? & _ & Hrun & _).
  apply M_bind_ret_inv in Hrun as (? & m3 & ? & _ & [_ [= -> ->]]%M_ret_inv & _).
  destruct (negb (0 =? dispatch_thunk nap)); [apply M_ret_inv in Hmk as [_ [= <- _]]; by destruct nap|].
  apply M_bind_ret_inv in Hmk as (? & [a e] & ? & _ & Hmk & _).
  apply M_bind_ret_inv in Hmk as (? & [m4 ok] & ? & _ & Hmk & _). destruct ok.
  - by apply M_ret_inv in Hmk as [_ [= <- _]].
  - by apply M_bind_ret_inv in Hmk as (? & ? & ? & _ & [_ ?]%M_ret_inv & _).
Qed.

(** The final protections change the memory map only. *)
Definition map_only {A} (nap : NaClApp) (c : M (NaClApp * A)) : Prop :=
  forall l nap' r, c = (l, Ret (nap', r)) -> nap' = nap <| mem_map := mem_map nap' |>.

Lemma map_only_ret {A} nap (r : A) : map_only nap (mret (nap, r)).
Proof using. intros l nap' r' [_ [= <- _]]%M_ret_inv. by destruct nap. Qed.

Lemma map_only_bind {A B} nap (c : M A) (k : A -> M (NaClApp * B)) :
  (forall a, map_only nap (k a)) -> map_only nap (c ≫= k).
Proof using. intros Hk l nap' r (? & a & ? & _ & Hrun & _)%M_bind_ret_inv. by eapply Hk. Qed.

Lemma map_only_seq {A B} nap (c : M (NaClApp * A)) (k : NaClApp * A -> M (NaClApp * B)) :
  map_only nap c -> (forall nap1 a, map_only nap1 (k (nap1, a))) -> map_only nap (c ≫= k).
Proof using.
  intros Hc Hk l nap' r (? & [nap1 a] & ? & Hrun1 & Hrun & _)%M_bind_ret_inv.
  apply Hc in Hrun1. apply Hk in Hrun. by rewrite Hrun, Hrun1.
Qed.

Lemma map_only_add nap page np prot nmop : map_only nap (add_region nap page np prot nmop).
Proof using.
  intros l nap' r Hrun. unfold add_region in Hrun.
  apply M_bind_ret_inv in Hrun as (? & [ok mm] & ? & _ & [_ [= <- _]]%M_ret_inv & _). done.
Qed.

Lemma map_only_protect nap a n p np : map_only nap (protect_region nap a n p np).
Proof using.
  unfold protect_region. apply map_only_bind. intros r. destruct (negb _); [apply map_only_ret|].
  apply map_only_bind. intros u. apply map_only_add.
Qed.

Lemma MemoryProtection_map_only nap : map_only nap (NaClMemoryProtection nap).
Proof using.
  unfold NaClMemoryProtection. apply map_only_seq.
  - unfold NaClMprotectGuards. apply map_only_bind. intros r. destruct (negb _); [apply map_only_ret|].
    apply map_only_seq; [apply map_only_add|]. intros nap1 []; cbn [negb]; [|apply map_only_ret].
    apply map_only_bind. intros r1. destruct (negb _); [apply map_only_ret|].
    apply map_only_bind. intros r2. destruct (negb _); apply map_only_ret.
  - assert (Hall : forall steps, Forall (fun s => forall n, map_only n (s n)) steps ->
      forall n, map_only n (protect_all steps n)).
    { induction 1 as [|s steps Hs _ IH]; intros n; cbn [protect_all]; [apply map_only_ret|].
      apply map_only_seq; [apply Hs|]. intros n1 []; [apply IH|apply map_only_ret]. }
    intros nap1 e. destruct (negb _); [apply map_only_ret|]. apply Hall.
    repeat constructor; intros n.
    + apply map_only_protect.
    + unfold Protect_dynamic. apply map_only_bind. intros a. destruct (negb _); [|apply map_only_ret].
      do 2 (apply map_only_bind; intros ?). apply map_only_add.
    + unfold Protect_rodata. destruct (negb (0 =? rodata_start n)); [|apply map_only_ret].
      do 2 (apply map_only_bind; intros ?). apply map_only_protect.
    + unfold Protect_data. destruct (negb _); [|apply map_only_ret].
      do 2 (apply map_only_bind; intros ?). apply map_only_protect.
    + unfold Protect_stack. apply map_only_bind. intros a. apply map_only_protect.
Qed.

(** Equality of a field along three updates of the application. *)
Ltac by_chain H1 H2 H3 :=
  match goal with |- ?f ?a = _ =>
    etransitivity; [exact (f_equal f H1)|]; etransitivity; [exact (f_equal f H2)|];
    first [reflexivity | exact (f_equal f H3)]
  end.

Lemma LoadFile_image_spec rng gp image out nap m l gp' nap' m' :
  gio_ok gp -> program_ok image out -> sl_max_vaddr out <= data_end nap -> Forall phdr_typed (phdrs image) ->
  ready nap -> LoadFile_image rng gp image nap m = (l, Ret (gp', nap', m', LOAD_OK)) ->
  linked nap' m -> fresh_page nap' (dispatch_thunk nap') -> separated nap' -> loaded nap' m m'.
Proof using All.
  intros Hg Hok Hmax Hty Hrd. pose proof (ready_bounds nap Hrd) as (Ht & Hde).
  pose proof (rd_placed _ Hrd) as [P1 P2 P3 P4]. unfold LoadFile_image. rewrite P1. intros Hrun.
  apply M_bind_ret_inv in Hrun as (? & r & ? & _ & Hrun & _). destruct (negb _); [done|].
  destruct (ElfImageLoad_spec image out gp (mem_start nap) m Hg Hok Hty ltac:(lia) ltac:(lia)) as (g1 & r1 & Hload & _ & Hr1).
  rewrite Hload, M_bind_ret_l in Hrun. destruct r1 as [e|m1]; [apply M_ret_inv in Hrun as [_ [= ]]; congruence|].
  apply M_bind_ret_inv in Hrun as (? & [nap1 e1] & ? & Hdyn & Hrun & _).
  case_bool_decide as He1; cbn [negb] in Hrun; [subst e1|apply M_ret_inv in Hrun as [_ [= ]]; congruence].
  apply MakeDynamicTextShared_spec in Hdyn as (Hnap1 & HE & HDE & HEr & HEd); [|apply Hrd].
  apply M_bind_ret_inv in Hrun as (? & [nap2 m2] & ? & Hfill & Hrun & _).
  assert (Hlay1 : image_layout nap1) by (rewrite Hnap1; destruct (rd_layout _ Hrd); by split).
  assert (Hpl1 : placed nap1) by (rewrite Hnap1; by split).
  assert (Hf1 : static_text_end nap1 = static_text_end nap /\ mem_start nap1 = mem_start nap) by (by rewrite Hnap1).
  destruct Hf1 as [Hf1 Hf1'].
  apply FillEndOfText_spec in Hfill as (Hnap2 & HT & HTb & _ & _ & Hm2 & _); [|done|done|].
  2: { rewrite Hf1. change NACL_HALT_SLED_SIZE with 32. lia. }
  rewrite Hf1 in HTb, Hm2. rewrite Hf1' in Hm2.
  apply M_bind_ret_inv in Hrun as (? & [e2 m3] & ? & [-> Hval]%of_outcome_inv & Hrun & _).
  case_bool_decide as He2; cbn [negb] in Hrun; [subst e2|apply M_ret_inv in Hrun as [_ [= ]]; congruence].
  apply M_bind_ret_inv in Hrun as (? & [nap3 m4] & ? & Htr & Hrun & _).
  apply M_bind_ret_inv in Hrun as (? & [nap4 e4] & ? & Hmp & [_ Heq]%M_ret_inv & _).
  injection Heq as -> -> -> ->. intros Hlink Hfresh Hsep.
  assert (Hn2 : nap2 = nap <| dynamic_text_start := NaClRoundAllocPage (static_text_end nap) |>
    <| dynamic_text_end := dynamic_text_end nap1 |> <| dynamic_page_bitmap := dynamic_page_bitmap nap1 |>
    <| text_shm := text_shm nap1 |> <| static_text_end := static_text_end nap2 |>).
  { rewrite Hnap2 at 1. by rewrite Hnap1 at 1. }
  pose proof (MemoryProtection_map_only _ _ _ _ Hmp) as Hn4. pose proof (LoadTrampoline_frame _ _ _ _ _ _ Htr) as Hn3.
  assert (Hs : static_text_end nap' = static_text_end nap2 /\ dispatch_thunk nap' = dispatch_thunk nap3 /\
    dynamic_text_start nap' = NaClRoundAllocPage (static_text_end nap) /\
    rodata_start nap' = rodata_start nap /\ data_start nap' = data_start nap /\ mem_start nap' = mem_start nap /\
    mem_start nap2 = mem_start nap /\ dispatch_thunk nap2 = dispatch_thunk nap /\ data_end nap' = data_end nap /\
    initial_entry_pt nap' = initial_entry_pt nap).
  { split_and!; first [exact (f_equal dispatch_thunk Hn4) | exact (f_equal mem_start Hn2) |
      exact (f_equal dispatch_thunk Hn2) | by_chain Hn4 Hn3 Hn2]. }
  destruct Hs as (S1 & S2 & S3 & S4 & S5 & S6 & S7 & S8 & S9 & S10).
  unfold separated in Hsep. rewrite S1, S3, S4, S5 in Hsep. destruct Hsep as [Hsled Hsegs].
  assert (Hlay : layout_ok nap3).
  { apply (padded_layout nap _ (dynamic_text_end nap1) (static_text_end nap2) nap3 Hrd HE eq_refl); try done; try lia.
    - split_and!; by_chain Hn3 Hn2 (eq_refl nap).
    - split_and!; by_chain Hn3 Hn2 (eq_refl nap). }
  pose proof (layout_order nap3 Hlay) as (Hst & Hd & Hde3 & _).
  assert (Hmap3 : mem_map nap3 = mem_map nap) by by_chain Hn3 Hn2 (eq_refl nap).
  assert (Hdesc3 : desc_tbl nap3 = desc_tbl nap) by by_chain Hn3 Hn2 (eq_refl nap).
  assert (Hst3 : static_text_end nap3 = static_text_end nap2) by exact (f_equal static_text_end Hn3).
  assert (Hde3' : data_end nap3 = data_end nap) by by_chain Hn3 Hn2 (eq_refl nap).
  destruct (MemoryProtection_spec Hentry nap3 _ _ Hlay ltac:(rewrite Hmap3; apply Hrd) ltac:(rewrite Hdesc3; apply Hrd) Hmp)
    as [Hnap5 Hinv].
  destruct (text_stages rng nap m x5 nap3 m' nap2 m2 m3) as (_ & Htro & Hacc & Htext & Hframe); try done; try lia.
  - by apply (linked_app nap').
  - rewrite <- S2. apply (fresh_page_app nap'); [congruence|done].
  - rewrite S8. apply Hrd.
  - change NACL_TRAMPOLINE_END with 131072 in *. intros y Hy. rewrite Hm2 by lia. apply Hr1. lia.
  - rewrite <- S2, <- S7 in *. split.
    + rewrite Hn4. by apply layout_ok_map.
    + rewrite Hn4 at 2. exact Hinv.
    + rewrite S10, S1. destruct (il_entry _ (rd_layout _ Hrd)). split; [done|lia].
    + assert (Hb : bundle_size nap' = bundle_size nap) by by_chain Hn4 Hn3 Hn2.
      assert (Hc : g_syscallback nap' = g_syscallback nap) by by_chain Hn4 Hn3 Hn2.
      rewrite Hb, Hc. split; [apply (il_bundle _ (rd_layout _ Hrd))|apply Hrd].
    + exists m3. destruct Htro. split; rewrite ?S6; by rewrite S7 in *.
    + rewrite S1, S6. intros Hsk Hig. exists m3. split; [|intros y Hy; apply Htext; lia].
      assert (Hf : skip_validator nap2 = skip_validator nap' /\ ignore_validator_result nap2 = ignore_validator_result nap'
        /\ fixed_feature_cpu_mode nap' = fixed_feature_cpu_mode nap2).
      { split_and!; [symmetry|symmetry|]; by_chain Hn4 Hn3 (eq_refl nap2). }
      destruct Hf as (F1 & F2 & F3). destruct Hacc as (m0 & Ha); [congruence|congruence|].
      exists m0. by rewrite F3.
    + rewrite S6, S9. intros y Hy Hy2. by apply Hframe.
Qed.

(** The error returns of the header checks. *)
Lemma headers_error gp nap l gp' e : LoadFile_headers gp nap = (l, Ret (gp', inl e)) -> e <> LOAD_OK.
Proof using.
  unfold LoadFile_headers. case_match; [by intros [_ [= _ <-]]%M_ret_inv|]. cbv zeta. intros Hrun.
  apply M_bind_ret_inv in Hrun as (? & [g1 im] & ? & Hnew & Hrun & _). destruct im as [e1|im].
  { apply M_ret_inv in Hrun as [_ [= _ <-]]. by apply ElfImageNew_error in Hnew. }
  case_bool_decide as Hv; cbn [negb] in Hrun; [|by apply M_ret_inv in Hrun as [_ [= _ <-]]].
  destruct (NaClElfImageValidateProgramHeaders _ _ _) as [e1|[im' out]] eqn:Hph.
  { apply M_ret_inv in Hrun as [_ [= _ <-]]. by apply ProgramHeaders_error in Hph. }
  destruct (negb _); [by apply M_ret_inv in Hrun as [_ [= _ <-]]|].
  case_bool_decide as Hs; cbn [negb] in Hrun; by apply M_ret_inv in Hrun as [_ [= _ <-]].
Qed.

(** NaClAppLoadFile of a fresh application: what LOAD_OK means. *)
Lemma LoadFile_spec rng gp nap m l gp' nap' m' :
  gio_ok gp -> fresh_app nap -> user_reservation ->
  NaClAppLoadFile rng gp nap m = (l, Ret (gp', nap', m', LOAD_OK)) ->
  linked nap' m -> fresh_page nap' (dispatch_thunk nap') -> separated nap' -> loaded nap' m m'.
Proof using All.
  intros Hg [Hbits (Hr0 & Hd0 & Hs0 & Ht0) Hst Hmap Hdesc Hcb] Hres Hrun Hlink Hfresh Hsep.
  unfold NaClAppLoadFile in Hrun. apply M_bind_ret_inv in Hrun as (? & [g1 r] & ? & Hhead & Hrun & _).
  destruct r as [e|[image nap1]].
  { apply headers_error in Hhead. apply M_ret_inv in Hrun as [_ [= ]]. congruence. }
  apply headers_spec in Hhead as (Hg1 & Hty & (out & Hok & Hmax) & Hlay & Hk & Hss & Hsh & Hth); try done.
  apply M_bind_ret_inv in Hrun as (? & [nap2 e] & ? & Halloc & Hrun & _).
  case_bool_decide as He; cbn [negb] in Hrun; [subst e|apply M_ret_inv in Hrun as [_ [= ]]; congruence].
  destruct (NaClRoundAllocPage_spec (stack_size nap)) as (Hal & Hge & _); [zlia|]. rewrite <- Hss in *.
  destruct Hk as [K1 K2 K3 _ _ _ _ K8].
  apply AllocAddrSpace_spec in Halloc as (Hn2 & Hpl & Hs1 & Hs2); [|done|congruence|done|done|lia].
  assert (Hrd : ready nap2).
  { rewrite Hn2. rewrite Hn2 in Hpl. split; try done; cbn.
    - by destruct Hlay.
    - split; congruence.
    - split; [done|]. split; [lia|done].
    - by rewrite K2.
    - by rewrite K3.
    - by rewrite K8. }
  apply (LoadFile_image_spec rng g1 image out nap2 m x2 gp' nap' m'); try done.
  by rewrite Hn2.
Qed.

(** The application object the loader is given. *)
Lemma Ctor_fresh shm nap : NaClAppWithSyscallTableCtor shm = Some nap -> fresh_app nap.
Proof using.
  clear Hentry. unfold NaClAppWithSyscallTableCtor. destruct (DynArrayCtor 2) as [d|] eqn:Hd; [|done].
  destruct NaClVmmapCtor as [mm|] eqn:Hm; [|done]. cbn -[malloc_ok]. destruct (malloc_ok 16); [|done]. intros [= <-].
  unfold NaClVmmapCtor in Hm. apply Ctor_returns in Hd as [Hd _]; [|done].
  assert (mm = mkVmmap (replicate START_ENTRIES None) 0 START_ENTRIES true) as -> by (repeat case_match; congruence).
  split; simpl; try done. split; simpl; try done. unfold START_ENTRIES. lia.
Qed.
End Loaded.
