(* ===== verification/SampleImage.v ===== *)
(** * A program file

    A small ELF file in memory and an environment it loads in: the input of
    the witnesses about loading. *)

From S2P Require Import Prelude Effects Rounding Bytes Gio MemObj Vmmap VmmapSpec VmmapCompact.
From S2P Require Import DynArray Policy App HostDesc Elf Memory MemorySafe AddrSpace Validate.
From S2P Require Import DynText Trampoline Loader LoaderSpec.

(** [n] bytes of [v], least significant first. *)
Fixpoint le_bytes (n : nat) (v : Z) : list Z :=
  match n with
  | O => []
  | S n' => v mod 256 :: le_bytes n' (v / 256)
  end.

Definition phdr_bytes (type flags offset vaddr filesz memsz : Z) : list Z :=
  le_bytes 4 type ++ le_bytes 4 flags ++ le_bytes 8 offset ++ le_bytes 8 vaddr ++ le_bytes 8 vaddr ++
  le_bytes 8 filesz ++ le_bytes 8 memsz ++ le_bytes 8 65536.

(** Header, a text segment of one bundle and a data segment of 8 bytes with
    4088 bytes of bss. *)
Definition tiny_elf : list Z :=
  [127; 69; 76; 70; 2; 1; 1; 0; 0; 0; 0; 0; 0; 0; 0; 0] ++
  le_bytes 2 2 ++ le_bytes 2 62 ++ le_bytes 4 1 ++ le_bytes 8 131072 ++ le_bytes 8 64 ++ le_bytes 8 0 ++
  le_bytes 4 0 ++ le_bytes 2 64 ++ le_bytes 2 56 ++ le_bytes 2 2 ++ le_bytes 2 0 ++ le_bytes 2 0 ++ le_bytes 2 0 ++
  phdr_bytes PT_LOAD (Z.lor PF_R PF_X) 176 131072 32 32 ++
  phdr_bytes PT_LOAD (Z.lor PF_R PF_W) 208 196608 8 4096 ++
  replicate 32 144 ++ [1; 2; 3; 4; 5; 6; 7; 8].

(** The kernel: the reservation at 32 GB, other requests where asked. *)
Definition load_host : Host := {|
  malloc_ok := fun _ => true;
  host_mprotect := fun _ _ _ => 0;
  host_madvise := fun _ _ _ => 0;
  host_mmap := fun addr _ _ flags _ _ => if (addr =? 0) && (Z.land flags MAP_FIXED =? 0) then 2 ^ 35 else addr;
  host_munmap := fun _ _ => 0;
  host_errno := 0;
  host_fstat := fun _ => (0, 0);
  host_pread := fun _ _ n _ => n;
  host_pwrite := fun _ _ n _ => n;
|}.

Definition load_shm : Shm := {|
  shm_AllocCtor := fun _ => None;
  shm_Map := fun _ a _ _ _ _ => a;
  shm_UnmapUnsafe := fun _ _ _ => 0;
|}.

(** A validator that accepts code that starts with a NOP. *)
Definition load_validator : Validator := {|
  ApplyValidator := fun _ m data size _ _ =>
    Ret (if m data =? 144 then NaClValidationSucceeded else NaClValidationFailed, m);
  ApplyValidatorCodeReplacement := fun _ m _ _ _ => Ret (NaClValidationFailedNotImplemented, m);
  ApplyValidatorCopy := fun _ m _ _ _ => Ret (NaClValidationFailedNotImplemented, m);
|}.

#[global] Instance load_validator_laws : ValidatorLaws (H := load_validator).
Proof. split; intros * _ [= _ <-]; intros; [done|by left]. Qed.

Definition load_symbols : Symbols := {|
  NaCl_trampoline_code := 4194304;
  NaClDispatchThunk := 4194336;
  NaClSyscallSeg := 4194400;
|}.

(** The memory of the runtime: its templates. *)
Definition runtime_memory : memory :=
  mem_write (mem_write (fun _ => 0) 4194304 trampoline_template) 4194336 thunk_template.

Definition tiny_file : GioMemoryFile := GioMemoryFileCtor tiny_elf.

Definition new_app : option NaClApp := NaClAppWithSyscallTableCtor (H := load_host) false.

Definition load_run (gp : GioMemoryFile) (nap : NaClApp) :=
  NaClAppLoadFile (HH := load_host) (HS := load_shm) (HV := load_validator) (HSy := load_symbols)
    (fun _ => 1000) gp nap runtime_memory.

(** The scalar results of loading the sample file. *)
Lemma tiny_run :
  match new_app with
  | Some nap =>
      match load_run tiny_file nap with
      | (_, Ret (_, n, _, e)) => (e, mem_start n, static_text_end n, dynamic_text_start n, data_start n, dispatch_thunk n)
          = (LOAD_OK, 77309411328, 196608, 196608, 196608, 65536000)
      | _ => False
      end
  | None => False
  end.
Proof. vm_compute. reflexivity. Qed.

(** The sample run satisfies what loading relies on. *)
Lemma tiny_loads :
  exists nap l gp' nap' m', new_app = Some nap /\
    load_run tiny_file nap = (l, Ret (gp', nap', m', LOAD_OK)) /\
    linked (HSy := load_symbols) nap' runtime_memory /\
    fresh_page (HSy := load_symbols) nap' (dispatch_thunk nap') /\ separated nap'.
Proof.
  pose proof tiny_run as Hrun. destruct new_app as [nap|] eqn:Hnew; [|done].
  destruct (load_run tiny_file nap) as [l [[[[gp' nap'] m'] e]|f]] eqn:Heq; [|done].
  injection Hrun as -> Hms Hte Hds Hda Hth. exists nap, l, gp', nap', m'. split_and!; [done|done|..].
  - split; [vm_compute; reflexivity..| |]; rewrite ?Hms; vm_compute; intuition discriminate.
  - rewrite Hth. split; rewrite ?Hms; vm_compute; intuition discriminate.
  - split; [by rewrite Hte, Hds|right; by rewrite Hda].
Qed.

Lemma tiny_file_ok : gio_ok tiny_file.
Proof. apply Ctor_inv. vm_compute. reflexivity. Qed.

Lemma load_host_reserves : user_reservation (H := load_host).
Proof. intros _. by split. Qed.
