(* ===== verification/Sysbrk.v ===== *)
(** * sysbrk

    The break moves inside the data segment, which grows over unmapped pages
    only: lemmas on extending one entry of the sorted map, and the cases of
    NaClSysSysbrk. *)

From stdpp Require Import sorting.
From S2P Require Import Prelude Effects Rounding MemObj Vmmap VmmapSpec VmmapCompact VmmapUpdate.
From S2P Require Import VmmapFind DynArray Policy App HostDesc Memory MemorySafe.

(** ** Extending an entry to the right *)

Definition extend (new_end : Z) (e : NaClVmmapEntry) : NaClVmmapEntry :=
  e <| npages := new_end - page_num e |>.

Section Extend.
Context (es1 es2 : list NaClVmmapEntry) (e : NaClVmmapEntry) (new_end : Z).
Hypothesis Hwf : Forall wf_entry (es1 ++ e :: es2).
Hypothesis Hlive : Forall live (es1 ++ e :: es2).
Hypothesis Hsort : StronglySorted before (es1 ++ e :: es2).
Hypothesis Hend : end_page e <= new_end < PAGE_LIMIT.
Hypothesis Hnext : forall x, head es2 = Some x -> new_end <= page_num x.

Lemma extend_above x : x ∈ es2 -> new_end <= page_num x.
Proof using All.
  intros Hx. apply StronglySorted_app in Hsort as (_ & _ & Hs). apply StronglySorted_cons in Hs as [_ Hs].
  destruct es2 as [|y es]; [by apply elem_of_nil in Hx|]. specialize (Hnext y eq_refl).
  apply elem_of_cons in Hx as [->|Hx]; [done|].
  apply StronglySorted_cons in Hs as [Hf _]. rewrite Forall_forall in Hf. specialize (Hf x Hx).
  apply Forall_app in Hwf as [_ Hw]. inversion Hw as [|?? _ Hw']; subst. inversion Hw' as [|?? [] _]; subst.
  regions.
Qed.

Lemma extend_sorted : StronglySorted before (es1 ++ extend new_end e :: es2).
Proof using All.
  pose proof extend_above as Hab.
  apply StronglySorted_app in Hsort as (Hcross & H1 & H2). apply StronglySorted_cons in H2 as [Hf H2].
  apply StronglySorted_app. split_and!; [|done|].
  - intros x y Hx [->|Hy]%elem_of_cons.
    + specialize (Hcross x e Hx). unfold extend. unfold before in *. simpl. apply Hcross. by left.
    + apply Hcross; [done|]. by right.
  - apply StronglySorted_cons. split; [|done]. apply Forall_forall. intros x Hx. specialize (Hab x Hx).
    unfold before, end_page, extend in *. simpl. lia.
Qed.

Lemma extend_wf : Forall wf_entry (es1 ++ extend new_end e :: es2).
Proof using All.
  apply Forall_app in Hwf as [H1 H2]. inversion H2 as [|?? [] H3]; subst.
  apply Forall_app. split; [done|]. constructor; [|done]. unfold extend. split; regions.
Qed.

Lemma extend_live : Forall live (es1 ++ extend new_end e :: es2).
Proof using All.
  apply Forall_app in Hlive as [H1 H2]. inversion H2; subst. apply Forall_app. by repeat constructor.
Qed.

(** The new pages belong to the extended entry, the others are unchanged. *)
Lemma extend_pages :
  same_pages (lookup_page (es1 ++ extend new_end e :: es2))
    (override (lookup_page (es1 ++ e :: es2)) (end_page e) new_end (fun p => Some (info e p))).
Proof using All.
  intros p. pose proof extend_above as Hab. unfold override.
  apply Forall_app in Hlive as [_ Hl2]. inversion Hl2 as [|?? Hle _]; subst.
  apply Forall_app in Hwf as [_ Hw2]. inversion Hw2 as [|?? [] _]; subst.
  rewrite !lookup_page_app. cbn [lookup_page].
  assert (Hcov : covers (extend new_end e) p <-> page_num e <= p < new_end)
    by (unfold covers, end_page, extend; simpl; lia).
  assert (Hlow : end_page e <= p -> lookup_page es1 p = None).
  { intros Hp. apply lookup_page_None. intros x Hx _ Hc.
    apply StronglySorted_app in Hsort as (Hcross & _ & _). specialize (Hcross x e Hx ltac:(by left)). regions. }
  assert (Hhigh : p < new_end -> lookup_page es2 p = None).
  { intros Hp. apply lookup_page_None. intros x Hx _ Hc. specialize (Hab x Hx). regions. }
  destruct (decide (end_page e <= p < new_end)) as [Hp|Hp].
  - rewrite Hlow by lia. rewrite decide_True; [done|]. split; [done|]. apply Hcov. regions.
  - destruct (lookup_page es1 p); [done|]. destruct (decide (covers e p)) as [Hc|Hc].
    + rewrite !decide_True; [done|by split|]. split; [done|]. apply Hcov. regions.
    + rewrite !decide_False; [done|tauto|]. rewrite Hcov. intros [_ Hc']. apply Hc. regions.
Qed.
End Extend.

Lemma extend_vm_inv mm es ix e new_end :
  vm_inv mm es -> StronglySorted before es -> es !! ix = Some e ->
  end_page e <= new_end < PAGE_LIMIT ->
  (forall x, es !! S ix = Some x -> new_end <= page_num x) ->
  exists es', vm_inv (mm <| vmentry := <[ix := Some (extend new_end e)]> (vmentry mm) |>) es' /\
    StronglySorted before es' /\
    same_pages (lookup_page es')
      (override (lookup_page es) (end_page e) new_end (fun p => Some (info e p))).
Proof.
  intros [Hr Hwf Hl Hsep _] Hs He Hend Hnext. pose proof (lookup_lt_Some _ _ _ He) as Hix.
  exists (<[ix := extend new_end e]> es).
  destruct (repr_write mm es ix (extend new_end e) Hr Hix) as [_ Hr'].
  pose proof (take_drop_middle es ix e He) as Heq.
  assert (Hlen : length (take ix es) = ix) by (rewrite length_take; lia).
  rewrite <- Heq in Hwf, Hl, Hs, Hnext |- *. rewrite <- Heq in Hr' at 1.
  set (es1 := take ix es) in *. set (es2 := drop (S ix) es) in *. clearbody es1 es2.
  rewrite <- Hlen, insert_middle in Hr'. rewrite <- Hlen, insert_middle.
  assert (Hnext' : forall x, head es2 = Some x -> new_end <= page_num x).
  { intros x Hx. apply Hnext. rewrite lookup_app_r by lia.
    replace (S ix - length es1)%nat with 1%nat by lia. by destruct es2. }
  pose proof (extend_sorted es1 es2 e new_end Hwf Hl Hs Hend Hnext') as Hs'.
  split_and!; [|done|by apply extend_pages].
  split; [done|by apply extend_wf|by apply extend_live| |by intros _].
  by apply StronglySorted_separated.
Qed.

(** ** NaClSysSysbrk *)

Definition brk_page (nap : NaClApp) : Z := (break_addr nap - 1) / 4096.

(** What a call returns and does: nothing, or the break is [nb] and the pages
    from the old break to the new one are mapped; the pages that were not
    mapped before lie between the old break and the new one, rounded up. *)
Definition brk_result (nap : NaClApp) (es : list NaClVmmapEntry) (nb : Z) (nap' : NaClApp)
    (es' : list NaClVmmapEntry) : Prop :=
  (break_addr nap' = break_addr nap /\ same_pages (lookup_page es') (lookup_page es)) \/
  (break_addr nap' = nb /\ data_end nap <= nb < two32 /\
   (forall p i, lookup_page es p = Some i -> lookup_page es' p = Some i) /\
   (forall p, brk_page nap <= p <= (nb - 1) / 4096 -> break_addr nap < nb -> is_Some (lookup_page es' p)) /\
   (forall p, lookup_page es p = None -> is_Some (lookup_page es' p) ->
      brk_page nap < p /\ p * 4096 < NaClRoundAllocPage nb)).

Lemma round_alloc_32 nb :
  0 < nb < two32 -> let r := NaClRoundAllocPage nb in
  nb <= r <= two32 /\ alloc_aligned r /\ Z.shiftr (u64 (r - 1)) NACL_PAGESHIFT + 1 = r / 4096.
Proof.
  intros Hnb r. destruct (NaClRoundAllocPage_spec nb) as (Ha & Hb & _); [zlia|]. fold r in Ha, Hb.
  assert (r <= two32).
  { apply (round_least 65536 nb); [lia|done|done|done|lia]. }
  split; [lia|]. split; [done|]. rewrite shiftr_page, u64_small by zlia.
  unfold alloc_aligned in Ha. unfold_words. Z.div_mod_to_equations. lia.
Qed.

Lemma app_inv_break nap es b :
  app_inv nap es -> data_end nap <= b < two32 -> app_inv (nap <| break_addr := b |>) es.
Proof.
  intros [Hpl Hm Hpg Ht [Hd1 Hd2] Hde] Hb.
  split; [by destruct Hpl; split|done|by destruct Hpg; split|done|by split|done].
Qed.

Section Brk.
Context `{Host}.
Hypothesis Hprot : forall a n p, host_mprotect a n p = 0.

Lemma covered_lookup mm es e ix p :
  vm_inv mm es -> es !! ix = Some e -> covers e p -> lookup_page es p = Some (info e p).
Proof.
  intros Hv He Hc. apply lookup_page_Some; [apply (vm_sep _ _ Hv)|]. exists e.
  assert (e ∈ es) by by eapply list_elem_of_lookup_2.
  pose proof (vm_live _ _ Hv) as Hl. rewrite Forall_forall in Hl. auto.
Qed.

(** Extending the entry of the break keeps the pages of the sandbox in order. *)
Lemma extend_pages_ok nap es ix e new_end :
  app_inv nap es -> es !! ix = Some e -> covers e (brk_page nap) -> new_end <= PAGE_COUNT ->
  pages_ok nap (override (lookup_page es) (end_page e) new_end (fun p => Some (info e p))).
Proof using.
  intros [_ Hm [H1 H2 (a & Ha & Hsa)] _ [Hda Hbr] _] He Hc Hend.
  pose proof (wf_at es (vm_wf _ _ Hm) _ _ He) as [].
  assert (text_pages nap <= brk_page nap) by (apply Z.div_le_mono; lia). split.
  - intros p i. unfold override. case_decide; [|by apply H1]. intros _. regions.
  - intros p i. unfold override. case_decide; [|by apply H2]. intros [= <-] _.
    by apply (H2 _ _ (covered_lookup _ _ _ _ _ Hm He Hc)).
  - exists a. split; [done|]. unfold override. rewrite decide_False; [done|]. destruct Hc. lia.
Qed.

(** The extending branch. *)
Lemma Sysbrk_extend_spec nap es ix e nb last :
  app_inv nap es -> StronglySorted before es -> es !! ix = Some e -> covers e (brk_page nap) ->
  break_addr nap < nb < two32 -> last + 1 = NaClRoundAllocPage nb / 4096 -> end_page e <= (nb - 1) / 4096 ->
  (forall x, es !! S ix = Some x -> last < page_num x) ->
  exists l nap' es', Sysbrk_extend nap ix e last nb = (l, Ret nap') /\ app_inv nap' es' /\
    nap' = nap <| mem_map := mem_map nap' |> <| break_addr := nb |> /\
    same_pages (lookup_page es')
      (override (lookup_page es) (end_page e) (last + 1) (fun p => Some (info e p))) /\
    Forall (confined (mem_start nap + dynamic_text_end nap) (mem_start nap + two32)) l.
Proof using Hprot.
  intros Hinv Hs He Hc Hnb Hlast Hend Hnext. pose proof Hinv as [Hpl Hm Hpg [Hal Htx] [Hda Hbr] Hd].
  destruct (round_alloc_32 nb) as (Hr & Hra & _); [lia|]. set (r := NaClRoundAllocPage nb) in *.
  pose proof (wf_at es (vm_wf _ _ Hm) _ _ He) as Hwe. pose proof Hwe as [Hw1 Hw2 Hw3].
  assert (Hr4 : r = (last + 1) * 4096) by (unfold alloc_aligned in *; Z.div_mod_to_equations; lia).
  assert (Hle : end_page e <= last + 1 < PAGE_LIMIT).
  { unfold PAGE_LIMIT. split; [|zlia]. assert ((nb - 1) / 4096 < r / 4096); [|lia].
    unfold alloc_aligned in *. Z.div_mod_to_equations. lia. }
  assert (Hbp : break_addr nap - 1 < end_page e * 4096).
  { destruct Hc as [_ Hc]. unfold brk_page in Hc. Z.div_mod_to_equations. lia. }
  assert (Hep : end_page e * 4096 <= nb - 1) by (Z.div_mod_to_equations; lia).
  destruct (extend_vm_inv (mem_map nap) es ix e (last + 1) Hm Hs He Hle) as (es' & Hm' & _ & Hsame);
    [intros x Hx; specialize (Hnext x Hx); lia|].
  unfold Sysbrk_extend. rewrite entry_end, !shiftl_page by done.
  rewrite (u64_small (end_page e * 4096)) by (unfold PAGE_LIMIT in *; zlia).
  rewrite store_ok by (pose proof (holds_length _ _ (repr_holds _ _ (vm_repr _ _ Hm))) as Hl;
    apply lookup_lt_Some in He; lia).
  rewrite M_bind_ret_l.
  replace (u64 (last - page_num e + 1)) with (last + 1 - page_num e) by (rewrite u64_small; regions).
  change (e <| npages := last + 1 - page_num e |>) with (extend (last + 1) e).
  set (mm' := (mem_map nap) <| vmentry := _ |>).
  assert (Hpg' : pages_ok nap (lookup_page es')).
  { eapply pages_ok_ext; [intros p; symmetry; apply Hsame|].
    apply (extend_pages_ok nap es ix e); try done. unfold PAGE_COUNT. zlia. }
  assert (Hinv' : app_inv (nap <| mem_map := mm' |> <| break_addr := nb |>) es').
  { apply app_inv_break; [by eapply app_inv_map|]. simpl. lia. }
  assert (exists l, (if whole_chunk nap then mret tt
       else a ← NaClUserToSys nap (end_page e * 4096);
         r ← NaCl_mprotect a (u64 (u64 (u64 (last + 1) * 4096) - end_page e * 4096))
               (Z.lor PROT_READ PROT_WRITE);
         if negb (0 =? r) then fail (LogFatal "Could not mprotect") else mret tt) = (l, Ret tt) /\
      Forall (confined (mem_start nap + dynamic_text_end nap) (mem_start nap + two32)) l) as (l & -> & Hl).
  { destruct (whole_chunk nap); [by exists []|].
    rewrite UserToSys_spec, decide_True by (done || zlia). rewrite M_bind_ret_l.
    rewrite (u64_small (last + 1)), <- Hr4, (u64_small r), u64_small by zlia.
    unfold NaCl_mprotect. rewrite Hprot. eexists. split; [reflexivity|]. repeat constructor; simpl; lia. }
  exists l, (nap <| mem_map := mm' |> <| break_addr := nb |>), es'. split_and!; try done.
  by apply M_bind_pure.
Qed.

Lemma extend_result nap es e nb nap' es' :
  (forall p, covers e p -> lookup_page es p = Some (info e p)) -> covers e (brk_page nap) ->
  break_addr nap' = nb -> data_end nap <= nb < two32 -> 0 < nb -> break_addr nap < nb ->
  end_page e <= (nb - 1) / 4096 ->
  (forall p, end_page e <= p < NaClRoundAllocPage nb / 4096 -> lookup_page es p = None) ->
  same_pages (lookup_page es') (override (lookup_page es) (end_page e) (NaClRoundAllocPage nb / 4096)
    (fun p => Some (info e p))) ->
  brk_result nap es nb nap' es'.
Proof using.
  intros Hcov Hc Hb Hnb Hpos Hgt Hend Hfree Hsame. right.
  destruct (round_alloc_32 nb) as (Hr & Hra & _); [lia|]. set (r := NaClRoundAllocPage nb) in *.
  assert (Hlast : (nb - 1) / 4096 < r / 4096).
  { unfold alloc_aligned in *. Z.div_mod_to_equations. lia. }
  split_and!; try done; try lia.
  - intros p i Hi. rewrite Hsame. unfold override. case_decide; [|done]. by rewrite Hfree in Hi.
  - intros p Hp _. rewrite Hsame. unfold override. case_decide; [done|]. exists (info e p).
    apply Hcov. destruct Hc. unfold covers. lia.
  - intros p Hn. rewrite Hsame. unfold override. case_decide; [|rewrite Hn; by intros [? ?]]. intros _.
    destruct Hc. split; [lia|]. unfold alloc_aligned in *. Z.div_mod_to_equations. lia.
Qed.

(** The test of the entry after the one that holds the break. *)
Lemma Sysbrk_blocked mm es ix last :
  vm_inv mm es ->
  (if NaClVmmapIterAtEnd mm (NaClVmmapIterIncr ix) then mret false
   else next_ent ← NaClVmmapIterStar mm (NaClVmmapIterIncr ix); mret (page_num next_ent <=? last)) =
  mret (M:=M) (match es !! S ix with Some x => page_num x <=? last | None => false end).
Proof using.
  intros [[Hh Hn _ _] _ _ _ _]. unfold NaClVmmapIterAtEnd, NaClVmmapIterStar, NaClVmmapIterIncr. rewrite Hn.
  destruct (es !! S ix) as [x|] eqn:Hx.
  - pose proof (lookup_lt_Some _ _ _ Hx). replace (length es <=? S ix)%nat with false
      by (symmetry; apply Nat.leb_gt; lia).
    by rewrite (deref_holds _ _ _ x Hh Hx), M_bind_ret_l.
  - apply lookup_ge_None in Hx. by replace (length es <=? S ix)%nat with true
      by (symmetry; apply Nat.leb_le; lia).
Qed.

(** Nothing is mapped between an entry and the next one. *)
Lemma gap_free mm es ix e p :
  vm_inv mm es -> StronglySorted before es -> es !! ix = Some e -> end_page e <= p ->
  (forall x, es !! S ix = Some x -> p < page_num x) -> lookup_page es p = None.
Proof using.
  intros Hv Hs He Hp Hnext. apply lookup_page_None. intros x Hx _ Hc.
  apply list_elem_of_lookup in Hx as [j Hj].
  pose proof (wf_at es (vm_wf _ _ Hv) _ _ He) as []. pose proof (wf_at es (vm_wf _ _ Hv) _ _ Hj) as [].
  destruct (decide (j < ix)%nat); [assert (before x e) by (by apply (order_lt es Hs j ix)); regions|].
  destruct (decide (j = ix)) as [->|]; [simplify_eq; regions|].
  destruct (lookup_lt_is_Some_2 es (S ix)) as [y Hy]; [apply lookup_lt_Some in Hj; lia|].
  specialize (Hnext y Hy). pose proof (wf_at es (vm_wf _ _ Hv) _ _ Hy) as [].
  destruct (decide (j = S ix)) as [->|]; [simplify_eq; regions|].
  assert (before y x) by (apply (order_lt es Hs (S ix) j); [lia|done..]). regions.
Qed.

(** A break beyond the old one, when the page of the old one is mapped. *)
Lemma Sysbrk_grow nap es nb :
  app_inv nap es -> break_addr nap < nb < two32 -> is_Some (lookup_page es (brk_page nap)) ->
  exists l nap' es', NaClSysSysbrk nap nb = (l, Ret (nap', i32 (break_addr nap'))) /\
    app_inv nap' es' /\ brk_result nap es nb nap' es' /\
    nap' = nap <| mem_map := mem_map nap' |> <| break_addr := break_addr nap' |> /\
    Forall (confined (mem_start nap + dynamic_text_end nap) (mem_start nap + two32)) l.
Proof using Hprot.
  intros Hinv Hnb Hmap. pose proof Hinv as [Hpl Hm Hpg [Hal Htx] [Hda Hbr] Hd].
  unfold NaClSysSysbrk. rewrite UserToSysAddr_spec, decide_True by (done || zlia).
  pose proof (sys_not_bad nap Hpl nb ltac:(lia)) as Hbad.
  replace (kNaClBadAddress =? nb + mem_start nap) with false by (symmetry; apply Z.eqb_neq; lia).
  replace (nb <? data_end nap) with false by (symmetry; apply Z.ltb_ge; lia).
  replace (nb <=? break_addr nap) with false by (symmetry; apply Z.leb_gt; lia).
  rewrite UserToSys_spec, decide_True by (done || zlia). rewrite M_bind_ret_l.
  destruct (round_alloc_32 nb) as (Hr & Hra & Hlast); [lia|].
  set (last := Z.shiftr (u64 (NaClRoundAllocPage nb - 1)) NACL_PAGESHIFT) in *.
  rewrite !shiftr_page, (u64_small (break_addr nap - 1)), (u64_small (nb - 1)) by zlia.
  fold (brk_page nap).
  destruct (FindPageIter_spec (mem_map nap) es (brk_page nap) Hm) as (l0 & mm & es0 & ix & Hfind & Hq & Hix).
  pose proof (events_of _ _ _ _ (FindPageIter_events
    (confined (mem_start nap + dynamic_text_end nap) (mem_start nap + two32)) (fun _ => I)
    (mem_map nap) (brk_page nap)) Hfind) as Hev0.
  rewrite Hfind. clear Hfind.
  pose proof (queried_same _ _ _ _ _ (vm_sep _ _ Hm) Hq) as Hsame0.
  pose proof (app_inv_queried _ _ _ _ _ Hinv Hq) as Hinv0.
  destruct (NaClVmmapIterAtEnd mm ix) eqn:Hat.
  { exfalso. destruct Hmap as [i Hi].
    apply lookup_page_Some in Hi as (e & He & _ & Hc & _); [|apply (vm_sep _ _ Hm)].
    rewrite Forall_forall in Hix. by apply (Hix e). }
  destruct Hix as (e & Hstar & He & Hc). destruct Hq as (Hv0 & _ & Hs0 & _).
  pose proof (wf_at es0 (vm_wf _ _ Hv0) _ _ He) as Hwe.
  assert (Hcov : forall p, covers e p -> lookup_page es p = Some (info e p)).
  { intros p Hp. rewrite Hsame0. by apply (covered_lookup mm _ e ix). }
  pose proof (Sysbrk_blocked mm es0 ix last Hv0) as Hblk.
  destruct ((nb - 1) / 4096 <? end_page e) eqn:Hin; zbool.
  - exists l0, (nap <| mem_map := mm |> <| break_addr := nb |>), es0. split_and!; try done.
    + apply M_bind_pure. cbv beta iota zeta. rewrite Hat, Hstar, M_bind_ret_l, entry_end by done.
      by replace ((nb - 1) / 4096 <? end_page e) with true by (symmetry; apply Z.ltb_lt; lia).
    + apply app_inv_break; [done|]. simpl. lia.
    + right. split_and!; try done; try lia.
      * intros p i. by rewrite <- Hsame0.
      * intros p Hp _. exists (info e p). rewrite <- Hsame0. apply Hcov. destruct Hc. split; lia.
      * intros p Hn. rewrite <- Hsame0, Hn. by intros [? ?].
  - destruct (match es0 !! S ix with Some x => page_num x <=? last | None => false end) eqn:Hb.
    + exists l0, (nap <| mem_map := mm |>), es0. split_and!; try done.
      * apply M_bind_pure. cbv beta iota zeta. rewrite Hat, Hstar, M_bind_ret_l, entry_end by done.
        replace ((nb - 1) / 4096 <? end_page e) with false by (symmetry; apply Z.ltb_ge; lia).
        by rewrite Hblk, M_bind_ret_l.
      * left. split; [done|]. intros p. by rewrite Hsame0.
    + assert (Hnext : forall x, es0 !! S ix = Some x -> last < page_num x).
      { intros x Hx. rewrite Hx in Hb. zbool. lia. }
      destruct (Sysbrk_extend_spec (nap <| mem_map := mm |>) es0 ix e nb last)
        as (l1 & nap' & es' & Hext & Hinv' & Heq & Hsame & Hl1); try done.
      exists (l0 ++ l1), nap', es'. split_and!; try done.
      * apply M_bind_eq. cbv beta iota zeta. rewrite Hat, Hstar, M_bind_ret_l, entry_end by done.
        replace ((nb - 1) / 4096 <? end_page e) with false by (symmetry; apply Z.ltb_ge; lia).
        rewrite Hblk, M_bind_ret_l. cbv iota. rewrite Hext. by apply M_bind_pure.
      * apply (extend_result nap es e nb nap' es'); try done; try lia; [by rewrite Heq| |].
        -- intros p Hp. rewrite Hsame0. apply (gap_free mm es0 ix e); try done; [lia|].
           intros x Hx. specialize (Hnext x Hx). lia.
        -- intros p. rewrite Hsame, Hlast. unfold override. by rewrite Hsame0.
      * by rewrite Heq.
      * by apply Forall_app.
Qed.

(** A break at or below the old one moves only inside [data_end, break]. *)
Lemma Sysbrk_shrink nap es nb :
  app_inv nap es -> is_u64 nb -> nb <= break_addr nap \/ two32 <= nb ->
  exists nap', NaClSysSysbrk nap nb = ([], Ret (nap', i32 (break_addr nap'))) /\
    app_inv nap' es /\ brk_result nap es nb nap' es /\
    nap' = nap <| break_addr := break_addr nap' |>.
Proof using.
  intros Hinv Hu Hnb. pose proof Hinv as [Hpl Hm Hpg [Hal Htx] [Hda Hbr] Hd].
  unfold NaClSysSysbrk. rewrite UserToSysAddr_spec by done.
  assert (Hstay : brk_result nap es nb nap es) by (left; by split).
  assert (Hself : nap = nap <| break_addr := break_addr nap |>) by by destruct nap.
  case_decide as Hr; [|by exists nap; rewrite Z.eqb_refl].
  pose proof (sys_not_bad nap Hpl nb ltac:(lia)) as Hbad.
  replace (kNaClBadAddress =? nb + mem_start nap) with false by (symmetry; apply Z.eqb_neq; lia).
  destruct (nb <? data_end nap) eqn:Hlt; zbool; [by exists nap|].
  replace (nb <=? break_addr nap) with true by (symmetry; apply Z.leb_le; lia).
  exists (nap <| break_addr := nb |>). split_and!; try done; [apply app_inv_break; [done|lia]|].
  right. split_and!; try done; try (intros; lia). intros p Hn [i Hi]. congruence.
Qed.

(** Growing the heap when the page of the break is not mapped stops the
    runtime: NaClLog(LOG_FATAL). *)
Lemma Sysbrk_unmapped nap es nb :
  app_inv nap es -> break_addr nap < nb < two32 -> lookup_page es (brk_page nap) = None ->
  exists l, NaClSysSysbrk nap nb = (l, Fault (LogFatal "current break not in address map")) /\
    Forall (confined (mem_start nap + dynamic_text_end nap) (mem_start nap + two32)) l.
Proof using.
  intros Hinv Hnb Hnone. pose proof Hinv as [Hpl Hm Hpg [Hal Htx] [Hda Hbr] Hd].
  unfold NaClSysSysbrk. rewrite UserToSysAddr_spec, decide_True by (done || zlia).
  pose proof (sys_not_bad nap Hpl nb ltac:(lia)) as Hbad.
  replace (kNaClBadAddress =? nb + mem_start nap) with false by (symmetry; apply Z.eqb_neq; lia).
  replace (nb <? data_end nap) with false by (symmetry; apply Z.ltb_ge; lia).
  replace (nb <=? break_addr nap) with false by (symmetry; apply Z.leb_gt; lia).
  rewrite UserToSys_spec, decide_True by (done || zlia). rewrite M_bind_ret_l.
  rewrite !shiftr_page, (u64_small (break_addr nap - 1)) by zlia. fold (brk_page nap).
  destruct (FindPageIter_spec (mem_map nap) es (brk_page nap) Hm) as (l0 & mm & es0 & ix & Heq & Hq & Hix).
  exists l0. split.
  2: { eapply events_of; [|exact Heq]. by apply FindPageIter_events. }
  rewrite Heq. apply M_bind_pure. cbv beta iota zeta.
  destruct (NaClVmmapIterAtEnd mm ix); [done|]. exfalso.
  destruct Hix as (e & _ & He & Hc). destruct Hq as (Hv & Hp & _).
  assert (Hl : lookup_page es0 (brk_page nap) = None).
  { rewrite (lookup_page_perm _ es); [done| |done]. apply (vm_sep _ _ Hv). }
  by rewrite (covered_lookup mm _ e ix) in Hl.
Qed.
End Brk.

(** ** Any host

    The only host call of sysbrk is the last thing it does, and a failure is
    fatal: a call that returns did what it does on a host that grants it. *)

(** [m] makes the calls of [m'] and returns what it returns, or aborts. *)
Definition lags {A} (m m' : M A) : Prop :=
  trace m = trace m' /\ forall a, result m = Ret a -> result m' = Ret a.

Lemma lags_refl {A} (m : M A) : lags m m.
Proof. by split. Qed.

Lemma lags_bind {A B} (m : M A) (k k' : A -> M B) :
  (forall a, lags (k a) (k' a)) -> lags (m ≫= k) (m ≫= k').
Proof.
  intros Hk. unfold lags, trace, result, mbind, M_bind in *. destruct m as [l [a|f]]; [|done].
  specialize (Hk a). destruct (k a), (k' a). simpl in *. destruct Hk as [-> Hr]. by split.
Qed.

Lemma Sysbrk_lags `{h : Host} nap nb :
  lags (NaClSysSysbrk nap nb) (NaClSysSysbrk (H:=permissive h) nap nb).
Proof.
  unfold NaClSysSysbrk, Sysbrk_extend, NaCl_mprotect. cbv zeta.
  repeat first [ apply lags_refl | apply lags_bind; intros ? | case_match ].
  unfold lags, trace, result, mbind, M_bind. destruct (store _ _ _) as [l1 [arr|f]]; simpl; [|done].
  destruct (NaClUserToSys _ _) as [l2 [sys|f]]; simpl; [|done]. by destruct (host_mprotect _ _ _); simpl; rewrite ?app_nil_r.
Qed.
