(* ===== verification/Mmap.v ===== *)
(** * mmap and munmap

    What the two calls return and do on every path, for the requests the user
    program can make: lengths are 32-bit values and the descriptor is always
    -1 (NaClSysMmapDecoder). *)

From S2P Require Import Prelude Effects Rounding MemObj Vmmap VmmapSpec VmmapCompact VmmapUpdate.
From S2P Require Import VmmapFind DynArray Policy App HostDesc Memory MemorySafe.

(** ** Error values *)

Lemma NegErrno_spec x : is_u64 x -> NaClPtrIsNegErrno x = (two64 - 65536 <=? x).
Proof.
  intros Hx. unfold NaClPtrIsNegErrno. change 65535 with (2 ^ 16 - 1) at 1.
  rewrite land_not64_mask by (done || lia). change (not64 65535) with (two64 - 65536).
  apply eq_bool_prop_intro. rewrite !Is_true_true, Z.eqb_eq, Z.leb_le. change (2 ^ 16) with 65536.
  unfold_words. Z.div_mod_to_equations. lia.
Qed.

Lemma neg_errno_val e : 0 < e < 65536 -> neg_errno e = two64 - e /\ i32 (neg_errno e) = - e.
Proof.
  intros He. assert (Hv : neg_errno e = two64 - e).
  { unfold neg_errno, u64. rewrite <- (Z_mod_plus_full (- e) 1), Z.mod_small; zlia. }
  split; [done|]. unfold neg_errno. apply i32_u64_small. zlia.
Qed.

(** An application that differs from another in the order of its map only. *)
Definition resorted (nap : NaClApp) (es : list NaClVmmapEntry) (nap' : NaClApp)
    (es' : list NaClVmmapEntry) : Prop :=
  app_inv nap' es' /\ nap' = nap <| mem_map := mem_map nap' |> /\
  same_pages (lookup_page es') (lookup_page es).

Lemma resorted_refl nap es : app_inv nap es -> resorted nap es nap es.
Proof. intros Hinv. split_and!; [done|by destruct nap|by intros p]. Qed.

Lemma resorted_trans n1 e1 n2 e2 n3 e3 :
  resorted n1 e1 n2 e2 -> resorted n2 e2 n3 e3 -> resorted n1 e1 n3 e3.
Proof.
  intros (_ & -> & Hs) (Hi & Heq & Hs'). split_and!; [done|by rewrite Heq|].
  intros p. by rewrite Hs', Hs.
Qed.

Lemma resorted_queried nap es mm es' l :
  app_inv nap es -> queried (mem_map nap) es mm es' l -> resorted nap es (nap <| mem_map := mm |>) es'.
Proof.
  intros Hinv Hq. split_and!; [by eapply app_inv_queried|done|].
  intros p. symmetry. eapply queried_same; [|done]. apply (vm_sep _ _ (ai_map _ _ Hinv)).
Qed.

Definition sandbox_events (nap : NaClApp) (l : list event) : Prop :=
  Forall (confined (mem_start nap + dynamic_text_end nap) (mem_start nap + two32)) l.

Lemma sandbox_events_app nap l1 l2 :
  sandbox_events nap l1 -> sandbox_events nap l2 -> sandbox_events nap (l1 ++ l2).
Proof. intros. by apply Forall_app. Qed.

(** ** What a call promises on every host

    Its host calls stay in the sandbox whether it returns or aborts, a result
    satisfies [Q], and there is one when the host grants [G]. *)
Record meets {A} (nap : NaClApp) (G : Prop) (Q : A -> Prop) (m : M A) : Prop := {
  mt_events : sandbox_events nap (trace m);
  mt_result : forall a, result m = Ret a -> Q a;
  mt_returns : G -> exists a, result m = Ret a;
}.

Lemma meets_ret {A} nap G (Q : A -> Prop) a : Q a -> meets nap G Q (mret a).
Proof. intros HQ. split; [constructor|by intros b [= <-]|by exists a]. Qed.

Lemma meets_fail {A} nap (G : Prop) (Q : A -> Prop) f : (G -> False) -> meets nap G Q (fail f).
Proof. intros HG. split; [constructor|done|by intros []%HG]. Qed.

Lemma meets_bind {A B} nap G (Q : A -> Prop) (Q' : B -> Prop) (m : M A) (k : A -> M B) :
  meets nap G Q m -> (forall a, Q a -> meets nap G Q' (k a)) -> meets nap G Q' (m ≫= k).
Proof.
  intros [He Hr Ht] Hk. unfold sandbox_events, trace, result in *. destruct m as [l [a|f]]; simpl in *.
  - destruct (Hk a) as [He' Hr' Ht']; [by apply Hr|]. unfold sandbox_events, trace, result, mbind, M_bind in *.
    destruct (k a) as [l' o]. simpl in *. split; [by apply Forall_app|done|done].
  - split; [done|done|]. intros HG. by destruct (Ht HG).
Qed.

Lemma meets_weaken {A} nap (G G' : Prop) (Q Q' : A -> Prop) m :
  (G' -> G) -> (forall a, Q a -> Q' a) -> meets nap G Q m -> meets nap G' Q' m.
Proof. intros HG HQ [He Hr Ht]. split; [done|auto|auto]. Qed.

(** A computation known to return. *)
Lemma meets_eq {A} nap G (Q : A -> Prop) l a m : m = (l, Ret a) -> sandbox_events nap l -> Q a -> meets nap G Q m.
Proof. intros -> Hl HQ. split; [done|by intros b [= <-]|by exists a]. Qed.

Section Calls.
Context `{Host}.

(** The host grants every allocation, and puts each fixed mapping where it was
    asked. *)
Definition grants_map : Prop := (forall n, malloc_ok n = true) /\ honours_fixed.

(** ** munmap *)

Lemma Xlate_nonzero : NaClXlateErrno host_errno <> 0.
Proof using.
  unfold NaClXlateErrno. case_decide as Hin; [|done]. intros H0. rewrite H0 in Hin.
  assert (Hno : bool_decide (0 ∈ xlate_known) = false) by reflexivity.
  by apply bool_decide_eq_false in Hno.
Qed.

(** The range checks shared by mmap and munmap. *)
Lemma Executable_spec nap u :
  alloc_aligned u -> is_u64 u -> AddrRangeContainsExecutablePages nap u = (u <? dynamic_text_end nap).
Proof using. intros Ha Hu. unfold AddrRangeContainsExecutablePages. by rewrite NaClTruncAllocPage_aligned. Qed.

Definition munmap_result (nap : NaClApp) (es : list NaClVmmapEntry) (start len r : Z)
    (es' : list NaClVmmapEntry) : Prop :=
  let R := NaClRoundAllocPage len in
  (r <> 0 /\ same_pages (lookup_page es') (lookup_page es)) \/
  (r = 0 /\ alloc_aligned start /\ 0 < len /\ dynamic_text_end nap <= start /\ start + R < two32 /\
   same_pages (lookup_page es')
     (override (lookup_page es) (start / 4096) ((start + R) / 4096) (fun _ => None))).

(** The whole of munmap once its arguments are accepted. *)
Lemma Munmap_update nap es u n :
  app_inv nap es -> page_aligned u -> page_aligned n ->
  dynamic_text_end nap <= u -> 0 < n -> u + n <= two32 ->
  meets nap (forall n, malloc_ok n = true)
    (fun mm => exists es', app_inv (nap <| mem_map := mm |>) es' /\
       same_pages (lookup_page es') (override (lookup_page es) (u / 4096) ((u + n) / 4096) (fun _ => None)))
    (NaClVmmapUpdate (mem_map nap) (u / 4096) (n / 4096) 0 None true).
Proof using.
  intros Hinv Hu Hn Hlo Hn0 Hhi.
  assert (Hdiv : (u + n) / 4096 = u / 4096 + n / 4096).
  { unfold page_aligned in *. Z.div_mod_to_equations. lia. }
  assert (Ht : text_pages nap <= u / 4096) by (apply Z.div_le_mono; lia).
  assert (Hnp : 0 < n / 4096) by (unfold page_aligned in *; Z.div_mod_to_equations; lia).
  assert (Hpc : u / 4096 + n / 4096 <= PAGE_COUNT).
  { rewrite <- Hdiv. unfold PAGE_COUNT. apply Z.div_le_upper_bound; zlia. }
  split.
  - by apply Update_events.
  - intros mm Hr. destruct (NaClVmmapUpdate _ _ _ _ _ _) as [l o] eqn:Heq. unfold result in Hr. simpl in Hr. subst o.
    destruct (app_update nap es _ _ 0 _ _ _ _ Hinv Ht Hnp Hpc eq_refl Heq) as (es' & Hinv' & Hs & _).
    exists es'. by rewrite Hdiv.
  - intros Hm. destruct (app_update_total nap es (u / 4096) (n / 4096) 0 None true Hm Hinv Ht Hnp Hpc) as (l & mm & ->).
    by exists mm.
Qed.

Definition munmap_post (nap : NaClApp) (es : list NaClVmmapEntry) (start len : Z) (a : NaClApp * Z) : Prop :=
  exists es', app_inv a.1 es' /\ a.1 = nap <| mem_map := mem_map a.1 |> /\
    munmap_result nap es start len a.2 es'.

Lemma Munmap_spec nap es start len :
  app_inv nap es -> is_u64 start -> 0 <= len < two32 ->
  meets nap (forall n, malloc_ok n = true) (munmap_post nap es start len) (NaClSysMunmap nap start len).
Proof using.
  intros Hinv Hst Hlen. pose proof Hinv as [Hpl Hm Hpg [Hal Htx] [Hda Hbr] Hd].
  assert (Hfail : forall r, r <> 0 -> munmap_post nap es start len (nap, r)).
  { intros r Hr. exists es. split_and!; [done|by destruct nap|by left]. }
  unfold NaClSysMunmap. destruct (NaClIsAllocPageMultiple start) eqn:Ha; [|by apply meets_ret, Hfail].
  apply NaClIsAllocPageMultiple_spec in Ha. cbn [negb]. cbv iota.
  destruct (0 =? len) eqn:H0; [by apply meets_ret, Hfail|]. zbool.
  destruct (NaClRoundAllocPage_spec len) as (HRa & HRb & HRu); [zlia|].
  set (R := NaClRoundAllocPage len) in *.
  rewrite UserToSysAddrRange_spec by done. case_decide as Hrange; [|by rewrite Z.eqb_refl; apply meets_ret, Hfail].
  pose proof (sys_not_bad nap Hpl start ltac:(lia)) as Hbad.
  replace (kNaClBadAddress =? start + mem_start nap) with false by (symmetry; apply Z.eqb_neq; lia).
  rewrite Executable_spec by done.
  destruct (start <? dynamic_text_end nap) eqn:Htext; [by apply meets_ret, Hfail|]. zbool.
  apply (meets_bind _ _ (fun _ => True)).
  { destruct (whole_chunk nap); [by apply meets_ret|]. eapply meets_eq; [reflexivity| |done].
    repeat constructor; simpl; lia. }
  intros r0 _. destruct (MAP_FAILED =? r0) eqn:Hf.
  { apply meets_ret, Hfail. pose proof Xlate_nonzero. lia. }
  rewrite SysToUser_spec, decide_True by (done || (destruct Hpl; zlia)).
  rewrite M_bind_ret_l, !shiftr_page. replace (start + mem_start nap - mem_start nap) with start by lia.
  eapply meets_bind; [apply (Munmap_update nap es start R); try done;
    [by apply alloc_page_aligned|by apply alloc_page_aligned|lia|lia]|].
  intros mm (es' & Hinv' & Hs). apply meets_ret. exists es'. split_and!; [done|done|].
  right. split_and!; try done; lia.
Qed.

(** ** mmap *)

(** An enclosed hole lies inside the address space. *)
Lemma hole_inside nap f r n :
  pages_ok nap f -> enclosed f r n -> r + n < PAGE_COUNT.
Proof using. intros [Hr _ _] [_ (p & Hp & [i Hi])]. specialize (Hr p i Hi). lia. Qed.

Lemma round_pages R :
  alloc_aligned R -> 0 < R <= two32 -> NaClRoundPageNumUpToMapMultiple (R / 4096) = R / 4096.
Proof using.
  intros Ha HR. destruct (NaClRoundPageNum_spec (R / 4096)) as (Hm & Hb & _).
  { unfold_words. Z.div_mod_to_equations. lia. }
  unfold map_aligned, alloc_aligned in *. Z.div_mod_to_equations. lia.
Qed.

(** What the choice of an address promises. *)
Definition address_ok (es : list NaClVmmapEntry) (flags start R : Z) (a : Z + Z) : Prop :=
  match a with
  | inl e => e = neg_errno NACL_ABI_ENOMEM
  | inr u => is_u64 u /\ alloc_aligned u /\
      if 0 =? Z.land flags NACL_ABI_MAP_FIXED then hole (lookup_page es) (u / 4096) (R / 4096) else u = start
  end.

(** The page number a search returned, as the code uses it. *)
Lemma found_address nap es flags start R r :
  app_inv nap es -> alloc_aligned R -> 0 < R <= two32 -> (0 =? Z.land flags NACL_ABI_MAP_FIXED) = true ->
  (r = 0 \/ 0 < r /\ map_aligned r /\ hole (lookup_page es) r (R / 4096) /\
            enclosed (lookup_page es) r (R / 4096)) ->
  address_ok es flags start R
    (if 0 =? r then inl (neg_errno NACL_ABI_ENOMEM) else inr (u64 (Z.shiftl r NACL_PAGESHIFT))).
Proof using.
  intros Hinv HRa HR Hf [->|(Hr & Hra & Hh & He)]; [done|].
  replace (0 =? r) with false by (symmetry; apply Z.eqb_neq; lia).
  pose proof (hole_inside _ _ _ _ (ai_pages _ _ Hinv) He) as Hin.
  assert (0 < R / 4096) by (unfold alloc_aligned in *; Z.div_mod_to_equations; lia).
  rewrite shiftl_page, u64_small by (unfold PAGE_COUNT in *; zlia). unfold address_ok. rewrite Hf.
  replace (r * 4096 / 4096) with r by (by rewrite Z.div_mul).
  split_and!; try done; [unfold PAGE_COUNT in *; zlia..|].
  unfold alloc_aligned, map_aligned in *. Z.div_mod_to_equations. lia.
Qed.

Lemma FindMapSpace_app nap es R :
  app_inv nap es -> alloc_aligned R -> 0 < R <= two32 ->
  exists l mm es' r, NaClVmmapFindMapSpace (mem_map nap) (R / 4096) = (l, Ret (mm, r)) /\
    resorted nap es (nap <| mem_map := mm |>) es' /\ sandbox_events nap l /\
    (r = 0 \/ 0 < r /\ map_aligned r /\ hole (lookup_page es) r (R / 4096) /\
              enclosed (lookup_page es) r (R / 4096)).
Proof using.
  intros Hinv Ha HR.
  assert (Hn : 0 < R / 4096 <= two64 - 16).
  { unfold alloc_aligned in Ha. unfold_words. Z.div_mod_to_equations. lia. }
  destruct (FindMapSpace_spec (mem_map nap) es (R / 4096) (ai_map _ _ Hinv) (app_inv_nonempty _ _ Hinv) Hn)
    as (l & mm & es' & r & Heq & Hq & Hh).
  exists l, mm, es', r. pose proof (resorted_queried _ _ _ _ _ Hinv Hq) as Hres.
  split_and!; try done; [by eapply events_of; [apply FindMapSpace_events|exact Heq]|].
  rewrite round_pages in Hh by done.
  destruct Hres as (_ & _ & Hs). rewrite Hs in Hh.
  destruct Hh as [[-> _]|(? & ? & ? & ? & _)]; [by left|by right].
Qed.

Lemma FindMapSpaceAboveHint_app nap es start R :
  app_inv nap es -> is_u64 start -> alloc_aligned start -> alloc_aligned R -> 0 < R <= two32 ->
  exists l mm es' r, NaClVmmapFindMapSpaceAboveHint (mem_map nap) start (R / 4096) = (l, Ret (mm, r)) /\
    resorted nap es (nap <| mem_map := mm |>) es' /\ sandbox_events nap l /\
    (r = 0 \/ 0 < r /\ map_aligned r /\ hole (lookup_page es) r (R / 4096) /\
              enclosed (lookup_page es) r (R / 4096)).
Proof using.
  intros Hinv Hu Hst Ha HR.
  assert (Hn : 0 < R / 4096 <= two64 - 16).
  { unfold alloc_aligned in Ha. unfold_words. Z.div_mod_to_equations. lia. }
  destruct (FindMapSpaceAboveHint_spec (mem_map nap) es start (R / 4096) (ai_map _ _ Hinv)
    (app_inv_nonempty _ _ Hinv) Hn Hu Hst) as (l & mm & es' & r & Heq & Hq & Hh).
  exists l, mm, es', r. pose proof (resorted_queried _ _ _ _ _ Hinv Hq) as Hres.
  split_and!; try done; [by eapply events_of; [apply FindMapSpaceAboveHint_events|exact Heq]|].
  rewrite round_pages in Hh by done. destruct Hres as (_ & _ & Hs). rewrite Hs in Hh.
  destruct Hh as [[-> _]|(? & ? & _ & ? & ? & _)]; [by left|by right].
Qed.

Lemma Mmap_address_spec nap es flags start R :
  app_inv nap es -> is_u64 start -> alloc_aligned start -> alloc_aligned R -> 0 < R <= two32 ->
  exists l nap' es' a, Mmap_address nap flags start R = (l, Ret (nap', a)) /\
    resorted nap es nap' es' /\ sandbox_events nap l /\ address_ok es flags start R a.
Proof using.
  intros Hinv Hu Hst Ha HR. unfold Mmap_address.
  destruct (0 =? Z.land flags NACL_ABI_MAP_FIXED) eqn:Hf; cbn [negb].
  2: { exists [], nap, es, (inr start). split_and!; try done;
       [by apply resorted_refl|by constructor|]. unfold address_ok. by rewrite Hf. }
  rewrite shiftr_page.
  assert (exists l mm es' r,
    (if 0 =? start then NaClVmmapFindMapSpace (mem_map nap) (R / 4096)
     else '(mm, usrpage) ← NaClVmmapFindMapSpaceAboveHint (mem_map nap) start (R / 4096);
          if 0 =? usrpage then NaClVmmapFindMapSpace mm (R / 4096) else mret (mm, usrpage)) =
      (l, Ret (mm, r)) /\ resorted nap es (nap <| mem_map := mm |>) es' /\ sandbox_events nap l /\
    (r = 0 \/ 0 < r /\ map_aligned r /\ hole (lookup_page es) r (R / 4096) /\
              enclosed (lookup_page es) r (R / 4096))) as (l & mm & es' & r & -> & Hres & Hl & Hr).
  { destruct (0 =? start); [by apply FindMapSpace_app|].
    destruct (FindMapSpaceAboveHint_app nap es start R) as (l & mm & es' & r & -> & Hres & Hl & Hr); try done.
    destruct (0 =? r) eqn:H0.
    - pose proof Hres as (Hinv' & _ & Hs).
      destruct (FindMapSpace_app _ _ R Hinv' Ha HR) as (l2 & mm2 & es2 & r2 & Heq & Hres2 & Hl2 & Hr2).
      exists (l ++ l2), mm2, es2, r2. split_and!; [|by eapply resorted_trans|by apply sandbox_events_app|].
      + apply M_bind_eq. by rewrite H0.
      + rewrite Hs in Hr2. exact Hr2.
    - exists l, mm, es', r. split_and!; try done. apply M_bind_pure. by rewrite H0. }
  pose proof (found_address nap es flags start R r Hinv Ha HR Hf Hr) as Hok.
  eexists l, _, es', (if 0 =? r then inl (neg_errno NACL_ABI_ENOMEM)
                      else inr (u64 (Z.shiftl r NACL_PAGESHIFT))).
  split_and!; [|done..]. apply M_bind_pure. by destruct (0 =? r).
Qed.

Lemma Mmap_sizes_anon start len offset :
  0 <= len < two32 ->
  exists r, Mmap_sizes None start len offset = mret r /\
    match r with
    | inl e => e = neg_errno NACL_ABI_EINVAL
    | inr sz => let R := NaClRoundAllocPage len in
        alloc_aligned start /\ 0 < len /\ alloc_aligned R /\ 0 < R <= two32 /\
        sz = mkSizes R R R kMaxUsableFileSize kMaxUsableFileSize
    end.
Proof using.
  intros Hlen. unfold Mmap_sizes.
  destruct (NaClIsAllocPageMultiple start) eqn:Ha; [|by eexists]. apply NaClIsAllocPageMultiple_spec in Ha.
  destruct (offset <? 0); [by eexists|]. destruct (NaClIsAllocPageMultiple (u64 offset)); [|by eexists].
  destruct (0 =? len) eqn:H0; [by eexists|]. zbool. cbn [negb]. cbv iota.
  destruct (NaClRoundAllocPage_spec len) as (HRa & HRb & _); [zlia|].
  assert (NaClRoundAllocPage len <= two32).
  { apply (round_least 65536 len); [lia|done|done|done|lia]. }
  eexists. split; [reflexivity|]. cbv zeta. split_and!; try done; try lia.
  unfold Mmap_lengths, size_min. change (u64 kMaxUsableFileSize) with kMaxUsableFileSize.
  replace (NaClRoundAllocPage len <? kMaxUsableFileSize) with true; [done|].
  symmetry. apply Z.ltb_lt. change kMaxUsableFileSize with 9223372036854775807. zlia.
Qed.

Lemma Mmap_range_spec nap u R :
  placed nap -> is_u64 u -> alloc_aligned u -> 0 < R <= two32 ->
  Mmap_range_ok nap u R = true -> dynamic_text_end nap <= u /\ u + R <= two32.
Proof using.
  intros Hpl Hu Ha HR. unfold Mmap_range_ok. rewrite addr_limit_val by done.
  rewrite Executable_spec by done.
  repeat case_match; try done; intros Ht; zbool. rewrite u64_small in * by zlia. lia.
Qed.

(** A system address of the sandbox is not taken for an error. *)
Lemma sys_not_errno nap u : placed nap -> 0 <= u < two32 -> NaClPtrIsNegErrno (u + mem_start nap) = false.
Proof using.
  intros [_ Hs He Ha] Hu. rewrite NegErrno_spec by zlia. apply Z.leb_gt.
  assert (mem_start nap + two32 <= two64 - two32); [|zlia].
  apply Z.mod_divide in Ha as [k Hk]; [|done]. unfold_words. lia.
Qed.

Lemma prot_rw prot :
  Z.land (Z.lnot 7) prot = 0 ->
  Z.land (Z.lnot (Z.lor NACL_ABI_PROT_READ NACL_ABI_PROT_WRITE))
    (Z.land prot (Z.lnot NACL_ABI_PROT_EXEC)) = 0.
Proof using.
  intros Hp. rewrite Z.land_assoc, (Z.land_comm _ prot), <- Z.land_assoc, Z.land_comm. exact Hp.
Qed.

Lemma prot_noexec prot : Z.land (Z.land prot (Z.lnot NACL_ABI_PROT_EXEC)) NACL_ABI_PROT_EXEC = 0.
Proof using. rewrite <- Z.land_assoc. apply Z.land_0_r. Qed.

(** The protection that is recorded for a request. *)
Definition recorded_prot (prot : Z) : Z := NaClProtMap (Z.land prot (Z.lnot NACL_ABI_PROT_EXEC)).

Lemma recorded_none prot :
  (Z.land prot (Z.lnot NACL_ABI_PROT_EXEC) =? NACL_ABI_PROT_NONE) = true -> recorded_prot prot = PROT_NONE.
Proof using. intros Hp. zbool. unfold recorded_prot. by rewrite Hp. Qed.

(** Recording the pages of an accepted range. *)
Lemma UpdateAddrMap_meets nap es u n pr bytes off :
  app_inv nap es -> page_aligned u -> page_aligned n ->
  dynamic_text_end nap <= u -> 0 < n -> u + n <= two32 -> Z.land pr PROT_EXEC = 0 ->
  meets nap (forall n, malloc_ok n = true)
    (fun nap' => exists es', app_inv nap' es' /\ nap' = nap <| mem_map := mem_map nap' |> /\
       same_pages (lookup_page es') (override (lookup_page es) (u / 4096) ((u + n) / 4096)
         (fun _ => Some (mkPage pr None))))
    (NaClCommonUtilUpdateAddrMap nap (u + mem_start nap) n pr None bytes off false).
Proof using.
  intros Hinv Hu Hn Hlo Hn0 Hhi Hpr. pose proof Hinv as [Hpl Hm Hpg [Hal Htx] Hda Hd].
  assert (Hdiv : (u + n) / 4096 = u / 4096 + n / 4096).
  { unfold page_aligned in *. Z.div_mod_to_equations. lia. }
  pose proof (text_pages_spec nap u Hal Hu Hlo) as Ht.
  assert (Hnp : 0 < n / 4096) by (unfold page_aligned in *; Z.div_mod_to_equations; lia).
  assert (Hpc : u / 4096 + n / 4096 <= PAGE_COUNT).
  { rewrite <- Hdiv. unfold PAGE_COUNT. apply Z.div_le_upper_bound; zlia. }
  unfold NaClCommonUtilUpdateAddrMap. pose proof Hpl as [_ Hms Hme _].
  rewrite SysToUser_spec by (done || lia). rewrite decide_True by zlia. rewrite M_bind_ret_l.
  replace (u + mem_start nap - mem_start nap) with u by lia. rewrite !shiftr_page, M_bind_ret_l.
  apply (meets_bind _ _ (fun mm => exists es', app_inv (nap <| mem_map := mm |>) es' /\
    same_pages (lookup_page es') (override (lookup_page es) (u / 4096) ((u + n) / 4096)
      (fun _ => Some (mkPage pr None))))).
  2: { intros mm (es' & Hinv' & Hs). apply meets_ret. by exists es'. }
  split.
  - by apply Update_events.
  - intros mm Hr. destruct (NaClVmmapUpdate _ _ _ _ _ _) as [l o] eqn:Heq. unfold result in Hr. simpl in Hr. subst o.
    destruct (app_update nap es _ _ _ _ _ _ _ Hinv Ht Hnp Hpc Hpr Heq) as (es' & Hinv' & Hs & _).
    exists es'. split; [done|]. intros p. rewrite Hs, Hdiv. unfold override. case_decide as Hp; [|done]. simpl.
    rewrite decide_True; [done|]. split; [done|]. unfold covers, end_page, new_entry. simpl. lia.
  - intros Hma. destruct (app_update_total nap es (u / 4096) (n / 4096) pr None false Hma Hinv Ht Hnp Hpc) as (l & mm & ->).
    by exists mm.
Qed.

(** Anonymous memory for the whole of an accepted range. *)
Lemma Mmap_part1_anon nap es u R prot flags offset :
  app_inv nap es -> alloc_aligned u -> alloc_aligned R -> 0 < R ->
  dynamic_text_end nap <= u -> u + R <= two32 -> Z.land (Z.lnot 7) prot = 0 ->
  Z.land flags NACL_ABI_MAP_ANONYMOUS <> 0 -> Z.land flags NACL_ABI_MAP_FIXED <> 0 ->
  meets nap grants_map
    (fun nap' => exists es', app_inv nap' es' /\ nap' = nap <| mem_map := mem_map nap' |> /\
       same_pages (lookup_page es') (override (lookup_page es) (u / 4096) ((u + R) / 4096)
         (fun _ => Some (mkPage (recorded_prot prot) None))))
    (Mmap_part1 nap None (u + mem_start nap) (mkSizes R R R kMaxUsableFileSize kMaxUsableFileSize)
      (Z.land prot (Z.lnot NACL_ABI_PROT_EXEC)) flags offset).
Proof using.
  intros Hinv Hua HRa HR Hlo Hhi Hprot Han Hfx. pose proof Hinv as [Hpl Hm Hpg [Hal Htx] _ _].
  unfold Mmap_part1. cbn [map_length file_size file_bytes].
  replace (0 <? R) with true by (symmetry; apply Z.ltb_lt; lia).
  pose proof Hpl as [_ Hs He Hma].
  assert (Hms : mem_start nap + two32 <= two64 - two32).
  { apply Z.mod_divide in Hma as [k Hk]; [|done]. unfold_words. lia. }
  unfold NaClDescIoDescMapAnon. pose proof (prot_rw prot Hprot) as Hrw.
  set (pr := Z.land prot (Z.lnot NACL_ABI_PROT_EXEC)) in *.
  apply (meets_bind _ _ (fun r => honours_fixed -> r = u + mem_start nap)).
  - pose proof (fun Hfix => IoDescMap_ok (whole_chunk nap) None (u + mem_start nap) R pr flags offset Hfix Hfx
      (or_introl Han) Hrw ltac:(zlia) ltac:(zlia) ltac:(zlia)) as Hok.
    split.
    + eapply Forall_impl; [apply (IoDescMap_confined (whole_chunk nap) None (u + mem_start nap) R pr flags offset);
        try zlia; by rewrite Z.land_comm|]. intros ev. apply confined_weaken; lia.
    + intros r Hr Hfix. rewrite (Hok Hfix) in Hr. by injection Hr.
    + intros [_ Hfix]. rewrite (Hok Hfix). by eexists.
  - intros r Hr. destruct (decide (r = u + mem_start nap)) as [->|Hne].
    2: { assert (Hno : grants_map -> False) by (intros [_ Hfix]; by apply Hne, Hr).
         case_match; [by apply meets_fail|]. replace (r =? u + mem_start nap) with false by (symmetry; by apply Z.eqb_neq).
         by apply meets_fail. }
    rewrite sys_not_errno, Z.eqb_refl by (done || zlia). cbn [negb]. cbv iota.
    change (NaClProtMap pr) with (recorded_prot prot).
    assert (Hup : meets nap grants_map (fun nap' => exists es', app_inv nap' es' /\
       nap' = nap <| mem_map := mem_map nap' |> /\
       same_pages (lookup_page es') (override (lookup_page es) (u / 4096) ((u + R) / 4096)
         (fun _ => Some (mkPage (recorded_prot prot) None))))
      (NaClCommonUtilUpdateAddrMap nap (u + mem_start nap) R (recorded_prot prot) None kMaxUsableFileSize offset false)).
    { eapply meets_weaken; [|intros a Ha; exact Ha|apply (UpdateAddrMap_meets nap es u R (recorded_prot prot)); try done;
        [by apply alloc_page_aligned|by apply alloc_page_aligned|by apply ProtMap_noexec, prot_noexec]].
      by intros [? _]. }
    destruct (pr =? NACL_ABI_PROT_NONE) eqn:Hnone; [|done]. by rewrite <- (recorded_none prot Hnone).
Qed.

(** The outcomes of an anonymous request: an error that changes no page, or
    an address [u] above the code with the whole rounded range mapped. *)
Definition mmap_result (nap : NaClApp) (es : list NaClVmmapEntry) (start len prot flags r : Z)
    (es' : list NaClVmmapEntry) : Prop :=
  let R := NaClRoundAllocPage len in
  (r ∈ [- NACL_ABI_EBADF; - NACL_ABI_EINVAL; - NACL_ABI_ENOMEM] /\
   same_pages (lookup_page es') (lookup_page es)) \/
  (exists u, r = i32 u /\ alloc_aligned u /\ dynamic_text_end nap <= u /\ u + R <= two32 /\
   (if 0 =? Z.land flags NACL_ABI_MAP_FIXED then hole (lookup_page es) (u / 4096) (R / 4096)
    else u = start) /\
   same_pages (lookup_page es') (override (lookup_page es) (u / 4096) ((u + R) / 4096)
     (fun _ => Some (mkPage (recorded_prot prot) None)))).

Definition mmap_post (nap : NaClApp) (es : list NaClVmmapEntry) (start len prot flags : Z)
    (a : NaClApp * Z) : Prop :=
  exists es', app_inv a.1 es' /\ a.1 = nap <| mem_map := mem_map a.1 |> /\
    mmap_result nap es start len prot flags a.2 es'.

Lemma Mmap_cleanup_error nap e :
  0 < e < 65536 -> Mmap_cleanup nap None (neg_errno e) = mret (nap, - e).
Proof using.
  intros He. destruct (neg_errno_val e He) as [Hv Hi]. unfold Mmap_cleanup. rewrite M_bind_ret_l.
  rewrite NegErrno_spec by (rewrite Hv; zlia).
  replace (two64 - 65536 <=? neg_errno e) with true by (symmetry; apply Z.leb_le; rewrite Hv; lia).
  rewrite andb_false_r. by rewrite Hi.
Qed.

Lemma Mmap_cleanup_address nap u : 0 <= u < two32 -> Mmap_cleanup nap None u = mret (nap, i32 u).
Proof using.
  intros Hu. unfold Mmap_cleanup. rewrite M_bind_ret_l.
  by replace (UINT32_MAX <? u) with false by (symmetry; apply Z.ltb_ge; unfold UINT32_MAX; lia).
Qed.

Lemma mmap_post_error nap es nap' es' start len prot flags G e :
  resorted nap es nap' es' -> e ∈ [NACL_ABI_EBADF; NACL_ABI_EINVAL; NACL_ABI_ENOMEM] ->
  meets nap G (mmap_post nap es start len prot flags) (Mmap_cleanup nap' None (neg_errno e)).
Proof using.
  intros (Hinv & Heq & Hs) He.
  rewrite Mmap_cleanup_error by (set_unfold in He; unfold NACL_ABI_EBADF, NACL_ABI_EINVAL, NACL_ABI_ENOMEM in *; lia).
  apply meets_ret. exists es'. split_and!; try done. left. split; [|done]. simpl. set_solver.
Qed.

Lemma flags_keep flags k :
  Z.land k mmap_allowed_flags = k -> Z.land (Z.land flags mmap_allowed_flags) k = Z.land flags k.
Proof using. intros Hk. by rewrite <- Z.land_assoc, (Z.land_comm mmap_allowed_flags), Hk. Qed.

(** A protection with unknown bits aborts the runtime once a range is chosen. *)
Lemma Mmap_map_badprot nap u R prot flags offset :
  placed nap -> 0 < u < two32 -> 0 < R -> Z.land (Z.lnot 7) prot <> 0 ->
  let m := Mmap_map nap None u (mkSizes R R R kMaxUsableFileSize kMaxUsableFileSize) prot flags offset in
  m = mret (nap, neg_errno NACL_ABI_EINVAL) \/ m = fail (LogFatal "NaClSysMmap: Map failed").
Proof using.
  intros Hpl Hu HR Hprot m. subst m. unfold Mmap_map. case_match; [by left|]. right.
  rewrite UserToSys_spec, decide_True by (done || zlia). rewrite M_bind_ret_l.
  unfold Mmap_part1. cbn [map_length].
  replace (0 <? R) with true by (symmetry; apply Z.ltb_lt; lia).
  unfold NaClDescIoDescMapAnon, NaClDescIoDescMap.
  rewrite Z.land_assoc, (Z.land_comm _ prot), <- Z.land_assoc.
  change (Z.land (Z.lnot (Z.lor NACL_ABI_PROT_READ NACL_ABI_PROT_WRITE)) (Z.lnot NACL_ABI_PROT_EXEC))
    with (Z.lnot 7).
  rewrite (Z.land_comm prot (Z.lnot 7)).
  replace (0 =? Z.land (Z.lnot 7) prot) with false by (symmetry; apply Z.eqb_neq; lia).
  cbn [negb]. rewrite M_bind_ret_l.
  by change (NaClPtrIsNegErrno (u64 (- NACL_ABI_EINVAL))) with true.
Qed.

Lemma Mmap_map_anon nap es u R prot flags offset :
  app_inv nap es -> alloc_aligned u -> alloc_aligned R -> 0 < R ->
  dynamic_text_end nap <= u -> u + R <= two32 -> Z.land (Z.lnot 7) prot = 0 ->
  Z.land flags NACL_ABI_MAP_ANONYMOUS <> 0 ->
  let m := Mmap_map nap None u (mkSizes R R R kMaxUsableFileSize kMaxUsableFileSize) prot flags offset in
  m = mret (nap, neg_errno NACL_ABI_EINVAL) \/
  meets nap grants_map
    (fun a => a.2 = u /\ exists es', app_inv a.1 es' /\ a.1 = nap <| mem_map := mem_map a.1 |> /\
       same_pages (lookup_page es') (override (lookup_page es) (u / 4096) ((u + R) / 4096)
         (fun _ => Some (mkPage (recorded_prot prot) None)))) m.
Proof using.
  intros Hinv Hua HRa HR Hlo Hhi Hprot Han m. pose proof Hinv as [Hpl _ _ [_ Htx] _ _].
  subst m. unfold Mmap_map. case_match; [by left|]. right.
  rewrite UserToSys_spec, decide_True by (done || zlia). rewrite M_bind_ret_l.
  eapply meets_bind; [apply (Mmap_part1_anon nap es u R prot (Z.lor flags NACL_ABI_MAP_FIXED) offset); try done|].
  - rewrite Z.land_lor_distr_l. intros Hz. by apply Z.lor_eq_0_iff in Hz as [Hz _].
  - rewrite Z.land_lor_distr_l. intros Hz. by apply Z.lor_eq_0_iff in Hz as [_ Hz].
  - intros nap' Hn. unfold Mmap_part2, Mmap_part3. simpl. rewrite Z.ltb_irrefl. by apply meets_ret.
Qed.

Lemma meets_resorted {A} nap nap' G (Q : A -> Prop) m :
  nap' = nap <| mem_map := mem_map nap' |> -> meets nap' G Q m -> meets nap G Q m.
Proof using.
  intros Heq [He Hr Ht]. split; [|done|done]. unfold sandbox_events in *. by rewrite Heq in He.
Qed.

(** An accepted range: mapped as asked, or refused for its sharing flags. *)
Lemma Mmap_mapped nap es nap1 es1 start len u prot flags offset :
  let R := NaClRoundAllocPage len in let flags' := Z.land flags mmap_allowed_flags in
  app_inv nap es -> resorted nap es nap1 es1 -> is_u64 u -> alloc_aligned u -> alloc_aligned R -> 0 < R ->
  dynamic_text_end nap <= u -> u + R <= two32 -> (0 =? Z.land flags NACL_ABI_MAP_ANONYMOUS) = false ->
  (if 0 =? Z.land flags NACL_ABI_MAP_FIXED then hole (lookup_page es) (u / 4096) (R / 4096) else u = start) ->
  meets nap (Z.land (Z.lnot 7) prot = 0 /\ grants_map) (mmap_post nap es start len prot flags)
    ('(nap, map_result) ← Mmap_map nap1 None u (mkSizes R R R kMaxUsableFileSize kMaxUsableFileSize) prot flags' offset;
     Mmap_cleanup nap None map_result).
Proof using.
  intros R flags' Hinv Hres Hu Hua HRa HR Hlo Hhi Han Hhole. pose proof Hres as (Hinv1 & Heq1 & Hs1).
  assert (Hlo1 : dynamic_text_end nap1 <= u) by by rewrite Heq1.
  assert (Han' : Z.land flags' NACL_ABI_MAP_ANONYMOUS <> 0).
  { unfold flags'. rewrite flags_keep by done. by apply Z.eqb_neq in Han. }
  assert (Hpos : 0 < u < two32) by (pose proof (ai_text _ _ Hinv); lia).
  destruct (decide (Z.land (Z.lnot 7) prot = 0)) as [Hprot|Hprot].
  2: { destruct (Mmap_map_badprot nap1 u R prot flags' offset (ai_placed _ _ Hinv1) Hpos HR Hprot) as [Hm|Hm]; rewrite Hm.
       - rewrite M_bind_ret_l. apply (mmap_post_error _ _ _ es1); [done|set_solver].
       - rewrite M_bind_fail. by apply meets_fail; intros [? _]. }
  destruct (Mmap_map_anon nap1 es1 u R prot flags' offset) as [Hm|Hm]; try done.
  { rewrite Hm, M_bind_ret_l. apply (mmap_post_error _ _ _ es1); [done|set_solver]. }
  eapply meets_bind.
  { eapply meets_resorted; [exact Heq1|]. eapply meets_weaken; [|intros a Ha; exact Ha|exact Hm]. by intros [_ ?]. }
  intros [nap2 r] (Hr & es2 & Hinv2 & Heq2 & Hs2). simpl in *. subst r.
  rewrite Mmap_cleanup_address by lia. apply meets_ret. exists es2. simpl. split_and!; [done|by rewrite Heq2, Heq1|].
  right. exists u. split_and!; try done. intros p. rewrite Hs2. unfold override. by rewrite Hs1.
Qed.

(** Every anonymous request, on every host: the result is as promised; and
    there is one when the protection bits are known and the host grants the
    mapping. *)
Lemma Mmap_spec nap es start len prot flags offset :
  app_inv nap es -> is_u64 start -> 0 <= len < two32 ->
  meets nap (Z.land (Z.lnot 7) prot = 0 /\ grants_map) (mmap_post nap es start len prot flags)
    (NaClCommonSysMmapIntern nap start len prot flags (-1) offset).
Proof using.
  intros Hinv Hst Hlen. pose proof (resorted_refl _ _ Hinv) as Hrefl.
  unfold NaClCommonSysMmapIntern, Mmap_desc. rewrite flags_keep by done.
  destruct (0 =? Z.land flags NACL_ABI_MAP_ANONYMOUS) eqn:Han; cbn [negb].
  { rewrite GetDesc_negative by apply (ai_desc _ _ Hinv). rewrite M_bind_ret_l, M_bind_ret_l.
    eapply mmap_post_error; [done|set_solver]. }
  rewrite M_bind_ret_l. destruct (Mmap_sizes_anon start len offset Hlen) as ([e|sz] & -> & Hsz).
  { rewrite M_bind_ret_l. subst e. eapply mmap_post_error; [done|set_solver]. }
  rewrite M_bind_ret_l. destruct Hsz as (Hsa & Hl0 & HRa & HR & ->). cbn [alloc_rounded_length].
  destruct (Mmap_address_spec nap es (Z.land flags mmap_allowed_flags) start (NaClRoundAllocPage len))
    as (l1 & nap1 & es1 & a & -> & Hres & Hl1 & Ha); try done.
  apply (meets_bind _ _ (fun x => x = (nap1, a))); [by eapply meets_eq|]. intros ? ->.
  pose proof Hres as (Hinv1 & Heq1 & Hs1). destruct a as [e|u]; simpl in Ha.
  { subst e. eapply mmap_post_error; [done|set_solver]. }
  destruct Ha as (Hu & Hua & Hhole). rewrite flags_keep in Hhole by done.
  destruct (Mmap_range_ok nap1 u (NaClRoundAllocPage len)) eqn:Hrange.
  2: { eapply mmap_post_error; [done|set_solver]. }
  pose proof (Mmap_range_spec nap1 u _ (ai_placed _ _ Hinv1) Hu Hua HR Hrange) as [Hlo Hhi].
  apply (Mmap_mapped nap es nap1 es1); try done; [lia|]. by rewrite Heq1 in Hlo.
Qed.
End Calls.
