(* ===== verification/Trap.v ===== *)
(** * The trap: manifest/trap.c

    The single system call ZeroVM adds: bounded reads and writes on the
    channels of the manifest, requests to lower limits, and the installation
    of a user syscall handler.  The code is modelled without NETWORKING. *)

From S2P Require Import Prelude Effects Rounding Policy App.

(** ** Clocks

    [current] is the value of clock(). *)
Definition set_policy (nap : NaClApp) (f : SetupList -> SetupList) : NaClApp :=
  match manifest nap with
  | Some m => nap <| manifest := Some (m <| user_setup := f (user_setup m) |>) |>
  | None => nap
  end.

Definition PauseCpuClock (current : Z) (nap : NaClApp) : NaClApp :=
  set_policy nap (fun p => p <| cnt_cpu := i32 (cnt_cpu p + (current - cnt_cpu_last p)) |>
                             <| cnt_cpu_last := i32 current |>).

Definition ResumeCpuClock (current : Z) (nap : NaClApp) : NaClApp :=
  set_policy nap (fun p => p <| cnt_cpu_last := i32 current |>).

(** The policy of the manifest; the handlers run only with a manifest. *)
Definition policy (nap : NaClApp) : M SetupList :=
  match manifest nap with
  | Some m => mret (user_setup m)
  | None => fail NullDeref
  end.

(** ** The user syscall handler *)

Definition OP_ALIGNEMENT : Z := 32.

(** Is [addr] a bundle head of the static or the dynamic code?  The [int32_t]
    is converted to [uintptr_t] by the comparisons with the code bounds. *)
Definition callback_ok (nap : NaClApp) (addr : Z) : bool :=
  ((dynamic_text_start nap <=? u64 addr) && (u64 addr <? dynamic_text_end nap)) ||
  ((NACL_TRAMPOLINE_END <=? addr) && (u64 addr <? static_text_end nap)).

Definition UpdateSyscallback (nap : NaClApp) (hint : SetupList) : M (NaClApp * Z) :=
  let addr := su_syscallback hint in
  _ ← policy nap;
  let nap := set_policy (nap <| g_syscallback := 0 |>) (fun p => p <| su_syscallback := 0 |>) in
  if addr =? 0 then mret (nap, OK_CODE)
  else if negb (Z.land addr (OP_ALIGNEMENT - 1) =? 0) then mret (nap, ERR_CODE)
  else if callback_ok nap addr then
    let nap := set_policy nap (fun p => p <| su_syscallback := addr |>) in
    a ← NaClUserToSys nap (u64 addr);
    mret (nap <| g_syscallback := a |>, OK_CODE)
  else mret (nap, ERR_CODE).

Section Traps.
Context `{Host}.

(** ** Reads and writes *)

(** The parts that differ between the two handlers. *)
Record direction := mkDir {
  dir_channels : list Z;                                 (* accepted channel numbers *)
  dir_max : PreOpenedFileDesc -> Z; dir_cnt : PreOpenedFileDesc -> Z;
  dir_max_size : PreOpenedFileDesc -> Z; dir_cnt_size : PreOpenedFileDesc -> Z;
  dir_account : Z -> PreOpenedFileDesc -> PreOpenedFileDesc;
}.

(** Everything between the descriptor check and the system call: an error
    code, or the granted size. *)
Definition grant (d : direction) (fd : PreOpenedFileDesc) (size offset : Z) : Z + Z :=
  if negb (ch_mounted fd =? LOADED) then inl (- INVALID_MODE)
  else if size <? 1 then inl (- INSANE_SIZE)
  else if offset <? 0 then inl (- INSANE_OFFSET)
  else if ch_fsize fd <=? offset then inl (- OUT_OF_BOUNDS)
  else if dir_max d fd <=? dir_cnt d fd then inl (- OUT_OF_LIMITS)
  else
    let tail := i64 (dir_max_size d fd - dir_cnt_size d fd) in
    let size := if tail <? size then i32 tail else size in
    if size <? 1 then inl (- OUT_OF_LIMITS) else inr size.

Definition reading : direction := {|
  dir_channels := [ChannelType_num InputChannel; ChannelType_num OutputChannel];
  dir_max := max_gets; dir_cnt := cnt_gets;
  dir_max_size := max_get_size; dir_cnt_size := cnt_get_size;
  dir_account := fun size fd => fd <| cnt_gets := i32 (cnt_gets fd + 1) |>
                                   <| cnt_get_size := i64 (cnt_get_size fd + size) |> |}.

Definition writing : direction := {|
  dir_channels := [ChannelType_num OutputChannel];
  dir_max := max_puts; dir_cnt := cnt_puts;
  dir_max_size := max_put_size; dir_cnt_size := cnt_put_size;
  dir_account := fun size fd => fd <| cnt_puts := i32 (cnt_puts fd + 1) |>
                                   <| cnt_put_size := i64 (cnt_put_size fd + size) |> |}.

(** [desc] is an unsigned 32-bit enum, [size] an int32_t, [offset] an int64_t.
    [transfer] is the final pread or pwrite. *)
Definition Trap_transfer (d : direction) (transfer : Z -> Z -> Z -> Z -> M Z)
    (nap : NaClApp) (desc buffer size offset : Z) : M (NaClApp * Z) :=
  sys_buffer ← NaClUserToSys nap buffer;
  if negb (bool_decide (desc ∈ dir_channels d)) then mret (nap, - INVALID_DESC)
  else
    p ← policy nap;
    fd ← load (channels p) (Z.to_nat desc);
    match grant d fd size offset with
    | inl e => mret (nap, e)
    | inr size =>
        let nap := set_policy nap (fun p =>
          p <| channels := <[Z.to_nat desc := dir_account d size fd]> (channels p) |>) in
        retcode ← transfer (ch_handle fd) sys_buffer size offset;
        mret (nap, i32 retcode)
    end.

Definition TrapReadHandle (nap : NaClApp) (desc buffer size offset : Z) : M (NaClApp * Z) :=
  Trap_transfer reading
    (fun h a n o => _ ← emit (HostRead h a n o); mret (host_pread h a n o))
    nap desc buffer size offset.

Definition TrapWriteHandle (nap : NaClApp) (desc buffer size offset : Z) : M (NaClApp * Z) :=
  Trap_transfer writing
    (fun h a n o => _ ← emit (HostWrite h a n o); mret (host_pwrite h a n o))
    nap desc buffer size offset.

(** ** User setup *)

(** The TRY_UPDATE macro on (pretender, current): the new pair and whether the
    request was refused. *)
Definition TRY_UPDATE (first : bool) (pretender current : Z) : Z * Z * bool :=
  if first then (current, current, false)
  else if pretender <=? current then (pretender, pretender, false)
  else (current, current, true).

(** One turn of the channel loop: hint channel, policy channel, refusal. *)
Definition Setup_channel (first : bool) (ch : Z) (hc pc : PreOpenedFileDesc)
  : PreOpenedFileDesc * PreOpenedFileDesc * bool :=
  let '(h1, p1, e1) := TRY_UPDATE first (max_size hc) (max_size pc) in
  let '(h2, p2, e2) := TRY_UPDATE first (max_get_size hc) (max_get_size pc) in
  let '(h3, p3, e3) := TRY_UPDATE first (max_gets hc) (max_gets pc) in
  let '(h4, p4, e4) := TRY_UPDATE first (max_put_size hc) (max_put_size pc) in
  let '(h5, p5, e5) := TRY_UPDATE first (max_puts hc) (max_puts pc) in
  (hc <| ch_self_size := ch_self_size pc |>
      <| max_size := h1 |> <| max_get_size := h2 |> <| max_gets := h3 |>
      <| max_put_size := h4 |> <| max_puts := h5 |>
      <| ch_bsize := ch_bsize pc |> <| ch_buffer := ch_buffer pc |> <| ch_fsize := ch_fsize pc |>
      <| ch_type := ch_type pc |> <| ch_mounted := ch_mounted pc |> <| ch_handle := ch |>,
   pc <| max_size := p1 |> <| max_get_size := p2 |> <| max_gets := p3 |>
      <| max_put_size := p4 |> <| max_puts := p5 |>,
   e1 || e2 || e3 || e4 || e5).

(** The loop over the channels, from number [ch]. *)
Fixpoint Setup_channels (first : bool) (ch : Z) (hcs pcs : list PreOpenedFileDesc)
  : list PreOpenedFileDesc * list PreOpenedFileDesc * bool :=
  match hcs, pcs with
  | hc :: hcs', pc :: pcs' =>
      let '(hc, pc, e) := Setup_channel first ch hc pc in
      let '(hs, ps, e') := Setup_channels first (ch + 1) hcs' pcs' in
      (hc :: hs, pc :: ps, e || e')
  | _, _ => ([], [], false)
  end.

Definition strncpy (src : string) (n : nat) : string := String.substring 0 n src.

(** [h] is the user address of the hint and [hint] its contents; the third
    component of the result is what the call leaves there. *)
Definition TrapUserSetupHandle (nap : NaClApp) (h : Z) (hint : SetupList)
  : M (NaClApp * Z * SetupList) :=
  pol ← policy nap;
  _ ← NaClUserToSys nap h;
  let pol := pol <| cnt_syscalls := i32 (cnt_syscalls pol - 1) |>
                 <| cnt_setup_calls := i32 (cnt_setup_calls pol + 1) |> in
  let nap := set_policy nap (fun _ => pol) in
  if max_setup_calls pol <? cnt_setup_calls pol then mret (nap, - OUT_OF_LIMITS, hint)
  else
    let first := cnt_setup_calls pol =? 1 in
    let '(hcs, pcs, e) := Setup_channels first 0 (channels hint) (channels pol) in
    let '(h1, p1, e1) := TRY_UPDATE first (max_cpu hint) (max_cpu pol) in
    let '(h2, p2, e2) := TRY_UPDATE first (max_mem hint) (max_mem pol) in
    let '(h3, p3, e3) := TRY_UPDATE first (max_syscalls hint) (max_syscalls pol) in
    let '(h4, p4, e4) := TRY_UPDATE first (max_setup_calls hint) (max_setup_calls pol) in
    let pol := pol <| channels := pcs |> <| max_cpu := p1 |> <| max_mem := p2 |>
                   <| max_syscalls := p3 |> <| max_setup_calls := p4 |> in
    let hint := hint <| channels := hcs |> <| max_cpu := h1 |> <| max_mem := h2 |>
                     <| max_syscalls := h3 |> <| max_setup_calls := h4 |>
                     <| su_self_size := su_self_size pol |> <| heap_ptr := heap_ptr pol |>
                     <| content_type := strncpy (content_type pol) CONTENT_TYPE_LEN |>
                     <| timestamp := strncpy (timestamp pol) TIMESTAMP_LEN |>
                     <| user_etag := strncpy (user_etag pol) USER_TAG_LEN |>
                     <| x_object_meta_tag := strncpy (x_object_meta_tag pol) X_OBJECT_META_TAG_LEN |> in
    '(nap, cb) ← UpdateSyscallback (set_policy nap (fun _ => pol)) hint;
    mret (nap, (if e || e1 || e2 || e3 || e4 || (cb =? ERR_CODE) then ERR_CODE else OK_CODE), hint).

(** ** Dispatch *)

Definition TrapExitHandle (nap : NaClApp) (code : Z) : M (NaClApp * Z) := fail (UserExit code).

(** [arg i] is the 64-bit word [sys_args[i]] in user memory; [rd_setup] reads
    a SetupList there.  The last component is the structure written back. *)
Definition TrapHandler (arg : nat -> Z) (rd_setup : Z -> SetupList) (nap : NaClApp) (args : Z)
  : M (NaClApp * Z * option SetupList) :=
  match manifest nap with
  | None => mret (nap, -1, None)
  | Some _ =>
      _ ← NaClUserToSys nap args;
      let fn := arg 0%nat in
      if fn =? TrapExit then
        '(nap, r) ← TrapExitHandle nap (i32 (arg 2%nat)); mret (nap, r, None)
      else if fn =? TrapUserSetup then
        '(nap, r, hint) ← TrapUserSetupHandle nap (arg 2%nat) (rd_setup (arg 2%nat));
        mret (nap, r, Some hint)
      else if fn =? TrapRead then
        '(nap, r) ← TrapReadHandle nap (u32 (arg 2%nat)) (arg 3%nat) (i32 (arg 4%nat)) (i64 (arg 5%nat));
        mret (nap, r, None)
      else if fn =? TrapWrite then
        '(nap, r) ← TrapWriteHandle nap (u32 (arg 2%nat)) (arg 3%nat) (i32 (arg 4%nat)) (i64 (arg 5%nat));
        mret (nap, r, None)
      else mret (nap, ERR_CODE, None)
  end.

End Traps.

(** ** Reads and writes stay within the channel's limits *)

(** The integer types of the fields used by the transfer in direction [d]. *)
Record channel_typed (d : direction) (fd : PreOpenedFileDesc) : Prop := {
  ct_cnt : is_i32 (dir_cnt d fd);
  ct_max : is_i32 (dir_max d fd);
  ct_cnt_size : 0 <= dir_cnt_size d fd < two63;
  ct_max_size : 0 <= dir_max_size d fd < two63;
}.

(** What the two directions have in common: a transfer is counted by its own
    counters and leaves the limits alone. *)
Class Accounted (d : direction) : Prop := {
  acc_cnt n fd : dir_cnt d (dir_account d n fd) = i32 (dir_cnt d fd + 1);
  acc_cnt_size n fd : dir_cnt_size d (dir_account d n fd) = i64 (dir_cnt_size d fd + n);
  acc_max n fd : dir_max d (dir_account d n fd) = dir_max d fd;
  acc_max_size n fd : dir_max_size d (dir_account d n fd) = dir_max_size d fd;
  acc_channels desc : desc ∈ dir_channels d -> desc = 0 \/ desc = 1;
}.

#[global] Instance reading_accounted : Accounted reading.
Proof. split; try done. cbn. set_solver. Qed.
#[global] Instance writing_accounted : Accounted writing.
Proof. split; try done. cbn. set_solver. Qed.

Lemma i64_small z : is_i64 z -> i64 z = z.
Proof.
  intros Hz. unfold i64, u64. destruct (decide (0 <= z)).
  - rewrite Z.mod_small by zlia. case_match; zbool; zlia.
  - rewrite <- (Z_mod_plus_full z 1 two64), Z.mod_small by zlia. case_match; zbool; zlia.
Qed.

(** The conditions under which a transfer is granted, and how much. *)
Definition granted (d : direction) (fd : PreOpenedFileDesc) (size offset n : Z) : Prop :=
  ch_mounted fd = LOADED /\ 1 <= size /\ 0 <= offset < ch_fsize fd /\
  dir_cnt d fd < dir_max d fd /\ dir_cnt_size d fd < dir_max_size d fd /\
  n = Z.min size (dir_max_size d fd - dir_cnt_size d fd).

(** [grant] implements it as long as the limit was not lowered two gigabytes
    below what has already been transferred. *)
Lemma grant_spec d fd size offset n :
  channel_typed d fd -> is_i32 size -> dir_cnt_size d fd - dir_max_size d fd <= two31 ->
  grant d fd size offset = inr n <-> granted d fd size offset n.
Proof.
  intros [] Hsz Hlow. unfold grant, granted. rewrite i64_small by zlia.
  set (tail := dir_max_size d fd - dir_cnt_size d fd) in *.
  destruct (ch_mounted fd =? LOADED) eqn:?; zbool; cbn [negb]; [|naive_solver].
  destruct (size <? 1) eqn:?; zbool; [naive_solver lia|].
  destruct (offset <? 0) eqn:?; zbool; [naive_solver lia|].
  destruct (ch_fsize fd <=? offset) eqn:?; zbool; [naive_solver lia|].
  destruct (dir_max d fd <=? dir_cnt d fd) eqn:?; zbool; [naive_solver lia|].
  destruct (tail <? size) eqn:?; zbool.
  - rewrite i32_small by zlia. destruct (tail <? 1) eqn:?; zbool.
    + split; [done|]. subst tail. naive_solver lia.
    + split; [intros [= <-]|intros (_ & _ & _ & _ & _ & ->); f_equal]; subst tail; [|zlia].
      split_and!; zlia.
  - destruct (size <? 1) eqn:?; zbool; [lia|].
    split; [intros [= <-]|intros (_ & _ & _ & _ & _ & ->); f_equal]; subst tail; [|zlia].
    split_and!; zlia.
Qed.

(** The counters after a granted transfer are exact and within the limits. *)
Lemma account_within d `{!Accounted d} fd size offset n :
  channel_typed d fd -> granted d fd size offset n ->
  dir_cnt d (dir_account d n fd) = dir_cnt d fd + 1 /\
  dir_cnt_size d (dir_account d n fd) = dir_cnt_size d fd + n /\
  dir_cnt d (dir_account d n fd) <= dir_max d fd /\
  dir_cnt_size d (dir_account d n fd) <= dir_max_size d fd /\
  channel_typed d (dir_account d n fd).
Proof.
  intros [] (_ & Hs & _ & Hc & Hcs & ->).
  assert (Hc' : dir_cnt d (dir_account d (Z.min size (dir_max_size d fd - dir_cnt_size d fd)) fd)
    = dir_cnt d fd + 1) by (rewrite acc_cnt, i32_small; zlia).
  assert (Hs' : dir_cnt_size d (dir_account d (Z.min size (dir_max_size d fd - dir_cnt_size d fd)) fd)
    = dir_cnt_size d fd + Z.min size (dir_max_size d fd - dir_cnt_size d fd))
    by (rewrite acc_cnt_size, i64_small; zlia).
  split_and!; try done; try lia.
  split; rewrite ?Hc', ?Hs', ?acc_max, ?acc_max_size; zlia.
Qed.

(** The channel table of the application. *)
Definition app_channels (nap : NaClApp) : list PreOpenedFileDesc :=
  match manifest nap with Some m => channels (user_setup m) | None => [] end.

Definition set_channel (nap : NaClApp) (ch : nat) (fd : PreOpenedFileDesc) : NaClApp :=
  set_policy nap (fun p => p <| channels := <[ch := fd]> (channels p) |>).

Lemma app_channels_set nap ch fd :
  app_channels (set_channel nap ch fd) = <[ch := fd]> (app_channels nap).
Proof. unfold app_channels, set_channel, set_policy. by destruct (manifest nap) eqn:E; simpl; rewrite ?E. Qed.

(** A transfer that returns: refused with the application unchanged, or
    granted, with one host call on the channel's handle at the translated
    buffer and the counters advanced. *)
Definition transfer_result (d : direction) (ev : Z -> Z -> Z -> Z -> event) (nap : NaClApp)
    (desc buffer size offset : Z) (l : list event) (nap' : NaClApp) : Prop :=
  (l = [] /\ nap' = nap) \/
  (exists fd n, app_channels nap !! Z.to_nat desc = Some fd /\ desc ∈ dir_channels d /\
     grant d fd size offset = inr n /\
     l = [ev (ch_handle fd) (buffer + mem_start nap) n offset] /\
     nap' = set_channel nap (Z.to_nat desc) (dir_account d n fd)).

Lemma Trap_transfer_inv d ev ret nap desc buffer size offset l nap' r :
  placed nap -> is_u64 buffer ->
  Trap_transfer d (fun h a n o => _ ← emit (ev h a n o); mret (ret h a n o))
    nap desc buffer size offset = (l, Ret (nap', r)) ->
  0 < buffer < two32 /\ transfer_result d ev nap desc buffer size offset l nap' /\ is_i32 r.
Proof.
  intros Hpl Hb. unfold Trap_transfer. rewrite UserToSys_spec by (done || zlia).
  case_decide as Hd; [|done]. rewrite M_bind_ret_l.
  destruct (bool_decide (desc ∈ dir_channels d)) eqn:Hin; cbn [negb].
  2: { intros [= <- <- <-]. split_and!; [lia|lia|by left|vm_compute; done]. }
  apply bool_decide_eq_true in Hin. unfold policy.
  destruct (manifest nap) as [m|] eqn:Hm; [|done]. rewrite M_bind_ret_l.
  intros Hr. minv Hr. destruct (grant d a size offset) as [e|n] eqn:Hg.
  - apply M_ret_inv in Hr1 as [-> [= <- <-]]. subst. split_and!; [lia|lia|by left|].
    unfold grant in Hg. repeat case_match; simplify_eq; vm_compute; done.
  - minv Hr1. subst. simplify_eq/=. split_and!; [lia|lia| |apply i32_range].
    right. exists a, n. unfold app_channels. rewrite Hm. split_and!; try done.
Qed.

(** ** Runs of reads and writes *)

(** Any sequence of returning reads and writes, with its host calls labelled
    by the channel number. *)
Inductive transfers `{Host} : NaClApp -> list (Z * event) -> NaClApp -> Prop :=
| transfers_nil nap : transfers nap [] nap
| transfers_read nap desc buffer size offset l nap1 r tr nap2 :
    is_u64 buffer -> is_i32 size ->
    TrapReadHandle nap desc buffer size offset = (l, Ret (nap1, r)) ->
    transfers nap1 tr nap2 -> transfers nap (map (pair desc) l ++ tr) nap2
| transfers_write nap desc buffer size offset l nap1 r tr nap2 :
    is_u64 buffer -> is_i32 size ->
    TrapWriteHandle nap desc buffer size offset = (l, Ret (nap1, r)) ->
    transfers nap1 tr nap2 -> transfers nap (map (pair desc) l ++ tr) nap2.

(** Bytes asked of the host for channel [ch] in one direction. *)
Definition event_bytes (d : bool) (e : event) : Z :=
  match e, d with
  | HostRead _ _ n _, true => n
  | HostWrite _ _ n _, false => n
  | _, _ => 0
  end.

Fixpoint bytes (d : bool) (ch : Z) (tr : list (Z * event)) : Z :=
  match tr with
  | [] => 0
  | (c, e) :: tr => (if c =? ch then event_bytes d e else 0) + bytes d ch tr
  end.

Lemma bytes_app d ch t1 t2 : bytes d ch (t1 ++ t2) = bytes d ch t1 + bytes d ch t2.
Proof. induction t1 as [|[c e] t1 IH]; simpl; lia. Qed.

(** A channel whose counters are typed and within their limits. *)
Record channel_ok (fd : PreOpenedFileDesc) : Prop := {
  ok_read : channel_typed reading fd;
  ok_write : channel_typed writing fd;
  ok_gets : cnt_get_size fd <= max_get_size fd;
  ok_puts : cnt_put_size fd <= max_put_size fd;
}.

Definition channels_ok (nap : NaClApp) : Prop := Forall channel_ok (app_channels nap).

Lemma account_ok_read fd size offset n :
  channel_ok fd -> granted reading fd size offset n -> channel_ok (dir_account reading n fd).
Proof.
  intros [Hr Hw Hg Hp] Hgr.
  destruct (account_within reading fd size offset n Hr Hgr) as (_ & _ & _ & Hle & Ht).
  split; try done. by destruct Hw.
Qed.

Lemma account_ok_write fd size offset n :
  channel_ok fd -> granted writing fd size offset n -> channel_ok (dir_account writing n fd).
Proof.
  intros [Hr Hw Hg Hp] Hgr.
  destruct (account_within writing fd size offset n Hw Hgr) as (_ & _ & _ & Hle & Ht).
  split; try done. by destruct Hr.
Qed.

(** The effect of one transfer on any channel [ch]. *)
Definition channel_step (l : list (Z * event)) (ch : Z) (fd fd' : PreOpenedFileDesc) : Prop :=
  channel_ok fd' /\
  cnt_get_size fd' = cnt_get_size fd + bytes true ch l /\
  cnt_put_size fd' = cnt_put_size fd + bytes false ch l /\
  max_get_size fd' = max_get_size fd /\ max_put_size fd' = max_put_size fd.

Lemma channel_step_refl ch fd : channel_ok fd -> channel_step [] ch fd fd.
Proof. unfold channel_step. simpl. intros. split_and!; try done; lia. Qed.

Lemma channel_step_trans l1 l2 ch f1 f2 f3 :
  channel_step l1 ch f1 f2 -> channel_step l2 ch f2 f3 -> channel_step (l1 ++ l2) ch f1 f3.
Proof.
  unfold channel_step. rewrite !bytes_app. intros (_ & ? & ? & ? & ?) (? & ? & ? & ? & ?).
  split_and!; try done; lia.
Qed.

Lemma set_channel_placed nap ch fd : placed nap -> placed (set_channel nap ch fd).
Proof. intros []. unfold set_channel, set_policy. by destruct (manifest nap). Qed.

(** One transfer, seen from every channel. *)
Lemma transfer_result_step d ev `{!Accounted d} nap desc buffer size offset l nap' :
  (forall fd, channel_ok fd -> channel_typed d fd /\ dir_cnt_size d fd <= dir_max_size d fd) ->
  (forall fd n, channel_ok fd -> granted d fd size offset n ->
     channel_step [(desc, ev (ch_handle fd) (buffer + mem_start nap) n offset)] desc fd (dir_account d n fd)) ->
  placed nap -> channels_ok nap -> is_i32 size ->
  transfer_result d ev nap desc buffer size offset l nap' ->
  placed nap' /\ channels_ok nap' /\
  forall ch fd, app_channels nap !! Z.to_nat ch = Some fd -> 0 <= ch ->
    exists fd', app_channels nap' !! Z.to_nat ch = Some fd' /\ channel_step (map (pair desc) l) ch fd fd'.
Proof.
  intros Hty Hstep Hpl Hok Hsz [[-> ->]|(fd0 & n & Hfd0 & Hin & Hg & -> & ->)].
  - split_and!; try done. intros ch fd Hfd _. exists fd. split; [done|].
    apply channel_step_refl. by eapply Forall_lookup_1.
  - pose proof (Forall_lookup_1 _ _ _ _ Hok Hfd0) as Hfdok. destruct (Hty _ Hfdok).
    apply grant_spec in Hg; [|done..|zlia]. specialize (Hstep _ _ Hfdok Hg).
    split; [by apply set_channel_placed|]. unfold channels_ok. rewrite app_channels_set. split.
    + apply Forall_insert; [done|]. by destruct Hstep.
    + intros ch fd Hfd Hch. apply acc_channels in Hin.
      destruct (decide (ch = desc)) as [->|Hne].
      * exists (dir_account d n fd0). rewrite list_lookup_insert_eq by (by eapply lookup_lt_Some).
        split; [done|]. rewrite Hfd0 in Hfd. by injection Hfd as <-.
      * exists fd. rewrite list_lookup_insert_ne by lia. split; [done|].
        unfold channel_step. simpl. replace (desc =? ch) with false by (symmetry; apply Z.eqb_neq; lia).
        split_and!; try lia; try done. by eapply Forall_lookup_1.
Qed.

Lemma TrapRead_step `{Host} nap desc buffer size offset l nap' r :
  placed nap -> channels_ok nap -> is_u64 buffer -> is_i32 size ->
  TrapReadHandle nap desc buffer size offset = (l, Ret (nap', r)) ->
  placed nap' /\ channels_ok nap' /\
  forall ch fd, app_channels nap !! Z.to_nat ch = Some fd -> 0 <= ch ->
    exists fd', app_channels nap' !! Z.to_nat ch = Some fd' /\ channel_step (map (pair desc) l) ch fd fd'.
Proof.
  intros Hpl Hok Hb Hsz (_ & Ht & _)%Trap_transfer_inv; [|done..].
  refine (transfer_result_step reading HostRead _ _ _ _ _ _ _ _ _ Hpl Hok Hsz Ht).
  - by intros fd [].
  - intros fd n Hfd Hg. destruct (account_within _ _ _ _ _ (ok_read _ Hfd) Hg) as (_ & Hc & _).
    split_and!; simpl; rewrite ?Z.eqb_refl; try (by eapply account_ok_read); cbn in *; try lia; done.
Qed.

Lemma TrapWrite_step `{Host} nap desc buffer size offset l nap' r :
  placed nap -> channels_ok nap -> is_u64 buffer -> is_i32 size ->
  TrapWriteHandle nap desc buffer size offset = (l, Ret (nap', r)) ->
  placed nap' /\ channels_ok nap' /\
  forall ch fd, app_channels nap !! Z.to_nat ch = Some fd -> 0 <= ch ->
    exists fd', app_channels nap' !! Z.to_nat ch = Some fd' /\ channel_step (map (pair desc) l) ch fd fd'.
Proof.
  intros Hpl Hok Hb Hsz (_ & Ht & _)%Trap_transfer_inv; [|done..].
  refine (transfer_result_step writing HostWrite _ _ _ _ _ _ _ _ _ Hpl Hok Hsz Ht).
  - by intros fd [].
  - intros fd n Hfd Hg. destruct (account_within _ _ _ _ _ (ok_write _ Hfd) Hg) as (_ & Hc & _).
    split_and!; simpl; rewrite ?Z.eqb_refl; try (by eapply account_ok_write); cbn in *; try lia; done.
Qed.

Lemma transfers_quota `{Host} nap tr nap' :
  transfers nap tr nap' -> placed nap -> channels_ok nap ->
  forall ch fd, app_channels nap !! Z.to_nat ch = Some fd -> 0 <= ch ->
    exists fd', app_channels nap' !! Z.to_nat ch = Some fd' /\ channel_step tr ch fd fd'.
Proof.
  assert (Hcomp : forall (P Q : NaClApp -> Prop) n0 n1 n2 l tr,
    (P n1 /\ Q n1 /\ forall ch fd, app_channels n0 !! Z.to_nat ch = Some fd -> 0 <= ch ->
      exists fd', app_channels n1 !! Z.to_nat ch = Some fd' /\ channel_step l ch fd fd') ->
    (P n1 -> Q n1 -> forall ch fd, app_channels n1 !! Z.to_nat ch = Some fd -> 0 <= ch ->
      exists fd', app_channels n2 !! Z.to_nat ch = Some fd' /\ channel_step tr ch fd fd') ->
    forall ch fd, app_channels n0 !! Z.to_nat ch = Some fd -> 0 <= ch ->
      exists fd', app_channels n2 !! Z.to_nat ch = Some fd' /\ channel_step (l ++ tr) ch fd fd').
  { intros P Q n0 n1 n2 l t (HP & HQ & H1) H2 ch fd Hfd Hch.
    destruct (H1 ch fd Hfd Hch) as (fd1 & Hfd1 & Hs1).
    destruct (H2 HP HQ ch fd1 Hfd1 Hch) as (fd2 & Hfd2 & Hs2).
    exists fd2. split; [done|]. by eapply channel_step_trans. }
  induction 1 as [nap|nap desc b s o l nap1 r tr nap2 Hb Hs Hr _ IH|nap desc b s o l nap1 r tr nap2 Hb Hs Hr _ IH];
    intros Hpl Hok.
  - intros ch fd Hfd _. exists fd. split; [done|]. apply channel_step_refl. by eapply Forall_lookup_1.
  - eapply Hcomp; [|exact IH]. by eapply TrapRead_step.
  - eapply Hcomp; [|exact IH]. by eapply TrapWrite_step.
Qed.

(** ** The user syscall handler *)

(** The code region bounds of a loaded program. *)
Record text_bounds (nap : NaClApp) : Prop := {
  tb_static : 0 <= static_text_end nap <= two32;
  tb_dyn_start : 0 <= dynamic_text_start nap;
  tb_dyn_end : dynamic_text_end nap <= two32;
}.

(** A bundle head of the static or dynamic code, above the trampolines. *)
Definition code_address (nap : NaClApp) (a : Z) : Prop :=
  a mod OP_ALIGNEMENT = 0 /\
  (dynamic_text_start nap <= a < dynamic_text_end nap \/ NACL_TRAMPOLINE_END <= a < static_text_end nap).

(** The handler in the policy (a user address) and the one the trampoline
    jumps to (a system address) agree, and point to code or nowhere. *)
Definition callback_inv (nap : NaClApp) : Prop :=
  match manifest nap with
  | Some m =>
      let a := su_syscallback (user_setup m) in
      (a = 0 /\ g_syscallback nap = 0) \/
      (0 < a /\ code_address nap a /\ g_syscallback nap = a + mem_start nap)
  | None => g_syscallback nap = 0
  end.

Lemma callback_ok_iff nap a :
  text_bounds nap -> is_i32 a -> a mod OP_ALIGNEMENT = 0 ->
  callback_ok nap a = true <-> code_address nap a.
Proof.
  intros [] Ha Hm. unfold callback_ok, code_address. destruct (decide (0 <= a)) as [Hp|Hp].
  - rewrite u64_small by zlia. rewrite orb_true_iff, !andb_true_iff, !Z.leb_le, !Z.ltb_lt. naive_solver.
  - assert (u64 a = a + two64) as ->
      by (unfold u64; rewrite <- (Z_mod_plus_full a 1 two64), Z.mod_small; zlia).
    rewrite orb_true_iff, !andb_true_iff, !Z.leb_le, !Z.ltb_lt. clear Hm.
    assert (0 <= NACL_TRAMPOLINE_END) by done. split; [intros ?|intros [_ ?]]; exfalso; zlia.
Qed.

Lemma set_policy_some nap m f :
  manifest nap = Some m -> set_policy nap f = nap <| manifest := Some (m <| user_setup := f (user_setup m) |>) |>.
Proof. unfold set_policy. by intros ->. Qed.

Lemma UpdateSyscallback_spec nap hint m :
  placed nap -> text_bounds nap -> manifest nap = Some m -> is_i32 (su_syscallback hint) ->
  exists nap' r, UpdateSyscallback nap hint = mret (nap', r) /\ callback_inv nap' /\
    (exists a g, nap' = nap <| g_syscallback := g |> <| manifest :=
       Some (m <| user_setup := (user_setup m) <| su_syscallback := a |> |>) |>) /\
    (r = OK_CODE <-> su_syscallback hint = 0 \/ code_address nap (su_syscallback hint)) /\
    (r = OK_CODE \/ r = ERR_CODE).
Proof.
  intros Hpl Htb Hm Ha. unfold UpdateSyscallback, policy. rewrite Hm, M_bind_ret_l.
  set (a := su_syscallback hint) in *.
  set (nap0 := set_policy _ _).
  assert (Hnap0 : nap0 = nap <| g_syscallback := 0 |> <| manifest :=
     Some (m <| user_setup := (user_setup m) <| su_syscallback := 0 |> |>) |>).
  { subst nap0. by erewrite set_policy_some. }
  assert (Hbad : callback_inv nap0) by (rewrite Hnap0; by left).
  assert (Hshape : exists a g, nap0 = nap <| g_syscallback := g |> <| manifest :=
     Some (m <| user_setup := (user_setup m) <| su_syscallback := a |> |>) |>) by (by exists 0, 0).
  destruct (a =? 0) eqn:Ha0; zbool.
  { exists nap0, OK_CODE. split_and!; try done; naive_solver. }
  rewrite Z.land_comm. change (OP_ALIGNEMENT - 1) with (2 ^ 5 - 1). rewrite land_ones_mod by lia.
  change (2 ^ 5) with OP_ALIGNEMENT. destruct (a mod OP_ALIGNEMENT =? 0) eqn:Hal; zbool; cbn [negb].
  2: { exists nap0, ERR_CODE. unfold code_address. split_and!; try done; naive_solver. }
  assert (Hcb : callback_ok nap0 a = callback_ok nap a) by (by rewrite Hnap0). rewrite Hcb.
  destruct (callback_ok nap a) eqn:Hok.
  2: { exists nap0, ERR_CODE. split_and!; try done; [|naive_solver]. split; [done|].
       intros [?|Hc]; [done|]. apply callback_ok_iff in Hc; [congruence|done..]. }
  apply callback_ok_iff in Hok; [|done..].
  assert (Hpos : 0 < a < two32).
  { assert (0 < NACL_TRAMPOLINE_END) by done. clear Hal. destruct Htb, Hok as (_ & [?|?]); zlia. }
  erewrite set_policy_some by (by rewrite Hnap0). rewrite Hnap0. cbn -[NaClUserToSys u64].
  rewrite (u64_small a) by zlia.
  rewrite UserToSys_spec by (lia || by destruct Hpl). rewrite decide_True by done. rewrite M_bind_ret_l.
  eexists _, OK_CODE. split; [done|]. split; [|split; [by exists a, (a + mem_start nap)|naive_solver]].
  right. split_and!; [apply Hpos|exact Hok|done].
Qed.

(** ** Setup calls only lower limits *)

Lemma TRY_UPDATE_spec first p c :
  TRY_UPDATE first p c =
    (if first then c else Z.min p c, if first then c else Z.min p c, negb first && (c <? p)).
Proof.
  unfold TRY_UPDATE. destruct first; [done|]. simpl. destruct (p <=? c) eqn:?; zbool.
  - replace (c <? p) with false by (symmetry; apply Z.ltb_ge; lia). by rewrite Z.min_l by lia.
  - replace (c <? p) with true by (symmetry; apply Z.ltb_lt; lia). by rewrite Z.min_r by lia.
Qed.

(** The limits of [c'] are at most those of [c]; nothing else changes. *)
Definition channel_lowered (c' c : PreOpenedFileDesc) : Prop :=
  max_size c' <= max_size c /\ max_get_size c' <= max_get_size c /\ max_gets c' <= max_gets c /\
  max_put_size c' <= max_put_size c /\ max_puts c' <= max_puts c /\
  c' = c <| max_size := max_size c' |> <| max_get_size := max_get_size c' |>
         <| max_gets := max_gets c' |> <| max_put_size := max_put_size c' |> <| max_puts := max_puts c' |>.

(** The request [h] exceeds no limit of [c]. *)
Definition channel_within (h c : PreOpenedFileDesc) : bool :=
  (max_size h <=? max_size c) && (max_get_size h <=? max_get_size c) && (max_gets h <=? max_gets c) &&
  (max_put_size h <=? max_put_size c) && (max_puts h <=? max_puts c).

Lemma ltb_negb_leb a b : (a <? b) = negb (b <=? a).
Proof. by rewrite Z.leb_antisym, negb_involutive. Qed.

Lemma Setup_channel_spec first ch h c h' c' e :
  Setup_channel first ch h c = (h', c', e) ->
  channel_lowered c' c /\ (first = true -> c' = c) /\ e = negb first && negb (channel_within h c) /\
  max_size h' = max_size c' /\ max_get_size h' = max_get_size c' /\ max_gets h' = max_gets c' /\
  max_put_size h' = max_put_size c' /\ max_puts h' = max_puts c' /\ ch_handle h' = ch.
Proof.
  unfold Setup_channel. rewrite !TRY_UPDATE_spec. intros [= <- <- <-]. destruct c, h. simpl.
  unfold channel_lowered, channel_within; simpl. rewrite !ltb_negb_leb.
  split_and!; try done; try (destruct first; lia); try (by intros ->).
Qed.

Lemma Setup_channels_spec first hcs pcs ch hs ps e :
  length hcs = length pcs -> Setup_channels first ch hcs pcs = (hs, ps, e) ->
  Forall2 channel_lowered ps pcs /\ (first = true -> ps = pcs) /\
  (e = negb first && negb (forallb (fun hp => channel_within hp.1 hp.2) (zip hcs pcs))) /\
  length hs = length hcs.
Proof.
  revert hcs ch hs ps e. induction pcs as [|pc pcs IH]; intros [|hc hcs] ch hs ps e Hl; try discriminate Hl.
  - intros [= <- <- <-]. simpl. by rewrite andb_false_r.
  - injection Hl as Hl. simpl. destruct (Setup_channel first ch hc pc) as [[h1 p1] e1] eqn:E1.
    destruct (Setup_channels first (ch + 1) hcs pcs) as [[hs1 ps1] e2] eqn:E2.
    intros [= <- <- <-]. apply Setup_channel_spec in E1 as (? & Hf & -> & _).
    apply IH in E2 as (? & Hfs & -> & Hlen); [|done]. split_and!; simpl.
    + by constructor.
    + intros Ht. by rewrite Hf, Hfs.
    + destruct first; simpl; [done|]. by rewrite negb_andb.
    + by rewrite Hlen.
Qed.

(** The policy [p'] allows at most what [p] allows. *)
Record policy_lowered (p' p : SetupList) : Prop := {
  pol_cpu : max_cpu p' <= max_cpu p;
  pol_mem : max_mem p' <= max_mem p;
  pol_syscalls : max_syscalls p' <= max_syscalls p;
  pol_setups : max_setup_calls p' <= max_setup_calls p;
  pol_channels : Forall2 channel_lowered (channels p') (channels p);
}.

(** The request [h] exceeds no limit of the policy [p]. *)
Definition request_within (h p : SetupList) : bool :=
  forallb (fun hp => channel_within hp.1 hp.2) (zip (channels h) (channels p)) &&
  (max_cpu h <=? max_cpu p) && (max_mem h <=? max_mem p) &&
  (max_syscalls h <=? max_syscalls p) && (max_setup_calls h <=? max_setup_calls p).

Lemma channel_lowered_refl c : channel_lowered c c.
Proof. destruct c. unfold channel_lowered. simpl. split_and!; try done; lia. Qed.

(** The call, whatever the hint: it returns, touches only the policy and the
    handler, and lowers limits.  It succeeds exactly when, unless it is the
    first setup call, the hint exceeds no limit, and its handler is none or a
    code address. *)
Lemma UserSetup_spec nap h hint m :
  placed nap -> text_bounds nap -> manifest nap = Some m -> 0 < h < two32 ->
  is_i32 (su_syscallback hint) -> length (channels hint) = length (channels (user_setup m)) ->
  exists nap' r hint' m', TrapUserSetupHandle nap h hint = mret (nap', r, hint') /\
    manifest nap' = Some m' /\ policy_lowered (user_setup m') (user_setup m) /\
    nap' = nap <| manifest := Some m' |> <| g_syscallback := g_syscallback nap' |> /\
    cnt_setup_calls (user_setup m') = i32 (cnt_setup_calls (user_setup m) + 1) /\
    if decide (max_setup_calls (user_setup m) < i32 (cnt_setup_calls (user_setup m) + 1))
    then r = - OUT_OF_LIMITS /\ hint' = hint /\ g_syscallback nap' = g_syscallback nap /\
      su_syscallback (user_setup m') = su_syscallback (user_setup m)
    else callback_inv nap' /\
      (r = OK_CODE <->
        (i32 (cnt_setup_calls (user_setup m) + 1) = 1 \/ request_within hint (user_setup m) = true) /\
        (su_syscallback hint = 0 \/ code_address nap (su_syscallback hint))).
Proof.
  intros Hpl Htb Hm Hh Hcb Hlen. unfold TrapUserSetupHandle, policy.
  rewrite Hm, M_bind_ret_l. rewrite UserToSys_spec by (done || lia). rewrite decide_True, M_bind_ret_l by done.
  destruct m as [ma pol sy re]. cbn -[TRY_UPDATE Setup_channels i32 UpdateSyscallback decide] in Hm, Hlen |- *.
  set (cnt := i32 (cnt_setup_calls pol + 1)).
  erewrite set_policy_some by done. case_decide as Hlim.
  - replace (_ <? cnt) with true by (symmetry; apply Z.ltb_lt; lia).
    eexists _, _, _, _. split; [done|]. simpl. split_and!; try done.
    split; simpl; try lia. apply Forall_Forall2_diag, Forall_true. intros. apply channel_lowered_refl.
  - replace (max_setup_calls pol <? cnt) with false by (symmetry; apply Z.ltb_ge; lia).
    set (first := cnt =? 1).
    destruct (Setup_channels first 0 (channels hint) (channels pol)) as [[hcs pcs] e] eqn:E.
    apply Setup_channels_spec in E as (Hlow & Hfirst & -> & _); [|done].
    rewrite !TRY_UPDATE_spec. erewrite set_policy_some by done. simpl.
    match goal with |- context [UpdateSyscallback ?n ?h] =>
      destruct (UpdateSyscallback_spec n h _ ltac:(by destruct Hpl) ltac:(by destruct Htb) eq_refl Hcb)
        as (nap' & r & -> & Hinv & (a & g & Hshape) & Hr & Hr2) end.
    subst nap'. rewrite M_bind_ret_l. eexists _, _, _, _. split; [done|]. simpl.
    split; [done|]. split; [|split; [|split]].
    + split; simpl; try (destruct first; lia). done.
    + by destruct nap.
    + done.
    + split; [exact Hinv|]. change (code_address _ _) with (code_address nap (su_syscallback hint)) in Hr.
      rewrite <- Hr. unfold request_within. rewrite !ltb_negb_leb.
      subst first. destruct (cnt =? 1) eqn:Hf; zbool; simpl.
      * destruct Hr2 as [-> | ->]; simpl; [naive_solver lia|naive_solver].
      * destruct (forallb _ _), (_ <=? _), (_ <=? _), (_ <=? _), (_ <=? _), Hr2 as [-> | ->]; simpl;
          naive_solver lia.
Qed.

(** A setup call after the first takes the smaller of request and limit. *)
Definition lowered (hc pc : PreOpenedFileDesc) : PreOpenedFileDesc :=
  pc <| max_size := Z.min (max_size hc) (max_size pc) |>
     <| max_get_size := Z.min (max_get_size hc) (max_get_size pc) |>
     <| max_gets := Z.min (max_gets hc) (max_gets pc) |>
     <| max_put_size := Z.min (max_put_size hc) (max_put_size pc) |>
     <| max_puts := Z.min (max_puts hc) (max_puts pc) |>.

Lemma Setup_channels_lowered hcs pcs ch hs ps e :
  Setup_channels false ch hcs pcs = (hs, ps, e) -> ps = zip_with lowered hcs pcs.
Proof.
  revert pcs ch hs ps e. induction hcs as [|hc hcs IH]; intros [|pc pcs] ch hs ps e; try by intros [= _ <- _].
  simpl. destruct (Setup_channels false (ch + 1) hcs pcs) as [[hs1 ps1] e1] eqn:E.
  unfold Setup_channel. rewrite !TRY_UPDATE_spec. intros [= _ <- _]. by rewrite (IH _ _ _ _ _ E).
Qed.

(** A setup call that is counted and not the first. *)
Record later_setup (nap : NaClApp) (m : Manifest) (h : Z) (hint : SetupList) : Prop := {
  ls_placed : placed nap;
  ls_text : text_bounds nap;
  ls_manifest : manifest nap = Some m;
  ls_addr : 0 < h < two32;
  ls_callback : is_i32 (su_syscallback hint);
  ls_count : i32 (cnt_setup_calls (user_setup m) + 1) <> 1 /\
             i32 (cnt_setup_calls (user_setup m) + 1) <= max_setup_calls (user_setup m);
}.

Lemma UserSetup_later nap m h hint : later_setup nap m h hint ->
  exists nap' r hint' m', TrapUserSetupHandle nap h hint = mret (nap', r, hint') /\
    nap' = nap <| manifest := Some m' |> <| g_syscallback := g_syscallback nap' |> /\
    channels (user_setup m') = zip_with lowered (channels hint) (channels (user_setup m)) /\
    max_mem (user_setup m') = Z.min (max_mem hint) (max_mem (user_setup m)).
Proof.
  intros [Hpl Htb Hm Hh Hcb [H1 Hlim]]. unfold TrapUserSetupHandle, policy.
  rewrite Hm, M_bind_ret_l. rewrite UserToSys_spec by (done || lia). rewrite decide_True, M_bind_ret_l by done.
  destruct m as [ma pol sy re]. cbn -[TRY_UPDATE Setup_channels i32 UpdateSyscallback] in *.
  set (cnt := i32 (cnt_setup_calls pol + 1)) in *. erewrite set_policy_some by done.
  replace (max_setup_calls pol <? cnt) with false by (symmetry; apply Z.ltb_ge; lia).
  replace (cnt =? 1) with false by (symmetry; by apply Z.eqb_neq).
  destruct (Setup_channels false 0 (channels hint) (channels pol)) as [[hcs pcs] e] eqn:E.
  apply Setup_channels_lowered in E as ->. rewrite !TRY_UPDATE_spec. erewrite set_policy_some by done. simpl.
  match goal with |- context [UpdateSyscallback ?n ?h] =>
    destruct (UpdateSyscallback_spec n h _ ltac:(by destruct Hpl) ltac:(by destruct Htb) eq_refl Hcb)
      as (nap' & r & -> & _ & (a & g & Hshape) & _) end.
  subst nap'. rewrite M_bind_ret_l. eexists _, _, _, _. split; [done|]. simpl. split; [by destruct nap|done].
Qed.

(** A channel over its limit by [two31 + 1] bytes grants every sane request. *)
Lemma grant_wrapped d fd size offset :
  ch_mounted fd = LOADED -> 1 <= size < two31 -> 0 <= offset < ch_fsize fd -> dir_cnt d fd < dir_max d fd ->
  dir_max_size d fd - dir_cnt_size d fd = - two31 - 1 -> grant d fd size offset = inr (two31 - 1).
Proof.
  intros Hm Hs Ho Hc Ht. unfold grant. rewrite Hm, Ht. cbn [negb Z.eqb].
  replace (LOADED =? LOADED) with true by done. cbn [negb].
  replace (size <? 1) with false by lia. replace (offset <? 0) with false by lia.
  replace (ch_fsize fd <=? offset) with false by lia. replace (dir_max d fd <=? dir_cnt d fd) with false by lia.
  change (i64 (- two31 - 1)) with (- two31 - 1). replace (- two31 - 1 <? size) with true by (unfold two31 in *; lia).
  done.
Qed.

(** A granted size is a positive [int32_t], and a transfer that faults has
    made no host call. *)
Lemma grant_range d fd size offset n : is_i32 size -> grant d fd size offset = inr n -> 1 <= n < two31.
Proof.
  intros Hs. unfold grant. repeat case_match; try done; intros [= <-]; zbool; try zlia.
  pose proof (i32_range (i64 (dir_max_size d fd - dir_cnt_size d fd))). zlia.
Qed.

Lemma Trap_transfer_fault d ev ret nap desc buffer size offset l f :
  Trap_transfer d (fun h a n o => _ ← emit (ev h a n o); mret (ret h a n o))
    nap desc buffer size offset = (l, Fault f) -> l = [].
Proof.
  unfold Trap_transfer, NaClUserToSys, policy, load. intros Hm. revert Hm.
  repeat (case_match; rewrite ?M_bind_ret_l, ?M_bind_fail); unfold emit, fail, mbind, M_bind, mret, M_ret;
    by intros [=].
Qed.

(** ** Limits along an execution *)

Definition channel_limits (c : PreOpenedFileDesc) : list Z :=
  [max_size c; max_get_size c; max_gets c; max_put_size c; max_puts c].

Definition limits (p : SetupList) : list Z :=
  [max_cpu p; max_mem p; max_syscalls p; max_setup_calls p] ++ concat (map channel_limits (channels p)).

(** Every limit of [p'] is at most the same limit of [p]. *)
Definition limits_le (p' p : SetupList) : Prop := Forall2 Z.le (limits p') (limits p).

#[global] Instance limits_le_preorder : PreOrder limits_le.
Proof.
  split; [intros p|intros p q r]; unfold limits_le; [reflexivity|by intros ->].
Qed.

Lemma policy_lowered_limits p' p : policy_lowered p' p -> limits_le p' p.
Proof.
  intros [H1 H2 H3 H4 Hc]. unfold limits_le, limits. repeat constructor; try done.
  induction Hc as [|c' c cs' cs (?&?&?&?&?&_) _ IH]; simpl; [constructor|]. by repeat constructor.
Qed.

(** Accounting leaves the limits alone. *)
Lemma account_limits d n fd :
  d = reading \/ d = writing -> channel_limits (dir_account d n fd) = channel_limits fd.
Proof. by intros [-> | ->]. Qed.

Lemma limits_insert p ch fd fd' :
  channels p !! ch = Some fd -> channel_limits fd' = channel_limits fd ->
  limits_le (p <| channels := <[ch := fd']> (channels p) |>) p.
Proof.
  intros Hch Hl. unfold limits_le, limits. simpl.
  replace (map channel_limits (<[ch:=fd']> (channels p))) with (map channel_limits (channels p));
    [apply (reflexivity (R:=limits_le))|].
  change (map channel_limits) with (fmap (M:=list) channel_limits). rewrite list_fmap_insert.
  rewrite list_insert_id; [done|]. by rewrite list_lookup_fmap, Hch, Hl.
Qed.
