(* ===== verification/MainThread.v ===== *)
(** * Starting the program: NaClCreateMainThread and SwitchToApp

    The argument block is built at the top of the stack of the program: three
    words, the argv and envv pointers with their NULLs, the auxiliary vector,
    then the strings; 8 bytes are left below it.  A C string is the list of its
    bytes without the final NUL.  Control then leaves the runtime: the model
    ends with the register context NaClSwitchSSE is given. *)

From S2P Require Import Prelude Effects Rounding Bytes MemObj Vmmap DynArray Policy App HostDesc.
From S2P Require Import Memory Trap.

Definition NACL_STACK_ALIGN_MASK : Z := 15.
Definition NACL_STACK_PAD_BELOW_ALIGN : Z := 8.
Definition AT_NULL : Z := 0.
Definition AT_ENTRY : Z := 9.
Definition SIZE_T_MAX : Z := two64 - 1.
Definition SIGNAL_STACK_SIZE : Z := 8192 + 4096.
Definition STACK_GUARD_SIZE : Z := 4096.
Definition sizeof_NaClThreadContext : Z := 168.

(** ** arch/x86_64/sel_rt_64.c *)

Record NaClThreadContext := mkContext {
  rax : Z; rbx : Z; rcx : Z; rdx : Z; rbp : Z; rsi : Z; rdi : Z; rsp : Z;
  r8 : Z; r9 : Z; r10 : Z; r11 : Z; r12 : Z; r13 : Z; r14 : Z; r15 : Z;
  prog_ctr : Z;
  new_prog_ctr : Z;
  ctx_sysret : Z;
  tls_base : Z;
  tls_idx : Z;
}.

#[global] Instance NaClThreadContext_eta : Updatable NaClThreadContext := fun c =>
  mkContext (rax c) (rbx c) (rcx c) (rdx c) (rbp c) (rsi c) (rdi c) (rsp c) (r8 c) (r9 c) (r10 c) (r11 c)
    (r12 c) (r13 c) (r14 c) (r15 c) (prog_ctr c) (new_prog_ctr c) (ctx_sysret c) (tls_base c) (tls_idx c).

Definition NaClThreadContextCtor (nap : NaClApp) (pc stack_ptr idx : Z) : M NaClThreadContext :=
  sys_pc ← NaClUserToSys nap pc;
  mret (mkContext 0 0 0 0 stack_ptr 0 0 stack_ptr 0 0 0 0 0 0 0 (mem_start nap) sys_pc 0 (u64 (- NACL_ABI_EINVAL)) 0 idx).

Section Start.
Context `{HH : Host}.

(** posix/nacl_signal.c; the stack, or [None] for the return 0. *)
Definition NaClSignalStackAllocate : M (option Z) :=
  stack ← sys_mmap 0 (SIGNAL_STACK_SIZE + STACK_GUARD_SIZE) (Z.lor PROT_READ PROT_WRITE)
            (Z.lor MAP_PRIVATE MAP_ANONYMOUS) None 0;
  if stack =? MAP_FAILED then mret None
  else
    r ← NaCl_mprotect stack STACK_GUARD_SIZE PROT_NONE;
    if negb (r =? 0) then fail (LogFatal "Failed to mprotect() the stack guard page") else mret (Some stack).

(** The context the program starts with, and the stack registers of the
    runtime, kept in [nacl_sys].  [have_user] and [have_sys] tell whether the
    two globals exist already, [sys_sp] is NaClGetStackPtr(). *)
Definition SwitchToApp (have_user have_sys : bool) (sys_sp : Z) (nap : NaClApp) (stack_ptr : Z)
  : M (NaClThreadContext * Z) :=
  _ ← check (have_user || malloc_ok sizeof_NaClThreadContext) "nacl_user != NULL";
  ctx ← NaClThreadContextCtor nap (initial_entry_pt nap) (NaClSysToUserStackAddr nap stack_ptr) 0;
  signal_stack ← NaClSignalStackAllocate;
  _ ← check (bool_decide (is_Some signal_stack)) "NaClSignalStackAllocate(&nap->signal_stack)";
  pc ← NaClUserToSys nap (initial_entry_pt nap);
  let ctx := ctx <| ctx_sysret := break_addr nap |> <| prog_ctr := pc |> <| new_prog_ctr := pc |> in
  _ ← check (have_sys || malloc_ok sizeof_NaClThreadContext) "nacl_sys != NULL";
  mret (ctx, sys_sp).

(** ** sel_ldr_standard.c *)

(** A 32-bit store and strcpy. *)
Definition st32 (m : memory) (a v : Z) : memory := NaClStoreMem_loop m a 4 (u32 v).
Definition strcpy (m : memory) (dst : Z) (s : list Z) : memory := mem_write m dst (s ++ [0]).

Definition str_size (s : list Z) : Z := Z.of_nat (length s) + 1.

(** The sum of the string sizes, in [size_t]. *)
Definition strings_size (ss : list (list Z)) : Z := fold_left (fun size s => u64 (size + str_size s)) ss 0.

(** One loop over argv or envv: the pointer, then the string. *)
Fixpoint push_strings (nap : NaClApp) (ss : list (list Z)) (m : memory) (p strp : Z) : M (memory * Z * Z) :=
  match ss with
  | [] => mret (m, p, strp)
  | s :: ss' =>
      u ← NaClSysToUser nap strp;
      push_strings nap ss' (strcpy (st32 m p u) strp s) (p + 4) (strp + str_size s)
  end.

(** Consecutive words. *)
Fixpoint push_words (vs : list Z) (m : memory) (p : Z) : memory * Z :=
  match vs with
  | [] => (m, p)
  | v :: vs' => push_words vs' (st32 m p v) (p + 4)
  end.

Definition auxv (nap : NaClApp) : list Z :=
  (if negb (0 =? user_entry_pt nap) then [AT_ENTRY; user_entry_pt nap] else []) ++ [AT_NULL; 0].

Definition ptr_tbl_size (nap : NaClApp) (argc envc : Z) : Z :=
  let auxv_entries := if negb (0 =? user_entry_pt nap) then 2 else 1 in
  u64 (i32 (3 + argc + 1 + envc + 1 + auxv_entries * 2) * 4).

(** The argument block at [stack_ptr]. *)
Definition write_args (nap : NaClApp) (argv env : list (list Z)) (m : memory) (stack_ptr tbl : Z) : M memory :=
  let strp := stack_ptr + tbl in
  let '(m, p) := push_words [0; Z.of_nat (length env); Z.of_nat (length argv)] m stack_ptr in
  '(m, p, strp) ← push_strings nap argv m p strp;
  let '(m, p) := push_words [0] m p in
  '(m, p, strp) ← push_strings nap env m p strp;
  let '(m, p) := push_words [0] m p in
  let '(m, p) := push_words (auxv nap) m p in
  _ ← check (p =? stack_ptr + tbl) "(char *) p == (char *) stack_ptr + ptr_tbl_size";
  mret m.

(** [None] is the return 0; otherwise control goes to the program.  [envv] is
    NULL or the list of its strings; [now] is clock(). *)
Definition NaClCreateMainThread (have_user have_sys : bool) (sys_sp now : Z) (nap : NaClApp)
    (argv : list (list Z)) (envv : option (list (list Z))) (m : memory)
  : M (option (NaClApp * memory * NaClThreadContext * Z)) :=
  let argc := Z.of_nat (length argv) in
  _ ← check (0 <? argc) "argc > 0";
  let env := default [] envv in
  let envc := Z.of_nat (length env) in
  if negb (malloc_ok (argc * 8)) then mret None
  else if negb (malloc_ok (envc * 8)) && negb (envc =? 0) then mret None
  else
    let size := strings_size (argv ++ env) in
    let tbl := ptr_tbl_size nap argc envc in
    if SIZE_T_MAX - size <? tbl then mret None
    else
      let size := Z.land (u64 (u64 (size + tbl) + NACL_STACK_ALIGN_MASK)) (not64 NACL_STACK_ALIGN_MASK) in
      if stack_size nap <? size then mret None
      else
        let stack_ptr := u64 (mem_start nap + addr_limit nap - size) in
        _ ← check (0 =? Z.land stack_ptr NACL_STACK_ALIGN_MASK) "stack_ptr not aligned";
        m ← write_args nap argv env m stack_ptr tbl;
        let stack_ptr := u64 (stack_ptr - NACL_STACK_PAD_BELOW_ALIGN) in
        let m := mem_fill m stack_ptr NACL_STACK_PAD_BELOW_ALIGN 0 in
        let nap := ResumeCpuClock now nap in
        '(ctx, sp) ← SwitchToApp have_user have_sys sys_sp nap stack_ptr;
        mret (Some (nap, m, ctx, sp)).
End Start.

(** ** The argument block *)

(** [vs] in consecutive words from [p] on. *)
Definition words_at (m : memory) (p : Z) (vs : list Z) : Prop :=
  forall i v, vs !! i = Some v -> rd32 m (p + 4 * Z.of_nat i) = u32 v.

(** A table at [p] of user pointers to the NUL-terminated strings [ss], stored
    one after the other from [strp] on. *)
Fixpoint strings_at (nap : NaClApp) (m : memory) (ss : list (list Z)) (p strp : Z) : Prop :=
  match ss with
  | [] => True
  | s :: ss' =>
      rd32 m p = strp - mem_start nap /\ mem_read m strp (S (length s)) = s ++ [0] /\
      strings_at nap m ss' (p + 4) (strp + str_size s)
  end.

Definition total_size (ss : list (list Z)) : Z := foldr (fun s n => str_size s + n) 0 ss.

Lemma total_size_app l1 l2 : total_size (l1 ++ l2) = total_size l1 + total_size l2.
Proof. unfold total_size. induction l1; simpl; lia. Qed.

Lemma total_size_ge ss : Z.of_nat (length ss) <= total_size ss.
Proof. unfold total_size, str_size. induction ss; simpl; lia. Qed.

Lemma strings_size_total ss : total_size ss < two64 -> strings_size ss = total_size ss.
Proof.
  unfold strings_size. enough (H : forall n, 0 <= n -> n + total_size ss < two64 ->
    fold_left (fun size s => u64 (size + str_size s)) ss n = n + total_size ss) by (intros Hs; rewrite (H 0); zlia).
  induction ss as [|s ss IH]; intros n Hn Hs; cbn [fold_left]; [change (total_size []) with 0; lia|].
  pose proof (total_size_ge ss). change (total_size (s :: ss)) with (str_size s + total_size ss) in *.
  assert (0 < str_size s) by (unfold str_size; lia). rewrite u64_small by lia. rewrite IH; lia.
Qed.

Lemma st32_read m a v : rd32 (st32 m a v) a = u32 v.
Proof.
  unfold rd32, st32. rewrite StoreMem_loop_read. unfold u32. change (2 ^ (8 * Z.of_nat 4)) with two32. by rewrite Zmod_mod.
Qed.

Lemma st32_out m a v x : x < a \/ a + 4 <= x -> st32 m a v x = m x.
Proof. intros Hx. apply StoreMem_loop_out. lia. Qed.

Lemma words_at_ext m m' p vs :
  (forall x, p <= x < p + 4 * Z.of_nat (length vs) -> m' x = m x) -> words_at m p vs -> words_at m' p vs.
Proof.
  intros Hx Hw i v Hi. rewrite <- (Hw i v Hi). apply rd_bytes_ext. intros x Hr. apply Hx.
  apply lookup_lt_Some in Hi. lia.
Qed.

Lemma push_words_spec vs : forall m p,
  exists m', push_words vs m p = (m', p + 4 * Z.of_nat (length vs)) /\ words_at m' p vs /\
    forall x, x < p \/ p + 4 * Z.of_nat (length vs) <= x -> m' x = m x.
Proof.
  induction vs as [|v vs IH]; intros m p; simpl.
  { exists m. split_and!; [f_equal; lia|by intros i v|done]. }
  destruct (IH (st32 m p v) (p + 4)) as (m' & -> & Hw & Ho). exists m'. split_and!.
  - f_equal. lia.
  - intros [|i] w Hi; simpl in Hi.
    + injection Hi as ->. rewrite Z.mul_0_r, Z.add_0_r, <- (st32_read m p w). apply rd_bytes_ext.
      intros x Hx. rewrite Ho by lia. done.
    + replace (p + 4 * Z.of_nat (S i)) with (p + 4 + 4 * Z.of_nat i) by lia. by apply Hw.
  - intros x Hx. rewrite Ho by lia. apply st32_out. lia.
Qed.

Section Block.
Context (nap : NaClApp) (Hpl : placed nap).

Lemma strings_at_ext m m' ss : forall p strp,
  (forall x, p <= x < p + 4 * Z.of_nat (length ss) -> m' x = m x) ->
  (forall x, strp <= x < strp + total_size ss -> m' x = m x) -> strings_at nap m ss p strp -> strings_at nap m' ss p strp.
Proof using.
  induction ss as [|s ss IH]; intros p strp Hp Hs; cbn [strings_at]; [done|].
  pose proof (total_size_ge ss). change (total_size (s :: ss)) with (str_size s + total_size ss) in *.
  cbn [length] in *. assert (str_size s = Z.of_nat (S (length s))) by (unfold str_size; lia).
  intros (Hw & Hr & Hrest). split_and!.
  - rewrite <- Hw. apply rd_bytes_ext. intros x Hx. apply Hp. lia.
  - rewrite <- Hr. apply mem_read_ext. intros x Hx. apply Hs. lia.
  - apply IH; [intros x Hx; apply Hp; lia|intros x Hx; apply Hs; lia|done].
Qed.

(** A loop over strings with the table ending below them. *)
Lemma push_strings_spec ss : forall m p strp,
  p + 4 * Z.of_nat (length ss) <= strp -> mem_start nap <= p ->
  strp + total_size ss <= mem_start nap + two32 ->
  exists m', push_strings nap ss m p strp = mret (m', p + 4 * Z.of_nat (length ss), strp + total_size ss) /\
    strings_at nap m' ss p strp /\
    forall x, (x < p \/ p + 4 * Z.of_nat (length ss) <= x) -> (x < strp \/ strp + total_size ss <= x) -> m' x = m x.
Proof using Hpl.
  induction ss as [|s ss IH]; intros m p strp Hp Hlo Hhi; cbn [push_strings strings_at].
  { exists m. change (total_size []) with 0. simpl. rewrite Z.mul_0_r, !Z.add_0_r. done. }
  pose proof (total_size_ge ss). change (total_size (s :: ss)) with (str_size s + total_size ss) in *.
  cbn [length] in *. destruct Hpl as [Hb H0 He Ha].
  assert (Hsz : 0 < str_size s) by (unfold str_size; lia).
  rewrite SysToUser_spec, decide_True by (done || lia). rewrite M_bind_ret_l.
  destruct (IH (strcpy (st32 m p (strp - mem_start nap)) strp s) (p + 4) (strp + str_size s)) as (m' & -> & Hat & Ho);
    [lia|lia|lia|].
  exists m'. split_and!; [f_equal; f_equal; [f_equal; lia|lia]|..].
  - transitivity (rd32 (st32 m p (strp - mem_start nap)) p).
    + apply rd_bytes_ext. intros x Hx. rewrite Ho by lia. apply mem_write_out. lia.
    + rewrite st32_read. apply u32_small. lia.
  - assert (Hl : length (s ++ [0]) = S (length s)) by (rewrite length_app; simpl; lia). rewrite <- Hl.
    etransitivity; [|apply (mem_read_write (st32 m p (strp - mem_start nap)) strp)].
    apply mem_read_ext. intros x Hx. unfold str_size in *. by rewrite Ho by lia.
  - done.
  - intros x Hx1 Hx2. rewrite Ho by lia. unfold strcpy. rewrite mem_write_out; [apply st32_out; lia|].
    rewrite length_app. unfold str_size in *. simpl. lia.
Qed.

(** The whole block: where each word and string is, and that nothing outside
    the block is written. *)
Record args_block (m : memory) (argv env : list (list Z)) (sp tbl : Z) : Prop := {
  ab_head : words_at m sp [0; Z.of_nat (length env); Z.of_nat (length argv)];
  ab_argv : strings_at nap m argv (sp + 12) (sp + tbl);
  ab_null1 : rd32 m (sp + 12 + 4 * Z.of_nat (length argv)) = 0;
  ab_envv : strings_at nap m env (sp + 16 + 4 * Z.of_nat (length argv)) (sp + tbl + total_size argv);
  ab_null2 : rd32 m (sp + 16 + 4 * Z.of_nat (length argv) + 4 * Z.of_nat (length env)) = 0;
  ab_auxv : words_at m (sp + 20 + 4 * Z.of_nat (length argv) + 4 * Z.of_nat (length env)) (auxv nap);
}.

Lemma auxv_length : Z.of_nat (length (auxv nap)) = if negb (0 =? user_entry_pt nap) then 4 else 2.
Proof using. unfold auxv. by destruct (negb _). Qed.

Lemma write_args_spec argv env m sp :
  let tbl := 20 + 4 * (Z.of_nat (length argv) + Z.of_nat (length env)) + 4 * Z.of_nat (length (auxv nap)) in
  mem_start nap <= sp -> sp + tbl + total_size argv + total_size env <= mem_start nap + two32 ->
  exists m', write_args nap argv env m sp tbl = mret m' /\ args_block m' argv env sp tbl /\
    forall x, x < sp \/ sp + tbl + total_size argv + total_size env <= x -> m' x = m x.
Proof using Hpl.
  intros tbl Hlo Hhi. unfold write_args. pose proof (total_size_ge argv). pose proof (total_size_ge env).
  remember (Z.of_nat (length argv)) as A eqn:HA. remember (Z.of_nat (length env)) as E eqn:HE.
  remember (Z.of_nat (length (auxv nap))) as X eqn:HX.
  assert (Htbl : tbl = 20 + 4 * (A + E) + 4 * X) by done. clearbody tbl.
  destruct (push_words_spec [0; E; A] m sp) as (m1 & -> & Hw1 & Ho1). cbn [length] in Ho1 |- *.
  change (4 * Z.of_nat 3) with 12 in *.
  destruct (push_strings_spec argv m1 (sp + 12) (sp + tbl)) as (m2 & -> & Hw2 & Ho2); [lia|lia|lia|].
  rewrite <- HA in Ho2 |- *.
  rewrite M_bind_ret_l. destruct (push_words_spec [0] m2 (sp + 12 + 4 * A)) as (m3 & -> & Hw3 & Ho3).
  cbn [length] in Ho3 |- *. change (4 * Z.of_nat 1) with 4 in *.
  destruct (push_strings_spec env m3 (sp + 12 + 4 * A + 4) (sp + tbl + total_size argv)) as (m4 & -> & Hw4 & Ho4);
    [lia|lia|lia|]. rewrite <- HE in Ho4 |- *.
  rewrite M_bind_ret_l. destruct (push_words_spec [0] m4 (sp + 12 + 4 * A + 4 + 4 * E)) as (m5 & -> & Hw5 & Ho5).
  cbn [length] in Ho5 |- *. change (4 * Z.of_nat 1) with 4 in *.
  destruct (push_words_spec (auxv nap) m5 (sp + 12 + 4 * A + 4 + 4 * E + 4)) as (m6 & -> & Hw6 & Ho6).
  rewrite <- HX in Ho6 |- *.
  replace (_ =? sp + tbl) with true by (symmetry; apply Z.eqb_eq; lia). cbn [check]. rewrite M_bind_ret_l.
  exists m6. split; [done|]. assert (0 <= X) by lia. split.
  - split; rewrite <- ?HA, <- ?HE.
    + apply (words_at_ext m1); [|done]. intros x Hx. cbn [length] in Hx.
      rewrite Ho6, Ho5, Ho4, Ho3, Ho2 by lia. done.
    + apply (strings_at_ext m2); [..|done]; rewrite <- ?HA; intros x Hx; rewrite Ho6, Ho5, Ho4, Ho3 by lia; done.
    + specialize (Hw3 0%nat 0 eq_refl). rewrite Z.mul_0_r, Z.add_0_r in Hw3. change (u32 0) with 0 in Hw3. rewrite <- Hw3.
      apply rd_bytes_ext. intros x Hx. rewrite Ho6, Ho5, Ho4 by lia. done.
    + replace (sp + 16 + 4 * A) with (sp + 12 + 4 * A + 4) by lia.
      apply (strings_at_ext m4); [..|done]; rewrite <- ?HE; intros x Hx; rewrite Ho6, Ho5 by lia; done.
    + specialize (Hw5 0%nat 0 eq_refl). rewrite Z.mul_0_r, Z.add_0_r in Hw5. change (u32 0) with 0 in Hw5. rewrite <- Hw5.
      replace (sp + 16 + 4 * A + 4 * E) with (sp + 12 + 4 * A + 4 + 4 * E) by lia.
      apply rd_bytes_ext. intros x Hx. rewrite Ho6 by lia. done.
    + replace (sp + 20 + 4 * A + 4 * E) with (sp + 12 + 4 * A + 4 + 4 * E + 4) by lia. done.
  - intros x Hx. rewrite Ho6, Ho5, Ho4, Ho3, Ho2, Ho1 by lia. done.
Qed.
End Block.

(** ** The whole start *)

(** The rounded size of the block. *)
Definition block_size (need : Z) : Z := 16 * ((need + 15) / 16).

Lemma ResumeCpuClock_frame now nap : exists mf, ResumeCpuClock now nap = nap <| manifest := mf |>.
Proof.
  unfold ResumeCpuClock, set_policy. destruct (manifest nap) as [m|] eqn:Hm; [by eexists|].
  exists None. destruct nap; simpl in Hm. by subst.
Qed.

Section Run.
Context `{HH : Host}.
Hypothesis Hmalloc : forall n, malloc_ok n = true.
Hypothesis Hmmap : forall n p f d o, host_mmap 0 n p f d o <> MAP_FAILED.
Hypothesis Hprot : forall a n p, host_mprotect a n p = 0.

Lemma SignalStack_spec : exists l s, NaClSignalStackAllocate = (l, Ret (Some s)).
Proof using Hmmap Hprot.
  unfold NaClSignalStackAllocate, sys_mmap, NaCl_mprotect, emit. set (s := host_mmap _ _ _ _ _ _).
  assert (Hs : (s =? MAP_FAILED) = false) by (apply Z.eqb_neq, Hmmap).
  eexists _, s. cbn -[s]. rewrite Hs, Hprot. done.
Qed.

Lemma SwitchToApp_spec hu hs sys_sp nap sp :
  placed nap -> 0 < initial_entry_pt nap < two32 ->
  let pc := initial_entry_pt nap + mem_start nap in
  exists l, SwitchToApp hu hs sys_sp nap sp =
    (l, Ret (mkContext 0 0 0 0 sp 0 0 sp 0 0 0 0 0 0 0 (mem_start nap) pc pc (break_addr nap) 0 0, sys_sp)).
Proof using All.
  intros Hpl He pc. unfold SwitchToApp, NaClThreadContextCtor.
  rewrite !Hmalloc, !orb_true_r. cbn [check]. rewrite M_bind_ret_l, UserToSys_spec, decide_True by (done || lia).
  rewrite !M_bind_ret_l. destruct SignalStack_spec as (l & s & ->). exists l. apply M_bind_pure.
  rewrite bool_decide_true by done. cbn [check]. by rewrite !M_bind_ret_l.
Qed.

Definition table_size (nap : NaClApp) (argv env : list (list Z)) : Z :=
  20 + 4 * (Z.of_nat (length argv) + Z.of_nat (length env)) + 4 * Z.of_nat (length (auxv nap)).

(** The state the program starts in. *)
Record started (nap : NaClApp) (argv env : list (list Z)) (m m' : memory) (ctx : NaClThreadContext) (sp : Z) : Prop := {
  st_block : args_block nap m' argv env sp (table_size nap argv env);
  st_align : sp mod 16 = 0;
  st_regs : ctx = mkContext 0 0 0 0 (sp - 8) 0 0 (sp - 8) 0 0 0 0 0 0 0 (mem_start nap)
              (initial_entry_pt nap + mem_start nap) (initial_entry_pt nap + mem_start nap) (break_addr nap) 0 0;
  st_pad : forall x, sp - 8 <= x < sp -> m' x = 0;
  st_frame : forall x, x < sp - 8 \/ mem_start nap + two32 <= x -> m' x = m x;
}.

Lemma CreateMainThread_spec hu hs sys_sp now nap argv envv m :
  let env := default [] envv in
  let size := block_size (table_size nap argv env + total_size (argv ++ env)) in
  placed nap -> 0 < initial_entry_pt nap < two32 -> 0 <= stack_size nap < two32 ->
  argv <> [] -> total_size (argv ++ env) < 2 ^ 28 ->
  if decide (size <= stack_size nap) then
    exists l m' ctx,
      NaClCreateMainThread hu hs sys_sp now nap argv envv m = (l, Ret (Some (ResumeCpuClock now nap, m', ctx, sys_sp))) /\
      started nap argv env m m' ctx (mem_start nap + two32 - size)
  else NaClCreateMainThread hu hs sys_sp now nap argv envv m = mret None.
Proof using All.
  intros env size Hpl He Hst Hne Htot. unfold NaClCreateMainThread. fold env.
  replace (0 <? Z.of_nat (length argv)) with true by (symmetry; apply Z.ltb_lt; destruct argv; [done|simpl; lia]).
  cbn [check]. rewrite M_bind_ret_l, !Hmalloc. cbn [negb andb].
  pose proof (total_size_ge argv). pose proof (total_size_ge env). pose proof (auxv_length nap) as Hax.
  rewrite strings_size_total by zlia. rewrite total_size_app in *.
  assert (Htbl : ptr_tbl_size nap (Z.of_nat (length argv)) (Z.of_nat (length env)) = table_size nap argv env).
  { unfold ptr_tbl_size, table_size. rewrite Hax. unfold_words.
    destruct (negb _); rewrite i32_small by zlia; rewrite u64_small by zlia; lia. }
  assert (Htb : 20 <= table_size nap argv env <= 2 ^ 31).
  { unfold table_size. rewrite Hax. destruct (negb _); lia. }
  rewrite Htbl. clear Htbl. remember (table_size nap argv env) as tbl eqn:Etbl.
  replace (SIZE_T_MAX - _ <? tbl) with false by (symmetry; apply Z.ltb_ge; unfold SIZE_T_MAX; zlia).
  assert (Hsz : size = Z.land (u64 (u64 (total_size argv + total_size env + tbl) + NACL_STACK_ALIGN_MASK))
    (not64 NACL_STACK_ALIGN_MASK)).
  { change NACL_STACK_ALIGN_MASK with (2 ^ 4 - 1). rewrite (u64_small (total_size argv + _ + _)) by zlia.
    rewrite u64_small by zlia. rewrite land_not64_mask by (done || zlia). unfold size, block_size.
    rewrite total_size_app. change (2 ^ 4) with 16. Z.div_mod_to_equations. lia. }
  rewrite <- Hsz. assert (Hb : size mod 16 = 0 /\ tbl + total_size argv + total_size env <= size).
  { unfold size, block_size. rewrite total_size_app. Z.div_mod_to_equations. lia. }
  clearbody size. clear Hsz. destruct Hb as [Hs16 Hsge]. destruct Hpl as [Hbits Hms0 Hend Hal].
  assert (Hpl : placed nap) by done.
  assert (Hbig : two32 <= mem_start nap) by (unfold two32 in *; Z.div_mod_to_equations; lia). case_decide as Hfit.
  2: { by replace (stack_size nap <? size) with true by (symmetry; apply Z.ltb_lt; lia). }
  replace (stack_size nap <? size) with false by (symmetry; apply Z.ltb_ge; lia).
  rewrite addr_limit_val, (u64_small (mem_start nap + two32 - size)) by (done || zlia).
  assert (Hal16 : (mem_start nap + two32 - size) mod 16 = 0).
  { unfold two32 in *. Z.div_mod_to_equations. lia. }
  change NACL_STACK_ALIGN_MASK with (2 ^ 4 - 1). rewrite Z.land_comm, land_ones_mod by lia.
  change (2 ^ 4) with 16. rewrite Hal16. cbn [check Z.eqb]. rewrite M_bind_ret_l.
  remember (mem_start nap + two32 - size) as sp eqn:Esp.
  destruct (write_args_spec nap Hpl argv env m sp) as (m1 & Hwr & Hblk & Ho1); [lia|fold (table_size nap argv env); lia|].
  fold (table_size nap argv env) in Hwr, Hblk, Ho1. rewrite <- Etbl in Hwr, Hblk, Ho1.
  rewrite Hwr, M_bind_ret_l. clear Hwr. rewrite u64_small by (unfold NACL_STACK_PAD_BELOW_ALIGN; zlia).
  change NACL_STACK_PAD_BELOW_ALIGN with 8.
  destruct (ResumeCpuClock_frame now nap) as [mf Hres]. rewrite Hres.
  destruct (SwitchToApp_spec hu hs sys_sp (nap <| manifest := mf |>) (sp - 8)) as (l & ->); [by split|done|].
  eexists l, _, _. split; [by apply M_bind_pure|]. split; rewrite <- ?Etbl.
  - destruct Hblk as [B1 B2 B3 B4 B5 B6].
    assert (Hx : forall x, sp <= x -> mem_fill m1 (sp - 8) 8 0 x = m1 x) by (intros; apply mem_fill_out; lia).
    assert (Hrd : forall a, sp <= a -> rd32 (mem_fill m1 (sp - 8) 8 0) a = rd32 m1 a)
      by (intros; apply rd_bytes_ext; intros; apply Hx; lia).
    split.
    + apply (words_at_ext m1); [|done]. intros; apply Hx; lia.
    + apply (strings_at_ext nap m1); [..|done]; intros; apply Hx; lia.
    + rewrite Hrd by lia. done.
    + apply (strings_at_ext nap m1); [..|done]; intros; apply Hx; lia.
    + rewrite Hrd by lia. done.
    + apply (words_at_ext m1); [|done]. intros; apply Hx; lia.
  - done.
  - done.
  - intros x Hx. apply mem_fill_in. lia.
  - intros x Hx. rewrite mem_fill_out by lia. apply Ho1. lia.
Qed.
End Run.

(** ** Any host

    Every host call of the start is checked, and a failure is fatal: where the
    start returns, it did so as on a host that grants everything. *)

Definition generous (h : Host) : Host := {|
  malloc_ok := fun _ => true; host_mprotect := fun _ _ _ => 0;
  host_madvise := @host_madvise h;
  host_mmap := fun a n p f d o => let r := @host_mmap h a n p f d o in if r =? MAP_FAILED then 0 else r;
  host_munmap := @host_munmap h; host_errno := @host_errno h; host_fstat := @host_fstat h;
  host_pread := @host_pread h; host_pwrite := @host_pwrite h;
|}.

Section AnyHost.
Context `{h : Host}.

Lemma check_generous b b' msg l u :
  (b = true -> b' = true) -> check b msg = (l, Ret u) -> check b' msg = (l, Ret u).
Proof. intros Hb Hc. pose proof (check_inv _ _ _ _ Hc) as [_ Ht]. rewrite (Hb Ht). by rewrite Ht in Hc. Qed.

Lemma SignalStack_generous l s :
  NaClSignalStackAllocate = (l, Ret (Some s)) -> NaClSignalStackAllocate (HH := generous h) = (l, Ret (Some s)).
Proof.
  unfold NaClSignalStackAllocate, sys_mmap, NaCl_mprotect, emit. cbn.
  set (r := host_mmap _ _ _ _ _ _). destruct (r =? MAP_FAILED) eqn:Hf; [done|]. rewrite Hf. cbn.
  by destruct (host_mprotect _ _ _).
Qed.

Lemma SwitchToApp_generous hu hs sys_sp nap sp l r :
  SwitchToApp hu hs sys_sp nap sp = (l, Ret r) -> SwitchToApp (HH := generous h) hu hs sys_sp nap sp = (l, Ret r).
Proof.
  unfold SwitchToApp. intros Hrun.
  apply M_bind_ret_inv in Hrun as (l1 & u1 & l2 & Hc & Hrun & ->).
  rewrite (check_generous _ (hu || @malloc_ok (generous h) sizeof_NaClThreadContext) _ _ _ (fun _ => orb_true_r hu) Hc).
  apply M_bind_eq.
  apply M_bind_ret_inv in Hrun as (l3 & ctx & l4 & -> & Hrun & ->). apply M_bind_eq.
  apply M_bind_ret_inv in Hrun as (l5 & [s|] & l6 & Hs & Hrun & ->); [|done].
  rewrite (SignalStack_generous _ _ Hs). apply M_bind_eq.
  apply M_bind_ret_inv in Hrun as (l7 & u2 & l8 & -> & Hrun & ->). apply M_bind_eq.
  apply M_bind_ret_inv in Hrun as (l9 & pc & l10 & -> & Hrun & ->). apply M_bind_eq.
  apply M_bind_ret_inv in Hrun as (l11 & u3 & l12 & Hc2 & Hrun & ->).
  rewrite (check_generous _ (hs || @malloc_ok (generous h) sizeof_NaClThreadContext) _ _ _ (fun _ => orb_true_r hs) Hc2).
  by apply M_bind_eq.
Qed.

(** The start returns 0 because an allocation failed, or returns what it
    returns on the generous host. *)
Lemma CreateMainThread_generous hu hs sys_sp now nap argv envv m l r :
  NaClCreateMainThread hu hs sys_sp now nap argv envv m = (l, Ret r) ->
  (r = None /\ exists n, malloc_ok n = false) \/
  NaClCreateMainThread (HH := generous h) hu hs sys_sp now nap argv envv m = (l, Ret r).
Proof.
  unfold NaClCreateMainThread. cbv zeta. intros Hrun.
  apply M_bind_ret_inv in Hrun as (l1 & [] & l2 & -> & Hrun & ->).
  destruct (malloc_ok (Z.of_nat (length argv) * 8)) eqn:Ha; cbn [negb] in Hrun.
  2: { apply M_ret_inv in Hrun as [_ <-]. left. split; [done|]. by eexists. }
  destruct (negb (malloc_ok _) && _) eqn:He.
  { apply M_ret_inv in Hrun as [_ <-]. left. split; [done|].
    apply andb_true_iff in He as [He _]. apply negb_true_iff in He. by eexists. }
  right. apply M_bind_eq. cbn [malloc_ok generous negb andb].
  destruct (_ <? ptr_tbl_size _ _ _); [done|]. destruct (stack_size nap <? _); [done|].
  apply M_bind_ret_inv in Hrun as (l3 & u & l4 & -> & Hrun & ->). apply M_bind_eq.
  apply M_bind_ret_inv in Hrun as (l5 & m1 & l6 & -> & Hrun & ->). apply M_bind_eq.
  apply M_bind_ret_inv in Hrun as (l7 & [ctx sp] & l8 & Hsw & Hrun & ->).
  rewrite (SwitchToApp_generous _ _ _ _ _ _ _ Hsw). by apply M_bind_eq.
Qed.

Lemma CreateMainThread_returns hu hs sys_sp now nap argv envv m l r :
  let env := default [] envv in
  let size := block_size (table_size nap argv env + total_size (argv ++ env)) in
  placed nap -> 0 < initial_entry_pt nap < two32 -> 0 <= stack_size nap < two32 ->
  argv <> [] -> total_size (argv ++ env) < 2 ^ 28 ->
  NaClCreateMainThread hu hs sys_sp now nap argv envv m = (l, Ret r) ->
  match r with
  | Some (nap', m', ctx, sp) =>
      size <= stack_size nap /\ nap' = ResumeCpuClock now nap /\ sp = sys_sp /\
      started nap argv env m m' ctx (mem_start nap + two32 - size)
  | None => stack_size nap < size \/ exists n, malloc_ok n = false
  end.
Proof.
  intros env size Hpl He Hst Hne Htot Hrun.
  apply CreateMainThread_generous in Hrun as [[-> Hn]|Hrun]; [by right|].
  assert (Hmm : forall n p f d o, @host_mmap (generous h) 0 n p f d o <> MAP_FAILED).
  { intros. cbn. case_match eqn:Hr; zbool; done. }
  pose proof (CreateMainThread_spec (HH := generous h) (fun _ => eq_refl) Hmm (fun _ _ _ => eq_refl)
    hu hs sys_sp now nap argv envv m Hpl He Hst Hne Htot) as Hspec.
  cbv zeta in Hspec. fold env size in Hspec. destruct (decide (size <= stack_size nap)) as [Hle|Hgt].
  - destruct Hspec as (l' & m' & ctx & Heq & Hs). rewrite Hrun in Heq. by simplify_eq.
  - rewrite Hrun in Hspec. injection Hspec as _ ->. left. lia.
Qed.
End AnyHost.
