(* ===== verification/Md5.v ===== *)
(** * The digest of a file: md5.c

    The type UINT4, commented as a 32 bit type, is [unsigned long]: the model
    has its width [w] as a parameter, 64 on the target, 32 as meant.  The
    buffer of a new context is not initialised; its content is a parameter.
    The field [digest] of the context is the result of MD5Final. *)

From S2P Require Import Prelude Effects Bytes.

Record MD5_CTX := mkCtx {
  ctx_i : Z * Z;                 (* number of bits handled *)
  ctx_buf : Z * Z * Z * Z;
  ctx_in : list Z;               (* 64 bytes *)
}.

#[global] Instance updatable_ctx : Updatable MD5_CTX := fun r => mkCtx (ctx_i r) (ctx_buf r) (ctx_in r).

Definition PADDING : list Z := 128 :: replicate 63 0.

Section Md5.
Variable w : Z.

Definition wrap (z : Z) : Z := z mod 2 ^ w.

Definition F (x y z : Z) : Z := Z.lor (Z.land x y) (Z.land (wrap (Z.lnot x)) z).
Definition G (x y z : Z) : Z := Z.lor (Z.land x z) (Z.land y (wrap (Z.lnot z))).
Definition H (x y z : Z) : Z := Z.lxor (Z.lxor x y) z.
Definition I (x y z : Z) : Z := Z.lxor y (Z.lor x (wrap (Z.lnot z))).

Definition ROTATE_LEFT (x n : Z) : Z := Z.lor (wrap (Z.shiftl x n)) (Z.shiftr x (32 - n)).

(** One line of Transform: the mixing function, the index of the input word,
    the shift and the constant. *)
Record md5_step := step { st_mix : Z -> Z -> Z -> Z; st_k : nat; st_s : Z; st_ac : Z }.

(** FF, GG, HH, II: the registers are named in the order of the arguments of
    the line; the next line names them rotated. *)
Definition apply_step (inw : list Z) (r : Z * Z * Z * Z) (l : md5_step) : Z * Z * Z * Z :=
  let '(a, b, c, d) := r in
  let a := wrap (a + wrap (wrap (st_mix l b c d + nth (st_k l) inw 0) + st_ac l)) in
  let a := ROTATE_LEFT a (st_s l) in
  let a := wrap (a + b) in
  (d, a, b, c).

Definition rounds : list md5_step := [
  step F 0 7 3614090360; step F 1 12 3905402710; step F 2 17 606105819; step F 3 22 3250441966;
  step F 4 7 4118548399; step F 5 12 1200080426; step F 6 17 2821735955; step F 7 22 4249261313;
  step F 8 7 1770035416; step F 9 12 2336552879; step F 10 17 4294925233; step F 11 22 2304563134;
  step F 12 7 1804603682; step F 13 12 4254626195; step F 14 17 2792965006; step F 15 22 1236535329;
  step G 1 5 4129170786; step G 6 9 3225465664; step G 11 14 643717713; step G 0 20 3921069994;
  step G 5 5 3593408605; step G 10 9 38016083; step G 15 14 3634488961; step G 4 20 3889429448;
  step G 9 5 568446438; step G 14 9 3275163606; step G 3 14 4107603335; step G 8 20 1163531501;
  step G 13 5 2850285829; step G 2 9 4243563512; step G 7 14 1735328473; step G 12 20 2368359562;
  step H 5 4 4294588738; step H 8 11 2272392833; step H 11 16 1839030562; step H 14 23 4259657740;
  step H 1 4 2763975236; step H 4 11 1272893353; step H 7 16 4139469664; step H 10 23 3200236656;
  step H 13 4 681279174; step H 0 11 3936430074; step H 3 16 3572445317; step H 6 23 76029189;
  step H 9 4 3654602809; step H 12 11 3873151461; step H 15 16 530742520; step H 2 23 3299628645;
  step I 0 6 4096336452; step I 7 10 1126891415; step I 14 15 2878612391; step I 5 21 4237533241;
  step I 12 6 1700485571; step I 3 10 2399980690; step I 10 15 4293915773; step I 1 21 2240044497;
  step I 8 6 1873313359; step I 15 10 4264355552; step I 6 15 2734768916; step I 13 21 1309151649;
  step I 4 6 4149444226; step I 11 10 3174756917; step I 2 15 718787259; step I 9 21 3951481745 ].

Definition Transform (buf : Z * Z * Z * Z) (inw : list Z) : Z * Z * Z * Z :=
  let '(a0, b0, c0, d0) := buf in
  let '(a, b, c, d) := foldl (apply_step inw) buf rounds in
  (wrap (a0 + a), wrap (b0 + b), wrap (c0 + c), wrap (d0 + d)).

(** [n] words of four bytes each, least significant first. *)
Fixpoint words (n : nat) (l : list Z) : list Z :=
  match n with
  | O => []
  | S n' =>
      Z.lor (Z.lor (Z.lor (Z.shiftl (nth 3 l 0) 24) (Z.shiftl (nth 2 l 0) 16)) (Z.shiftl (nth 1 l 0) 8)) (nth 0 l 0)
        :: words n' (drop 4 l)
  end.

Definition MD5Init (garbage : list Z) : MD5_CTX :=
  mkCtx (0, 0) (1732584193, 4023233417, 2562383102, 271733878) garbage.

Definition mdi (c : MD5_CTX) : Z := Z.land (Z.shiftr (ctx_i c).1 3) 63.

(** One turn of the loop. *)
Definition Update_byte (p : Z * MD5_CTX) (b : Z) : Z * MD5_CTX :=
  let '(i, c) := p in
  let c := c <| ctx_in := <[Z.to_nat i := b]> (ctx_in c) |> in
  if i + 1 =? 64 then (0, c <| ctx_buf := Transform (ctx_buf c) (words 16 (ctx_in c)) |>) else (i + 1, c).

(** [inLen] is the length of the bytes, an [unsigned int]. *)
Definition MD5Update (c : MD5_CTX) (inBuf : list Z) : MD5_CTX :=
  let inLen := Z.of_nat (length inBuf) in
  let bits := wrap (Z.shiftl inLen 3) in
  let '(i0, i1) := ctx_i c in
  let i := mdi c in
  let i1 := if wrap (i0 + bits) <? i0 then wrap (i1 + 1) else i1 in
  let c := c <| ctx_i := (wrap (i0 + bits), wrap (i1 + Z.shiftr inLen 29)) |> in
  (foldl Update_byte (i, c) inBuf).2.

(** The four bytes of a register. *)
Definition digest_word (z : Z) : list Z :=
  [Z.land z 255; Z.land (Z.shiftr z 8) 255; Z.land (Z.shiftr z 16) 255; Z.land (Z.shiftr z 24) 255].

Definition MD5Final (c : MD5_CTX) : list Z :=
  let '(i0, i1) := ctx_i c in
  let i := mdi c in
  let padLen := if i <? 56 then 56 - i else 120 - i in
  let c := MD5Update c (take (Z.to_nat padLen) PADDING) in
  let '(a, b, c, d) := Transform (ctx_buf c) (words 14 (ctx_in c) ++ [i0; i1]) in
  digest_word a ++ digest_word b ++ digest_word c ++ digest_word d.

Definition digest (garbage msg : list Z) : list Z := MD5Final (MD5Update (MD5Init garbage) msg).

End Md5.

(** ** The text *)

Definition hex_digit (d : Z) : Z := if d <? 10 then 48 + d else 87 + d.

(** [sprintf(p, "%02x", b)] at offset [p] of the allocation. *)
Definition sprintf_02x (result : list Z) (p : nat) (b : Z) : M (list Z) :=
  result ← store result p (hex_digit (b / 16));
  result ← store result (p + 1) (hex_digit (b mod 16));
  store result (p + 2) 0.

Fixpoint print_digest (result : list Z) (p : nat) (digest : list Z) : M (list Z) :=
  match digest with
  | [] => mret result
  | b :: digest' => result ← sprintf_02x result p b; print_digest result (p + 2) digest'
  end.

(** [p] is left at the text of the last byte, 30, and the terminator is stored
    at [p[32]].  The allocation and the context on the stack hold garbage. *)
Definition MD5 `{Host} (garbage fresh : list Z) (m : memory) (buf size : Z) : M (option (list Z)) :=
  if negb (malloc_ok 33) then mret None
  else
    result ← print_digest fresh 0 (digest 64 garbage (mem_read m buf (Z.to_nat size)));
    result ← store result (30 + 32) 0;
    mret (Some result).

(** ** The reference: a fold over the blocks of the padded message *)

Section Reference.
Variable w : Z.

Fixpoint absorb (n : nat) (buf : Z * Z * Z * Z) (l : list Z) : Z * Z * Z * Z :=
  match n with
  | O => buf
  | S n' => absorb n' (Transform w buf (words 16 (take 64 l))) (drop 64 l)
  end.

(** The message with a one bit and zeros up to 56 bytes modulo 64. *)
Definition padded (msg : list Z) : list Z :=
  let i := (length msg mod 64)%nat in
  msg ++ 128 :: replicate (if (i <? 56)%nat then 55 - i else 119 - i)%nat 0.

Definition reference (msg : list Z) : list Z :=
  let l := padded msg in
  let n := (length l / 64)%nat in
  let '(a, b, c, d) := Transform w (absorb n (1732584193, 4023233417, 2562383102, 271733878) l)
    (words 14 (drop (64 * n) l) ++ [8 * Z.of_nat (length msg); 0]) in
  digest_word a ++ digest_word b ++ digest_word c ++ digest_word d.

(** The context has the bytes [p] of an unfinished block. *)
Record holds (c : MD5_CTX) (p : list Z) : Prop := {
  hd_length : length (ctx_in c) = 64%nat;
  hd_short : (length p < 64)%nat;
  hd_bytes : take (length p) (ctx_in c) = p;
}.

Lemma insert_next (l p : list Z) b :
  (length p < length l)%nat -> take (length p) l = p -> take (S (length p)) (<[length p := b]> l) = p ++ [b].
Proof.
  intros Hl Hp. rewrite (take_S_r _ _ b) by (by apply list_lookup_insert_eq). by rewrite take_insert_ge, Hp by lia.
Qed.

Lemma blocks_more (k : nat) : ((k + 64) / 64 = S (k / 64))%nat.
Proof. replace (k + 64)%nat with (k + 1 * 64)%nat by lia. rewrite Nat.div_add by lia. lia. Qed.

(** The loop of MD5Update. *)
Lemma feed l c p :
  holds c p -> exists c', foldl (Update_byte w) (Z.of_nat (length p), c) l =
    (Z.of_nat (length (p ++ l) mod 64), c') /\
  ctx_i c' = ctx_i c /\ ctx_buf c' = absorb (length (p ++ l) / 64) (ctx_buf c) (p ++ l) /\
  holds c' (drop (64 * (length (p ++ l) / 64)) (p ++ l)).
Proof.
  revert c p. induction l as [|b l IH]; intros c p [H1 H2 H3].
  { exists c. rewrite app_nil_r, Nat.mod_small, Nat.div_small by lia. simpl. rewrite drop_0. split_and!; try done. }
  cbn [foldl Update_byte]. rewrite Nat2Z.id. set (c1 := c <| ctx_in := _ |>).
  assert (Hin : length (ctx_in c1) = 64%nat) by (unfold c1; simpl; by rewrite length_insert).
  assert (Htk : take (S (length p)) (ctx_in c1) = p ++ [b]) by (apply insert_next; [lia|done]).
  assert (Happ : p ++ b :: l = (p ++ [b]) ++ l) by (by rewrite <- app_assoc).
  destruct (Z.of_nat (length p) + 1 =? 64) eqn:E; zbool.
  - assert (Hb : ctx_in c1 = p ++ [b]) by (rewrite <- Htk, take_ge; [done|lia]).
    set (c2 := c1 <| ctx_buf := _ |>). destruct (IH c2 []) as (c' & Hf & Hi & Hbuf & Hh); [split; simpl; [done|lia|done]|].
    assert (Hlen : length (p ++ b :: l) = (length l + 64)%nat) by (rewrite length_app; simpl; lia).
    change ([] ++ l) with l in *. change (Z.of_nat (length [])) with 0 in Hf. exists c'. rewrite Hlen, blocks_more.
    assert (Hdrop : drop 64 (p ++ b :: l) = l).
    { rewrite Happ, drop_app_length'; [done|]. rewrite length_app. simpl. lia. }
    split_and!; [|done| |].
    + rewrite Hf. do 2 f_equal. replace (length l + 64)%nat with (length l + 1 * 64)%nat by lia. by rewrite Nat.Div0.mod_add.
    + cbn [absorb]. rewrite Hdrop, Hbuf. f_equal. change (ctx_buf c2) with (Transform w (ctx_buf c) (words 16 (ctx_in c1))). do 2 f_equal.
      rewrite Hb, Happ, take_app_length'; [done|]. rewrite length_app. simpl. lia.
    + replace (64 * S (length l / 64))%nat with (64 + 64 * (length l / 64))%nat by lia.
      by rewrite <- drop_drop, Hdrop.
  - destruct (IH c1 (p ++ [b])) as (c' & Hf & Hi & Hbuf & Hh).
    { split; [done|rewrite length_app; simpl; lia|]. by rewrite length_app, Nat.add_comm. }
    exists c'. rewrite <- Happ in *. rewrite length_app in Hf at 1. simpl in Hf.
    replace (Z.of_nat (length p) + 1) with (Z.of_nat (length p + 1)) by lia. done.
Qed.

Context (Hw : 32 <= w).

(** The counters while the message is short. *)
Definition counted (c : MD5_CTX) (n : nat) : Prop := ctx_i c = (8 * Z.of_nat n, 0) /\ 8 * Z.of_nat n < 2 ^ 32.

Lemma wrap_small z : 0 <= z < 2 ^ 32 -> wrap w z = z.
Proof using Hw. intros Hz. apply Z.mod_small. pose proof (Z.pow_le_mono_r 2 32 w ltac:(lia) Hw). lia. Qed.

Lemma mdi_counted c n : counted c n -> mdi c = Z.of_nat (n mod 64).
Proof using.
  intros [E _]. unfold mdi. rewrite E. simpl fst. change 63 with (Z.ones 6).
  rewrite Z.land_ones, Z.shiftr_div_pow2 by lia. change (2 ^ 3) with 8. change (2 ^ 6) with 64.
  rewrite (Z.mul_comm 8), Z.div_mul by lia. by rewrite Nat2Z.inj_mod.
Qed.

(** MD5Update on a context that has [n] bytes, the last [p] of them unfinished. *)
Lemma update_ok c n p l :
  counted c n -> length p = (n mod 64)%nat -> holds c p -> 8 * Z.of_nat (n + length l) < 2 ^ 32 ->
  exists c', MD5Update w c l = c' /\ counted c' (n + length l) /\
    ctx_buf c' = absorb (length (p ++ l) / 64) (ctx_buf c) (p ++ l) /\ holds c' (drop (64 * (length (p ++ l) / 64)) (p ++ l)) /\
    MD5Update w c l = (foldl (Update_byte w) (Z.of_nat (n mod 64), c <| ctx_i := (8 * Z.of_nat (n + length l), 0) |>) l).2.
Proof using Hw.
  intros Hc Hp Hh Hb. pose proof Hc as [E Hn]. unfold MD5Update. rewrite (mdi_counted c n Hc), E.
  rewrite Z.shiftl_mul_pow2, Z.shiftr_div_pow2 by lia. change (2 ^ 3) with 8.
  rewrite (wrap_small (_ * 8)), (wrap_small (_ + _)) by lia. rewrite (Z.div_small (Z.of_nat (length l))) by lia.
  replace (_ <? 8 * Z.of_nat n) with false by (symmetry; apply Z.ltb_ge; lia). rewrite wrap_small by lia.
  replace (8 * Z.of_nat n + Z.of_nat (length l) * 8) with (8 * Z.of_nat (n + length l)) by lia.
  rewrite <- Hp. set (c1 := c <| ctx_i := _ |>). destruct (feed l c1 p) as (c' & Hf & Hi & Hbuf & Hh'); [by destruct Hh|].
  rewrite Hf. simpl. exists c'. split_and!; try done.
Qed.

End Reference.

(** ** Streaming *)

Section Streaming.
Variable w : Z.
Context (Hw : 32 <= w).

(** The counters play no part in the loop. *)
Lemma feed_count v l i c :
  foldl (Update_byte w) (i, c <| ctx_i := v |>) l =
  ((foldl (Update_byte w) (i, c) l).1, (foldl (Update_byte w) (i, c) l).2 <| ctx_i := v |>).
Proof using.
  revert i c. induction l as [|b l IH]; intros i c; [done|]. cbn [foldl Update_byte].
  destruct (i + 1 =? 64); by rewrite <- IH.
Qed.

Lemma rest_length (l : list Z) n p : length p = (n mod 64)%nat ->
  length (drop (64 * (length (p ++ l) / 64)) (p ++ l)) = ((n + length l) mod 64)%nat.
Proof using.
  intros Hp. rewrite length_drop. pose proof (Nat.div_mod (length (p ++ l)) 64 ltac:(lia)).
  rewrite <- (Nat.Div0.add_mod_idemp_l n), <- Hp, <- length_app. lia.
Qed.

(** Feeding in pieces is feeding at once. *)
Lemma update_app c n p a b :
  counted c n -> length p = (n mod 64)%nat -> holds c p -> 8 * Z.of_nat (n + length a + length b) < 2 ^ 32 ->
  MD5Update w (MD5Update w c a) b = MD5Update w c (a ++ b).
Proof using Hw.
  intros Hc Hp Hh Hb. destruct (update_ok w Hw c n p a Hc Hp Hh ltac:(lia)) as (c1 & E1 & Hc1 & _ & Hh1 & F1).
  destruct (update_ok w Hw c1 (n + length a) _ b Hc1 (rest_length a n p Hp) Hh1 ltac:(lia)) as (c2 & _ & _ & _ & _ & F2).
  destruct (update_ok w Hw c n p (a ++ b) Hc Hp Hh ltac:(rewrite length_app; lia)) as (c3 & _ & _ & _ & _ & F3).
  rewrite E1, F2, F3, foldl_app, !feed_count. rewrite E1 in F1. rewrite F1, feed_count.
  destruct (feed w a c p Hh) as (c' & Hf & _). rewrite <- Hp, Hf. cbn [fst snd].
  rewrite <- (Nat.Div0.add_mod_idemp_l n), <- Hp, <- length_app, !feed_count. cbn [fst snd].
  by rewrite (length_app a b), Nat.add_assoc.
Qed.

Lemma absorb_split k n buf l : absorb w (n + k) buf l = absorb w k (absorb w n buf l) (drop (64 * n) l).
Proof using.
  revert buf l. induction n as [|n IH]; intros buf l; [by rewrite Nat.mul_0_r, drop_0|]. cbn [absorb Nat.add].
  rewrite IH, drop_drop. do 2 f_equal. lia.
Qed.

Lemma absorb_prefix n buf l x : (64 * n <= length l)%nat -> absorb w n buf (l ++ x) = absorb w n buf l.
Proof using.
  revert buf l. induction n as [|n IH]; intros buf l Hl; [done|]. cbn [absorb].
  rewrite take_app_le, drop_app_le by lia. apply IH. rewrite length_drop. lia.
Qed.

Lemma words_take n l : words n l = words n (take (4 * n) l).
Proof using.
  revert l. induction n as [|n IH]; intros l; [done|]. cbn [words]. rewrite IH, (IH (drop 4 (take _ _))).
  rewrite skipn_firstn_comm, firstn_firstn. replace (4 * S n - 4)%nat with (4 * n)%nat by lia. rewrite Nat.min_id.
  f_equal. replace (4 * S n)%nat with (S (S (S (S (4 * n))))) by lia. by destruct l as [|? [|? [|? [|? ?]]]].
Qed.

Lemma padding_take k : (0 < k <= 64)%nat -> take k PADDING = 128 :: replicate (k - 1) 0.
Proof using.
  intros Hk. unfold PADDING. destruct k as [|k]; [lia|]. cbn [take]. rewrite take_replicate. do 2 f_equal. lia.
Qed.

(** The padding that MD5Final feeds. *)
Lemma padding_ok c msg : counted c (length msg) ->
  exists pad, take (Z.to_nat (if mdi c <? 56 then 56 - mdi c else 120 - mdi c)) PADDING = pad /\
    padded msg = msg ++ pad /\ (0 < length pad <= 64)%nat /\ ((length msg + length pad) mod 64 = 56)%nat.
Proof using.
  intros Hc. rewrite (mdi_counted c _ Hc). set (i := (length msg mod 64)%nat).
  pose proof (Nat.mod_upper_bound (length msg) 64 ltac:(lia)) as Hi. fold i in Hi. unfold padded. fold i.
  assert (Hm : forall k, ((i + k) mod 64 = 56 -> (length msg + k) mod 64 = 56)%nat).
  { intros k Hk. unfold i in Hk. rewrite Nat.Div0.add_mod_idemp_l in Hk. exact Hk. }
  destruct (Nat.ltb_spec i 56).
  - replace (Z.of_nat i <? 56) with true by (symmetry; apply Z.ltb_lt; lia). eexists. split; [reflexivity|].
    replace (Z.to_nat (56 - Z.of_nat i)) with (56 - i)%nat by lia. rewrite padding_take by lia. simpl length. rewrite length_replicate.
    split_and!; [|lia|lia|].
    + do 3 f_equal. lia.
    + apply Hm. replace (i + S (56 - i - 1))%nat with 56%nat by lia. done.
  - replace (Z.of_nat i <? 56) with false by (symmetry; apply Z.ltb_ge; lia). eexists. split; [reflexivity|].
    replace (Z.to_nat (120 - Z.of_nat i)) with (120 - i)%nat by lia. rewrite padding_take by lia. simpl length. rewrite length_replicate.
    split_and!; [|lia|lia|].
    + do 3 f_equal. lia.
    + apply Hm. replace (i + S (120 - i - 1))%nat with 120%nat by lia. done.
Qed.

(** The digest is the reference, whatever the buffer held before. *)
Lemma digest_reference garbage msg :
  length garbage = 64%nat -> 8 * Z.of_nat (length msg + 64) < 2 ^ 32 -> digest w garbage msg = reference w msg.
Proof using Hw.
  intros Hg Hb. unfold digest.
  destruct (update_ok w Hw (MD5Init garbage) 0 [] msg) as (c1 & E1 & Hc1 & Hb1 & Hh1 & _); [by split|done|by split; simpl; try lia|lia|].
  rewrite E1. cbn [Nat.add app] in *. unfold MD5Final. destruct (padding_ok c1 msg Hc1) as (pad & -> & Hpad & Hp1 & Hp2).
  pose proof (proj1 Hc1) as Hi1. rewrite Hi1.
  pose proof (rest_length msg 0 [] eq_refl) as Hrest. cbn [Nat.add app] in Hrest.
  destruct (update_ok w Hw c1 (length msg) _ pad Hc1 Hrest Hh1 ltac:(lia)) as (c2 & E2 & _ & Hb2 & Hh2 & _). rewrite E2.
  unfold reference. rewrite Hpad. set (n := (length msg / 64)%nat) in *. set (p := drop (64 * n) msg) in *.
  pose proof (Nat.div_mod (length msg) 64 ltac:(lia)) as Hdm. fold n in Hdm.
  assert (Hlen : length (msg ++ pad) = (64 * n + length (p ++ pad))%nat).
  { unfold p. rewrite !length_app, length_drop. lia. }
  assert (Hdiv : (length (msg ++ pad) / 64 = n + length (p ++ pad) / 64)%nat).
  { rewrite Hlen, Nat.mul_comm, Nat.div_add_l by lia. done. }
  assert (Hd : drop (64 * n) (msg ++ pad) = p ++ pad) by (unfold p; rewrite drop_app_le by lia; done).
  rewrite Hdiv, absorb_split, Hd, (absorb_prefix n _ msg pad) by lia. rewrite Hb1 in Hb2. cbn [ctx_buf MD5Init] in Hb2. rewrite <- Hb2.
  replace (64 * (n + length (p ++ pad) / 64))%nat with (64 * n + 64 * (length (p ++ pad) / 64))%nat by lia.
  rewrite <- drop_drop, Hd. set (rest := drop _ (p ++ pad)) in *.
  assert (Hr : length rest = 56%nat).
  { unfold rest. rewrite (rest_length pad (length msg)); [done|]. done. }
  rewrite (words_take 14 (ctx_in c2)). pose proof (hd_bytes _ _ Hh2) as Ht. rewrite Hr in Ht.
  change (4 * 14)%nat with 56%nat. by rewrite Ht.
Qed.

End Streaming.

(** ** The text *)

Lemma print_digest_ok result p l :
  (p + 2 * length l < length result)%nat ->
  exists result', print_digest result p l = mret result' /\ length result' = length result.
Proof.
  revert result p. induction l as [|b l IH]; intros result p Hl; cbn [print_digest]; [by exists result|].
  simpl length in Hl. unfold sprintf_02x. do 3 (rewrite store_ok by (rewrite ?length_insert; lia); rewrite M_bind_ret_l).
  destruct (IH (<[(p + 2)%nat := 0]> (<[(p + 1)%nat := hex_digit (b mod 16)]> (<[p := hex_digit (b / 16)]> result))) (p + 2)%nat)
    as (r & -> & Hr); [rewrite !length_insert; lia|]. exists r. split; [done|]. by rewrite Hr, !length_insert.
Qed.

Lemma digest_length w garbage msg : length (digest w garbage msg) = 16%nat.
Proof.
  unfold digest, MD5Final. destruct (ctx_i _) as [i0 i1]. by destruct (Transform _ _ _) as [[[? ?] ?] ?].
Qed.

(** The last store is outside the allocation. *)
Lemma MD5_overruns `{Host} garbage fresh m buf size :
  malloc_ok 33 = true -> length fresh = 33%nat -> result (MD5 garbage fresh m buf size) = Fault OutOfBounds.
Proof.
  intros Hm Hf. unfold MD5. rewrite Hm. cbn [negb].
  destruct (print_digest_ok fresh 0 (digest 64 garbage (mem_read m buf (Z.to_nat size)))) as (r & -> & Hr);
    [rewrite digest_length; lia|].
  rewrite M_bind_ret_l. unfold store. rewrite decide_False by lia. done.
Qed.

(** ** The rounds *)

(** The access pattern that the comment of the file gives: a shift by 5, 3 and
    7 words modulo 16 in the rounds 2, 3 and 4. *)
Definition word_index (i : nat) : nat :=
  match (i / 16)%nat with
  | 0%nat => i
  | 1%nat => (5 * i + 1) mod 16
  | 2%nat => (3 * i + 5) mod 16
  | _ => (7 * i) mod 16
  end%nat.

Definition shift_amount (i : nat) : Z :=
  nth (4 * (i / 16) + i mod 4) [7; 12; 17; 22; 5; 9; 14; 20; 4; 11; 16; 23; 6; 10; 15; 21] 0.

Lemma rounds_pattern w : map (fun l => (st_k l, st_s l)) (rounds w) = map (fun i => (word_index i, shift_amount i)) (seq 0 64).
Proof. reflexivity. Qed.

(** With 32-bit words the macro is a rotation. *)
Lemma rotate_32 x n i : 0 <= x < 2 ^ 32 -> 0 < n < 32 -> 0 <= i < 32 ->
  Z.testbit (ROTATE_LEFT 32 x n) i = Z.testbit x ((i - n) mod 32).
Proof.
  intros Hx Hn Hi. unfold ROTATE_LEFT, wrap. rewrite Z.lor_spec, Z.mod_pow2_bits_low, Z.shiftl_spec, Z.shiftr_spec by lia.
  destruct (decide (i < n)) as [Hlt|Hge].
  - rewrite (Z.testbit_neg_r x (i - n)) by lia. cbn [orb]. f_equal.
    rewrite <- (Z.mod_unique (i - n) 32 (-1) (i + (32 - n))); lia.
  - rewrite Z.mod_small, (Z.bits_above_log2 x (i + (32 - n))), orb_false_r; [done|lia| |lia].
    destruct (decide (x = 0)) as [->|]; [simpl; lia|]. apply (Z.lt_le_trans _ 32); [apply Z.log2_lt_pow2; lia|lia].
Qed.

(** The empty message: with 32-bit words the digest of the algorithm, with the
    64-bit words of the target another one. *)
Definition empty_digest : list Z :=
  [212; 29; 140; 217; 143; 0; 178; 4; 233; 128; 9; 152; 236; 248; 66; 126].

Theorem word_width_matters garbage : length garbage = 64%nat ->
  digest 32 garbage [] = empty_digest /\ digest 64 garbage [] <> empty_digest.
Proof.
  intros Hg. rewrite !digest_reference by (done || lia). split; [by vm_compute|]. by vm_compute.
Qed.

(** ** The digest of a message given in pieces *)

(** C34: the digest of a message.  Fed in two pieces of together less than
    2^29 - 64 bytes, with a context whose buffer is not initialised, MD5Init,
    MD5Update and MD5Final compute the fold of Transform over the 64-byte
    blocks of the padded message, the last of them closed with the number of
    bits: the split and the old bytes of the buffer do not matter, for words
    of 32 bits or more. *)
Theorem md5_digest_correct w garbage a b :
  32 <= w -> length garbage = 64%nat -> 8 * Z.of_nat (length (a ++ b) + 64) < 2 ^ 32 ->
  MD5Final w (MD5Update w (MD5Update w (MD5Init garbage) a) b) = reference w (a ++ b).
Proof.
  intros Hw Hg Hb. rewrite length_app in Hb.
  rewrite (update_app w Hw (MD5Init garbage) 0 []); [|by split|done|by split; simpl; try lia|lia].
  apply digest_reference; [done..|]. rewrite length_app. lia.
Qed.

(** A message of three blocks with its padding, cut inside the second. *)
Lemma md5_digest_correct_witness :
  MD5Final 64 (MD5Update 64 (MD5Update 64 (MD5Init (replicate 64 255)) (replicate 70 97)) (replicate 50 98)) =
  reference 64 (replicate 70 97 ++ replicate 50 98).
Proof. apply md5_digest_correct; [lia|reflexivity|simpl length; lia]. Defined.
