(* ===== verification/ManifestText.v ===== *)
(** * The text of a manifest: manifest_parser.c

    A manifest is lines of "key = value".  The parser works in place on one
    buffer: a token is the characters up to a NUL that strtok, cut_spaces or
    get_key has written.  Here a C string is the list of its characters
    without the NUL, and a function that writes into its argument returns the
    new contents.  The C library functions it uses (isspace, strtok, atoll,
    sprintf of %d and %s) are modelled in the "C" locale. *)

From Stdlib Require Import Ascii String.
From S2P Require Import Prelude Effects.

Abbreviation text := (list ascii).

Definition NUL : ascii := ascii_of_nat 0.
Definition LF : ascii := ascii_of_nat 10.
Definition CR : ascii := ascii_of_nat 13.
Definition EQUALS : ascii := ascii_of_nat 61.
Definition SPACE : ascii := ascii_of_nat 32.
Definition MINUS : ascii := ascii_of_nat 45.
Definition PLUS : ascii := ascii_of_nat 43.

(** ** ctype.h, string.h and stdlib.h *)

Definition isspace (c : ascii) : bool :=
  let n := nat_of_ascii c in ((n =? 32) || ((9 <=? n) && (n <=? 13)))%nat.

Definition is_eol (c : ascii) : bool := bool_decide (c = CR) || bool_decide (c = LF).

Definition has (c : ascii) (s : text) : bool := existsb (fun x => bool_decide (x = c)) s.

(** The part before the first [c] and the part after it. *)
Fixpoint split_first (c : ascii) (s : text) : option (text * text) :=
  match s with
  | [] => None
  | x :: s' =>
      if bool_decide (x = c) then Some ([], s')
      else match split_first c s' with
           | Some (a, b) => Some (x :: a, b)
           | None => None
           end
  end.

(** The same at the last [c]: strrchr. *)
Fixpoint split_last (c : ascii) (s : text) : option (text * text) :=
  match s with
  | [] => None
  | x :: s' =>
      match split_last c s' with
      | Some (a, b) => Some (x :: a, b)
      | None => if bool_decide (x = c) then Some ([], s') else None
      end
  end.

(** All tokens a loop of strtok(..., EOL) returns; [cur] is the token being
    read, in reverse. *)
Fixpoint tokens (delim : ascii -> bool) (cur s : text) : list text :=
  match s with
  | [] => if bool_decide (cur = []) then [] else [rev cur]
  | x :: s' =>
      if delim x then
        if bool_decide (cur = []) then tokens delim [] s' else rev cur :: tokens delim [] s'
      else tokens delim (x :: cur) s'
  end.

(** The C string at the start of a buffer. *)
Fixpoint c_string (s : text) : text :=
  match s with
  | [] => []
  | x :: s' => if bool_decide (x = NUL) then [] else x :: c_string s'
  end.

Definition digit (c : ascii) : option Z :=
  let n := Z.of_nat (nat_of_ascii c) in if (48 <=? n) && (n <=? 57) then Some (n - 48) else None.

(** strtoll base 10: the digits; it stops at the first other character. *)
Fixpoint atoll_digits (s : text) (acc : Z) : Z :=
  match s with
  | [] => acc
  | c :: s' => match digit c with Some d => atoll_digits s' (10 * acc + d) | None => acc end
  end.

(** Values outside [long long] saturate. *)
Definition saturate (z : Z) : Z := Z.max (- two63) (Z.min (two63 - 1) z).

Fixpoint skip_spaces (s : text) : text :=
  match s with
  | [] => []
  | c :: s' => if isspace c then skip_spaces s' else s
  end.

Definition atoll (s : text) : Z :=
  match skip_spaces s with
  | [] => 0
  | c :: s' =>
      if bool_decide (c = MINUS) then saturate (- atoll_digits s' 0)
      else if bool_decide (c = PLUS) then saturate (atoll_digits s' 0)
      else saturate (atoll_digits (c :: s') 0)
  end.

Definition digit_char (d : Z) : ascii := ascii_of_nat (Z.to_nat (48 + d)).

(** The decimal digits of [n], most significant first; [fuel] digits at most. *)
Fixpoint decimal (fuel : nat) (n : Z) (acc : text) : text :=
  match fuel with
  | O => acc
  | S fuel' =>
      let acc := digit_char (n mod 10) :: acc in
      if n / 10 =? 0 then acc else decimal fuel' (n / 10) acc
  end.

(** sprintf("%d"); an int has at most 10 digits. *)
Definition print_d (z : Z) : text :=
  if z <? 0 then MINUS :: decimal 10 (- z) [] else decimal 10 z [].

(** ** manifest_parser.c *)

Definition strip_end (s : text) : text := rev (skip_spaces (rev s)).

(** The result, NULL when nothing is left, and the buffer afterwards. *)
Definition cut_spaces (a : text) : option text * text :=
  let b := skip_spaces a in
  if bool_decide (b = []) then (None, a)
  else (Some (strip_end b), take (length a - length b) a ++ strip_end b).

Definition get_key (a : text) : option text :=
  match split_last EQUALS a with
  | None => None
  | Some (before, _) => if bool_decide (before = []) then None else (cut_spaces before).1
  end.

(** The value and the line afterwards. *)
Definition get_value (a : text) : option text * text :=
  match split_first EQUALS a with
  | None => (None, a)
  | Some (before, after) =>
      if has EQUALS after then (None, a)
      else if bool_decide (after = []) then (None, a)
      else let '(v, after) := cut_spaces after in (v, before ++ EQUALS :: after)
  end.

Definition sizeof_MasterManifestRecord : Z := 16.

(** The loop over the tokens: each writes the record [count] of an array of
    [room] bytes, and [count] grows only when both parts are present. *)
Fixpoint parse_loop (room : Z) (ts : list text) (records : list (text * text)) : M (list (text * text)) :=
  match ts with
  | [] => mret records
  | p :: ts' =>
      let count := Z.of_nat (length records) in
      if room <? (count + 1) * sizeof_MasterManifestRecord then fail OutOfBounds
      else
        let '(value, p) := get_value p in
        let key := get_key p in
        match key, value with
        | Some k, Some v => parse_loop room ts' (records ++ [(k, v)])
        | _, _ => parse_loop room ts' records
        end
  end.

(** The manifest file: what GetFileSize says of it ([uint64_t], 2^64 - 1 when
    it fails), and the bytes the stream of fopen delivers up to its end or the
    first read error, [None] when fopen returns NULL. *)
Record ManifestFile := mkFile { mf_size : Z; mf_stream : option text }.

(** A file that is read without an error. *)
Definition readable (contents : text) : ManifestFile := mkFile (Z.of_nat (length contents)) (Some contents).

Section Parse.
Context `{Host}.

Definition sizeof_Manifest : Z := 40.

(** The records as strings. *)
Definition to_string (r : text * text) : string * string := (string_of_list_ascii r.1, string_of_list_ascii r.2).

(** The records, or [None] for the return 0.  [size] is an [int], and so is
    [4 * size]; both become [size_t] for malloc.  The stream is not compared
    with NULL before fread follows it.  [behind] is what the heap holds behind
    the text buffer, which has no room for a final NUL. *)
Definition parse_manifest (file : ManifestFile) (behind : text) : M (option (list (string * string))) :=
  let size := i32 (mf_size file) in
  let room := u64 (i32 (4 * size)) in
  if size =? -1 then mret None
  else if negb (malloc_ok sizeof_Manifest) then mret None
  else if negb (malloc_ok (u64 size)) then mret None
  else if negb (malloc_ok room) then mret None
  else
    match mf_stream file with
    | None => fail NullDeref
    | Some stream =>
        let str := take (Z.to_nat (u64 size)) stream in
        if negb (size =? i32 (Z.of_nat (length str))) then mret None
        else
          records ← parse_loop room (tokens is_eol [] (c_string (str ++ behind))) [];
          match records with
          | [] => mret None
          | _ => if malloc_ok (sizeof_MasterManifestRecord * Z.of_nat (length records)) then mret (Some (to_string <$> records))
                 else mret None
          end
    end.

(** The four requests to the allocator for a text of [size] bytes with
    [count] records: object, text, array, and the array cut to its length. *)
Definition parse_requests (size count : Z) : list Z :=
  [sizeof_Manifest; size; 4 * size; sizeof_MasterManifestRecord * count].
End Parse.

(** ** Reading a well-formed manifest *)

(** What a key or a value can be: not empty, no '=', no line end, no NUL, no
    space at either end. *)
Definition plain (c : ascii) : Prop := c <> EQUALS /\ is_eol c = false /\ c <> NUL.

Record clean (s : text) : Prop := {
  cl_plain : Forall plain s;
  cl_first : exists c s', s = c :: s' /\ isspace c = false;
  cl_last : exists s' c, s = s' ++ [c] /\ isspace c = false;
}.

Definition blank (s : text) : Prop := Forall (fun c => isspace c = true /\ plain c) s.

Lemma skip_blank l s : blank l -> skip_spaces (l ++ s) = skip_spaces s.
Proof. induction 1 as [|c l [Hc _] _ IH]; simpl; [done|]. by rewrite Hc. Qed.

Lemma skip_clean s r : clean s -> skip_spaces (s ++ r) = s ++ r.
Proof. intros [_ (c & s' & -> & Hc) _]. simpl. by rewrite Hc. Qed.

Lemma blank_rev l : blank l -> blank (rev l).
Proof. apply Forall_rev. Qed.

Lemma trim_end_clean s l : clean s -> blank l -> strip_end (s ++ l) = s.
Proof.
  intros [_ _ (s' & c & -> & Hc)] Hl. unfold strip_end. rewrite rev_app_distr, skip_blank by (by apply blank_rev).
  rewrite rev_app_distr. simpl. rewrite Hc. simpl. by rewrite rev_involutive.
Qed.

Lemma cut_spaces_clean l0 s l1 : clean s -> blank l0 -> blank l1 -> cut_spaces (l0 ++ s ++ l1) = (Some s, l0 ++ s).
Proof.
  intros Hs H0 H1. unfold cut_spaces. rewrite skip_blank, skip_clean by done.
  rewrite bool_decide_false by (destruct Hs as [_ (? & ? & -> & _) _]; done).
  rewrite trim_end_clean by done. rewrite !length_app.
  replace (length l0 + (length s + length l1) - (length s + length l1))%nat with (length l0) by lia.
  by rewrite take_app_length.
Qed.

Lemma has_false c s : Forall (fun x => x <> c) s -> has c s = false.
Proof. induction 1 as [|x s Hx _ IH]; simpl; [done|]. by rewrite bool_decide_false. Qed.

Lemma split_first_at c a b : Forall (fun x => x <> c) a -> split_first c (a ++ c :: b) = Some (a, b).
Proof.
  induction 1 as [|x a Hx _ IH]; simpl; [by rewrite bool_decide_true|]. by rewrite bool_decide_false, IH.
Qed.

Lemma split_last_none c s : Forall (fun x => x <> c) s -> split_last c s = None.
Proof. induction 1 as [|x s Hx _ IH]; simpl; [done|]. by rewrite IH, bool_decide_false. Qed.

Lemma split_last_at c a b : Forall (fun x => x <> c) b -> split_last c (a ++ c :: b) = Some (a, b).
Proof.
  intros Hb. induction a as [|x a IH]; simpl.
  - by rewrite split_last_none, bool_decide_true.
  - by rewrite IH.
Qed.

Lemma clean_no_eq s : clean s -> Forall (fun x => x <> EQUALS) s.
Proof. intros [Hp _ _]. eapply Forall_impl; [exact Hp|]. by intros c [? _]. Qed.
Lemma blank_no_eq s : blank s -> Forall (fun x => x <> EQUALS) s.
Proof. intros Hp. eapply Forall_impl; [exact Hp|]. by intros c [_ [? _]]. Qed.

(** One line with its white space. *)
Record mline := mkLine { ml_pre : text; ml_key : text; ml_mid : text; ml_gap : text; ml_value : text; ml_post : text }.

Definition line_text (l : mline) : text :=
  ml_pre l ++ ml_key l ++ ml_mid l ++ EQUALS :: ml_gap l ++ ml_value l ++ ml_post l.

Record line_ok (l : mline) : Prop := {
  lk_key : clean (ml_key l);
  lk_value : clean (ml_value l);
  lk_blank : blank (ml_pre l) /\ blank (ml_mid l) /\ blank (ml_gap l) /\ blank (ml_post l);
}.

Lemma get_value_line l : line_ok l ->
  get_value (line_text l) =
    (Some (ml_value l), ml_pre l ++ ml_key l ++ ml_mid l ++ EQUALS :: ml_gap l ++ ml_value l).
Proof.
  intros [Hk Hv (B1 & B2 & B3 & B4)]. unfold get_value, line_text. rewrite !(app_assoc (ml_pre l)), !(app_assoc _ (ml_mid l)).
  rewrite split_first_at by (rewrite !Forall_app; auto using clean_no_eq, blank_no_eq).
  rewrite has_false by (rewrite !Forall_app; auto using clean_no_eq, blank_no_eq).
  rewrite bool_decide_false. 2: { destruct Hv as [_ (? & ? & -> & _) _]. by destruct (ml_gap l). }
  by rewrite cut_spaces_clean.
Qed.

Lemma get_key_line l : line_ok l ->
  get_key (ml_pre l ++ ml_key l ++ ml_mid l ++ EQUALS :: ml_gap l ++ ml_value l) = Some (ml_key l).
Proof.
  intros [Hk Hv (B1 & B2 & B3 & B4)]. unfold get_key. rewrite !(app_assoc (ml_pre l)), !(app_assoc _ (ml_mid l)).
  rewrite split_last_at by (rewrite !Forall_app; auto using clean_no_eq, blank_no_eq).
  rewrite bool_decide_false. 2: { destruct Hk as [_ (? & ? & -> & _) _]. by destruct (ml_pre l). }
  by rewrite <- app_assoc, cut_spaces_clean.
Qed.

(** A character that ends neither a line nor the text. *)
Definition inline (c : ascii) : Prop := is_eol c = false /\ c <> NUL.

Lemma plain_inline s : Forall plain s -> Forall inline s.
Proof. intros Hp. eapply Forall_impl; [exact Hp|]. by intros c (_ & ? & ?). Qed.
Lemma blank_inline s : blank s -> Forall inline s.
Proof. intros Hp. eapply Forall_impl; [exact Hp|]. by intros c [_ (_ & ? & ?)]. Qed.

Lemma line_inline l : line_ok l -> Forall inline (line_text l).
Proof.
  intros [[Hk _ _] [Hv _ _] (B1 & B2 & B3 & B4)]. unfold line_text. rewrite !Forall_app, Forall_cons, !Forall_app.
  split_and!; auto using plain_inline, blank_inline. by split.
Qed.

(** The text: every line ended by LF. *)
Definition manifest_text (ls : list mline) : text := concat (map (fun l => line_text l ++ [LF]) ls).

Lemma c_string_inline s r : Forall (fun c => c <> NUL) s -> c_string (s ++ r) = s ++ c_string r.
Proof. induction 1 as [|x s Hx _ IH]; simpl; [done|]. by rewrite bool_decide_false, IH. Qed.

Lemma tokens_line s : forall cur r, Forall inline s -> s <> [] \/ cur <> [] ->
  tokens is_eol cur (s ++ LF :: r) = (rev cur ++ s) :: tokens is_eol [] r.
Proof.
  induction s as [|x s IH]; intros cur r Hs Hne; simpl.
  - destruct Hne as [|Hne]; [done|]. rewrite bool_decide_false by done. by rewrite app_nil_r.
  - inversion Hs as [|?? [Hx _] Hs']; subst. rewrite Hx, IH by (done || by right). simpl. by rewrite <- app_assoc.
Qed.

Lemma line_text_nonempty l : line_text l <> [].
Proof. unfold line_text. by destruct (ml_pre l), (ml_key l), (ml_mid l). Qed.

Lemma manifest_chars ls : Forall line_ok ls -> Forall (fun c => c <> NUL) (manifest_text ls).
Proof.
  induction 1 as [|l ls Hl _ IH]; [constructor|]. unfold manifest_text. simpl. rewrite !Forall_app.
  split; [|done]. split; [|by repeat constructor]. eapply Forall_impl; [by apply line_inline|]. by intros c [_ ?].
Qed.

Lemma tokens_text ls : Forall line_ok ls -> tokens is_eol [] (c_string (manifest_text ls)) = line_text <$> ls.
Proof.
  intros Hls. assert (Hc : c_string (manifest_text ls) = manifest_text ls).
  { rewrite <- (app_nil_r (manifest_text ls)) at 1.
    rewrite c_string_inline by (by apply manifest_chars). simpl. by rewrite app_nil_r. }
  rewrite Hc. clear Hc. induction Hls as [|l ls Hl _ IH]; [done|]. unfold manifest_text in *. simpl.
  rewrite <- app_assoc. simpl. rewrite tokens_line; [|by apply line_inline|left; apply line_text_nonempty].
  simpl. by rewrite IH.
Qed.

(** A line takes at least "k=v" and its LF: the array has room for its record. *)
Lemma line_length l : line_ok l -> (3 <= length (line_text l))%nat.
Proof.
  unfold line_text. intros [[_ (? & ? & -> & _) _] [_ (? & ? & -> & _) _] _].
  repeat (rewrite length_app || simpl). lia.
Qed.

Lemma manifest_length ls : Forall line_ok ls -> (4 * length ls <= length (manifest_text ls))%nat.
Proof.
  induction 1 as [|l ls Hl _ IH]; [done|]. unfold manifest_text in *. simpl. rewrite !length_app.
  apply line_length in Hl. simpl. lia.
Qed.

Definition line_record (l : mline) : text * text := (ml_key l, ml_value l).

Lemma parse_loop_lines room ls : forall done_,
  Forall line_ok ls -> 16 * Z.of_nat (length done_ + length ls) <= room ->
  parse_loop room (line_text <$> ls) done_ = mret (done_ ++ (line_record <$> ls)).
Proof.
  induction ls as [|l ls IH]; intros d Hls Hsz; cbn [fmap list_fmap parse_loop]; [by rewrite app_nil_r|].
  inversion Hls as [|?? Hl Hls']; subst. cbn [length] in Hsz.
  replace (room <? _) with false by (symmetry; apply Z.ltb_ge; unfold sizeof_MasterManifestRecord; lia).
  rewrite get_value_line, get_key_line by done. rewrite IH; [by rewrite <- app_assoc|done|].
  rewrite length_app. simpl. lia.
Qed.

(** A token that has begun is returned. *)
Lemma tokens_started delim s : forall cur, cur <> [] -> exists t ts, tokens delim cur s = t :: ts.
Proof.
  induction s as [|x s IH]; intros cur Hc; simpl.
  - rewrite bool_decide_false by done. eauto.
  - destruct (delim x); [rewrite bool_decide_false by done; eauto|]. by apply IH.
Qed.

(** A text that does not begin with a line end has a token. *)
Lemma tokens_inline c s : inline c -> exists t ts, tokens is_eol [] (c_string (c :: s)) = t :: ts.
Proof.
  intros [He Hn]. simpl. rewrite bool_decide_false by done. simpl. rewrite He. by apply tokens_started.
Qed.

Section Results.
Context `{Host}.

(** What is parsed of a file of less than 2^29 bytes that can be read. *)
Lemma parse_readable contents behind (size := Z.of_nat (length contents)) :
  4 * size < two31 ->
  parse_manifest (readable contents) behind =
    if forallb malloc_ok [sizeof_Manifest; size; 4 * size] then
      records ← parse_loop (4 * size) (tokens is_eol [] (c_string (contents ++ behind))) [];
      match records with
      | [] => mret None
      | _ => if malloc_ok (sizeof_MasterManifestRecord * Z.of_nat (length records)) then mret (Some (to_string <$> records))
             else mret None
      end
    else mret None.
Proof.
  intros Hs. assert (0 <= size) by (unfold size; lia). unfold two31 in *.
  unfold parse_manifest, readable. cbn [mf_size mf_stream]. fold size.
  assert (Hi : i32 size = size) by (apply i32_small; unfold two31; lia).
  assert (H4 : i32 (4 * size) = 4 * size) by (apply i32_small; unfold two31; lia).
  rewrite Hi, H4, !u64_small by (unfold two64; lia). replace (size =? -1) with false by lia.
  rewrite take_ge by (unfold size; lia). fold size. rewrite Hi, Z.eqb_refl. cbn [forallb negb].
  by destruct (malloc_ok sizeof_Manifest), (malloc_ok size), (malloc_ok (4 * size)).
Qed.

(** A well-formed manifest is read back: the records in order, without the
    white space around keys and values; 0 records when a request fails. *)
Lemma parse_manifest_lines ls rest (size := Z.of_nat (length (manifest_text ls))) :
  Forall line_ok ls -> ls <> [] -> 4 * size < two31 ->
  parse_manifest (readable (manifest_text ls)) (NUL :: rest) =
    mret (if forallb malloc_ok (parse_requests size (Z.of_nat (length ls)))
          then Some ((fun l => to_string (line_record l)) <$> ls) else None).
Proof.
  intros Hls Hne Hs. rewrite parse_readable by done. fold size. unfold parse_requests.
  assert (Hc : c_string (manifest_text ls ++ NUL :: rest) = c_string (manifest_text ls)).
  { rewrite <- (app_nil_r (manifest_text ls)) at 2. rewrite !c_string_inline by (by apply manifest_chars). done. }
  rewrite Hc, tokens_text by done.
  rewrite (parse_loop_lines _ ls []) by (done || (apply manifest_length in Hls; unfold size; simpl; lia)).
  rewrite M_bind_ret_l. destruct ls as [|l ls]; [done|]. cbn [forallb fmap list_fmap app length].
  rewrite length_fmap.
  destruct (malloc_ok sizeof_Manifest), (malloc_ok size), (malloc_ok (4 * size)); cbn [andb]; try done.
  rewrite andb_true_r, <- list_fmap_compose. by destruct (malloc_ok _).
Qed.

(** A file whose text begins with a token writes a record of 16 bytes. *)
Lemma parse_small_room file stream c s behind :
  mf_stream file = Some stream -> stream = c :: s -> inline c ->
  i32 (mf_size file) <> -1 -> Z.of_nat (length stream) <= u64 (i32 (mf_size file)) ->
  i32 (Z.of_nat (length stream)) = i32 (mf_size file) ->
  u64 (i32 (4 * i32 (mf_size file))) < sizeof_MasterManifestRecord ->
  malloc_ok sizeof_Manifest = true -> malloc_ok (u64 (i32 (mf_size file))) = true ->
  malloc_ok (u64 (i32 (4 * i32 (mf_size file)))) = true ->
  parse_manifest file behind = fail OutOfBounds.
Proof.
  intros Hst -> Hc H1 Hlen Hl Hroom M1 M2 M3. unfold parse_manifest. rewrite Hst, M1, M2, M3. cbn [negb].
  replace (_ =? -1) with false by lia. rewrite take_ge, Hl, Z.eqb_refl by lia. cbn [negb app].
  destruct (tokens_inline c (s ++ behind) Hc) as (t & ts & ->). cbn [parse_loop length].
  change ((Z.of_nat 0 + 1) * sizeof_MasterManifestRecord) with sizeof_MasterManifestRecord.
  replace (_ <? _) with true by lia. done.
Qed.
End Results.
