(* ===== verification/ManifestSetup.v ===== *)
(** * From the manifest to the policy: manifest_setup.c, mount_channel.c,
      preload.c, premap.c

    The limits of the user program, the settings of ZeroVM, the channels and
    the report are filled from the records of the manifest.  An object the code
    gets from malloc starts with unknown contents: it is an argument [raw].
    Files are opened by name; the class [Files] gives the results of open and
    ftruncate. *)

From Stdlib Require Import Ascii String.
From S2P Require Import Prelude Effects Rounding MemObj Vmmap DynArray Policy App HostDesc Memory.
From S2P Require Import ManifestText.

Definition O_RDONLY : Z := 0.
Definition O_RDWR_CREAT : Z := 2 + 64.

Class Files := {
  file_open : string -> Z -> Z;        (* name, flags: a handle, or a negative number *)
  file_truncate : Z -> Z -> Z;         (* handle, length: 0, or a negative number *)
}.

Abbreviation chars := list_ascii_of_string.

(** The first record with the key. *)
Fixpoint lookup_record (records : list (string * string)) (key : string) : option string :=
  match records with
  | [] => None
  | (k, v) :: rest => if bool_decide (key = k) then Some v else lookup_record rest key
  end.

Definition get_value_by_key (m : Manifest) (key : string) : option string := lookup_record (master m) key.

(** The TRANSET macro: the number of a key, 0 when it is absent. *)
Definition TRANSET (m : Manifest) (key : string) : Z :=
  match get_value_by_key m key with
  | None => 0
  | Some v => atoll (chars v)
  end.

(** ** Policies *)

(** STRNCPY_NULL: at most [n] characters of a value that is present. *)
Definition STRNCPY_NULL (old : string) (v : option string) (n : nat) : string :=
  match v with
  | None => old
  | Some s => string_of_list_ascii (take n (chars s))
  end.

Section Setup.
Context `{HH : Host} `{HF : Files}.

Definition SetupUserPolicy (raw : SetupList) (m : Manifest) : M Manifest :=
  _ ← cond_abort (negb (malloc_ok sizeof_SetupList)) "cannot allocate memory for user policy";
  let policy := mkSetup sizeof_SetupList 0 (u32 (TRANSET m "MemMax")) (i32 (TRANSET m "CPUMax"))
    (i32 (TRANSET m "SyscallsMax")) (i32 (TRANSET m "SetupCallsMax")) 0 0 0 0 0
    (STRNCPY_NULL (content_type raw) (get_value_by_key m "ContentType") CONTENT_TYPE_LEN)
    (STRNCPY_NULL (timestamp raw) (get_value_by_key m "TimeStamp") TIMESTAMP_LEN)
    (STRNCPY_NULL (x_object_meta_tag raw) (get_value_by_key m "XObjectMetaTag") X_OBJECT_META_TAG_LEN)
    (STRNCPY_NULL (user_etag raw) (get_value_by_key m "UserETag") USER_TAG_LEN)
    0 (channels raw) in
  mret (m <| user_setup := policy |>).

Definition sizeof_SystemList : Z := 96.

(** The test of [policy->nexe] reads the new object before it is written. *)
Definition SetupSystemPolicy (raw : SystemList) (m : Manifest) : M Manifest :=
  _ ← cond_abort (negb (malloc_ok sizeof_SystemList)) "cannot allocate memory for system policy";
  _ ← cond_abort (bool_decide (is_Some (sys_nexe raw))) "nexe file name is already specified in the command line";
  let policy := mkSystem (get_value_by_key m "Version") (get_value_by_key m "ZeroVM") (get_value_by_key m "Log")
    (get_value_by_key m "Report") (get_value_by_key m "Nexe") (get_value_by_key m "Blob")
    (i32 (TRANSET m "NexeMax")) (get_value_by_key m "NexeEtag") (i32 (TRANSET m "Timeout"))
    (i32 (TRANSET m "KillTimeout")) in
  mret (m <| system_setup := Some policy |>).

(** ** Channels *)

Definition GetChannelPrefixById (ch : nat) : M string :=
  match CHANNEL_PREFIXES !! ch with
  | Some s => mret s
  | None => fail (CondAbort "unknown channel id")
  end.

(** The SET_LIMIT macro with the name of the channel in front of the key. *)
Definition SET_LIMIT (m : Manifest) (prefix limit : string) : Z := TRANSET m (prefix +:+ limit).

(** The channel and the return code: 1 when the manifest does not name it. *)
Definition ConstructChannel (m : Manifest) (ch : nat) : M (Manifest * Z) :=
  channel ← load (channels (user_setup m)) ch;
  prefix ← GetChannelPrefixById ch;
  let channel := channel <| ch_self_size := sizeof_PreOpenedFileDesc |>
                         <| ch_name := get_value_by_key m prefix |> in
  let put c := m <| user_setup := (user_setup m) <| channels := <[ch := c]> (channels (user_setup m)) |> |> in
  match ch_name channel with
  | None => mret (put channel, 1)
  | Some _ =>
      let limit := SET_LIMIT m prefix in
      mret (put (channel <| ch_mounted := i32 (limit "Mode") |> <| ch_type := Z.of_nat ch |>
                         <| max_size := i64 (limit "Max") |> <| max_get_size := i64 (limit "MaxGet") |>
                         <| max_gets := i32 (limit "MaxGetCnt") |> <| max_put_size := i64 (limit "MaxPut") |>
                         <| max_puts := i32 (limit "MaxPutCnt") |>
                         <| cnt_get_size := 0 |> <| cnt_gets := 0 |> <| cnt_put_size := 0 |> <| cnt_puts := 0 |>), 0)
  end.

(** mount_channel.c: the size as [int64_t], -1 on failure. *)
Definition GetFileSize (name : string) : Z :=
  let handle := file_open name O_RDONLY in
  if handle <? 0 then -1
  else let '(i, size) := host_fstat handle in if i <? 0 then -1 else size.

(** The type is compared with the [size_t] length of the table, so as an
    unsigned number: a negative type is beyond it too. *)
Definition flag_of (flags : list Z) (channel : PreOpenedFileDesc) : M Z :=
  _ ← cond_abort (Z.of_nat (length flags) <=? u64 (ch_type channel)) "unknown channel type";
  load flags (Z.to_nat (ch_type channel)).

Definition CHANNEL_OPEN_FLAGS : list Z := [O_RDONLY; O_RDWR_CREAT; O_RDWR_CREAT; -1; -1].
Definition CHANNEL_MAP_FLAGS : list Z :=
  [NACL_ABI_MAP_PRIVATE; NACL_ABI_MAP_SHARED; NACL_ABI_MAP_SHARED; -1; -1].
Definition CHANNEL_MAP_PROT : list Z :=
  [NACL_ABI_PROT_READ; NACL_ABI_PROT_WRITE; Z.lor NACL_ABI_PROT_READ NACL_ABI_PROT_WRITE; -1; -1].

Definition GetChannelOpenFlags (channel : PreOpenedFileDesc) : M Z := flag_of CHANNEL_OPEN_FLAGS channel.
Definition GetChannelMapFlags (channel : PreOpenedFileDesc) : M Z := flag_of CHANNEL_MAP_FLAGS channel.
Definition GetChannelMapProt (channel : PreOpenedFileDesc) : M Z := flag_of CHANNEL_MAP_PROT channel.

Definition is_output (channel : PreOpenedFileDesc) : bool :=
  (ch_type channel =? ChannelType_num OutputChannel) || (ch_type channel =? ChannelType_num LogChannel).

(** preload.c *)
Definition Preload_PreallocateChannel (channel : PreOpenedFileDesc) : M PreOpenedFileDesc :=
  if (ch_fsize channel <? 1) && is_output channel then
    _ ← cond_abort (file_truncate (ch_handle channel) 0 <? 0) "cannot extend the channel";
    mret (channel <| ch_fsize := max_size channel |>)
  else mret channel.

Definition PreloadChannel (channel : PreOpenedFileDesc) : M (PreOpenedFileDesc * Z) :=
  match ch_name channel with
  | None => mret (channel, -1)
  | Some name =>
      _ ← cond_abort (negb (ch_mounted channel =? LOADED)) "channel is not supposed to be loaded";
      flags ← GetChannelOpenFlags channel;
      let channel := channel <| ch_handle := file_open name flags |> in
      _ ← cond_abort (ch_handle channel <? 0) "channel open error";
      let channel := channel <| ch_fsize := GetFileSize name |> in
      channel ← Preload_PreallocateChannel channel;
      _ ← cond_abort (max_size channel <? ch_fsize channel) "channel legnth exceeded policy limit";
      mret (channel <| ch_bsize := -1 |>, 0)
  end.

(** premap.c *)
Definition Premap_PreallocateChannel (channel : PreOpenedFileDesc) : M PreOpenedFileDesc :=
  if negb (ch_fsize channel =? max_size channel) && is_output channel then
    _ ← cond_abort (file_truncate (ch_handle channel) (max_size channel) <? 0) "cannot set the channel size";
    mret (channel <| ch_fsize := max_size channel |>)
  else mret channel.

Definition sizeof_NaClHostDesc : Z := 4.

(** The descriptor made from a handle is known by that handle. *)
Definition PremapChannel (nap : NaClApp) (channel : PreOpenedFileDesc) : M (NaClApp * PreOpenedFileDesc * Z) :=
  _ ← cond_abort (negb (malloc_ok sizeof_NaClHostDesc)) "cannot allocate memory to hold channel descriptor";
  _ ← cond_abort (negb (ch_mounted channel =? MAPPED)) "channel is not supposed to be mapped";
  match ch_name channel with
  | None => fail (CondAbort "cannot resolve channel name")
  | Some name =>
      flags ← GetChannelOpenFlags channel;
      let channel := channel <| ch_handle := file_open name flags |> in
      _ ← cond_abort (ch_handle channel <? 0) "channel open error";
      let channel := channel <| ch_fsize := GetFileSize name |> in
      channel ← Premap_PreallocateChannel channel;
      _ ← cond_abort (max_size channel <? ch_fsize channel) "channel legnth exceeded policy limit";
      '(nap, desc) ← NaClSetAvail nap (Some (ch_handle channel));
      prot ← GetChannelMapProt channel;
      map_flags ← GetChannelMapFlags channel;
      '(nap, buffer) ← NaClCommonSysMmapIntern nap 0 (u64 (ch_fsize channel)) prot map_flags desc 0;
      _ ← cond_abort (4278190080 <? u32 buffer) "channel map error";
      mret (nap, channel <| ch_buffer := buffer |> <| ch_bsize := i32 (ch_fsize channel) |> <| ch_handle := -1 |>, 0)
  end.

(** prefetch.c *)
Definition PrefetchChannel : Z := -1.

Definition MountChannel (nap : NaClApp) (ch : nat) : M (NaClApp * Z) :=
  match manifest nap with
  | None => fail NullDeref
  | Some m =>
      channel ← load (channels (user_setup m)) ch;
      '(nap, channel) ←
        (if ch_mounted channel =? MAPPED then
           '(nap, channel, code) ← PremapChannel nap channel;
           _ ← cond_abort (negb (code =? 0)) "cannot premap channel";
           mret (nap, channel)
         else if ch_mounted channel =? LOADED then
           '(channel, code) ← PreloadChannel channel;
           _ ← cond_abort (negb (code =? 0)) "cannot preload channel";
           mret (nap, channel)
         else if ch_mounted channel =? NETWORK then
           _ ← cond_abort (negb (PrefetchChannel =? 0)) "cannot allocate network channel";
           mret (nap, channel)
         else fail (CondAbort "mounting method not supported"));
      let set m := m <| user_setup := (user_setup m) <| channels := <[ch := channel]> (channels (user_setup m)) |> |> in
      mret (nap <| manifest := set <$> manifest nap |>, 0)
  end.

(** ** Memory and report *)

(** [user_space->removed = 1]: entries are told apart by their first page. *)
Definition mark_removed (page : Z) (arr : list (option NaClVmmapEntry)) : list (option NaClVmmapEntry) :=
  map (option_map (fun e => if page_num e =? page then e <| removed := true |> else e)) arr.

Definition PreallocateUserMemory (nap : NaClApp) : M NaClApp :=
  match manifest nap with
  | None => fail NullDeref
  | Some m =>
      let stump := u32 (max_mem (user_setup m) - stack_size nap - data_end nap) in
      if max_mem (user_setup m) =? 0 then mret nap
      else
        let i := Z.land (u64 (data_end nap + NACL_MAP_PAGESIZE - 1)) (not64 (NACL_MAP_PAGESIZE - 1)) in
        '(nap, r) ← NaClCommonSysMmapIntern nap i stump 3 34 (-1) 0;
        let heap := u32 r in
        let set m := m <| user_setup := (user_setup m) <| heap_ptr := heap |> |> in
        let nap := nap <| manifest := set <$> manifest nap |> in
        _ ← check (heap =? i) "policy->heap_ptr == i";
        user_space ← deref (vmentry (mem_map nap)) (nvalid (mem_map nap) - 1);
        _ ← check (heap / NACL_PAGESIZE =? page_num user_space) "heap_ptr / NACL_PAGESIZE == user_space->page_num";
        _ ← check (negb (is_sorted (mem_map nap))) "nap->mem_map.is_sorted != 1";
        '(mm, pages) ← NaClVmmapFindMaxFreeSpace (mem_map nap) 1;
        let nap := nap <| mem_map := mm |> in
        let dead_space := u32 (pages * NACL_PAGESIZE) in
        let i := u64 ((page_num user_space + npages user_space) * NACL_PAGESIZE) in
        '(nap, r) ← NaClCommonSysMmapIntern nap i dead_space 0 34 (-1) 0;
        _ ← check (u32 r =? i) "dead_space == i";
        let mm := (mem_map nap) <| vmentry := mark_removed (page_num user_space) (vmentry (mem_map nap)) |>
                                <| is_sorted := false |> in
        mm ← NaClVmmapMakeSorted mm;
        _ ← cond_abort (4294963200 <? heap) "cannot preallocate memory for user";
        mret (nap <| mem_map := mm |>)
  end.

Definition MakeEtag (m : Manifest) : M (option string) :=
  channel ← load (channels (user_setup m)) (Z.to_nat (ChannelType_num OutputChannel));
  mret (match ch_name channel with None => None | Some _ => Some "etag disabled"%string end).

Definition sizeof_Report : Z := 40.

(** [raw] holds the two codes, which the caller sets. *)
Definition SetupReportSettings (raw : Report) (m : Manifest) : M Manifest :=
  _ ← cond_abort (negb (malloc_ok sizeof_Report)) "cannot allocate memory for report";
  etag ← MakeEtag m;
  mret (m <| report := Some (mkReport (ret_code raw) etag (user_ret_code raw) (get_value_by_key m "ContentType")
                               (get_value_by_key m "XObjectMetaTag")) |>).

(** sprintf("%s"); the C library prints NULL as "(null)". *)
Definition print_s (s : option string) : text := chars (default "(null)"%string s).

Definition AnswerManifestPut (r : Report) : text :=
  chars "ReportRetCode        =" ++ print_d (ret_code r) ++ [LF] ++
  chars "ReportEtag           =" ++ print_s (etag r) ++ [LF] ++
  chars "ReportUserRetCode    =" ++ print_d (user_ret_code r) ++ [LF] ++
  chars "ReportContentType    =" ++ print_s (rep_content_type r) ++ [LF] ++
  chars "ReportXObjectMetaTag =" ++ print_s (rep_x_object_meta_tag r) ++ [LF].
End Setup.
