(* ===== verification/ManifestSpec.v ===== *)
(** * What the manifest promises

    Numbers printed in the report are read back, the report is itself a
    manifest, and the channels set up from a manifest satisfy what the trap
    relies on. *)

From Stdlib Require Import Ascii String.
From S2P Require Import Prelude Effects Rounding MemObj Vmmap DynArray Policy App HostDesc Memory.
From S2P Require Import Trap Bytes Gio ManifestText ManifestSetup.

(** ** Decimal numbers *)

Definition is_digit (c : ascii) : Prop := exists d, 0 <= d < 10 /\ c = digit_char d.

Lemma digit_cases (P : Z -> Prop) d :
  P 0 -> P 1 -> P 2 -> P 3 -> P 4 -> P 5 -> P 6 -> P 7 -> P 8 -> P 9 -> 0 <= d < 10 -> P d.
Proof.
  intros. assert (d = 0 \/ d = 1 \/ d = 2 \/ d = 3 \/ d = 4 \/ d = 5 \/ d = 6 \/ d = 7 \/ d = 8 \/ d = 9) as Hd by lia.
  by repeat destruct Hd as [->|Hd]; subst.
Qed.

Lemma digit_digit_char d : 0 <= d < 10 -> digit (digit_char d) = Some d.
Proof. by apply (digit_cases (fun d => digit (digit_char d) = Some d)). Qed.

Lemma digit_plain c : is_digit c -> plain c /\ isspace c = false /\ c <> MINUS /\ c <> PLUS.
Proof.
  intros (d & Hd & ->). revert Hd.
  apply (digit_cases (fun d => plain (digit_char d) /\ isspace (digit_char d) = false /\
    digit_char d <> MINUS /\ digit_char d <> PLUS)); by split_and!.
Qed.

Lemma decimal_digits fuel : forall n acc, 0 <= n -> Forall is_digit acc -> Forall is_digit (decimal fuel n acc).
Proof.
  induction fuel as [|fuel IH]; intros n acc Hn Ha; cbn [decimal]; [done|].
  assert (Ha' : Forall is_digit (digit_char (n mod 10) :: acc)).
  { constructor; [|done]. exists (n mod 10). split; [apply Z.mod_pos_bound; lia|done]. }
  case_match; [done|]. apply IH; [apply Z.div_pos; lia|done].
Qed.

Lemma decimal_nonempty fuel : forall n acc, acc <> [] -> decimal fuel n acc <> [].
Proof.
  induction fuel as [|fuel IH]; intros n acc Ha; cbn [decimal]; [done|]. case_match; [done|]. by apply IH.
Qed.

Lemma decimal_value fuel : forall n acc, 0 <= n < 10 ^ Z.of_nat fuel -> (0 < fuel)%nat ->
  exists k, 0 <= k /\ forall a, atoll_digits (decimal fuel n acc) a = atoll_digits acc (a * 10 ^ k + n).
Proof.
  induction fuel as [|fuel IH]; intros n acc Hn Hf; [lia|]. cbn [decimal].
  assert (Hd : 0 <= n mod 10 < 10) by (apply Z.mod_pos_bound; lia). pose proof (Z.div_mod n 10 ltac:(lia)) as Hdm.
  destruct (n / 10 =? 0) eqn:Hz; zbool.
  - exists 1. split; [lia|]. intros a. cbn [atoll_digits]. rewrite digit_digit_char by done. f_equal. lia.
  - assert (Hb : 0 <= n / 10 < 10 ^ Z.of_nat fuel).
    { rewrite Nat2Z.inj_succ, Z.pow_succ_r in Hn by lia. split; [apply Z.div_pos; lia|].
      apply Z.div_lt_upper_bound; lia. }
    assert (0 < fuel)%nat.
    { destruct fuel; [|lia]. simpl in Hb. lia. }
    destruct (IH (n / 10) (digit_char (n mod 10) :: acc) Hb ltac:(done)) as (k & Hk & Hv).
    exists (k + 1). split; [lia|]. intros a. rewrite Hv. cbn [atoll_digits]. rewrite digit_digit_char by done.
    f_equal. rewrite Z.pow_add_r by lia. lia.
Qed.

Lemma decimal_read n : 0 <= n < 10 ^ 10 -> atoll_digits (decimal 10 n []) 0 = n.
Proof. intros Hn. destruct (decimal_value 10 n [] Hn ltac:(lia)) as (k & _ & ->). done. Qed.

Lemma saturate_small z : is_i64 z -> saturate z = z.
Proof. unfold saturate, is_i64. zlia. Qed.

(** sprintf("%d") followed by atoll is the identity on [int]. *)
Lemma atoll_print_d z : is_i32 z -> atoll (print_d z) = z.
Proof.
  intros Hz. unfold print_d. destruct (z <? 0) eqn:Hneg; zbool.
  - unfold atoll. cbn [skip_spaces isspace]. change (isspace MINUS) with false. cbv iota.
    rewrite bool_decide_true by done. rewrite decimal_read by zlia. rewrite saturate_small; zlia.
  - pose proof (decimal_digits 10 z [] ltac:(done) ltac:(constructor)) as Hd.
    assert (Hne : decimal 10 z [] <> []) by (cbn [decimal]; case_match; [done|by apply (decimal_nonempty 9)]).
    pose proof (decimal_read z ltac:(zlia)) as Hr. unfold atoll. destruct (decimal 10 z []) as [|c s]; [done|].
    apply Forall_cons in Hd as [(Hp & Hsp & Hm & Hpl)%digit_plain _]. cbn [skip_spaces]. rewrite Hsp.
    rewrite !bool_decide_false by done. rewrite Hr. apply saturate_small. zlia.
Qed.

Lemma clean_chars s c :
  s <> [] -> Forall (fun c => plain c /\ isspace c = false) s -> plain c -> isspace c = false -> clean s /\ clean (c :: s).
Proof.
  intros Hne Hs Hc Hsp.
  assert (Hp : Forall plain s) by (eapply Forall_impl; [exact Hs|]; by intros ? [? _]).
  assert (Hl : exists s' c, s = s' ++ [c] /\ isspace c = false).
  { destruct (exists_last Hne) as (s' & x & ->). exists s', x. split; [done|].
    apply Forall_app in Hs as [_ Hx]. by inversion Hx as [|?? [_ ?] _]. }
  split; split.
  - done.
  - destruct s as [|x s]; [done|]. exists x, s. split; [done|]. by inversion Hs as [|?? [_ ?] _].
  - done.
  - by constructor.
  - by exists c, s.
  - destruct Hl as (s' & x & -> & Hx). by exists (c :: s'), x.
Qed.

Lemma print_d_clean z : clean (print_d z).
Proof.
  unfold print_d.
  assert (Hd : forall n, 0 <= n -> decimal 10 n [] <> [] /\ Forall (fun c => plain c /\ isspace c = false) (decimal 10 n [])).
  { intros n Hn. split; [cbn [decimal]; case_match; [done|by apply (decimal_nonempty 9)]|].
    eapply Forall_impl; [by apply decimal_digits|]. intros c (? & ? & _)%digit_plain. done. }
  destruct (z <? 0) eqn:Hneg; zbool.
  - destruct (Hd (- z) ltac:(lia)) as [H1 H2]. by apply (clean_chars _ MINUS H1 H2).
  - destruct (Hd z ltac:(lia)) as [H1 H2]. by apply (clean_chars _ MINUS H1 H2).
Qed.

(** ** The report *)

(** A field of the report as a line of a manifest. *)
Definition report_line (key : string) (pad : nat) (value : text) : mline :=
  mkLine [] (chars key) (replicate pad SPACE) [] value [].

Definition report_lines (r : Report) : list mline :=
  [report_line "ReportRetCode" 8 (print_d (ret_code r));
   report_line "ReportEtag" 11 (print_s (etag r));
   report_line "ReportUserRetCode" 4 (print_d (user_ret_code r));
   report_line "ReportContentType" 4 (print_s (rep_content_type r));
   report_line "ReportXObjectMetaTag" 1 (print_s (rep_x_object_meta_tag r))].

(** The strings of the report are values a manifest can hold. *)
Definition report_clean (r : Report) : Prop :=
  clean (print_s (etag r)) /\ clean (print_s (rep_content_type r)) /\ clean (print_s (rep_x_object_meta_tag r)).

Lemma report_text r : AnswerManifestPut r = manifest_text (report_lines r).
Proof.
  unfold AnswerManifestPut, manifest_text, report_lines, line_text, report_line. simpl.
  rewrite ?app_nil_r. rewrite <- ?app_assoc. reflexivity.
Qed.

(** Decidable form of [clean], for concrete strings. *)
Definition plainb (c : ascii) : bool := negb (bool_decide (c = EQUALS)) && negb (is_eol c) && negb (bool_decide (c = NUL)).

Definition cleanb (s : text) : bool :=
  forallb plainb s &&
  match s with c :: _ => negb (isspace c) | [] => false end &&
  match rev s with c :: _ => negb (isspace c) | [] => false end.

Lemma cleanb_spec s : cleanb s = true -> clean s.
Proof.
  unfold cleanb. rewrite !andb_true_iff. intros [[Hp Hf] Hl]. split.
  - apply Forall_forall. intros c Hc. rewrite forallb_forall in Hp. specialize (Hp c (proj1 (list_elem_of_In _ _) Hc)).
    unfold plainb in Hp. rewrite !andb_true_iff, !negb_true_iff, !bool_decide_eq_false in Hp. by destruct Hp as [[? ?] ?].
  - destruct s as [|c s]; [done|]. exists c, s. by apply negb_true_iff in Hf.
  - destruct (rev s) as [|c r] eqn:Hr; [done|]. exists (rev r), c. split; [|by apply negb_true_iff in Hl].
    by rewrite <- (rev_involutive s), Hr.
Qed.

Lemma blank_spaces n : blank (replicate n SPACE).
Proof. apply Forall_replicate. by split. Qed.

Lemma report_line_ok key pad value :
  cleanb (chars key) = true -> clean value -> line_ok (report_line key pad value).
Proof. intros Hk Hv. split; [by apply cleanb_spec|done|]. split_and!; try constructor. apply blank_spaces. Qed.

(** The records of a report. *)
Definition report_records (r : Report) : list (string * string) :=
  [("ReportRetCode", string_of_list_ascii (print_d (ret_code r)));
   ("ReportEtag", default "(null)" (etag r));
   ("ReportUserRetCode", string_of_list_ascii (print_d (user_ret_code r)));
   ("ReportContentType", default "(null)" (rep_content_type r));
   ("ReportXObjectMetaTag", default "(null)" (rep_x_object_meta_tag r))]%string.

(** The report is a manifest with these records. *)
Lemma report_parses `{Host} r rest (size := Z.of_nat (length (AnswerManifestPut r))) :
  report_clean r -> 4 * size < two31 ->
  parse_manifest (readable (AnswerManifestPut r)) (NUL :: rest)
    = mret (if forallb malloc_ok (parse_requests size 5) then Some (report_records r) else None).
Proof.
  intros (H1 & H2 & H3) Hs. unfold size in *. rewrite report_text in *. rewrite parse_manifest_lines; [| |done|done].
  - do 2 f_equal. unfold report_records, report_lines, to_string, line_record, report_line, print_s.
    cbn [fmap list_fmap ml_key ml_value fst snd]. by rewrite !string_of_list_ascii_of_string.
  - unfold report_lines. repeat (apply Forall_cons; split;
      [apply report_line_ok; first [reflexivity|done|apply print_d_clean]|]). by apply Forall_nil.
Qed.

(** ** Channels *)

(** The limits a manifest gives to a channel are not negative. *)
Definition limits_ok (m : Manifest) (ch : nat) : Prop :=
  forall prefix, CHANNEL_PREFIXES !! ch = Some prefix ->
    0 <= SET_LIMIT m prefix "MaxGet" < two63 /\ 0 <= SET_LIMIT m prefix "MaxPut" < two63.

(** A channel that was constructed is what the trap expects: counters at zero
    and fields in the range of their types. *)
Lemma ConstructChannel_spec m ch l m' :
  limits_ok m ch -> ConstructChannel m ch = (l, Ret (m', 0)) ->
  exists c, channels (user_setup m') = <[ch := c]> (channels (user_setup m)) /\ channel_ok c /\
    is_Some (ch_name c) /\ ch_type c = Z.of_nat ch /\
    cnt_gets c = 0 /\ cnt_puts c = 0 /\ cnt_get_size c = 0 /\ cnt_put_size c = 0.
Proof.
  intros Hlim Hrun. unfold ConstructChannel in Hrun.
  apply M_bind_ret_inv in Hrun as (? & c0 & ? & _ & Hrun & _).
  apply M_bind_ret_inv in Hrun as (? & prefix & ? & Hp & Hrun & _).
  unfold GetChannelPrefixById in Hp. destruct (CHANNEL_PREFIXES !! ch) as [s|] eqn:Hs; [|done].
  apply M_ret_inv in Hp as [_ ->]. destruct (Hlim prefix Hs) as [Hg Hpt].
  destruct (ch_name _) as [name|] eqn:Hname; [|by apply M_ret_inv in Hrun as [_ ?]].
  apply M_ret_inv in Hrun as [_ Heq]. injection Heq as <-. eexists. split; [reflexivity|]. cbn in Hname |- *.
  split_and!; try done.
  assert (Hi : forall z, 0 <= z < two63 -> i64 z = z) by (intros z Hz; apply i64_nonneg; done).
  split; [split|split|..]; simpl; rewrite ?Hi by done; try done; try (apply i32_range); lia.
Qed.

Section Mounting.
Context `{HH : Host} `{HF : Files}.

(** A channel that was preloaded is open and within its limit. *)
Lemma PreloadChannel_spec c l c' :
  PreloadChannel c = (l, Ret (c', 0)) ->
  ch_mounted c' = LOADED /\ 0 <= ch_handle c' /\ ch_fsize c' <= max_size c' /\ ch_bsize c' = -1 /\
  (is_output c = true -> 0 < max_size c -> 0 < ch_fsize c') /\
  max_size c' = max_size c /\ max_get_size c' = max_get_size c /\ max_put_size c' = max_put_size c /\
  cnt_get_size c' = cnt_get_size c /\ cnt_put_size c' = cnt_put_size c.
Proof using.
  unfold PreloadChannel. intros Hrun. destruct (ch_name c) as [name|]; [|by apply M_ret_inv in Hrun as [_ ?]].
  apply M_bind_ret_inv in Hrun as (? & ? & ? & [_ Hm]%cond_abort_inv & Hrun & _).
  apply M_bind_ret_inv in Hrun as (? & fl & ? & _ & Hrun & _).
  apply M_bind_ret_inv in Hrun as (? & ? & ? & [_ Hh]%cond_abort_inv & Hrun & _).
  apply M_bind_ret_inv in Hrun as (? & c1 & ? & Hpre & Hrun & _).
  apply M_bind_ret_inv in Hrun as (? & ? & ? & [_ Hsz]%cond_abort_inv & Hrun & _).
  apply M_ret_inv in Hrun as [_ [= <-]]. apply negb_false_iff in Hm. zbool. cbn in Hh.
  unfold Preload_PreallocateChannel in Hpre. cbn in Hpre.
  destruct ((GetFileSize name <? 1) && _) eqn:Hout.
  - apply M_bind_ret_inv in Hpre as (? & ? & ? & _ & [_ <-]%M_ret_inv & _). cbn in *. split_and!; try done; lia.
  - apply M_ret_inv in Hpre as [_ <-]. cbn in *. split_and!; try done; try lia.
    intros Ho _. rewrite andb_false_iff in Hout. destruct Hout as [Hs|Hs]; [zbool; lia|].
    unfold is_output in *. cbn in Hs, Ho. congruence.
Qed.
End Mounting.
