(* ===== verification/Syscalls.v ===== *)
(** * System call dispatch

    The decoders and the table of nacl_syscall_handlers.c, the tls calls, and
    NaClSyscallCSegHook (nacl_syscall_hook.c), the only entry of the runtime
    from user code.  A hook is one step of the machine; its theorems hold of
    every reachable state.

    User memory is a function from system addresses to bytes, read little
    endian.  The decoding of a SetupList from user memory is the parameter
    [rd_setup]; clock() is read twice, [pause] and [resume]. *)

From S2P Require Import Prelude Effects Rounding Bytes MemObj Vmmap VmmapSpec VmmapCompact.
From S2P Require Import VmmapUpdate VmmapFind DynArray Policy App HostDesc Memory MemorySafe Sysbrk.
From S2P Require Import Mmap Trap.

Definition user_memory : Type := memory.

(** ** tls and exit *)

Definition NaClSysExit (nap : NaClApp) (status : Z) : M (NaClApp * Z) := fail (UserExit status).

Definition NaClSysTls_Init (nap : NaClApp) (thread_ptr : Z) : M (NaClApp * Z) :=
  let a := NaClUserToSysAddrRange nap thread_ptr 4 in
  if kNaClBadAddress =? a then mret (nap, - NACL_ABI_EFAULT)
  else mret (nap <| sys_tls := a |>, 0).

Definition NaClSysTls_Get (nap : NaClApp) : M (NaClApp * Z) :=
  user_tls ← NaClSysToUser nap (sys_tls nap);
  mret (nap, i32 (u32 (i32 user_tls))).

(** ** The system call table *)

Definition NACL_MAX_SYSCALLS : nat := 110.
Definition SYS_Trap : nat := 0.
Definition NACL_sys_sysbrk : nat := 20.
Definition NACL_sys_mmap : nat := 21.
Definition NACL_sys_munmap : nat := 22.
Definition NACL_sys_exit : nat := 30.
Definition NACL_sys_mutex_create : nat := 70.
Definition NACL_sys_tls_init : nat := 82.
Definition NACL_sys_tls_get : nat := 84.

(** The functions the table points to. *)
Inductive decoder :=
| NotImplementedDecoder
| TrapDecoder
| NaClSysSysbrkDecoder
| NaClSysExitDecoder
| NaClSysTls_InitDecoder
| NaClSysTls_GetDecoder
| NaClSysMutex_CreateDecoder
| NaClSysMmapDecoder
| NaClSysMunmapDecoder.

#[global] Instance decoder_eq_dec : EqDecision decoder.
Proof. solve_decision. Defined.

Definition NaClAddSyscall (tbl : list decoder) (num : nat) (fn : decoder) : M (list decoder) :=
  h ← load tbl num;
  if negb (bool_decide (h = NotImplementedDecoder)) then fail (LogFatal "Duplicate syscall number")
  else store tbl num fn.

Definition NaClSyscallTableInit : M (list decoder) :=
  let t := replicate NACL_MAX_SYSCALLS NotImplementedDecoder in
  t ← NaClAddSyscall t SYS_Trap TrapDecoder;
  t ← NaClAddSyscall t NACL_sys_sysbrk NaClSysSysbrkDecoder;
  t ← NaClAddSyscall t NACL_sys_exit NaClSysExitDecoder;
  t ← NaClAddSyscall t NACL_sys_tls_init NaClSysTls_InitDecoder;
  t ← NaClAddSyscall t NACL_sys_tls_get NaClSysTls_GetDecoder;
  t ← NaClAddSyscall t NACL_sys_mutex_create NaClSysMutex_CreateDecoder;
  t ← NaClAddSyscall t NACL_sys_mmap NaClSysMmapDecoder;
  NaClAddSyscall t NACL_sys_munmap NaClSysMunmapDecoder.

(** ** The decoders

    [arg i] is the i-th 32-bit word at [syscall_args]; an [int] argument is
    its signed reading.  The last component of the result is the structure a
    trap setup call writes back to user memory. *)

Section Dispatch.
Context `{Host}.
Variable mem : user_memory.
Variable rd_setup : Z -> SetupList.

Definition run_decoder (h : decoder) (nap : NaClApp) (syscall_args : Z)
  : M (NaClApp * Z * option SetupList) :=
  let arg (i : Z) := rd32 mem (syscall_args + 4 * i) in
  let plain (m : M (NaClApp * Z)) := '(nap, r) ← m; mret (nap, r, None) in
  match h with
  | NotImplementedDecoder => mret (nap, - NACL_ABI_ENOSYS, None)
  | TrapDecoder =>
      TrapHandler (fun i => rd64 mem (arg 0 + mem_start nap + 8 * Z.of_nat i)) rd_setup nap (arg 0)
  | NaClSysSysbrkDecoder => plain (NaClSysSysbrk nap (arg 0))
  | NaClSysExitDecoder => plain (NaClSysExit nap (i32 (arg 0)))
  | NaClSysTls_InitDecoder => plain (NaClSysTls_Init nap (arg 0))
  | NaClSysTls_GetDecoder => plain (NaClSysTls_Get nap)
  | NaClSysMutex_CreateDecoder => mret (nap, 1, None)
  | NaClSysMmapDecoder =>
      plain (NaClSysMmap (fun a => i64 (rd64 mem a)) nap (arg 0) (arg 1) (i32 (arg 2)) (i32 (arg 3)) (-1) (arg 5))
  | NaClSysMunmapDecoder => plain (NaClSysMunmap nap (arg 0) (arg 1))
  end.

(** ** The hook *)

Definition NACL_USERRET_FIX : Z := 8.
Definition NACL_SYSARGS_FIX : Z := -24.
Definition NACL_SYSCALLRET_FIX : Z := 16.

(** Where the processor continues: the arguments of NaClSwitchToApp with the
    stack pointer of the user context. *)
Record switch := mkSwitch {
  sw_app : NaClApp;
  sw_pc : Z;
  sw_sp : Z;
  sw_hint : option SetupList;
}.

Definition account_syscall (nap : NaClApp) : NaClApp :=
  nap <| manifest := (AccountingSyscallsInc (manifest nap)).2 |>.

Definition syscall_number (nap : NaClApp) (tramp_ret : Z) : Z :=
  Z.shiftr (u64 (tramp_ret - u64 (mem_start nap + NACL_SYSCALL_START_ADDR))) NACL_SYSCALL_BLOCK_SHIFT.

Definition NaClSyscallCSegHook (tbl : list decoder) (pause resume : Z) (nap : NaClApp) (sp_user : Z)
  : M switch :=
  let nap := nap <| user_side_flag := true |> in
  let nap := PauseCpuClock pause nap in
  let nap := account_syscall nap in
  let sp_sys := NaClUserToSysStackAddr nap sp_user in
  let tramp_ret := NaClUserToSysStackAddr nap (rd64 mem sp_sys) in
  let sysnum := syscall_number nap tramp_ret in
  let user_ret := rd64 mem (u64 (sp_sys + NACL_USERRET_FIX)) in
  let sp_sys := u64 (sp_sys + NACL_SYSARGS_FIX) in
  let sp_user := u64 (sp_user + NACL_SYSCALLRET_FIX) in
  '(nap, hint) ←
    (if Z.of_nat NACL_MAX_SYSCALLS <=? sysnum then
       mret (nap <| sysret := u32 (- NACL_ABI_EINVAL) |>, None)
     else
       h ← load tbl (Z.to_nat sysnum);
       '(nap, r, hint) ← run_decoder h nap sp_sys;
       mret (nap <| sysret := u32 r |>, hint));
  let user_ret := NaClSandboxCodeAddr nap user_ret in
  let nap := ResumeCpuClock resume nap in
  let nap := nap <| user_side_flag := false |> in
  mret (mkSwitch nap user_ret sp_user hint).

End Dispatch.

(** ** The table *)

Definition syscall_table : list decoder :=
  match NaClSyscallTableInit with (_, Ret t) => t | _ => [] end.

Lemma TableInit_ok : NaClSyscallTableInit = mret syscall_table.
Proof. vm_compute. reflexivity. Qed.

(** The numbers with a decoder; the rest is not implemented. *)
Definition table_spec (n : nat) : decoder :=
  if decide (n = 0)%nat then TrapDecoder
  else if decide (n = 20)%nat then NaClSysSysbrkDecoder
  else if decide (n = 21)%nat then NaClSysMmapDecoder
  else if decide (n = 22)%nat then NaClSysMunmapDecoder
  else if decide (n = 30)%nat then NaClSysExitDecoder
  else if decide (n = 70)%nat then NaClSysMutex_CreateDecoder
  else if decide (n = 82)%nat then NaClSysTls_InitDecoder
  else if decide (n = 84)%nat then NaClSysTls_GetDecoder
  else NotImplementedDecoder.

Lemma table_length : length syscall_table = NACL_MAX_SYSCALLS.
Proof. vm_compute. reflexivity. Qed.

Lemma table_lookup n : (n < NACL_MAX_SYSCALLS)%nat -> syscall_table !! n = Some (table_spec n).
Proof.
  intros Hn. assert (Hall : forallb (fun n => bool_decide (syscall_table !! n = Some (table_spec n)))
                              (seq 0 NACL_MAX_SYSCALLS) = true) by (vm_compute; reflexivity).
  rewrite forallb_forall in Hall. specialize (Hall n).
  rewrite in_seq in Hall. specialize (Hall ltac:(lia)). by apply bool_decide_eq_true in Hall.
Qed.

(** A second registration of a number stops the runtime. *)
Lemma AddSyscall_duplicate tbl n h f :
  tbl !! n = Some h -> h <> NotImplementedDecoder ->
  NaClAddSyscall tbl n f = fail (LogFatal "Duplicate syscall number").
Proof.
  intros Hn Hh. unfold NaClAddSyscall. rewrite (load_ok _ _ _ Hn), M_bind_ret_l.
  by rewrite bool_decide_false.
Qed.

(** The trampoline of call [n] is the block at NACL_SYSCALL_ADDR(n): any return
    address in it selects [n]. *)
Lemma syscall_number_spec nap n off :
  placed nap -> 0 <= n < 2048 -> 0 <= off < NACL_SYSCALL_BLOCK_SIZE ->
  syscall_number nap (mem_start nap + NACL_SYSCALL_START_ADDR + n * NACL_SYSCALL_BLOCK_SIZE + off) = n.
Proof.
  intros [] Hn Hoff. unfold syscall_number.
  change NACL_SYSCALL_START_ADDR with 65536. change NACL_SYSCALL_BLOCK_SIZE with 32 in *.
  rewrite (u64_small (mem_start nap + 65536)) by zlia. rewrite u64_small by zlia.
  change NACL_SYSCALL_BLOCK_SHIFT with 5. rewrite Z.shiftr_div_pow2 by lia. change (2 ^ 5) with 32.
  replace (_ - _) with (off + n * 32) by lia. rewrite Z.div_add, Z.div_small; lia.
Qed.
