(* ===== verification/Isolation.v ===== *)
(** * Isolation of the user program

    The state invariant of a running application, what one system call may do
    to it, and the same for every reachable state: the code pages and their
    mapping never change, no page above them is executable, host calls stay
    inside the sandbox or start there, limits only go down, and control
    returns to a bundle head inside the sandbox. *)

From S2P Require Import Prelude Effects Rounding Bytes MemObj Vmmap VmmapSpec VmmapCompact.
From S2P Require Import VmmapUpdate VmmapFind DynArray Policy App HostDesc Memory MemorySafe Sysbrk.
From S2P Require Import Mmap Trap Syscalls.

(** ** Invariant and evolution *)

Record rt_inv (nap : NaClApp) (es : list NaClVmmapEntry) : Prop := {
  rt_app : app_inv nap es;
  rt_text : text_bounds nap;
  rt_callback : callback_inv nap;
  rt_bundle : bundle_size nap = NACL_SYSCALL_BLOCK_SIZE;
  rt_channels : forall m, manifest nap = Some m -> length (channels (user_setup m)) = CHANNELS_COUNT;
}.

(** The layout fields no system call may write. *)
Definition layout (nap : NaClApp) : list Z :=
  [addr_bits nap; mem_start nap; static_text_end nap; dynamic_text_start nap; dynamic_text_end nap;
   rodata_start nap; data_start nap; data_end nap; initial_entry_pt nap; user_entry_pt nap; bundle_size nap].

Definition manifest_le (m' m : option Manifest) : Prop :=
  match m', m with
  | Some m', Some m => limits_le (user_setup m') (user_setup m)
  | None, None => True
  | _, _ => False
  end.

Record evolves (nap : NaClApp) (es : list NaClVmmapEntry) (nap' : NaClApp) (es' : list NaClVmmapEntry)
  : Prop := {
  ev_layout : layout nap' = layout nap;
  ev_text : keeps_text nap (lookup_page es) (lookup_page es');
  ev_limits : manifest_le (manifest nap') (manifest nap);
}.

Lemma manifest_le_refl m : manifest_le m m.
Proof. destruct m; simpl; [reflexivity|done]. Qed.

Lemma manifest_le_trans a b c : manifest_le a b -> manifest_le b c -> manifest_le a c.
Proof. destruct a, b, c; simpl; try done. by intros ->. Qed.

Lemma evolves_refl nap es : evolves nap es nap es.
Proof. split; [done|by intros p|apply manifest_le_refl]. Qed.

Lemma evolves_trans n1 e1 n2 e2 n3 e3 :
  evolves n1 e1 n2 e2 -> evolves n2 e2 n3 e3 -> evolves n1 e1 n3 e3.
Proof.
  intros [L1 T1 M1] [L2 T2 M2]. split; [congruence| |by eapply manifest_le_trans].
  assert (Htp : text_pages n2 = text_pages n1) by (unfold layout, text_pages in *; simplify_eq; congruence).
  intros p Hp. rewrite T2 by (by rewrite Htp). by apply T1.
Qed.

(** A change outside memory: same layout, map, descriptors and break. *)
Definition same_memory (nap nap' : NaClApp) : Prop :=
  layout nap' = layout nap /\ mem_map nap' = mem_map nap /\ desc_tbl nap' = desc_tbl nap /\
  break_addr nap' = break_addr nap.

Lemma layout_inv nap nap' :
  layout nap' = layout nap ->
  addr_bits nap' = addr_bits nap /\ mem_start nap' = mem_start nap /\
  static_text_end nap' = static_text_end nap /\ dynamic_text_start nap' = dynamic_text_start nap /\
  dynamic_text_end nap' = dynamic_text_end nap /\ data_end nap' = data_end nap /\
  bundle_size nap' = bundle_size nap.
Proof. unfold layout. intros [=]. done. Qed.

Lemma placed_layout nap nap' : layout nap' = layout nap -> placed nap -> placed nap'.
Proof. intros (Hb & Hs & _)%layout_inv [? ? ? ?]. split; congruence || (rewrite Hs; done). Qed.

Lemma text_bounds_layout nap nap' : layout nap' = layout nap -> text_bounds nap -> text_bounds nap'.
Proof. intros (_ & _ & Hs & Hd & He & _)%layout_inv [? ? ?]. split; rewrite ?Hs, ?Hd, ?He; done. Qed.

Lemma app_inv_same nap nap' es : same_memory nap nap' -> app_inv nap es -> app_inv nap' es.
Proof.
  intros (Hl & Hm & Hd & Hbr) [Hpl Hmap Hpg Ht Hda Hde].
  pose proof (layout_inv _ _ Hl) as (_ & _ & _ & _ & He & Hend & _).
  split; rewrite ?Hm, ?Hd, ?Hbr, ?He, ?Hend; try done.
  - by eapply placed_layout.
  - destruct Hpg as [H1 H2 H3]. unfold text_pages in *. split; unfold text_pages; rewrite ?He; done.
Qed.

(** The handler and the channel count depend on few fields. *)
Definition same_policy (nap nap' : NaClApp) : Prop :=
  g_syscallback nap' = g_syscallback nap /\
  match manifest nap, manifest nap' with
  | Some m, Some m' =>
      su_syscallback (user_setup m') = su_syscallback (user_setup m) /\
      length (channels (user_setup m')) = length (channels (user_setup m))
  | None, None => True
  | _, _ => False
  end.

Lemma rt_inv_same nap nap' es :
  same_memory nap nap' -> same_policy nap nap' -> rt_inv nap es -> rt_inv nap' es.
Proof.
  intros Hm (Hg & Hp) [Ha Ht Hc Hb Hch]. pose proof Hm as (Hl & _).
  pose proof (layout_inv _ _ Hl) as (_ & Hs & Hse & Hds & Hde & _ & Hbs). split.
  - by eapply app_inv_same.
  - by eapply text_bounds_layout.
  - unfold callback_inv, code_address in *. destruct (manifest nap), (manifest nap'); try done; [|congruence].
    destruct Hp as [-> _]. by rewrite Hg, Hs, Hse, Hds, Hde.
  - congruence.
  - intros m' Hm'. rewrite Hm' in Hp. destruct (manifest nap) as [m|] eqn:Hmm; [|done].
    destruct Hp as [_ ->]. by apply Hch.
Qed.

(** A new map under the same application. *)
Lemma rt_inv_memory nap nap' es' :
  layout nap' = layout nap -> manifest nap' = manifest nap -> g_syscallback nap' = g_syscallback nap ->
  app_inv nap' es' -> forall es, rt_inv nap es -> rt_inv nap' es'.
Proof.
  intros Hl Hm Hg Ha es [_ Ht Hc Hb Hch].
  pose proof (layout_inv _ _ Hl) as (_ & Hs & Hse & Hds & Hde & _ & Hbs). split.
  - done.
  - by eapply text_bounds_layout.
  - unfold callback_inv, code_address in *. by rewrite Hm, Hg, Hs, Hse, Hds, Hde.
  - congruence.
  - by rewrite Hm.
Qed.

(** ** What one system call may do *)

(** Host calls a system call may make: memory calls inside the sandbox above
    the code and never executable; transfers of at most 2 GB whose buffer
    starts inside the sandbox (the code checks the first address only). *)
Definition syscall_event (nap : NaClApp) (ev : event) : Prop :=
  match ev with
  | HostRead _ a n _ | HostWrite _ a n _ => inside nap 1 a 1 /\ 1 <= n < two31
  | _ => confined (mem_start nap + dynamic_text_end nap) (mem_start nap + two32) ev
  end.

Definition call_ok {A} (app : A -> NaClApp) (nap : NaClApp) (es : list NaClVmmapEntry) (m : M A) : Prop :=
  Forall (syscall_event nap) (trace m) /\
  forall a, result m = Ret a -> exists es', rt_inv (app a) es' /\ evolves nap es (app a) es'.

Lemma confined_syscall_event nap l : sandbox_events nap l -> Forall (syscall_event nap) l.
Proof. intros Hl. eapply Forall_impl; [exact Hl|]. intros []; simpl; done. Qed.

Lemma call_ok_ret {A} (app : A -> NaClApp) nap es a es' :
  rt_inv (app a) es' -> evolves nap es (app a) es' -> call_ok app nap es (mret a).
Proof. intros Hr He. split; [constructor|]. intros b [= <-]. by exists es'. Qed.

Lemma call_ok_fail {A} (app : A -> NaClApp) nap es f : call_ok app nap es (fail f).
Proof. split; [constructor|]. done. Qed.

(** Post-processing that keeps the application. *)
Lemma call_ok_map {A B} (app : A -> NaClApp) (app' : B -> NaClApp) nap es (m : M A) (k : A -> M B) :
  (forall a, exists b, k a = mret b /\ app' b = app a) -> call_ok app nap es m -> call_ok app' nap es (m ≫= k).
Proof.
  intros Hk [Ht Hr]. unfold call_ok, trace, result, mbind, M_bind in *.
  destruct m as [l [a|flt]]; simpl in *; [|done]. destruct (Hk a) as (b & -> & Hb). simpl.
  rewrite app_nil_r. split; [done|]. intros b' [= <-]. rewrite Hb. by apply Hr.
Qed.

Section Calls.
Context `{Host}.

Lemma call_ok_memory nap es l nap' es' (r : Z) :
  rt_inv nap es -> sandbox_events nap l -> app_inv nap' es' ->
  layout nap' = layout nap -> manifest nap' = manifest nap -> g_syscallback nap' = g_syscallback nap ->
  keeps_text nap (lookup_page es) (lookup_page es') ->
  call_ok fst nap es (l, Ret (nap', r)).
Proof using.
  intros Hrt Hl Ha Hlay Hm Hg Hk. split; [by apply confined_syscall_event|].
  intros [n z] [= <- <-]. exists es'. simpl. split; [by eapply rt_inv_memory|].
  split; [done|done|]. rewrite Hm. apply manifest_le_refl.
Qed.

Lemma same_pages_keeps nap f g : same_pages g f -> keeps_text nap f g.
Proof using. by intros Hs p _. Qed.

(** Sysbrk on a host whose mprotect succeeds, then on any host. *)
Lemma Sysbrk_call_granted nap es nb :
  (forall a n p, host_mprotect a n p = 0) -> rt_inv nap es -> 0 <= nb < two32 ->
  call_ok fst nap es (NaClSysSysbrk nap nb).
Proof using.
  intros Hmp Hrt Hnb. pose proof (rt_app _ _ Hrt) as Hinv. pose proof Hinv as [_ _ _ _ [Hda Hbr] _].
  destruct (decide (nb <= break_addr nap)) as [Hle|Hgt].
  { destruct (Sysbrk_shrink nap es nb Hinv) as (nap' & -> & Hinv' & _ & Heq); [zlia|by left|].
    eapply call_ok_memory; try done; [constructor|by rewrite Heq..]. }
  destruct (lookup_page es (brk_page nap)) as [i|] eqn:Hpg.
  - destruct (Sysbrk_grow Hmp nap es nb Hinv) as (l & nap' & es' & -> & Hinv' & Hres & Heq & Hl);
      [lia|by eexists|].
    eapply call_ok_memory; try done; [by rewrite Heq..|].
    assert (Htb : text_pages nap <= brk_page nap) by (apply Z.div_le_mono; lia).
    destruct Hres as [[_ Hs]|(_ & _ & Hold & _ & Hnew)]; [by apply same_pages_keeps|].
    intros p Hp. destruct (lookup_page es p) as [j|] eqn:Hp0; [by apply Hold|].
    destruct (lookup_page es' p) eqn:Hp1; [|done]. exfalso.
    specialize (Hnew p Hp0 ltac:(by eexists)). lia.
  - destruct (Sysbrk_unmapped nap es nb Hinv) as (l & -> & Hl); [lia|done|].
    split; [by apply confined_syscall_event|done].
Qed.

Lemma override_text nap f g lo hi h :
  same_pages g (override f lo hi h) -> text_pages nap <= lo -> keeps_text nap f g.
Proof using. intros Hs Hlo p Hp. rewrite Hs. unfold override. by rewrite decide_False by lia. Qed.

(** A memory call, from what it promises. *)
Lemma meets_call_ok nap es G (Q : NaClApp * Z -> Prop) m :
  rt_inv nap es -> meets nap G Q m ->
  (forall a, Q a -> exists es', app_inv a.1 es' /\ a.1 = nap <| mem_map := mem_map a.1 |> /\
     keeps_text nap (lookup_page es) (lookup_page es')) ->
  call_ok fst nap es m.
Proof using.
  intros Hrt [He Hr _] HQ. split; [by apply confined_syscall_event|].
  intros a Ha. destruct (HQ a (Hr a Ha)) as (es' & Hinv' & Heq & Hk). exists es'.
  split; [eapply (rt_inv_memory nap); [by rewrite Heq..|done|exact Hrt]|]. split; [by rewrite Heq|done|].
  rewrite Heq. apply manifest_le_refl.
Qed.

Lemma Munmap_call_ok nap es start len :
  rt_inv nap es -> 0 <= start < two32 -> 0 <= len < two32 -> call_ok fst nap es (NaClSysMunmap nap start len).
Proof using.
  intros Hrt Hs Hl. eapply meets_call_ok; [done|apply Munmap_spec; [apply (rt_app _ _ Hrt)|zlia|done]|].
  intros a (es' & Hinv' & Heq & Hres). exists es'. split_and!; [done|done|].
  destruct Hres as [[_ Hp]|(_ & Hal & _ & Hlo & _ & Hp)]; [by apply same_pages_keeps|].
  eapply override_text; [exact Hp|]. apply Z.div_le_mono; lia.
Qed.

Lemma Mmap_call_ok rd nap es start len prot flags offp :
  rt_inv nap es -> 0 <= start < two32 -> 0 <= len < two32 ->
  call_ok fst nap es (NaClSysMmap rd nap start len prot flags (-1) offp).
Proof using.
  intros Hrt Hs Hl. unfold NaClSysMmap.
  case_match; [by eapply call_ok_ret; [done|apply evolves_refl]|].
  case_match; [by eapply call_ok_ret; [done|apply evolves_refl]|].
  eapply meets_call_ok; [done|apply (Mmap_spec _ es); [apply (rt_app _ _ Hrt)|zlia|done]|].
  intros a (es' & Hinv' & Heq & Hres). exists es'. split_and!; [done|done|].
  destruct Hres as [[_ Hp]|(u & _ & Hal & Hlo & _ & _ & Hp)]; [by apply same_pages_keeps|].
  eapply override_text; [exact Hp|]. apply Z.div_le_mono; lia.
Qed.

Lemma Tls_Init_call_ok nap es p : rt_inv nap es -> call_ok fst nap es (NaClSysTls_Init nap p).
Proof using.
  intros Hrt. unfold NaClSysTls_Init. case_match; [by eapply call_ok_ret; [done|apply evolves_refl]|].
  apply (call_ok_ret _ _ _ _ es).
  - eapply rt_inv_same; [..|exact Hrt]; [done|]. split; [done|]. simpl. by destruct (manifest nap).
  - split; [done|by intros q|apply manifest_le_refl].
Qed.

Lemma Tls_Get_call_ok nap es : rt_inv nap es -> call_ok fst nap es (NaClSysTls_Get nap).
Proof using.
  intros Hrt. unfold NaClSysTls_Get, NaClSysToUser. case_match; [apply call_ok_fail|].
  rewrite M_bind_ret_l. by eapply call_ok_ret; [done|apply evolves_refl].
Qed.
End Calls.

Lemma Sysbrk_call_ok `{h : Host} nap es nb :
  rt_inv nap es -> 0 <= nb < two32 -> call_ok fst nap es (NaClSysSysbrk nap nb).
Proof.
  intros Hrt Hnb. destruct (Sysbrk_lags nap nb) as [Ht Hr].
  destruct (Sysbrk_call_granted (H:=permissive h) nap es nb) as [Ht' Hr']; [done..|].
  split; [by rewrite Ht|]. intros a Ha. by apply Hr', Hr.
Qed.

(** ** The trap *)

Section TrapCalls.
Context `{Host}.

(** A step on the policy only. *)
Lemma evolves_policy nap es nap' :
  same_memory nap nap' -> manifest_le (manifest nap') (manifest nap) -> evolves nap es nap' es.
Proof using. intros (Hl & _) Hm. split; [done|by intros p|done]. Qed.

Lemma set_channel_some nap m ch fd :
  manifest nap = Some m ->
  set_channel nap ch fd = nap <| manifest := Some (m <| user_setup :=
    (user_setup m) <| channels := <[ch := fd]> (channels (user_setup m)) |> |>) |>.
Proof using. intros Hm. unfold set_channel. by rewrite (set_policy_some _ _ _ Hm). Qed.

Lemma transfer_call_ok d ev ret nap es desc buffer size offset :
  d = reading \/ d = writing -> (forall h a n o, ev h a n o = HostRead h a n o) \/
    (forall h a n o, ev h a n o = HostWrite h a n o) ->
  rt_inv nap es -> is_u64 buffer -> is_i32 size ->
  call_ok fst nap es (Trap_transfer d (fun h a n o => _ ← emit (ev h a n o); mret (ret h a n o))
    nap desc buffer size offset).
Proof using.
  intros Hd Hev Hrt Hb Hs. pose proof (ai_placed _ _ (rt_app _ _ Hrt)) as Hpl.
  destruct (Trap_transfer _ _ _ _ _ _ _) as [l [[nap' r]|f]] eqn:Ht.
  2: { apply Trap_transfer_fault in Ht as ->. split; [constructor|done]. }
  apply Trap_transfer_inv in Ht as (Hbuf & Ht & _); [|done..].
  destruct Ht as [[-> ->]|(fd & n & Hfd & Hin & Hg & -> & ->)].
  { by eapply (call_ok_ret fst _ _ (nap, r)); [done|apply evolves_refl]. }
  pose proof (grant_range _ _ _ _ _ Hs Hg) as Hn. split.
  { constructor; [|done]. unfold inside.
    destruct Hev as [-> | ->]; simpl; unfold inside; destruct Hpl; zlia. }
  intros a [= <-]. exists es. simpl. unfold app_channels in Hfd.
  destruct (manifest nap) as [m|] eqn:Hm; [|done]. rewrite (set_channel_some _ _ _ _ Hm).
  split; [eapply rt_inv_same; [..|exact Hrt]|apply evolves_policy]; try done.
  - split; [done|]. simpl. rewrite Hm. simpl. by rewrite length_insert.
  - simpl. rewrite Hm. simpl. eapply limits_insert; [done|]. by apply account_limits.
Qed.

Lemma UserSetup_call_ok nap es h hint :
  rt_inv nap es -> is_u64 h -> is_i32 (su_syscallback hint) -> length (channels hint) = CHANNELS_COUNT ->
  call_ok (fun r => r.1.1) nap es (TrapUserSetupHandle nap h hint).
Proof using.
  intros Hrt Hh Hcb Hlen. pose proof Hrt as [Ha Ht Hc Hb Hch]. pose proof (ai_placed _ _ Ha) as Hpl.
  destruct (manifest nap) as [m|] eqn:Hm.
  2: { unfold TrapUserSetupHandle, policy. rewrite Hm. apply call_ok_fail. }
  destruct (decide (0 < h < two32)) as [Hr|Hr].
  2: { unfold TrapUserSetupHandle, policy. rewrite Hm, M_bind_ret_l.
       rewrite UserToSys_spec by (done || zlia). rewrite decide_False by done. apply call_ok_fail. }
  destruct (UserSetup_spec nap h hint m Hpl Ht Hm Hr Hcb) as (nap' & r & hint' & m' & -> & Hm' & Hlow & Heq & _ & Hres).
  { by rewrite Hlen, (Hch m eq_refl). }
  assert (Hmem : same_memory nap nap') by (rewrite Heq; done).
  assert (Hlen' : length (channels (user_setup m')) = length (channels (user_setup m)))
    by (eapply Forall2_length, pol_channels; exact Hlow).
  apply (call_ok_ret (fun r : NaClApp * Z * SetupList => r.1.1) _ _ _ es); simpl.
  2: { apply evolves_policy; [done|]. rewrite Hm', Hm. simpl. by apply policy_lowered_limits. }
  case_decide.
  - destruct Hres as (_ & _ & Hg & Hsc). eapply rt_inv_same; [exact Hmem| |exact Hrt].
    split; [done|]. by rewrite Hm, Hm'.
  - destruct Hres as (Hcb' & _). split; [by eapply app_inv_same| |done| |].
    + eapply text_bounds_layout; [|done]. apply Hmem.
    + destruct Hmem as (Hl & _). apply layout_inv in Hl as (_ & _ & _ & _ & _ & _ & ->). done.
    + intros m2. rewrite Hm'. intros [= <-]. rewrite Hlen'. by apply Hch.
Qed.

Variable rd_setup : Z -> SetupList.
Hypothesis Hrd : forall a, is_i32 (su_syscallback (rd_setup a)) /\ length (channels (rd_setup a)) = CHANNELS_COUNT.

Lemma Trap_call_ok (arg : nat -> Z) nap es args :
  (forall i, is_u64 (arg i)) -> rt_inv nap es -> call_ok (fun r => r.1.1) nap es (TrapHandler arg rd_setup nap args).
Proof using Hrd.
  intros Harg Hrt. unfold TrapHandler.
  destruct (manifest nap) eqn:Hm; [|eapply (call_ok_ret (fun r => r.1.1)); [exact Hrt|apply evolves_refl]].
  unfold NaClUserToSys. destruct (_ || _); [apply call_ok_fail|]. rewrite M_bind_ret_l. cbv zeta.
  assert (Hi : is_i32 (i32 (arg 4%nat))) by apply i32_range.
  repeat case_match; [apply call_ok_fail| | | |].
  - destruct (Hrd (arg 2%nat)). eapply call_ok_map, UserSetup_call_ok; try done. intros [[n r] h]. by eexists.
  - eapply (call_ok_map fst), transfer_call_ok; try done; [|by left|by left]. intros [n r]. by eexists.
  - eapply (call_ok_map fst), transfer_call_ok; try done; [|by right|by right]. intros [n r]. by eexists.
  - eapply (call_ok_ret (fun r => r.1.1)); [exact Hrt|apply evolves_refl].
Qed.

(** ** Every decoder *)

Lemma decoder_call_ok mem h nap es args :
  rt_inv nap es -> call_ok (fun r => r.1.1) nap es (run_decoder mem rd_setup h nap args).
Proof using All.
  intros Hrt. pose proof (rd32_range mem) as H32. pose proof (rd64_range mem) as H64.
  assert (Hplain : forall m : M (NaClApp * Z), call_ok fst nap es m ->
    call_ok (fun r => r.1.1) nap es (m ≫= fun '(n, r) => mret (n, r, @None SetupList))).
  { intros m Hm. eapply (call_ok_map fst); [|exact Hm]. intros [n r]. by eexists. }
  unfold run_decoder. destruct h; cbv zeta.
  - eapply (call_ok_ret (fun r => r.1.1)); [exact Hrt|apply evolves_refl].
  - by apply Trap_call_ok.
  - by apply Hplain, Sysbrk_call_ok.
  - apply Hplain, call_ok_fail.
  - by apply Hplain, Tls_Init_call_ok.
  - by apply Hplain, Tls_Get_call_ok.
  - eapply (call_ok_ret (fun r => r.1.1)); [exact Hrt|apply evolves_refl].
  - by apply Hplain, Mmap_call_ok.
  - by apply Hplain, Munmap_call_ok.
Qed.

End TrapCalls.

(** ** The hook *)

(** Bookkeeping that touches only counters and flags. *)
Lemma bookkeeping nap nap' es :
  same_memory nap nap' -> g_syscallback nap' = g_syscallback nap ->
  match manifest nap, manifest nap' with
  | Some m, Some m' => su_syscallback (user_setup m') = su_syscallback (user_setup m) /\
      channels (user_setup m') = channels (user_setup m) /\ limits (user_setup m') = limits (user_setup m)
  | None, None => True
  | _, _ => False
  end ->
  rt_inv nap es -> rt_inv nap' es /\ evolves nap es nap' es.
Proof.
  intros Hm Hg Hp Hrt. split.
  - eapply rt_inv_same; [done| |done]. split; [done|]. destruct (manifest nap), (manifest nap'); try done.
    by destruct Hp as (-> & -> & _).
  - apply evolves_policy; [done|]. destruct (manifest nap), (manifest nap'); try done. simpl.
    destruct Hp as (_ & _ & Hl). unfold limits_le. by rewrite Hl.
Qed.

Lemma hook_enter nap es t :
  rt_inv nap es ->
  let nap1 := account_syscall (PauseCpuClock t (nap <| user_side_flag := true |>)) in
  rt_inv nap1 es /\ evolves nap es nap1 es /\ mem_start nap1 = mem_start nap.
Proof.
  intros Hrt nap1. cut ((rt_inv nap1 es /\ evolves nap es nap1 es) /\ mem_start nap1 = mem_start nap); [naive_solver|].
  subst nap1. unfold account_syscall, PauseCpuClock, set_policy.
  split; [|by destruct (manifest nap) eqn:Hm; simpl; rewrite Hm].
  apply bookkeeping; simpl; destruct (manifest nap) eqn:Hm; simpl; rewrite ?Hm; done.
Qed.

Lemma hook_leave nap es t :
  rt_inv nap es ->
  let nap1 := (ResumeCpuClock t nap) <| user_side_flag := false |> in
  rt_inv nap1 es /\ evolves nap es nap1 es.
Proof.
  intros Hrt nap1. subst nap1. unfold ResumeCpuClock, set_policy.
  apply bookkeeping; simpl; destruct (manifest nap) eqn:Hm; simpl; rewrite ?Hm; done.
Qed.

Section Hook.
Context `{Host} (rd_setup : Z -> SetupList).
Hypothesis Hrd : forall a, is_i32 (su_syscallback (rd_setup a)) /\ length (channels (rd_setup a)) = CHANNELS_COUNT.

(** A syscall number selects a decoder of the table or none. *)
Lemma dispatch_call_ok mem nap es sysnum args :
  rt_inv nap es -> 0 <= sysnum ->
  call_ok fst nap es
    (if Z.of_nat NACL_MAX_SYSCALLS <=? sysnum then
       mret (nap <| sysret := u32 (- NACL_ABI_EINVAL) |>, None)
     else
       h ← load syscall_table (Z.to_nat sysnum);
       '(nap, r, hint) ← run_decoder mem rd_setup h nap args;
       mret (nap <| sysret := u32 r |>, hint)).
Proof using All.
  intros Hrt Hnum.
  assert (Hset : forall n es1 r, rt_inv n es1 -> rt_inv (n <| sysret := r |>) es1 /\ evolves n es1 (n <| sysret := r |>) es1).
  { intros n es1 r Hn. apply bookkeeping; simpl; try done. by destruct (manifest n). }
  destruct (_ <=? sysnum) eqn:Hmax; zbool.
  { destruct (Hset nap es (u32 (- NACL_ABI_EINVAL)) Hrt). by eapply call_ok_ret. }
  erewrite load_ok by (apply table_lookup; lia). rewrite M_bind_ret_l.
  pose proof (decoder_call_ok rd_setup Hrd mem (table_spec (Z.to_nat sysnum)) nap es args Hrt) as [Ht Hr].
  unfold call_ok, trace, result, mbind, M_bind in *.
  destruct (run_decoder _ _ _ _ _) as [l [[[n r] hint]|f]]; simpl in *; [|done]. rewrite app_nil_r.
  split; [done|]. intros a [= <-]. simpl. destruct (Hr _ eq_refl) as (es' & Hrt' & Hev). simpl in *.
  exists es'. destruct (Hset n es' (u32 r) Hrt') as [Hs1 Hs2]. split; [exact Hs1|]. by eapply evolves_trans.
Qed.

Lemma evolves_event n1 e1 n2 e2 ev : evolves n1 e1 n2 e2 -> syscall_event n2 ev -> syscall_event n1 ev.
Proof using.
  intros [Hl _ _] Hev. apply layout_inv in Hl as (_ & Hs & _ & _ & Hd & _).
  destruct ev; simpl in *; unfold inside in *; by rewrite <- ?Hs, <- ?Hd.
Qed.

(** Control returns to a bundle head inside the sandbox. *)
Definition sandboxed_pc (nap : NaClApp) (pc : Z) : Prop :=
  inside nap 0 pc 1 /\ pc mod NACL_SYSCALL_BLOCK_SIZE = 0.

Lemma hook_spec mem pause resume nap es sp :
  rt_inv nap es -> is_u64 sp ->
  let m := NaClSyscallCSegHook mem rd_setup syscall_table pause resume nap sp in
  call_ok sw_app nap es m /\
  forall s, result m = Ret s ->
    sandboxed_pc nap (sw_pc s) /\ sw_sp s = u64 (sp + NACL_SYSCALLRET_FIX) /\ user_side_flag (sw_app s) = false.
Proof using All.
  intros Hrt Hsp m. subst m. unfold NaClSyscallCSegHook. cbv zeta.
  destruct (hook_enter nap es pause Hrt) as (Hrt1 & Hev1 & Hms1).
  set (nap1 := account_syscall _) in *.
  match goal with |- context [_ <=? syscall_number nap1 ?t] => set (num := syscall_number nap1 t) end.
  assert (Hnum : 0 <= num) by (apply Z.shiftr_nonneg, u64_range).
  set (args := u64 (_ + NACL_SYSARGS_FIX)).
  pose proof (dispatch_call_ok mem nap1 es num args Hrt1 Hnum) as [Ht Hr].
  unfold call_ok, trace, result, mbind, M_bind in *.
  destruct (if _ <=? num then _ else _) as [l [[n hint]|f]]; simpl in *.
  2: { split; [|done]. split; [|done]. eapply Forall_impl; [exact Ht|]. intros ev. by eapply evolves_event. }
  rewrite app_nil_r. destruct (Hr _ eq_refl) as (es' & Hrt2 & Hev2). simpl in *.
  assert (Hevn : evolves nap es n es') by (by eapply evolves_trans).
  destruct (hook_leave n es' resume Hrt2) as (Hrt3 & Hev3).
  split; [split|].
  - eapply Forall_impl; [exact Ht|]. intros ev. by eapply evolves_event.
  - intros s [= <-]. exists es'. split; [exact Hrt3|]. by eapply evolves_trans.
  - intros s [= <-]. simpl. split_and!; [|done|done]. unfold sandboxed_pc.
    destruct (SandboxCodeAddr_spec n (ai_placed _ _ (rt_app _ _ Hrt2)) 5
      (rd64 mem (u64 (NaClUserToSysStackAddr nap1 sp + NACL_USERRET_FIX)))) as [Hin Hmod].
    + by rewrite (rt_bundle _ _ Hrt2).
    + lia.
    + apply rd64_range.
    + split; [|exact Hmod]. unfold inside in *. destruct Hevn as [Hl _ _].
      apply layout_inv in Hl as (_ & <- & _). exact Hin.
Qed.

End Hook.

(** ** Reachable states

    User code may do anything to user memory and registers between two system
    calls, and the host may answer differently each time, so each step has its
    own host, memory, stack pointer and clock. *)

(** The structure user memory holds has the declared layout. *)
Definition setup_typed (rd_setup : Z -> SetupList) : Prop :=
  forall a, is_i32 (su_syscallback (rd_setup a)) /\ length (channels (rd_setup a)) = CHANNELS_COUNT.

Inductive reachable (nap0 : NaClApp) : list event -> NaClApp -> Prop :=
| reach_start : reachable nap0 [] nap0
| reach_syscall tr nap (h : Host) mem rd_setup pause resume sp l s :
    reachable nap0 tr nap -> setup_typed rd_setup -> is_u64 sp ->
    NaClSyscallCSegHook mem rd_setup syscall_table pause resume nap sp = (l, Ret s) ->
    reachable nap0 (tr ++ l) (sw_app s).

Lemma reachable_inv nap0 es0 tr nap :
  rt_inv nap0 es0 -> reachable nap0 tr nap ->
  exists es, rt_inv nap es /\ evolves nap0 es0 nap es /\ Forall (syscall_event nap0) tr.
Proof.
  intros Hrt. induction 1 as [|tr nap h mem rd_setup pause resume sp l s _ (es & Hi & He & Hf) Hrd Hsp Heq].
  { exists es0. split_and!; [done|apply evolves_refl|done]. }
  destruct (hook_spec rd_setup Hrd mem pause resume nap es sp Hi Hsp) as [[Ht Hr] _].
  rewrite Heq in Ht, Hr. destruct (Hr s eq_refl) as (es' & Hi' & He'). exists es'.
  split_and!; [done|by eapply evolves_trans|]. apply Forall_app. split; [done|].
  eapply Forall_impl; [exact Ht|]. intros ev. by eapply evolves_event.
Qed.
