(* ===== verification/Sample.v ===== *)
(** * A concrete application

    A small loaded program: null page, trampolines and code, data and heap,
    stack at the top of the address space, one manifest.  It satisfies the
    invariants of the other files and is the input of their witnesses. *)

From S2P Require Import Prelude Effects Rounding Bytes MemObj Vmmap VmmapSpec VmmapCompact.
From S2P Require Import VmmapUpdate VmmapFind DynArray Policy App HostDesc Memory MemorySafe Sysbrk.
From S2P Require Import Mmap Trap Syscalls Isolation.

(** ** Deciding the invariants on concrete maps *)

(** The map with exactly these entries, in order. *)
Definition map_of (es : list NaClVmmapEntry) : NaClVmmap :=
  mkVmmap (Some <$> es) (length es) (length es) true.

Lemma map_of_inv es :
  es <> [] -> forallb entry_ok es = true -> ascending 0 es = true -> vm_inv (map_of es) es.
Proof.
  intros Hne Hok Hasc. eapply ascending_vm_inv; [|done|done].
  split; simpl; try done; try (by rewrite length_fmap).
  - unfold holds. simpl. rewrite <- (length_fmap Some es). apply firstn_all.
  - destruct es; simpl; [done|lia].
Qed.

(** ** The program *)

Definition sample_entries : list NaClVmmapEntry := [
  mkVmmapEntry 0 16 PROT_NONE None false;                        (* null pages *)
  mkVmmapEntry 16 32 (Z.lor PROT_READ PROT_EXEC) None false;     (* trampolines, code *)
  mkVmmapEntry 48 16 (Z.lor PROT_READ PROT_WRITE) None false;    (* data and heap *)
  mkVmmapEntry 1044480 4096 (Z.lor PROT_READ PROT_WRITE) None false ].  (* stack *)

Definition sample_channel (handle : Z) : PreOpenedFileDesc :=
  mkChannel sizeof_PreOpenedFileDesc (Some "file") 0 LOADED handle 1000 0 0 1000 10 10 100 100 0 0 0 0.

Definition sample_policy : SetupList :=
  mkSetup sizeof_SetupList 0 0 60 1000 5 0 0 0 0 0 "" "" "" "" 0 (sample_channel <$> [3; 4; 5; 6; 7]).

Definition sample_manifest : Manifest := mkManifest [] sample_policy None None.

Definition sample_desc_tbl : DynArray Z := mkDynArray 0 [None; None] 2 [0] 0.

Definition sample_app : NaClApp :=
  mkApp 32 NACL_DEFAULT_STACK_MAX (2 ^ 36) 196608 196608 196608 0 196608 200704 131072 0 32
    (map_of sample_entries) false None None [] 0 0 0 0 (-1) false false false false 0 204800 sample_desc_tbl
    (Some sample_manifest) false 0 0 0.

Lemma good_host_grants : grants_map (H := good_host).
Proof. split; [done|]. intros a n p f d o _. done. Qed.

Lemma sample_desc : da_inv sample_desc_tbl.
Proof.
  assert (Hs : forall i, slots sample_desc_tbl i = None).
  { intros i. unfold slots, sample_desc_tbl. simpl. case_decide; [|done].
    destruct (Z.to_nat i) as [|[|k]]; done. }
  split; simpl; try done.
  - by repeat constructor.
  - intros i Hi. rewrite Hs. split; [|by intros [? [=]]]. unfold bit. simpl.
    intros Hb. exfalso. revert Hb. destruct (Z.to_nat (i / 32)); simpl; by rewrite ?Z.bits_0.
  - split; [done|]. lia.
  - split; [done|]. intros i. rewrite Hs. by intros [? [=]].
Qed.

Lemma sample_pages p i :
  lookup_page sample_entries p = Some i ->
  0 <= p < PAGE_COUNT /\ (48 <= p -> Z.land (pg_prot i) PROT_EXEC = 0).
Proof.
  unfold sample_entries, PAGE_COUNT. simpl. unfold covers, end_page. simpl.
  repeat (case_decide as Hd; [intros [= <-]; destruct Hd; split; [lia|]; simpl; try done; lia|clear Hd]).
  done.
Qed.

Lemma sample_inv : app_inv sample_app sample_entries.
Proof.
  split.
  - split; done.
  - apply map_of_inv; [done|vm_compute; reflexivity..].
  - split.
    + intros p i Hi. apply (sample_pages p i Hi).
    + intros p i Hi. apply (sample_pages p i Hi).
    + exists 0. split; [done|]. by eexists.
  - done.
  - done.
  - apply sample_desc.
Qed.

Lemma sample_rt : rt_inv sample_app sample_entries.
Proof.
  split.
  - apply sample_inv.
  - split; done.
  - by left.
  - done.
  - by intros m [= <-].
Qed.

Lemma sample_channels : channels_ok sample_app.
Proof.
  unfold channels_ok, app_channels. simpl.
  assert (Hc : forall h, channel_ok (sample_channel h)) by (intros h; split; try split; simpl; zlia).
  by repeat constructor; apply Hc.
Qed.

Lemma sample_setup_typed : setup_typed (fun _ => sample_policy).
Proof. intros a. split; done. Qed.

(** User memory with all bytes zero, except a stack at [ms + 65536], for a
    sandbox at [ms], that calls munmap. *)
Definition munmap_stack (ms : Z) : user_memory := fun a =>
  let word (base v : Z) := if (base <=? a) && (a <? base + 8) then Z.shiftr v (8 * (a - base)) else 0 in
  (* trampoline return address, return address, arguments *)
  word (ms + 65536) (ms + 65536 + 22 * 32) + word (ms + 65544) 131104
    + word (ms + 65536 - 24) (Z.shiftl 65536 32 + 262144).
