(* ===== verification/MapProperties.v ===== *)
(** * Properties of the memory map and the descriptor table

    The promises of sel_mem.c, dyn_array.c and the rounding functions, with
    concrete instances. *)

From S2P Require Import Prelude Effects Rounding MemObj Vmmap VmmapSpec VmmapCompact VmmapUpdate.
From S2P Require Import VmmapFind DynArray Policy App HostDesc Memory MemorySafe Sysbrk Mmap Trap.
From S2P Require Import Syscalls Isolation Sample.

Lemma sample_vm : vm_inv (map_of sample_entries) sample_entries.
Proof. apply map_of_inv; [done|vm_compute; reflexivity..]. Qed.

(** C11: NaClVmmapUpdate refines the update of the page function, for an
    interval of one or more pages below page 2^31.  Whatever the allocator does,
    an update that returns has given the pages of the interval the new mapping
    (none when remove is set) and left every other page its protection, its
    backing descriptor and its offset in it, although entries are split,
    trimmed, marked, added, compacted and re-sorted; the map stays well formed.
    It does return when no allocation fails and some page outside the interval
    is mapped (or the map is empty, or nothing is removed). *)
Theorem vmmap_update_refines `{Host} self es pn np pr mo remove :
  vm_inv self es -> 0 <= pn -> 0 < np -> pn + np < PAGE_LIMIT ->
  (forall l self', NaClVmmapUpdate self pn np pr mo remove = (l, Ret self') ->
     exists es', vm_inv self' es' /\
       same_pages (lookup_page es')
         (override (lookup_page es) pn (pn + np) (lookup_page (new_entries pn np pr mo remove)))) /\
  ((forall n, malloc_ok n = true) -> survives es pn np remove ->
     exists l self', NaClVmmapUpdate self pn np pr mo remove = (l, Ret self')).
Proof.
  intros Hinv Hpn Hnp Hlim. split.
  - intros l self' Heq. destruct (Update_returns self es pn np pr mo remove l self') as (es' & ? & ? & _); try done.
    by exists es'.
  - intros Hm Hs. destruct (Update_spec self es pn np pr mo remove) as (l & self' & es' & ? & _); try done.
    by exists l, self'.
Qed.

Lemma vmmap_update_refines_witness :
  exists l self' es',
    NaClVmmapUpdate (H:=good_host) (map_of sample_entries) 52 4 PROT_READ None false = (l, Ret self') /\
    vm_inv self' es' /\ same_pages (lookup_page es')
      (override (lookup_page sample_entries) 52 56 (lookup_page (new_entries 52 4 PROT_READ None false))).
Proof.
  destruct (vmmap_update_refines (H:=good_host) (map_of sample_entries) sample_entries 52 4 PROT_READ None false)
    as [Hr Ht]; [apply sample_vm|done..|].
  destruct Ht as (l & self' & Heq); [done|by left|]. exists l, self'.
  destruct (Hr l self' Heq) as (es' & ? & ?). by exists es'.
Defined.

(** C30: NaClVmmapUpdate accounts for the references to descriptors.  Whatever
    the allocator does, when an update of one or more pages below page 2^31
    returns, for every descriptor: the references taken minus those released,
    plus the entries that held it before, plus the reference the caller hands
    over with the new entry, is the number of entries that hold it afterwards;
    none is leaked or dropped twice. *)
Theorem vmmap_update_refcounts `{Host} self es pn np pr mo remove l self' :
  vm_inv self es -> 0 <= pn -> 0 < np -> pn + np < PAGE_LIMIT ->
  NaClVmmapUpdate self pn np pr mo remove = (l, Ret self') ->
  exists es', vm_inv self' es' /\
    forall d, net d l + refs d es + refs d (new_entries pn np pr mo remove) = refs d es'.
Proof.
  intros Hinv Hpn Hnp Hlim Heq.
  destruct (Update_returns self es pn np pr mo remove l self') as (es' & ? & _ & ?); try done.
  by exists es'.
Qed.

(** A file mapped over ten pages, to be unmapped in the middle. *)
Definition mapped_file : list NaClVmmapEntry :=
  [mkVmmapEntry 32 10 PROT_READ (Some (mkMemObj 7 40960 0)) false].

Lemma mapped_file_vm : vm_inv (map_of mapped_file) mapped_file.
Proof. apply map_of_inv; [done|vm_compute; reflexivity..]. Qed.

Lemma mapped_file_split :
  exists l self', NaClVmmapUpdate (H:=good_host) (map_of mapped_file) 34 2 0 None true = (l, Ret self') /\
    l = [DescRef 7].
Proof. eexists _, _. vm_compute. split; reflexivity. Qed.

Lemma vmmap_update_refcounts_witness :
  exists self' es',
    NaClVmmapUpdate (H:=good_host) (map_of mapped_file) 34 2 0 None true = ([DescRef 7], Ret self') /\
    vm_inv self' es' /\
    forall d, net d [DescRef 7] + refs d mapped_file + refs d (new_entries 34 2 0 None true) = refs d es'.
Proof.
  destruct mapped_file_split as (l & self' & Heq & ->). exists self'.
  destruct (vmmap_update_refcounts (H:=good_host) (map_of mapped_file) mapped_file 34 2 0 None true [DescRef 7] self')
    as (es' & ? & ?); [apply mapped_file_vm|done..|]. by exists es'.
Defined.

(** Removing every mapped page crashes the runtime: NaClVmmapRemoveMarked
    tests [vmentry[0]->removed] after it has set that slot to NULL. *)
Theorem vmmap_update_remove_all_crashes `{Host} self es pn np pr mo :
  (forall n, malloc_ok n = true) -> vm_inv self es -> es <> [] ->
  0 <= pn -> 0 < np -> pn + np < PAGE_LIMIT ->
  (forall p, is_Some (lookup_page es p) -> pn <= p < pn + np) ->
  result (NaClVmmapUpdate self pn np pr mo true) = Fault NullDeref.
Proof. apply Update_remove_all. Qed.

Lemma vmmap_update_remove_all_crashes_witness :
  result (NaClVmmapUpdate (H:=good_host) (map_of mapped_file) 32 10 0 None true) = Fault NullDeref.
Proof.
  apply (vmmap_update_remove_all_crashes (H:=good_host) _ mapped_file); try done.
  - apply mapped_file_vm.
  - intros p [i Hi]. simpl in Hi. case_decide as Hd; [|done]. destruct Hd as [_ Hc].
    unfold covers, end_page in Hc. simpl in Hc. lia.
Defined.

(** C31: NaClVmmapFindPage finds the entry that covers a page, and NULL only
    when no entry does, whatever the order of the array: binary search after
    sorting with a comparator that truncates to [int]. *)
Theorem vmmap_find_page self es pn :
  vm_inv self es ->
  exists l self' es' r, NaClVmmapFindPage self pn = (l, Ret (self', r)) /\
    queried self es self' es' l /\
    match r with
    | Some e => e ∈ es /\ covers e pn
    | None => forall e, e ∈ es -> ~ covers e pn
    end.
Proof. apply FindPage_spec. Qed.

Lemma vmmap_find_page_witness :
  exists l self' es' r, NaClVmmapFindPage (map_of sample_entries) 50 = (l, Ret (self', r)) /\
    queried (map_of sample_entries) sample_entries self' es' l /\
    match r with
    | Some e => e ∈ sample_entries /\ covers e 50
    | None => forall e, e ∈ sample_entries -> ~ covers e 50
    end.
Proof. apply vmmap_find_page, sample_vm. Defined.

(** NaClVmmapFindMapSpace returns the highest 64 KB aligned hole between
    two mappings that has room for the rounded number of pages, and 0 exactly
    when there is none. *)
Theorem vmmap_find_map_space self es n :
  vm_inv self es -> es <> [] -> 0 < n <= two64 - 16 ->
  exists l self' es' r, NaClVmmapFindMapSpace self n = (l, Ret (self', r)) /\
    queried self es self' es' l /\
    highest_hole 16 (lookup_page es') (NaClRoundPageNumUpToMapMultiple n) r.
Proof. apply FindMapSpace_spec. Qed.

Lemma vmmap_find_map_space_witness :
  exists l self' es' r, NaClVmmapFindMapSpace (map_of sample_entries) 20 = (l, Ret (self', r)) /\
    queried (map_of sample_entries) sample_entries self' es' l /\
    highest_hole 16 (lookup_page es') (NaClRoundPageNumUpToMapMultiple 20) r.
Proof. apply vmmap_find_map_space; [apply sample_vm|done|done]. Defined.

(** C32: NaClVmmapFindMapSpaceAboveHint, for a 64 KB aligned hint and a map that
    is not empty, returns the lowest 64 KB aligned hole at or above the hint
    that lies between two mappings and has room for the request, rounded up to
    64 KB, and 0 exactly when there is no such hole: free space above the last
    mapping is never offered, a lower hole is never passed over and a hole that
    is too small never returned. *)
Theorem vmmap_find_map_space_above_hint self es uaddr n :
  vm_inv self es -> es <> [] -> 0 < n <= two64 - 16 -> is_u64 uaddr -> alloc_aligned uaddr ->
  exists l self' es' r, NaClVmmapFindMapSpaceAboveHint self uaddr n = (l, Ret (self', r)) /\
    queried self es self' es' l /\
    lowest_hole (lookup_page es') (uaddr / 4096) (NaClRoundPageNumUpToMapMultiple n) r.
Proof. apply FindMapSpaceAboveHint_spec. Qed.

Lemma vmmap_find_map_space_above_hint_witness :
  exists l self' es' r,
    NaClVmmapFindMapSpaceAboveHint (map_of sample_entries) 1048576 20 = (l, Ret (self', r)) /\
    queried (map_of sample_entries) sample_entries self' es' l /\
    lowest_hole (lookup_page es') (1048576 / 4096) (NaClRoundPageNumUpToMapMultiple 20) r.
Proof. apply vmmap_find_map_space_above_hint; [apply sample_vm|done..]. Defined.

(** NaClVmmapFindSpace returns the highest hole with room for [n] pages. *)
Theorem vmmap_find_space self es n :
  vm_inv self es -> es <> [] -> 0 < n < PAGE_LIMIT ->
  exists l self' es' r, NaClVmmapFindSpace self n = (l, Ret (self', r)) /\
    queried self es self' es' l /\ highest_hole 1 (lookup_page es') n r.
Proof. apply FindSpace_spec. Qed.

Lemma vmmap_find_space_witness :
  exists l self' es' r, NaClVmmapFindSpace (map_of sample_entries) 3 = (l, Ret (self', r)) /\
    queried (map_of sample_entries) sample_entries self' es' l /\ highest_hole 1 (lookup_page es') 3 r.
Proof. apply vmmap_find_space; [apply sample_vm|done|done]. Defined.

(** NaClVmmapRemoveMarked compacts the array in place to exactly the live
    entries, and releases the reference of each entry it removes, once. *)
Theorem vmmap_remove_marked self es :
  repr self es -> es <> [] -> Exists live es ->
  exists l self' es',
    NaClVmmapRemoveMarked self = (l, Ret self') /\ repr self' es' /\
    es' ≡ₚ filter live es /\ is_sorted self' = false /\ vmsize self' = vmsize self /\
    unrefs (filter (fun x => ~ live x) es) l.
Proof. apply RemoveMarked_spec. Qed.

Lemma vmmap_remove_marked_witness :
  let es := [mkVmmapEntry 1 1 0 None true; mkVmmapEntry 2 1 0 None false; mkVmmapEntry 3 1 0 None true] in
  exists l self' es',
    NaClVmmapRemoveMarked (map_of es) = (l, Ret self') /\ repr self' es' /\
    es' ≡ₚ filter live es /\ is_sorted self' = false /\ vmsize self' = vmsize (map_of es) /\
    unrefs (filter (fun x => ~ live x) es) l.
Proof.
  intros es. apply vmmap_remove_marked; [|done|right; by left].
  split; simpl; [done|done|done|lia].
Defined.

(** When NaClVmmapEntryMake cannot allocate the entry, NaClVmmapAdd still
    reports success and stores NULL in the array. *)
Theorem vmmap_add_null_entry `{Host} self pn np pr mo :
  (nvalid self < vmsize self)%nat -> vmsize self = length (vmentry self) ->
  malloc_ok sizeof_NaClVmmapEntry = false ->
  exists self', NaClVmmapAdd self pn np pr mo = ([], Ret (true, self')) /\
    vmentry self' !! nvalid self = Some None /\ nvalid self' = S (nvalid self).
Proof.
  intros Hlt Hsz Hm. unfold NaClVmmapAdd, NaClVmmapEntryMake. rewrite Hm.
  replace (nvalid self =? vmsize self)%nat with false by (symmetry; apply Nat.eqb_neq; lia).
  rewrite store_ok by lia. rewrite M_bind_ret_l. eexists. split; [done|]. simpl.
  split; [|done]. apply list_lookup_insert_eq. lia.
Qed.

(** A host whose allocator is out of memory. *)
Definition no_memory : Host := {|
  malloc_ok := fun _ => false; host_mprotect := @host_mprotect good_host;
  host_madvise := @host_madvise good_host; host_mmap := @host_mmap good_host;
  host_munmap := @host_munmap good_host; host_errno := 12; host_fstat := @host_fstat good_host;
  host_pread := @host_pread good_host; host_pwrite := @host_pwrite good_host |}.

Lemma vmmap_add_null_entry_witness :
  let self := mkVmmap [None] 0 1 true in
  exists self', NaClVmmapAdd (H:=no_memory) self 5 1 0 None = ([], Ret (true, self')) /\
    vmentry self' !! nvalid self = Some None /\ nvalid self' = S (nvalid self).
Proof. intros self. apply (vmmap_add_null_entry (H:=no_memory)); simpl; [lia|done|done]. Defined.

(** ** Dynamic arrays *)

(** After DynArraySet the array holds the new element at its index and what
    it held before everywhere else, as DynArrayGet reads it, also when the
    array had to grow. *)
Theorem dyn_array_set_get `{Host} (d : DynArray Z) idx ptr :
  (forall n, malloc_ok n = true) -> da_inv d -> 0 <= idx < SPACE_LIMIT / 2 ->
  exists d', DynArraySet d idx ptr = mret (true, d') /\ da_inv d' /\
    forall i, 0 <= i -> DynArrayGet d' i = (if decide (i = idx) then mret ptr else DynArrayGet d i).
Proof.
  intros Hm Hd Hi. destruct (Set_spec d idx ptr) as (d' & Heq & Hd' & Hs); try done.
  exists d'. split_and!; try done. intros i Hi0. rewrite (Get_spec d'), Hs by done.
  case_decide; [done|]. by rewrite Get_spec.
Qed.

Lemma dyn_array_set_get_witness :
  exists d', DynArraySet (H:=good_host) sample_desc_tbl 40 (Some 9) = mret (true, d') /\ da_inv d' /\
    forall i, 0 <= i ->
      DynArrayGet d' i = (if decide (i = 40) then mret (Some 9) else DynArrayGet sample_desc_tbl i).
Proof. apply (dyn_array_set_get (H:=good_host)); [done|apply sample_desc|done]. Defined.

(** DynArrayFirstAvail returns the least free index; the scan of the bitmap
    with ffs and its cached word index never miss one. *)
Theorem dyn_array_first_avail (d : DynArray Z) :
  da_inv d ->
  exists d' r, DynArrayFirstAvail d = mret (d', r) /\ da_inv d' /\
    (forall i, slots d' i = slots d i) /\ 0 <= r <= ptr_array_space d /\ slots d r = None /\
    forall j, 0 <= j < r -> is_Some (slots d j).
Proof. apply FirstAvail_spec. Qed.

Lemma dyn_array_first_avail_witness :
  exists d' r, DynArrayFirstAvail sample_desc_tbl = mret (d', r) /\ da_inv d' /\
    (forall i, slots d' i = slots sample_desc_tbl i) /\ 0 <= r <= ptr_array_space sample_desc_tbl /\
    slots sample_desc_tbl r = None /\ forall j, 0 <= j < r -> is_Some (slots sample_desc_tbl j).
Proof. apply dyn_array_first_avail, sample_desc. Defined.

(** NaClSetAvail installs a descriptor at the least free number; NaClGetDesc
    then returns it with a new reference, and other numbers are unaffected. *)
Theorem set_avail_get_desc `{Host} nap r :
  (forall n, malloc_ok n = true) -> da_inv (desc_tbl nap) -> ptr_array_space (desc_tbl nap) < two31 ->
  exists nap' pos, NaClSetAvail nap (Some r) = ([], Ret (nap', pos)) /\
    da_inv (desc_tbl nap') /\ slots (desc_tbl nap) pos = None /\
    (forall i, slots (desc_tbl nap') i = if decide (i = pos) then Some r else slots (desc_tbl nap) i) /\
    nap' = nap <| desc_tbl := desc_tbl nap' |> /\
    NaClGetDesc nap' pos = ([DescRef r], Ret (Some r)).
Proof. apply SetAvail_spec. Qed.

Lemma set_avail_get_desc_witness :
  exists nap' pos, NaClSetAvail (H:=good_host) sample_app (Some 5) = ([], Ret (nap', pos)) /\
    da_inv (desc_tbl nap') /\ slots (desc_tbl sample_app) pos = None /\
    (forall i, slots (desc_tbl nap') i = if decide (i = pos) then Some 5 else slots (desc_tbl sample_app) i) /\
    nap' = sample_app <| desc_tbl := desc_tbl nap' |> /\
    NaClGetDesc nap' pos = ([DescRef 5], Ret (Some 5)).
Proof. apply (set_avail_get_desc (H:=good_host)); [done|apply sample_desc|done]. Defined.

(** ** Rounding *)

(** Rounding up to the allocation granularity gives the least multiple of
    64 KB at or above the argument, below the last 64 KB of the address
    range; above it the sum wraps and the result is 0. *)
Theorem round_alloc_page x :
  is_u64 x ->
  if decide (x <= two64 - 65536) then
    alloc_aligned (NaClRoundAllocPage x) /\ x <= NaClRoundAllocPage x /\
    forall y, alloc_aligned y -> x <= y -> NaClRoundAllocPage x <= y
  else NaClRoundAllocPage x = 0.
Proof.
  intros Hx. case_decide as Hd.
  - destruct (NaClRoundAllocPage_spec x) as (Ha & Hb & _); [zlia|]. split_and!; [done|lia|].
    intros y Hy Hxy. apply (round_least 65536 x); done || lia.
  - rewrite NaClRoundAllocPage_val. unfold u64.
    rewrite <- (Z_mod_plus_full (x + 65535) (-1) two64), (Z.mod_small (_ + _) two64) by zlia.
    rewrite Z.mod_small; zlia.
Qed.

Lemma round_alloc_page_witness :
  if decide (70000 <= two64 - 65536) then
    alloc_aligned (NaClRoundAllocPage 70000) /\ 70000 <= NaClRoundAllocPage 70000 /\
    forall y, alloc_aligned y -> 70000 <= y -> NaClRoundAllocPage 70000 <= y
  else NaClRoundAllocPage 70000 = 0.
Proof. apply round_alloc_page. done. Defined.
