(* ===== verification/LoadProperties.v ===== *)
(** * Properties of loading and of dynamic code

    What holds of a program after NaClAppLoadFile, of code inserted at run
    time, and a layout the protections do not cover. *)

From S2P Require Import Prelude Effects Rounding Bytes Gio MemObj Vmmap VmmapSpec VmmapCompact.
From S2P Require Import DynArray Policy App HostDesc Elf Memory MemorySafe AddrSpace Validate.
From S2P Require Import DynText DynCode Trampoline Loader LoaderSpec SampleImage Trap MainThread.

(** ** Loading *)

(** C9: a loaded program is laid out as a sandbox.  From a newly constructed
    application, if NaClAppLoadFile returns LOAD_OK then: the regions are in
    order inside the 4 GB space; the memory map holds exactly the regions of
    the image and satisfies the invariant the system calls preserve; the entry
    point is a bundle head below the end of the text; every syscall block
    calls the dispatch thunk; with the validator in force, the text in memory
    is text it accepted; and no byte outside the image and the thunk page has
    changed.  Conditions: the text padded with its halt sled ends at or below
    the start of the dynamic text and there is a rodata or data segment
    ([separated]); the address of the kernel's reservation is a user address;
    the allocator has memory for the entries of the map; the thunk page is new
    and the two code templates lie in the runtime; file and validator obey
    their interfaces. *)
Theorem load_file_correct {G : Type} `{HG : Gio G} `{HL : !GioLaws G} `{HH : Host} `{HS : Shm} `{HV : Validator}
    `{HVL : !ValidatorLaws} `{HSy : Symbols} rng (gp : G) shm nap m l gp' nap' m' :
  malloc_ok sizeof_NaClVmmapEntry = true -> user_reservation ->
  gio_ok gp -> NaClAppWithSyscallTableCtor shm = Some nap ->
  NaClAppLoadFile rng gp nap m = (l, Ret (gp', nap', m', LOAD_OK)) ->
  linked nap' m -> fresh_page nap' (dispatch_thunk nap') -> separated nap' -> loaded nap' m m'.
Proof.
  intros He Hr Hg Hc Hrun. exact (LoadFile_spec He rng gp nap m l gp' nap' m' Hg (Ctor_fresh shm nap Hc) Hr Hrun).
Qed.

Lemma load_file_correct_witness :
  exists nap l gp' nap' m', new_app = Some nap /\
    load_run tiny_file nap = (l, Ret (gp', nap', m', LOAD_OK)) /\
    loaded (HV := load_validator) (HSy := load_symbols) nap' runtime_memory m'.
Proof.
  destruct tiny_loads as (nap & l & gp' & nap' & m' & Hnew & Hrun & Hlink & Hfresh & Hsep).
  exists nap, l, gp', nap', m'. split; [exact Hnew|]. split; [exact Hrun|].
  exact (load_file_correct (HH := load_host) (HS := load_shm) (HV := load_validator) (HSy := load_symbols)
    (fun _ => 1000) tiny_file false nap runtime_memory l gp' nap' m' eq_refl
    load_host_reserves tiny_file_ok Hnew Hrun Hlink Hfresh Hsep).
Defined.

(** C23: accepted program headers.  When NaClElfImageValidateProgramHeaders
    accepts, every segment that will be loaded lies between the end of the
    trampolines and the highest address, below 4 GB, with its file part inside
    its memory part; the text is present and starts right above the
    trampolines. *)
Theorem program_headers_bounded image out image' out' :
  Forall phdr_typed (phdrs image) -> sl_rodata_start out = 0 -> sl_data_start out = 0 ->
  NaClElfImageValidateProgramHeaders image 32 out = inr (image', out') ->
  program_ok image' out' /\ phdrs image' = phdrs image /\ ehdr image' = ehdr image.
Proof. apply ProgramHeaders_spec. Qed.

Definition tiny_phdrs : list Elf_Phdr := phdrs_of_bytes 2 (drop 64 tiny_elf).
Definition tiny_image : NaClElfImage := mkImage (ehdr_of_bytes tiny_elf) tiny_phdrs [false; false].

Lemma program_headers_bounded_witness :
  exists image' out', program_ok image' out' /\ sl_max_vaddr out' = 200704.
Proof.
  destruct (NaClElfImageValidateProgramHeaders tiny_image 32 (mkSegs 0 0 0 0 0 0)) as [e|[image' out']] eqn:Hv;
    [vm_compute in Hv; discriminate Hv|].
  exists image', out'. split; [|vm_compute in Hv; injection Hv as <- <-; reflexivity].
  apply (program_headers_bounded tiny_image (mkSegs 0 0 0 0 0 0) image' out');
    [apply phdrs_of_bytes_typed|reflexivity|reflexivity|exact Hv].
Defined.

(** C22: loading the segments.  NaClElfImageLoad of an accepted image from a
    memory file never aborts; it reports a bad segment, or returns a memory in
    which every byte of a loaded segment (not overwritten by a later one) is
    the byte of the file and every other byte is unchanged, also outside the
    span between the trampolines and the highest address. *)
Theorem elf_load_correct image out gp mem_start mem :
  gio_inv gp -> program_ok image out -> Forall phdr_typed (phdrs image) ->
  0 <= mem_start -> mem_start + two32 < two64 ->
  exists gp' r, NaClElfImageLoad image gp 32 mem_start mem = mret (gp', r) /\
    match r with
    | inl e => e = LOAD_SEGMENT_BAD_PARAM
    | inr mem' =>
        image_in_memory image (gm_buffer gp) mem_start mem mem' /\
        forall x, x < mem_start + NACL_TRAMPOLINE_END \/ mem_start + sl_max_vaddr out <= x -> mem' x = mem x
    end.
Proof.
  intros Hg Hok Hty Hms Hme. pose proof (ElfImageLoad_spec image out gp mem_start mem) as Hs.
  destruct (Hs Hg Hok Hty Hms Hme) as (gp' & r & Hrun & _ & Hr). exists gp', r. split; [done|]. destruct r as [e|mem']; [done|].
  split; [|done]. by apply (ElfImageLoad_contents image out gp mem_start mem gp' mem').
Qed.

Definition tiny_loadable : NaClElfImage := tiny_image <| loadable := [true; true] |>.

Lemma elf_load_correct_witness :
  exists gp' mem', NaClElfImageLoad tiny_loadable tiny_file 32 (2 ^ 36) runtime_memory = mret (gp', inr mem') /\
    mem' (2 ^ 36) = 0 /\ mem' (2 ^ 36 + 196611) = 4.
Proof.
  destruct (elf_load_correct tiny_loadable (mkSegs 131104 0 0 196608 200704 200704)
    tiny_file (2 ^ 36) runtime_memory) as (gp' & r & Hload & Hr).
  - apply Ctor_inv. vm_compute. reflexivity.
  - split; [done|done|by left|by right|].
    apply Forall2_cons; split; [intros _; by split_and!|]. apply Forall2_cons; split; [intros _; by split_and!|apply Forall2_nil_2].
  - apply phdrs_of_bytes_typed.
  - done.
  - done.
  - destruct r as [e|mem'].
    + exfalso. assert (Hs : match NaClElfImageLoad tiny_loadable tiny_file 32 (2 ^ 36) runtime_memory
        with (_, Ret (_, inr _)) => true | _ => false end = true) by (vm_compute; reflexivity).
      by rewrite Hload in Hs.
    + exists gp', mem'. split; [exact Hload|]. destruct Hr as [[Hin _] Hr]. split.
      * rewrite Hr by (left; reflexivity). vm_compute. reflexivity.
      * assert (Hb : Some 4 = Some (mem' (2 ^ 36 + 196611))); [|by injection Hb].
        rewrite <- (Hin 1%nat (phdr_of_bytes (drop 120 tiny_elf)) 196611); try done.
        intros j q Hj Hq. by destruct j as [|[|j]]; [lia|lia|].
Defined.

(** ** Dynamic code *)


(** An application with one page of dynamic text, and the insertion of one
    bundle of NOPs into it. *)
Definition dyn_app : NaClApp :=
  mkApp 32 NACL_DEFAULT_STACK_MAX (2 ^ 36) 196608 196608 262144 0 262144 266240 131072 0 32
    (mkVmmap [None] 0 1 true) true (Some 7) (Some [0]) [] 0 0 0 0 (-1) false false false false 0 266240
    (mkDynArray 0 [None] 1 [0] 0) None false 0 0 0.

Definition dyn_shm : Shm := {|
  shm_AllocCtor := fun _ => Some 7;
  shm_Map := fun _ _ _ _ _ _ => 2 ^ 40;
  shm_UnmapUnsafe := fun _ _ _ => 0;
|}.

Definition nop_buffer : memory := mem_fill (fun _ => 0) 8192 32 144.

Abbreviation dyn_run :=
  (NaClTextDyncodeCreate (H := load_host) (H0 := dyn_shm) (H1 := load_validator)
    dyn_app nop_buffer 196640 8192 32).

Lemma dyn_shm_ok : shm_map_ok (HS := dyn_shm).
Proof. intros d len prot off Hlen a _. unfold is_u32 in Hlen. subst a. simpl. split_and!; [done|done|zlia]. Qed.

Lemma dyn_app_ok : dyntext_ok 5 dyn_app.
Proof. split; try done; try by split. split; [by repeat constructor|done]. Qed.

Lemma dyn_run_ok : match dyn_run with (_, Ret (_, _, r)) => r = 0 | _ => False end.
Proof. vm_compute. reflexivity. Qed.


(** C24: the safe order of a code copy.  For less than 2 GB of whole bundles, with
    source and destination apart, CopyCodeSafelyInitial runs in two passes:
    after the first, CopyBundleTails, the first word of every bundle is still
    the old one and everything else is copied; after the second the code is in
    place and nothing else has changed. *)
Theorem code_copy_heads_last k dest src c m :
  2 <= k -> dest mod 2 ^ k = 0 -> apart dest src (2 ^ k * Z.of_nat c) -> 2 ^ k * Z.of_nat c < two31 ->
  exists m1 m2,
    CopyBundleTails m dest src (i32 (2 ^ k * Z.of_nat c)) (2 ^ k) = mret m1 /\
    CopyBundleHeads m1 dest src (2 ^ k * Z.of_nat c) (2 ^ k) = mret m2 /\
    CopyCodeSafelyInitial m dest src (2 ^ k * Z.of_nat c) (2 ^ k) = mret m2 /\
    (forall x, dest <= x < dest + 2 ^ k * Z.of_nat c -> (x - dest) mod 2 ^ k < 4 -> m1 x = m x) /\
    (forall x, dest <= x < dest + 2 ^ k * Z.of_nat c -> 4 <= (x - dest) mod 2 ^ k -> m1 x = m (src + (x - dest))) /\
    (forall i, 0 <= i < 2 ^ k * Z.of_nat c -> m2 (dest + i) = m (src + i)) /\
    (forall x, ~ dest <= x < dest + 2 ^ k * Z.of_nat c -> m1 x = m x /\ m2 x = m x).
Proof.
  intros Hk Hd Hap Hs. destruct (CopyBundleTails_spec k Hk dest src c Hd Hap m) as (m1 & H1 & Ho1 & Hh & Ht).
  destruct (CopyCodeSafelyInitial_spec k Hk dest src c Hd Hap m Hs) as (m2 & H2 & Ho2 & Hc).
  assert (Hi : i32 (2 ^ k * Z.of_nat c) = 2 ^ k * Z.of_nat c).
  { apply i32_small. pose proof (Z.pow_pos_nonneg 2 k). split; [nia|zlia]. }
  exists m1, m2. rewrite Hi. split_and!; try done.
  - pose proof H2 as H3. unfold CopyCodeSafelyInitial in H3. by rewrite Hi, H1, M_bind_ret_l in H3.
  - intros x Hx. split; [by apply Ho1|by apply Ho2].
Qed.

Lemma code_copy_heads_last_witness :
  exists m2, CopyCodeSafelyInitial nop_buffer 65536 8192 32 32 = mret m2 /\ m2 65567 = 144.
Proof.
  destruct (code_copy_heads_last 5 65536 8192 1 nop_buffer) as (m1 & m2 & _ & _ & H2 & _ & _ & Hc & _).
  - done.
  - done.
  - right. done.
  - done.
  - exists m2. split; [exact H2|]. exact (Hc 31 ltac:(done)).
Defined.

(** A copy of 2 GB or more copies no tail: the size is negative as the [int32_t]
    CopyBundleTails takes, and only the first word of each bundle is written. *)
Theorem code_copy_2gb_heads_only m dest src size bundle_size :
  two31 <= size < two32 -> (0 =? Z.land dest 3) = true ->
  CopyCodeSafelyInitial m dest src size bundle_size = CopyBundleHeads m dest src size bundle_size.
Proof.
  intros Hs Hal. unfold CopyCodeSafelyInitial, CopyBundleTails. rewrite Hal. cbn [check]. rewrite !M_bind_ret_l.
  assert (Hi : i32 size = size - two32).
  { unfold i32. rewrite u32_small by zlia. by replace (size <? two31) with false by (symmetry; apply Z.ltb_ge; lia). }
  rewrite Hi. replace (Z.to_nat ((size - two32 + 3) / 4)) with 0%nat; [done|].
  symmetry. apply Z2Nat.nonpos. apply Z.lt_succ_r, Z.div_lt_upper_bound; unfold_words; lia.
Qed.

(** C35: the region table answers overlap queries.  On a sorted table of
    disjoint regions NaClDynamicRegionFind, a binary search for the region
    that starts last, agrees with a scan of all regions: it returns a region
    that overlaps the range, or NULL when none does. *)
Theorem dynamic_region_find_complete rs ptr size :
  regions_inv rs -> 0 <= ptr -> 0 < size -> ptr + size < two64 ->
  exists p, NaClDynamicRegionFind rs ptr size = mret p /\
    match p with
    | Some i => exists r, rs !! i = Some r /\ overlaps ptr size r
    | None => forall j r, rs !! j = Some r -> ~ overlaps ptr size r
    end.
Proof. apply Find_spec. Qed.

Definition three_regions : list NaClDynamicRegion := [mkRegion 64 32 (-1); mkRegion 128 64 (-1); mkRegion 192 32 (-1)].

Lemma three_regions_inv : regions_inv three_regions.
Proof. split; repeat constructor; done. Qed.

Lemma dynamic_region_find_complete_witness :
  NaClDynamicRegionFind three_regions 160 40 = mret (Some 2%nat) /\ overlaps 160 40 (mkRegion 192 32 (-1)).
Proof.
  destruct (dynamic_region_find_complete three_regions 160 40 three_regions_inv ltac:(done) ltac:(done) ltac:(done))
    as (p & Hp & Hm).
  assert (Hv : NaClDynamicRegionFind three_regions 160 40 = mret (Some 2%nat)) by (vm_compute; reflexivity).
  split; [exact Hv|]. rewrite Hv in Hp. injection Hp as <-. destruct Hm as (r & Hr & Ho). injection Hr as <-. exact Ho.
Defined.

(** ** Bytes and files *)

(** Unaligned stores are read back.  NaClStoreMem of up to eight bytes
    followed by NaClLoadMem of as many at the same address gives the value
    modulo the width, and the store touches no other byte. *)
Theorem store_load_roundtrip m addr n value :
  (0 < n <= 8)%nat ->
  exists m', NaClStoreMem m addr n value = mret m' /\
    NaClLoadMem m' addr n = mret (value mod 2 ^ (8 * Z.of_nat n)) /\
    forall x, x < addr \/ addr + Z.of_nat n <= x -> m' x = m x.
Proof.
  intros Hn. destruct (StoreMem_spec m addr n value) as (m' & Hs & Hr & Ho); [lia|].
  exists m'. split_and!; [done| |done]. rewrite LoadMem_spec by done. by rewrite Hr.
Qed.

Lemma store_load_roundtrip_witness :
  exists m', NaClStoreMem (fun _ => 0) 1001 2 74565 = mret m' /\ NaClLoadMem m' 1001 2 = mret 9029.
Proof.
  destruct (store_load_roundtrip (fun _ => 0) 1001 2 74565 ltac:(lia)) as (m' & Hs & Hl & _).
  exists m'. split; [exact Hs|exact Hl].
Defined.

(** A memory file returns what was written.  Bytes written at the position
    of a memory file are those read back after seeking there. *)
Theorem memory_file_write_read g buf :
  gio_inv g -> Z.of_nat (length buf) <= gm_len g - gm_curpos g -> buf <> [] ->
  let g1 := (GioMemoryFileWrite g buf).1 in
  let g2 := (GioMemoryFileSeek g1 (gm_curpos g) SEEK_SET).1 in
  (GioMemoryFileRead g2 (Z.of_nat (length buf))).2 = buf.
Proof. apply Write_Read. Qed.

Lemma memory_file_write_read_witness :
  let g1 := (GioMemoryFileWrite (GioMemoryFileCtor [1; 2; 3; 4]) [9; 8]).1 in
  (GioMemoryFileRead (GioMemoryFileSeek g1 0 SEEK_SET).1 2).2 = [9; 8].
Proof.
  apply (memory_file_write_read (GioMemoryFileCtor [1; 2; 3; 4]) [9; 8]); [by apply Ctor_inv|done|done].
Defined.

(** ** A layout the protections miss *)

(** C36: when the text ends on a 64 KB boundary and dynamic loading is off, the
    halt sled takes the next 64 KB: the static text then ends one allocation
    page above dynamic_text_end, and the test that keeps mmap and munmap away
    from code does not see that page. *)
Theorem halt_sled_page_unprotected `{HH : Host} `{HS : Shm} nap m l1 nap1 l2 nap2 m2 :
  image_layout nap -> placed nap -> use_shm_for_dynamic_text nap = false -> text_shm nap = None ->
  alloc_aligned (static_text_end nap) -> static_text_end nap + 65536 < two32 ->
  NaClMakeDynamicTextShared nap = (l1, Ret (nap1, LOAD_OK)) ->
  NaClFillEndOfTextRegion nap1 m = (l2, Ret (nap2, m2)) ->
  static_text_end nap2 = dynamic_text_end nap2 + 65536 /\
  AddrRangeContainsExecutablePages nap2 (dynamic_text_end nap2) = false.
Proof.
  intros Hlay Hpl Hshm Hts Hal Hsmall Hdyn Hfill. unfold NaClMakeDynamicTextShared in Hdyn. rewrite Hshm in Hdyn.
  apply M_ret_inv in Hdyn as [_ Heq]. injection Heq as <-. unfold NaClEndOfStaticText in Hfill.
  assert (Ht : 131072 <= static_text_end nap) by apply Hlay.
  rewrite alloc_multiple in Hfill by (done || zlia).
  apply FillEndOfText_spec in Hfill as (Hn2 & HT & HTb & Hsled & _); [|by destruct Hpl|by destruct Hlay|].
  2: { change NACL_HALT_SLED_SIZE with 32. cbn. lia. }
  assert (Hde : dynamic_text_end nap2 = static_text_end nap) by (by rewrite Hn2).
  specialize (Hsled Hts). cbn [static_text_end upd] in HTb, Hsled. change NACL_HALT_SLED_SIZE with 32 in Hsled.
  rewrite Hde. split.
  - unfold alloc_aligned in *. cbn in HTb. Z.div_mod_to_equations. lia.
  - unfold AddrRangeContainsExecutablePages. rewrite Hde, NaClTruncAllocPage_aligned by (done || zlia).
    apply Z.ltb_ge. lia.
Qed.

Definition full_text_app : NaClApp :=
  mkApp 32 NACL_DEFAULT_STACK_MAX (2 ^ 36) 196608 0 0 0 327680 331776 131072 0 32
    (mkVmmap [None] 0 1 true) false None None [] 0 0 0 0 (-1) false false false false 0 331776
    (mkDynArray 0 [None] 1 [0] 0) None false 0 0 0.

Lemma halt_sled_page_unprotected_witness :
  exists nap2, static_text_end nap2 = dynamic_text_end nap2 + 65536 /\
    AddrRangeContainsExecutablePages nap2 (dynamic_text_end nap2) = false.
Proof.
  eexists. eapply (halt_sled_page_unprotected (HH := load_host) (HS := load_shm) full_text_app runtime_memory).
  - split; try done; [by left|]. right. done.
  - done.
  - reflexivity.
  - reflexivity.
  - reflexivity.
  - reflexivity.
  - reflexivity.
  - reflexivity.
Defined.

(** ** Starting the program *)

(** C25: the start of the program, on any host, for a list of arguments that is
    not empty and strings of less than 256 MB in all.  NaClCreateMainThread
    returns failure only when the argument block is larger than the stack or an
    allocation failed.  When it starts the program, the block at the top of the
    stack holds the counts, the tables of user pointers each leading to its
    NUL-terminated string, the NULLs and the auxiliary vector; the program
    starts at its entry point with a stack pointer 8 below a multiple of 16 and
    the base of the sandbox in r15; and nothing below the padding or above the
    address space is written.  If no allocation, mmap or mprotect fails, it
    returns: none of its checks fires. *)
Theorem main_thread_started `{HH : Host} hu hs sys_sp now nap argv envv m :
  let env := default [] envv in
  let size := block_size (table_size nap argv env + total_size (argv ++ env)) in
  let start := NaClCreateMainThread hu hs sys_sp now nap argv envv m in
  placed nap -> 0 < initial_entry_pt nap < two32 -> 0 <= stack_size nap < two32 ->
  argv <> [] -> total_size (argv ++ env) < 2 ^ 28 ->
  (forall l r, start = (l, Ret r) ->
     match r with
     | Some (nap', m', ctx, sp) =>
         size <= stack_size nap /\ nap' = ResumeCpuClock now nap /\ sp = sys_sp /\
         started nap argv env m m' ctx (mem_start nap + two32 - size)
     | None => stack_size nap < size \/ exists n, malloc_ok n = false
     end) /\
  ((forall n, malloc_ok n = true) -> (forall n p f d o, host_mmap 0 n p f d o <> MAP_FAILED) ->
   (forall a n p, host_mprotect a n p = 0) -> exists l r, start = (l, Ret r)).
Proof.
  intros env size start Hpl He Hst Hne Htot. split.
  - intros l r. by apply CreateMainThread_returns.
  - intros Hm Hmm Hp. pose proof (CreateMainThread_spec Hm Hmm Hp hu hs sys_sp now nap argv envv m Hpl He Hst Hne Htot) as Hs.
    cbv zeta in Hs. unfold start. case_decide; [|by eexists _, _]. destruct Hs as (l & m' & ctx & -> & _). by eexists _, _.
Qed.

(** Two arguments and one variable of the environment. *)
Lemma main_thread_started_witness :
  exists l m' ctx,
    NaClCreateMainThread (HH := load_host) false false 4096 0 full_text_app [[112; 114; 111; 103]; [97]] (Some [[88; 61; 49]])
      runtime_memory = (l, Ret (Some (ResumeCpuClock 0 full_text_app, m', ctx, 4096))) /\
    started full_text_app [[112; 114; 111; 103]; [97]] [[88; 61; 49]] runtime_memory m' ctx (2 ^ 36 + two32 - 64).
Proof.
  destruct (main_thread_started (HH := load_host) false false 4096 0 full_text_app [[112; 114; 111; 103]; [97]]
    (Some [[88; 61; 49]]) runtime_memory) as [Hr Ht]; [done..|].
  destruct Ht as (l & r & Heq); [done|intros n p f d o; simpl; by case_match|done|].
  pose proof (Hr l r Heq) as Hres. destruct r as [[[[nap' m'] ctx] sp]|].
  - destruct Hres as (_ & -> & -> & Hs). exists l, m', ctx. split; [exact Heq|exact Hs].
  - exfalso. destruct Hres as [Hlt|[n Hn]]; [revert Hlt; vm_compute; discriminate|discriminate Hn].
Defined.
