(* ===== verification/ManifestProperties.v ===== *)
(** * Properties of the manifest

    Reading and writing its text, the channels set up from it, and the inputs
    the parser does not survive. *)

From Stdlib Require Import Ascii String.
From S2P Require Import Prelude Effects Rounding Bytes MemObj Vmmap DynArray Policy App HostDesc.
From S2P Require Import Memory Trap ManifestText ManifestSetup ManifestSpec.

(** ** Text *)

(** C26: a well-formed manifest is read back.  For at least one line
    "key = value", with arbitrary blanks around both parts and a line feed at
    the end of every line, in a file of less than 2^29 bytes that is read
    without an error, and when the byte behind the text buffer is 0 (the
    buffer has no room for a terminator), parse_manifest returns exactly the
    keys and values in their order and never writes outside its array.  When
    one of its four requests to the allocator fails it returns no records. *)
Theorem manifest_read_back `{Host} ls rest (size := Z.of_nat (length (manifest_text ls))) :
  Forall line_ok ls -> ls <> [] -> 4 * size < two31 ->
  parse_manifest (readable (manifest_text ls)) (NUL :: rest) =
    mret (if forallb malloc_ok (parse_requests size (Z.of_nat (length ls)))
          then Some ((fun l => to_string (line_record l)) <$> ls) else None).
Proof. apply parse_manifest_lines. Qed.

Definition sample_lines : list mline :=
  [mkLine [] (chars "Version") [SPACE] [SPACE] (chars "11nov2011") [];
   mkLine [SPACE] (chars "Input") [] [] (chars "a file") [SPACE]].

Lemma manifest_read_back_witness :
  parse_manifest (H := good_host) (readable (manifest_text sample_lines)) [NUL]
    = mret (Some [("Version", "11nov2011"); ("Input", "a file")])%string.
Proof.
  apply (manifest_read_back (H := good_host) sample_lines []).
  - apply Forall_cons; split; [|apply Forall_cons; split; [|by apply Forall_nil]];
      (split; [by apply cleanb_spec|by apply cleanb_spec|split_and!; by repeat constructor]).
  - discriminate.
  - reflexivity.
Defined.

(** The report is readable.  Parsing the text AnswerManifestPut writes gives
    the five keys with their values, and atoll of the two codes gives the
    codes back. *)
Theorem report_read_back `{Host} r rest (size := Z.of_nat (length (AnswerManifestPut r))) :
  report_clean r -> is_i32 (ret_code r) -> is_i32 (user_ret_code r) -> 4 * size < two31 ->
  parse_manifest (readable (AnswerManifestPut r)) (NUL :: rest)
    = mret (if forallb malloc_ok (parse_requests size 5) then Some (report_records r) else None) /\
  atoll (print_d (ret_code r)) = ret_code r /\ atoll (print_d (user_ret_code r)) = user_ret_code r.
Proof. intros Hr H1 H2 Hs. split; [by apply report_parses|]. split; by apply atoll_print_d. Qed.

Definition sample_report : Report := mkReport 0 (Some "etag disabled") (-17) None (Some "X-Tag: 1").

Lemma report_read_back_witness :
  parse_manifest (H := good_host) (readable (AnswerManifestPut sample_report)) [NUL] = mret (Some [
    ("ReportRetCode", "0"); ("ReportEtag", "etag disabled"); ("ReportUserRetCode", "-17");
    ("ReportContentType", "(null)"); ("ReportXObjectMetaTag", "X-Tag: 1")])%string.
Proof.
  refine (proj1 (report_read_back (H := good_host) sample_report [] _ _ _ _)).
  - split_and!; by apply cleanb_spec.
  - done.
  - done.
  - reflexivity.
Defined.

(** ** Channels *)

(** C27: channels start well typed.  When the manifest gives no negative
    transfer limit, a channel that ConstructChannel returns has fields in the
    ranges of their C types, zero counters below the limits, and so satisfies
    the precondition of the trap. *)
Theorem constructed_channel_typed m ch l m' :
  limits_ok m ch -> ConstructChannel m ch = (l, Ret (m', 0)) ->
  exists c, channels (user_setup m') = <[ch := c]> (channels (user_setup m)) /\ channel_ok c /\
    is_Some (ch_name c) /\ ch_type c = Z.of_nat ch /\
    cnt_gets c = 0 /\ cnt_puts c = 0 /\ cnt_get_size c = 0 /\ cnt_put_size c = 0.
Proof. apply ConstructChannel_spec. Qed.

Definition raw_channel : PreOpenedFileDesc := mkChannel 0 None 9 9 9 9 9 9 9 9 9 9 9 9 9 9 9.
Definition raw_setup : SetupList := mkSetup 0 0 0 0 0 0 0 0 0 0 0 "" "" "" "" 0 (replicate 5 raw_channel).
Definition input_manifest : Manifest :=
  mkManifest [("Input", "in.data"); ("InputMode", "1"); ("InputMax", "4096"); ("InputMaxGet", "8192");
              ("InputMaxGetCnt", "10")]%string raw_setup None None.

Lemma constructed_channel_typed_witness :
  exists l m' c, ConstructChannel input_manifest 0 = (l, Ret (m', 0)) /\
    channels (user_setup m') !! 0%nat = Some c /\ channel_ok c /\ max_get_size c = 8192.
Proof.
  destruct (ConstructChannel input_manifest 0) as [l [[m' r]|f]] eqn:Hrun; [|vm_compute in Hrun; discriminate Hrun].
  assert (r = 0) as -> by (vm_compute in Hrun; injection Hrun as <- <- <-; reflexivity).
  destruct (constructed_channel_typed input_manifest 0 l m') as (c & Hc & Hok & _).
  - intros prefix [= <-]. vm_compute. intuition discriminate.
  - exact Hrun.
  - exists l, m', c. split; [reflexivity|]. split; [by rewrite Hc|]. split; [exact Hok|].
    vm_compute in Hrun. injection Hrun as <- <-. injection Hc as <-. reflexivity.
Defined.


Definition sample_files : Files := {|
  file_open := fun _ _ => 3;
  file_truncate := fun _ _ => 0;
|}.

Definition output_channel : PreOpenedFileDesc :=
  mkChannel 104 (Some "out") 1 LOADED 0 0 0 0 4096 10 10 100 100 0 0 0 0.


(** ** What the parser does not check *)

(** C40: a manifest that is one line "k=v" without a final line end overruns
    the record array, whatever follows the text buffer: parse_manifest
    allocates 4 bytes per character of text but writes a record of 16 bytes.
    The three allocations before it are assumed to succeed. *)
Theorem manifest_array_overrun `{Host} k v behind :
  forallb malloc_ok [sizeof_Manifest; 3; 12] = true -> plain k -> plain v ->
  parse_manifest (readable [k; EQUALS; v]) behind = fail OutOfBounds.
Proof.
  intros Hm (Hk1 & Hk2 & Hk3) Hv. simpl in Hm. rewrite !andb_true_iff in Hm. destruct Hm as (M1 & M2 & M3 & _).
  by apply (parse_small_room _ [k; EQUALS; v] k [EQUALS; v]).
Qed.

Lemma manifest_array_overrun_witness :
  parse_manifest (H := good_host) (readable (chars "a=b")) [NUL] = fail OutOfBounds.
Proof.
  apply (manifest_array_overrun (H := good_host) "a"%char "b"%char [NUL]); [reflexivity|by split_and!|by split_and!].
Defined.

(** The size of the array is an [int] product: for a file of 1 GB it is 0, and
    the first token already writes outside. *)
Theorem manifest_size_wraps `{Host} c s behind :
  forallb malloc_ok [sizeof_Manifest; 1073741824; 0] = true -> inline c ->
  Z.of_nat (length (c :: s)) = 1073741824 ->
  parse_manifest (readable (c :: s)) behind = fail OutOfBounds.
Proof.
  intros Hm Hc Hl. simpl in Hm. rewrite !andb_true_iff in Hm. destruct Hm as (M1 & M2 & M3 & _).
  apply (parse_small_room _ (c :: s) c s); unfold readable; cbn [mf_size mf_stream]; rewrite ?Hl; done.
Qed.

(** The stream of fopen is used unchecked: a file that can be measured but not
    opened again stops the program. *)
Theorem manifest_stream_unchecked `{Host} size behind :
  forallb malloc_ok [sizeof_Manifest; size; 4 * size] = true -> 0 <= 4 * size < two31 ->
  parse_manifest (mkFile size None) behind = fail NullDeref.
Proof.
  intros Hm Hs. simpl in Hm. rewrite !andb_true_iff in Hm. destruct Hm as (M1 & M2 & M3 & _).
  unfold parse_manifest. cbn [mf_size mf_stream]. unfold two31 in Hs.
  rewrite (i32_small size), (i32_small (4 * size)), !u64_small by (unfold two31, two64; lia).
  rewrite M1, M2, M3. by replace (size =? -1) with false by lia.
Qed.

(** The text buffer has no final NUL: what follows it in memory becomes part of
    the last value of a manifest that does not end with a line end. *)
Theorem manifest_reads_behind_buffer :
  parse_manifest (H := good_host) (readable (chars "Nexe = prog")) (chars "xyz" ++ [NUL])
    = mret (Some [("Nexe", "progxyz")])%string.
Proof. vm_compute. reflexivity. Qed.

(** SetupSystemPolicy tests a field of the object it has just allocated: with
    other contents of the heap it stops the program. *)
Theorem system_policy_reads_garbage raw m name :
  sys_nexe raw = Some name ->
  exists msg, SetupSystemPolicy (HH := good_host) raw m = fail (CondAbort msg).
Proof. intros Hn. eexists. unfold SetupSystemPolicy. by rewrite Hn. Qed.
