(* ===== verification/CallProperties.v ===== *)
(** * Properties of the system calls

    Isolation of the user program, what the memory calls and the trap promise,
    and where the code does not keep its own rules. *)

From S2P Require Import Prelude Effects Rounding Bytes MemObj Vmmap VmmapSpec VmmapCompact.
From S2P Require Import VmmapUpdate VmmapFind DynArray Policy App HostDesc Memory MemorySafe Sysbrk.
From S2P Require Import Mmap Trap Syscalls Isolation Sample.

(** ** Isolation *)

(** C1: isolation.  From a state that satisfies the invariant of the runtime,
    whatever the user program does to its memory and registers between its
    system calls and however the host answers each of them, in every state
    reached by calls that return the invariant holds, the pages of the code
    region are recorded as when the program started, no layout field has changed
    and every limit of the manifest is at most its initial value; all host calls
    made on the way were memory calls inside the sandbox above the code, never
    executable, or transfers of less than 2 GB whose buffer starts in the
    sandbox (only its first address is checked). *)
Theorem isolation nap0 es0 tr nap :
  rt_inv nap0 es0 -> reachable nap0 tr nap ->
  exists es, rt_inv nap es /\ evolves nap0 es0 nap es /\ Forall (syscall_event nap0) tr.
Proof. apply reachable_inv. Qed.

(** The hook on this stack returns. *)
Lemma munmap_hook_returns :
  exists l s, NaClSyscallCSegHook (H:=good_host) (munmap_stack (2 ^ 36)) (fun _ => sample_policy) syscall_table 5 6
    sample_app 68719542272 = (l, Ret s).
Proof. eexists _, _. vm_compute. reflexivity. Qed.

(** The sample program after one munmap. *)
Lemma munmap_reachable : exists l s, reachable sample_app l (sw_app s) /\ l <> [].
Proof.
  destruct munmap_hook_returns as (l & s & Hm). exists l, s. split.
  - change l with ([] ++ l). eapply (reach_syscall _ _ _ good_host); [apply reach_start|apply sample_setup_typed| |exact Hm].
    split; [discriminate|reflexivity].
  - intros ->. vm_compute in Hm. discriminate Hm.
Qed.

Lemma isolation_witness :
  exists l nap, l <> [] /\ reachable sample_app l nap /\
  exists es, rt_inv nap es /\ evolves sample_app sample_entries nap es /\ Forall (syscall_event sample_app) l.
Proof.
  destruct munmap_reachable as (l & s & Hr & Hl). exists l, (sw_app s). split; [exact Hl|]. split; [exact Hr|].
  exact (isolation sample_app sample_entries l (sw_app s) sample_rt Hr).
Defined.

(** C10: one entry of the runtime, on any host, from a state that satisfies the
    invariant.  The hook makes only allowed host calls (in the sense of
    isolation) also when it aborts; when it returns, control goes to a bundle
    head inside the sandbox with the stack pointer past the two return
    addresses, the user-side mark is cleared and the invariant is
    re-established. *)
Theorem syscall_hook_safe `{Host} rd_setup mem pause resume nap es sp :
  setup_typed rd_setup -> rt_inv nap es -> is_u64 sp ->
  let m := NaClSyscallCSegHook mem rd_setup syscall_table pause resume nap sp in
  Forall (syscall_event nap) (trace m) /\
  forall s, result m = Ret s ->
    sandboxed_pc nap (sw_pc s) /\ sw_sp s = u64 (sp + NACL_SYSCALLRET_FIX) /\
    user_side_flag (sw_app s) = false /\
    exists es', rt_inv (sw_app s) es' /\ evolves nap es (sw_app s) es'.
Proof.
  intros Hrd Hrt Hsp m. destruct (hook_spec rd_setup Hrd mem pause resume nap es sp Hrt Hsp) as [[Ht Hr] Hs].
  split; [exact Ht|]. intros s Hm. destruct (Hs s Hm) as (? & ? & ?). split_and!; try done. by apply Hr.
Qed.

Lemma syscall_hook_safe_witness :
  let m := NaClSyscallCSegHook (H:=good_host) (munmap_stack (2 ^ 36)) (fun _ => sample_policy) syscall_table 5 6 sample_app 68719542272 in
  Forall (syscall_event sample_app) (trace m) /\
  forall s, result m = Ret s ->
    sandboxed_pc sample_app (sw_pc s) /\ sw_sp s = u64 (68719542272 + NACL_SYSCALLRET_FIX) /\
    user_side_flag (sw_app s) = false /\
    exists es', rt_inv (sw_app s) es' /\ evolves sample_app sample_entries (sw_app s) es'.
Proof.
  apply (syscall_hook_safe (H:=good_host)); [apply sample_setup_typed|apply sample_rt|done].
Defined.

(** ** Dispatch *)

(** The table built by NaClSyscallTableInit has 110 entries, the eight
    registered calls at their numbers and NotImplementedDecoder elsewhere; no
    registration is a duplicate. *)
Theorem syscall_table_complete :
  exists t, NaClSyscallTableInit = mret t /\ length t = NACL_MAX_SYSCALLS /\
    forall n, (n < NACL_MAX_SYSCALLS)%nat -> t !! n = Some (table_spec n).
Proof.
  exists syscall_table. split_and!; [apply TableInit_ok|apply table_length|apply table_lookup].
Qed.

(** The return address left by the trampoline of system call [n] selects
    handler [n], wherever in its 32-byte block it points. *)
Theorem trampoline_selects_syscall nap n off :
  placed nap -> 0 <= n < 2048 -> 0 <= off < NACL_SYSCALL_BLOCK_SIZE ->
  syscall_number nap (mem_start nap + NACL_SYSCALL_START_ADDR + n * NACL_SYSCALL_BLOCK_SIZE + off) = n.
Proof. apply syscall_number_spec. Qed.

Lemma trampoline_selects_syscall_witness :
  syscall_number sample_app
    (mem_start sample_app + NACL_SYSCALL_START_ADDR + 21 * NACL_SYSCALL_BLOCK_SIZE + 14) = 21.
Proof. apply trampoline_selects_syscall; [apply (ai_placed _ _ sample_inv)|done|done]. Defined.

(** ** Memory calls *)

(** Sysbrk returns on every argument when the page of the current break is
    mapped and mprotect succeeds: the break moves to the argument or stays, never below the data
    end; when it grows, all pages up to the new break are mapped and no page
    outside the extension, rounded to 64 KB, appears. *)
Theorem sysbrk_result `{Host} nap es nb :
  (forall a n p, host_mprotect a n p = 0) -> app_inv nap es -> 0 <= nb < two32 -> is_Some (lookup_page es (brk_page nap)) ->
  exists l nap' es', NaClSysSysbrk nap nb = (l, Ret (nap', i32 (break_addr nap'))) /\
    app_inv nap' es' /\ brk_result nap es nb nap' es' /\ data_end nap' <= break_addr nap'.
Proof.
  intros Hmp Hinv Hnb Hpg. destruct (decide (nb <= break_addr nap)) as [Hle|Hgt].
  - destruct (Sysbrk_shrink nap es nb Hinv) as (nap' & ? & Hi & ? & _); [zlia|by left|].
    exists [], nap', es. split_and!; try done. apply (ai_data _ _ Hi).
  - destruct (Sysbrk_grow Hmp nap es nb Hinv) as (l & nap' & es' & ? & Hi & ? & _); [lia|done|].
    exists l, nap', es'. split_and!; try done. apply (ai_data _ _ Hi).
Qed.

Lemma sysbrk_result_witness :
  exists l nap' es', NaClSysSysbrk (H:=good_host) sample_app 400000 = (l, Ret (nap', i32 (break_addr nap'))) /\
    app_inv nap' es' /\ brk_result sample_app sample_entries 400000 nap' es' /\ data_end nap' <= break_addr nap'.
Proof. apply (sysbrk_result (H:=good_host)); [done|apply sample_inv|done|by eexists]. Defined.

(** A user program that unmaps the page of its break and then calls sysbrk
    stops the runtime with a fatal error instead of getting an error code. *)
Theorem sysbrk_unmapped_break_aborts `{Host} nap es nb :
  app_inv nap es -> break_addr nap < nb < two32 -> lookup_page es (brk_page nap) = None ->
  result (NaClSysSysbrk nap nb) = Fault (LogFatal "current break not in address map").
Proof. intros Hi Hn Hp. by destruct (Sysbrk_unmapped nap es nb Hi Hn Hp) as (l & -> & _). Qed.

(** The sample program after it unmapped its heap. *)
Definition heapless : list NaClVmmapEntry := filter (fun e => page_num e <> 48) sample_entries.

Lemma heapless_inv : app_inv (sample_app <| mem_map := map_of heapless |>) heapless.
Proof.
  apply (app_inv_map sample_app sample_entries); [apply sample_inv|apply map_of_inv; [done|vm_compute; reflexivity..]|].
  change heapless with (mkVmmapEntry 0 16 PROT_NONE None false :: mkVmmapEntry 16 32 (Z.lor PROT_READ PROT_EXEC) None false
    :: [mkVmmapEntry 1044480 4096 (Z.lor PROT_READ PROT_WRITE) None false]).
  assert (Hp : forall p i, lookup_page (mkVmmapEntry 0 16 PROT_NONE None false ::
     mkVmmapEntry 16 32 (Z.lor PROT_READ PROT_EXEC) None false
    :: [mkVmmapEntry 1044480 4096 (Z.lor PROT_READ PROT_WRITE) None false]) p = Some i ->
    0 <= p < PAGE_COUNT /\ (48 <= p -> Z.land (pg_prot i) PROT_EXEC = 0)).
  { intros p i. unfold PAGE_COUNT. simpl. unfold covers, end_page. simpl.
    repeat (case_decide as Hd; [intros [= <-]; destruct Hd; split; [lia|]; simpl; try done; lia|clear Hd]).
    done. }
  split; [intros p i Hi; apply (Hp p i Hi)..|]. exists 0. split; [done|]. by eexists.
Qed.

Lemma sysbrk_unmapped_break_aborts_witness :
  result (NaClSysSysbrk (H:=good_host) (sample_app <| mem_map := map_of heapless |>) 300000) =
    Fault (LogFatal "current break not in address map").
Proof.
  apply (sysbrk_unmapped_break_aborts (H:=good_host) _ heapless); [apply heapless_inv|done|vm_compute; reflexivity].
Defined.

(** C28: mmap by the user program, whose descriptor the decoder has replaced by
    -1, on any host.  The host calls of NaClCommonSysMmapIntern stay in the
    sandbox above the code, also when it aborts; when it returns, the result is
    EBADF, EINVAL or ENOMEM and no page of the memory map changes, or it is the
    address of a 64 KB aligned range above the code, the fixed address asked for
    or else a free hole, which the memory map now records in full with the
    requested protection less execution, other pages unchanged.  It does return
    when the protection bits are in R/W/X, no allocation fails and the kernel
    puts fixed mappings where asked. *)
Theorem mmap_result_correct `{Host} nap es start len prot flags offset :
  app_inv nap es -> is_u64 start -> 0 <= len < two32 ->
  let m := NaClCommonSysMmapIntern nap start len prot flags (-1) offset in
  sandbox_events nap (trace m) /\
  (forall nap' r, result m = Ret (nap', r) ->
     exists es', app_inv nap' es' /\ mmap_result nap es start len prot flags r es') /\
  (Z.land (Z.lnot 7) prot = 0 -> (forall n, malloc_ok n = true) -> honours_fixed ->
     exists nap' r, result m = Ret (nap', r)).
Proof.
  intros Hi Hs Hl m. destruct (Mmap_spec nap es start len prot flags offset Hi Hs Hl) as [He Hr Ht].
  split_and!; [exact He| |].
  - intros nap' r Hm. destruct (Hr _ Hm) as (es' & Ha & _ & Hres). by exists es'.
  - intros Hp Hm Hf. destruct Ht as [[nap' r] Hret]; [by split|]. by exists nap', r.
Qed.

Lemma mmap_result_correct_witness :
  let m := NaClCommonSysMmapIntern (H:=good_host) sample_app 0 100000 3 34 (-1) 0 in
  exists nap' r es', result m = Ret (nap', r) /\ app_inv nap' es' /\
    mmap_result sample_app sample_entries 0 100000 3 34 r es'.
Proof.
  destruct (mmap_result_correct (H:=good_host) sample_app sample_entries 0 100000 3 34 0) as (_ & Hr & Ht);
    [apply sample_inv|done..|].
  destruct Ht as (nap' & r & Hret); [done|apply good_host_grants..|]. exists nap', r.
  destruct (Hr nap' r Hret) as (es' & ? & ?). by exists es'.
Defined.

(** An mmap with a protection bit outside R/W/X, once its range is accepted, is
    refused for its sharing flags or stops the runtime with a fatal error. *)
Theorem mmap_unknown_prot_aborts `{Host} nap u R prot flags offset :
  placed nap -> 0 < u < two32 -> 0 < R -> Z.land (Z.lnot 7) prot <> 0 ->
  let m := Mmap_map nap None u (mkSizes R R R kMaxUsableFileSize kMaxUsableFileSize) prot flags offset in
  m = mret (nap, neg_errno NACL_ABI_EINVAL) \/ m = fail (LogFatal "NaClSysMmap: Map failed").
Proof. apply Mmap_map_badprot. Qed.

Example mmap_unknown_prot_sample :
  result (NaClCommonSysMmapIntern (H:=good_host) sample_app 0 100000 8 34 (-1) 0) =
    Fault (LogFatal "NaClSysMmap: Map failed").
Proof. vm_compute. reflexivity. Qed.

(** C29: munmap, on any host.  The host calls it makes stay in the sandbox above
    the code, also when it aborts; when it returns, the result is an error code
    and no page of the memory map changes, or 0 and exactly the pages of the
    range, 64 KB aligned, rounded up to 64 KB and above the code, are no longer
    in the map.  It does return when no allocation fails. *)
Theorem munmap_result_correct `{Host} nap es start len :
  app_inv nap es -> is_u64 start -> 0 <= len < two32 ->
  let m := NaClSysMunmap nap start len in
  sandbox_events nap (trace m) /\
  (forall nap' r, result m = Ret (nap', r) ->
     exists es', app_inv nap' es' /\ munmap_result nap es start len r es') /\
  ((forall n, malloc_ok n = true) -> exists nap' r, result m = Ret (nap', r)).
Proof.
  intros Hi Hs Hl m. destruct (Munmap_spec nap es start len Hi Hs Hl) as [He Hr Ht].
  split_and!; [exact He| |].
  - intros nap' r Hm. destruct (Hr _ Hm) as (es' & Ha & _ & Hres). by exists es'.
  - intros Hm. destruct (Ht Hm) as [[nap' r] Hret]. by exists nap', r.
Qed.

Lemma munmap_result_correct_witness :
  let m := NaClSysMunmap (H:=good_host) sample_app 262144 65536 in
  exists nap' r es', result m = Ret (nap', r) /\ app_inv nap' es' /\
    munmap_result sample_app sample_entries 262144 65536 r es'.
Proof.
  destruct (munmap_result_correct (H:=good_host) sample_app sample_entries 262144 65536) as (_ & Hr & Ht);
    [apply sample_inv|done..|].
  destruct Ht as (nap' & r & Hret); [done|]. exists nap', r.
  destruct (Hr nap' r Hret) as (es' & ? & ?). by exists es'.
Defined.

(** ** Address translation *)

(** NaClUserToSysAddrRange accepts exactly the ranges that lie inside the
    4 GB address space and do not start at NULL, with the 64-bit wrap-around of
    the end address taken into account. *)
Theorem user_range_checked nap u n :
  placed nap -> is_u64 u -> is_u64 n ->
  NaClUserToSysAddrRange nap u n =
    if decide (0 < u /\ u + n < two32) then u + mem_start nap else kNaClBadAddress.
Proof. intros. by apply UserToSysAddrRange_spec. Qed.

Lemma user_range_checked_witness :
  NaClUserToSysAddrRange sample_app 65536 (two64 - 4) =
    if decide (0 < 65536 /\ 65536 + (two64 - 4) < two32) then 65536 + mem_start sample_app else kNaClBadAddress.
Proof. apply user_range_checked; [apply (ai_placed _ _ sample_inv)|done|done]. Defined.

(** Translating a user address to a system address and back is the
    identity, and any address outside the space aborts. *)
Theorem user_sys_roundtrip nap u :
  placed nap -> 0 <= u ->
  (a ← NaClUserToSys nap u; NaClSysToUser nap a) =
    if decide (0 < u < two32) then mret u else fail (LogFatal "NaClUserToSys").
Proof.
  intros Hpl Hu. rewrite UserToSys_spec by done. case_decide as Hd; [|done]. rewrite M_bind_ret_l.
  pose proof Hpl as []. rewrite SysToUser_spec by (done || lia). rewrite decide_True by lia.
  by replace (u + mem_start nap - mem_start nap) with u by lia.
Qed.

Lemma user_sys_roundtrip_witness :
  (a ← NaClUserToSys sample_app 131072; NaClSysToUser sample_app a) =
    if decide (0 < 131072 < two32) then mret 131072 else fail (LogFatal "NaClUserToSys").
Proof. apply user_sys_roundtrip; [apply (ai_placed _ _ sample_inv)|done]. Defined.
