(* ===== verification/TrapProperties.v ===== *)
(** * Properties of the trap and the accounting

    Quotas of the channels, the setup call, the user syscall handler, and the
    counters of manifest_setup.c. *)

From S2P Require Import Prelude Effects Rounding MemObj Vmmap VmmapSpec VmmapCompact VmmapUpdate.
From S2P Require Import VmmapFind DynArray Policy App HostDesc Memory MemorySafe Sysbrk Mmap Trap.
From S2P Require Import Syscalls Isolation Sample.

(** C12: quotas.  Over any sequence of trap reads and writes, the bytes asked of
    the host for a channel in a direction are exactly what its counter has
    advanced by, and the counter never passes the limit of the manifest. *)
Theorem transfer_quota `{Host} nap tr nap' ch fd :
  transfers nap tr nap' -> placed nap -> channels_ok nap ->
  app_channels nap !! Z.to_nat ch = Some fd -> 0 <= ch ->
  exists fd', app_channels nap' !! Z.to_nat ch = Some fd' /\
    cnt_get_size fd' = cnt_get_size fd + bytes true ch tr /\ cnt_get_size fd' <= max_get_size fd /\
    cnt_put_size fd' = cnt_put_size fd + bytes false ch tr /\ cnt_put_size fd' <= max_put_size fd.
Proof.
  intros Ht Hpl Hok Hfd Hch. destruct (transfers_quota _ _ _ Ht Hpl Hok ch fd Hfd Hch)
    as (fd' & Hfd' & Hok' & Hg & Hp & Hmg & Hmp). exists fd'. destruct Hok' as [_ _ Hlg Hlp].
  split_and!; try done; [by rewrite <- Hmg|by rewrite <- Hmp].
Qed.

Lemma transfer_quota_witness :
  exists tr nap', transfers (H:=good_host) sample_app tr nap' /\ bytes true 0 tr = 60 /\
  exists fd', app_channels nap' !! Z.to_nat 0 = Some fd' /\
    cnt_get_size fd' = 0 + bytes true 0 tr /\ cnt_get_size fd' <= 100 /\
    cnt_put_size fd' = 0 + bytes false 0 tr /\ cnt_put_size fd' <= 100.
Proof.
  assert (Hstep : exists nap', TrapReadHandle (H:=good_host) sample_app 0 200000 60 0 =
    ([HostRead 3 (200000 + 2 ^ 36) 60 0], Ret (nap', 60))) by (eexists; vm_compute; reflexivity).
  destruct Hstep as [nap' Hstep].
  assert (Ht : transfers (H:=good_host) sample_app (map (pair 0) [HostRead 3 (200000 + 2 ^ 36) 60 0] ++ []) nap').
  { eapply transfers_read; [| |exact Hstep|constructor]; split; done. }
  exists (map (pair 0) [HostRead 3 (200000 + 2 ^ 36) 60 0] ++ []), nap'. split; [exact Ht|]. split; [reflexivity|].
  exact (transfer_quota (H:=good_host) _ _ _ 0 (sample_channel 3) Ht (ai_placed _ _ sample_inv) sample_channels
    eq_refl ltac:(lia)).
Defined.

(** A transfer is granted exactly when the channel is loaded, the size is
    positive, the offset lies in the file and neither limit is used up; the
    granted size is the request cut to the rest of the byte limit. *)
Theorem transfer_granted d fd size offset n :
  channel_typed d fd -> is_i32 size -> dir_cnt_size d fd - dir_max_size d fd <= two31 ->
  grant d fd size offset = inr n <->
  (ch_mounted fd = LOADED /\ 1 <= size /\ 0 <= offset < ch_fsize fd /\ dir_cnt d fd < dir_max d fd /\
   dir_cnt_size d fd < dir_max_size d fd /\ n = Z.min size (dir_max_size d fd - dir_cnt_size d fd)).
Proof. apply grant_spec. Qed.

Lemma transfer_granted_witness :
  grant reading (sample_channel 3) 500 10 = inr 100 <->
  (ch_mounted (sample_channel 3) = LOADED /\ 1 <= 500 /\ 0 <= 10 < 1000 /\ 0 < 10 /\ 0 < 100 /\
   100 = Z.min 500 (100 - 0)).
Proof. apply (transfer_granted reading (sample_channel 3)); [split; simpl; zlia|done|done]. Defined.

(** C38: the limit on bytes read can be bypassed.  A setup call after the first,
    within the limit on setup calls, that lowers the byte limit of the input or
    output channel to 2^31 + 1 bytes below what has already been read (a
    negative limit is taken too) makes the next read of any positive size inside
    the file a host read of 2^31 - 1 bytes, whatever the limit was and however
    little of it was left: [size = tail] truncates the negative rest to a
    positive [int32_t], which also exceeds the size that was asked for.  The
    channel is mounted for loading and its count of reads is not used up, nor
    lowered to be. *)
Theorem read_limit_bypass `{Host} nap m h hint ch fd hc buffer size offset :
  later_setup nap m h hint -> ch ∈ dir_channels reading ->
  channels (user_setup m) !! Z.to_nat ch = Some fd -> channels hint !! Z.to_nat ch = Some hc ->
  channel_ok fd -> ch_mounted fd = LOADED -> cnt_gets fd < max_gets fd -> cnt_gets fd < max_gets hc ->
  max_get_size hc = cnt_get_size fd - two31 - 1 ->
  0 < buffer < two32 -> 1 <= size < two31 -> 0 <= offset < ch_fsize fd ->
  exists nap1 r1 hint' nap2 r2, TrapUserSetupHandle nap h hint = mret (nap1, r1, hint') /\
    TrapReadHandle nap1 ch buffer size offset =
      ([HostRead (ch_handle fd) (buffer + mem_start nap) (two31 - 1) offset], Ret (nap2, r2)).
Proof.
  intros Hls Hch Hfd Hhc [_ _ Hg _] Hm Hc1 Hc2 Hmax Hb Hs Ho.
  destruct (UserSetup_later nap m h hint Hls) as (nap1 & r1 & hint' & m' & Hrun & Hnap1 & Hcs & _).
  assert (Hpl : placed nap1) by (rewrite Hnap1; by destruct (ls_placed _ _ _ _ Hls)).
  assert (Hm1 : manifest nap1 = Some m') by (by rewrite Hnap1).
  assert (Hst : mem_start nap1 = mem_start nap) by (by rewrite Hnap1).
  exists nap1, r1, hint'. unfold TrapReadHandle, Trap_transfer.
  rewrite UserToSys_spec by (done || lia). rewrite decide_True, M_bind_ret_l by done.
  rewrite bool_decide_true by done. cbn [negb]. unfold policy, load.
  rewrite Hm1, M_bind_ret_l, Hcs, lookup_zip_with, Hfd, Hhc. cbn [mbind option_bind]. rewrite M_bind_ret_l.
  rewrite grant_wrapped; [|done|done|done|cbn; lia|cbn; unfold two31 in *; lia].
  rewrite Hst. by eexists _, _.
Qed.

Lemma read_limit_bypass_witness :
  let nap := sample_app <| manifest := Some (sample_manifest <| user_setup := sample_policy <| cnt_setup_calls := 1 |> |>) |> in
  let hc := (sample_channel 3) <| max_get_size := - two31 - 1 |> in
  let hint := sample_policy <| channels := hc :: (sample_channel <$> [4; 5; 6; 7]) |> in
  exists nap1 r1 hint' nap2 r2, TrapUserSetupHandle nap 200000 hint = mret (nap1, r1, hint') /\
    TrapReadHandle (H := good_host) nap1 0 200000 1 10 = ([HostRead 3 (200000 + mem_start nap) (two31 - 1) 10], Ret (nap2, r2)).
Proof.
  intros nap hc hint.
  apply (read_limit_bypass (H := good_host) nap (sample_manifest <| user_setup := sample_policy <| cnt_setup_calls := 1 |> |>)
    200000 hint 0 (sample_channel 3) hc 200000 1 10); try done.
  apply list_elem_of_here.
Defined.

(** C13: TrapUserSetup.  The call returns whatever the hint; it changes nothing
    but the policy and the syscall handler, and every limit of the new policy
    is at most its old value.  It answers OK exactly when the hint exceeds no
    limit (any hint on the first call) and its handler is absent or a bundle
    head of the code; refused calls over the setup limit change no handler. *)
Theorem user_setup_lowers nap h hint m :
  placed nap -> text_bounds nap -> manifest nap = Some m -> 0 < h < two32 ->
  is_i32 (su_syscallback hint) -> length (channels hint) = length (channels (user_setup m)) ->
  exists nap' r hint' m', TrapUserSetupHandle nap h hint = mret (nap', r, hint') /\
    manifest nap' = Some m' /\ policy_lowered (user_setup m') (user_setup m) /\
    nap' = nap <| manifest := Some m' |> <| g_syscallback := g_syscallback nap' |> /\
    if decide (max_setup_calls (user_setup m) < i32 (cnt_setup_calls (user_setup m) + 1))
    then r = - OUT_OF_LIMITS /\ hint' = hint /\ g_syscallback nap' = g_syscallback nap
    else callback_inv nap' /\
      (r = OK_CODE <->
        (i32 (cnt_setup_calls (user_setup m) + 1) = 1 \/ request_within hint (user_setup m) = true) /\
        (su_syscallback hint = 0 \/ code_address nap (su_syscallback hint))).
Proof.
  intros Hpl Htb Hm Hh Hcb Hlen.
  destruct (UserSetup_spec nap h hint m Hpl Htb Hm Hh Hcb Hlen) as (nap' & r & hint' & m' & ? & ? & ? & ? & _ & Hr).
  exists nap', r, hint', m'. split_and!; try done. case_decide; [|done]. destruct Hr as (? & ? & ? & _). done.
Qed.

Lemma user_setup_lowers_witness :
  let hint := sample_policy <| su_syscallback := 131104 |> in
  exists nap' r hint' m', TrapUserSetupHandle sample_app 200000 hint = mret (nap', r, hint') /\
    manifest nap' = Some m' /\ policy_lowered (user_setup m') sample_policy /\ callback_inv nap' /\ r = OK_CODE.
Proof.
  intros hint. destruct (user_setup_lowers sample_app 200000 hint sample_manifest)
    as (nap' & r & hint' & m' & Heq & Hm & Hlow & _ & Hr);
    [apply (ai_placed _ _ sample_inv)|split; done|done..|].
  exists nap', r, hint', m'. split; [exact Heq|]. split; [exact Hm|]. split; [exact Hlow|].
  destruct (decide _) as [Hd|_] in Hr; [vm_compute in Hd; discriminate Hd|].
  destruct Hr as [Hc Hr]. split; [exact Hc|]. apply Hr. split; [by left|]. right. split; [done|]. right. done.
Defined.

(** C14: UpdateSyscallback installs a handler only at a 32-byte aligned address
    of the static code above the trampolines or of the dynamic code, and keeps
    the user address in the policy and the system address the trampoline jumps
    to in step; otherwise no handler is installed. *)
Theorem syscallback_checked nap hint m :
  placed nap -> text_bounds nap -> manifest nap = Some m -> is_i32 (su_syscallback hint) ->
  exists nap' r, UpdateSyscallback nap hint = mret (nap', r) /\ callback_inv nap' /\
    (r = OK_CODE <-> su_syscallback hint = 0 \/ code_address nap (su_syscallback hint)).
Proof.
  intros Hpl Htb Hm Hc. destruct (UpdateSyscallback_spec nap hint m Hpl Htb Hm Hc)
    as (nap' & r & ? & ? & _ & ? & _). by exists nap', r.
Qed.

Lemma syscallback_checked_witness :
  let hint := sample_policy <| su_syscallback := -32 |> in
  exists nap' r, UpdateSyscallback sample_app hint = mret (nap', r) /\ callback_inv nap' /\
    (r = OK_CODE <-> su_syscallback hint = 0 \/ code_address sample_app (su_syscallback hint)).
Proof.
  intros hint. apply (syscallback_checked sample_app hint sample_manifest);
    [apply (ai_placed _ _ sample_inv)|split; done|done|done].
Defined.

(** C39: a hint of 0 lifts the memory limit.  In calls from the user side with
    a memory limit other than 0 the runtime makes no host memory calls, the
    memory being preallocated; when the limit is positive, a setup call after the first whose hint asks for a memory
    limit of 0 sets the limit to 0, which the runtime takes for no limit, so
    that host memory calls are made again.  The call answers OK when the hint
    exceeds no limit and names no handler. *)
Theorem zero_hint_lifts_memory_limit nap m h hint :
  later_setup nap m h hint -> length (channels hint) = length (channels (user_setup m)) ->
  whole_chunk nap = true -> 0 < max_mem (user_setup m) -> max_mem hint = 0 ->
  exists nap' r hint', TrapUserSetupHandle nap h hint = mret (nap', r, hint') /\ whole_chunk nap' = false /\
    (request_within hint (user_setup m) = true -> su_syscallback hint = 0 -> r = OK_CODE).
Proof.
  intros Hls Hlen Hw Hmm H0. pose proof Hls as [Hpl Htb Hm Hh Hcb [_ Hlim]].
  destruct (UserSetup_later nap m h hint Hls) as (nap' & r & hint' & m' & Hrun & Hnap & _ & Hmem).
  destruct (UserSetup_spec nap h hint m Hpl Htb Hm Hh Hcb Hlen) as (n2 & r2 & h2 & m2 & Hrun2 & _ & _ & _ & _ & Hr).
  rewrite Hrun in Hrun2. injection Hrun2 as <- <- <-. exists nap', r, hint'. split; [done|]. split.
  - rewrite Hnap. unfold whole_chunk in *. cbn. rewrite Hmem, H0, Z.min_l by lia. by rewrite andb_false_r.
  - intros Hin Hcb0. destruct (decide _) in Hr; [lia|]. destruct Hr as [_ Hr]. apply Hr. split; [by right|by left].
Qed.

Definition limited_policy (z : Z) : SetupList := sample_policy <| max_mem := z |> <| cnt_setup_calls := 1 |>.

Lemma zero_hint_lifts_memory_limit_witness :
  let nap := sample_app <| manifest := Some (sample_manifest <| user_setup := limited_policy 1048576 |>) |>
                        <| user_side_flag := true |> in
  whole_chunk nap = true /\
  exists nap' hint', TrapUserSetupHandle nap 200000 (limited_policy 0) = mret (nap', OK_CODE, hint') /\ whole_chunk nap' = false.
Proof.
  intros nap. split; [reflexivity|].
  destruct (zero_hint_lifts_memory_limit nap (sample_manifest <| user_setup := limited_policy 1048576 |>) 200000 (limited_policy 0))
    as (nap' & r & hint' & Hrun & Hw & Hr); try done.
  rewrite (Hr eq_refl eq_refl) in Hrun. by exists nap', hint'.
Defined.

(** ** Accounting *)

(** AccountingGetsDec undoes AccountingGetsInc on any channel, at the
    boundary of the counter too. *)
Theorem gets_dec_inc ch m :
  Forall (fun c => is_i32 (cnt_gets c)) (channels (user_setup m)) ->
  AccountingGetsDec ch (AccountingGetsInc ch (Some m)).2 = (0, Some m).
Proof. apply GetsDec_GetsInc. Qed.

Lemma gets_dec_inc_witness :
  AccountingGetsDec 1 (AccountingGetsInc 1 (Some sample_manifest)).2 = (0, Some sample_manifest).
Proof. apply gets_dec_inc. by repeat constructor. Defined.

(** AccountingSyscallsDec, AccountingMemDec and AccountingSetupcallsDec
    increment their counter: each is the same function as its Inc. *)
Theorem dec_increments m :
  AccountingSyscallsDec m = AccountingSyscallsInc m /\ AccountingMemDec m = AccountingMemInc m /\
  AccountingSetupcallsDec m = AccountingSetupcallsInc m /\
  (AccountingSyscallsDec (Some sample_manifest)).2 <> Some sample_manifest.
Proof. split_and!; [done|done|done|]. vm_compute. intros [=]. Qed.
