(* ===== verification/RunProperties.v ===== *)
(** * From the file to the running program

    The composition of the loader with the system calls: a program that was
    loaded and then runs under any manifest never leaves its sandbox. *)

From S2P Require Import Prelude Effects Rounding Bytes Gio MemObj Vmmap VmmapSpec VmmapCompact.
From S2P Require Import DynArray Policy App HostDesc Elf Memory MemorySafe AddrSpace Validate.
From S2P Require Import DynText Trampoline Loader LoaderSpec SampleImage Trap Syscalls Isolation.
From S2P Require Import Sample.

(** A manifest as SetupUserPolicy leaves it: no handler installed, and the fixed
    number of channels. *)
Definition manifest_fresh (mf : Manifest) : Prop :=
  su_syscallback (user_setup mf) = 0 /\ length (channels (user_setup mf)) = CHANNELS_COUNT.

Lemma loaded_rt_inv `{HV : Validator} `{HSy : Symbols} nap m m' mf :
  loaded nap m m' -> manifest_fresh mf -> rt_inv (nap <| manifest := Some mf |>) (image_entries nap).
Proof.
  intros [Hlay Hinv _ [Hb Hcb] _ _ _] [Hs Hc]. pose proof (layout_order nap Hlay) as (? & ? & ? & ? & ? & _).
  pose proof Hlay as [_ _ _ _ _ [_ [_ Hd]] [_ [Hst _]]]. split.
  - destruct Hinv as [[] ? [] ? ? ?]. by split.
  - split; cbn; zlia.
  - left. cbn. done.
  - done.
  - by intros m0 [= <-].
Qed.

(** C2: from the file to isolation.  Given a new application that
    NaClAppLoadFile loads with LOAD_OK and a manifest with no handler installed:
    in every state reachable by system calls, on any host, the invariant holds,
    the code pages are recorded as the loader mapped them, the limits have not
    grown and every host call made was allowed in the sense of isolation.
    Conditions: the padded text ends at or below the dynamic text and there is a
    rodata or data segment ([separated]), the kernel's reservation is a user
    address, there is memory for the map's entries, the thunk page is new, the
    template symbols lie in the runtime, and file and validator obey their
    interfaces. *)
Theorem loaded_program_isolated {G : Type} `{HG : Gio G} `{HL : !GioLaws G} `{HH : Host} `{HS : Shm}
    `{HV : Validator} `{HVL : !ValidatorLaws} `{HSy : Symbols}
    rng (gp : G) shm nap m l gp' nap' m' mf tr nap2 :
  malloc_ok sizeof_NaClVmmapEntry = true -> user_reservation ->
  gio_ok gp -> NaClAppWithSyscallTableCtor shm = Some nap ->
  NaClAppLoadFile rng gp nap m = (l, Ret (gp', nap', m', LOAD_OK)) ->
  linked nap' m -> fresh_page nap' (dispatch_thunk nap') -> separated nap' -> manifest_fresh mf ->
  reachable (nap' <| manifest := Some mf |>) tr nap2 ->
  exists es, rt_inv nap2 es /\ evolves (nap' <| manifest := Some mf |>) (image_entries nap') nap2 es /\
    Forall (syscall_event (nap' <| manifest := Some mf |>)) tr.
Proof.
  intros He Hres Hg Hc Hrun Hl Hf Hs Hmf Hr. eapply reachable_inv; [|exact Hr].
  apply (loaded_rt_inv nap' m m'); [|done].
  exact (LoadFile_spec He rng gp nap m l gp' nap' m' Hg (Ctor_fresh shm nap Hc) Hres Hrun Hl Hf Hs).
Qed.

(** The sample file, loaded, and its first system call: a munmap. *)
Definition tiny_call (n : NaClApp) : M switch :=
  NaClSyscallCSegHook (H := good_host) (munmap_stack 77309411328) (fun _ => sample_policy) syscall_table 5 6
    (n <| manifest := Some sample_manifest |>) (77309411328 + 65536).

Lemma tiny_call_returns nap l gp' n m' e :
  new_app = Some nap -> load_run tiny_file nap = (l, Ret (gp', n, m', e)) ->
  exists ev s, tiny_call n = ([ev], Ret s).
Proof.
  assert (Hc : match new_app with
    | Some nap => match load_run tiny_file nap with
      | (_, Ret (_, n, _, _)) => match tiny_call n with ([_], Ret _) => true | _ => false end
      | _ => false end
    | None => false end = true) by (vm_compute; reflexivity).
  intros Hn Hl. rewrite Hn, Hl in Hc. destruct (tiny_call n) as [[|ev []] [s|]]; try discriminate Hc. by exists ev, s.
Qed.

Lemma loaded_program_isolated_witness :
  exists nap' tr nap2 es, tr <> [] /\ reachable (nap' <| manifest := Some sample_manifest |>) tr nap2 /\
    rt_inv nap2 es /\ static_text_end nap' = 196608.
Proof.
  destruct tiny_loads as (nap & l & gp' & nap' & m' & Hnew & Hrun & Hlink & Hfresh & Hsep).
  destruct (tiny_call_returns nap l gp' nap' m' LOAD_OK Hnew Hrun) as (ev & s & Hcall).
  assert (Hr : reachable (nap' <| manifest := Some sample_manifest |>) ([] ++ [ev]) (sw_app s)).
  { eapply (reach_syscall _ _ _ good_host); [apply reach_start|apply sample_setup_typed| |exact Hcall].
    split; [discriminate|reflexivity]. }
  destruct (loaded_program_isolated (HH := load_host) (HS := load_shm) (HV := load_validator)
    (HSy := load_symbols) (fun _ => 1000) tiny_file false nap runtime_memory l gp' nap' m' sample_manifest
    ([] ++ [ev]) (sw_app s) eq_refl load_host_reserves tiny_file_ok Hnew Hrun
    Hlink Hfresh Hsep (conj eq_refl eq_refl) Hr) as (es & Hrt & _).
  exists nap', [ev], (sw_app s), es. split; [discriminate|]. split; [exact Hr|]. split; [exact Hrt|].
  pose proof tiny_run as Ht. rewrite Hnew, Hrun in Ht. by injection Ht.
Defined.
