(* ===== verification/ValidatorProperties.v ===== *)
(** * Properties of the validator

    Code that passes [ApplyValidator] is sandboxed; the pass ends, reads and
    writes only what it may; the parts it is built from - trimming, decoding,
    the ring of instructions, the sets of addresses, the copy of code - do what their callers rely on. *)

From S2P Require Import Prelude Effects Stateful Bytes OpKinds DecodeTables OpcodeTable InstBuffer.
From S2P Require Import ExpVector InstState InstTrans InstDecode TransSpec DecodeSpec InstIter.
From S2P Require Import IterSpec ValState AddressSet ValSpec Jumps CheckSpec JumpSpec ProtectBase.
From S2P Require Import BaseSpec MemProtect MemSpec Illegal CpuChecks CpuSpec ValidateIter LoopSpec.
From S2P Require Import SegmentSpec Sandbox App Validate NcValidate CopyCode CopySpec X64Validator.
From S2P Require Import Rounding Gio MemObj Vmmap VmmapSpec VmmapCompact DynArray Policy HostDesc.
From S2P Require Import Elf Memory MemorySafe AddrSpace DynText Trampoline Loader LoaderSpec.
From S2P Require Import SampleImage.

(** ** Concrete code *)

(** [l] at address 0x11000, halts elsewhere. *)
Definition code_at (l : list Z) : memory := fun x =>
  if 69632 <=? x then nth (Z.to_nat (x - 69632)) l 244 else 244.

Lemma code_at_bytes l : forallb (fun b => (0 <=? b) && (b <? 256)) l = true -> forall x, is_byte (code_at l x).
Proof.
  intros Hl x. unfold code_at, is_byte. case_match; [|lia]. generalize (Z.to_nat (x - 69632)). intros n.
  revert n. induction l as [|b l IH]; intros n; [destruct n; simpl; lia|]. simpl in Hl. zbool. destruct n; simpl; [lia|by apply IH].
Qed.

(** [and $-32,%eax; add %r15,%rax; jmp *%rax]. *)
Definition masked_jump : list Z := [131; 224; 224; 76; 1; 248; 255; 224].

Lemma size_64 : 0 <= 64 < two64.
Proof. done. Qed.

Lemma no_query : @None bool <> Some true.
Proof. done. Qed.

(** The answer of a call without the memory. *)
Definition verdict (o : outcome (NaClValidationStatus * memory * bool)) : option (NaClValidationStatus * bool) :=
  match o with Ret (st, _, r) => Some (st, r) | Fault _ => None end.

Lemma verdict_inv o st r : verdict o = Some (st, r) -> exists m', o = Ret (st, m', r).
Proof. destruct o as [[[st' m'] r']|f]; [|done]. intros [= <- <-]. by exists m'. Qed.

Lemma returns_inv {A} (o : outcome A) : match o with Ret _ => true | Fault _ => false end = true -> exists r, o = Ret r.
Proof. destruct o as [r|f]; [by exists r|done]. Qed.

Lemma loads_inv (o : outcome (NaClErrorCode * memory)) :
  match o with Ret (e, _) => e = LOAD_OK | Fault _ => False end -> exists m', o = Ret (LOAD_OK, m').
Proof. destruct o as [[e m']|f]; [|done]. intros ->. by exists m'. Qed.

(** ** The verdict *)

(** C3: code that ApplyValidator accepts without a hit in the validation cache
    and without overwriting it - the text is read-only, or the verdict is
    recorded - is unchanged, and but for trailing halts it is a list of
    instructions of the sandbox: each one is legal and supported by the CPU; no
    instruction sets %r15 or a segment register, and %rsp and %rbp are set only
    in the allowed forms; a memory operand is a constant displacement from
    %r15, %rsp, %rbp or %rip, with no index register or (not for %rip) one that
    the instruction before zero extended; every direct jump goes to an
    instruction that may be entered or to a bundle outside; every register jump
    follows a masking sequence, of its own register or, with [add], of some
    register; every start of a bundle can be entered. *)
Theorem validated_code_sandboxed `{Host} verbosity features guest m data size ro query m' recorded :
  (forall x, is_byte (m x)) -> 0 <= size < two64 -> query <> Some true -> ro = true \/ recorded = true ->
  ApplyValidator_x86_64 verbosity features guest m data size false ro query = Ret (NaClValidationSucceeded, m', recorded) ->
  m' = m /\ exists size' h R, 0 < size' <= size /\ (forall x, size' <= x < size -> m (data + x) = kNaClHalt) /\
    sandboxed kNaClValDecoderTables features m data guest size' h R.
Proof.
  intros Hm Hs Hq Hro Hr. pose proof (wpo_run _ _ _ _ (X64Validator.entry_ok verbosity features guest m data size false ro query Hm Hs Hq) Hr) as Ha.
  destruct Ha as (_ & H1 & H2 & H3). split; [naive_solver|].
  destruct (H3 eq_refl eq_refl Hro) as (size' & h & R & Ht & Hsz & Hsb). exists size', h, R. split_and!; try done; try lia.
  apply (trim_ok _ _ _ _ Ht). lia.
Qed.

Lemma validated_code_sandboxed_witness :
  exists m', ApplyValidator_x86_64 (H:=good_host) 0 NaClSetAllCPUFeatures 131072 (code_at masked_jump) 69632 64 false true None =
      Ret (NaClValidationSucceeded, m', false) /\ m' = code_at masked_jump /\
    exists size' h R, 0 < size' <= 64 /\ (forall x, size' <= x < 64 -> code_at masked_jump (69632 + x) = kNaClHalt) /\
      sandboxed kNaClValDecoderTables NaClSetAllCPUFeatures (code_at masked_jump) 69632 131072 size' h R.
Proof.
  destruct (verdict_inv (ApplyValidator_x86_64 (H:=good_host) 0 NaClSetAllCPUFeatures 131072 (code_at masked_jump) 69632 64 false true None)
    NaClValidationSucceeded false) as [m' E]; [vm_compute; reflexivity|].
  exists m'. split; [exact E|]. eapply (validated_code_sandboxed (H:=good_host) 0 NaClSetAllCPUFeatures 131072 (code_at masked_jump) 69632 64 true None);
    [apply code_at_bytes; reflexivity|exact size_64|exact no_query|left; reflexivity|exact E].
Defined.

(** C5: validation ends: whatever the bytes of the segment are, in every mode
    and for every answer of the cache, no loop of the validator exceeds its
    bound - the walk over the instructions one turn per byte, the decoder
    chains the length of their tables, the recursion over an operand the
    number of its nodes. *)
Theorem validation_terminates `{Host} verbosity features guest m data size stub ro query :
  (forall x, is_byte (m x)) -> 0 <= size < two64 ->
  ApplyValidator_x86_64 verbosity features guest m data size stub ro query <> Fault OutOfFuel.
Proof.
  intros Hm Hs Hf. destruct (decide (query = Some true)) as [->|Hq].
  - destruct stub.
    + pose proof (X64Validator.entry_ok verbosity features guest m data size true ro None Hm Hs ltac:(done)) as He. unfold wpo in He.
      change (ApplyValidator_x86_64 verbosity features guest m data size true ro (Some true))
        with (ApplyValidator_x86_64 verbosity features guest m data size true ro None) in Hf. rewrite Hf in He. by apply He.
    + unfold ApplyValidator_x86_64 in Hf. simpl in Hf. by destruct (negb _).
  - pose proof (X64Validator.entry_ok verbosity features guest m data size stub ro query Hm Hs Hq) as He. rewrite Hf in He. by apply He.
Qed.

Lemma validation_terminates_witness :
  ApplyValidator_x86_64 (H:=good_host) 0 NaClSetAllCPUFeatures 131072 (code_at masked_jump) 69632 64 true false None <> Fault OutOfFuel.
Proof. apply (validation_terminates (H:=good_host)); [by apply code_at_bytes|done]. Defined.

(** C17: what validation writes: a byte of the process memory keeps its value
    or becomes a halt inside the segment, and a read-only segment is not
    written at all, whatever the verdict. *)
Theorem validation_writes_halts `{Host} verbosity features guest m data size stub ro query st m' recorded :
  (forall x, is_byte (m x)) -> 0 <= size < two64 -> query <> Some true ->
  ApplyValidator_x86_64 verbosity features guest m data size stub ro query = Ret (st, m', recorded) ->
  (forall x, m' x = m x \/ (m' x = kNaClFullStop /\ data <= x < data + size)) /\ (ro = true -> m' = m).
Proof.
  intros Hm Hs Hq Hr. pose proof (wpo_run _ _ _ _ (X64Validator.entry_ok verbosity features guest m data size stub ro query Hm Hs Hq) Hr) as Ha.
  split; apply Ha.
Qed.

Lemma validation_writes_halts_witness :
  exists m', ApplyValidator_x86_64 (H:=good_host) 0 NaClSetAllCPUFeatures 131072 (code_at [15; 5]) 69632 64 true false None =
      Ret (NaClValidationSucceeded, m', false) /\
    (forall x, m' x = code_at [15; 5] x \/ (m' x = kNaClFullStop /\ 69632 <= x < 69632 + 64)) /\ (false = true -> m' = code_at [15; 5]).
Proof.
  destruct (verdict_inv (ApplyValidator_x86_64 (H:=good_host) 0 NaClSetAllCPUFeatures 131072 (code_at [15; 5]) 69632 64 true false None)
    NaClValidationSucceeded false) as [m' E]; [vm_compute; reflexivity|].
  exists m'. split; [exact E|].
  eapply (validation_writes_halts (H:=good_host)); [apply code_at_bytes; reflexivity|exact size_64|exact no_query|exact E].
Defined.



(** ** The loader and the validator *)

(** A call of the interface with read-only text that succeeds. *)
Lemma accepted_sandboxed `{Host} verbosity features nap guest m data size :
  fixed_feature_cpu_mode nap = true -> 0 <= size < two64 ->
  accepted (H := x86_64_validator verbosity features) nap guest m data size ->
  exists m0 size' h R, (forall x, m x = m0 x) /\ 0 < size' <= size /\
    (forall x, size' <= x < size -> u8 (m0 (data + x)) = kNaClHalt) /\
    sandboxed kNaClValDecoderTables features (as_bytes m0) data guest size' h R.
Proof.
  intros Hfix Hs (m0 & Hacc). rewrite Hfix in Hacc.
  apply validator_inv in Hacc as (m1 & r & Hmv & _ & Hro & _ & Hsb). specialize (Hro eq_refl). subst m1.
  rewrite u64_small in Hsb by done. destruct (Hsb eq_refl eq_refl ltac:(by left)) as (size' & h & R & Ht & Hsz & Hbox).
  exists m0, size', h, R. split_and!; [|lia|lia| |exact Hbox].
  - intros x. subst m. by apply overlay_same.
  - apply (trim_ok _ _ _ _ Ht). lia.
Qed.

(** C4: when NaClValidateImage with the x86-64 validator returns LOAD_OK,
    with validation switched on and the text treated as read-only
    (fixed_feature_cpu_mode), the static text in the resulting memory is
    sandboxed code but for trailing halts, and nothing else has changed. *)
Theorem image_sandboxed `{Host} verbosity features nap m m' :
  0 <= mem_start nap -> mem_start nap + two32 < two64 -> 0 <= static_text_end nap < two32 ->
  skip_validator nap = false -> ignore_validator_result nap = false -> fixed_feature_cpu_mode nap = true ->
  NaClValidateImage (H := x86_64_validator verbosity features) nap m = Ret (LOAD_OK, m') ->
  let text := mem_start nap + NACL_TRAMPOLINE_END in
  let size := static_text_end nap - NACL_TRAMPOLINE_END in
  (forall x, ~ text <= x < text + size -> m' x = m x) /\
  exists m0 size' h R, (forall x, m' x = m0 x) /\ 0 < size' <= size /\
    (forall x, size' <= x < size -> u8 (m0 (text + x)) = kNaClHalt) /\
    sandboxed kNaClValDecoderTables features (as_bytes m0) text NACL_TRAMPOLINE_END size' h R.
Proof.
  intros H0 H1 H2 Hskip Hign Hfix Hrun text size. apply ValidateImage_spec in Hrun as (Hle & Hout & Hacc); try done.
  split; [intros x Hx; apply Hout; unfold text, size in *; lia|]. change NACL_TRAMPOLINE_END with 131072 in *.
  eapply accepted_sandboxed; [exact Hfix|unfold size in *; zlia|by apply Hacc].
Qed.

(** An application whose text is one bundle with a masked jump and one of
    halts. *)
Definition text_app : NaClApp :=
  mkApp 32 NACL_DEFAULT_STACK_MAX (2 ^ 36) 131136 196608 262144 0 262144 266240 131072 0 32
    (mkVmmap [None] 0 1 true) true (Some 7) (Some [0]) [] 0 0 0 0 (-1) false false false true 0 266240
    (mkDynArray 0 [None] 1 [0] 0) None false 0 0 0.

Definition text_memory : memory := fun x => code_at masked_jump (x - 2 ^ 36 - 131072 + 69632).

Lemma image_sandboxed_witness :
  exists m', NaClValidateImage (H := x86_64_validator (H := good_host) 0 NaClSetAllCPUFeatures) text_app text_memory = Ret (LOAD_OK, m') /\
  let text := mem_start text_app + NACL_TRAMPOLINE_END in
  let size := static_text_end text_app - NACL_TRAMPOLINE_END in
  (forall x, ~ text <= x < text + size -> m' x = text_memory x) /\
  exists m0 size' h R, (forall x, m' x = m0 x) /\ 0 < size' <= size /\
    (forall x, size' <= x < size -> u8 (m0 (text + x)) = kNaClHalt) /\
    sandboxed kNaClValDecoderTables NaClSetAllCPUFeatures (as_bytes m0) text NACL_TRAMPOLINE_END size' h R.
Proof.
  assert (Hv : exists m', NaClValidateImage (H := x86_64_validator (H := good_host) 0 NaClSetAllCPUFeatures) text_app text_memory = Ret (LOAD_OK, m')).
  { apply loads_inv. vm_compute. reflexivity. }
  destruct Hv as [m' E]. exists m'. split; [exact E|].
  apply (image_sandboxed (H := good_host) 0 NaClSetAllCPUFeatures text_app text_memory m');
    [clear; done|clear; done|clear; done|reflexivity|reflexivity|reflexivity|exact E].
Defined.

(** The text of a loaded program: the composition of loading and validation.
    The static text of the program in memory, but for trailing halts, is
    sandboxed code as it stands after the trampolines were written and the
    pages protected. *)
Theorem loaded_text_sandboxed {G : Type} `{HG : Gio G} `{HL : !GioLaws G} `{HH : Host} `{HS : Shm} `{HSy : Symbols}
    verbosity features rng (gp : G) nap m l gp' nap' m' :
  malloc_ok sizeof_NaClVmmapEntry = true -> user_reservation ->
  gio_ok gp -> fresh_app nap ->
  NaClAppLoadFile (HV := x86_64_validator verbosity features) rng gp nap m = (l, Ret (gp', nap', m', LOAD_OK)) ->
  linked nap' m -> fresh_page nap' (dispatch_thunk nap') -> separated nap' ->
  skip_validator nap' = false -> ignore_validator_result nap' = false -> fixed_feature_cpu_mode nap' = true ->
  let text := mem_start nap' + NACL_TRAMPOLINE_END in
  let size := static_text_end nap' - NACL_TRAMPOLINE_END in
  exists mv size' h R, (forall x, text <= x < text + size -> m' x = mv x) /\ 0 < size' <= size /\
    (forall x, size' <= x < size -> u8 (mv (text + x)) = kNaClHalt) /\
    sandboxed kNaClValDecoderTables features (as_bytes mv) text NACL_TRAMPOLINE_END size' h R.
Proof.
  intros He Hr Hg Hc Hrun Hlink Hfresh Hsep Hskip Hign Hfix text size.
  pose proof (LoadFile_spec (HV := x86_64_validator verbosity features) He rng gp nap m l gp' nap' m' Hg Hc Hr Hrun Hlink Hfresh Hsep)
    as [Hlay _ _ _ _ Htext _].
  assert (Hs : 0 <= size < two64).
  { destruct Hlay. unfold size in *. change NACL_TRAMPOLINE_END with 131072 in *. zlia. }
  destruct (Htext Hskip Hign) as (mv & Hacc & Hsame). apply accepted_sandboxed in Hacc as (m0 & size' & h & R & Hmm & Hsz & Hh & Hbox); try done.
  exists m0, size', h, R. split_and!; [|lia|lia|exact Hh|exact Hbox].
  intros x Hx. rewrite Hsame by (unfold text, size in *; lia). apply Hmm.
Qed.

(** ** A hole in the jump check *)

(** The instruction right before the current one. *)
Definition inst_before (tables : NaClDecodeTables) : Val NaClInst :=
  slot ← lookback tables 1; s ← inst_in slot; lift (NaClInstStateInst s).

(** After an instruction that is no lea, the lea pattern fails for every
    register in the same way. *)
Lemma lea_mask_blind tables r r' v i v1 :
  inst_before tables v = Ret (i, v1) -> inst_name i = InstAdd ->
  NaClGetLeaMask64 tables 1 r v = NaClGetLeaMask64 tables 1 r' v.
Proof.
  unfold inst_before, NaClGetLeaMask64, mbind, St_bind. intros Hb Hi.
  destruct (has_lookback 1 v) as [[[] v2]|f] eqn:Hh; cbn [negb].
  - assert (v2 = v) as ->.
    { unfold has_lookback, mbind, St_bind in Hh. destruct (the_iter v) as [[it v3]|] eqn:He; [|done].
      unfold the_iter, mbind, St_bind, get, lift in He. injection Hh as _ <-. repeat case_match; by simplify_eq. }
    destruct (lookback tables 1 v) as [[slot v3]|]; [|done]. destruct (inst_in slot v3) as [[st v4]|]; [|done].
    destruct (lift _ _) as [[j v5]|]; [|done]. injection Hb as -> ->. by rewrite Hi.
  - done.
  - done.
Qed.

(** C21: the register of a jump is not checked after add.  When the instruction
    before a register jump is an add, the check of the jump does the same for
    every 64-bit register, in every state of the validator in which the two
    instructions before the jump can be looked up: and $-32,%eax; add %r15,%rax;
    jmp *%rbx is treated like jmp *%rax.  (The comment in the code asks for one
    register in all three.) *)
Theorem jump_register_unchecked verbosity tables reg reg' r r' v a v0 i v1 :
  has_eflag reg ExprSize64 = true -> has_eflag reg' ExprSize64 = true ->
  NaClGetExpRegisterInline reg = Ret r -> NaClGetExpRegisterInline reg' = Ret r' ->
  r <> RegUnknown -> r' <> RegUnknown ->
  NaClGetAndMaskReg32 tables 2 v = Ret (a, v0) -> inst_before tables v0 = Ret (i, v1) -> inst_name i = InstAdd ->
  NaClAddRegisterJumpIndirect64 verbosity tables reg v = NaClAddRegisterJumpIndirect64 verbosity tables reg' v.
Proof.
  intros Hs Hs' Hr Hr' Hu Hu' Ha Hb Hi.
  assert (Hm : IsMaskedJump tables reg v = IsMaskedJump tables reg' v).
  { unfold IsMaskedJump. rewrite Hs, Hs', Hr, Hr'. cbn [negb].
    change (lift (Ret ?x)) with (mret (M:=St NaClValidatorState) x). unfold mbind, St_bind, mret, St_ret, lift.
    apply Z.eqb_neq in Hu, Hu'. rewrite Hu, Hu', Ha. destruct (a =? RegUnknown); [done|].
    destruct (NaClGet64For32BitReg a =? RegUnknown); [done|]. cbv beta.
    by rewrite (lea_mask_blind tables r r' v0 i v1 Hb Hi). }
  unfold NaClAddRegisterJumpIndirect64, mbind, St_bind. by rewrite Hm.
Qed.

(** The validator when it reaches the third instruction of a code. *)
Definition third_instruction (l : list Z) : outcome (unit * NaClValidatorState) :=
  match NaClValidatorStateCreate (H := good_host) 131072 64 RegR15 true NaClSetAllCPUFeatures (code_at l) with
  | None => Fault NullDeref
  | Some v =>
      (iter ← lift (NaClInstIterCreateWithLookback (H := good_host) (code_at l) (NaClSegmentInitialize 69632 131072 64) kLookbackSize);
       set_iter (Some iter) ;;
       _ ← NaClValidatorStateIterHasNextInline kNaClValDecoderTables;
       NaClValidatorStateIterAdvanceInline kNaClValDecoderTables ;;
       NaClValidatorStateIterAdvanceInline kNaClValDecoderTables) v
  end.

Definition reg64 (r : NaClOpKind) : NaClExp := mkExp r ExprRegister (2 ^ ExprSize64).

(** The hypotheses of the theorem at that point, as a test. *)
Definition add_before (o : outcome (unit * NaClValidatorState)) : bool :=
  match o with
  | Ret (_, v) =>
      match NaClGetAndMaskReg32 kNaClValDecoderTables 2 v with
      | Ret (a, v0) =>
          match inst_before kNaClValDecoderTables v0 with
          | Ret (i, _) => mnemonic_eqb (inst_name i) InstAdd && (a =? RegEAX)
          | Fault _ => false
          end
      | Fault _ => false
      end
  | Fault _ => false
  end.

Lemma jump_register_unchecked_witness :
  exists v, third_instruction [131; 224; 224; 76; 1; 248; 255; 227] = Ret (tt, v) /\
    NaClAddRegisterJumpIndirect64 0 kNaClValDecoderTables (reg64 RegRBX) v =
    NaClAddRegisterJumpIndirect64 0 kNaClValDecoderTables (reg64 RegRAX) v.
Proof.
  assert (Hadd : add_before (third_instruction [131; 224; 224; 76; 1; 248; 255; 227]) = true) by (vm_compute; reflexivity).
  destruct (third_instruction _) as [[[] v]|]; [|discriminate Hadd]. exists v. split; [reflexivity|].
  unfold add_before in Hadd. destruct (NaClGetAndMaskReg32 _ _ v) as [[a v0]|] eqn:Ha; [|discriminate Hadd].
  destruct (inst_before _ v0) as [[i v1]|] eqn:Hb; [|discriminate Hadd]. apply andb_true_iff in Hadd as [Hi _].
  apply mnemonic_eqb_eq in Hi.
  exact (jump_register_unchecked 0 kNaClValDecoderTables (reg64 RegRBX) (reg64 RegRAX) RegRBX RegRAX v a v0 i v1
    eq_refl eq_refl eq_refl eq_refl ltac:(discriminate) ltac:(discriminate) Ha Hb Hi).
Defined.

(** The whole validator on such code, and on the same code with [lea] in place
    of [add], which is refused unless the jump uses the register of the lea. *)
Example unmasked_jump_accepted :
  verdict (ApplyValidator_x86_64 (H := good_host) 0 NaClSetAllCPUFeatures 131072
    (code_at [131; 224; 224; 76; 1; 248; 255; 227]) 69632 64 false true None) = Some (NaClValidationSucceeded, false) /\
  verdict (ApplyValidator_x86_64 (H := good_host) 0 NaClSetAllCPUFeatures 131072
    (code_at [131; 224; 224; 73; 141; 4; 7; 255; 227]) 69632 64 false true None) = Some (NaClValidationFailed, false) /\
  verdict (ApplyValidator_x86_64 (H := good_host) 0 NaClSetAllCPUFeatures 131072
    (code_at [131; 224; 224; 73; 141; 28; 7; 255; 227]) 69632 64 false true None) = Some (NaClValidationSucceeded, false).
Proof. split_and!; vm_compute; reflexivity. Qed.

(** ** The parts *)

(** C20: trailing halts.  NCHaltTrimSize of a segment that is not empty
    returns a size of at least one byte and at most the segment; the bytes cut
    off are all halts, and when bytes are cut off, the rest is a whole number
    of bundles that keeps at least 16 bytes after the last instruction byte. *)
Theorem halt_trim_correct m base size :
  0 < size -> exists size', NCHaltTrimSize m base size 32 = Ret size' /\ 0 < size' <= size /\
    (forall x, size' <= x < size -> m (base + x) = kNaClHalt) /\
    (size' < size -> size' mod 32 = 0 /\ forall x, 0 < x < size -> m (base + x) <> kNaClHalt -> x + 16 < size').
Proof.
  intros Hs. destruct (NCHaltTrimSize m base size 32) as [size'|f] eqn:E.
  2: { unfold NCHaltTrimSize in E. case_match; zbool; [lia|done]. }
  exists size'. destruct (trim_ok _ _ _ _ E Hs) as [H1 H2]. split_and!; [done|lia|lia|done|]. intros Hlt.
  by apply (trim_kept m base size).
Qed.

Lemma halt_trim_correct_witness :
  exists size', NCHaltTrimSize (code_at masked_jump) 69632 100 32 = Ret size' /\ 0 < size' <= 100 /\
    (forall x, size' <= x < 100 -> code_at masked_jump (69632 + x) = kNaClHalt) /\
    (size' < 100 -> size' mod 32 = 0 /\ forall x, 0 < x < 100 -> code_at masked_jump (69632 + x) <> kNaClHalt -> x + 16 < size').
Proof. apply (halt_trim_correct (code_at masked_jump) 69632 100). lia. Defined.

(** C16: the ring of instructions is the history.  In every iterator that a
    client reaches by decoding and advancing over a segment, the instructions
    seen are a gapless sequence from the start of the segment, and for every
    distance below the ring size, NaClInstIterHasLookbackState tells whether
    there is such an instruction and NaClInstIterGetLookbackState returns it,
    fully decoded, without changing the iterator. *)
Theorem ring_refines_history `{Host} tables m base vb size n it h :
  tables_ok tables = true -> (forall x, is_byte (m x)) -> 0 <= size < two64 -> 0 < n < two32 - 1 ->
  walks tables m base vb size n it h ->
  sweep m tables base size (iter_index it) h /\
  forall d, 0 < d <= n ->
    NaClInstIterHasLookbackStateInline it d = bool_decide (d <= Z.of_nat (length h)) /\
    forall s, h !! Z.to_nat (d - 1) = Some s ->
      exists slot, NaClInstIterGetLookbackStateInline m tables d it = Ret (slot, it) /\ index (buffer it) slot = Ret s.
Proof.
  intros Ht Hm Hs Hn Hw. destruct (walks_inv tables Ht m base vb size n it h Hm Hs Hn Hw) as (a & Hwait & Hsw & Hb).
  pose proof Hwait as [Hwk _ _]. rewrite (wk_index _ _ _ _ _ _ Hwk). split; [done|]. intros d Hd. split.
  - unfold NaClInstIterHasLookbackStateInline. rewrite Hb, (wk_count _ _ _ _ _ _ Hwk). apply eq_true_iff_eq.
    rewrite andb_true_iff, Z.ltb_lt, Z.leb_le, bool_decide_eq_true. lia.
  - intros s Hl. eexists. eapply waiting_lookback; [done|lia|done].
Qed.

(** [k] turns. *)
Fixpoint walk_n (m : memory) (k : nat) (it : NaClInstIter) (h : list NaClInstState) : outcome (NaClInstIter * list NaClInstState) :=
  match k with
  | O => Ret (it, h)
  | S k' =>
      if NaClInstIterHasNextInline it then
        '(s, it') ← walk_step kNaClValDecoderTables m it; walk_n m k' it' (s :: h)
      else Ret (it, h)
  end.

Lemma walk_n_walks `{Host} m base vb size n k it h it' h' :
  walks kNaClValDecoderTables m base vb size n it h -> walk_n m k it h = Ret (it', h') ->
  walks kNaClValDecoderTables m base vb size n it' h'.
Proof.
  revert it h. induction k as [|k IH]; intros it h Hw; simpl; [by intros [= <- <-]|].
  destruct (NaClInstIterHasNextInline it) eqn:Hn; [|by intros [= <- <-]].
  intros ([s it1] & Hs & Hk)%bind_Ret. eapply IH; [|exact Hk]. by econstructor.
Qed.

Lemma three_walks : exists it h, length h = 3%nat /\
  walks (H := good_host) kNaClValDecoderTables (code_at masked_jump) 69632 131072 32 2 it h.
Proof.
  destruct (NaClInstIterCreateWithLookback (H := good_host) (code_at masked_jump) (NaClSegmentInitialize 69632 131072 32) 2) as [it|f] eqn:Hit; [|done].
  assert (Hn : exists it' h', walk_n (code_at masked_jump) 3 it [] = Ret (it', h') /\ length h' = 3%nat).
  { vm_compute in Hit. injection Hit as <-. do 2 eexists. split; [vm_compute; reflexivity|reflexivity]. }
  destruct Hn as (it' & h' & Hn & Hl). exists it', h'. split; [done|]. eapply walk_n_walks; [|exact Hn]. by constructor.
Qed.

Lemma ring_refines_history_witness :
  exists it h, length h = 3%nat /\ walks (H := good_host) kNaClValDecoderTables (code_at masked_jump) 69632 131072 32 2 it h /\
  sweep (code_at masked_jump) kNaClValDecoderTables 69632 32 (iter_index it) h /\
  forall d, 0 < d <= 2 ->
    NaClInstIterHasLookbackStateInline it d = bool_decide (d <= Z.of_nat (length h)) /\
    forall s, h !! Z.to_nat (d - 1) = Some s ->
      exists slot, NaClInstIterGetLookbackStateInline (code_at masked_jump) kNaClValDecoderTables d it = Ret (slot, it) /\
        index (buffer it) slot = Ret s.
Proof.
  destruct three_walks as (it & h & Hl & Hw). exists it, h. split; [exact Hl|]. split; [exact Hw|].
  apply (ring_refines_history (H := good_host) kNaClValDecoderTables (code_at masked_jump) 69632 131072 32 2);
    [apply validator_tables_ok|apply code_at_bytes; reflexivity|done|done|exact Hw].
Defined.

(** C19: the bit arrays are sets of addresses.  For an address inside the
    segment and an array of the size that NaClAddressSetArraySize computes,
    NaClAddressSetAdd adds exactly that address and touches nothing else of
    the state, and NaClAddressSetContains decides membership; both succeed. *)
Theorem address_set_correct verbosity v set a :
  0 <= a < codesize v -> length set = Z.to_nat (NaClAddressSetArraySize (codesize v)) ->
  (exists b, NaClAddressSetContains verbosity set a v = Ret (b, v) /\ (b = true <-> member set a)) /\
  exists set', NaClAddressSetAddInline verbosity possible_targets (fun s j => j <| possible_targets := s |>) a
      (v <| jump_sets := (jump_sets v) <| possible_targets := set |> |>) =
    Ret (tt, v <| jump_sets := (jump_sets v) <| possible_targets := set' |> |>) /\
    length set' = length set /\ forall x, member set' x <-> member set x \/ x = a.
Proof.
  intros Ha Hl. pose proof (array_size_ok (codesize v) a Ha) as Hr.
  destruct (index_ok set (a / 8) ltac:(lia)) as [b Hb]. pose proof Hb as Hb'. apply index_Some in Hb' as [_ Hbs].
  assert (Hc : forall v', codesize v' = codesize v -> NaClCheckAddressRange verbosity a v' = Ret (true, v')).
  { intros v' E. unfold NaClCheckAddressRange, mbind, St_bind, get. rewrite E.
    by replace (codesize v <=? a) with false by (symmetry; apply Z.leb_gt; lia). }
  split.
  - eexists. unfold NaClAddressSetContains, mbind, St_bind. rewrite Hc by done. unfold lift. rewrite offset_div, Hb.
    split; [reflexivity|]. rewrite land_mask by lia. unfold member. split; [intros Ht; split; [lia|by exists b]|]. intros (_ & y & Hy & Ht). congruence.
  - eexists. unfold NaClAddressSetAddInline, mbind, St_bind. rewrite Hc by done. unfold get, lift. simpl. rewrite offset_div, Hb.
    split; [reflexivity|]. split; [apply length_insert|]. intros x. apply member_insert; [lia|done].
Qed.

Lemma address_set_correct_witness :
  exists v, NaClValidatorSetup_x86_64 (H := good_host) NaClSetAllCPUFeatures 131072 64 true (code_at []) = Some v /\
  (exists b, NaClAddressSetContains 0 (replicate 9 0) 33 v = Ret (b, v) /\ (b = true <-> member (replicate 9 0) 33)) /\
  exists set', NaClAddressSetAddInline 0 possible_targets (fun s j => j <| possible_targets := s |>) 33
      (v <| jump_sets := (jump_sets v) <| possible_targets := replicate 9 0 |> |>) =
    Ret (tt, v <| jump_sets := (jump_sets v) <| possible_targets := set' |> |>) /\
    length set' = length (replicate 9 0) /\ forall x, member set' x <-> member (replicate 9 0) x \/ x = 33.
Proof.
  eexists. split; [reflexivity|]. apply (address_set_correct 0); [simpl; lia|reflexivity].
Defined.

(** C18: decoding is bounded.  At every position of a segment
    NaClDecodeInst ends - it never reads outside of an array of the decoder
    nor follows a chain of the opcode tables without end - with an instruction
    that lies inside the segment, has at least one byte when the segment goes
    on and at most 15, holds exactly the bytes of the segment at that
    position, and leaves the reader right behind itself. *)
Theorem decode_bounded m base size addr d :
  (forall x, is_byte (m x)) -> vector_ok (nodes (state_of d)) ->
  at_position m (base + size) (base + addr) addr size (memory_of d) ->
  wp stops (NaClDecodeInst m kNaClValDecoderTables addr size) (fun _ d' => let s := state_of d' in
    inst_addr s = addr /\ 0 <= blength (bytes s) <= 15 /\ addr + blength (bytes s) <= size /\
    (addr < size -> 0 < blength (bytes s)) /\ cur_pos (memory_of d') = base + addr + blength (bytes s) /\
    forall i, 0 <= i < blength (bytes s) -> byte (bytes s) !! Z.to_nat i = Some (m (base + addr + i))) d.
Proof.
  intros Hm Hv Hp. eapply wp_mono; [by eapply (decode_ok m kNaClValDecoderTables Hm validator_tables_ok)|].
  simpl. intros _ d' (len & [[R1 R2 R3 R4 R5 R6 R7 R8 R9] [L1 L2] A U N P T]). rewrite R4. destruct (ap_size _ _ _ _ _ _ Hp) as (P1 & P2 & P3).
  unfold MAX_INST_LENGTH in *. split_and!; try done; lia.
Qed.

Lemma decode_bounded_witness :
  let d := mkDecoding (NCRemainingMemoryInit (code_at masked_jump) 69632 32) empty_state in
  wp stops (NaClDecodeInst (code_at masked_jump) kNaClValDecoderTables 0 32) (fun _ d' => let s := state_of d' in
    inst_addr s = 0 /\ 0 <= blength (bytes s) <= 15 /\ 0 + blength (bytes s) <= 32 /\
    (0 < 32 -> 0 < blength (bytes s)) /\ cur_pos (memory_of d') = 69632 + 0 + blength (bytes s) /\
    forall i, 0 <= i < blength (bytes s) -> byte (bytes s) !! Z.to_nat i = Some (code_at masked_jump (69632 + 0 + i))) d.
Proof.
  intros d. apply (decode_bounded (code_at masked_jump) 69632 32 0 d);
    [apply code_at_bytes; reflexivity|by split|split; [reflexivity|reflexivity|reflexivity|by split_and!]].
Defined.

(** C7: code is replaced atomically, instruction by instruction.  When
    ApplyValidatorCopy returns, the old and the new code were cut into
    instructions at the same addresses, as far as the copy went; in every
    memory that one of its stores produced - what other processors can see
    while they execute the code - each instruction is the old one, the new one,
    or has a halt at its first byte, and the code behind is the old one.  On
    success the copy went to the end and the new code is in place. *)
Theorem code_copy_atomic `{Host} features guest dst src size m c st c' :
  (forall x, is_byte (m x)) -> 0 <= size < two64 -> CopySpec.apart dst src size -> fresh_pages dst src size ->
  c_mem c = m -> c_seen c = [] ->
  ApplyValidatorCopy_x86_64 features guest dst src size c = Ret (st, c') ->
  exists a old new, lays m size dst a old /\ lays m size src a new /\ Forall2 same_bounds old new /\
    (forall m', m' ∈ c_seen c' ->
      (forall s, s ∈ new -> let d := dst + inst_addr s in
        (forall i, 0 <= i < blength (bytes s) -> m' (d + i) = m (d + i)) \/
        (forall i, 0 <= i < blength (bytes s) -> m' (d + i) = m (src + inst_addr s + i)) \/ m' d = kNaClFullStop) /\
      forall i, a <= i < size -> m' (dst + i) = m (dst + i)) /\
    (st = NaClValidationSucceeded -> a = size /\ forall i, 0 <= i < size -> c_mem c' (dst + i) = m (src + i)).
Proof.
  intros Hm Hsize Ha Hf Hc Hs Hr. destruct (copy_ends m size Hm Hsize dst src Ha Hf features guest c st c' Hc Hs Hr)
    as (a & old & new & Lo & Ln & Hb & Hv & Hok).
  exists a, old, new. split_and!; [exact Lo|exact Ln|exact Hb| |].
  - rewrite Forall_forall in Hv. exact Hv.
  - intros Hst. apply Hok. by apply bool_decide_eq_true.
Qed.

(** Five bytes across the border of a word are replaced: the slow path. *)
Definition two_insts : memory := fun x => if x <? 69888 then 144 else 195.
Definition copy_start : CopyState := mkCopy two_insts [] None 0.

Lemma copy_apart : CopySpec.apart 69638 70006 5.
Proof. intros x. lia. Qed.

Lemma copy_pages : fresh_pages (H := load_host) 69638 70006 5.
Proof. intros b [= <-] x Hx. change NACL_MAP_PAGESIZE with 65536. lia. Qed.

(** [mov $imm,%eax] with another constant. *)
Definition new_constant : memory := fun x =>
  if (x =? 69638) || (x =? 70006) then 184 else if x <? 69888 then 17 else 34.
Definition constant_start : CopyState := mkCopy new_constant [] None 0.

Lemma new_constant_bytes x : is_byte (new_constant x).
Proof. unfold new_constant, is_byte. repeat case_match; lia. Qed.

Lemma status_inv (o : outcome (NaClValidationStatus * CopyState)) st :
  match o with Ret (st', _) => bool_decide (st' = st) | Fault _ => false end = true -> exists c', o = Ret (st, c').
Proof. destruct o as [[st' c']|f]; [|done]. intros ->%bool_decide_eq_true. by exists c'. Qed.

Lemma code_copy_atomic_witness :
  exists c', ApplyValidatorCopy_x86_64 (H := load_host) NaClSetAllCPUFeatures 131072 69638 70006 5 constant_start =
      Ret (NaClValidationSucceeded, c') /\
  exists a old new, lays new_constant 5 69638 a old /\ lays new_constant 5 70006 a new /\ Forall2 same_bounds old new /\
    (forall m', m' ∈ c_seen c' ->
      (forall s, s ∈ new -> let d := 69638 + inst_addr s in
        (forall i, 0 <= i < blength (bytes s) -> m' (d + i) = new_constant (d + i)) \/
        (forall i, 0 <= i < blength (bytes s) -> m' (d + i) = new_constant (70006 + inst_addr s + i)) \/ m' d = kNaClFullStop) /\
      forall i, a <= i < 5 -> m' (69638 + i) = new_constant (69638 + i)) /\
    (NaClValidationSucceeded = NaClValidationSucceeded -> a = 5 /\ forall i, 0 <= i < 5 -> c_mem c' (69638 + i) = new_constant (70006 + i)).
Proof.
  destruct (status_inv (ApplyValidatorCopy_x86_64 (H := load_host) NaClSetAllCPUFeatures 131072 69638 70006 5 constant_start)
    NaClValidationSucceeded) as [c' E]; [vm_compute; reflexivity|].
  exists c'. split; [exact E|].
  eapply (code_copy_atomic (H := load_host) NaClSetAllCPUFeatures 131072 69638 70006 5 new_constant constant_start);
    [exact new_constant_bytes|by split|exact copy_apart|exact copy_pages|reflexivity|reflexivity|exact E].
Defined.

(** C8: the copy of an instruction comes to its end.  When the kernel grants
    the page and the protections that serialise the processors, and the page
    kept from an earlier copy is intact, CopyInstructionInternal returns true
    and the new instruction is in place: no thread is left on the halt that
    was put in front of it. *)
Theorem copy_instruction_completes `{Host} dst src sz page c :
  0 < sz -> CopySpec.apart dst src sz -> fresh_pages dst src sz -> (forall a n p, host_mprotect a n p = 0) ->
  result (NaCl_page_alloc 0 NACL_MAP_PAGESIZE) = Ret (page, 0) -> buffer_ok dst sz c -> c_seen c = [] ->
  exists c', CopyInstructionInternal dst src sz c = Ret (true, c') /\
    forall i, 0 <= i < sz -> c_mem c' (dst + i) = c_mem c (src + i).
Proof.
  intros Hsz Ha Hf Hp Hpage Hb Hs. pose proof (copy_progress dst src sz Hsz Hf page Hp Hpage c Hb) as Hpr. unfold wp in Hpr.
  destruct (CopyInstructionInternal dst src sz c) as [[ok c']|f] eqn:Hr; [|done]. subst ok. exists c'. split; [done|].
  assert (Hc : copying dst src sz (c_mem c) c) by (split; [done|by rewrite Hs]).
  by apply (wp_run _ _ _ _ _ _ (copy_instruction_ok dst src sz (c_mem c) Hsz Ha Hf c Hc eq_refl) Hr).
Qed.

Lemma copy_instruction_completes_witness :
  exists c', CopyInstructionInternal (H := load_host) 69638 70006 5 copy_start = Ret (true, c') /\
    forall i, 0 <= i < 5 -> c_mem c' (69638 + i) = c_mem copy_start (70006 + i).
Proof.
  apply (copy_instruction_completes (H := load_host) 69638 70006 5 (2 ^ 35) copy_start);
    [lia|exact copy_apart|exact copy_pages|reflexivity|reflexivity|exact I|reflexivity].
Defined.
